(* ===== verification/_CoqProject ===== *)
-Q . S2P
Prelude.v
Layout.v
Memory.v
CString.v
Interfaces.v
Pmm.v
PageTable.v
AddressSpace.v
Kmalloc.v
Heap.v
HeapSession.v
Mm.v
MmSpec.v
MmInit.v
MmProps.v
MmFree.v
MmFreeProps.v
Printf.v
Sched.v
Ata.v
Ext2.v
Ext2Files.v
Ext2Path.v
Ext2Dents.v
Ext2Mount.v
Gdt.v
Vga.v
Tty.v
Idt.v
Asm.v
Exec.v
ExecSpec.v
Rootfs.v
Syscall.v
SyscallProps.v
ForkSpec.v
Kernel.v
Boot.v
Ext2Ls.v
ExecDrive.v
KernelProps.v
StartInit.v
OpenDrive.v
KernelMain.v
