(* ===== verification/Prelude.v ===== *)
(** Blackcomb: a verified model of a small x86-64 operating system kernel.

    The kernel (the C files below [src/src/] of the repository) boots through
    multiboot2, builds page tables, schedules processes round robin, reads an
    ext2 disk through an ATA driver, and offers nine system calls to the user
    programs.  This library translates its C code into Rocq definitions and
    proves what each part promises to the next.

    * How the code is modelled

    C functions are functions in a state monad with outcomes ([M], below):
    [Ok] with a result and a state, [Panic] for the C function [panic],
    [Fault] for undefined behaviour (a NULL or dangling pointer followed, an
    index out of bounds), [NoFuel] for a loop that did not finish within the
    fuel of the model.  [wp m s Q] is total correctness: [m] ends with [Ok]
    and [Q].  Integers are [Z] with the wrap-around of their width written out
    ([w8], [w16], [w32], [w64], and [s32] for [int]); memory is a map from
    64-bit addresses to bytes ([Memory]); structs that the code reads or writes
    in raw memory are laid out from their declarations by [Layout].

    * The files and the parts of the kernel they model

    - [Prelude]: the monad and its rules, machine integers, list lemmas;
      [panic] of [lib/util.c], the macros of [include/util.h].
    - [Layout], [Memory]: struct layouts; byte memory, loads, stores, [memset],
      [memcpy].  [CString]: the rest of [lib/string.c].
    - [Interfaces]: the contracts between components.  [FrameOps]/[FrameLaws]:
      the frame allocator as the memory manager sees it; [FrameNull]: what it
      does when it is given the frame 0 that it never handed out.  [HeapOps]/[HeapLaws]:
      the kernel heap as its callers see it.  [FileSystem]: the operations of
      the mounted file system.
    - [Pmm]: [mm/pmm.c], with the multiboot2 memory map; an instance of the
      frame contract ([pmm_frame_laws]).
    - [PageTable], [AddressSpace]: [mm/vmm.c] up to [vmm_unmap_page]: the
      four-level tables in physical memory, and their refinement of a finite
      map from pages to entries ([space]).
    - [Kmalloc], [Heap], [HeapSession]: [mm/kmalloc.c] and [sbrk]; the instance
      of the heap contract; sequences of calls of one client.
    - [Mm], [MmSpec], [MmProps]: the rest of [mm/vmm.c]: areas, [mm_new],
      [mm_dupe], [mm_free], [anon_mmap], the copies into other address spaces.
      [MmInit]: the kernel's own map, built from the zeroed objects of the image.
      [MmFree], [MmFreeProps]: what a space owns, and that [mm_free] gives it back.
    - [Printf]: the functions of [lib/printf.c] that the build compiles.
    - [Sched]: [kernel/sched.c], [kernel/exit.c], [kernel/fork.c].
    - [Ata], [Ext2], [Rootfs]: [drivers/ata.c], [fs/ext2.c], and the instance of
      [FileSystem] that they make.  [Ext2Files]: an inode on the drive, and what
      reading it leaves in memory; [Ext2Path]: path resolution over the directories
      of the drive; [Ext2Dents]: [ext2_getdents].  [Ext2Mount]: [ext2_mount_rootfs].
      [Ext2Ls]: [ext2_ls].
    - [Gdt], [Vga], [Tty], [Idt]: [mm/gdt.c]; [kernel/vgaterm.c];
      [drivers/ps2.c] and [kernel/tty.c]; [drivers/int.c].
    - [Exec], [ExecSpec]: [fs/exec.c], [sched_exec], [start_init],
      [create_init].  [ExecDrive]: [exec_elf] over the kernel's own heap, file
      system and drive.
    - [Syscall], [SyscallProps], [ForkSpec]: [fs/open.c] and [kernel/sys.c].
      [OpenDrive]: [do_open] over the kernel's own heap, file system and drive.
    - [Asm]: a small x86-64 machine (registers, stack, privilege, model-specific
      registers, gates) and the listings of [kernel/syscall.asm] and of the
      common code of [drivers/int_table.asm], with the frames of [kernel/fork.c]
      that they pop.
    - [Kernel], [KernelProps]: the components put together on one state,
      [kernel_main] of [kernel/main.c], the steps of the running kernel and the
      invariant that they keep.  [Boot]: the first part of [kernel_main], up to
      a working heap.  [StartInit]: [start_init] on the kernel's state.
      [KernelMain]: the whole of [kernel_main].

    * How the parts interact

    A client is verified against the contract of [Interfaces], not against the
    code it calls: [PageTable] for every frame allocator, [Mm] and [Exec] for
    every frame allocator and every heap, [Exec] and [Syscall] for every file
    system.  The states nest the same way: the memory manager's state [vm]
    holds the frame allocator and the heap; the scheduler's state [sched] holds
    an environment.  [Kernel] chooses them: the environment is [vm], its heap
    is the console of [Tty] (screen, ports, heap and memory), and the terminal's
    operations are brought to that state by [in_tty].  Objects that the C code allocates and reaches by pointers (tasks,
    files, address spaces and their areas) live in stores indexed by the address
    that the heap answered, so that aliasing and dangling pointers are those of
    the code; bytes (page tables, heap headers, file buffers, descriptors, the
    screen) live in memory.

    Hardware is a parameter: port instructions are [PortOps], and the documented
    behaviour that a driver relies on is a class with laws ([AtaDrive],
    [CrtPorts], [KbdPorts], [PicPorts]), each with a simulated device that
    satisfies it and on which the theorems are instantiated.  A drive is busy for
    some polls of its status after a command and between two sectors, takes
    commands and hands out words only when it is not, and is busy for at most
    [ata_polls] of them.  [Board] in
    [KernelMain] is what the devices of one machine promise one another: ports of
    the others do not disturb an idle drive, and the keyboard controller answers
    its self test.

    * What the theorems show

    - Frames: allocation answers a zeroed frame that was free, no frame is lost
      or handed out twice, the kernel image is kept out ([Pmm]).
    - Page tables refine finite maps; spaces that share no table do not affect
      each other ([AddressSpace]).  The heap refines first fit with coalescing
      over the list of its blocks ([Kmalloc]).
    - The heap is type safe: a client that frees and writes what it holds never
      sees a block twice, loses a byte or gets stuck ([HeapSession]).  What
      [mm_dupe] took, [mm_free] gives back, up to the root table, for which it
      releases frame 0 ([MmFreeProps]).
    - Booting: from the state that the loader leaves, [kernel_main] returns with
      the segments and the gates in the tables that the registers point to and
      the system call registers set, in the first program of the drive, on a
      kernel stack in a block of its own, and in a state with the invariant of
      [KernelProps] ([KernelMain], [StartInit]).  Its parts: memory, after which
      what the theorems about memory assume holds ([Boot]);
      the map that it loads reaches 4 MiB of physical memory and no more
      ([MmInit]); mounting a drive whose first data block is
      block 1 and whose groups are full reads its layout: the reference
      ([disk_view]) is that of ext2, group descriptors in the block behind the
      superblock and the last partial group included ([Ext2Mount]).
    - From sectors to programs: [ext2_namei] refines the resolution of a path over
      the directories of the drive ([Ext2Path]), [ext2_read_file] leaves the
      file's bytes and zeros behind them ([Ext2Files]), [exec_elf] of a path
      maps the segments of the program that the drive has under it ([ExecDrive]),
      and [do_open] of a path makes a descriptor of the inode under it
      ([OpenDrive]).  The reference compares whole names ([resolve]); where the
      code would take a shorter name for the component is excluded ([walkable]).
      All of them say which blocks of the heap stay in use afterwards: only the
      objects that the call makes ([space_blocks] for an address space).
    - [mm_dupe] makes a deep copy, [exec_elf] puts the bytes of the segments
      where the headers say ([MmProps], [ExecSpec]); [fork] is followed from the
      system call to the page tables and to the child's own kernel stack
      ([ForkSpec]).
    - Every sequence of system calls, interrupts and resumed calls that leaves the
      terminal's struct to the terminal's code ([kernel_step]) keeps the ring
      of runnable tasks well formed, with the task that waits for the terminal
      outside of it and every task in at most one place ([KernelProps]); every
      runnable task runs ([Sched]).
    - The assembly code and the structs of the C code agree: a system call saves
      and restores the registers of the program, a stack switch resumes where the
      other one was left, the frame that fork builds starts the child with [rax]
      zero at the parent's return address ([Asm]).
    - Round trips: map/unmap, malloc/free, open/close, print/parse, encode/decode
      of descriptors, keyboard to [read].
    - Error behaviour: exhaustion, the exact effect of the code on inputs that it
      does not handle.  The places where the code does something else than it
      means to are stated as theorems about the code as it is.

    * Fuel

    Loops over C strings, directory entries, block lists and polls of a status
    port take fuel.  Theorems name the fuel that is enough (the length of the
    string plus one, the number of blocks, the number of polls before a drive is
    ready), and loops that the code bounds itself are structural.

    * Not modelled

    Floating point and [long long] of [lib/printf.c] are compiled out
    (see the [Makefile]).  Page faults, the translation of the addresses that a
    system call gets from the user (they are followed in the memory of the
    kernel heap's state), caches and the other processors are outside the model;
    an interrupt happens between two operations.  The code's own accesses to
    physical memory through [P_TO_V] are not checked against the page tables that
    are loaded; that the map of [kernel_mm_init] covers less than the allocator
    hands out is part of the theorem about it ([MmInit]).  The kernel does not check the
    addresses that a program passes, so the steps of [Kernel] ask that a system
    call other than [read], [write] and [exit] leaves the bytes of the terminal's
    struct alone.  [Asm] has the
    instructions that the two listings use; [entry.asm] (32-bit code that builds
    the first page tables) and [gdt_reload.asm] are not modelled, nor is the
    C compiler: that the compiled C code keeps the calling convention is a
    hypothesis ([c_call]) of the theorems about the listings.  The user programs
    are data. *)

From Stdlib Require Export ZArith Lia.
From stdpp Require Export base numbers list gmap strings option.

#[global] Open Scope Z_scope.

(** ** Outcomes of kernel code

    [Panic] is a call of the C function [panic] (which never returns),
    [Fault] is undefined behaviour or a CPU fault (a NULL or dangling pointer
    followed, an array indexed out of range), [NoFuel] is a loop of the model
    that did not finish within its fuel. *)
Inductive result (A : Type) : Type :=
  | Ok (a : A)
  | Panic (msg : string)
  | Fault
  | NoFuel.
Arguments Ok {A} a.
Arguments Panic {A} msg.
Arguments Fault {A}.
Arguments NoFuel {A}.

#[export] Instance result_eq_dec {A} `{EqDecision A} : EqDecision (result A).
Proof. unfold EqDecision, Decision. decide equality; solve_decision. Defined.

(** ** The state monad with outcomes *)
Definition M (S A : Type) : Type := S → result (A * S).

Definition mret_ {S A} (a : A) : M S A := λ s, Ok (a, s).
Definition mbind_ {S A B} (m : M S A) (f : A → M S B) : M S B := λ s,
  match m s with
  | Ok (a, s') => f a s'
  | Panic msg => Panic msg
  | Fault => Fault
  | NoFuel => NoFuel
  end.
Definition panic {S A} (msg : string) : M S A := λ _, Panic msg.
Definition fault {S A} : M S A := λ _, Fault.
Definition nofuel {S A} : M S A := λ _, NoFuel.
Definition gets {S A} (f : S → A) : M S A := λ s, Ok (f s, s).
Definition modify {S} (f : S → S) : M S unit := λ s, Ok (tt, f s).
Definition from_opt {S A} (o : option A) : M S A :=
  match o with Some a => mret_ a | None => fault end.

Declare Scope kernel_scope.
Delimit Scope kernel_scope with kernel.
Notation "'let*' x := m 'in' k" := (mbind_ m (λ x, k))
  (at level 10, x binder, m at level 100, k at level 200) : kernel_scope.
Notation "m ';;*' k" := (mbind_ m (λ _, k))
  (at level 99, k at level 200, right associativity) : kernel_scope.
#[global] Open Scope kernel_scope.

(** Total correctness: the computation finishes normally and its result and
    final state satisfy [Q]. *)
Definition wp {S A} (m : M S A) (s : S) (Q : A → S → Prop) : Prop :=
  match m s with Ok (a, s') => Q a s' | _ => False end.

Section wp_rules.
Context {S : Type}.
Implicit Types (s : S).

Lemma wp_ret {A} (a : A) s (Q : A → S → Prop) : Q a s → wp (mret_ a) s Q.
Proof. done. Qed.

Lemma wp_bind {A B} (m : M S A) (f : A → M S B) s Q :
  wp m s (λ a s', wp (f a) s' Q) → wp (mbind_ m f) s Q.
Proof. unfold wp, mbind_. by destruct (m s) as [[]| | |]. Qed.

Lemma wp_bind_inv {A B} (m : M S A) (f : A → M S B) s Q :
  wp (mbind_ m f) s Q → wp m s (λ a s', wp (f a) s' Q).
Proof. unfold wp, mbind_. by destruct (m s) as [[]| | |]. Qed.

Lemma wp_mono {A} (m : M S A) s (Q Q' : A → S → Prop) :
  wp m s Q → (∀ a s', Q a s' → Q' a s') → wp m s Q'.
Proof. unfold wp. destruct (m s) as [[]| | |]; eauto. Qed.

Lemma wp_and {A} (m : M S A) s (Q1 Q2 : A → S → Prop) :
  wp m s Q1 → wp m s Q2 → wp m s (λ a s', Q1 a s' ∧ Q2 a s').
Proof. unfold wp. destruct (m s) as [[]| | |]; tauto. Qed.

Lemma wp_gets {A} (f : S → A) s (Q : A → S → Prop) : Q (f s) s → wp (gets f) s Q.
Proof. done. Qed.

Lemma wp_modify (f : S → S) s (Q : unit → S → Prop) :
  Q tt (f s) → wp (modify f) s Q.
Proof. done. Qed.

Lemma wp_from_opt {A} (o : option A) a s (Q : A → S → Prop) :
  o = Some a → Q a s → wp (from_opt o) s Q.
Proof. by intros ->. Qed.

Lemma wp_run {A} (m : M S A) s Q :
  wp m s Q ↔ ∃ a s', m s = Ok (a, s') ∧ Q a s'.
Proof.
  unfold wp. destruct (m s) as [[a s']| | |]; split; try done.
  - intros HQ. by exists a, s'.
  - by intros (? & ? & [= -> ->] & ?).
  - by intros (? & ? & ? & ?).
  - by intros (? & ? & ? & ?).
  - by intros (? & ? & ? & ?).
Qed.
End wp_rules.

(** Partial correctness: if the computation finishes normally, its result and
    final state satisfy [Q]. *)
Definition wlp {S A} (m : M S A) (s : S) (Q : A → S → Prop) : Prop :=
  match m s with Ok (a, s') => Q a s' | _ => True end.

Section wlp_rules.
Context {S : Type}.
Lemma wlp_ret {A} (a : A) (s : S) (Q : A → S → Prop) : Q a s → wlp (mret_ a) s Q.
Proof. done. Qed.
Lemma wlp_bind {A B} (m : M S A) (f : A → M S B) s Q :
  wlp m s (λ a s', wlp (f a) s' Q) → wlp (mbind_ m f) s Q.
Proof. unfold wlp, mbind_. by destruct (m s) as [[]| | |]. Qed.
Lemma wlp_gets {A} (f : S → A) s (Q : A → S → Prop) : Q (f s) s → wlp (gets f) s Q.
Proof. done. Qed.
Lemma wlp_modify (f : S → S) s (Q : unit → S → Prop) : Q tt (f s) → wlp (modify f) s Q.
Proof. done. Qed.
Lemma wlp_mono {A} (m : M S A) s (Q Q' : A → S → Prop) :
  wlp m s Q → (∀ a s', Q a s' → Q' a s') → wlp m s Q'.
Proof. unfold wlp. destruct (m s) as [[]| | |]; eauto. Qed.
Lemma wp_wlp {A} (m : M S A) s Q : wp m s Q → wlp m s Q.
Proof. unfold wp, wlp. by destruct (m s) as [[]| | |]. Qed.
Lemma wlp_run {A} (m : M S A) s Q a s' : wlp m s Q → m s = Ok (a, s') → Q a s'.
Proof. unfold wlp. intros H Hm. by rewrite Hm in H. Qed.
End wlp_rules.

(** Either a normal result in [Q], or a call of [panic] and [P] holds. *)
Definition wpp {S A} (m : M S A) (s : S) (Q : A → S → Prop) (P : Prop) : Prop :=
  match m s with Ok (a, s') => Q a s' | Panic _ => P | _ => False end.

Section wpp_rules.
Context {S : Type}.
Lemma wpp_bind {A B} (m : M S A) (f : A → M S B) (s : S) R Q P :
  wp m s R → (∀ a s', R a s' → wpp (f a) s' Q P) → wpp (mbind_ m f) s Q P.
Proof.
  intros Hm Hf. unfold wp in Hm. unfold wpp, mbind_.
  destruct (m s) as [[a s']| | |]; [by apply Hf|done..].
Qed.
Lemma wpp_step {A B} (m : M S A) (f : A → M S B) (s : S) Q P :
  wp m s (λ a s', wpp (f a) s' Q P) → wpp (mbind_ m f) s Q P.
Proof. intros Hm. by eapply wpp_bind. Qed.
Lemma wpp_of_wp {A} (m : M S A) (s : S) Q P : wp m s Q → wpp m s Q P.
Proof. unfold wpp, wp. by destruct (m s) as [[]| | |]. Qed.
Lemma wpp_bind_wpp {A B} (m : M S A) (f : A → M S B) (s : S) Q P :
  wpp m s (λ a s', wpp (f a) s' Q P) P → wpp (mbind_ m f) s Q P.
Proof. unfold wpp, mbind_. by destruct (m s) as [[]| | |]. Qed.
Lemma wpp_assoc {A B C} (m : M S A) (f : A → M S B) (g : B → M S C) (s : S) Q P :
  wpp (mbind_ (mbind_ m f) g) s Q P → wpp (mbind_ m (λ a, mbind_ (f a) g)) s Q P.
Proof. unfold wpp, mbind_. by destruct (m s) as [[]| | |]. Qed.
Lemma wpp_ret {A} (a : A) (s : S) (Q : A → S → Prop) P : Q a s → wpp (mret_ a) s Q P.
Proof. done. Qed.
Lemma wpp_mono {A} (m : M S A) (s : S) (Q Q' : A → S → Prop) (P P' : Prop) :
  wpp m s Q P → (∀ a s', Q a s' → Q' a s') → (P → P') → wpp m s Q' P'.
Proof. unfold wpp. destruct (m s) as [[]| | |]; eauto. Qed.
Lemma wpp_wp {A} (m : M S A) (s : S) Q P : wpp m s Q P → ¬ P → wp m s Q.
Proof. unfold wpp, wp. destruct (m s) as [[]| | |]; tauto. Qed.
Lemma wpp_wlp {A} (m : M S A) (s : S) Q P : wpp m s Q P → wlp m s Q.
Proof. unfold wpp, wlp. destruct (m s) as [[]| | |]; tauto. Qed.
Lemma wpp_panic {A} (m : M S A) (s : S) Q P :
  wpp m s Q P → (∀ a s', ¬ Q a s') → ∃ msg, m s = Panic msg.
Proof. unfold wpp. destruct (m s) as [[]| | |]; naive_solver. Qed.
End wpp_rules.

(** Partial correctness for an invariant [I] of the state: a computation that
    finishes normally from a state in [I] ends in [I] with a result in [Q]. *)
Definition keeps {S A} (I : S → Prop) (m : M S A) (Q : A → Prop) : Prop :=
  ∀ s, I s → match m s with Ok (a, s') => I s' ∧ Q a | _ => True end.

Section keeps_rules.
Context {S : Type} (I : S → Prop).

Lemma keeps_ret {A} (a : A) (Q : A → Prop) : Q a → keeps I (mret_ a) Q.
Proof. by intros HQ s Hs. Qed.
Lemma keeps_bind {A B} (m : M S A) (f : A → M S B) R Q :
  keeps I m R → (∀ a, R a → keeps I (f a) Q) → keeps I (mbind_ m f) Q.
Proof.
  intros Hm Hf s Hs. specialize (Hm s Hs). unfold mbind_.
  destruct (m s) as [[a s']| | |]; [|done..]. destruct Hm as [Hs' Ha]. by apply Hf.
Qed.
Lemma keeps_gets {A} (f : S → A) : keeps I (gets f) (λ _, True).
Proof. done. Qed.
Lemma keeps_fault {A} (Q : A → Prop) : keeps I fault Q.
Proof. done. Qed.
Lemma keeps_nofuel {A} (Q : A → Prop) : keeps I nofuel Q.
Proof. done. Qed.
Lemma keeps_from_opt {A} (o : option A) : keeps I (from_opt o) (λ _, True).
Proof. by destruct o. Qed.
Lemma keeps_mono {A} (m : M S A) (Q Q' : A → Prop) :
  keeps I m Q → (∀ a, Q a → Q' a) → keeps I m Q'.
Proof. intros H HQ s Hs. specialize (H s Hs). destruct (m s) as [[]| | |]; naive_solver. Qed.
Lemma keeps_wlp {A} (m : M S A) Q s : keeps I m Q → I s → wlp m s (λ a s', I s' ∧ Q a).
Proof. intros H Hs. exact (H s Hs). Qed.
Lemma keeps_run {A} (m : M S A) Q s a s' : keeps I m Q → I s → m s = Ok (a, s') → I s' ∧ Q a.
Proof. intros H Hs Hm. specialize (H s Hs). by rewrite Hm in H. Qed.
End keeps_rules.

(** A computation on a part of the state. *)
Definition zoom {S T A} (get : S → T) (put : T → S → S) (m : M T A) : M S A := λ s,
  match m (get s) with
  | Ok (a, t) => Ok (a, put t s)
  | Panic msg => Panic msg
  | Fault => Fault
  | NoFuel => NoFuel
  end.
Lemma wp_zoom {S T A} (get : S → T) (put : T → S → S) (m : M T A) s (Q : A → S → Prop) :
  wp m (get s) (λ a t, Q a (put t s)) → wp (zoom get put m) s Q.
Proof. unfold wp, zoom. by destruct (m (get s)) as [[]| | |]. Qed.

(** [for (i = lo; i < lo + n; i++) body(i)] *)
Fixpoint for_ {S} (n : nat) (i : Z) (body : Z → M S unit) : M S unit :=
  match n with
  | O => mret_ tt
  | S n' => body i ;;* for_ n' (i + 1) body
  end.

Lemma wp_for {S} (I : Z → S → Prop) n : ∀ lo (body : Z → M S unit) s,
  I lo s →
  (∀ i s, lo ≤ i < lo + Z.of_nat n → I i s → wp (body i) s (λ _ s', I (i + 1) s')) →
  wp (for_ n lo body) s (λ _ s', I (lo + Z.of_nat n) s').
Proof.
  induction n as [|n IH]; intros lo body s H0 Hb; simpl.
  - apply wp_ret. by rewrite Z.add_0_r.
  - apply wp_bind. eapply wp_mono; [apply Hb; [lia|done]|]. intros [] s1 H1.
    replace (lo + Z.of_nat (Datatypes.S n)) with (lo + 1 + Z.of_nat n) by lia.
    apply IH; [done|]. intros i s2 Hi. apply Hb. lia.
Qed.

(** Step through a [wp] goal: binds, reads, writes and returns. *)
Ltac wp_step :=
  lazymatch goal with
  | |- wp (mbind_ _ _) _ _ => apply wp_bind
  | |- wp (mret_ _) _ _ => apply wp_ret
  | |- wp (gets _) _ _ => apply wp_gets
  | |- wp (modify _) _ _ => apply wp_modify
  | |- wp (from_opt _) _ _ => eapply wp_from_opt; [eassumption|]
  end; cbv beta.
Ltac wp_steps := repeat wp_step.

(** ** Machine integers: C's unsigned and signed integers as [Z] *)
Definition w8 (x : Z) : Z := x mod 2 ^ 8.
Definition w16 (x : Z) : Z := x mod 2 ^ 16.
Definition w32 (x : Z) : Z := x mod 2 ^ 32.
Definition w64 (x : Z) : Z := x mod 2 ^ 64.
Definition s8 (x : Z) : Z := (x + 2 ^ 7) mod 2 ^ 8 - 2 ^ 7.
Definition s16 (x : Z) : Z := (x + 2 ^ 15) mod 2 ^ 16 - 2 ^ 15.
Definition s32 (x : Z) : Z := (x + 2 ^ 31) mod 2 ^ 32 - 2 ^ 31.
Definition s64 (x : Z) : Z := (x + 2 ^ 63) mod 2 ^ 64 - 2 ^ 63.

Lemma w64_small x : 0 ≤ x < 2 ^ 64 → w64 x = x.
Proof. apply Z.mod_small. Qed.
Lemma w32_small x : 0 ≤ x < 2 ^ 32 → w32 x = x.
Proof. apply Z.mod_small. Qed.
Lemma w16_small x : 0 ≤ x < 2 ^ 16 → w16 x = x.
Proof. apply Z.mod_small. Qed.
Lemma w8_small x : 0 ≤ x < 2 ^ 8 → w8 x = x.
Proof. apply Z.mod_small. Qed.
Lemma s64_small x : - 2 ^ 63 ≤ x < 2 ^ 63 → s64 x = x.
Proof. intros. unfold s64. rewrite Z.mod_small; lia. Qed.
Lemma s32_small x : - 2 ^ 31 ≤ x < 2 ^ 31 → s32 x = x.
Proof. intros. unfold s32. rewrite Z.mod_small; lia. Qed.
Lemma w64_range x : 0 ≤ w64 x < 2 ^ 64.
Proof. apply Z.mod_pos_bound. lia. Qed.
Lemma w32_range x : 0 ≤ w32 x < 2 ^ 32.
Proof. apply Z.mod_pos_bound. lia. Qed.
Lemma w8_range x : 0 ≤ w8 x < 2 ^ 8.
Proof. apply Z.mod_pos_bound. lia. Qed.

(** ** Constants and macros of [include/defs.h] and [include/util.h] *)
Definition PAGE_SIZE : Z := 4096.
Definition PAGE_MASK : Z := 0xFFF.

Definition ALIGNUP (val align : Z) : Z := w64 (Z.land (w64 (val + (align - 1))) (w64 (- align))).
Definition ALIGNDOWN (val align : Z) : Z := w64 (Z.land val (Z.lnot (align - 1))).
Definition DIV_CEIL (x y : Z) : Z := (x + y - 1) / y.

(** [x & ~PAGE_MASK]: the page a 64-bit value points to. *)
Definition page_base (x : Z) : Z := Z.land x (Z.lnot PAGE_MASK).

(** ** Bit arithmetic shared by the components *)
Lemma land_lnot_ones x n :
  0 ≤ n → Z.land x (Z.lnot (2 ^ n - 1)) = x - x mod 2 ^ n.
Proof.
  intros Hn.
  replace (2 ^ n - 1) with (Z.ones n) by (rewrite Z.ones_equiv; lia).
  rewrite <- Z.ldiff_land, Z.ldiff_ones_r, Z.shiftl_mul_pow2, Z.shiftr_div_pow2 by done.
  pose proof (Z.div_mod x (2 ^ n)). lia.
Qed.

Lemma page_base_eq x : page_base x = x - x mod PAGE_SIZE.
Proof. apply (land_lnot_ones x 12). lia. Qed.

Lemma land_page_mask x : Z.land x PAGE_MASK = x mod PAGE_SIZE.
Proof. change PAGE_MASK with (Z.ones 12). by apply Z.land_ones. Qed.

(** Setting low bits of an aligned value is addition. *)
Lemma lor_aligned_low a b n :
  0 ≤ n → a mod 2 ^ n = 0 → 0 ≤ b < 2 ^ n → Z.lor a b = a + b.
Proof.
  intros Hn Ha Hb.
  assert (Z.land a b = 0) as Hz.
  { apply Z.bits_inj'. intros i Hi. rewrite Z.land_spec, Z.bits_0.
    destruct (Z.lt_ge_cases i n).
    - rewrite <- (Z.mod_pow2_bits_low a n i), Ha, Z.bits_0 by lia. done.
    - rewrite <- (Z.mod_small b (2 ^ n)), Z.mod_pow2_bits_high by lia.
      by rewrite andb_false_r. }
  by rewrite <- Z.lxor_lor, <- Z.add_nocarry_lxor by done.
Qed.

Lemma page_base_lor p f :
  p mod PAGE_SIZE = 0 → 0 ≤ f < PAGE_SIZE → page_base (Z.lor p f) = p.
Proof.
  intros Hp Hf. rewrite page_base_eq, (lor_aligned_low p f 12) by (done || lia).
  unfold PAGE_SIZE in *. rewrite <- Z.add_mod_idemp_l, Hp by lia.
  rewrite (Z.mod_small (0 + f)) by lia. lia.
Qed.

Lemma page_base_aligned x : page_base x mod PAGE_SIZE = 0.
Proof.
  rewrite page_base_eq. unfold PAGE_SIZE.
  rewrite Zminus_mod_idemp_r, Z.sub_diag. done.
Qed.

Lemma div_ceil_le x y k : 0 < y → 0 ≤ x → DIV_CEIL x y ≤ k ↔ x ≤ k * y.
Proof.
  intros Hy Hx. unfold DIV_CEIL.
  pose proof (Z.div_mod (x + y - 1) y ltac:(lia)) as Hd.
  pose proof (Z.mod_pos_bound (x + y - 1) y Hy). split; intros; nia.
Qed.

Lemma land_w64 x y : 0 ≤ x < 2 ^ 64 → Z.land x (w64 y) = Z.land x y.
Proof.
  intros Hx. unfold w64. rewrite <- Z.land_ones by lia.
  rewrite Z.land_assoc, (Z.land_comm x y), <- Z.land_assoc, (Z.land_ones x) by lia.
  by rewrite (Z.mod_small x) by done.
Qed.

(** Aligning up and down to a power of two. *)
Lemma align_up_eq v k :
  0 ≤ k → 0 ≤ v → v + (2 ^ k - 1) < 2 ^ 64 →
  ALIGNUP v (2 ^ k) = (v + (2 ^ k - 1)) - (v + (2 ^ k - 1)) mod 2 ^ k.
Proof.
  intros Hk Hv Hb. assert (0 < 2 ^ k) by (apply Z.pow_pos_nonneg; lia).
  unfold ALIGNUP. rewrite (w64_small (v + _)), land_w64 by lia.
  replace (- 2 ^ k) with (Z.lnot (2 ^ k - 1)) by (unfold Z.lnot; lia).
  rewrite land_lnot_ones by done.
  pose proof (Z.mod_pos_bound (v + (2 ^ k - 1)) (2 ^ k)).
  pose proof (Z.mod_le (v + (2 ^ k - 1)) (2 ^ k)). apply w64_small. lia.
Qed.

Lemma page_align_up_bounds v :
  0 ≤ v → v + 4095 < 2 ^ 64 → v ≤ ALIGNUP v PAGE_SIZE < v + PAGE_SIZE ∧ ALIGNUP v PAGE_SIZE mod PAGE_SIZE = 0.
Proof.
  intros Hv Hb. unfold PAGE_SIZE. change 4096 with (2 ^ 12). rewrite align_up_eq by (done || lia).
  change (2 ^ 12) with 4096. pose proof (Z.mod_pos_bound (v + (4096 - 1)) 4096).
  split; [lia|]. by rewrite Zminus_mod_idemp_r, Z.sub_diag.
Qed.

Lemma page_align_down_eq v : 0 ≤ v < 2 ^ 64 → ALIGNDOWN v PAGE_SIZE = v - v mod PAGE_SIZE.
Proof.
  intros Hv. unfold ALIGNDOWN. change (PAGE_SIZE - 1) with (2 ^ 12 - 1).
  rewrite land_lnot_ones by done. change (2 ^ 12) with PAGE_SIZE. unfold PAGE_SIZE.
  pose proof (Z.mod_pos_bound v 4096). pose proof (Z.mod_le v 4096). apply w64_small. lia.
Qed.
