(* ===== verification/Layout.v ===== *)
(** C struct layouts, as the x86-64 ABI and [__attribute__((packed))] lay them
    out.

    A [layout] lists the members of a struct: name, size of an element and
    number of elements.  Offsets and sizes are computed from the list, so that
    the headers' struct declarations are the only place where they come from. *)

From S2P Require Import Prelude.

Definition member : Type := string * Z * Z.
Abbreviation layout := (list member).

(** A scalar member and an array member. *)
Definition u8 (name : string) : member := (name, 1, 1).
Definition u16 (name : string) : member := (name, 2, 1).
Definition u32 (name : string) : member := (name, 4, 1).
Definition u64 (name : string) : member := (name, 8, 1).
Definition arr (name : string) (elt n : Z) : member := (name, elt, n).

Definition member_size (x : member) : Z := x.1.2 * x.2.
Definition round_up (x a : Z) : Z := (x + a - 1) / a * a.

(** Where a member starts when the members before it end at [off]; a member of
    a packed struct has alignment 1, otherwise the size of its elements. *)
Definition member_start (packed : bool) (off : Z) (x : member) : Z :=
  if packed then off else round_up off (x.1.2).

Fixpoint offset_from (packed : bool) (off : Z) (l : layout) (name : string) : Z :=
  match l with
  | [] => -1
  | x :: l' =>
      let start := member_start packed off x in
      if String.eqb (x.1.1) name then start else offset_from packed (start + member_size x) l' name
  end.
Definition offsetof (packed : bool) (l : layout) (name : string) : Z := offset_from packed 0 l name.

Definition end_of (packed : bool) (l : layout) : Z :=
  fold_left (λ off x, member_start packed off x + member_size x) l 0.
Definition alignof (packed : bool) (l : layout) : Z :=
  if packed then 1 else foldr (λ x a, Z.max (x.1.2) a) 1 l.
Definition sizeof (packed : bool) (l : layout) : Z := round_up (end_of packed l) (alignof packed l).

(** The offset of a member as a literal. *)
Notation "'field_of' p l name" := (ltac:(let x := eval vm_compute in (offsetof p l name) in exact x))
  (at level 10, p at level 9, l at level 9, name at level 9, only parsing) : kernel_scope.

(** Members do not overlap: one that comes later starts behind the end of one
    that comes before. *)
Lemma round_up_ge x a : 0 < a → x ≤ round_up x a.
Proof. intros. unfold round_up. pose proof (Z.div_mod (x + a - 1) a). pose proof (Z.mod_pos_bound (x + a - 1) a). nia. Qed.
Lemma member_start_ge p off x : 0 < x.1.2 → off ≤ member_start p off x.
Proof. intros. unfold member_start. destruct p; [lia|]. by apply round_up_ge. Qed.

Definition good_member (x : member) : Prop := 0 < x.1.2 ∧ 0 ≤ x.2.

Lemma offset_from_ge p l name off :
  Forall good_member l → name ∈ (λ x : member, x.1.1) <$> l → off ≤ offset_from p off l name.
Proof.
  revert off. induction l as [|x l IH]; intros off Hl Hin; simpl in *; [by apply not_elem_of_nil in Hin|].
  apply Forall_cons_1 in Hl as [[H1 H2] Hl]. pose proof (member_start_ge p off x H1).
  destruct (String.eqb_spec (x.1.1) name) as [|Hne]; [done|].
  apply elem_of_cons in Hin as [->|Hin]; [done|].
  specialize (IH (member_start p off x + member_size x) Hl Hin). unfold member_size in *. nia.
Qed.

Lemma offsets_disjoint p l1 x l2 name :
  Forall good_member (l1 ++ x :: l2) → NoDup ((λ x : member, x.1.1) <$> (l1 ++ x :: l2)) →
  name ∈ (λ x : member, x.1.1) <$> l2 →
  ∀ off, offset_from p off (l1 ++ x :: l2) (x.1.1) + member_size x ≤ offset_from p off (l1 ++ x :: l2) name.
Proof.
  induction l1 as [|y l1 IH]; intros Hl Hnd Hin off.
  - cbn [app fmap list_fmap offset_from] in *. apply Forall_cons_1 in Hl as [_ Hl]. apply list.NoDup_cons in Hnd as [Hx Hnd].
    rewrite String.eqb_refl. destruct (String.eqb_spec (x.1.1) name) as [<-|_]; [done|].
    by apply offset_from_ge.
  - cbn [app fmap list_fmap offset_from] in *. apply Forall_cons_1 in Hl as [_ Hl]. apply list.NoDup_cons in Hnd as [Hy Hnd].
    rewrite fmap_app, fmap_cons in Hy.
    destruct (String.eqb_spec (y.1.1) (x.1.1)) as [E|_]; [rewrite E in Hy; set_solver|].
    destruct (String.eqb_spec (y.1.1) name) as [E|_]; [rewrite E in Hy; set_solver|]. by apply IH.
Qed.
