(* ===== verification/Memory.v ===== *)
(** Byte-addressed memory and the memory routines of [lib/string.c].

    The kernel's address space is one map from 64-bit virtual addresses to
    bytes.  Loads return bytes whatever the map holds, an address that was
    never written reads as an arbitrary fixed value (0), and every theorem
    quantifies over the map.  Physical memory is reached, as in the code,
    through the mapping at [PHYS_MAPPING_START] ([P_TO_V]). *)

From S2P Require Import Prelude.

Abbreviation mem := (gmap Z Z).

(** ** Loads and stores of little-endian integers *)
Definition ld8 (m : mem) (a : Z) : Z := w8 (default 0 (m !! a)).
Definition st8 (m : mem) (a v : Z) : mem := <[a := w8 v]> m.

Fixpoint ld (n : nat) (m : mem) (a : Z) : Z :=
  match n with
  | O => 0
  | S n' => ld8 m a + 256 * ld n' m (a + 1)
  end.
Fixpoint st (n : nat) (m : mem) (a v : Z) : mem :=
  match n with
  | O => m
  | S n' => st n' (st8 m a v) (a + 1) (v / 256)
  end.

Definition ld16 := ld 2.
Definition ld32 := ld 4.
Definition ld64 := ld 8.
Definition st16 := st 2.
Definition st32 := st 4.
Definition st64 := st 8.

(** [include/vmm.h]: the mapping of all physical memory. *)
Definition PHYS_MAPPING_START : Z := 0xffff888000000000.
Definition P_TO_V (x : Z) : Z := w64 (PHYS_MAPPING_START + x).

(** ** [lib/string.c]: [memset] and [memcpy], byte by byte *)
Fixpoint memset_loop (m : mem) (s c i : Z) (n : nat) : mem :=
  match n with
  | O => m
  | S n' => memset_loop (st8 m (s + i) c) s c (i + 1) n'
  end.
Definition memset (m : mem) (s c n : Z) : mem := memset_loop m s c 0 (Z.to_nat n).

Fixpoint memcpy_loop (m : mem) (dest src i : Z) (n : nat) : mem :=
  match n with
  | O => m
  | S n' => memcpy_loop (st8 m (dest + i) (ld8 m (src + i))) dest src (i + 1) n'
  end.
Definition memcpy (m : mem) (dest src n : Z) : mem :=
  memcpy_loop m dest src 0 (Z.to_nat n).

(** ** Laws of loads and stores *)
Lemma ld8_range m a : 0 ≤ ld8 m a < 256.
Proof. apply (w8_range (default 0 (m !! a))). Qed.

Lemma ld8_st8 m a v b : ld8 (st8 m a v) b = if decide (a = b) then w8 v else ld8 m b.
Proof.
  unfold ld8, st8. rewrite lookup_insert. case_decide; [|done].
  simpl. unfold w8. by rewrite Z.mod_mod.
Qed.
Lemma ld8_st8_eq m a v : ld8 (st8 m a v) a = w8 v.
Proof. rewrite ld8_st8. by rewrite decide_True. Qed.
Lemma ld8_st8_ne m a b v : a ≠ b → ld8 (st8 m a v) b = ld8 m b.
Proof. intros. rewrite ld8_st8. by rewrite decide_False. Qed.

Lemma ld8_st_ne n m a v b : b < a ∨ a + Z.of_nat n ≤ b → ld8 (st n m a v) b = ld8 m b.
Proof.
  revert m a v. induction n as [|n IH]; intros m a v Hb; simpl; [done|].
  rewrite IH, ld8_st8_ne by lia. done.
Qed.

(** A byte after the same store into two memories. *)
Lemma ld8_st_cong n m m' a v b : ld8 m b = ld8 m' b → ld8 (st n m a v) b = ld8 (st n m' a v) b.
Proof.
  revert m m' a v. induction n as [|n IH]; intros m m' a v Hb; simpl; [done|].
  apply IH. rewrite !ld8_st8. by rewrite Hb.
Qed.

Lemma ld_ext n m m' a :
  (∀ b, a ≤ b < a + Z.of_nat n → ld8 m b = ld8 m' b) → ld n m a = ld n m' a.
Proof.
  revert a. induction n as [|n IH]; intros a H; simpl; [done|].
  rewrite H, (IH (a + 1)) by (intros; try apply H; lia). done.
Qed.

Lemma ld_range n m a : 0 ≤ ld n m a < 256 ^ Z.of_nat n.
Proof.
  revert a. induction n as [|n IH]; intros a; [simpl; lia|].
  cbn [ld]. pose proof (ld8_range m a). specialize (IH (a + 1)).
  rewrite Nat2Z.inj_succ, Z.pow_succ_r by lia. lia.
Qed.

Lemma ld_st_eq n m a v : ld n (st n m a v) a = v mod 256 ^ Z.of_nat n.
Proof.
  revert m a v. induction n as [|n IH]; intros m a v.
  { simpl. by rewrite Z.mod_1_r. }
  cbn [ld st]. rewrite IH, ld8_st_ne, ld8_st8_eq by lia.
  rewrite Nat2Z.inj_succ, Z.pow_succ_r by lia.
  rewrite (Z.rem_mul_r v 256) by lia. done.
Qed.

Lemma ld_st_ne n k m a v b :
  b + Z.of_nat k ≤ a ∨ a + Z.of_nat n ≤ b → ld k (st n m a v) b = ld k m b.
Proof. intros. apply ld_ext. intros. apply ld8_st_ne. lia. Qed.

Lemma ld64_st64_eq m a v : 0 ≤ v < 2 ^ 64 → ld64 (st64 m a v) a = v.
Proof. intros. unfold ld64, st64. rewrite ld_st_eq, Z.mod_small; lia. Qed.
Lemma ld64_st64_ne m a v b : b + 8 ≤ a ∨ a + 8 ≤ b → ld64 (st64 m a v) b = ld64 m b.
Proof. intros. apply ld_st_ne. lia. Qed.
Lemma ld64_range m a : 0 ≤ ld64 m a < 2 ^ 64.
Proof. exact (ld_range 8 m a). Qed.

(** A region that reads as zero bytes reads as zero words. *)
Lemma ld_zero n m a : (∀ b, a ≤ b < a + Z.of_nat n → ld8 m b = 0) → ld n m a = 0.
Proof.
  revert a. induction n as [|n IH]; intros a H; simpl; [done|].
  rewrite H, (IH (a + 1)) by (intros; try apply H; lia). done.
Qed.

(** ** What [memset] and [memcpy] do *)
Lemma memset_loop_spec m s c i n b :
  ld8 (memset_loop m s c i n) b =
  if decide (s + i ≤ b < s + i + Z.of_nat n) then w8 c else ld8 m b.
Proof.
  revert m i. induction n as [|n IH]; intros m i; simpl.
  - rewrite decide_False by lia. done.
  - rewrite IH, ld8_st8.
    destruct (decide (s + i = b)), (decide (s + (i + 1) ≤ b < s + (i + 1) + Z.of_nat n)),
      (decide (s + i ≤ b < s + i + Z.of_nat (S n))); done || lia.
Qed.

Lemma ld8_memset m s c n b :
  ld8 (memset m s c n) b = if decide (s ≤ b < s + n) then w8 c else ld8 m b.
Proof.
  unfold memset. rewrite memset_loop_spec.
  destruct (decide (s + 0 ≤ _ < _)), (decide (s ≤ _ < _)); done || lia.
Qed.

Lemma memcpy_loop_spec m d s i n b :
  (d + i ≤ s + i ∨ s + i + Z.of_nat n ≤ d + i) →
  ld8 (memcpy_loop m d s i n) b =
  if decide (d + i ≤ b < d + i + Z.of_nat n) then ld8 m (s + (b - d)) else ld8 m b.
Proof.
  revert m i. induction n as [|n IH]; intros m i Hov; simpl.
  - rewrite decide_False by lia. done.
  - rewrite IH by lia.
    destruct (decide (d + (i + 1) ≤ b < d + (i + 1) + Z.of_nat n)) as [Hin|Hin].
    + rewrite decide_True, ld8_st8_ne by lia. done.
    + rewrite ld8_st8. destruct (decide (d + i = b)) as [<-|Hne].
      * rewrite decide_True by lia. unfold w8.
        replace (s + (d + i - d)) with (s + i) by lia.
        apply Z.mod_small, ld8_range.
      * rewrite decide_False by lia. done.
Qed.

(** Copying forward is right unless the destination starts inside the source. *)
Lemma ld8_memcpy m d s n b :
  d ≤ s ∨ s + n ≤ d →
  ld8 (memcpy m d s n) b = if decide (d ≤ b < d + n) then ld8 m (s + (b - d)) else ld8 m b.
Proof.
  intros Hov. unfold memcpy. destruct (Z.le_gt_cases 0 n).
  - rewrite memcpy_loop_spec by lia.
    destruct (decide (d + 0 ≤ _ < _)), (decide (d ≤ _ < _)); done || lia.
  - replace (Z.to_nat n) with 0%nat by lia. simpl. by rewrite decide_False by lia.
Qed.

(** ** Byte strings in memory *)

(** The bytes [l] are stored at [a]. *)
Fixpoint bytes_at (m : mem) (a : Z) (l : list Z) : Prop :=
  match l with
  | [] => True
  | c :: l' => ld8 m a = c ∧ bytes_at m (a + 1) l'
  end.

Lemma bytes_at_ext m m' a l :
  (∀ x, a ≤ x < a + Z.of_nat (length l) → ld8 m' x = ld8 m x) → bytes_at m a l → bytes_at m' a l.
Proof.
  revert a. induction l as [|c l IH]; intros a Hm; simpl in *; [done|].
  intros [<- Hl]. split; [apply Hm; lia|]. apply IH; [|done]. intros. apply Hm. lia.
Qed.
Lemma bytes_at_ne m a l i :
  bytes_at m a l → Forall (λ c, c ≠ 0) l → 0 ≤ i < Z.of_nat (length l) → ld8 m (a + i) ≠ 0.
Proof.
  revert a i. induction l as [|c l IH]; intros a i; simpl; [lia|].
  intros [<- Hl] [Hc Hnz]%Forall_cons_1 Hi. destruct (Z.eqb_spec i 0) as [->|]; [by rewrite Z.add_0_r|].
  replace (a + i) with (a + 1 + (i - 1)) by lia. apply IH; [done|done|lia].
Qed.
Lemma bytes_at_app m a l1 l2 : bytes_at m a (l1 ++ l2) ↔ bytes_at m a l1 ∧ bytes_at m (a + Z.of_nat (length l1)) l2.
Proof.
  revert a. induction l1 as [|c l1 IH]; intros a; simpl.
  - rewrite Z.add_0_r. tauto.
  - rewrite IH. replace (a + 1 + Z.of_nat (length l1)) with (a + Z.of_nat (S (length l1))) by lia. tauto.
Qed.
Lemma bytes_at_take m a l n : bytes_at m a l → bytes_at m a (take n l).
Proof. intros H. rewrite <- (take_drop n l) in H. apply bytes_at_app in H. apply H. Qed.
