(* ===== verification/CString.v ===== *)
(** The C string routines of [lib/string.c] over the byte memory.

    A loop whose bound is the position of a terminator takes fuel and answers
    [NoFuel] when it runs out; the theorems give the fuel that is enough. *)

From S2P Require Import Prelude Memory.

(** [size_t strlen(const char *s)] *)
Fixpoint strlen_loop (fuel : nat) (m : mem) (s len : Z) : result Z :=
  match fuel with
  | O => NoFuel
  | S fuel' =>
      if ld8 m (s + len) =? 0 then Ok len
      else strlen_loop fuel' m s (len + 1)
  end.
Definition strlen (fuel : nat) (m : mem) (s : Z) : result Z := strlen_loop fuel m s 0.

(** [size_t strnlen(const char *s, size_t maxlen)]; the loop runs at most
    [maxlen] times, so its fuel is derived from the argument. *)
Fixpoint strnlen_loop (fuel : nat) (m : mem) (s maxlen len : Z) : Z :=
  match fuel with
  | O => len
  | S fuel' =>
      if negb (ld8 m (s + len) =? 0) && (len <? maxlen)
      then strnlen_loop fuel' m s maxlen (len + 1)
      else len
  end.
Definition strnlen (m : mem) (s maxlen : Z) : Z :=
  strnlen_loop (S (Z.to_nat maxlen)) m s maxlen 0.

(** [char *strcpy(char *dest, const char *src)]: [strlen(src)] is evaluated
    again, on the memory written so far, before every byte. *)
Fixpoint strcpy_loop (fuel : nat) (m : mem) (dest src i : Z) : result mem :=
  match fuel with
  | O => NoFuel
  | S fuel' =>
      match strlen fuel m src with
      | Ok n =>
          if i <? n
          then strcpy_loop fuel' (st8 m (dest + i) (ld8 m (src + i))) dest src (i + 1)
          else Ok m
      | Panic e => Panic e
      | Fault => Fault
      | NoFuel => NoFuel
      end
  end.
Definition strcpy (fuel : nat) (m : mem) (dest src : Z) : result mem :=
  strcpy_loop fuel m dest src 0.

(** [size_t strlcpy(char *dest, const char *src, size_t sz)] *)
Fixpoint strlcpy_loop (n : nat) (m : mem) (dest src sz i : Z) : mem * Z :=
  match n with
  | O => (m, sz)
  | S n' =>
      let m' := st8 m (dest + i) (ld8 m (src + i)) in
      if ld8 m' (src + i) =? 0 then (m', i)
      else strlcpy_loop n' m' dest src sz (i + 1)
  end.
Definition strlcpy (m : mem) (dest src sz : Z) : mem * Z :=
  strlcpy_loop (Z.to_nat sz) m dest src sz 0.

(** [int strcmp(const char *s1, const char *s2)] *)
Fixpoint strcmp (fuel : nat) (m : mem) (s1 s2 : Z) : result Z :=
  match fuel with
  | O => NoFuel
  | S fuel' =>
      if negb (ld8 m s1 =? 0) && (ld8 m s1 =? ld8 m s2)
      then strcmp fuel' m (s1 + 1) (s2 + 1)
      else Ok (ld8 m s1 - ld8 m s2)
  end.

(** [int strncmp(const char *s1, const char *s2, size_t n)]: the loop does not
    look at [n], which wraps around when it passes zero. *)
Fixpoint strncmp (fuel : nat) (m : mem) (s1 s2 n : Z) : result Z :=
  match fuel with
  | O => NoFuel
  | S fuel' =>
      if negb (ld8 m s1 =? 0) && (ld8 m s1 =? ld8 m s2)
      then strncmp fuel' m (s1 + 1) (s2 + 1) (w64 (n - 1))
      else Ok (if n =? 0 then 0 else ld8 m s1 - ld8 m s2)
  end.

(** ** Strings in memory *)

(** [cstr m s l]: the NUL-terminated string [l] is stored at [s]. *)
Fixpoint cstr (m : mem) (s : Z) (l : list Z) : Prop :=
  match l with
  | [] => ld8 m s = 0
  | c :: l' => c ≠ 0 ∧ ld8 m s = c ∧ cstr m (s + 1) l'
  end.

Lemma cstr_ext m m' s l :
  (∀ x, s ≤ x < s + Z.of_nat (length l) + 1 → ld8 m' x = ld8 m x) → cstr m s l → cstr m' s l.
Proof.
  revert s. induction l as [|c l IH]; intros s Hm; simpl in *; [by rewrite Hm by lia|].
  intros (Hc & Hs & Hl). split; [done|]. split; [by rewrite Hm by lia|]. apply IH; [|done]. intros. apply Hm. lia.
Qed.

(** The length of the common prefix of two strings, and the bytes at which
    they part (0 past an end). *)
Fixpoint common (l1 l2 : list Z) : nat :=
  match l1, l2 with
  | c1 :: l1', c2 :: l2' => if c1 =? c2 then S (common l1' l2') else O
  | _, _ => O
  end.
Definition split_diff (l1 l2 : list Z) : Z :=
  default 0 (l1 !! common l1 l2) - default 0 (l2 !! common l1 l2).

Lemma strlen_loop_spec fuel m s l k :
  cstr m (s + k) l → (length l < fuel)%nat → strlen_loop fuel m s k = Ok (k + Z.of_nat (length l)).
Proof.
  revert fuel k. induction l as [|c l IH]; intros [|fuel] k Hs Hf; simpl in *; try lia.
  - rewrite Hs. simpl. f_equal. lia.
  - destruct Hs as (Hc & -> & Hs). destruct (Z.eqb_spec c 0); [lia|].
    rewrite IH by (rewrite ?Z.add_assoc; done || lia). f_equal. lia.
Qed.

Lemma strlen_ok fuel m s l :
  cstr m s l → (length l < fuel)%nat → strlen fuel m s = Ok (Z.of_nat (length l)).
Proof. intros. unfold strlen. rewrite strlen_loop_spec with (l := l); rewrite ?Z.add_0_r; done. Qed.

Lemma strcmp_split fuel m s1 s2 l1 l2 :
  cstr m s1 l1 → cstr m s2 l2 → (length l1 < fuel)%nat →
  strcmp fuel m s1 s2 = Ok (split_diff l1 l2).
Proof.
  revert fuel s1 s2 l2.
  induction l1 as [|c1 l1 IH]; intros [|fuel] s1 s2 l2 H1 H2 Hf; simpl in *; try lia.
  - rewrite H1. simpl. unfold split_diff. simpl.
    destruct l2; simpl in *; [by rewrite H2|]. destruct H2 as (? & -> & ?). done.
  - destruct H1 as (Hc & -> & H1). destruct (Z.eqb_spec c1 0); [lia|]. simpl.
    destruct l2 as [|c2 l2]; simpl in *.
    + rewrite H2. by destruct (Z.eqb_spec c1 0).
    + destruct H2 as (Hc2 & -> & H2). unfold split_diff. simpl.
      destruct (Z.eqb_spec c1 c2); [|done]. by apply IH; [..|lia].
Qed.

Lemma split_diff_zero l1 l2 m s1 s2 :
  cstr m s1 l1 → cstr m s2 l2 → split_diff l1 l2 = 0 ↔ l1 = l2.
Proof.
  revert s1 s2 l2. unfold split_diff.
  induction l1 as [|c1 l1 IH]; intros s1 s2 [|c2 l2] H1 H2; simpl in *; try done.
  - destruct H2 as (? & ? & ?). split; [lia|done].
  - destruct H1 as (? & ? & ?). split; [lia|done].
  - destruct H1 as (? & ? & H1), H2 as (? & ? & H2).
    destruct (Z.eqb_spec c1 c2) as [->|]; simpl.
    + rewrite IH by done. split; [by intros ->|by intros [= ->]].
    + split; [lia|]. intros [= ]. done.
Qed.

Lemma strncmp_split fuel m s1 s2 l1 l2 n :
  cstr m s1 l1 → cstr m s2 l2 → (length l1 < fuel)%nat → 0 ≤ n < 2 ^ 64 →
  strncmp fuel m s1 s2 n =
  Ok (if w64 (n - Z.of_nat (common l1 l2)) =? 0 then 0 else split_diff l1 l2).
Proof.
  revert fuel s1 s2 l2 n.
  induction l1 as [|c1 l1 IH]; intros [|fuel] s1 s2 l2 n H1 H2 Hf Hn; simpl in *; try lia.
  - rewrite H1. simpl. unfold split_diff. simpl. rewrite Z.sub_0_r, w64_small by lia.
    destruct l2; simpl in *; [by rewrite H2|]. destruct H2 as (? & -> & ?). done.
  - destruct H1 as (Hc & -> & H1). destruct (Z.eqb_spec c1 0); [lia|]. simpl.
    destruct l2 as [|c2 l2]; simpl in *.
    + rewrite H2. destruct (Z.eqb_spec c1 0); [lia|].
      change (Z.of_nat 0) with 0. rewrite !Z.sub_0_r, w64_small by lia.
      unfold split_diff. simpl. by rewrite Z.sub_0_r.
    + destruct H2 as (Hc2 & -> & H2). unfold split_diff. simpl.
      destruct (Z.eqb_spec c1 c2); simpl.
      * rewrite (IH _ _ _ l2) by (done || lia || apply w64_range).
        unfold w64. rewrite Zminus_mod_idemp_l.
        replace (n - 1 - Z.of_nat (common l1 l2)) with (n - Z.of_nat (S (common l1 l2))) by lia.
        done.
      * by rewrite Z.sub_0_r, w64_small by lia.
Qed.

(** ** The properties *)

Lemma common_le l1 l2 : (common l1 l2 ≤ length l1)%nat ∧ (common l1 l2 ≤ length l2)%nat.
Proof.
  revert l2. induction l1 as [|c1 l1 IH]; intros [|c2 l2]; simpl; try lia.
  destruct (c1 =? c2); [|lia]. specialize (IH l2). lia.
Qed.

(** [strlen] answers the length of the string, and [strcmp] of two strings
    answers 0 exactly when they are equal, otherwise a number with the sign of
    the difference of the first bytes that differ. *)
Theorem strcmp_correct (fuel : nat) (m : mem) (s1 s2 : Z) (l1 l2 : list Z)
    (H1 : cstr m s1 l1) (H2 : cstr m s2 l2) (Hfuel : (length l1 < fuel)%nat) :
  strlen fuel m s1 = Ok (Z.of_nat (length l1)) ∧
  ∃ r, strcmp fuel m s1 s2 = Ok r ∧ (r = 0 ↔ l1 = l2) ∧
    r = default 0 (l1 !! common l1 l2) - default 0 (l2 !! common l1 l2).
Proof.
  split; [by apply strlen_ok|]. exists (split_diff l1 l2).
  split; [by apply strcmp_split|]. split; [by eapply split_diff_zero|done].
Qed.

(** [strncmp] does not stop after [n] bytes: it answers 0 exactly when the
    strings are equal or part after exactly [n] bytes.  Strings that agree on
    more than their first [n] bytes and differ later compare as different. *)
Theorem strncmp_not_bounded (fuel : nat) (m : mem) (s1 s2 n : Z) (l1 l2 : list Z)
    (H1 : cstr m s1 l1) (H2 : cstr m s2 l2) (Hfuel : (length l1 < fuel)%nat)
    (Hn : 0 ≤ n < 2 ^ 63) (Hl : Z.of_nat (length l1) < 2 ^ 63) :
  ∃ r, strncmp fuel m s1 s2 n = Ok r ∧ (r = 0 ↔ l1 = l2 ∨ Z.of_nat (common l1 l2) = n).
Proof.
  rewrite (strncmp_split fuel m s1 s2 l1 l2 n) by (done || lia). eexists. split; [done|].
  pose proof (common_le l1 l2) as [Hc _]. pose proof (split_diff_zero l1 l2 m s1 s2 H1 H2) as Hz.
  assert (w64 (n - Z.of_nat (common l1 l2)) = 0 ↔ Z.of_nat (common l1 l2) = n) as Hw.
  { unfold w64. rewrite Z.mod_divide by lia. split.
    - intros [k Hk]. assert (k = 0) by nia. lia.
    - intros ->. exists 0. lia. }
  destruct (Z.eqb_spec (w64 (n - Z.of_nat (common l1 l2))) 0) as [H0|H0].
  - split; [|done]. intros _. right. by apply Hw.
  - rewrite Hz. split; [by left|]. intros [?|Hn']; [done|]. by apply Hw in Hn'.
Qed.

(** "abc" at 16 and "abd" at 32. *)
Definition ex_strings : mem :=
  st8 (st8 (st8 (st8 (st8 (st8 ∅ 16 97) 17 98) 18 99) 32 97) 33 98) 34 100.
Lemma ex_strings_ok : cstr ex_strings 16 [97; 98; 99] ∧ cstr ex_strings 32 [97; 98; 100].
Proof. split; simpl; split_and!; vm_compute; congruence. Qed.

Lemma strcmp_correct_witness : ∃ r, strcmp 4 ex_strings 16 32 = Ok r ∧ r ≠ 0.
Proof.
  destruct (strcmp_correct 4 ex_strings 16 32 _ _ (proj1 ex_strings_ok) (proj2 ex_strings_ok) ltac:(simpl; lia))
    as (_ & r & H & _ & Hr).
  exists r. split; [exact H|]. rewrite Hr. vm_compute. discriminate.
Defined.

Lemma strncmp_not_bounded_witness : ∃ r, strncmp 4 ex_strings 16 32 1 = Ok r ∧ r ≠ 0.
Proof.
  destruct (strncmp_not_bounded 4 ex_strings 16 32 1 _ _ (proj1 ex_strings_ok) (proj2 ex_strings_ok)
    ltac:(simpl; lia) ltac:(lia) ltac:(simpl; lia)) as (r & H & Hr).
  exists r. split; [exact H|]. intros H0. destruct (proj1 Hr H0) as [He|He]; [discriminate He|].
  vm_compute in He. discriminate He.
Defined.
