(* ===== verification/Interfaces.v ===== *)
(** What components promise to one another.

    [FrameOps] and [FrameLaws] are the contract of the physical frame
    allocator of [mm/pmm.c] as the virtual memory manager uses it: frames that
    are handed out are fresh, page aligned, nonzero and filled with zeros, and
    neither allocation nor release touches the bytes of the other frames in
    use.  The clients are proved against the contract; [Pmm] discharges it. *)

From S2P Require Import Prelude Memory.

(** The addresses of physical memory that the mapping at [PHYS_MAPPING_START]
    shows below the kernel heap at [0xFFFFC90000000000]. *)
Definition PHYS_LIMIT : Z := 0x408000000000.

Lemma P_TO_V_small x : 0 ≤ x ≤ PHYS_LIMIT → P_TO_V x = PHYS_MAPPING_START + x.
Proof. unfold PHYS_LIMIT, P_TO_V, PHYS_MAPPING_START. intros. apply w64_small. lia. Qed.

Class FrameOps (St : Type) := {
  frame_mem : St → mem;
  frame_set_mem : St → mem → St;
  frame_alloc : M St Z;
  frame_free : Z → M St unit;
}.

(** Two states agree on the page of physical memory at [q]. *)
Definition same_page (m m' : mem) (q : Z) : Prop :=
  ∀ k, 0 ≤ k < PAGE_SIZE → ld8 m' (P_TO_V q + k) = ld8 m (P_TO_V q + k).

Definition zero_page (m : mem) (q : Z) : Prop :=
  ∀ k, 0 ≤ k < PAGE_SIZE → ld8 m (P_TO_V q + k) = 0.

(** [m'] differs from [m] only inside pages that satisfy [P]. *)
Definition only_pages (P : Z → Prop) (m m' : mem) : Prop :=
  ∀ a, (∀ q, P q → ¬ (P_TO_V q ≤ a < P_TO_V q + PAGE_SIZE)) → ld8 m' a = ld8 m a.

Definition good_frame (p : Z) : Prop :=
  0 < p ∧ p mod PAGE_SIZE = 0 ∧ p + PAGE_SIZE ≤ PHYS_LIMIT.

(** Different frames are disjoint pages. *)
Lemma good_frames_disjoint p q k k' :
  good_frame p → good_frame q → p ≠ q → 0 ≤ k < PAGE_SIZE → 0 ≤ k' < PAGE_SIZE →
  P_TO_V p + k ≠ P_TO_V q + k'.
Proof.
  intros (? & Hp & ?) (? & Hq & ?) Hne Hk Hk'. unfold PAGE_SIZE in *.
  rewrite !P_TO_V_small by lia.
  pose proof (Z.div_mod p 4096). pose proof (Z.div_mod q 4096). lia.
Qed.

Class FrameLaws (St : Type) `{FrameOps St} := {
  frame_inv : St → Prop;
  frame_used : St → Z → Prop;
  frame_avail : St → nat;

  frame_mem_set s m : frame_mem (frame_set_mem s m) = m;
  frame_used_good s p : frame_inv s → frame_used s p → good_frame p;
  frame_alloc_ok s : frame_inv s → (0 < frame_avail s)%nat →
    wp frame_alloc s (λ p s',
      frame_inv s' ∧ ¬ frame_used s p ∧ frame_avail s = S (frame_avail s') ∧
      (∀ q, frame_used s' q ↔ frame_used s q ∨ q = p) ∧
      zero_page (frame_mem s') p ∧
      (∀ q, frame_used s q → same_page (frame_mem s) (frame_mem s') q));
  frame_free_ok s p : frame_inv s → frame_used s p →
    wp (frame_free p) s (λ _ s',
      frame_inv s' ∧ frame_avail s' = S (frame_avail s) ∧
      (∀ q, frame_used s' q ↔ frame_used s q ∧ q ≠ p) ∧
      (∀ q, frame_used s q → same_page (frame_mem s) (frame_mem s') q));
  frame_set_mem_ok s m : frame_inv s → only_pages (frame_used s) (frame_mem s) m →
    frame_inv (frame_set_mem s m) ∧ frame_avail (frame_set_mem s m) = frame_avail s ∧
    (∀ q, frame_used (frame_set_mem s m) q ↔ frame_used s q);
}.
#[global] Hint Mode FrameLaws ! - : typeclass_instances.

(** What [pmm_free(0)] does is not part of the contract.  An allocator whose
    memory does not include physical page 0 ignores the call. *)
Class FrameNull (St : Type) `{FrameLaws St} := {
  frame_null : St → Prop;
  frame_null_alloc : keeps frame_null frame_alloc (λ _, True);
  frame_null_free p : keeps frame_null (frame_free p) (λ _, True);
  frame_null_mem s m : frame_null s → frame_null (frame_set_mem s m);
  frame_free_null s : frame_null s → frame_free 0 s = Ok (tt, s);
}.

(** ** The kernel heap

    [HeapOps] and [HeapLaws] are the contract of [mm/kmalloc.c] for clients
    that only need blocks: the blocks in use are a finite map from addresses to
    sizes; an allocation adds a block that overlaps none of them, a release
    removes one, and neither touches a byte of the others.  An allocation of
    [n] bytes succeeds while more than [n + 32] bytes of address space are left
    above the break. *)
Definition HEAP_START : Z := 0xFFFFC90000000000.
Definition HEAP_LIMIT : Z := 0xFFFFC90000080000.

Class HeapOps (H : Type) := {
  heap_bytes : H → mem;
  heap_kmalloc : Z → M H Z;
  heap_kcalloc : Z → Z → M H Z;
  heap_release : Z → M H unit;
}.

(** The bytes of the blocks [L] are the same in both memories. *)
Definition same_blocks (L : gmap Z Z) (m m' : mem) : Prop :=
  ∀ p n x, L !! p = Some n → p ≤ x < p + n → ld8 m' x = ld8 m x.

Class HeapLaws (H : Type) `{HeapOps H} := {
  heap_inv : H → gmap Z Z → Prop;
  heap_room : H → Z;
  heap_range h L p n : heap_inv h L → L !! p = Some n →
    HEAP_START < p ∧ 0 < n ∧ p + n ≤ HEAP_LIMIT;
  heap_kmalloc_ok h L n : heap_inv h L → 0 < n → n + 32 < heap_room h →
    wp (heap_kmalloc n) h (λ p h', ∃ k,
      n ≤ k ∧ L !! p = None ∧ heap_inv h' (<[p := k]> L) ∧
      heap_room h ≤ heap_room h' + (n + 32) ∧ same_blocks L (heap_bytes h) (heap_bytes h'));
  heap_kcalloc_ok h L a b : heap_inv h L → 0 < a * b → a * b + 32 < heap_room h →
    wp (heap_kcalloc a b) h (λ p h', ∃ k,
      a * b ≤ k ∧ L !! p = None ∧ heap_inv h' (<[p := k]> L) ∧
      heap_room h ≤ heap_room h' + (a * b + 32) ∧ same_blocks L (heap_bytes h) (heap_bytes h') ∧
      (∀ x, p ≤ x < p + a * b → ld8 (heap_bytes h') x = 0));
  heap_release_ok h L p n : heap_inv h L → L !! p = Some n →
    wp (heap_release p) h (λ _ h', heap_inv h' (delete p L) ∧ heap_room h' = heap_room h ∧
      same_blocks (delete p L) (heap_bytes h) (heap_bytes h'));
}.
#[global] Hint Mode HeapLaws ! - : typeclass_instances.

(** ** The file system

    What [open.c], [sys.c] and [exec.c] ask of [fs/ext2.c], and the store of an
    [int] through a pointer of the caller, on a state that has the kernel heap. *)
Class FileSystem (H : Type) := {
  fs_namei : Z → M H Z;               (* path: inode number *)
  fs_read_file : Z → M H Z;           (* inode number: block with the contents *)
  fs_get_inode : Z → Z → M H unit;    (* buffer, inode number *)
  fs_getdents : Z → Z → Z → M H Z;    (* inode number, buffer, count *)
  put_int : Z → Z → M H unit;         (* address, value *)
}.
