(* ===== verification/Pmm.v ===== *)
(** The physical frame allocator, [mm/pmm.c].

    The memory map of the boot loader becomes a list of regions; each region
    starts with a bitmap, one bit per page, kept in the pages it describes. *)

From S2P Require Import Prelude Layout Memory Interfaces.

(** [struct mmap_region], and the state of the component: the memory that
    holds the bitmaps, and [regions[0..n_regions)]. *)
Record mmap_region := Region { start : Z; pages : Z }.
Record pmm := Pmm { p_mem : mem; regions : list mmap_region }.

#[export] Instance mmap_region_eq_dec : EqDecision mmap_region.
Proof. solve_decision. Defined.

Definition MAX_REGIONS : nat := 64.

(** ** The bitmap of a region *)
Definition region_byte (r : mmap_region) (i : Z) : Z := P_TO_V (start r) + i / 8.

Definition region_get_bit (m : mem) (r : mmap_region) (i : Z) : bool :=
  negb (Z.land (ld8 m (region_byte r i)) (Z.shiftl 1 (i mod 8)) =? 0).

Definition region_set_bit (m : mem) (r : mmap_region) (i : Z) : mem :=
  st8 m (region_byte r i) (Z.lor (ld8 m (region_byte r i)) (Z.shiftl 1 (i mod 8))).

Definition region_unset_bit (m : mem) (r : mmap_region) (i : Z) : mem :=
  st8 m (region_byte r i) (Z.land (ld8 m (region_byte r i)) (Z.lnot (Z.shiftl 1 (i mod 8)))).

(** ** Reading the boot information *)
Definition MULTIBOOT_TAG_TYPE_END : Z := 0.
Definition MULTIBOOT_TAG_TYPE_MMAP : Z := 6.
Definition MULTIBOOT_MEMORY_AVAILABLE : Z := 1.

(** The structs of [include/multiboot2.h] that are read, and [struct mboot_info];
    the first member of each is at its address. *)
Definition mboot_info : layout := [u32 "total_size"; u32 "reserved"; arr "tags" 4 0].
Definition multiboot_tag : layout := [u32 "type"; u32 "size"].
Definition multiboot_mmap_entry : layout := [u64 "addr"; u64 "len"; u32 "type"; u32 "zero"].
Definition multiboot_tag_mmap : layout :=
  [u32 "type"; u32 "size"; u32 "entry_size"; u32 "entry_version"; arr "entries" 8 0].

(** [mboot_find_tag]: the answer is the address of the first tag of
    the type asked for, or [NULL] (0). *)
Fixpoint mboot_find_tag_loop (fuel : nat) (m : mem) (tag curr : Z) : result Z :=
  match fuel with
  | O => NoFuel
  | S fuel' =>
      let ty := ld32 m curr in
      if (ty =? tag) || (ty =? MULTIBOOT_TAG_TYPE_END) then
        Ok (if ty =? MULTIBOOT_TAG_TYPE_END then 0 else curr)
      else mboot_find_tag_loop fuel' m tag (ALIGNUP (curr + ld32 m (curr + field_of false multiboot_tag "size")) 8)
  end.
Definition mboot_find_tag (fuel : nat) (m : mem) (mboot tag : Z) : result Z :=
  mboot_find_tag_loop fuel m tag (mboot + field_of false mboot_info "tags").

(** One entry of the memory map: the region it contributes, with the part that
    meets the kernel image [kstart, kend) cut off. *)
Definition overlaps_kernel (kstart kend x : Z) : bool := (kstart <=? x) && (x <? kend).

Definition entry_region (kstart kend addr len : Z) : option mmap_region :=
  let end0 := w64 (addr + len) in
  let in_s := overlaps_kernel kstart kend addr in
  let start1 := if in_s then ALIGNUP kend PAGE_SIZE else addr in
  if in_s && (end0 <=? start1) then None else
  let in_e := overlaps_kernel kstart kend end0 in
  let end1 := if in_e then ALIGNDOWN kstart PAGE_SIZE else end0 in
  if in_e && (end1 <=? start1) then None else
  Some (Region start1 (w64 (end1 - start1) / PAGE_SIZE)).

(** [pmm_set_mmap].  Storing past
    [regions[MAX_REGIONS]] is out of bounds. *)
Fixpoint pmm_set_mmap_loop (fuel : nat) (m : mem) (kstart kend mmap entry : Z)
    (acc : list mmap_region) : result (list mmap_region) :=
  match fuel with
  | O => NoFuel
  | S fuel' =>
      if entry <? mmap + ld32 m (mmap + field_of false multiboot_tag_mmap "size") then
        let next := entry + ld32 m (mmap + field_of false multiboot_tag_mmap "entry_size") in
        if negb (ld32 m (entry + field_of false multiboot_mmap_entry "type") =? MULTIBOOT_MEMORY_AVAILABLE)
        then pmm_set_mmap_loop fuel' m kstart kend mmap next acc
        else
          match entry_region kstart kend (ld64 m entry)
            (ld64 m (entry + field_of false multiboot_mmap_entry "len")) with
          | None => pmm_set_mmap_loop fuel' m kstart kend mmap next acc
          | Some r =>
              if decide (length acc < MAX_REGIONS)%nat
              then pmm_set_mmap_loop fuel' m kstart kend mmap next (acc ++ [r])
              else Fault
          end
      else Ok acc
  end.
Definition pmm_set_mmap (fuel : nat) (m : mem) (kstart kend mmap : Z) : result (list mmap_region) :=
  pmm_set_mmap_loop fuel m kstart kend mmap (mmap + field_of false multiboot_tag_mmap "entries") [].

(** [pmm_init_regions]: clear each bitmap and mark the pages that hold it. *)
Definition bmap_size (r : mmap_region) : Z := w64 (pages r + 8 - 1) / 8.
Definition bmap_pages (r : mmap_region) : Z := DIV_CEIL (bmap_size r) PAGE_SIZE.

Fixpoint set_bits (n : nat) (m : mem) (r : mmap_region) (j : Z) : mem :=
  match n with
  | O => m
  | S n' => set_bits n' (region_set_bit m r j) r (j + 1)
  end.
Definition init_region (m : mem) (r : mmap_region) : mem :=
  set_bits (Z.to_nat (bmap_pages r)) (memset m (P_TO_V (start r)) 0 (bmap_size r)) r 0.
Definition pmm_init_regions (m : mem) (rs : list mmap_region) : mem :=
  foldl init_region m rs.

Definition pmm_init (fuel : nat) (kstart kend mboot : Z) : M pmm unit := λ s,
  match mboot_find_tag fuel (p_mem s) mboot MULTIBOOT_TAG_TYPE_MMAP with
  | Ok mmap =>
      if mmap =? 0 then Panic "Could not find multiboot2 mmap tag" else
      match pmm_set_mmap fuel (p_mem s) kstart kend mmap with
      | Ok rs => Ok (tt, Pmm (pmm_init_regions (p_mem s) rs) rs)
      | Panic e => Panic e
      | Fault => Fault
      | NoFuel => NoFuel
      end
  | Panic e => Panic e
  | Fault => Fault
  | NoFuel => NoFuel
  end.

(** ** Allocation and release *)
Fixpoint find_free_page_loop (n : nat) (m : mem) (r : mmap_region) (i : Z) : Z * mem :=
  match n with
  | O => (0, m)
  | S n' =>
      if region_get_bit m r i then find_free_page_loop n' m r (i + 1)
      else (w64 (start r + i * PAGE_SIZE), region_set_bit m r i)
  end.
Definition find_free_page (m : mem) (r : mmap_region) : Z * mem :=
  find_free_page_loop (Z.to_nat (pages r)) m r 0.

Fixpoint pmm_alloc_loop (rs : list mmap_region) (m : mem) : Z * mem :=
  match rs with
  | [] => (0, m)
  | r :: rs' =>
      let '(addr, m') := find_free_page m r in
      if addr =? 0 then pmm_alloc_loop rs' m' else (addr, m')
  end.

Definition pmm_alloc : M pmm Z := λ s,
  let '(addr, m') := pmm_alloc_loop (regions s) (p_mem s) in
  Ok (addr, Pmm (memset m' (P_TO_V addr) 0 PAGE_SIZE) (regions s)).

Definition free_in_region (phys : Z) (m : mem) (r : mmap_region) : mem :=
  if (phys <? start r) || (w64 (start r + pages r * PAGE_SIZE) <? phys) then m
  else region_unset_bit m r ((phys - start r) / PAGE_SIZE).

Definition pmm_free (phys : Z) : M pmm unit :=
  if negb (Z.land phys 0xFFF =? 0)
  then panic "attempting to free non-paged-aligned region"
  else modify (λ s, Pmm (foldl (free_in_region phys) (p_mem s) (regions s)) (regions s)).

#[export] Instance pmm_frame_ops : FrameOps pmm := {
  frame_mem := p_mem;
  frame_set_mem s m := Pmm m (regions s);
  frame_alloc := pmm_alloc;
  frame_free := pmm_free;
}.

(** ** Invariant *)
Definition region_wf (r : mmap_region) : Prop :=
  0 ≤ start r ∧ start r mod PAGE_SIZE = 0 ∧ 0 ≤ pages r ∧
  start r + pages r * PAGE_SIZE ≤ PHYS_LIMIT.

Definition disjoint_regions (r1 r2 : mmap_region) : Prop :=
  start r1 + pages r1 * PAGE_SIZE ≤ start r2 ∨ start r2 + pages r2 * PAGE_SIZE ≤ start r1.

Definition regions_ok (rs : list mmap_region) : Prop :=
  (∀ r, r ∈ rs → region_wf r) ∧ (∀ r1 r2, r1 ∈ rs → r2 ∈ rs → r1 = r2 ∨ disjoint_regions r1 r2).

(** The pages that hold a bitmap are marked as taken. *)
Definition bitmaps_ok (m : mem) (rs : list mmap_region) : Prop :=
  ∀ r j, r ∈ rs → 0 ≤ j < bmap_pages r → region_get_bit m r j = true.

Definition pmm_inv (s : pmm) : Prop := regions_ok (regions s) ∧ bitmaps_ok (p_mem s) (regions s).

Definition page_addr (r : mmap_region) (i : Z) : Z := start r + i * PAGE_SIZE.

(** Frame [p] is page [i] of region [r], outside the bitmap. *)
Definition frame_at (rs : list mmap_region) (p : Z) (r : mmap_region) (i : Z) : Prop :=
  r ∈ rs ∧ bmap_pages r ≤ i < pages r ∧ p = page_addr r i.

Definition pmm_used (s : pmm) (p : Z) : Prop :=
  ∃ r i, frame_at (regions s) p r i ∧ region_get_bit (p_mem s) r i = true.

(** The frames that are free, as a finite set. *)
Definition free_frames_of (m : mem) (r : mmap_region) : list Z :=
  page_addr r <$> filter (λ i, region_get_bit m r i = false) (seqZ 0 (pages r)).
Definition free_frames (s : pmm) : gset Z :=
  list_to_set (regions s ≫= free_frames_of (p_mem s)).
Definition pmm_avail (s : pmm) : nat := size (free_frames s).

(** ** The bitmap as a set of bits *)
Lemma land_shiftl1_testbit b k : 0 ≤ k → negb (Z.land b (Z.shiftl 1 k) =? 0) = Z.testbit b k.
Proof.
  intros Hk. rewrite Z.shiftl_1_l.
  destruct (Z.testbit b k) eqn:E.
  - destruct (Z.eqb_spec (Z.land b (2 ^ k)) 0) as [H0|]; [|done].
    apply (f_equal (λ z, Z.testbit z k)) in H0.
    rewrite Z.land_spec, Z.pow2_bits_true, E, Z.bits_0 in H0 by done. done.
  - destruct (Z.eqb_spec (Z.land b (2 ^ k)) 0) as [H0|Hn]; [done|]. exfalso. apply Hn.
    apply Z.bits_inj'. intros i Hi. rewrite Z.land_spec, Z.bits_0.
    destruct (decide (i = k)) as [->|]; [by rewrite E|].
    rewrite Z.pow2_bits_false by lia. by rewrite andb_false_r.
Qed.

Lemma region_get_bit_testbit m r i :
  region_get_bit m r i = Z.testbit (ld8 m (region_byte r i)) (i mod 8).
Proof. apply land_shiftl1_testbit. apply Z.mod_pos_bound. lia. Qed.

Lemma region_get_bit_ext m m' r i :
  ld8 m' (region_byte r i) = ld8 m (region_byte r i) →
  region_get_bit m' r i = region_get_bit m r i.
Proof. unfold region_get_bit. by intros ->. Qed.

Lemma same_byte_bit i j : i / 8 = j / 8 → i mod 8 = j mod 8 → i = j.
Proof. intros. rewrite (Z.div_mod i 8), (Z.div_mod j 8) by lia. lia. Qed.

Lemma testbit_w8 x k : 0 ≤ k < 8 → Z.testbit (w8 x) k = Z.testbit x k.
Proof. intros. unfold w8. apply Z.mod_pow2_bits_low. lia. Qed.

Lemma region_get_set_bit m r i j :
  region_get_bit (region_set_bit m r i) r j = if decide (i = j) then true else region_get_bit m r j.
Proof.
  rewrite !region_get_bit_testbit. unfold region_set_bit, region_byte.
  pose proof (Z.mod_pos_bound i 8 ltac:(lia)). pose proof (Z.mod_pos_bound j 8 ltac:(lia)).
  rewrite ld8_st8. case_decide as Hb.
  - rewrite testbit_w8, Z.lor_spec, Z.shiftl_1_l by lia.
    assert (i / 8 = j / 8) as Hd by lia. rewrite Hd. case_decide as Hij.
    + subst. rewrite Z.pow2_bits_true by lia. apply orb_true_r.
    + rewrite Z.pow2_bits_false; [apply orb_false_r|]. intros Hm. by apply Hij, same_byte_bit.
  - rewrite decide_False; [done|]. intros ->. done.
Qed.

Lemma region_get_unset_bit m r i j :
  region_get_bit (region_unset_bit m r i) r j = if decide (i = j) then false else region_get_bit m r j.
Proof.
  rewrite !region_get_bit_testbit. unfold region_unset_bit, region_byte.
  pose proof (Z.mod_pos_bound i 8 ltac:(lia)). pose proof (Z.mod_pos_bound j 8 ltac:(lia)).
  rewrite ld8_st8. case_decide as Hb.
  - rewrite testbit_w8, Z.land_spec, Z.lnot_spec, Z.shiftl_1_l by lia.
    assert (i / 8 = j / 8) as Hd by lia. rewrite Hd. case_decide as Hij.
    + subst. rewrite Z.pow2_bits_true by lia. apply andb_false_r.
    + rewrite Z.pow2_bits_false; [apply andb_true_r|]. intros Hm. by apply Hij, same_byte_bit.
  - rewrite decide_False; [done|]. intros ->. done.
Qed.

(** ** Geometry of regions, bitmaps and frames *)
Lemma bmap_size_eq r : region_wf r → bmap_size r = (pages r + 7) / 8.
Proof.
  intros (? & ? & ? & Hl). unfold PHYS_LIMIT, PAGE_SIZE in *. unfold bmap_size.
  rewrite w64_small by lia. f_equal. lia.
Qed.

Lemma bmap_pages_bounds r : region_wf r →
  0 ≤ bmap_pages r ≤ pages r ∧ bmap_size r ≤ bmap_pages r * PAGE_SIZE ∧ pages r ≤ 8 * bmap_size r
  ∧ 0 ≤ bmap_size r.
Proof.
  intros Hwf. unfold bmap_pages, DIV_CEIL. rewrite (bmap_size_eq r Hwf).
  destruct Hwf as (? & ? & Hp & ?). unfold PAGE_SIZE.
  set (b := (pages r + 7) / 8).
  assert (8 * b ≤ pages r + 7 < 8 * b + 8).
  { subst b. pose proof (Z.div_mod (pages r + 7) 8).
    pose proof (Z.mod_pos_bound (pages r + 7) 8). lia. }
  pose proof (Z.div_mod (b + 4096 - 1) 4096). pose proof (Z.mod_pos_bound (b + 4096 - 1) 4096).
  lia.
Qed.

Lemma bmap_byte_bounds r i : region_wf r → 0 ≤ i < pages r → 0 ≤ i / 8 < bmap_size r.
Proof.
  intros Hwf Hi. destruct (bmap_pages_bounds r Hwf) as (? & ? & ? & ?).
  pose proof (Z.div_mod i 8). pose proof (Z.mod_pos_bound i 8). lia.
Qed.

(** Page [i] of a region as bytes of the address space. *)
Lemma region_addr r x :
  region_wf r → 0 ≤ x ≤ pages r * PAGE_SIZE →
  P_TO_V (start r + x) = PHYS_MAPPING_START + start r + x.
Proof.
  intros (? & ? & ? & ?) ?. rewrite P_TO_V_small by (unfold PAGE_SIZE in *; lia). lia.
Qed.

Lemma region_byte_eq r i : region_wf r → region_byte r i = PHYS_MAPPING_START + start r + i / 8.
Proof.
  intros Hwf. unfold region_byte. pose proof (region_addr r 0 Hwf) as H.
  destruct Hwf as (? & ? & ? & ?). rewrite Z.add_0_r in H. rewrite H; unfold PAGE_SIZE; lia.
Qed.

Lemma page_addr_V r i :
  region_wf r → 0 ≤ i < pages r → P_TO_V (page_addr r i) = PHYS_MAPPING_START + page_addr r i.
Proof. intros Hwf ?. unfold page_addr. rewrite region_addr by (done || unfold PAGE_SIZE; lia). lia. Qed.

Section geometry.
Context (rs : list mmap_region) (Hrs : regions_ok rs).

Lemma rs_wf r : r ∈ rs → region_wf r.
Proof using Hrs. apply Hrs. Qed.

(** A page lies in one region, at one index. *)
Lemma page_addr_inj r1 r2 i1 i2 :
  r1 ∈ rs → r2 ∈ rs → 0 ≤ i1 < pages r1 → 0 ≤ i2 < pages r2 →
  page_addr r1 i1 = page_addr r2 i2 → r1 = r2 ∧ i1 = i2.
Proof using Hrs.
  unfold page_addr, PAGE_SIZE. intros H1 H2 Hi1 Hi2 He.
  destruct (proj2 Hrs r1 r2 H1 H2) as [->|Hd]; [split; [done|lia]|].
  unfold disjoint_regions, PAGE_SIZE in Hd. lia.
Qed.

(** No bitmap byte lies in a page outside the bitmaps. *)
Lemma bitmap_not_in_frame r j r' i k :
  r ∈ rs → r' ∈ rs → 0 ≤ j < pages r → bmap_pages r' ≤ i < pages r' → 0 ≤ k < PAGE_SIZE →
  region_byte r j ≠ P_TO_V (page_addr r' i) + k.
Proof using Hrs.
  intros Hr Hr' Hj Hi Hk.
  pose proof (rs_wf r Hr) as Hw. pose proof (rs_wf r' Hr') as Hw'.
  destruct (bmap_pages_bounds r Hw) as (Hb1 & Hb2 & _), (bmap_pages_bounds r' Hw') as (Hb1' & _).
  rewrite region_byte_eq, page_addr_V by (done || lia).
  pose proof (bmap_byte_bounds r j Hw Hj).
  destruct (proj2 Hrs r r' Hr Hr') as [->|Hd]; unfold page_addr, disjoint_regions, PAGE_SIZE in *; nia.
Qed.

(** Bits of different regions live in different bytes. *)
Lemma region_byte_ne r r' j j' :
  r ∈ rs → r' ∈ rs → r ≠ r' → 0 ≤ j < pages r → 0 ≤ j' < pages r' →
  region_byte r j ≠ region_byte r' j'.
Proof using Hrs.
  intros Hr Hr' Hne Hj Hj'.
  pose proof (rs_wf r Hr) as Hw. pose proof (rs_wf r' Hr') as Hw'.
  destruct (bmap_pages_bounds r Hw) as (Hb1 & Hb2 & _), (bmap_pages_bounds r' Hw') as (Hb1' & Hb2' & _).
  rewrite !region_byte_eq by done.
  pose proof (bmap_byte_bounds r j Hw Hj). pose proof (bmap_byte_bounds r' j' Hw' Hj').
  destruct (proj2 Hrs r r' Hr Hr') as [->|Hd]; [done|].
  unfold disjoint_regions, PAGE_SIZE in *. nia.
Qed.

(** What a bit update does to every bit of every region. *)
Lemma get_set_bit_all m r i r' i' :
  r ∈ rs → r' ∈ rs → 0 ≤ i < pages r → 0 ≤ i' < pages r' →
  region_get_bit (region_set_bit m r i) r' i' =
  if decide (r = r' ∧ i = i') then true else region_get_bit m r' i'.
Proof using Hrs.
  intros Hr Hr' Hi Hi'. destruct (decide (r = r')) as [->|Hne].
  - rewrite region_get_set_bit. repeat case_decide; intuition congruence.
  - rewrite decide_False by (intros [? ?]; done). apply region_get_bit_ext.
    unfold region_set_bit. by rewrite ld8_st8_ne by by apply region_byte_ne.
Qed.

Lemma get_unset_bit_all m r i r' i' :
  r ∈ rs → r' ∈ rs → 0 ≤ i < pages r → 0 ≤ i' < pages r' →
  region_get_bit (region_unset_bit m r i) r' i' =
  if decide (r = r' ∧ i = i') then false else region_get_bit m r' i'.
Proof using Hrs.
  intros Hr Hr' Hi Hi'. destruct (decide (r = r')) as [->|Hne].
  - rewrite region_get_unset_bit. repeat case_decide; intuition congruence.
  - rewrite decide_False by (intros [? ?]; done). apply region_get_bit_ext.
    unfold region_unset_bit. by rewrite ld8_st8_ne by by apply region_byte_ne.
Qed.

(** Memory that changes only inside frames keeps every bit. *)
Lemma bits_only_frames (P : Z → Prop) m m' r j :
  (∀ q, P q → ∃ r i, frame_at rs q r i) → only_pages P m m' →
  r ∈ rs → 0 ≤ j < pages r → region_get_bit m' r j = region_get_bit m r j.
Proof using Hrs.
  intros HP Ho Hr Hj. apply region_get_bit_ext, Ho. intros q Hq Hin.
  destruct (HP q Hq) as (r' & i & Hr' & Hi & ->).
  apply (bitmap_not_in_frame r j r' i (region_byte r j - P_TO_V (page_addr r' i))); try done; lia.
Qed.

Lemma frame_at_good p r i : frame_at rs p r i → good_frame p.
Proof using Hrs.
  intros (Hr & Hi & ->). pose proof (rs_wf r Hr) as Hw.
  destruct (bmap_pages_bounds r Hw) as (? & ? & ? & ?), Hw as (? & Hm & ? & ?).
  unfold good_frame, page_addr, PAGE_SIZE in *. split; [|split]; [|rewrite Z.mod_add; lia|nia].
  assert (0 < bmap_pages r) by lia. nia.
Qed.

End geometry.

(** ** The free frames *)
Lemma elem_of_free_frames s q :
  q ∈ free_frames s ↔ ∃ r i, r ∈ regions s ∧ 0 ≤ i < pages r ∧
    region_get_bit (p_mem s) r i = false ∧ q = page_addr r i.
Proof.
  unfold free_frames, free_frames_of. rewrite elem_of_list_to_set, list_elem_of_bind.
  split.
  - intros (r & Hq & Hr). apply list_elem_of_fmap in Hq as (i & -> & Hi).
    apply list_elem_of_filter in Hi as [Hb Hi%elem_of_seqZ]. exists r, i. split_and!; done || lia.
  - intros (r & i & Hr & Hi & Hb & ->). exists r. split; [|done].
    apply list_elem_of_fmap. exists i. split; [done|].
    apply list_elem_of_filter. split; [done|]. apply elem_of_seqZ. lia.
Qed.

(** A clear bit is never one of the bitmap's own. *)
Lemma free_bit_frame s r i :
  pmm_inv s → r ∈ regions s → 0 ≤ i < pages r → region_get_bit (p_mem s) r i = false →
  frame_at (regions s) (page_addr r i) r i.
Proof.
  intros [Hrs Hbm] Hr Hi Hb. split; [done|]. split; [|done].
  destruct (decide (i < bmap_pages r)); [|lia]. rewrite Hbm in Hb by (done || lia). done.
Qed.

Lemma free_not_used s q : pmm_inv s → q ∈ free_frames s → ¬ pmm_used s q.
Proof.
  intros [Hrs Hbm] (r & i & Hr & Hi & Hb & ->)%elem_of_free_frames (r' & i' & (Hr' & Hi' & Heq) & Hb').
  destruct (bmap_pages_bounds r' (rs_wf _ Hrs r' Hr')) as (? & _).
  destruct (page_addr_inj _ Hrs r r' i i') as [-> ->]; try done; try lia. congruence.
Qed.

Lemma find_free_page_loop_spec n m r i a m' :
  find_free_page_loop n m r i = (a, m') →
  (a = 0 ∧ m' = m ∧ ∀ j, i ≤ j < i + Z.of_nat n → region_get_bit m r j = true) ∨
  (∃ j, i ≤ j < i + Z.of_nat n ∧ region_get_bit m r j = false ∧
        (∀ k, i ≤ k < j → region_get_bit m r k = true) ∧
        a = w64 (page_addr r j) ∧ m' = region_set_bit m r j).
Proof.
  revert i. induction n as [|n IH]; intros i H; simpl in H.
  - injection H as <- <-. left. split_and!; try done. lia.
  - destruct (region_get_bit m r i) eqn:Hi.
    + destruct (IH _ H) as [(-> & -> & Ha)|(j & ? & ? & Hk & ? & ?)].
      * left. split_and!; try done. intros j Hj.
        destruct (decide (j = i)) as [->|]; [done|]. apply Ha. lia.
      * right. exists j. split_and!; try done; try lia. intros k Hk'.
        destruct (decide (k = i)) as [->|]; [done|]. apply Hk. lia.
    + injection H as <- <-. right. exists i. split_and!; try done; try lia.
Qed.

(** The search through the regions takes the first clear bit, if there is one. *)
Lemma pmm_alloc_loop_spec s rs a m' :
  pmm_inv s → rs ⊆ regions s → pmm_alloc_loop rs (p_mem s) = (a, m') →
  (a = 0 ∧ m' = p_mem s ∧
     ∀ r i, r ∈ rs → 0 ≤ i < pages r → region_get_bit (p_mem s) r i = true) ∨
  (∃ r i, r ∈ rs ∧ 0 ≤ i < pages r ∧ region_get_bit (p_mem s) r i = false ∧
     a = page_addr r i ∧ 0 < a ∧ m' = region_set_bit (p_mem s) r i).
Proof.
  intros Hinv. induction rs as [|r rs IH]; intros Hsub H; simpl in H.
  - injection H as <- <-. left. split_and!; try done. set_solver.
  - destruct (find_free_page (p_mem s) r) as [a0 m0] eqn:Hf.
    assert (r ∈ regions s) as Hr by set_solver.
    destruct (rs_wf _ (proj1 Hinv) r Hr) as (H1 & _ & H3 & H4).
    apply find_free_page_loop_spec in Hf as [(-> & -> & Hall)|(j & Hj & Hb & _ & -> & ->)].
    + simpl in H. destruct IH as [(-> & -> & Hall')|(r' & i & ? & ?)]; [set_solver|done|..].
      * left. split_and!; try done. intros r' i [->|?]%elem_of_cons Hi; [apply Hall; lia|eauto].
      * right. exists r', i. set_solver.
    + right. exists r, j.
      pose proof (free_bit_frame s r j Hinv Hr ltac:(lia) Hb) as Hfr.
      destruct (frame_at_good _ (proj1 Hinv) _ _ _ Hfr) as (Hpos & _ & Hlim).
      unfold PAGE_SIZE, PHYS_LIMIT in *.
      rewrite w64_small in H by lia.
      destruct (Z.eqb_spec (page_addr r j) 0); [lia|]. injection H as <- <-.
      split_and!; try done; try lia. set_solver.
Qed.

(** The frames in use are frames of the regions. *)
Lemma used_frame_at s q : pmm_used s q → ∃ r i, frame_at (regions s) q r i.
Proof. intros (r & i & ? & _). eauto. Qed.

Lemma frame_index_bounds s q r i :
  pmm_inv s → frame_at (regions s) q r i → r ∈ regions s ∧ 0 ≤ i < pages r.
Proof.
  intros [Hrs _] (Hr & Hi & _). destruct (bmap_pages_bounds r (rs_wf _ Hrs r Hr)) as (? & _).
  split; [done|lia].
Qed.

(** A region whose pages are all free counts with all of them but its bitmap. *)
Lemma region_avail s r :
  pmm_inv s → r ∈ regions s → (∀ i, bmap_pages r ≤ i < pages r → page_addr r i ∈ free_frames s) →
  (Z.to_nat (pages r - bmap_pages r) ≤ size (free_frames s))%nat.
Proof.
  intros [Hrs _] Hr Hf. destruct (bmap_pages_bounds r (rs_wf _ Hrs r Hr)) as (Hb & _).
  transitivity (size (list_to_set (page_addr r <$> seqZ (bmap_pages r) (pages r - bmap_pages r)) : gset Z)).
  - rewrite size_list_to_set; [by rewrite length_fmap, length_seqZ|].
    apply NoDup_fmap_2; [|apply NoDup_seqZ]. intros i j. unfold page_addr, PAGE_SIZE. lia.
  - apply subseteq_size. intros q. rewrite elem_of_list_to_set, list_elem_of_fmap.
    intros (i & -> & Hi%elem_of_seqZ). apply Hf. lia.
Qed.

(** Memory with the same bits. *)
Lemma pmm_same_bits_ok s m :
  pmm_inv s → (∀ r j, r ∈ regions s → 0 ≤ j < pages r → region_get_bit m r j = region_get_bit (p_mem s) r j) →
  let s' := Pmm m (regions s) in
  pmm_inv s' ∧ free_frames s' = free_frames s ∧ (∀ q, pmm_used s' q ↔ pmm_used s q).
Proof.
  intros Hinv Hbits s'. pose proof Hinv as [Hrs Hbm].
  split_and!.
  - split; [done|]. intros r j Hr Hj. simpl in *.
    destruct (bmap_pages_bounds r (rs_wf _ Hrs r Hr)) as (? & _).
    rewrite Hbits by (done || lia). by apply Hbm.
  - apply set_eq. intros q. rewrite !elem_of_free_frames. simpl.
    split; intros (r & i & ? & ? & Hb & ?); exists r, i; rewrite Hbits in * by done; done.
  - intros q. split; intros (r & i & Hf & Hb); exists r, i; (split; [done|]);
      destruct (frame_index_bounds s q r i Hinv Hf); simpl in *;
      rewrite Hbits in * by done; done.
Qed.

(** Rewriting memory inside frames in use changes no bit. *)
Lemma pmm_set_mem_ok s m :
  pmm_inv s → only_pages (pmm_used s) (p_mem s) m →
  let s' := Pmm m (regions s) in
  pmm_inv s' ∧ free_frames s' = free_frames s ∧ (∀ q, pmm_used s' q ↔ pmm_used s q).
Proof.
  intros Hinv Ho. apply pmm_same_bits_ok; [done|]. intros r j Hr Hj.
  by apply (bits_only_frames _ (proj1 Hinv) _ _ _ _ _ (used_frame_at s) Ho).
Qed.

(** Taking a free frame: its bit is set, every other bit is kept. *)
Lemma pmm_set_bit_ok s r i :
  pmm_inv s → r ∈ regions s → 0 ≤ i < pages r → region_get_bit (p_mem s) r i = false →
  let s' := Pmm (region_set_bit (p_mem s) r i) (regions s) in
  pmm_inv s' ∧ free_frames s' = free_frames s ∖ {[page_addr r i]} ∧
  (∀ q, pmm_used s' q ↔ pmm_used s q ∨ q = page_addr r i).
Proof.
  intros Hinv Hr Hi Hb s'. pose proof Hinv as [Hrs Hbm].
  pose proof (free_bit_frame s r i Hinv Hr Hi Hb) as Hfr.
  split_and!.
  - split; [done|]. intros r' j Hr' Hj. simpl in *.
    destruct (bmap_pages_bounds r' (rs_wf _ Hrs r' Hr')) as (? & _).
    rewrite (get_set_bit_all _ Hrs) by (done || lia). case_decide; [done|by apply Hbm].
  - apply set_eq. intros q. rewrite elem_of_difference, elem_of_singleton, !elem_of_free_frames.
    simpl. split.
    + intros (r' & i' & Hr' & Hi' & Hb' & ->). rewrite (get_set_bit_all _ Hrs) in Hb' by done.
      case_decide as Hd; [done|]. split; [by eauto 10|]. intros Heq.
      apply (page_addr_inj _ Hrs) in Heq; try done. naive_solver.
    + intros ((r' & i' & Hr' & Hi' & Hb' & ->) & Hne). exists r', i'. split_and!; try done; try lia.
      rewrite (get_set_bit_all _ Hrs) by done. rewrite decide_False; [done|]. by intros [-> ->].
  - intros q. split.
    + intros (r' & i' & Hf & Hb'). destruct (frame_index_bounds s q r' i' Hinv Hf) as [Hr' Hi'].
      simpl in *. rewrite (get_set_bit_all _ Hrs) in Hb' by done. case_decide as Hd.
      * right. destruct Hd as [-> ->]. apply Hf.
      * left. by exists r', i'.
    + intros [(r' & i' & Hf & Hb')| ->].
      * destruct (frame_index_bounds s q r' i' Hinv Hf) as [Hr' Hi'].
        exists r', i'. split; [done|]. simpl. rewrite (get_set_bit_all _ Hrs) by done. by case_decide.
      * exists r, i. split; [done|]. simpl. rewrite (get_set_bit_all _ Hrs) by done.
        by rewrite decide_True.
Qed.

(** Releasing a frame: its bit is cleared, every other bit is kept. *)
Lemma pmm_unset_bit_ok s q r i :
  pmm_inv s → frame_at (regions s) q r i →
  let s' := Pmm (region_unset_bit (p_mem s) r i) (regions s) in
  pmm_inv s' ∧ free_frames s' = free_frames s ∪ {[q]} ∧
  (∀ p, pmm_used s' p ↔ pmm_used s p ∧ p ≠ q).
Proof.
  intros Hinv Hfr s'. pose proof Hinv as [Hrs Hbm].
  destruct (frame_index_bounds s q r i Hinv Hfr) as [Hr Hi]. destruct Hfr as (_ & Hbi & ->).
  split_and!.
  - split; [done|]. intros r' j Hr' Hj. simpl in *.
    destruct (bmap_pages_bounds r' (rs_wf _ Hrs r' Hr')) as (? & _).
    rewrite (get_unset_bit_all _ Hrs) by (done || lia).
    rewrite decide_False; [by apply Hbm|]. intros [-> ->]. lia.
  - apply set_eq. intros p. rewrite elem_of_union, elem_of_singleton, !elem_of_free_frames.
    simpl. split.
    + intros (r' & i' & Hr' & Hi' & Hb' & ->). rewrite (get_unset_bit_all _ Hrs) in Hb' by done.
      case_decide as Hd; [right; by destruct Hd as [-> ->]|left; by eauto 10].
    + intros [(r' & i' & Hr' & Hi' & Hb' & ->)| ->].
      * exists r', i'. split_and!; try done; try lia.
        rewrite (get_unset_bit_all _ Hrs) by done. by case_decide.
      * exists r, i. split_and!; try done; try lia.
        rewrite (get_unset_bit_all _ Hrs) by done. by rewrite decide_True.
  - intros p. split.
    + intros (r' & i' & Hf & Hb'). destruct (frame_index_bounds s p r' i' Hinv Hf) as [Hr' Hi'].
      simpl in *. rewrite (get_unset_bit_all _ Hrs) in Hb' by done. case_decide as Hd; [done|].
      split; [by exists r', i'|]. intros ->. destruct Hf as (_ & _ & Heq).
      apply (page_addr_inj _ Hrs) in Heq; try done.
    + intros [(r' & i' & Hf & Hb') Hne].
      destruct (frame_index_bounds s p r' i' Hinv Hf) as [Hr' Hi'].
      exists r', i'. split; [done|]. simpl. rewrite (get_unset_bit_all _ Hrs) by done.
      rewrite decide_False; [done|]. intros [-> ->]. by destruct Hf as (_ & _ & ->).
Qed.

(** A bit update changes no byte of a frame. *)
Lemma bit_byte_not_in_frame s r i q :
  pmm_inv s → r ∈ regions s → 0 ≤ i < pages r → pmm_used s q →
  ∀ k, 0 ≤ k < PAGE_SIZE → region_byte r i ≠ P_TO_V q + k.
Proof.
  intros Hinv Hr Hi Hq k Hk. destruct (used_frame_at s q Hq) as (r' & i' & Hr' & Hi' & ->).
  apply (bitmap_not_in_frame _ (proj1 Hinv)); done.
Qed.

(** Zeroing a page that is not [q] leaves [q] alone. *)
Lemma memset_other_page m p q n :
  good_frame p → good_frame q → p ≠ q → n ≤ PAGE_SIZE → same_page m (memset m (P_TO_V p) 0 n) q.
Proof.
  intros Hp Hq Hne Hn k Hk. rewrite ld8_memset. rewrite decide_False; [done|]. intros Hin.
  apply (good_frames_disjoint q p k (P_TO_V q + k - P_TO_V p)); try done; lia.
Qed.

(** ** What the operations do *)

(** [pmm_alloc] with a free frame left: it takes one of the free frames, fills
    it with zeros, and disturbs no other frame in use. *)
Lemma pmm_alloc_takes s :
  pmm_inv s → free_frames s ≠ ∅ →
  wp pmm_alloc s (λ p s',
    pmm_inv s' ∧ p ∈ free_frames s ∧ free_frames s' = free_frames s ∖ {[p]} ∧
    (∀ q, pmm_used s' q ↔ pmm_used s q ∨ q = p) ∧ zero_page (p_mem s') p ∧
    (∀ q, pmm_used s q → same_page (p_mem s) (p_mem s') q) ∧ regions s' = regions s).
Proof.
  intros Hinv Hne. unfold wp, pmm_alloc.
  destruct (pmm_alloc_loop (regions s) (p_mem s)) as [a m1] eqn:Hl.
  apply pmm_alloc_loop_spec in Hl; [|done|done].
  destruct Hl as [(_ & _ & Hall)|(r & i & Hr & Hi & Hb & -> & Hpos & ->)].
  { exfalso. apply set_choose_L in Hne as [q (r & i & Hr & Hi & Hb & _)%elem_of_free_frames].
    rewrite Hall in Hb; done. }
  set (p := page_addr r i) in *.
  set (s1 := Pmm (region_set_bit (p_mem s) r i) (regions s)).
  destruct (pmm_set_bit_ok s r i Hinv Hr Hi Hb) as (Hinv1 & Hfree1 & Hused1). fold s1 p in Hinv1, Hfree1, Hused1.
  assert (pmm_used s1 p) as Hup by (apply Hused1; by right).
  assert (∀ q, pmm_used s1 q → good_frame q) as Hgood.
  { intros q (r' & i' & Hf & _). eapply frame_at_good; [apply Hinv1|done]. }
  destruct (pmm_set_mem_ok s1 (memset (p_mem s1) (P_TO_V p) 0 PAGE_SIZE) Hinv1) as (Hinv2 & Hfree2 & Hused2).
  { intros a Ha. rewrite ld8_memset. rewrite decide_False; [done|]. exact (Ha p Hup). }
  simpl in *. split; [exact Hinv2|]. split; [|split; [|split; [|split; [|split; [|done]]]]].
  - apply elem_of_free_frames. by exists r, i.
  - by rewrite Hfree2, Hfree1.
  - intros q. by rewrite Hused2, Hused1.
  - intros k Hk. rewrite ld8_memset. by rewrite decide_True by lia.
  - intros q Hq k Hk. assert (q ≠ p) as Hqp.
    { intros ->. apply (free_not_used s p Hinv); [|done]. apply elem_of_free_frames. by exists r, i. }
    rewrite (memset_other_page _ p q PAGE_SIZE) by (try apply Hgood; try apply Hused1; auto; done || lia).
    unfold region_set_bit. rewrite ld8_st8_ne; [done|]. by apply (bit_byte_not_in_frame s).
Qed.

(** [pmm_alloc] with no frame left: it answers 0, and the page it clears is
    physical page 0. *)
Lemma pmm_alloc_exhausted s :
  pmm_inv s → free_frames s = ∅ →
  pmm_alloc s = Ok (0, Pmm (memset (p_mem s) (P_TO_V 0) 0 PAGE_SIZE) (regions s)).
Proof.
  intros Hinv He. unfold pmm_alloc.
  destruct (pmm_alloc_loop (regions s) (p_mem s)) as [a m1] eqn:Hl.
  apply pmm_alloc_loop_spec in Hl; [|done|done].
  destruct Hl as [(-> & -> & _)|(r & i & Hr & Hi & Hb & _)]; [done|].
  exfalso. apply (not_elem_of_empty (C := gset Z) (page_addr r i)). rewrite <- He.
  apply elem_of_free_frames. by exists r, i.
Qed.

Lemma region_unset_idem m r i :
  region_unset_bit (region_unset_bit m r i) r i = region_unset_bit m r i.
Proof.
  unfold region_unset_bit at 1. unfold region_unset_bit at 1 2. rewrite ld8_st8_eq.
  unfold region_unset_bit, st8. rewrite insert_insert_eq. f_equal.
  set (b := ld8 m (region_byte r i)). set (k := i mod 8). apply Z.bits_inj'. intros j Hj.
  unfold w8. destruct (Z.lt_ge_cases j 8).
  - rewrite !Z.mod_pow2_bits_low, !Z.land_spec, Z.mod_pow2_bits_low, Z.land_spec by lia.
    destruct (Z.testbit b j), (Z.testbit (Z.lnot (Z.shiftl 1 k)) j); done.
  - by rewrite !Z.mod_pow2_bits_high by lia.
Qed.

(** The loop of [pmm_free] over the regions clears the one bit of the frame. *)
Lemma free_loop_eq s q r i rs m :
  pmm_inv s → frame_at (regions s) q r i → rs ⊆ regions s →
  m = p_mem s ∨ m = region_unset_bit (p_mem s) r i →
  foldl (free_in_region q) m rs = if decide (r ∈ rs) then region_unset_bit (p_mem s) r i else m.
Proof.
  intros Hinv Hfr. revert m. induction rs as [|r' rs IH]; intros m Hsub Hm; cbn [foldl].
  { destruct (decide (r ∈ [])) as [Hin|]; [by apply elem_of_nil in Hin|done]. }
  pose proof Hinv as [Hrs _].
  destruct (frame_index_bounds s q r i Hinv Hfr) as [Hr Hi].
  assert (r' ∈ regions s) as Hr' by set_solver.
  destruct (rs_wf _ Hrs r Hr) as (? & ? & ? & ?), (rs_wf _ Hrs r' Hr') as (? & ? & ? & ?).
  destruct (bmap_pages_bounds r (rs_wf _ Hrs r Hr)) as (? & ? & ? & ?).
  destruct Hfr as (_ & Hbi & Hq). unfold page_addr, PAGE_SIZE, PHYS_LIMIT in *.
  destruct (decide (r' = r)) as [->|Hne].
  - unfold free_in_region. rewrite w64_small by (unfold PAGE_SIZE; lia).
    replace (q <? start r) with false by lia. unfold PAGE_SIZE.
    replace (start r + pages r * 4096 <? q) with false by lia. simpl.
    replace ((q - start r) / 4096) with i by (rewrite Hq; replace (start r + i * 4096 - start r) with (i * 4096) by lia; by rewrite Z.div_mul).
    assert (region_unset_bit m r i = region_unset_bit (p_mem s) r i) as ->
      by (destruct Hm as [->| ->]; [done|apply region_unset_idem]).
    rewrite IH by (set_solver || by right). destruct (decide (r ∈ rs)), (decide (r ∈ r :: rs)); set_solver.
  - replace (free_in_region q m r') with m.
    + rewrite IH by (done || set_solver). destruct (decide (r ∈ rs)), (decide (r ∈ r' :: rs)); set_solver.
    + unfold free_in_region. rewrite w64_small by (unfold PAGE_SIZE; lia). unfold PAGE_SIZE.
      destruct (proj2 Hrs r r' Hr Hr') as [?|Hd]; [congruence|].
      unfold disjoint_regions, PAGE_SIZE in Hd. assert (0 < bmap_pages r) by lia.
      destruct (Z.ltb_spec q (start r')); [done|].
      by replace (start r' + pages r' * 4096 <? q) with true by lia.
Qed.

(** [pmm_free] of a frame in use returns it and disturbs no frame in use. *)
Lemma pmm_free_returns s q :
  pmm_inv s → pmm_used s q →
  wp (pmm_free q) s (λ _ s',
    pmm_inv s' ∧ free_frames s' = free_frames s ∪ {[q]} ∧
    (∀ p, pmm_used s' p ↔ pmm_used s p ∧ p ≠ q) ∧
    (∀ p, pmm_used s p → same_page (p_mem s) (p_mem s') p) ∧ regions s' = regions s).
Proof.
  intros Hinv Hq. destruct (used_frame_at s q Hq) as (r & i & Hfr).
  destruct (frame_index_bounds s q r i Hinv Hfr) as [Hr Hi].
  unfold pmm_free. change (0xFFF) with PAGE_MASK. rewrite land_page_mask.
  destruct (frame_at_good _ (proj1 Hinv) _ _ _ Hfr) as (_ & -> & _). simpl. apply wp_modify.
  rewrite (free_loop_eq s q r i) by (done || by left). rewrite decide_True by done.
  destruct (pmm_unset_bit_ok s q r i Hinv Hfr) as (? & ? & ?). split_and!; try done.
  intros p Hp k Hk. simpl. unfold region_unset_bit. rewrite ld8_st8_ne; [done|].
  by apply (bit_byte_not_in_frame s).
Qed.

(** The frame allocator keeps its contract. *)
#[export] Instance pmm_frame_laws : FrameLaws pmm.
Proof.
  refine {| frame_inv := pmm_inv; frame_used := pmm_used; frame_avail := pmm_avail |}.
  - done.
  - intros s p Hinv (r & i & Hf & _). eapply frame_at_good; [apply Hinv|done].
  - intros s Hinv Hav. eapply wp_mono; [apply pmm_alloc_takes; [done|]|].
    + intros He. unfold pmm_avail in Hav. rewrite He, size_empty in Hav. lia.
    + intros p s' (? & Hp & Hf & ? & ? & ? & _). split_and!; try done.
      * by apply free_not_used.
      * unfold pmm_avail. rewrite Hf, size_difference, size_singleton by set_solver.
        enough (size (free_frames s) ≠ 0%nat) by lia. intros Hz%size_empty_inv. set_solver.
  - intros s p Hinv Hu. eapply wp_mono; [by apply pmm_free_returns|].
    intros [] s' (? & Hf & ? & ? & _). split_and!; try done.
    unfold pmm_avail. rewrite Hf, size_union, size_singleton; [lia|].
    intros q Hq ->%elem_of_singleton. by apply (free_not_used s p).
  - intros s m Hinv Ho. destruct (pmm_set_mem_ok s m Hinv Ho) as (? & Hf & ?).
    split_and!; try done. unfold pmm_avail. by rewrite <- Hf.
Defined.

(** An allocator without physical page 0 ignores [pmm_free(0)]. *)
Definition regions_null (s : pmm) : Prop := ∀ r, r ∈ regions s → 0 < start r.

Lemma pmm_alloc_regions P : keeps (λ s, P (regions s)) pmm_alloc (λ _, True).
Proof. intros s Hs. unfold pmm_alloc. by destruct (pmm_alloc_loop (regions s) (p_mem s)). Qed.
Lemma pmm_free_regions P p : keeps (λ s, P (regions s)) (pmm_free p) (λ _, True).
Proof. intros s Hs. unfold pmm_free. by destruct (negb _). Qed.
Lemma free_null_loop rs m : (∀ r, r ∈ rs → 0 < start r) → foldl (free_in_region 0) m rs = m.
Proof.
  revert m. induction rs as [|r rs IH]; intros m Hr; simpl; [done|]. unfold free_in_region at 2.
  assert (0 < start r) as H0 by (apply Hr; left). destruct (Z.ltb_spec 0 (start r)); [|lia]. apply IH. intros r' ?. apply Hr. by right.
Qed.
Lemma pmm_free_null s : regions_null s → pmm_free 0 s = Ok (tt, s).
Proof.
  intros Hs. unfold pmm_free. simpl. unfold modify. rewrite free_null_loop by done. by destruct s.
Qed.

#[export] Instance pmm_frame_null : FrameNull pmm := {
  frame_null := regions_null;
  frame_null_alloc := pmm_alloc_regions (λ rs, ∀ r, r ∈ rs → 0 < start r);
  frame_null_free := pmm_free_regions (λ rs, ∀ r, r ∈ rs → 0 < start r);
  frame_null_mem s m Hs := Hs;
  frame_free_null := pmm_free_null;
}.


(** ** Initialisation *)
Lemma set_bits_get n m r j0 j :
  region_get_bit (set_bits n m r j0) r j =
  if decide (j0 ≤ j < j0 + Z.of_nat n) then true else region_get_bit m r j.
Proof.
  revert m j0. induction n as [|n IH]; intros m j0; cbn [set_bits].
  - rewrite decide_False by lia. done.
  - rewrite IH, region_get_set_bit.
    repeat case_decide; done || lia.
Qed.

Lemma set_bits_other n m r j0 a :
  (∀ j, j0 ≤ j < j0 + Z.of_nat n → region_byte r j ≠ a) → ld8 (set_bits n m r j0) a = ld8 m a.
Proof.
  revert m j0. induction n as [|n IH]; intros m j0 Ha; cbn [set_bits]; [done|].
  rewrite IH by (intros; apply Ha; lia). unfold region_set_bit.
  apply ld8_st8_ne, Ha. lia.
Qed.

(** A fresh bitmap marks exactly the pages that hold it. *)
Lemma init_region_bits m r j :
  region_wf r → 0 ≤ j < pages r →
  region_get_bit (init_region m r) r j = bool_decide (j < bmap_pages r).
Proof.
  intros Hwf Hj. destruct (bmap_pages_bounds r Hwf) as (? & ? & ? & ?).
  unfold init_region. rewrite set_bits_get. case_decide.
  - rewrite bool_decide_eq_true_2 by lia. done.
  - rewrite bool_decide_eq_false_2 by lia.
    rewrite region_get_bit_testbit, ld8_memset, decide_True; [apply Z.bits_0|].
    unfold region_byte. pose proof (bmap_byte_bounds r j Hwf Hj). lia.
Qed.

Lemma init_region_other rs m r r' j :
  regions_ok rs → r ∈ rs → r' ∈ rs → r ≠ r' → 0 ≤ j < pages r' →
  region_get_bit (init_region m r) r' j = region_get_bit m r' j.
Proof.
  intros Hrs Hr Hr' Hne Hj. pose proof (rs_wf _ Hrs r Hr) as Hw.
  destruct (bmap_pages_bounds r Hw) as (? & ? & ? & ?).
  apply region_get_bit_ext. unfold init_region.
  rewrite set_bits_other by (intros; apply (region_byte_ne rs Hrs); done || lia).
  rewrite ld8_memset. rewrite decide_False; [done|]. intros Hin.
  set (x := region_byte r' j - P_TO_V (start r)) in *.
  assert (0 ≤ x < bmap_size r) as Hx by (subst x; lia).
  assert (0 < pages r) by (unfold PAGE_SIZE in *; lia).
  destruct (decide (8 * x < pages r)) as [Hlt|Hge].
  - apply (region_byte_ne rs Hrs r r' (8 * x) j); try done; [lia|].
    unfold region_byte at 1. rewrite (Z.mul_comm 8), Z.div_mul by lia. subst x. lia.
  - rewrite (bmap_size_eq r Hw) in Hx. pose proof (Z.div_mod (pages r + 7) 8).
    pose proof (Z.mod_pos_bound (pages r + 7) 8). lia.
Qed.

Lemma init_regions_bits rs0 rs m r j :
  regions_ok rs0 → rs ⊆ rs0 → r ∈ rs → 0 ≤ j < pages r →
  region_get_bit (pmm_init_regions m rs) r j = bool_decide (j < bmap_pages r).
Proof.
  intros Hrs Hsub Hr Hj. revert Hsub Hr.
  induction rs as [|r' rs IH] using rev_ind; intros Hsub Hr; [set_solver|].
  unfold pmm_init_regions in *. rewrite foldl_app. simpl.
  destruct (decide (r' = r)) as [->|Hne].
  - apply init_region_bits; [|done]. apply (rs_wf _ Hrs). set_solver.
  - rewrite (init_region_other rs0) by (done || set_solver). apply IH; set_solver.
Qed.

(** After [pmm_init_regions] the invariant holds, and the free frames are the
    pages of the regions outside the bitmaps. *)
Lemma pmm_init_regions_inv rs m :
  regions_ok rs →
  let s := Pmm (pmm_init_regions m rs) rs in
  pmm_inv s ∧ (∀ q, q ∈ free_frames s ↔ ∃ r i, frame_at rs q r i) ∧ (∀ q, ¬ pmm_used s q).
Proof.
  intros Hrs s.
  assert (∀ r j, r ∈ rs → 0 ≤ j < pages r →
     region_get_bit (p_mem s) r j = bool_decide (j < bmap_pages r)) as Hb.
  { intros. by apply (init_regions_bits rs). }
  assert (pmm_inv s) as Hinv.
  { split; [done|]. intros r j Hr Hj. simpl in *.
    destruct (bmap_pages_bounds r (rs_wf _ Hrs r Hr)) as (? & _).
    rewrite Hb by (done || lia). apply bool_decide_eq_true_2. lia. }
  split_and!; [done|..].
  - intros q. rewrite elem_of_free_frames. split.
    + intros (r & i & Hr & Hi & Hbit & ->). exists r, i. by apply (free_bit_frame s).
    + intros (r & i & Hf). destruct (frame_index_bounds s q r i Hinv Hf). exists r, i.
      destruct Hf as (? & ? & ?). split_and!; try done; try lia.
      rewrite Hb by done. apply bool_decide_eq_false_2. lia.
  - intros q (r & i & Hf & Hbit). destruct (frame_index_bounds s q r i Hinv Hf).
    destruct Hf as (? & ? & ?). rewrite Hb in Hbit by done.
    apply bool_decide_eq_true in Hbit. lia.
Qed.

(** ** The memory map handed over by the boot loader *)
Record mmap_entry := Entry { e_addr : Z; e_len : Z; e_type : Z }.

(** The tag at [t] holds [entries], each [es] bytes long. *)
Definition mmap_tag (m : mem) (t es : Z) (entries : list mmap_entry) : Prop :=
  ld32 m (t + 8) = es ∧ 0 < es ∧ ld32 m (t + 4) = 16 + es * Z.of_nat (length entries) ∧
  ∀ k e, entries !! k = Some e →
    let a := t + 16 + es * Z.of_nat k in
    ld64 m a = e_addr e ∧ ld64 m (a + 8) = e_len e ∧ ld32 m (a + 16) = e_type e.

Definition entries_regions (kstart kend : Z) (entries : list mmap_entry) : list mmap_region :=
  omap (λ e, if e_type e =? MULTIBOOT_MEMORY_AVAILABLE
             then entry_region kstart kend (e_addr e) (e_len e) else None) entries.

Lemma pmm_set_mmap_loop_spec fuel m ks ke t es done_ todo acc :
  mmap_tag m t es (done_ ++ todo) → (length todo < fuel)%nat → (length acc ≤ MAX_REGIONS)%nat →
  pmm_set_mmap_loop fuel m ks ke t (t + 16 + es * Z.of_nat (length done_)) acc =
  (if decide (length (acc ++ entries_regions ks ke todo) ≤ MAX_REGIONS)%nat
   then Ok (acc ++ entries_regions ks ke todo) else Fault).
Proof.
  revert fuel done_ acc. induction todo as [|e todo IH]; intros fuel dn acc Ht Hf Hacc;
    pose proof Ht as (Hes & Hpos & Hsz & Hent); (destruct fuel as [|fuel]; [simpl in Hf; lia|]); cbn [pmm_set_mmap_loop].
  - rewrite app_nil_r in *. rewrite Hsz, decide_True by done.
    by replace (_ <? _) with false by lia.
  - rewrite length_app in Hsz. simpl in Hsz.
    replace (_ <? _) with true by lia.
    destruct (Hent (length dn) e) as (Ha & Hl & Hty); [by apply list_lookup_middle|].
    rewrite Hes, Ha, Hl, Hty.
    assert (t + 16 + es * Z.of_nat (length dn) + es = t + 16 + es * Z.of_nat (length (dn ++ [e]))) as Hn
      by (rewrite length_app; simpl; lia).
    assert (mmap_tag m t es ((dn ++ [e]) ++ todo)) as Ht' by by rewrite <- app_assoc.
    simpl in Hf. unfold entries_regions. cbn [omap list_omap]. fold (entries_regions ks ke todo).
    destruct (e_type e =? MULTIBOOT_MEMORY_AVAILABLE) eqn:E; cbn [negb].
    + destruct (entry_region ks ke (e_addr e) (e_len e)) as [r|].
      * case_decide as Hlen.
        -- rewrite Hn, IH by (done || (rewrite ?length_app; simpl; lia)). by rewrite <- app_assoc.
        -- rewrite decide_False; [done|]. rewrite length_app. simpl. lia.
      * rewrite Hn, IH by (done || lia). done.
    + rewrite Hn, IH by (done || lia). done.
Qed.

(** [mboot_find_tag]: [tags_at m a l] says that the tags at [a] are [l] (type
    and size), ended by a tag of type 0. *)
Fixpoint tags_at (m : mem) (a : Z) (l : list (Z * Z)) : Prop :=
  match l with
  | [] => ld32 m a = MULTIBOOT_TAG_TYPE_END
  | (ty, sz) :: l' =>
      ty ≠ MULTIBOOT_TAG_TYPE_END ∧ ld32 m a = ty ∧ ld32 m (a + 4) = sz ∧
      tags_at m (ALIGNUP (a + sz) 8) l'
  end.
Fixpoint find_tag_spec (tag a : Z) (l : list (Z * Z)) : Z :=
  match l with
  | [] => 0
  | (ty, sz) :: l' => if ty =? tag then a else find_tag_spec tag (ALIGNUP (a + sz) 8) l'
  end.

Lemma mboot_find_tag_loop_spec fuel m tag a l :
  tags_at m a l → (length l < fuel)%nat →
  mboot_find_tag_loop fuel m tag a = Ok (find_tag_spec tag a l).
Proof.
  revert fuel a. induction l as [|[ty sz] l IH]; intros [|fuel] a Ht Hf; simpl in *; try lia.
  - rewrite Ht, orb_true_r. done.
  - destruct Ht as (Hty & -> & -> & Ht). destruct (Z.eqb_spec ty MULTIBOOT_TAG_TYPE_END); [done|].
    rewrite orb_false_r. destruct (ty =? tag); [done|]. apply IH; [done|lia].
Qed.

(** ** Cutting the kernel image out of a region *)
Definition region_end (r : mmap_region) : Z := start r + pages r * PAGE_SIZE.

Lemma entry_region_cut ks ke addr len r :
  0 ≤ addr → 0 ≤ len → addr + len < 2 ^ 64 → 0 ≤ ks → ks < ke → ke + 4095 < 2 ^ 64 →
  entry_region ks ke addr len = Some r →
  addr ≤ start r ∧ 0 ≤ pages r ∧ region_end r ≤ addr + len ∧
  (addr mod PAGE_SIZE = 0 → start r mod PAGE_SIZE = 0) ∧
  (¬ (addr < ks ∧ ke ≤ addr + len) → region_end r ≤ ks ∨ ke ≤ start r).
Proof.
  intros Ha Hl He Hks Hke Hke'. unfold entry_region, overlaps_kernel, region_end.
  rewrite (w64_small (addr + len)) by lia.
  destruct (page_align_up_bounds ke) as [Hup Hupm]; [lia..|].
  assert (ALIGNDOWN ks PAGE_SIZE ≤ ks ∧ 0 ≤ ALIGNDOWN ks PAGE_SIZE) as [Hdn Hdn0].
  { rewrite page_align_down_eq by lia. unfold PAGE_SIZE.
    pose proof (Z.mod_pos_bound ks 4096). pose proof (Z.mod_le ks 4096). lia. }
  assert (∀ x, 0 ≤ x → 0 ≤ w64 x / PAGE_SIZE ∧ (x < 2 ^ 64 → w64 x / PAGE_SIZE * PAGE_SIZE ≤ x)) as Hdiv.
  { intros x Hx. unfold PAGE_SIZE. pose proof (w64_range x).
    pose proof (Z.div_mod (w64 x) 4096). pose proof (Z.mod_pos_bound (w64 x) 4096).
    split; [lia|]. intros. rewrite w64_small in * by lia. lia. }
  set (up := ALIGNUP ke PAGE_SIZE) in *. set (dn := ALIGNDOWN ks PAGE_SIZE) in *.
  set (e := addr + len) in *.
  destruct ((ks <=? addr) && (addr <? ke)) eqn:Hs;
  destruct ((ks <=? e) && (e <? ke)) eqn:Hend; cbn [andb].
  - destruct (Z.leb_spec e up); [done|]. lia.
  - destruct (Z.leb_spec e up); [done|]. intros [= <-]. simpl.
    destruct (Hdiv (e - up)); [lia|]. split_and!; try done; lia.
  - destruct (Z.leb_spec dn addr); [done|]. intros [= <-]. simpl.
    destruct (Hdiv (dn - addr)); [lia|]. split_and!; try done; lia.
  - intros [= <-]. simpl. destruct (Hdiv (e - addr)); [lia|].
    split_and!; try done; try lia.
Qed.

(** ** Clients of the allocator as a step relation

    A state is the allocator and the set of frames its clients hold.  Clients
    allocate, release a frame they hold, and write inside frames they hold.  An
    allocation that fails clears the physical page 0, so it is a step only while
    no region begins there ([pmm_alloc_exhausted_clears_bitmap] is the other
    case). *)
Inductive pmm_step : pmm * gset Z → pmm * gset Z → Prop :=
  | step_alloc s own p s' :
      pmm_alloc s = Ok (p, s') → p ≠ 0 → pmm_step (s, own) (s', {[p]} ∪ own)
  | step_exhausted s own s' :
      pmm_alloc s = Ok (0, s') → (∀ r, r ∈ regions s → 0 < start r) → pmm_step (s, own) (s', own)
  | step_free s own p s' :
      p ∈ own → pmm_free p s = Ok (tt, s') → pmm_step (s, own) (s', own ∖ {[p]})
  | step_write s own m :
      only_pages (λ q, q ∈ own) (p_mem s) m → pmm_step (s, own) (Pmm m (regions s), own).

(** Every frame of the regions is either held or free, never both. *)
Definition pmm_balanced (x : pmm * gset Z) : Prop :=
  let '(s, own) := x in
  pmm_inv s ∧ (∀ q, pmm_used s q ↔ q ∈ own) ∧ own ## free_frames s ∧
  (∀ q, q ∈ own ∪ free_frames s ↔ ∃ r i, frame_at (regions s) q r i).

Lemma used_or_free s q :
  pmm_inv s → (pmm_used s q ∨ q ∈ free_frames s) ↔ ∃ r i, frame_at (regions s) q r i.
Proof.
  intros Hinv. split.
  - intros [Hu|(r & i & ? & ? & ? & ->)%elem_of_free_frames]; [by apply used_frame_at|].
    exists r, i. by apply (free_bit_frame s).
  - intros (r & i & Hf). destruct (region_get_bit (p_mem s) r i) eqn:Hb.
    + left. by exists r, i.
    + right. apply elem_of_free_frames. destruct (frame_index_bounds s q r i Hinv Hf).
      exists r, i. destruct Hf as (_ & _ & ->). done.
Qed.

Lemma balanced_intro s own :
  pmm_inv s → (∀ q, pmm_used s q ↔ q ∈ own) → pmm_balanced (s, own).
Proof.
  intros Hinv Hu. split_and!; [done|done|..].
  - intros q Hq Hf. apply Hu in Hq. by apply (free_not_used s q).
  - intros q. rewrite elem_of_union, <- Hu. by apply used_or_free.
Qed.

(** The page that a failed allocation clears is no bitmap. *)
Lemma pmm_clear_low_ok s :
  pmm_inv s → (∀ r, r ∈ regions s → 0 < start r) →
  let s' := Pmm (memset (p_mem s) (P_TO_V 0) 0 PAGE_SIZE) (regions s) in
  pmm_inv s' ∧ free_frames s' = free_frames s ∧ (∀ q, pmm_used s' q ↔ pmm_used s q).
Proof.
  intros Hinv Hlow. apply pmm_same_bits_ok; [done|]. intros r j Hr Hj.
  pose proof (rs_wf _ (proj1 Hinv) r Hr) as Hwf. rewrite !region_get_bit_testbit. f_equal.
  rewrite ld8_memset, decide_False; [done|]. rewrite (region_byte_eq r j Hwf). specialize (Hlow r Hr).
  destruct Hwf as (Hst & Hal & _). change (P_TO_V 0) with PHYS_MAPPING_START. pose proof (Z.div_pos j 8).
  pose proof (Z.div_mod (start r) PAGE_SIZE ltac:(done)). unfold PAGE_SIZE in *. lia.
Qed.

Lemma pmm_step_balanced x y : pmm_balanced x → pmm_step x y → pmm_balanced y.
Proof.
  intros Hb Hs. destruct Hs as [s own p s' Ha Hp|s own s' Ha Hlow|s own p s' Hp Hf|s own m Hm];
    destruct Hb as (Hinv & Hu & _).
  - destruct (decide (free_frames s = ∅)) as [He|He].
    { rewrite (pmm_alloc_exhausted s Hinv He) in Ha. congruence. }
    pose proof (pmm_alloc_takes s Hinv He) as Hw. unfold wp in Hw. rewrite Ha in Hw.
    destruct Hw as (Hinv' & _ & _ & Hu' & _). apply balanced_intro; [done|].
    intros q. rewrite Hu', Hu. set_solver.
  - destruct (decide (free_frames s = ∅)) as [He|He].
    + rewrite (pmm_alloc_exhausted s Hinv He) in Ha. injection Ha as <-.
      destruct (pmm_clear_low_ok s Hinv Hlow) as (Hinv' & _ & Hu'). apply balanced_intro; [done|]. intros q. by rewrite Hu', Hu.
    + pose proof (pmm_alloc_takes s Hinv He) as Hw. unfold wp in Hw. rewrite Ha in Hw. destruct Hw as (_ & H0 & _).
      destruct (proj1 (used_or_free s 0 Hinv) (or_intror H0)) as (r & i & Hfr).
      destruct (frame_index_bounds s 0 r i Hinv Hfr) as [Hr Hi]. destruct Hfr as (_ & _ & Hz). specialize (Hlow r Hr).
      unfold page_addr, PAGE_SIZE in Hz. lia.
  - pose proof (pmm_free_returns s p Hinv (proj2 (Hu p) Hp)) as Hw. unfold wp in Hw. rewrite Hf in Hw.
    destruct Hw as (Hinv' & _ & Hu' & _). apply balanced_intro; [done|].
    intros q. rewrite Hu', Hu. set_solver.
  - destruct (pmm_set_mem_ok s m Hinv) as (Hinv' & _ & Hu').
    { intros a Ha. apply Hm. intros q Hq. by apply Ha, Hu. }
    apply balanced_intro; [done|]. intros q. by rewrite Hu', Hu.
Qed.

(** A small region to run the definitions on: 16 pages at 1 MiB. *)
Definition ex_region : mmap_region := Region 0x100000 16.
Definition ex_pmm : pmm := Pmm (pmm_init_regions ∅ [ex_region]) [ex_region].

Lemma ex_regions_ok : regions_ok [ex_region].
Proof.
  split.
  - intros r ->%list_elem_of_singleton. split_and!; by vm_compute.
  - intros r1 r2 ->%list_elem_of_singleton ->%list_elem_of_singleton. by left.
Qed.
Lemma ex_pmm_inv : pmm_inv ex_pmm.
Proof. by apply pmm_init_regions_inv, ex_regions_ok. Qed.
Lemma ex_pmm_free : 0x101000 ∈ free_frames ex_pmm.
Proof.
  apply (pmm_init_regions_inv [ex_region] ∅ ex_regions_ok).
  exists ex_region, 1. split; [apply list_elem_of_singleton; done|].
  split; [|done]. split; [by vm_compute|done].
Qed.
Lemma ex_pmm_free_ne : free_frames ex_pmm ≠ ∅.
Proof. intros He. pose proof ex_pmm_free as H. rewrite He in H. by apply not_elem_of_empty in H. Qed.
Definition ex_pmm1 : pmm := match pmm_alloc ex_pmm with Ok (_, s) => s | _ => ex_pmm end.
Lemma ex_pmm_alloc : pmm_alloc ex_pmm = Ok (0x101000, ex_pmm1).
Proof.
  assert (match pmm_alloc ex_pmm with Ok (p, _) => p =? 0x101000 | _ => false end = true) as H
    by by vm_compute.
  unfold ex_pmm1. destruct (pmm_alloc ex_pmm) as [[p s]| | |]; [|done..].
  by apply Z.eqb_eq in H as ->.
Qed.

(** ** The properties of the frame allocator *)

(** C21: while a frame is free, [pmm_alloc] answers one of the free frames: a
    page-aligned nonzero physical address of a page of a region outside the
    bitmaps; the page is filled with zeros, the frame leaves the free set and
    joins the frames in use, every other frame keeps its state and its
    contents, and the invariant is kept. *)
Theorem pmm_alloc_spec (s : pmm) (Hinv : pmm_inv s) (Hfree : free_frames s ≠ ∅) :
  ∃ p s', pmm_alloc s = Ok (p, s') ∧ pmm_inv s' ∧
    p ∈ free_frames s ∧ ¬ pmm_used s p ∧ good_frame p ∧
    free_frames s' = free_frames s ∖ {[p]} ∧
    (∀ q, pmm_used s' q ↔ pmm_used s q ∨ q = p) ∧
    zero_page (p_mem s') p ∧ (∀ q, pmm_used s q → same_page (p_mem s) (p_mem s') q).
Proof.
  destruct (proj1 (wp_run _ _ _) (pmm_alloc_takes s Hinv Hfree))
    as (p & s' & Hok & Hinv' & Hp & Hf & Hu & Hz & Hsame & _).
  exists p, s'. split; [done|]. split; [done|]. split; [done|].
  split; [by apply free_not_used|]. split; [|done].
  destruct (proj1 (used_or_free s p Hinv) (or_intror Hp)) as (r & i & Hfr).
  by apply (frame_at_good _ (proj1 Hinv) _ _ _ Hfr).
Qed.
Lemma pmm_alloc_spec_witness :
  ∃ p s', pmm_alloc ex_pmm = Ok (p, s') ∧ zero_page (p_mem s') p.
Proof.
  destruct (pmm_alloc_spec ex_pmm ex_pmm_inv ex_pmm_free_ne)
    as (p & s' & Hok & _ & _ & _ & _ & _ & _ & Hz & _).
  exists p, s'. split; [exact Hok|exact Hz].
Defined.

Lemma ex_pmm1_inv : pmm_inv ex_pmm1 ∧ pmm_used ex_pmm1 0x101000.
Proof.
  pose proof (pmm_alloc_takes ex_pmm ex_pmm_inv ex_pmm_free_ne) as Hw. unfold wp in Hw.
  rewrite ex_pmm_alloc in Hw. destruct Hw as (Hinv & _ & _ & Hu & _).
  split; [done|]. apply Hu. by right.
Qed.

(** [pmm_free] of a frame in use returns exactly that frame: it leaves the
    frames in use and becomes free, every other frame keeps its state and its
    contents, and the invariant is kept. *)
Theorem pmm_free_spec (s : pmm) (q : Z) (Hinv : pmm_inv s) (Hused : pmm_used s q) :
  ∃ s', pmm_free q s = Ok (tt, s') ∧ pmm_inv s' ∧
    free_frames s' = free_frames s ∪ {[q]} ∧ (∀ p, pmm_used s' p ↔ pmm_used s p ∧ p ≠ q) ∧
    (∀ p, pmm_used s p → same_page (p_mem s) (p_mem s') p).
Proof.
  destruct (proj1 (wp_run _ _ _) (pmm_free_returns s q Hinv Hused))
    as ([] & s' & Hok & Hinv' & Hf & Hu & Hsame & _).
  by exists s'.
Qed.
Lemma pmm_free_spec_witness :
  ∃ s', pmm_free 0x101000 ex_pmm1 = Ok (tt, s') ∧ ¬ pmm_used s' 0x101000.
Proof.
  destruct (pmm_free_spec ex_pmm1 0x101000 (proj1 ex_pmm1_inv) (proj2 ex_pmm1_inv))
    as (s' & Hok & _ & _ & Hu & _).
  exists s'. split; [exact Hok|]. intros H. destruct (proj1 (Hu _) H) as [_ Hne]. by apply Hne.
Defined.

(** C24: whatever sequence of allocations, releases of held frames and writes
    inside held frames the clients perform after initialisation, every frame
    of the regions is held by a client or free and never both, so no frame is
    handed out twice.  Allocations may fail in between as long as no region
    begins at address 0; with one that does, the sequence may only have
    allocations that succeed, because a failed one clears that region's bitmap. *)
Theorem pmm_frames_conserved (m : mem) (rs : list mmap_region) (s : pmm) (own : gset Z)
    (Hrs : regions_ok rs)
    (Hreach : rtc pmm_step (Pmm (pmm_init_regions m rs) rs, ∅) (s, own)) :
  pmm_balanced (s, own).
Proof.
  assert (pmm_balanced (Pmm (pmm_init_regions m rs) rs, ∅)) as H0.
  { destruct (pmm_init_regions_inv rs m Hrs) as (Hinv & _ & Hu).
    apply balanced_intro; [done|]. intros q. split; [by intros ?%Hu|].
    by intros ?%not_elem_of_empty. }
  revert H0. generalize (Pmm (pmm_init_regions m rs) rs, ∅ : gset Z), Hreach.
  intros x Hx H0. induction Hx; [done|]. eauto using pmm_step_balanced.
Qed.
Lemma pmm_frames_conserved_witness : pmm_balanced (ex_pmm1, {[0x101000]} ∪ ∅).
Proof.
  apply (pmm_frames_conserved ∅ [ex_region]); [exact ex_regions_ok|].
  apply rtc_once, (step_alloc ex_pmm ∅ 0x101000 ex_pmm1); [exact ex_pmm_alloc|done].
Defined.

(** when no frame is free, [pmm_alloc] answers 0 and clears physical page 0
    all the same; if a region starts at address 0 that page is its bitmap, so
    every frame it holds bits for is free again although it is in use, and
    the next allocations hand it out a second time. *)
Theorem pmm_alloc_exhausted_clears_bitmap (s : pmm) (q : Z) (r : mmap_region) (i : Z)
    (Hinv : pmm_inv s) (Hfull : free_frames s = ∅)
    (Hq : frame_at (regions s) q r i) (Hstart : start r = 0) (Hbit : i < 8 * PAGE_SIZE) :
  pmm_used s q ∧ ∃ s', pmm_alloc s = Ok (0, s') ∧ q ∈ free_frames s'.
Proof.
  split.
  { destruct (proj2 (used_or_free s q Hinv)) as [Hu|Hf]; [by exists r, i|done|].
    rewrite Hfull in Hf. by apply not_elem_of_empty in Hf. }
  eexists. split; [by apply pmm_alloc_exhausted|].
  destruct (frame_index_bounds s q r i Hinv Hq) as [Hr Hi]. destruct Hq as (_ & _ & ->).
  apply elem_of_free_frames. exists r, i. split_and!; try done; try lia.
  rewrite region_get_bit_testbit. simpl. rewrite ld8_memset, decide_True; [apply Z.bits_0|].
  unfold region_byte. rewrite Hstart. unfold PAGE_SIZE in *.
  pose proof (Z.div_mod i 8). pose proof (Z.mod_pos_bound i 8). lia.
Qed.
Definition ex_low : mmap_region := Region 0 2.
Definition ex_low_pmm : pmm := Pmm (region_set_bit (pmm_init_regions ∅ [ex_low]) ex_low 1) [ex_low].
Lemma ex_low_ok : pmm_inv ex_low_pmm ∧ free_frames ex_low_pmm = ∅.
Proof.
  assert (region_get_bit (p_mem ex_low_pmm) ex_low 0 && region_get_bit (p_mem ex_low_pmm) ex_low 1 = true) as Hb
    by by vm_compute.
  apply andb_true_iff in Hb as [Hb0 Hb1].
  assert (∀ i, 0 ≤ i < 2 → region_get_bit (p_mem ex_low_pmm) ex_low i = true) as Hall.
  { intros i Hi. assert (i = 0 ∨ i = 1) as [-> | ->] by lia; done. }
  split; [split|].
  - split.
    + intros r ->%list_elem_of_singleton. split_and!; by vm_compute.
    + intros r1 r2 ->%list_elem_of_singleton ->%list_elem_of_singleton. by left.
  - intros r j ->%list_elem_of_singleton Hj. apply Hall.
    change (bmap_pages ex_low) with 1 in Hj. lia.
  - apply set_eq. intros q. rewrite elem_of_free_frames. split; [|intros H; exfalso; exact (not_elem_of_empty _ H)].
    intros (r & i & ->%list_elem_of_singleton & Hi & Hbit & _). rewrite Hall in Hbit; [done|exact Hi].
Qed.
Lemma pmm_alloc_exhausted_clears_bitmap_witness :
  pmm_used ex_low_pmm 4096 ∧ ∃ s', pmm_alloc ex_low_pmm = Ok (0, s') ∧ 4096 ∈ free_frames s'.
Proof.
  apply (pmm_alloc_exhausted_clears_bitmap ex_low_pmm 4096 ex_low 1);
    [apply ex_low_ok|apply ex_low_ok| |reflexivity|done].
  split; [by apply list_elem_of_singleton|]. split; [|done]. split; [by vm_compute|done].
Defined.

(** [pmm_set_mmap] cuts the kernel image out: the region made from a memory
    map entry lies inside the entry, keeps its alignment, and does not meet the
    kernel image unless the entry starts below the image and reaches past its
    end. *)
Theorem entry_region_avoids_kernel (ks ke addr len : Z) (r : mmap_region)
    (Haddr : 0 ≤ addr) (Hlen : 0 ≤ len) (Hend : addr + len < 2 ^ 64)
    (Hk : 0 ≤ ks < ke) (Hke : ke + 4095 < 2 ^ 64)
    (Hr : entry_region ks ke addr len = Some r) :
  addr ≤ start r ∧ 0 ≤ pages r ∧ region_end r ≤ addr + len ∧
  (addr mod PAGE_SIZE = 0 → start r mod PAGE_SIZE = 0) ∧
  (¬ (addr < ks ∧ ke ≤ addr + len) → region_end r ≤ ks ∨ ke ≤ start r).
Proof. apply (entry_region_cut ks ke addr len r); lia || done. Qed.
Lemma entry_region_avoids_kernel_witness :
  entry_region 0x100000 0x120000 0x100000 0x100000 = Some (Region 0x120000 224) ∧
  (region_end (Region 0x120000 224) ≤ 0x100000 ∨ 0x120000 ≤ start (Region 0x120000 224)).
Proof.
  split; [reflexivity|].
  destruct (entry_region_avoids_kernel 0x100000 0x120000 0x100000 0x100000 (Region 0x120000 224))
    as (_ & _ & _ & _ & Ha); [lia|lia|lia|lia|lia|reflexivity|]. apply Ha. lia.
Defined.

(** an entry that starts below the kernel image and reaches past its end is
    kept whole: the allocator takes the kernel's own pages for free memory. *)
Theorem entry_region_keeps_kernel (ks ke addr len : Z)
    (Haddr : 0 ≤ addr < ks) (Hk : ks < ke) (Hend : ke ≤ addr + len < 2 ^ 64) :
  entry_region ks ke addr len = Some (Region addr (len / PAGE_SIZE)).
Proof.
  unfold entry_region, overlaps_kernel. rewrite (w64_small (addr + len)) by lia.
  replace (ks <=? addr) with false by lia. replace (addr + len <? ke) with false by lia.
  rewrite andb_false_r. simpl. do 2 f_equal. rewrite w64_small by lia. f_equal. lia.
Qed.
Lemma entry_region_keeps_kernel_witness :
  entry_region 0x200000 0x220000 0x100000 0x400000 = Some (Region 0x100000 1024).
Proof. rewrite (entry_region_keeps_kernel 0x200000 0x220000 0x100000 0x400000); [reflexivity|lia|lia|lia]. Defined.

(** The regions made from the entries of a memory map are well formed when the
    entries are. *)
Definition entry_ok (ks ke : Z) (e : mmap_entry) : Prop :=
  0 ≤ e_addr e ∧ e_addr e mod PAGE_SIZE = 0 ∧ 0 ≤ e_len e ∧ e_addr e + e_len e ≤ PHYS_LIMIT ∧
  ¬ (e_addr e < ks ∧ ke ≤ e_addr e + e_len e).
Definition entries_ok (ks ke : Z) (es : list mmap_entry) : Prop :=
  (∀ e, e ∈ es → e_type e = MULTIBOOT_MEMORY_AVAILABLE → entry_ok ks ke e) ∧
  (∀ e1 e2, e1 ∈ es → e2 ∈ es →
     e_type e1 = MULTIBOOT_MEMORY_AVAILABLE → e_type e2 = MULTIBOOT_MEMORY_AVAILABLE →
     e1 = e2 ∨ e_addr e1 + e_len e1 ≤ e_addr e2 ∨ e_addr e2 + e_len e2 ≤ e_addr e1).

Lemma entries_regions_ok ks ke es :
  0 ≤ ks < ke → ke ≤ PHYS_LIMIT → entries_ok ks ke es →
  regions_ok (entries_regions ks ke es) ∧
  ∀ r, r ∈ entries_regions ks ke es → region_end r ≤ ks ∨ ke ≤ start r.
Proof.
  intros Hk Hke [Hok Hdis].
  assert (∀ r, r ∈ entries_regions ks ke es → ∃ e, e ∈ es ∧
    e_type e = MULTIBOOT_MEMORY_AVAILABLE ∧
    entry_region ks ke (e_addr e) (e_len e) = Some r) as Hfrom.
  { intros r Hr. apply list_elem_of_omap in Hr as (e & He & Hr). exists e. split; [done|].
    by destruct (Z.eqb_spec (e_type e) MULTIBOOT_MEMORY_AVAILABLE). }
  assert (∀ e r, e ∈ es → e_type e = MULTIBOOT_MEMORY_AVAILABLE → entry_region ks ke (e_addr e) (e_len e) = Some r →
    region_wf r ∧ e_addr e ≤ start r ∧ region_end r ≤ e_addr e + e_len e ∧
    (region_end r ≤ ks ∨ ke ≤ start r)) as Hcut.
  { intros e r He Hty Hr. destruct (Hok e He Hty) as (Ha & Hal & Hl & Hend & Hnot). unfold PHYS_LIMIT in *.
    destruct (entry_region_cut ks ke (e_addr e) (e_len e) r) as (? & ? & ? & ? & ?);
      [done|done|lia|lia|lia|lia|done|].
    unfold region_wf, PHYS_LIMIT. unfold region_end in *. split_and!; auto; lia. }
  split; [split|].
  - intros r (e & He & Hty & Hr)%Hfrom. by apply (Hcut e r).
  - intros r1 r2 (e1 & He1 & Hty1 & Hr1)%Hfrom (e2 & He2 & Hty2 & Hr2)%Hfrom.
    destruct (Hcut e1 r1 He1 Hty1 Hr1) as (_ & ? & ? & _).
    destruct (Hcut e2 r2 He2 Hty2 Hr2) as (_ & ? & ? & _).
    destruct (Hdis e1 e2 He1 He2 Hty1 Hty2) as [->|Hd]; [left; congruence|].
    right. unfold disjoint_regions. unfold region_end in *. lia.
  - intros r (e & He & Hty & Hr)%Hfrom. by apply (Hcut e r).
Qed.

Lemma pmm_init_ok (fuel : nat) (ks ke mboot es : Z) (tags : list (Z * Z))
    (entries : list mmap_entry) (s : pmm)
    (Htags : tags_at (p_mem s) (mboot + 8) tags)
    (Hfound : find_tag_spec MULTIBOOT_TAG_TYPE_MMAP (mboot + 8) tags ≠ 0)
    (Hmap : mmap_tag (p_mem s) (find_tag_spec MULTIBOOT_TAG_TYPE_MMAP (mboot + 8) tags) es entries)
    (Hfuel : (length tags < fuel ∧ length entries < fuel)%nat)
    (Hk : 0 ≤ ks < ke) (Hke : ke ≤ PHYS_LIMIT) (Hok : entries_ok ks ke entries)
    (Hmax : (length (entries_regions ks ke entries) ≤ MAX_REGIONS)%nat) :
  ∃ s', pmm_init fuel ks ke mboot s = Ok (tt, s') ∧ pmm_inv s' ∧
    regions s' = entries_regions ks ke entries ∧
    (∀ q, q ∈ free_frames s' ↔ ∃ r i, frame_at (regions s') q r i) ∧
    (∀ q, q ∈ free_frames s' → q + PAGE_SIZE ≤ ks ∨ ke ≤ q).
Proof.
  destruct (entries_regions_ok ks ke entries Hk Hke Hok) as [Hrs Hcut].
  exists (Pmm (pmm_init_regions (p_mem s) (entries_regions ks ke entries)) (entries_regions ks ke entries)).
  destruct (pmm_init_regions_inv _ (p_mem s) Hrs) as (Hinv & Hfree & _).
  split_and!; [|done|done|done|].
  - unfold pmm_init, mboot_find_tag. rewrite (mboot_find_tag_loop_spec _ _ _ _ tags) by (done || lia).
    destruct (Z.eqb_spec (find_tag_spec MULTIBOOT_TAG_TYPE_MMAP (mboot + 8) tags) 0); [done|].
    unfold pmm_set_mmap. pose proof (pmm_set_mmap_loop_spec fuel (p_mem s) ks ke _ es [] entries []
      Hmap ltac:(lia) ltac:(simpl; lia)) as Hl.
    simpl in Hl. rewrite Z.mul_0_r, Z.add_0_r, decide_True in Hl by done. by rewrite Hl.
  - intros q (r & i & Hf)%Hfree. destruct (frame_index_bounds _ q r i Hinv Hf) as [Hr Hi].
    destruct Hf as (_ & _ & ->). destruct (Hcut r Hr) as [?|?]; unfold region_end, page_addr, PAGE_SIZE in *; lia.
Qed.

(** C30: [pmm_init] on boot information whose memory map is sane (page-aligned
    disjoint usable entries, at most 64 of them, none enclosing the kernel
    image) finds the memory map tag, registers the usable entries with the
    kernel image cut out, and establishes the allocator's invariant: every page
    of a region outside the bitmaps is free, and none of them meets the kernel. *)
Theorem pmm_init_spec (fuel : nat) (ks ke mboot es : Z) (tags : list (Z * Z))
    (entries : list mmap_entry) (s : pmm)
    (Htags : tags_at (p_mem s) (mboot + 8) tags)
    (Hfound : find_tag_spec MULTIBOOT_TAG_TYPE_MMAP (mboot + 8) tags ≠ 0)
    (Hmap : mmap_tag (p_mem s) (find_tag_spec MULTIBOOT_TAG_TYPE_MMAP (mboot + 8) tags) es entries)
    (Hfuel : (length tags < fuel ∧ length entries < fuel)%nat)
    (Hk : 0 ≤ ks < ke) (Hke : ke ≤ PHYS_LIMIT) (Hok : entries_ok ks ke entries)
    (Hmax : (length (entries_regions ks ke entries) ≤ MAX_REGIONS)%nat) :
  ∃ s', pmm_init fuel ks ke mboot s = Ok (tt, s') ∧ pmm_inv s' ∧
    regions s' = entries_regions ks ke entries ∧
    (∀ q, q ∈ free_frames s' ↔ ∃ r i, frame_at (regions s') q r i) ∧
    (∀ q, q ∈ free_frames s' → q + PAGE_SIZE ≤ ks ∨ ke ≤ q).
Proof. by apply (pmm_init_ok fuel ks ke mboot es tags). Qed.

(** Boot information with one tag, the memory map, and one usable entry. *)
Definition ex_boot : mem :=
  st32 (st32 (st64 (st64 (st32 (st32 (st32 ∅ 0x9008 6) 0x900c 40) 0x9010 24)
    0x9018 0x100000) 0x9020 0x100000) 0x9028 1) 0x9030 0.
Definition ex_entry : mmap_entry := Entry 0x100000 0x100000 1.
Lemma pmm_init_spec_witness :
  ∃ s', pmm_init 4 0x100000 0x120000 0x9000 (Pmm ex_boot []) = Ok (tt, s') ∧ pmm_inv s' ∧
    regions s' = [Region 0x120000 224].
Proof.
  destruct (pmm_init_spec 4 0x100000 0x120000 0x9000 24 [(6, 40)] [ex_entry] (Pmm ex_boot []))
    as (s' & Hok & Hinv & Hr & _).
  - vm_compute. repeat split; discriminate.
  - vm_compute. discriminate.
  - split_and!; [by vm_compute|by vm_compute|by vm_compute|].
    intros [|k] e He; [|by destruct k]. injection He as <-. split_and!; by vm_compute.
  - simpl. lia.
  - lia.
  - by vm_compute.
  - split.
    + intros e ->%list_elem_of_singleton _. unfold entry_ok. split_and!; try (by vm_compute). simpl. lia.
    + intros e1 e2 ->%list_elem_of_singleton ->%list_elem_of_singleton _ _. by left.
  - vm_compute. lia.
  - exists s'. split; [exact Hok|]. split; [exact Hinv|]. rewrite Hr. reflexivity.
Defined.
