(* ===== verification/PageTable.v ===== *)
(** Four-level page tables, the first half of [mm/vmm.c].

    The tables live in physical memory as arrays of 512 64-bit entries and are
    reached through [P_TO_V]; every accessor walks down from [mm->p4] as the
    code does.  The frames come from an allocator that keeps the contract of
    [Interfaces].  The theorems relate the memory to the map from virtual
    pages to entries that the processor sees. *)

From S2P Require Import Prelude Memory Interfaces.

(** [struct mm]: the physical address of the top-level table, and the list of
    memory areas (used by [Mm]). *)
Record mm := Mm { p4 : Z; vm_areas : Z }.
Definition set_p4 (x : mm) (v : Z) : mm := Mm v (vm_areas x).

Definition P4_NDX (x : Z) : Z := Z.land (Z.shiftr x 39) 0x1FF.
Definition P3_NDX (x : Z) : Z := Z.land (Z.shiftr x 30) 0x1FF.
Definition P2_NDX (x : Z) : Z := Z.land (Z.shiftr x 21) 0x1FF.
Definition P1_NDX (x : Z) : Z := Z.land (Z.shiftr x 12) 0x1FF.

Definition PAGE_PRESENT : Z := Z.shiftl 1 0.
Definition PAGE_WRITE : Z := Z.shiftl 1 1.
Definition PAGE_USER : Z := Z.shiftl 1 2.

(** ** Entries *)
Definition entry_addr (table i : Z) : Z := P_TO_V table + 8 * i.

Definition p4_get_entry (m : mem) (x : mm) (i : Z) : Z := ld64 m (entry_addr (p4 x) i).
Definition p3_get_entry (m : mem) (x : mm) (p4_i i : Z) : Z :=
  ld64 m (entry_addr (page_base (p4_get_entry m x p4_i)) i).
Definition p2_get_entry (m : mem) (x : mm) (p4_i p3_i i : Z) : Z :=
  ld64 m (entry_addr (page_base (p3_get_entry m x p4_i p3_i)) i).
Definition p1_get_entry (m : mem) (x : mm) (p4_i p3_i p2_i i : Z) : Z :=
  ld64 m (entry_addr (page_base (p2_get_entry m x p4_i p3_i p2_i)) i).

Definition p4_set_entry (m : mem) (x : mm) (i val : Z) : mem :=
  st64 m (entry_addr (p4 x) i) val.
Definition p3_set_entry (m : mem) (x : mm) (p4_i i val : Z) : mem :=
  st64 m (entry_addr (page_base (p4_get_entry m x p4_i)) i) val.
Definition p2_set_entry (m : mem) (x : mm) (p4_i p3_i i val : Z) : mem :=
  st64 m (entry_addr (page_base (p3_get_entry m x p4_i p3_i)) i) val.
Definition p1_set_entry (m : mem) (x : mm) (p4_i p3_i p2_i i val : Z) : mem :=
  st64 m (entry_addr (page_base (p2_get_entry m x p4_i p3_i p2_i)) i) val.

Definition vmm_get_phys (m : mem) (x : mm) (virt : Z) : Z :=
  page_base (p1_get_entry m x (P4_NDX virt) (P3_NDX virt) (P2_NDX virt) (P1_NDX virt)).

(** ** Mapping and unmapping a page *)
Section code.
Context {St : Type} `{FrameOps St}.

Definition read {A} (f : mem → A) : M St A := gets (λ s, f (frame_mem s)).
Definition write (f : mem → mem) : M St unit := modify (λ s, frame_set_mem s (f (frame_mem s))).

(** The three blocks of [vmm_map_page] that allocate a missing table. *)
Definition ensure_entry (get : mem → Z) (set : mem → Z → mem) (flags : Z) : M St unit :=
  let* e := read get in
  if e =? 0 then
    let* table := frame_alloc in
    write (λ m, set m (Z.lor table flags))
  else mret_ tt.

Definition vmm_map_page (x : mm) (virt phys flags : Z) : M St mm :=
  let p4_i := P4_NDX virt in
  let p3_i := P3_NDX virt in
  let p2_i := P2_NDX virt in
  let p1_i := P1_NDX virt in
  let* x := (if p4 x =? 0 then let* f := frame_alloc in mret_ (set_p4 x f) else mret_ x) in
  ensure_entry (λ m, p4_get_entry m x p4_i) (λ m v, p4_set_entry m x p4_i v) flags ;;*
  ensure_entry (λ m, p3_get_entry m x p4_i p3_i) (λ m v, p3_set_entry m x p4_i p3_i v) flags ;;*
  ensure_entry (λ m, p2_get_entry m x p4_i p3_i p2_i)
    (λ m v, p2_set_entry m x p4_i p3_i p2_i v) flags ;;*
  write (λ m, p1_set_entry m x p4_i p3_i p2_i p1_i (Z.lor phys flags)) ;;*
  mret_ x.

(** [for (int i = 0; i < 512; i++) if (get(i) != 0) return;] *)
Definition all_zero (get : Z → Z) : bool := forallb (λ i, get i =? 0) (seqZ 0 512).

(** The three blocks of [vmm_unmap_page] that give back a table with no entry
    left: free the frame, clear the entry that led to it, go on one level up. *)
Definition drop_table (empty : mem → bool) (get : mem → Z) (clear : mem → mem) (x : mm)
    (next : M St mm) : M St mm :=
  let* z := read empty in
  if negb z then mret_ x else
  let* e := read get in
  frame_free (page_base e) ;;*
  write clear ;;*
  next.

Definition vmm_unmap_page (x : mm) (virt : Z) : M St mm :=
  let p4_i := P4_NDX virt in
  let p3_i := P3_NDX virt in
  let p2_i := P2_NDX virt in
  let p1_i := P1_NDX virt in
  write (λ m, p1_set_entry m x p4_i p3_i p2_i p1_i 0) ;;*
  drop_table (λ m, all_zero (p1_get_entry m x p4_i p3_i p2_i))
    (λ m, p2_get_entry m x p4_i p3_i p2_i) (λ m, p2_set_entry m x p4_i p3_i p2_i 0) x
  (drop_table (λ m, all_zero (p2_get_entry m x p4_i p3_i))
    (λ m, p3_get_entry m x p4_i p3_i) (λ m, p3_set_entry m x p4_i p3_i 0) x
  (drop_table (λ m, all_zero (p3_get_entry m x p4_i))
    (λ m, p4_get_entry m x p4_i) (λ m, p4_set_entry m x p4_i 0) x
  (let* z4 := read (λ m, all_zero (p4_get_entry m x)) in
   if negb z4 then mret_ x else
   frame_free (p4 x) ;;*
   mret_ (set_p4 x 0)))).
End code.

(** ** What the processor sees

    The entry the four-level walk finds for a virtual address; 0 when a table
    on the way is missing. *)
Definition walk (m : mem) (x : mm) (v : Z) : Z :=
  if p4 x =? 0 then 0
  else if p4_get_entry m x (P4_NDX v) =? 0 then 0
  else if p3_get_entry m x (P4_NDX v) (P3_NDX v) =? 0 then 0
  else if p2_get_entry m x (P4_NDX v) (P3_NDX v) (P2_NDX v) =? 0 then 0
  else p1_get_entry m x (P4_NDX v) (P3_NDX v) (P2_NDX v) (P1_NDX v).

(** The virtual page number: bits 12 to 47. *)
Definition vpn (v : Z) : Z := (v / 4096) mod 2 ^ 36.

Lemma ndx_range x k : 0 ≤ Z.land (Z.shiftr x k) 0x1FF < 512.
Proof. change 0x1FF with (Z.ones 9). rewrite Z.land_ones by lia. apply Z.mod_pos_bound. lia. Qed.

Lemma ndx_eq x k : 0 ≤ k → Z.land (Z.shiftr x k) 0x1FF = (x / 2 ^ k) mod 512.
Proof.
  intros. change 0x1FF with (Z.ones 9). rewrite Z.land_ones, Z.shiftr_div_pow2 by lia. done.
Qed.

(** The four indices are the digits of the page number in base 512. *)
Lemma vpn_digits v : vpn v = P1_NDX v + 512 * (P2_NDX v + 512 * (P3_NDX v + 512 * P4_NDX v)).
Proof.
  unfold P1_NDX, P2_NDX, P3_NDX, P4_NDX, vpn. rewrite !ndx_eq by lia.
  change (2 ^ 36) with (512 * (512 * (512 * 512))). rewrite !Z.rem_mul_r by lia.
  rewrite !Z.div_div by lia.
  change (4096 * 512) with (2 ^ 21). change (2 ^ 21 * 512) with (2 ^ 30).
  change (2 ^ 30 * 512) with (2 ^ 39). change 4096 with (2 ^ 12). lia.
Qed.

Lemma vpn_eq v w :
  vpn v = vpn w ↔
  P4_NDX v = P4_NDX w ∧ P3_NDX v = P3_NDX w ∧ P2_NDX v = P2_NDX w ∧ P1_NDX v = P1_NDX w.
Proof.
  rewrite !vpn_digits.
  pose proof (ndx_range v 39); pose proof (ndx_range w 39).
  pose proof (ndx_range v 30); pose proof (ndx_range w 30).
  pose proof (ndx_range v 21); pose proof (ndx_range w 21).
  pose proof (ndx_range v 12); pose proof (ndx_range w 12).
  unfold P1_NDX, P2_NDX, P3_NDX, P4_NDX in *. lia.
Qed.

(** ** The tree of tables

    [T] names the frame of each table by the path of indices that leads to it,
    deepest index first; [pt_ok s x T] says that the entries in memory and the
    tree agree, that the frames are in use, and that no two tables share one. *)
Notation tables := (gmap (list Z) Z).

Definition entry_at (m : mem) (f i : Z) : Z := ld64 m (entry_addr f i).

Definition tpath (v : Z) : list Z := [P2_NDX v; P3_NDX v; P4_NDX v].

Definition leaf (m : mem) (T : tables) (v : Z) : Z :=
  match T !! tpath v with Some f => entry_at m f (P1_NDX v) | None => 0 end.

Lemma entry_at_same m m' f i : same_page m m' f → 0 ≤ i < 512 → entry_at m' f i = entry_at m f i.
Proof.
  intros Hs Hi. unfold entry_at, ld64. apply ld_ext. intros b Hb. unfold entry_addr in Hb.
  replace b with (P_TO_V f + (b - P_TO_V f)) by lia. apply Hs. unfold PAGE_SIZE. lia.
Qed.

Lemma entry_at_zero m f i : zero_page m f → 0 ≤ i < 512 → entry_at m f i = 0.
Proof.
  intros Hz Hi. unfold entry_at, ld64. apply ld_zero. intros b Hb. unfold entry_addr in Hb.
  replace b with (P_TO_V f + (b - P_TO_V f)) by lia. apply Hz. unfold PAGE_SIZE. lia.
Qed.

Lemma same_page_trans m1 m2 m3 q : same_page m1 m2 q → same_page m2 m3 q → same_page m1 m3 q.
Proof. intros H1 H2 k Hk. by rewrite H2, H1. Qed.

Lemma P4_range v : 0 ≤ P4_NDX v < 512. Proof. apply ndx_range. Qed.
Lemma P3_range v : 0 ≤ P3_NDX v < 512. Proof. apply ndx_range. Qed.
Lemma P2_range v : 0 ≤ P2_NDX v < 512. Proof. apply ndx_range. Qed.
Lemma P1_range v : 0 ≤ P1_NDX v < 512. Proof. apply ndx_range. Qed.
#[export] Hint Resolve P4_range P3_range P2_range P1_range : pagetable.

Section tree.
Context {St : Type} {FO : FrameOps St} {FL : FrameLaws St}.
Implicit Types (s : St) (x : mm) (T : tables).

Record pt_ok s x T : Prop := {
  pt_root : p4 x = default 0 (T !! []);
  pt_used p f : T !! p = Some f → frame_used s f;
  pt_inj p q f : T !! p = Some f → T !! q = Some f → p = q;
  pt_child p f i : T !! p = Some f → (length p < 3)%nat → 0 ≤ i < 512 →
    T !! (i :: p) = (if entry_at (frame_mem s) f i =? 0 then None
                     else Some (page_base (entry_at (frame_mem s) f i)));
  pt_parent i p f : T !! (i :: p) = Some f →
    0 ≤ i < 512 ∧ (length p < 3)%nat ∧ is_Some (T !! p);
}.

(** No table is empty. *)
Definition pt_full (m : mem) T : Prop :=
  ∀ p q, T !! p = Some q → ∃ i, 0 ≤ i < 512 ∧ entry_at m q i ≠ 0.

(** The tables that the walk of [v] goes through. *)
Definition on_path (v : Z) (p : list Z) : Prop :=
  p = tpath v ∨ p = [P3_NDX v; P4_NDX v] ∨ p = [P4_NDX v] ∨ p = [].

(** An operation that adds tables: the invariant holds, new tables are fresh
    frames, the other frames in use keep their contents, and so do the entries
    that lead from table to table. *)
Record pt_grow s T s' T' : Prop := {
  ext_inv : frame_inv s';
  ext_sub : T ⊆ T';
  ext_fresh p f : T' !! p = Some f → T !! p = Some f ∨ ¬ frame_used s f;
  ext_used q : frame_used s' q ↔ frame_used s q ∨ ∃ p, T' !! p = Some q;
  ext_other q : frame_used s q → (∀ p, T !! p ≠ Some q) →
    same_page (frame_mem s) (frame_mem s') q;
  ext_upper p f i : T !! p = Some f → (length p < 3)%nat → 0 ≤ i < 512 →
    entry_at (frame_mem s) f i ≠ 0 → entry_at (frame_mem s') f i = entry_at (frame_mem s) f i;
  ext_count : (frame_avail s' + size T' = frame_avail s + size T)%nat;
}.

Lemma pt_grow_trans s1 T1 s2 T2 s3 T3 :
  pt_grow s1 T1 s2 T2 → pt_grow s2 T2 s3 T3 → pt_grow s1 T1 s3 T3.
Proof.
  intros [I1 S1 F1 U1 O1 E1 C1] [I2 S2 F2 U2 O2 E2 C2]. split; [done|by etrans|..|lia].
  - intros p f Hf. destruct (F2 p f Hf) as [H|H]; [by apply F1|].
    right. intros Hu. apply H, U1. by left.
  - intros q. rewrite U2, U1. split.
    + intros [[?|[p Hp]]|?]; [by left| |by right]. right. exists p. by eapply lookup_weaken.
    + intros [?|?]; [by left; left|by right].
  - intros q Hq Hn. eapply same_page_trans; [by apply O1|]. apply O2; [apply U1; by left|].
    intros p Hp. destruct (F1 p q Hp) as [H|H]; [by apply (Hn p)|done].
  - intros p f i Hp Hl Hi Hn. rewrite (E2 p f i), E1 with (p := p); try done.
    + exact (lookup_weaken _ _ _ _ Hp S1).
    + by rewrite E1 with (p := p).
Qed.

(** ... and every virtual address keeps its entry. *)
Definition pt_ext s T s' T' : Prop :=
  pt_grow s T s' T' ∧ ∀ v, leaf (frame_mem s') T' v = leaf (frame_mem s) T v.

Lemma pt_ext_trans s1 T1 s2 T2 s3 T3 :
  pt_ext s1 T1 s2 T2 → pt_ext s2 T2 s3 T3 → pt_ext s1 T1 s3 T3.
Proof.
  intros [G1 L1] [G2 L2]. split; [by eapply pt_grow_trans|]. intros v. by rewrite L2, L1.
Qed.

Lemma pt_ok_same s s' x T :
  pt_ok s x T → (∀ q, frame_used s q → frame_used s' q) →
  (∀ q, frame_used s q → same_page (frame_mem s) (frame_mem s') q) → pt_ok s' x T.
Proof.
  intros [R U I C P] Hu Hs. split; [done|by eauto|done| |done].
  intros p f i Hp Hl Hi. rewrite (entry_at_same (frame_mem s)) by eauto. by apply C.
Qed.

Lemma leaf_same s s' x T v :
  pt_ok s x T → (∀ q, frame_used s q → same_page (frame_mem s) (frame_mem s') q) →
  leaf (frame_mem s') T v = leaf (frame_mem s) T v.
Proof.
  intros Ht Hs. unfold leaf. destruct (T !! tpath v) as [f|] eqn:E; [|done].
  apply entry_at_same; [|auto with pagetable]. by eapply Hs, pt_used.
Qed.

(** Every table hangs below the root. *)
Lemma pt_suffix s x T p q f : pt_ok s x T → T !! (p ++ q) = Some f → is_Some (T !! q).
Proof.
  intros Ht. revert f. induction p as [|i p IH]; intros f Hf; [by exists f|].
  destruct (pt_parent _ _ _ Ht i (p ++ q) f Hf) as (_ & _ & [f' Hf']). by eapply IH.
Qed.

Lemma pt_none_below s x T p q : pt_ok s x T → T !! q = None → T !! (p ++ q) = None.
Proof.
  intros Ht Hq. destruct (T !! (p ++ q)) eqn:E; [|done].
  destruct (pt_suffix s x T p q _ Ht E) as [? ?]. congruence.
Qed.

(** ** The accessors read the tree *)
Lemma acc4 s x T f : pt_ok s x T → T !! [] = Some f → p4 x = f.
Proof. intros Ht Hf. rewrite (pt_root _ _ _ Ht), Hf. done. Qed.

Lemma acc_child s x T p f i c :
  pt_ok s x T → T !! p = Some f → T !! (i :: p) = Some c →
  page_base (entry_at (frame_mem s) f i) = c ∧ entry_at (frame_mem s) f i ≠ 0.
Proof.
  intros Ht Hf Hc. destruct (pt_parent _ _ _ Ht i p c Hc) as (Hi & Hl & _).
  rewrite (pt_child _ _ _ Ht p f i Hf Hl Hi) in Hc.
  destruct (Z.eqb_spec (entry_at (frame_mem s) f i) 0); [done|]. naive_solver.
Qed.

Lemma acc3 s x T i4 c : pt_ok s x T → T !! [i4] = Some c →
  page_base (p4_get_entry (frame_mem s) x i4) = c ∧ p4_get_entry (frame_mem s) x i4 ≠ 0.
Proof.
  intros Ht Hc. destruct (pt_parent _ _ _ Ht _ _ _ Hc) as (_ & _ & [f Hf]).
  unfold p4_get_entry. rewrite (acc4 s x T f Ht Hf). by apply (acc_child s x T [] f i4 c).
Qed.

Lemma acc2 s x T i4 i3 c : pt_ok s x T → T !! [i3; i4] = Some c →
  page_base (p3_get_entry (frame_mem s) x i4 i3) = c ∧ p3_get_entry (frame_mem s) x i4 i3 ≠ 0.
Proof.
  intros Ht Hc. destruct (pt_parent _ _ _ Ht _ _ _ Hc) as (_ & _ & [f Hf]).
  unfold p3_get_entry. rewrite (proj1 (acc3 s x T i4 f Ht Hf)). by apply (acc_child s x T [i4] f i3 c).
Qed.

Lemma acc1 s x T i4 i3 i2 c : pt_ok s x T → T !! [i2; i3; i4] = Some c →
  page_base (p2_get_entry (frame_mem s) x i4 i3 i2) = c ∧
  p2_get_entry (frame_mem s) x i4 i3 i2 ≠ 0.
Proof.
  intros Ht Hc. destruct (pt_parent _ _ _ Ht _ _ _ Hc) as (_ & _ & [f Hf]).
  unfold p2_get_entry. rewrite (proj1 (acc2 s x T i4 i3 f Ht Hf)).
  by apply (acc_child s x T [i3; i4] f i2 c).
Qed.

Lemma frame_nonzero s f : frame_inv s → frame_used s f → f ≠ 0.
Proof. intros Hi Hu. destruct (frame_used_good s f Hi Hu). lia. Qed.

(** A child that is missing in the tree is a zero entry in memory. *)
Lemma acc_none s x T p f i :
  pt_ok s x T → T !! p = Some f → (length p < 3)%nat → 0 ≤ i < 512 → T !! (i :: p) = None →
  entry_at (frame_mem s) f i = 0.
Proof.
  intros Ht Hf Hl Hi Hn. rewrite (pt_child _ _ _ Ht p f i Hf Hl Hi) in Hn.
  by destruct (Z.eqb_spec (entry_at (frame_mem s) f i) 0).
Qed.

(** The processor's walk finds the leaf entry of the tree. *)
Lemma walk_leaf s x T v :
  pt_ok s x T → frame_inv s → walk (frame_mem s) x v = leaf (frame_mem s) T v.
Proof.
  intros Ht Hinv. unfold walk, leaf, tpath.
  destruct (T !! []) as [f4|] eqn:E4.
  2:{ rewrite (pt_root _ _ _ Ht), E4. simpl.
      pose proof (pt_none_below s x T [P2_NDX v; P3_NDX v; P4_NDX v] []) as Hz. simpl in Hz. by rewrite Hz. }
  rewrite (acc4 s x T f4 Ht E4).
  destruct (Z.eqb_spec f4 0); [exfalso; eapply (frame_nonzero s f4); eauto using pt_used|].
  destruct (T !! [P4_NDX v]) as [f3|] eqn:E3.
  2:{ unfold p4_get_entry. rewrite (acc4 s x T f4 Ht E4). fold (entry_at (frame_mem s) f4 (P4_NDX v)).
      rewrite (acc_none s x T [] f4); auto with pagetable; try (simpl; lia).
      pose proof (pt_none_below s x T [P2_NDX v; P3_NDX v] [P4_NDX v]) as Hz. simpl in Hz. by rewrite Hz. }
  destruct (acc3 s x T _ f3 Ht E3) as [Hb3 Hn3].
  destruct (Z.eqb_spec (p4_get_entry (frame_mem s) x (P4_NDX v)) 0); [done|].
  destruct (T !! [P3_NDX v; P4_NDX v]) as [f2|] eqn:E2.
  2:{ unfold p3_get_entry. rewrite Hb3. fold (entry_at (frame_mem s) f3 (P3_NDX v)).
      rewrite (acc_none s x T [P4_NDX v] f3); auto with pagetable; try (simpl; lia).
      pose proof (pt_none_below s x T [P2_NDX v] [P3_NDX v; P4_NDX v]) as Hz. simpl in Hz. by rewrite Hz. }
  destruct (acc2 s x T _ _ f2 Ht E2) as [Hb2 Hn2].
  destruct (Z.eqb_spec (p3_get_entry (frame_mem s) x (P4_NDX v) (P3_NDX v)) 0); [done|].
  destruct (T !! [P2_NDX v; P3_NDX v; P4_NDX v]) as [f1|] eqn:E1.
  2:{ unfold p2_get_entry. rewrite Hb2. fold (entry_at (frame_mem s) f2 (P2_NDX v)).
      by rewrite (acc_none s x T [P3_NDX v; P4_NDX v] f2); auto with pagetable; try (simpl; lia). }
  destruct (acc1 s x T _ _ _ f1 Ht E1) as [Hb1 Hn1].
  destruct (Z.eqb_spec (p2_get_entry (frame_mem s) x (P4_NDX v) (P3_NDX v) (P2_NDX v)) 0); [done|].
  unfold p1_get_entry. by rewrite Hb1.
Qed.

(** ** Writing one entry *)
Lemma write_entry_ok s f i v :
  frame_inv s → frame_used s f → 0 ≤ i < 512 → 0 ≤ v < 2 ^ 64 →
  let s' := frame_set_mem s (st64 (frame_mem s) (entry_addr f i) v) in
  frame_inv s' ∧ frame_avail s' = frame_avail s ∧ (∀ q, frame_used s' q ↔ frame_used s q) ∧
  (∀ q, good_frame q → q ≠ f → same_page (frame_mem s) (frame_mem s') q) ∧
  (∀ j, 0 ≤ j < 512 →
     entry_at (frame_mem s') f j = if decide (i = j) then v else entry_at (frame_mem s) f j).
Proof.
  intros Hinv Hf Hi Hv s'. pose proof (frame_used_good s f Hinv Hf) as Hg.
  assert (only_pages (frame_used s) (frame_mem s) (st64 (frame_mem s) (entry_addr f i) v)) as Ho.
  { intros a Ha. unfold st64. apply ld8_st_ne. unfold entry_addr.
    specialize (Ha f Hf). unfold PAGE_SIZE in Ha. lia. }
  destruct (frame_set_mem_ok s _ Hinv Ho) as (Hinv' & Hav & Hu).
  split; [done|]. split; [done|]. split; [done|]. subst s'. rewrite frame_mem_set. split.
  - intros q Hq Hne k Hk. apply ld8_st_ne. unfold entry_addr.
    destruct (decide (P_TO_V f + 8 * i ≤ P_TO_V q + k < P_TO_V f + 8 * i + 8)); [|lia].
    exfalso. apply (good_frames_disjoint q f k (P_TO_V q + k - P_TO_V f)); try done; unfold PAGE_SIZE; lia.
  - intros j Hj. unfold entry_at, entry_addr. case_decide as Hij.
    + subst j. by apply ld64_st64_eq.
    + apply ld64_st64_ne. lia.
Qed.

(** ** Adding a missing table *)
Lemma lor_entry new flags :
  good_frame new → 0 < flags < PAGE_SIZE →
  0 < Z.lor new flags < 2 ^ 64 ∧ page_base (Z.lor new flags) = new.
Proof.
  intros (Hp & Hal & Hl) Hf. unfold PHYS_LIMIT, PAGE_SIZE in *. split.
  - rewrite (lor_aligned_low new flags 12) by (done || lia). lia.
  - apply page_base_lor; unfold PAGE_SIZE; [done|lia].
Qed.

(** The tree with the table [new] hung at entry [i] of the table [f] at [p]. *)
Lemma pt_add_table s s' x T p f i new v :
  pt_ok s x T → frame_inv s → T !! p = Some f → (length p < 3)%nat → 0 ≤ i < 512 →
  T !! (i :: p) = None → frame_used s new → (∀ q, T !! q ≠ Some new) →
  zero_page (frame_mem s) new → v ≠ 0 → page_base v = new → 0 ≤ v < 2 ^ 64 →
  s' = frame_set_mem s (st64 (frame_mem s) (entry_addr f i) v) →
  pt_ok s' x (<[i :: p := new]> T).
Proof.
  intros Ht Hinv Hf Hl Hi Hnone Hu Hnew Hz Hv0 Hbase Hv ->.
  assert (frame_used s f) as Huf by by eapply pt_used.
  destruct (write_entry_ok s f i v Hinv Huf Hi Hv) as (Hinv' & _ & Hused & Hsame & Hent).
  pose proof Ht as [R U I C P]. split.
  - rewrite lookup_insert_ne by done. done.
  - intros q g. rewrite lookup_insert. case_decide; [intros [= <-]|intros Hg]; apply Hused; eauto.
  - intros q1 q2 g. rewrite !lookup_insert. repeat case_decide; naive_solver.
  - intros q g j Hg Hlq Hj. rewrite lookup_insert in Hg. case_decide as Hq.
    + injection Hg as <-. subst q. rewrite lookup_insert_ne by (intros H; by apply (f_equal length) in H; simpl in H; lia).
      rewrite (entry_at_same (frame_mem s));
        [|apply Hsame; [by apply (frame_used_good s)|by intros ->; apply (Hnew p)]|done].
      rewrite entry_at_zero by done. by apply (pt_none_below s x T [j] (i :: p)).
    + destruct (decide (q = p)) as [->|Hqp].
      * rewrite Hf in Hg. injection Hg as <-. rewrite Hent by done. rewrite lookup_insert.
        destruct (decide (i = j)) as [->|Hij].
        -- rewrite decide_True by done. destruct (Z.eqb_spec v 0); [done|]. by rewrite Hbase.
        -- rewrite decide_False by congruence. by apply C.
      * rewrite lookup_insert_ne by congruence.
        rewrite (entry_at_same (frame_mem s)).
        -- by apply C.
        -- apply Hsame; [apply (frame_used_good s); eauto|]. intros ->. apply Hqp. eauto.
        -- done.
  - intros j q g Hg. rewrite lookup_insert in Hg. case_decide as Hq.
    + injection Hq as <- <-. split_and!; try done; try lia.
      rewrite lookup_insert_ne by (intros H; apply (f_equal length) in H; simpl in H; lia). by exists f.
    + destruct (P j q g Hg) as (? & ? & [h Hh]). split_and!; try done; try lia.
      rewrite lookup_insert. case_decide; eauto.
Qed.

Lemma pt_ext_refl s T :
  frame_inv s → (∀ p f, T !! p = Some f → frame_used s f) → pt_ext s T s T.
Proof.
  intros Hi Hu. split; [|done]. split; try done; [by left|].
  intros q. split; [by left|]. intros [?|[p Hp]]; eauto.
Qed.

(** Hanging a fresh zeroed table keeps every leaf. *)
Lemma leaf_add_table s s' x T p i new v w :
  pt_ok s x T → pt_ok s' x (<[i :: p := new]> T) → T !! (i :: p) = None → (length p < 3)%nat →
  (∀ q, frame_used s q → (∀ g, T !! p = Some g → q ≠ g) → same_page (frame_mem s) (frame_mem s') q) →
  zero_page (frame_mem s') new → 0 ≤ v → T !! p ≠ None →
  leaf (frame_mem s') (<[i :: p := new]> T) w = leaf (frame_mem s) T w.
Proof.
  intros Ht Ht' Hnone Hl Hs Hz Hv Hp. unfold leaf. rewrite lookup_insert. case_decide as Hq.
  - rewrite <- Hq, Hnone. apply entry_at_zero; auto with pagetable.
  - destruct (T !! tpath w) as [f|] eqn:E; [|done].
    apply entry_at_same; [|auto with pagetable]. apply Hs; [by eapply pt_used|].
    intros g Hg ->. assert (tpath w = p) as <- by by apply (pt_inj _ _ _ Ht _ _ g). simpl in Hl. lia.
Qed.

(** [ensure_entry]: afterwards the table at entry [i] of the table at [p]
    exists; it takes at most one frame. *)
Lemma ensure_ok s x T p f i get set flags :
  pt_ok s x T → frame_inv s → T !! p = Some f → (length p < 3)%nat → 0 ≤ i < 512 →
  0 < flags < PAGE_SIZE → (0 < frame_avail s)%nat →
  (∀ s', pt_ok s' x T → get (frame_mem s') = entry_at (frame_mem s') f i) →
  (∀ s' v, pt_ok s' x T → set (frame_mem s') v = st64 (frame_mem s') (entry_addr f i) v) →
  wp (ensure_entry get set flags) s (λ _ s', ∃ T',
    pt_ok s' x T' ∧ pt_ext s T s' T' ∧ (frame_avail s ≤ S (frame_avail s'))%nat ∧
    is_Some (T' !! (i :: p)) ∧ ∀ r g, T' !! r = Some g → T !! r = Some g ∨ r = i :: p).
Proof.
  intros Ht Hinv Hf Hl Hi Hflags Hav Hget Hset. unfold ensure_entry, read, write. wp_steps.
  rewrite (Hget s Ht). pose proof (pt_child _ _ _ Ht p f i Hf Hl Hi) as Hc.
  destruct (Z.eqb_spec (entry_at (frame_mem s) f i) 0) as [H0|H0].
  2:{ wp_steps. exists T. split; [done|]. split; [apply pt_ext_refl; [done|apply Ht]|]. split; [lia|]. split; [eauto|by left]. }
  apply wp_bind. eapply wp_mono; [by apply frame_alloc_ok|].
  intros new s1 (Hinv1 & Hnew & Hav1 & Hu1 & Hz1 & Hs1). wp_steps.
  assert (pt_ok s1 x T) as Ht1.
  { apply (pt_ok_same s); [done| |done]. intros q Hq. apply Hu1. by left. }
  assert (frame_used s1 new) as Hun by (apply Hu1; by right).
  destruct (lor_entry new flags (frame_used_good s1 new Hinv1 Hun) Hflags) as [Hlor Hbase].
  assert (∀ q, T !! q ≠ Some new) as Hnt.
  { intros q Hq. by apply Hnew, (pt_used _ _ _ Ht q). }
  rewrite (Hset s1 _ Ht1). set (v := Z.lor new flags) in *.
  set (s2 := frame_set_mem s1 (st64 (frame_mem s1) (entry_addr f i) v)).
  assert (frame_used s1 f) as Huf by by eapply pt_used.
  destruct (write_entry_ok s1 f i v Hinv1 Huf Hi ltac:(lia)) as (Hinv2 & Hav2 & Hu2 & Hs2 & Hent2).
  assert (new ≠ f) as Hnf by (intros ->; by apply (Hnt p)).
  assert (pt_ok s2 x (<[i :: p := new]> T)) as Ht2.
  { apply (pt_add_table s1 s2 x T p f i new v); try done; lia. }
  exists (<[i :: p := new]> T). split; [done|]. split; [|split; [fold s2 in Hav2; lia|split; [by rewrite lookup_insert_eq|]]].
  2:{ intros r g. rewrite lookup_insert. case_decide; [by right|by left]. }
  fold s2 in Hinv2, Hu2, Hs2, Hent2. split; [split|].
  - done.
  - by apply insert_subseteq.
  - intros q g. rewrite lookup_insert. case_decide; [intros [= <-]; by right|by left].
  - intros q. rewrite Hu2, Hu1. split.
    + intros [?| ->]; [by left|]. right. exists (i :: p). by rewrite lookup_insert_eq.
    + intros [?|[q' Hq]]; [by left|]. rewrite lookup_insert in Hq.
      case_decide; [injection Hq as ->; by right|left; by eapply pt_used].
  - intros q Hq Hno. eapply same_page_trans; [by apply Hs1|]. apply Hs2; [by apply (frame_used_good s)|].
    intros ->. by apply (Hno p).
  - intros q g j Hq _ Hj Hn. destruct (decide (g = f)) as [->|Hgf].
    + rewrite Hent2 by done. assert (entry_at (frame_mem s1) f j = entry_at (frame_mem s) f j) as Hj1
        by (apply entry_at_same; [apply Hs1; by eapply pt_used|done]).
      rewrite Hj1. case_decide; [congruence|done].
    + apply entry_at_same; [|done]. eapply same_page_trans; [apply Hs1; by eapply pt_used|].
      apply Hs2; [|done]. apply (frame_used_good s); [done|by eapply pt_used].
  - rewrite map_size_insert_None by (rewrite (pt_child _ _ _ Ht p f i), H0; done). fold s2 in Hav2. lia.
  - intros w. rewrite (leaf_add_table s s2 x T p i new v w); try done; try lia; try congruence.
    + intros q Hq Hne. eapply same_page_trans; [by apply Hs1|].
      apply Hs2; [by apply (frame_used_good s)|]. by apply Hne.
    + intros k Hk. rewrite (Hs2 new); [by apply Hz1|by apply (frame_used_good s1)|done|done].
Qed.

(** The first step of [vmm_map_page]: a top-level table. *)
Lemma ensure_root_ok s x T :
  pt_ok s x T → frame_inv s → (0 < frame_avail s)%nat →
  wp (if p4 x =? 0 then let* f := frame_alloc in mret_ (set_p4 x f) else mret_ x) s
    (λ x' s', ∃ T', pt_ok s' x' T' ∧ pt_ext s T s' T' ∧ vm_areas x' = vm_areas x ∧
       (frame_avail s ≤ S (frame_avail s'))%nat ∧ is_Some (T' !! []) ∧
       ∀ r g, T' !! r = Some g → T !! r = Some g ∨ r = []).
Proof.
  intros Ht Hinv Hav. destruct (Z.eqb_spec (p4 x) 0) as [H0|H0].
  2:{ wp_steps. exists T. split; [done|]. split; [apply pt_ext_refl; [done|apply Ht]|].
      split; [done|]. split; [lia|]. rewrite (pt_root _ _ _ Ht) in H0.
      split; [|by left]. destruct (T !! []) as [f|]; [by exists f|done]. }
  assert (T !! [] = None) as Hr.
  { destruct (T !! []) as [f|] eqn:E; [|done]. exfalso. rewrite (acc4 s x T f Ht E) in H0.
    by eapply (frame_nonzero s f); [|eapply pt_used|]. }
  assert (∀ p, T !! p = None) as Hnone.
  { intros p. rewrite <- (app_nil_r p). by apply (pt_none_below s x). }
  apply wp_bind. eapply wp_mono; [by apply frame_alloc_ok|].
  intros f s1 (Hinv1 & Hnew & Hav1 & Hu1 & Hz1 & Hs1). wp_steps.
  exists {[ [] := f ]}. split; [split|].
  - simpl. by rewrite lookup_singleton_eq.
  - intros p g [<- <-]%lookup_singleton_Some. apply Hu1. by right.
  - by intros p q g [<- <-]%lookup_singleton_Some [<- _]%lookup_singleton_Some.
  - intros p g i [<- <-]%lookup_singleton_Some _ Hi. rewrite entry_at_zero by done. simpl.
    by rewrite lookup_singleton_ne.
  - by intros i p g [? _]%lookup_singleton_Some.
  - split; [|split; [done|split; [lia|split; [by rewrite lookup_singleton_eq|]]]].
    2:{ intros r g [<- _]%lookup_singleton_Some. by right. }
    split; [split|].
    + done.
    + apply map_subseteq_spec. intros p g Hg. by rewrite Hnone in Hg.
    + intros p g [<- <-]%lookup_singleton_Some. by right.
    + intros q. rewrite Hu1. split.
      * intros [?| ->]; [by left|]. right. exists []. by rewrite lookup_singleton_eq.
      * intros [?|[p [_ ->]%lookup_singleton_Some]]; [by left|by right].
    + intros q Hq _. by apply Hs1.
    + intros p g i Hg. by rewrite Hnone in Hg.
    + assert (T = ∅) as -> by (apply map_eq; intros p; by rewrite Hnone).
      rewrite map_size_singleton, map_size_empty. lia.
    + intros v. unfold leaf. by rewrite Hnone, lookup_singleton_ne.
Qed.

(** Writing a leaf entry. *)
Lemma write_leaf_ok s x T v f e :
  pt_ok s x T → frame_inv s → T !! tpath v = Some f → 0 ≤ e < 2 ^ 64 →
  let s' := frame_set_mem s (st64 (frame_mem s) (entry_addr f (P1_NDX v)) e) in
  pt_ok s' x T ∧ pt_grow s T s' T ∧ frame_avail s' = frame_avail s ∧
  ∀ w, leaf (frame_mem s') T w = if decide (vpn w = vpn v) then e else leaf (frame_mem s) T w.
Proof.
  intros Ht Hinv Hf He s'. assert (frame_used s f) as Huf by by eapply pt_used.
  destruct (write_entry_ok s f (P1_NDX v) e Hinv Huf (P1_range v) He) as (Hinv' & Hav & Hu & Hs & Hent).
  fold s' in Hinv', Hav, Hu, Hs, Hent.
  assert (∀ p g, T !! p = Some g → p ≠ tpath v → same_page (frame_mem s) (frame_mem s') g) as Hother.
  { intros p g Hg Hne. apply Hs; [apply (frame_used_good s); [done|by eapply pt_used]|].
    intros ->. by apply Hne, (pt_inj _ _ _ Ht _ _ f). }
  split; [|split; [|split; [done|]]].
  - pose proof Ht as [R U I C P]. split; [done|by intros; apply Hu; eauto|done| |done].
    intros p g i Hg Hl Hi. rewrite (entry_at_same (frame_mem s)); [by apply C| |done].
    apply (Hother p); [done|]. intros ->. simpl in Hl. lia.
  - split; [done|done|by left| | | |lia].
    + intros q. rewrite Hu. split; [by left|]. intros [?|[p Hp]]; [done|by eapply pt_used].
    + intros q Hq Hno. apply Hs; [by apply (frame_used_good s)|]. intros ->. by apply (Hno (tpath v)).
    + intros p g i Hg Hl Hi _. apply entry_at_same; [|done]. apply (Hother p); [done|].
      intros ->. simpl in Hl. lia.
  - intros w. unfold leaf. destruct (decide (tpath w = tpath v)) as [Hp|Hp].
    + rewrite Hp, Hf, Hent by apply P1_range. unfold tpath in Hp. injection Hp as H2 H3 H4.
      destruct (decide (P1_NDX v = P1_NDX w)) as [H1|H1], (decide (vpn w = vpn v)) as [Hv|Hv]; try done.
      * exfalso. apply Hv, vpn_eq. done.
      * exfalso. apply vpn_eq in Hv. intuition congruence.
    + rewrite decide_False.
      * destruct (T !! tpath w) as [g|] eqn:E; [|done]. apply entry_at_same; [|apply P1_range].
        by apply (Hother (tpath w)).
      * intros (H4 & H3 & H2 & H1)%vpn_eq. apply Hp. unfold tpath. by rewrite H2, H3, H4.
Qed.

(** [vmm_map_page] with four frames left. *)
Lemma map_page_ok s x T virt phys flags :
  pt_ok s x T → frame_inv s → (4 ≤ frame_avail s)%nat →
  0 < flags < PAGE_SIZE → 0 ≤ Z.lor phys flags < 2 ^ 64 →
  wp (vmm_map_page x virt phys flags) s (λ x' s', ∃ T',
    pt_ok s' x' T' ∧ pt_grow s T s' T' ∧ vm_areas x' = vm_areas x ∧
    (frame_avail s ≤ 4 + frame_avail s')%nat ∧
    (∀ w, leaf (frame_mem s') T' w =
          if decide (vpn w = vpn virt) then Z.lor phys flags else leaf (frame_mem s) T w) ∧
    ∀ p g, T' !! p = Some g → T !! p = Some g ∨ on_path virt p).
Proof.
  intros Ht Hinv Hav Hfl Hlor. unfold vmm_map_page. apply wp_bind.
  eapply wp_mono; [apply ensure_root_ok; [done|done|lia]|].
  intros x' s1 (T1 & Ht1 & He1 & Hvm & Hav1 & [f4 Hf4] & Hn1). apply wp_bind.
  eapply wp_mono; [apply (ensure_ok s1 x' T1 [] f4 (P4_NDX virt)); auto with pagetable;
                   [apply He1|..]; simpl; try lia|].
  { intros s' Ht'. unfold p4_get_entry. by rewrite (acc4 s' x' T1 f4 Ht' Hf4). }
  { intros s' v Ht'. unfold p4_set_entry. by rewrite (acc4 s' x' T1 f4 Ht' Hf4). }
  intros _ s2 (T2 & Ht2 & He2 & Hav2 & [f3 Hf3] & Hn2). apply wp_bind.
  eapply wp_mono; [apply (ensure_ok s2 x' T2 [P4_NDX virt] f3 (P3_NDX virt)); auto with pagetable;
                   [apply He2|..]; simpl; try lia|].
  { intros s' Ht'. unfold p3_get_entry. by rewrite (proj1 (acc3 s' x' T2 _ f3 Ht' Hf3)). }
  { intros s' v Ht'. unfold p3_set_entry. by rewrite (proj1 (acc3 s' x' T2 _ f3 Ht' Hf3)). }
  intros _ s3 (T3 & Ht3 & He3 & Hav3 & [f2 Hf2] & Hn3). apply wp_bind.
  eapply wp_mono; [apply (ensure_ok s3 x' T3 [P3_NDX virt; P4_NDX virt] f2 (P2_NDX virt));
                   auto with pagetable; [apply He3|..]; simpl; try lia|].
  { intros s' Ht'. unfold p2_get_entry. by rewrite (proj1 (acc2 s' x' T3 _ _ f2 Ht' Hf2)). }
  { intros s' v Ht'. unfold p2_set_entry. by rewrite (proj1 (acc2 s' x' T3 _ _ f2 Ht' Hf2)). }
  intros _ s4 (T4 & Ht4 & He4 & Hav4 & [f1 Hf1] & Hn4).
  pose proof (pt_ext_trans _ _ _ _ _ _ (pt_ext_trans _ _ _ _ _ _ (pt_ext_trans _ _ _ _ _ _ He1 He2) He3) He4) as [Hg Hlv].
  unfold write, p1_set_entry. wp_steps. rewrite (proj1 (acc1 s4 x' T4 _ _ _ f1 Ht4 Hf1)).
  destruct (write_leaf_ok s4 x' T4 virt f1 (Z.lor phys flags) Ht4 (ext_inv _ _ _ _ Hg) Hf1 Hlor)
    as (Ht5 & Hg5 & Hav5 & Hl5).
  exists T4. split; [done|]. split; [by eapply pt_grow_trans|]. split; [done|]. split; [lia|].
  split; [intros w; by rewrite Hl5, Hlv|]. unfold on_path, tpath. intros p g Hp.
  destruct (Hn4 _ _ Hp) as [Hp3|]; [|tauto]. destruct (Hn3 _ _ Hp3) as [Hp2|]; [|tauto].
  destruct (Hn2 _ _ Hp2) as [Hp1|]; [|tauto]. destruct (Hn1 _ _ Hp1); tauto.
Qed.

(** The address with given indices. *)
Lemma ndx_surj a b c d : 0 ≤ a < 512 → 0 ≤ b < 512 → 0 ≤ c < 512 → 0 ≤ d < 512 →
  ∃ v, P4_NDX v = a ∧ P3_NDX v = b ∧ P2_NDX v = c ∧ P1_NDX v = d.
Proof.
  assert (∀ u r, 0 ≤ u < 512 → (u + 512 * r) / 512 = r ∧ (u + 512 * r) mod 512 = u) as Hd
    by (intros u r Hu; split; symmetry; [apply (Z.div_unique _ _ _ u)|apply (Z.mod_unique _ _ r)]; lia).
  intros Ha Hb Hc Hdd. exists ((d + 512 * (c + 512 * (b + 512 * a))) * 4096).
  unfold P4_NDX, P3_NDX, P2_NDX, P1_NDX. rewrite !ndx_eq by lia.
  change (2 ^ 39) with (4096 * (512 * (512 * 512))). change (2 ^ 30) with (4096 * (512 * 512)).
  change (2 ^ 21) with (4096 * 512). change (2 ^ 12) with 4096.
  rewrite <- !Z.div_div, !Z.div_mul by lia. rewrite !(proj1 (Hd _ _ Hdd)), !(proj1 (Hd _ _ Hc)), !(proj1 (Hd _ _ Hb)).
  rewrite (proj2 (Hd _ _ Hdd)), (proj2 (Hd _ _ Hc)), (proj2 (Hd _ _ Hb)). split_and!; try done. apply Z.mod_small. lia.
Qed.

Lemma pt_depth s x T p f : pt_ok s x T → T !! p = Some f → (length p ≤ 3)%nat ∧ Forall (λ i, 0 ≤ i < 512) p.
Proof.
  intros Ht. revert f. induction p as [|i p IH]; intros f Hp; [by split; [simpl; lia|constructor]|].
  destruct (pt_parent _ _ _ Ht i p f Hp) as (Hi & Hl & [g Hg]). destruct (IH g Hg). simpl. split; [lia|by constructor].
Qed.

(** A table of the last level has the entries of some pages. *)
Lemma leaf_table s x T p f i : pt_ok s x T → T !! p = Some f → ¬ (length p < 3)%nat → 0 ≤ i < 512 →
  ∃ v, tpath v = p ∧ P1_NDX v = i.
Proof.
  intros Ht Hp Hl Hi. destruct (pt_depth s x T p f Ht Hp) as [Hd Hr].
  destruct p as [|c [|b [|a [|? ?]]]]; simpl in *; try lia.
  apply list.Forall_cons in Hr as [Hc Hr]. apply list.Forall_cons in Hr as [Hb Hr]. apply list.Forall_cons in Hr as [Ha _].
  destruct (ndx_surj a b c i Ha Hb Hc Hi) as (v & H4 & H3 & H2 & H1). exists v. unfold tpath. by rewrite H4, H3, H2.
Qed.

(** The entries of the last level are [leaf]. *)
Lemma leaf_entry_at m T v f : T !! tpath v = Some f → leaf m T v = entry_at m f (P1_NDX v).
Proof. intros Hf. unfold leaf. by rewrite Hf. Qed.

(** After [vmm_map_page] no table is empty either. *)
Lemma grow_full s x T s' x' T' virt e :
  pt_ok s x T → pt_ok s' x' T' → pt_grow s T s' T' → e ≠ 0 →
  (∀ w, leaf (frame_mem s') T' w = if decide (vpn w = vpn virt) then e else leaf (frame_mem s) T w) →
  (∀ p g, T' !! p = Some g → T !! p = Some g ∨ on_path virt p) →
  pt_full (frame_mem s) T → pt_full (frame_mem s') T'.
Proof.
  intros Ht Ht' G Hne Hl Hn Hfull p q Hp.
  assert (∃ f, T' !! tpath virt = Some f) as [f Hf].
  { specialize (Hl virt). rewrite decide_True in Hl by done. unfold leaf in Hl. destruct (T' !! tpath virt); [eauto|congruence]. }
  assert (∀ i c, T' !! (i :: p) = Some c → ∃ i, 0 ≤ i < 512 ∧ entry_at (frame_mem s') q i ≠ 0) as Hchild.
  { intros i c Hc. exists i. split; [apply (pt_parent _ _ _ Ht' _ _ _ Hc)|apply (acc_child s' x' T' p q i c Ht' Hp Hc)]. }
  destruct (Hn p q Hp) as [Hp0|Hpath].
  - destruct (Hfull p q Hp0) as (i & Hi & He). destruct (decide (length p < 3)%nat) as [H3|H3].
    + exists i. split; [done|]. by rewrite (ext_upper _ _ _ _ G p q i).
    + destruct (leaf_table s x T p q i Ht Hp0 H3 Hi) as (v & <- & <-). exists (P1_NDX v). split; [apply P1_range|].
      rewrite <- (leaf_entry_at _ T' v q Hp), Hl. case_decide; [done|]. by rewrite (leaf_entry_at _ T v q).
  - destruct (pt_parent _ _ _ Ht' _ _ _ Hf) as (_ & _ & [f2 Hf2]).
    destruct (pt_parent _ _ _ Ht' _ _ _ Hf2) as (_ & _ & [f3 Hf3]).
    destruct Hpath as [->|[->|[->| ->]]]; [|by eapply Hchild..]. exists (P1_NDX virt). split; [apply P1_range|].
    rewrite <- (leaf_entry_at _ T' virt q Hp), Hl. by rewrite decide_True.
Qed.

(** ** Removing empty tables *)

(** An operation that drops tables: the dropped frames are free again, nothing
    else changes hands, and no frame is lost. *)
Record pt_shrink s T s' T' : Prop := {
  shr_inv : frame_inv s';
  shr_sub : T' ⊆ T;
  shr_used q : frame_used s' q ↔
    frame_used s q ∧ (∀ p, T !! p = Some q → T' !! p = Some q);
  shr_other q : frame_used s q → (∀ p, T !! p ≠ Some q) →
    same_page (frame_mem s) (frame_mem s') q;
  shr_count : (frame_avail s' + size T' = frame_avail s + size T)%nat;
}.

Lemma pt_shrink_trans s1 x T1 s2 T2 s3 T3 :
  pt_ok s1 x T1 → pt_shrink s1 T1 s2 T2 → pt_shrink s2 T2 s3 T3 → pt_shrink s1 T1 s3 T3.
Proof.
  intros Ht [I1 S1 U1 O1 C1] [I2 S2 U2 O2 C2].
  assert (∀ p q, T2 !! p = Some q → T1 !! p = Some q) as Hw
    by (intros p q Hp; exact (lookup_weaken _ _ _ _ Hp S1)).
  split; [done|by etrans| | |lia].
  - intros q. rewrite U2, U1. split.
    + intros [[Hu Hk1] Hk2]. split; [done|]. intros p Hp. by apply Hk2, Hk1.
    + intros [Hu Hk]. split; [split; [done|]|].
      * intros p Hp. specialize (Hk p Hp). exact (lookup_weaken _ _ _ _ Hk S2).
      * intros p Hp. by apply Hk, Hw.
  - intros q Hq Hn. eapply same_page_trans; [by apply O1|]. apply O2.
    + apply U1. split; [done|]. intros p Hp. by destruct (Hn p).
    + intros p Hp. by apply (Hn p), Hw.
Qed.

Definition agree_on (T : tables) (m m' : mem) : Prop :=
  ∀ p g, T !! p = Some g → same_page m m' g.

Lemma get4_same s x T m' i4 : pt_ok s x T → agree_on T (frame_mem s) m' →
  is_Some (T !! []) → 0 ≤ i4 < 512 → p4_get_entry m' x i4 = p4_get_entry (frame_mem s) x i4.
Proof.
  intros Ht Ha [f Hf] Hi. unfold p4_get_entry. rewrite (acc4 s x T f Ht Hf).
  apply entry_at_same; [by eapply Ha|done].
Qed.
Lemma get3_same s x T m' i4 i3 c : pt_ok s x T → agree_on T (frame_mem s) m' →
  T !! [i3; i4] = Some c → p3_get_entry m' x i4 i3 = p3_get_entry (frame_mem s) x i4 i3.
Proof.
  intros Ht Ha Hc. destruct (pt_parent _ _ _ Ht _ _ _ Hc) as (Hi & _ & [f Hf]).
  destruct (pt_parent _ _ _ Ht _ _ _ Hf) as (Hi4 & _ & Hr).
  unfold p3_get_entry. rewrite (get4_same s x T m') by done. rewrite (proj1 (acc3 s x T i4 f Ht Hf)).
  apply entry_at_same; [by eapply Ha|done].
Qed.

Lemma all_zero_true get : all_zero get = true ↔ ∀ i, 0 ≤ i < 512 → get i = 0.
Proof.
  unfold all_zero. rewrite forallb_forall. split.
  - intros H i Hi. apply Z.eqb_eq, H, list_elem_of_In, elem_of_seqZ. lia.
  - intros H i Hi%list_elem_of_In%elem_of_seqZ. apply Z.eqb_eq, H. lia.
Qed.

Lemma no_children s x T p c :
  pt_ok s x T → T !! p = Some c → (∀ j, 0 ≤ j < 512 → entry_at (frame_mem s) c j = 0) →
  ∀ j, T !! (j :: p) = None.
Proof.
  intros Ht Hc Hz j. destruct (T !! (j :: p)) as [g|] eqn:E; [|done]. exfalso.
  destruct (pt_parent _ _ _ Ht _ _ _ E) as (Hj & Hl & _).
  rewrite (pt_child _ _ _ Ht p c j Hc Hl Hj), Hz in E by done. done.
Qed.

(** The tree without the empty table at [i :: p]. *)
Lemma pt_del_table s s' x T p f i c :
  pt_ok s x T → T !! p = Some f → T !! (i :: p) = Some c →
  (∀ j, T !! (j :: i :: p) = None) →
  (∀ q, frame_used s q → q ≠ c → frame_used s' q) →
  (∀ q, frame_used s q → q ≠ f → same_page (frame_mem s) (frame_mem s') q) →
  (∀ j, 0 ≤ j < 512 → entry_at (frame_mem s') f j =
     if decide (i = j) then 0 else entry_at (frame_mem s) f j) →
  pt_ok s' x (delete (i :: p) T).
Proof.
  intros Ht Hf Hc Hno Hu Hs Hent. pose proof Ht as [R U I C P]. split.
  - by rewrite lookup_delete_ne.
  - intros q g [Hq Hg]%lookup_delete_Some. apply Hu; [by eapply U|].
    intros ->. apply Hq. eauto.
  - intros q1 q2 g [_ H1]%lookup_delete_Some [_ H2]%lookup_delete_Some. eauto.
  - intros q g j [Hq Hg]%lookup_delete_Some Hl Hj. destruct (decide (q = p)) as [->|Hqp].
    + rewrite Hf in Hg. injection Hg as <-. rewrite Hent by done.
      destruct (decide (i = j)) as [->|Hij]; [by rewrite lookup_delete_eq|].
      rewrite lookup_delete_ne by congruence. by apply C.
    + rewrite lookup_delete_ne by congruence. rewrite (entry_at_same (frame_mem s)).
      * by apply C.
      * apply Hs; [by eapply U|]. intros ->. eauto.
      * done.
  - intros j q g [Hq Hg]%lookup_delete_Some. destruct (P j q g Hg) as (? & ? & [h Hh]).
    split_and!; try done; try lia. exists h. apply lookup_delete_Some. split; [|done].
    intros <-. by rewrite Hno in Hg.
Qed.

(** The three blocks of [vmm_unmap_page] that give back an empty table: the
    frame [c] is freed, then its entry is cleared. *)
Lemma prune_ok s x T p f i c (set : mem → mem) :
  pt_ok s x T → frame_inv s → T !! p = Some f → T !! (i :: p) = Some c →
  (∀ j, 0 ≤ j < 512 → entry_at (frame_mem s) c j = 0) →
  (∀ m', agree_on T (frame_mem s) m' → set m' = st64 m' (entry_addr f i) 0) →
  wp (frame_free c) s (λ _ s1, let s' := frame_set_mem s1 (set (frame_mem s1)) in
    pt_ok s' x (delete (i :: p) T) ∧ pt_shrink s T s' (delete (i :: p) T) ∧
    ∀ w, leaf (frame_mem s') (delete (i :: p) T) w = leaf (frame_mem s) T w).
Proof.
  intros Ht Hinv Hf Hc Hz Hset. destruct (pt_parent _ _ _ Ht _ _ _ Hc) as (Hi & Hl & _).
  assert (frame_used s c) as Huc by by eapply pt_used.
  assert (frame_used s f) as Huf by by eapply pt_used.
  assert (f ≠ c) as Hfc.
  { intros ->. pose proof (pt_inj _ _ _ Ht _ _ _ Hf Hc) as Hp.
    apply (f_equal length) in Hp. simpl in Hp. lia. }
  eapply wp_mono; [by apply frame_free_ok|]. intros [] s1 (Hinv1 & Hav1 & Hu1 & Hs1).
  rewrite Hset by (intros q g Hg; apply Hs1; by eapply pt_used). cbv zeta.
  destruct (write_entry_ok s1 f i 0 Hinv1 (proj2 (Hu1 f) (conj Huf Hfc)) Hi ltac:(lia))
    as (Hinv2 & Hav2 & Hu2 & Hs2 & Hent2).
  set (s2 := frame_set_mem s1 (st64 (frame_mem s1) (entry_addr f i) 0)) in *.
  assert (∀ q, frame_used s q → q ≠ f → same_page (frame_mem s) (frame_mem s2) q) as Hsame.
  { intros q Hq Hne. eapply same_page_trans; [by apply Hs1|]. apply Hs2; [|done].
    by apply (frame_used_good s). }
  pose proof (no_children s x T _ c Ht Hc Hz) as Hno.
  assert (pt_ok s2 x (delete (i :: p) T)) as Ht2.
  { apply (pt_del_table s s2 x T p f i c); try done.
    - intros q Hq Hne. by apply Hu2, Hu1.
    - intros j Hj. rewrite Hent2 by done. case_decide; [done|].
      apply entry_at_same; [by apply Hs1|done]. }
  split; [done|]. split; [split|].
  - done.
  - apply delete_subseteq.
  - intros q. rewrite Hu2, Hu1. split; intros [Hq Hk]; (split; [done|]).
    + intros q' Hq'. rewrite lookup_delete_ne; [done|]. intros <-. rewrite Hc in Hq'. naive_solver.
    + intros ->. specialize (Hk _ Hc). by rewrite lookup_delete_eq in Hk.
  - intros q Hq Hn. apply Hsame; [done|]. intros ->. by apply (Hn p).
  - rewrite Hav2, Hav1. rewrite map_size_delete_Some by by exists c.
    enough (size T ≠ 0%nat) by lia. intros He%map_size_empty_inv. by rewrite He, lookup_empty in Hc.
  - intros w. unfold leaf. destruct (decide (i :: p = tpath w)) as [Hq|Hq].
    + rewrite <- Hq, lookup_delete_eq, Hc. symmetry. apply Hz, P1_range.
    + rewrite lookup_delete_ne by done. destruct (T !! tpath w) as [g|] eqn:E; [|done].
      apply entry_at_same; [|apply P1_range]. apply Hsame; [by eapply pt_used|].
      intros ->. pose proof (pt_inj _ _ _ Ht _ _ _ E Hf) as Hp. rewrite <- Hp in Hl. simpl in Hl. lia.
Qed.

(** A computation that only drops tables: the tree shrank and every virtual
    address kept its entry. *)
Definition shrunk s T (x : mm) (v : Z) (x' : mm) s' : Prop := ∃ T',
  pt_ok s' x' T' ∧ pt_shrink s T s' T' ∧ vm_areas x' = vm_areas x ∧
  (∀ w, leaf (frame_mem s') T' w = leaf (frame_mem s) T w) ∧
  (∀ p q, T !! p = Some q → T' !! p = Some q ∨ on_path v p) ∧
  ∀ p q, T' !! p = Some q → on_path v p → ∃ i, 0 ≤ i < 512 ∧ entry_at (frame_mem s') q i ≠ 0.

(** The deepest table on the path of [v] is [c]. *)
Definition deepest T (v : Z) (r : list Z) : Prop :=
  ∀ p q, T !! p = Some q → on_path v p → p = r ∨ ∃ i, is_Some (T !! (i :: p)).

Lemma pt_shrink_refl s T : frame_inv s → pt_shrink s T s T.
Proof. intros. split; try done. intros q. split; [by intros; split|by intros [? _]]. Qed.

Lemma shrunk_refl s T x v r c j : pt_ok s x T → frame_inv s → deepest T v r → T !! r = Some c →
  0 ≤ j < 512 → entry_at (frame_mem s) c j ≠ 0 → shrunk s T x v x s.
Proof.
  intros Ht Hi Hd Hr Hj Hne. exists T. split; [done|]. split; [by apply pt_shrink_refl|]. split; [done|]. split; [done|].
  split; [by left|]. intros p q Hp Hpath. destruct (Hd p q Hp Hpath) as [->|[i [g Hg]]].
  - exists j. split; [done|]. congruence.
  - exists i. split; [apply (pt_parent _ _ _ Ht _ _ _ Hg)|apply (acc_child s x T p q i g Ht Hp Hg)].
Qed.

Lemma all_zero_false get : all_zero get = false → ∃ i, 0 ≤ i < 512 ∧ get i ≠ 0.
Proof.
  intros Hz. destruct (decide (Exists (λ i, get i ≠ 0) (seqZ 0 512))) as [He|He].
  - apply list.Exists_exists in He as (i & Hi%elem_of_seqZ & Hne). exists i. split; [lia|done].
  - rewrite <- not_true_iff_false, all_zero_true in Hz. destruct Hz. intros i Hi.
    destruct (decide (get i = 0)); [done|]. destruct He. apply list.Exists_exists. exists i.
    split; [apply elem_of_seqZ; lia|done].
Qed.

Lemma drop_table_ok s x T v p f i c empty get clear next :
  pt_ok s x T → frame_inv s → T !! p = Some f → T !! (i :: p) = Some c → on_path v (i :: p) → deepest T v (i :: p) →
  empty (frame_mem s) = all_zero (entry_at (frame_mem s) c) →
  page_base (get (frame_mem s)) = c →
  (∀ m', agree_on T (frame_mem s) m' → clear m' = st64 m' (entry_addr f i) 0) →
  (∀ s', pt_ok s' x (delete (i :: p) T) → frame_inv s' →
     wp next s' (shrunk s' (delete (i :: p) T) x v)) →
  wp (drop_table empty get clear x next) s (shrunk s T x v).
Proof.
  intros Ht Hinv Hf Hc Hpath Hdeep Hz Hget Hclear Hnext. unfold drop_table, read. wp_steps.
  rewrite Hz. destruct (all_zero _) eqn:Hall; simpl.
  2:{ wp_steps. destruct (all_zero_false _ Hall) as (j & Hj & Hne). by eapply shrunk_refl. }
  rewrite all_zero_true in Hall. wp_steps. rewrite Hget.
  eapply wp_mono; [apply (prune_ok s x T p f i c clear); auto|].
  intros [] s1. cbv zeta. intros (Ht1 & Hsh1 & Hl1). apply wp_bind. unfold write. wp_steps.
  eapply wp_mono; [apply Hnext; [done|apply Hsh1]|].
  intros x' s' (T' & Ht' & Hsh' & Hvm & Hl' & Hk & Hb). exists T'. split; [done|].
  split; [by eapply pt_shrink_trans|]. split; [done|]. split; [intros w; by rewrite Hl', Hl1|]. split; [|done].
  intros q g Hq. destruct (decide (q = i :: p)) as [->|Hqp]; [by right|]. apply Hk. by rewrite lookup_delete_ne.
Qed.

(** The last block of [vmm_unmap_page]: an empty top-level table. *)
Lemma drop_root_ok s x T v f :
  pt_ok s x T → frame_inv s → T !! [] = Some f →
  (∀ j, 0 ≤ j < 512 → entry_at (frame_mem s) f j = 0) →
  wp (frame_free f ;;* mret_ (set_p4 x 0)) s (shrunk s T x v).
Proof.
  intros Ht Hinv Hf Hz. apply wp_bind.
  eapply wp_mono; [apply frame_free_ok; [done|by eapply pt_used]|].
  intros [] s1 (Hinv1 & Hav1 & Hu1 & Hs1). wp_steps.
  assert (∀ p, p ≠ [] → T !! p = None) as Hno.
  { intros p. induction p as [|j p _] using rev_ind; [done|]. intros _.
    apply (pt_none_below s x T); [done|]. by apply (no_children s x T [] f). }
  exists ∅. split; [|split; [|split; [done|]]].
  - split; try (intros; by rewrite lookup_empty in *); done.
  - split; [done|apply map_empty_subseteq| | |].
    + intros q. rewrite Hu1. split; intros [Hq Hk]; (split; [done|]).
      * intros p Hp. destruct (decide (p = [])) as [->|Hp0]; [congruence|by rewrite Hno in Hp].
      * intros ->. by specialize (Hk _ Hf).
    + intros q Hq _. by apply Hs1.
    + assert (T = {[ [] := f ]}) as ->.
      { apply map_eq. intros p.
        destruct (decide (p = [])) as [->|Hp]; [by rewrite Hf, lookup_singleton_eq|].
        by rewrite Hno, lookup_singleton_ne. }
      rewrite map_size_singleton, map_size_empty, Hav1. lia.
  - split; [|split].
    + intros w. unfold leaf. by rewrite lookup_empty, (Hno (tpath w)).
    + intros p q Hp. right. destruct (decide (p = [])) as [->|Hp0]; [unfold on_path; tauto|by rewrite Hno in Hp].
    + intros p q Hp. by rewrite lookup_empty in Hp.
Qed.

(** [vmm_unmap_page] of a page whose tables exist. *)
Lemma unmap_page_ok s x T v f1 :
  pt_ok s x T → frame_inv s → T !! tpath v = Some f1 →
  wp (vmm_unmap_page x v) s (λ x' s', ∃ T',
    pt_ok s' x' T' ∧ pt_shrink s T s' T' ∧ vm_areas x' = vm_areas x ∧
    (∀ w, leaf (frame_mem s') T' w = if decide (vpn w = vpn v) then 0 else leaf (frame_mem s) T w) ∧
    (∀ p q, T !! p = Some q → T' !! p = Some q ∨ on_path v p) ∧
    ∀ p q, T' !! p = Some q → on_path v p → ∃ i, 0 ≤ i < 512 ∧ entry_at (frame_mem s') q i ≠ 0).
Proof.
  intros Ht0 Hinv0 Hf1. unfold vmm_unmap_page.
  destruct (pt_parent _ _ _ Ht0 _ _ _ Hf1) as (_ & _ & [f2 Hf2]).
  destruct (pt_parent _ _ _ Ht0 _ _ _ Hf2) as (_ & _ & [f3 Hf3]).
  destruct (pt_parent _ _ _ Ht0 _ _ _ Hf3) as (_ & _ & [f4 Hf4]).
  apply wp_bind. unfold write at 1. wp_steps.
  unfold p1_set_entry. rewrite (proj1 (acc1 s x T _ _ _ f1 Ht0 Hf1)).
  destruct (write_leaf_ok s x T v f1 0 Ht0 Hinv0 Hf1 ltac:(lia)) as (Ht & Hg & Hav & Hl).
  set (s1 := frame_set_mem s (st64 (frame_mem s) (entry_addr f1 (P1_NDX v)) 0)) in *.
  pose proof (ext_inv _ _ _ _ Hg) as Hinv.
  apply (wp_mono _ _ (shrunk s1 T x v)).
  - apply (drop_table_ok s1 x T v [P3_NDX v; P4_NDX v] f2 (P2_NDX v) f1); try done.
    { by left. }
    { intros p q Hp [->|[->|[->| ->]]]; [by left|right; eauto..]. }
    { unfold p1_get_entry. by rewrite (proj1 (acc1 s1 x T _ _ _ f1 Ht Hf1)). }
    { apply (acc1 s1 x T _ _ _ f1 Ht Hf1). }
    { intros m' Ha. unfold p2_set_entry. rewrite (get3_same s1 x T m' _ _ f2) by done.
      by rewrite (proj1 (acc2 s1 x T _ _ f2 Ht Hf2)). }
    intros s2 Ht2 Hinv2. rewrite <- (lookup_delete_ne T (P2_NDX v :: [P3_NDX v; P4_NDX v])) in Hf2, Hf3, Hf4 by done.
    set (T2 := delete (P2_NDX v :: [P3_NDX v; P4_NDX v]) T) in *.
    apply (drop_table_ok s2 x T2 v [P4_NDX v] f3 (P3_NDX v) f2); try done.
    { unfold on_path. tauto. }
    { intros p q Hp [->|[->|[->| ->]]]; [|by left|right; eauto..].
      unfold T2, tpath in Hp. by rewrite lookup_delete_eq in Hp. }
    { unfold p2_get_entry. by rewrite (proj1 (acc2 s2 x T2 _ _ f2 Ht2 Hf2)). }
    { apply (acc2 s2 x T2 _ _ f2 Ht2 Hf2). }
    { intros m' Ha. unfold p3_set_entry. rewrite (get4_same s2 x T2 m') by (done || apply P4_range || by exists f4).
      by rewrite (proj1 (acc3 s2 x T2 _ f3 Ht2 Hf3)). }
    intros s3 Ht3 Hinv3. rewrite <- (lookup_delete_ne T2 (P3_NDX v :: [P4_NDX v])) in Hf3, Hf4 by done.
    set (T3 := delete (P3_NDX v :: [P4_NDX v]) T2) in *.
    apply (drop_table_ok s3 x T3 v [] f4 (P4_NDX v) f3); try done.
    { unfold on_path. tauto. }
    { intros p q Hp [->|[->|[->| ->]]]; [| |by left|right; eauto]; unfold T3, T2, tpath in Hp.
      - by rewrite lookup_delete_ne, lookup_delete_eq in Hp by done.
      - by rewrite lookup_delete_eq in Hp. }
    { unfold p3_get_entry. by rewrite (proj1 (acc3 s3 x T3 _ f3 Ht3 Hf3)). }
    { apply (acc3 s3 x T3 _ f3 Ht3 Hf3). }
    { intros m' Ha. unfold p4_set_entry. by rewrite (acc4 s3 x T3 f4 Ht3 Hf4). }
    intros s4 Ht4 Hinv4. rewrite <- (lookup_delete_ne T3 (P4_NDX v :: [])) in Hf4 by done.
    set (T4 := delete (P4_NDX v :: []) T3) in *. unfold read. wp_steps.
    unfold p4_get_entry. rewrite (acc4 s4 x T4 f4 Ht4 Hf4). fold (entry_at (frame_mem s4) f4).
    destruct (all_zero _) eqn:Hz; simpl.
    2:{ wp_steps. destruct (all_zero_false _ Hz) as (j & Hj & Hne). eapply (shrunk_refl _ _ _ _ []); try done.
        intros p q Hp [->|[->|[->| ->]]]; [| | |by left]; unfold T4, T3, T2, tpath in Hp.
        - by rewrite !lookup_delete_ne, lookup_delete_eq in Hp by done.
        - by rewrite lookup_delete_ne, lookup_delete_eq in Hp by done.
        - by rewrite lookup_delete_eq in Hp. }
    apply drop_root_ok; try done. by rewrite all_zero_true in Hz.
  - intros x' s' (T' & Ht' & Hsh' & Hvm & Hl' & Hk & Hb). exists T'. split; [done|]. split; [|split; [done|split; [|done]]].
    + apply (pt_shrink_trans s x T s1 T s' T' Ht0); [|done].
      split; [done|done| |apply Hg|lia]. intros q. rewrite (ext_used _ _ _ _ Hg).
      split; [|by intros [? _]; left]. intros [Hq|[p Hp]]; (split; [|done]); [done|by eapply pt_used].
    + intros w. by rewrite Hl', Hl.
Qed.

(** After [vmm_unmap_page] no table is empty either. *)
Lemma shrink_full s x T s' x' T' v :
  pt_ok s x T → pt_ok s' x' T' → T' ⊆ T →
  (∀ w, leaf (frame_mem s') T' w = if decide (vpn w = vpn v) then 0 else leaf (frame_mem s) T w) →
  (∀ p q, T !! p = Some q → T' !! p = Some q ∨ on_path v p) →
  (∀ p q, T' !! p = Some q → on_path v p → ∃ i, 0 ≤ i < 512 ∧ entry_at (frame_mem s') q i ≠ 0) →
  pt_full (frame_mem s) T → pt_full (frame_mem s') T'.
Proof.
  intros Ht Ht' Hsub Hl Hk Hb Hfull p q Hp. pose proof (lookup_weaken _ _ _ _ Hp Hsub) as Hp0.
  destruct (Hfull p q Hp0) as (i & Hi & He). destruct (decide (length p < 3)%nat) as [H3|H3].
  - assert (∃ c, T !! (i :: p) = Some c) as [c Hc].
    { rewrite (pt_child _ _ _ Ht p q i Hp0 H3 Hi). destruct (Z.eqb_spec (entry_at (frame_mem s) q i) 0); [done|eauto]. }
    destruct (Hk _ _ Hc) as [Hc'|Hpath].
    + exists i. split; [done|]. apply (acc_child s' x' T' p q i c Ht' Hp Hc').
    + apply (Hb p q Hp). unfold on_path, tpath in *. destruct Hpath as [Hq|[Hq|[Hq|Hq]]]; simplify_eq; tauto.
  - destruct (leaf_table s x T p q i Ht Hp0 H3 Hi) as (w & <- & <-).
    destruct (decide (vpn w = vpn v)) as [Hv|Hv].
    + apply (Hb _ q Hp). left. destruct (proj1 (vpn_eq w v) Hv) as (E4 & E3 & E2 & _). unfold tpath. by rewrite E4, E3, E2.
    + exists (P1_NDX w). split; [apply P1_range|]. rewrite <- (leaf_entry_at _ T' w q Hp), Hl, decide_False by done.
      by rewrite (leaf_entry_at _ T w q).
Qed.
End tree.
