(* ===== verification/AddressSpace.v ===== *)
(** Address spaces: what [vmm_map_page] and [vmm_unmap_page] promise.

    The abstract specification of a page table is a finite map from virtual
    page numbers to entries; mapping inserts, unmapping deletes.  [space s x T f]
    says that the tables of [x] in the state [s] implement the map [f] and that
    none of them is empty.  The
    theorems are proved for every allocator that keeps the contract of
    [Interfaces] and instantiated at the allocator of [mm/pmm.c]. *)

From S2P Require Import Prelude Memory Interfaces Pmm PageTable.

(** The entry that [vmm_map_page] stores. *)
Definition page_entry (phys flags : Z) : Z := Z.lor phys flags.

(** The rights the processor grants at an address: those that the entries of
    all four levels grant. *)
Definition upper_rights (m : mem) (x : mm) (v : Z) : Z :=
  Z.land (p4_get_entry m x (P4_NDX v))
    (Z.land (p3_get_entry m x (P4_NDX v) (P3_NDX v))
       (p2_get_entry m x (P4_NDX v) (P3_NDX v) (P2_NDX v))).
Definition rights (m : mem) (x : mm) (v : Z) : Z := Z.land (upper_rights m x v) (walk m x v).

Section space.
Context {St : Type} {FO : FrameOps St} {FL : FrameLaws St}.
Implicit Types (s : St) (x y : mm) (T : tables) (f : gmap Z Z).

Record space s x T f : Prop := {
  sp_inv : frame_inv s;
  sp_tree : pt_ok s x T;
  sp_walk w : walk (frame_mem s) x w = default 0 (f !! vpn w);
  sp_full : pt_full (frame_mem s) T;
}.

(** No table belongs to both address spaces. *)
Definition separate T1 T2 : Prop := ∀ p q g, T1 !! p = Some g → T2 !! q ≠ Some g.

Lemma lor_word phys flags :
  0 ≤ phys < 2 ^ 64 → 0 < flags < PAGE_SIZE → 0 ≤ Z.lor phys flags < 2 ^ 64.
Proof.
  intros [Hp Hp'] Hf. unfold PAGE_SIZE in Hf. split; [apply Z.lor_nonneg; lia|].
  destruct (decide (Z.lor phys flags = 0)); [lia|].
  assert (0 ≤ Z.lor phys flags) by (apply Z.lor_nonneg; lia).
  apply Z.log2_lt_pow2; [lia|]. rewrite Z.log2_lor by lia.
  apply Z.max_lub_lt.
  - destruct (decide (phys = 0)) as [->|]; [done|]. apply Z.log2_lt_pow2; lia.
  - apply Z.log2_lt_pow2; lia.
Qed.

(** A walk that ends in a nonzero entry passed through a table of each level. *)
Lemma space_table s x T f v e :
  space s x T f → f !! vpn v = Some e → e ≠ 0 → ∃ t, T !! tpath v = Some t.
Proof.
  intros [Hi Ht Hw _] He Hne. specialize (Hw v).
  rewrite He, (walk_leaf s x T v Ht Hi) in Hw. unfold leaf in Hw. simpl in Hw.
  destruct (T !! tpath v) as [t|]; [by exists t|congruence].
Qed.

(** The tables are those on the paths of the pages that are mapped. *)
Lemma space_dom s x T f p : space s x T f →
  is_Some (T !! p) ↔ ∃ v r, default 0 (f !! vpn v) ≠ 0 ∧ tpath v = r ++ p.
Proof.
  intros Hs. pose proof Hs as [Hi Ht Hw Hfull]. split.
  - intros [q Hq]. destruct (pt_depth s x T p q Ht Hq) as [Hd _].
    assert (∃ n, (length p + n = 3)%nat) as [n Hn] by (exists (3 - length p)%nat; lia). clear Hd.
    revert p q Hq Hn. induction n as [|n IH]; intros p q Hq Hn; destruct (Hfull p q Hq) as (i & Hi0 & He).
    + destruct (leaf_table s x T p q i Ht Hq ltac:(lia) Hi0) as (v & <- & <-). exists v, []. split; [|done].
      rewrite <- Hw, (walk_leaf s x T v Ht Hi). by rewrite (leaf_entry_at _ T v q).
    + assert (∃ c, T !! (i :: p) = Some c) as [c Hc].
      { rewrite (pt_child _ _ _ Ht p q i Hq ltac:(lia) Hi0). destruct (Z.eqb_spec (entry_at (frame_mem s) q i) 0); [done|eauto]. }
      destruct (IH (i :: p) c Hc ltac:(simpl; lia)) as (v & r & Hv & Hr). exists v, (r ++ [i]).
      split; [done|]. by rewrite Hr, <- app_assoc.
  - intros (v & r & Hv & Hr). destruct (f !! vpn v) as [e|] eqn:E; [|done]. simpl in Hv.
    destruct (space_table s x T f v e Hs E Hv) as [t Hf]. rewrite Hr in Hf. by apply (pt_suffix s x T r p t).
Qed.

(** An address space that maps nothing has no tables. *)
Lemma space_empty s x T : space s x T ∅ → T = ∅ ∧ p4 x = 0.
Proof.
  intros Hs. assert (T = ∅) as ->.
  { apply map_eq. intros p. rewrite lookup_empty. destruct (T !! p) as [q|] eqn:E; [|done]. exfalso.
    destruct (proj1 (space_dom s x T ∅ p Hs) ltac:(by rewrite E)) as (v & r & Hv & _). by rewrite lookup_empty in Hv. }
  split; [done|]. by rewrite (pt_root _ _ _ (sp_tree _ _ _ _ Hs)), lookup_empty.
Qed.

(** The number of tables depends on the map alone. *)
Lemma space_size s x T s' x' T' f : space s x T f → space s' x' T' f → size T' = size T.
Proof.
  intros Hs Hs'. rewrite <- !size_dom. f_equal. apply set_eq. intros p. rewrite !elem_of_dom.
  by rewrite (space_dom s x T f p Hs), (space_dom s' x' T' f p Hs').
Qed.

Lemma get_phys_walk s x T f v :
  space s x T f → walk (frame_mem s) x v ≠ 0 →
  vmm_get_phys (frame_mem s) x v = page_base (walk (frame_mem s) x v).
Proof. intros _ Hw. unfold walk, vmm_get_phys in *. by repeat case_match. Qed.

Lemma space_map s x T f virt phys flags :
  space s x T f → (4 ≤ frame_avail s)%nat → 0 < flags < PAGE_SIZE → 0 ≤ phys < 2 ^ 64 →
  wp (vmm_map_page x virt phys flags) s (λ x' s', ∃ T',
    space s' x' T' (<[vpn virt := page_entry phys flags]> f) ∧ pt_grow s T s' T' ∧
    (frame_avail s ≤ 4 + frame_avail s')%nat ∧ vm_areas x' = vm_areas x).
Proof.
  intros [Hi Ht Hw Hfull] Hav Hf Hp.
  eapply wp_mono; [apply (map_page_ok s x T); try done; by apply lor_word|].
  intros x' s' (T' & Ht' & Hg & Hvm & Hav' & Hl & Hn). exists T'. split; [|done].
  split; [by apply Hg|done| |].
  2:{ apply (grow_full s x T s' x' T' virt (Z.lor phys flags)); try done. intros [_ H0]%Z.lor_eq_0_iff. lia. }
  intros w.
  rewrite (walk_leaf s' x' T' w Ht' (ext_inv _ _ _ _ Hg)), Hl, lookup_insert.
  destruct (decide (vpn w = vpn virt)) as [->|Hne]; [by rewrite decide_True by done|].
  rewrite decide_False by congruence. by rewrite <- Hw, (walk_leaf s x T w).
Qed.

Lemma space_unmap s x T f v e :
  space s x T f → f !! vpn v = Some e → e ≠ 0 →
  wp (vmm_unmap_page x v) s (λ x' s', ∃ T',
    space s' x' T' (delete (vpn v) f) ∧ pt_shrink s T s' T' ∧ vm_areas x' = vm_areas x).
Proof.
  intros Hs He Hne. destruct (space_table s x T f v e Hs He Hne) as [t Hf].
  destruct Hs as [Hi Ht Hw Hfull]. eapply wp_mono; [by eapply unmap_page_ok|].
  intros x' s' (T' & Ht' & Hg & Hvm & Hl & Hk & Hb). exists T'. split; [|done].
  split; [by apply Hg|done| |by eapply (shrink_full s x T s' x' T' v); [..|apply Hg| | | |]]. intros w.
  rewrite (walk_leaf s' x' T' w Ht' (shr_inv _ _ _ _ Hg)), Hl, lookup_delete.
  destruct (decide (vpn w = vpn v)) as [->|Hn]; [by rewrite decide_True by done|].
  rewrite decide_False by congruence. by rewrite <- Hw, (walk_leaf s x T w).
Qed.

(** Another address space sees nothing of a change that keeps its frames. *)
Lemma space_frame s s' y U g :
  space s y U g → frame_inv s' → (∀ p q, U !! p = Some q → frame_used s' q) →
  (∀ p q, U !! p = Some q → same_page (frame_mem s) (frame_mem s') q) → space s' y U g.
Proof.
  intros [Hi Ht Hw Hfull] Hi' Hu Hs.
  assert (pt_ok s' y U) as Ht'.
  { destruct Ht as [R Us I C P]. split; [done|done|done| |done].
    intros p q i Hp Hl Hr. rewrite (entry_at_same (frame_mem s)) by eauto. by apply C. }
  split; [done|done| |].
  2:{ intros p q Hp. destruct (Hfull p q Hp) as (i & Hi0 & He). exists i. split; [done|].
      rewrite (entry_at_same (frame_mem s)); [done|by eapply Hs|done]. }
  intros w. rewrite <- Hw, (walk_leaf s y U w), (walk_leaf s' y U w) by done.
  unfold leaf. destruct (U !! tpath w) as [q|] eqn:E; [|done].
  apply entry_at_same; [by eapply Hs|auto with pagetable].
Qed.

Lemma space_grow_other s T s' T' y U g :
  pt_grow s T s' T' → space s y U g → separate U T → space s' y U g ∧ separate U T'.
Proof.
  intros Hg Hy Hsep. pose proof (pt_used _ _ _ (sp_tree _ _ _ _ Hy)) as Hu. split.
  - apply (space_frame s); [done|by apply Hg|..].
    + intros p q Hp. apply Hg. left. by eapply Hu.
    + intros p q Hp. apply (ext_other _ _ _ _ Hg); [by eapply Hu|]. intros p'. by apply (Hsep p).
  - intros p q g' Hp Hq. destruct (ext_fresh _ _ _ _ Hg q g' Hq) as [H|H]; [by eapply Hsep|].
    by eapply H, Hu.
Qed.

Lemma space_shrink_other s T s' T' y U g :
  pt_shrink s T s' T' → space s y U g → separate U T → space s' y U g ∧ separate U T'.
Proof.
  intros Hg Hy Hsep. pose proof (pt_used _ _ _ (sp_tree _ _ _ _ Hy)) as Hu. split.
  - apply (space_frame s); [done|by apply Hg|..].
    + intros p q Hp. apply Hg. split; [by eapply Hu|]. intros p' Hp'. by destruct (Hsep p p' q).
    + intros p q Hp. apply (shr_other _ _ _ _ Hg); [by eapply Hu|]. intros p'. by apply (Hsep p).
  - intros p q g' Hp Hq. apply (Hsep p q g' Hp). exact (lookup_weaken _ _ _ _ Hq (shr_sub _ _ _ _ Hg)).
Qed.

Lemma walk_map s x T f : space s x T f → ∀ v, walk (frame_mem s) x v = default 0 (f !! vpn v).
Proof. by intros []. Qed.

(** The three upper entries of an address whose tables exist survive. *)
Lemma upper_rights_grow s T s' T' x x' v t :
  pt_ok s x T → pt_ok s' x' T' → pt_grow s T s' T' → T !! tpath v = Some t →
  upper_rights (frame_mem s') x' v = upper_rights (frame_mem s) x v.
Proof.
  intros Ht Ht' Hg H1. unfold tpath in H1.
  destruct (pt_parent _ _ _ Ht _ _ _ H1) as (_ & _ & [f2 H2]).
  destruct (pt_parent _ _ _ Ht _ _ _ H2) as (_ & _ & [f3 H3]).
  destruct (pt_parent _ _ _ Ht _ _ _ H3) as (_ & _ & [f4 H4]).
  assert (∀ p q, T !! p = Some q → T' !! p = Some q) as Hsub
    by (intros p q Hp; exact (lookup_weaken _ _ _ _ Hp (ext_sub _ _ _ _ Hg))).
  destruct (acc_child s x T [] f4 _ f3 Ht H4 H3) as [_ N4].
  destruct (acc_child s x T _ f3 _ f2 Ht H3 H2) as [_ N3].
  destruct (acc_child s x T _ f2 _ t Ht H2 H1) as [_ N2].
  unfold upper_rights, p4_get_entry, p3_get_entry, p2_get_entry.
  rewrite (proj1 (acc3 s x T _ f3 Ht H3)), (proj1 (acc3 s' x' T' _ f3 Ht' (Hsub _ _ H3))).
  rewrite (proj1 (acc2 s x T _ _ f2 Ht H2)), (proj1 (acc2 s' x' T' _ _ f2 Ht' (Hsub _ _ H2))).
  rewrite (acc4 s x T f4 Ht H4), (acc4 s' x' T' f4 Ht' (Hsub _ _ H4)).
  fold (entry_at (frame_mem s') f4 (P4_NDX v)) (entry_at (frame_mem s') f3 (P3_NDX v))
       (entry_at (frame_mem s') f2 (P2_NDX v)).
  rewrite (ext_upper _ _ _ _ Hg [] f4), (ext_upper _ _ _ _ Hg _ f3 _ H3), (ext_upper _ _ _ _ Hg _ f2 _ H2);
    try done; auto with pagetable; simpl; lia.
Qed.

End space.

(** A state of the allocator of [mm/pmm.c] with an empty address space. *)
Definition ex_mm : mm := Mm 0 0.
Lemma ex_space : space ex_pmm ex_mm ∅ ∅.
Proof.
  split; [exact ex_pmm_inv| | |by intros p q; rewrite lookup_empty].
  - by split; intros; rewrite ?lookup_empty in *.
  - intros w. by rewrite lookup_empty.
Qed.

Lemma ex_avail8 : (8 ≤ frame_avail ex_pmm)%nat.
Proof.
  change (frame_avail ex_pmm) with (size (free_frames ex_pmm)).
  assert (∀ i, 1 ≤ i < 16 → page_addr ex_region i ∈ free_frames ex_pmm) as Hf.
  { intros i Hi. apply (pmm_init_regions_inv [ex_region] ∅ ex_regions_ok).
    exists ex_region, i. split; [apply list_elem_of_singleton; done|].
    split; [|done]. assert (bmap_pages ex_region = 1) as -> by by vm_compute. simpl. lia. }
  transitivity (size (list_to_set (page_addr ex_region <$> [1; 2; 3; 4; 5; 6; 7; 8]) : gset Z)).
  - apply Nat.eq_le_incl. vm_compute. reflexivity.
  - apply subseteq_size. intros q. rewrite elem_of_list_to_set, list_elem_of_fmap.
    intros (i & -> & Hi). apply Hf. repeat (apply elem_of_cons in Hi as [->|Hi]; [lia|]).
    by apply not_elem_of_nil in Hi.
Qed.

Lemma ex_avail : (4 ≤ frame_avail ex_pmm)%nat.
Proof. pose proof ex_avail8. lia. Qed.

(** The same space after a read-only mapping at 4 MiB. *)
Definition ex_map_run : result (mm * pmm) := vmm_map_page ex_mm 0x400000 0x5000 5 ex_pmm.
Definition ex_ro (r : result (mm * pmm)) : bool :=
  match r with
  | Ok (x, s) => Z.land (upper_rights (frame_mem s) x 0x401000) PAGE_WRITE =? 0
  | _ => false
  end.

Lemma ex_mapped : ∃ s x T t,
  space s x T (<[vpn 0x400000 := page_entry 0x5000 5]> ∅ : gmap Z Z) ∧ (4 ≤ frame_avail s)%nat ∧
  T !! tpath 0x401000 = Some t ∧ Z.land (upper_rights (frame_mem s) x 0x401000) PAGE_WRITE = 0.
Proof.
  destruct (proj1 (wp_run _ _ _) (space_map ex_pmm ex_mm ∅ ∅ 0x400000 0x5000 5 ex_space ex_avail
    ltac:(unfold PAGE_SIZE; lia) ltac:(lia))) as (x' & s' & Hok & T' & Hs & _ & Hav & _).
  destruct (space_table s' x' T' _ 0x400000 (page_entry 0x5000 5) Hs) as [t Ht];
    [by rewrite lookup_insert_eq|done|].
  exists s', x', T', t. split; [done|]. split; [pose proof ex_avail8; lia|]. split; [exact Ht|].
  assert (ex_ro ex_map_run = true) as Hro by by vm_compute.
  unfold ex_map_run in Hro. rewrite Hok in Hro. by apply Z.eqb_eq in Hro.
Qed.

Lemma separate_empty T : separate ∅ T.
Proof. intros p q g Hp. by rewrite lookup_empty in Hp. Qed.

Section properties.
Context {St : Type} {FO : FrameOps St} {FL : FrameLaws St}.
Implicit Types (s : St) (x y : mm) (T : tables) (f : gmap Z Z).

(** C17: with four frames left, [vmm_map_page] inserts: afterwards the walk of
    the processor finds [phys | flags] at every address of the page and what it
    found before everywhere else, [vmm_get_phys] answers the frame, the tables
    form a tree again, and every frame that left the allocator is a new table. *)
Theorem vmm_map_page_spec s x T f virt phys flags
    (Hsp : space s x T f) (Hav : (4 ≤ frame_avail s)%nat)
    (Hphys : 0 ≤ phys < 2 ^ 64 ∧ phys mod PAGE_SIZE = 0) (Hflags : 0 < flags < PAGE_SIZE) :
  ∃ x' s' T', vmm_map_page x virt phys flags s = Ok (x', s') ∧
    space s' x' T' (<[vpn virt := page_entry phys flags]> f) ∧
    vmm_get_phys (frame_mem s') x' virt = phys ∧ vm_areas x' = vm_areas x ∧
    T ⊆ T' ∧ (frame_avail s' + size T' = frame_avail s + size T)%nat.
Proof.
  destruct (proj1 (wp_run _ _ _) (space_map s x T f virt phys flags Hsp Hav Hflags (proj1 Hphys)))
    as (x' & s' & Hok & T' & Hsp' & Hg & _ & Hvm).
  assert (walk (frame_mem s') x' virt = page_entry phys flags) as Hw.
  { by rewrite (sp_walk _ _ _ _ Hsp'), lookup_insert_eq. }
  exists x', s', T'. split; [done|]. split; [done|]. split.
  - rewrite (get_phys_walk s' x' T' _ virt Hsp'), Hw.
    + apply page_base_lor; [apply Hphys|lia].
    + rewrite Hw. unfold page_entry. intros [_ H0]%Z.lor_eq_0_iff. lia.
  - split; [done|]. split; apply Hg.
Qed.

(** C18: [vmm_unmap_page] of a mapped page deletes: the walk finds nothing at the
    page afterwards and what it found before everywhere else, and every table
    that has become empty is back in the allocator: no table of the space is
    empty ([sp_full]). *)
Theorem vmm_unmap_page_spec s x T f v e
    (Hsp : space s x T f) (He : f !! vpn v = Some e) (Hne : e ≠ 0) :
  ∃ x' s' T', vmm_unmap_page x v s = Ok (x', s') ∧ space s' x' T' (delete (vpn v) f) ∧
    T' ⊆ T ∧ (frame_avail s' + size T' = frame_avail s + size T)%nat ∧
    (∀ q, frame_used s' q ↔ frame_used s q ∧ ∀ p, T !! p = Some q → T' !! p = Some q).
Proof.
  destruct (proj1 (wp_run _ _ _) (space_unmap s x T f v e Hsp He Hne))
    as (x' & s' & Hok & T' & Hsp' & Hg & _).
  exists x', s', T'. split; [done|]. split; [done|]. split_and!; apply Hg.
Qed.

(** C27: mapping a page in one address space leaves every address space that
    shares no table with it as it was. *)
Theorem vmm_map_page_isolated s x T f y U g virt phys flags
    (Hx : space s x T f) (Hy : space s y U g) (Hsep : separate U T)
    (Hav : (4 ≤ frame_avail s)%nat) (Hphys : 0 ≤ phys < 2 ^ 64) (Hflags : 0 < flags < PAGE_SIZE) :
  ∃ x' s' T', vmm_map_page x virt phys flags s = Ok (x', s') ∧
    space s' x' T' (<[vpn virt := page_entry phys flags]> f) ∧ space s' y U g ∧ separate U T'.
Proof.
  destruct (proj1 (wp_run _ _ _) (space_map s x T f virt phys flags Hx Hav Hflags Hphys))
    as (x' & s' & Hok & T' & Hsp' & Hg & _).
  exists x', s', T'. split; [done|]. split; [done|]. by apply (space_grow_other s T s' T').
Qed.

(** mapping an unmapped page and unmapping it again restores what every
    address space that uses disjoint tables, and this one, sees, and loses no
    frame. *)
Theorem vmm_map_unmap_roundtrip s x T f y U g v phys flags
    (Hx : space s x T f) (Hy : space s y U g) (Hsep : separate U T) (Hv : f !! vpn v = None)
    (Hav : (4 ≤ frame_avail s)%nat) (Hphys : 0 ≤ phys < 2 ^ 64) (Hflags : 0 < flags < PAGE_SIZE) :
  ∃ x' s' T', mbind_ (vmm_map_page x v phys flags) (λ x1, vmm_unmap_page x1 v) s = Ok (x', s') ∧
    space s' x' T' f ∧ space s' y U g ∧ separate U T' ∧ frame_avail s' = frame_avail s.
Proof.
  enough (wp (mbind_ (vmm_map_page x v phys flags) (λ x1, vmm_unmap_page x1 v)) s
    (λ x' s', ∃ T', space s' x' T' f ∧ space s' y U g ∧ separate U T' ∧
       (frame_avail s' + size T' = frame_avail s + size T)%nat)) as Hw.
  { destruct (proj1 (wp_run _ _ _) Hw) as (x' & s' & Hok & T' & Hx' & Hy' & Hsep' & Hc). exists x', s', T'.
    split_and!; try done. pose proof (space_size s x T s' x' T' f Hx Hx'). lia. }
  apply wp_bind. eapply wp_mono; [by apply (space_map s x T f)|].
  intros x1 s1 (T1 & Hsp1 & Hg1 & _).
  destruct (space_grow_other s T s1 T1 y U g Hg1 Hy Hsep) as [Hy1 Hsep1].
  eapply wp_mono; [apply (space_unmap s1 x1 T1 _ v (page_entry phys flags) Hsp1)|].
  - by rewrite lookup_insert_eq.
  - unfold page_entry. intros [_ H0]%Z.lor_eq_0_iff. lia.
  - intros x' s' (T' & Hsp' & Hg' & _). exists T'.
    destruct (space_shrink_other s1 T1 s' T' y U g Hg' Hy1 Hsep1) as [Hy' Hsep'].
    rewrite delete_insert_eq, delete_id in Hsp' by done. split; [done|]. split; [done|].
    split; [done|]. rewrite (shr_count _ _ _ _ Hg'). apply Hg1.
Qed.

(** the entries of the upper tables keep the flags of the mapping that
    created them: mapping a page below existing tables grants at most the
    rights those tables grant, so a writable page next to a page that was
    mapped read-only first cannot be written. *)
Theorem vmm_map_page_rights_not_widened s x T f w t virt phys flags
    (Hsp : space s x T f) (Hav : (4 ≤ frame_avail s)%nat)
    (Hphys : 0 ≤ phys < 2 ^ 64) (Hflags : 0 < flags < PAGE_SIZE)
    (Hw : T !! tpath w = Some t) (Hsame : vpn w = vpn virt)
    (Hro : Z.land (upper_rights (frame_mem s) x w) PAGE_WRITE = 0) :
  ∃ x' s', vmm_map_page x virt phys flags s = Ok (x', s') ∧
    walk (frame_mem s') x' w = page_entry phys flags ∧
    Z.land (rights (frame_mem s') x' w) PAGE_WRITE = 0.
Proof.
  destruct (proj1 (wp_run _ _ _) (space_map s x T f virt phys flags Hsp Hav Hflags Hphys))
    as (x' & s' & Hok & T' & Hsp' & Hg & _).
  exists x', s'. split; [done|]. split.
  - by rewrite (sp_walk _ _ _ _ Hsp'), Hsame, lookup_insert_eq.
  - unfold rights. rewrite (upper_rights_grow s T s' T' x x' w t (sp_tree _ _ _ _ Hsp)
      (sp_tree _ _ _ _ Hsp') Hg Hw).
    rewrite <- Z.land_assoc, (Z.land_comm (walk _ _ _)), Z.land_assoc, Hro. apply Z.land_0_l.
Qed.
End properties.

Lemma vmm_map_page_spec_witness : ∃ x' s' T',
  vmm_map_page ex_mm 0x400000 0x5000 7 ex_pmm = Ok (x', s') ∧
  space s' x' T' (<[vpn 0x400000 := page_entry 0x5000 7]> ∅) ∧
  vmm_get_phys (frame_mem s') x' 0x400000 = 0x5000.
Proof.
  destruct (vmm_map_page_spec ex_pmm ex_mm ∅ ∅ 0x400000 0x5000 7 ex_space ex_avail
    ltac:(split; [lia|done]) ltac:(unfold PAGE_SIZE; lia)) as (x' & s' & T' & Hok & Hs & Hp & _).
  exists x', s', T'. split; [exact Hok|]. split; [exact Hs|exact Hp].
Defined.

Lemma vmm_unmap_page_spec_witness : ∃ (s s' : pmm) x x' T',
  vmm_unmap_page x 0x400000 s = Ok (x', s') ∧
  space s' x' T' (delete (vpn 0x400000) (<[vpn 0x400000 := page_entry 0x5000 5]> ∅)).
Proof.
  destruct ex_mapped as (s & x & T & t & Hs & _).
  destruct (vmm_unmap_page_spec s x T _ 0x400000 (page_entry 0x5000 5) Hs
    (lookup_insert_eq _ _ _) ltac:(vm_compute; discriminate)) as (x' & s' & T' & Hok & Hs' & _).
  exists s, s', x, x', T'. split; [exact Hok|exact Hs'].
Defined.

Lemma vmm_map_page_isolated_witness : ∃ x' s' T',
  vmm_map_page ex_mm 0x400000 0x5000 7 ex_pmm = Ok (x', s') ∧ space s' ex_mm ∅ ∅ ∧ separate ∅ T'.
Proof.
  destruct (vmm_map_page_isolated ex_pmm ex_mm ∅ ∅ ex_mm ∅ ∅ 0x400000 0x5000 7 ex_space ex_space
    (separate_empty ∅) ex_avail ltac:(lia) ltac:(unfold PAGE_SIZE; lia))
    as (x' & s' & T' & Hok & _ & Hs & Hsep).
  exists x', s', T'. split; [exact Hok|]. split; [exact Hs|exact Hsep].
Defined.

Lemma vmm_map_unmap_roundtrip_witness : ∃ x' s' T',
  mbind_ (vmm_map_page ex_mm 0x400000 0x5000 7) (λ x1, vmm_unmap_page x1 0x400000) ex_pmm =
    Ok (x', s') ∧ space s' x' T' ∅.
Proof.
  destruct (vmm_map_unmap_roundtrip ex_pmm ex_mm ∅ ∅ ex_mm ∅ ∅ 0x400000 0x5000 7 ex_space ex_space
    (separate_empty ∅) (lookup_empty _) ex_avail ltac:(lia) ltac:(unfold PAGE_SIZE; lia))
    as (x' & s' & T' & Hok & Hs & _).
  exists x', s', T'. split; [exact Hok|exact Hs].
Defined.

Lemma vmm_map_page_rights_not_widened_witness : ∃ (s : pmm) x x' s',
  vmm_map_page x 0x401000 0x6000 7 s = Ok (x', s') ∧
  walk (frame_mem s') x' 0x401000 = page_entry 0x6000 7 ∧
  Z.land (rights (frame_mem s') x' 0x401000) PAGE_WRITE = 0.
Proof.
  destruct ex_mapped as (s & x & T & t & Hs & Hav & Ht & Hro).
  destruct (vmm_map_page_rights_not_widened s x T _ 0x401000 t 0x401000 0x6000 7 Hs Hav
    ltac:(lia) ltac:(unfold PAGE_SIZE; lia) Ht eq_refl Hro) as (x' & s' & Hok & Hw & Hr).
  exists s, x, x', s'. split; [exact Hok|]. split; [exact Hw|exact Hr].
Defined.
