(* ===== verification/Kmalloc.v ===== *)
(** The kernel heap: [mm/kmalloc.c] on top of [sbrk] of [mm/vmm.c].

    The headers ([struct block], 32 bytes) are read and written in byte memory
    at the offsets of the C struct.  The invariant says that the blocks tile
    the heap from its base to the break and that the links agree with the
    tiling; the specification of [kmalloc] and [free] is first fit and
    coalescing on the list of (size, in use) pairs. *)

From S2P Require Import Prelude Memory.

Definition KERNEL_BRK_START : Z := 0xFFFFC90000000000.
Definition KERNEL_BRK_PAGES : Z := 128.
Definition KERNEL_BRK_LIMIT : Z := KERNEL_BRK_START + KERNEL_BRK_PAGES * PAGE_SIZE.
Definition INIT_HEAP_SIZE : Z := PAGE_SIZE * 4.

Record heap := Heap { h_mem : mem; heap_base : Z; kernel_brk : Z }.
Definition set_h_mem (s : heap) (m : mem) : heap := Heap m (heap_base s) (kernel_brk s).
Definition set_heap_base (s : heap) (v : Z) : heap := Heap (h_mem s) v (kernel_brk s).
Definition set_kernel_brk (s : heap) (v : Z) : heap := Heap (h_mem s) (heap_base s) v.

(** ** [struct block] *)
Record block := Block { size_ : Z; in_use : Z; next : Z; prev : Z }.
Definition sizeof_block : Z := 32.

Definition block_at (m : mem) (a : Z) : block :=
  Block (ld64 m a) (ld32 m (a + 8)) (ld64 m (a + 16)) (ld64 m (a + 24)).

Definition hread {A} (f : block → A) (a : Z) : M heap A := gets (λ s, f (block_at (h_mem s) a)).
Definition hwrite (f : mem → mem) : M heap unit := modify (λ s, set_h_mem s (f (h_mem s))).
Definition set_size (a v : Z) (m : mem) : mem := st64 m a v.
Definition set_in_use (a v : Z) (m : mem) : mem := st32 m (a + 8) v.
Definition set_next (a v : Z) (m : mem) : mem := st64 m (a + 16) v.
Definition set_prev (a v : Z) (m : mem) : mem := st64 m (a + 24) v.

(** ** [sbrk] *)
Definition sbrk (inc : Z) : M heap Z :=
  if inc =? 0 then panic "sbrk(0), likely kernel bug" else
  modify (λ s, set_kernel_brk s (w64 (kernel_brk s + inc))) ;;*
  let* brk := gets kernel_brk in
  if brk <? KERNEL_BRK_START then panic "sbrk brought kernel break to below KERNEL_BRK_START" else
  if KERNEL_BRK_LIMIT <=? brk then panic "kernel heap exhausted" else
  mret_ (w64 (brk - inc)).

(** ** [kmalloc] *)
Definition split_block (size victim : Z) : M heap Z :=
  let* vsize := hread size_ victim in
  if w64 (vsize - size) <=? sizeof_block then mret_ victim else
  let new_block := w64 (victim + sizeof_block + size) in
  hwrite (set_size new_block (w64 (vsize - size - sizeof_block))) ;;*
  hwrite (set_in_use new_block 0) ;;*
  let* vnext := hread next victim in
  hwrite (set_next new_block vnext) ;;*
  hwrite (set_prev new_block victim) ;;*
  hwrite (set_size victim size) ;;*
  let* vnext := hread next victim in
  (if negb (vnext =? 0) then hwrite (set_prev vnext new_block) else mret_ tt) ;;*
  hwrite (set_next victim new_block) ;;*
  mret_ victim.

(** The search loop answers the target, or 0, and the last block passed. *)
Fixpoint kmalloc_loop (fuel : nat) (size prev curr : Z) : M heap (Z * Z) :=
  match fuel with
  | O => nofuel
  | S fuel' =>
      if curr =? 0 then mret_ (0, prev) else
      let* u := hread in_use curr in
      let* n := hread size_ curr in
      let* nx := hread next curr in
      if negb (u =? 0) then kmalloc_loop fuel' size curr nx
      else if n =? size then mret_ (curr, prev)
      else if w64 (size + sizeof_block) <=? n then
        let* target := split_block size curr in mret_ (target, prev)
      else kmalloc_loop fuel' size curr nx
  end.

(** More than the blocks a heap of [KERNEL_BRK_PAGES] pages can hold. *)
Definition heap_fuel : nat := Z.to_nat 16385.

Definition kmalloc (size : Z) : M heap Z :=
  if size =? 0 then panic "malloc of size 0, likely kernel bug" else
  let* base := gets heap_base in
  let* r := kmalloc_loop heap_fuel size 0 base in
  let '(target, prev) := r in
  let* target := (if target =? 0 then
    let* target := sbrk (s64 (w64 (sizeof_block + size))) in
    hwrite (set_size target size) ;;*
    hwrite (set_in_use target 1) ;;*
    hwrite (set_next target 0) ;;*
    hwrite (set_prev target prev) ;;*
    (if prev =? 0 then fault else hwrite (set_next prev target)) ;;*
    mret_ target
  else mret_ target) in
  hwrite (set_in_use target 1) ;;*
  mret_ (w64 (target + sizeof_block)).

Definition kcalloc (nmemb size : Z) : M heap Z :=
  let sz := w64 (nmemb * size) in
  let* p := kmalloc sz in
  hwrite (λ m, memset m p 0 sz) ;;*
  mret_ p.

(** ** [free] *)
Definition coalesce_back (block : Z) : M heap Z :=
  let* bprev := hread prev block in
  let* bprev_used := hread in_use bprev in
  if negb (bprev =? 0) && (bprev_used =? 0) then
    let* n := hread size_ block in
    let* pn := hread size_ bprev in
    hwrite (set_size bprev (w64 (pn + n + sizeof_block))) ;;*
    let* nx := hread next block in
    hwrite (set_next bprev nx) ;;*
    (if negb (nx =? 0) then hwrite (set_prev nx bprev) else mret_ tt) ;;*
    mret_ bprev
  else mret_ block.

Definition coalesce_forward (block : Z) : M heap unit :=
  let* bnext := hread next block in
  let* bnext_used := hread in_use bnext in
  if negb (bnext =? 0) && (bnext_used =? 0) then
    let* n := hread size_ block in
    let* nn := hread size_ bnext in
    hwrite (set_size block (w64 (n + nn + sizeof_block))) ;;*
    let* nnx := hread next bnext in
    hwrite (set_next block nnx) ;;*
    (if negb (nnx =? 0) then hwrite (set_prev nnx block) else mret_ tt)
  else mret_ tt.

Definition free (ptr : Z) : M heap unit :=
  let block := w64 (ptr - sizeof_block) in
  hwrite (set_in_use block 0) ;;*
  let* block := coalesce_back block in
  coalesce_forward block.

Definition kmalloc_init : M heap unit :=
  let* base := sbrk INIT_HEAP_SIZE in
  modify (λ s, set_heap_base s base) ;;*
  hwrite (set_size base (INIT_HEAP_SIZE - sizeof_block)) ;;*
  hwrite (set_in_use base 0) ;;*
  hwrite (set_next base 0) ;;*
  hwrite (set_prev base 0).

(** ** The specification: first fit on a list of blocks *)
Abbreviation blocks := (list (Z * bool)).

Definition span (bs : blocks) : Z := foldr (λ b acc, sizeof_block + b.1 + acc) 0 bs.

(** The free block that [kmalloc] takes: exactly the size, or with room for
    the header of another block. *)
Definition fits (size : Z) (b : Z * bool) : bool :=
  negb b.2 && ((b.1 =? size) || (size + sizeof_block <=? b.1)).

Definition carve (size n : Z) : blocks :=
  if n - size <=? sizeof_block then [(n, true)] else [(size, true); (n - size - sizeof_block, false)].

(** The list after an allocation, and the offset of the block's header. *)
Fixpoint first_fit (size : Z) (bs : blocks) (off : Z) : blocks * Z :=
  match bs with
  | [] => ([(size, true)], off)
  | b :: bs' =>
      if fits size b then (carve size b.1 ++ bs', off)
      else let r := first_fit size bs' (off + sizeof_block + b.1) in (b :: r.1, r.2)
  end.

Definition cons_free (n : Z) (bs : blocks) : blocks :=
  match bs with
  | (n', false) :: bs' => (n + n' + sizeof_block, false) :: bs'
  | _ => (n, false) :: bs
  end.

(** The list after the release of the block between [l] and [r]. *)
Fixpoint release (l : blocks) (n : Z) (r : blocks) : blocks :=
  match l with
  | [] => cons_free n r
  | [(n0, false)] => cons_free (n0 + n + sizeof_block) r
  | b :: l' => b :: release l' n r
  end.

(** ** Headers in memory *)
Definition in_hdr (a x : Z) : Prop := a ≤ x < a + sizeof_block.

Lemma ld32_st32_eq m a v : 0 ≤ v < 2 ^ 32 → ld32 (st32 m a v) a = v.
Proof. intros. unfold ld32, st32. rewrite ld_st_eq, Z.mod_small; lia. Qed.

Lemma block_ext m m' a : (∀ x, in_hdr a x → ld8 m' x = ld8 m x) → block_at m' a = block_at m a.
Proof.
  intros H. unfold block_at, ld64, ld32. unfold in_hdr, sizeof_block in H.
  rewrite !(ld_ext _ m' m) by (intros; apply H; lia). done.
Qed.

Lemma st_hdr n m a o v x :
  0 ≤ o → o + Z.of_nat n ≤ sizeof_block → ¬ in_hdr a x → ld8 (st n m (a + o) v) x = ld8 m x.
Proof. unfold in_hdr. intros. apply ld8_st_ne. lia. Qed.

Lemma set_size_hdr a v m x : ¬ in_hdr a x → ld8 (set_size a v m) x = ld8 m x.
Proof. intros. unfold set_size, st64. apply ld8_st_ne. unfold in_hdr, sizeof_block in *. lia. Qed.
Lemma set_in_use_hdr a v m x : ¬ in_hdr a x → ld8 (set_in_use a v m) x = ld8 m x.
Proof. intros. apply st_hdr; done. Qed.
Lemma set_next_hdr a v m x : ¬ in_hdr a x → ld8 (set_next a v m) x = ld8 m x.
Proof. intros. apply st_hdr; done. Qed.
Lemma set_prev_hdr a v m x : ¬ in_hdr a x → ld8 (set_prev a v m) x = ld8 m x.
Proof. intros. apply st_hdr; done. Qed.

Lemma block_set_size a v m b : block_at m a = b → 0 ≤ v < 2 ^ 64 →
  block_at (set_size a v m) a = Block v (in_use b) (next b) (prev b).
Proof.
  intros <- Hv. unfold block_at, set_size. rewrite ld64_st64_eq by done. unfold ld32, ld64, st64.
  by rewrite !ld_st_ne by lia.
Qed.
Lemma block_set_in_use a v m b : block_at m a = b → 0 ≤ v < 2 ^ 32 →
  block_at (set_in_use a v m) a = Block (size_ b) v (next b) (prev b).
Proof.
  intros <- Hv. unfold block_at, set_in_use. rewrite ld32_st32_eq by done. unfold ld32, ld64, st32.
  by rewrite !ld_st_ne by lia.
Qed.
Lemma block_set_next a v m b : block_at m a = b → 0 ≤ v < 2 ^ 64 →
  block_at (set_next a v m) a = Block (size_ b) (in_use b) v (prev b).
Proof.
  intros <- Hv. unfold block_at, set_next. rewrite ld64_st64_eq by done. unfold ld32, ld64, st64.
  by rewrite !ld_st_ne by lia.
Qed.
Lemma block_set_prev a v m b : block_at m a = b → 0 ≤ v < 2 ^ 64 →
  block_at (set_prev a v m) a = Block (size_ b) (in_use b) (next b) v.
Proof.
  intros <- Hv. unfold block_at, set_prev. rewrite ld64_st64_eq by done. unfold ld32, ld64, st64.
  by rewrite !ld_st_ne by lia.
Qed.

(** A header whose four fields have been written. *)
Lemma block_new a n u nx p m :
  0 ≤ n < 2 ^ 64 → 0 ≤ u < 2 ^ 32 → 0 ≤ nx < 2 ^ 64 → 0 ≤ p < 2 ^ 64 →
  block_at (set_prev a p (set_next a nx (set_in_use a u (set_size a n m)))) a = Block n u nx p.
Proof.
  intros Hn Hu Hx Hp.
  pose proof (block_set_size a n m _ eq_refl Hn) as H1.
  pose proof (block_set_in_use a u _ _ H1 Hu) as H2.
  pose proof (block_set_next a nx _ _ H2 Hx) as H3.
  exact (block_set_prev a p _ _ H3 Hp).
Qed.

(** ** Segments of the block list

    [seg m p a bs nx]: the blocks [bs] tile memory from [a]; the first one's
    [prev] is [p], the last one's [next] is [nx]. *)
Fixpoint seg (m : mem) (p a : Z) (bs : blocks) (nx : Z) : Prop :=
  match bs with
  | [] => True
  | b :: r =>
      0 < b.1 ∧
      block_at m a =
        Block b.1 (Z.b2z b.2) (match r with [] => nx | _ => a + sizeof_block + b.1 end) p ∧
      seg m a (a + sizeof_block + b.1) r nx
  end.

(** The address of the last block of a segment, [p] when it is empty. *)
Fixpoint last_block (p a : Z) (bs : blocks) : Z :=
  match bs with
  | [] => p
  | b :: r => last_block a (a + sizeof_block + b.1) r
  end.

(** The bytes of the headers of a segment. *)
Fixpoint headers (a : Z) (bs : blocks) (x : Z) : Prop :=
  match bs with
  | [] => False
  | b :: r => in_hdr a x ∨ headers (a + sizeof_block + b.1) r x
  end.

Definition all_pos (bs : blocks) : Prop := Forall (λ b : Z * bool, 0 < b.1) bs.

Lemma span_app l r : span (l ++ r) = span l + span r.
Proof. induction l as [|b l IH]; simpl; [done|]. fold (span (l ++ r)) (span l). lia. Qed.
Lemma span_cons b r : span (b :: r) = sizeof_block + b.1 + span r.
Proof. done. Qed.
Lemma span_nonneg l : all_pos l → 0 ≤ span l.
Proof. induction 1; [done|]. rewrite span_cons. unfold sizeof_block. lia. Qed.
Lemma span_length l : all_pos l → 33 * Z.of_nat (length l) ≤ span l.
Proof. induction 1; [done|]. rewrite span_cons. unfold sizeof_block. simpl length. lia. Qed.

Lemma seg_pos m p a bs nx : seg m p a bs nx → all_pos bs.
Proof. revert p a. induction bs; intros p c; simpl; constructor; naive_solver. Qed.

Lemma seg_app m p a l r nx :
  seg m p a (l ++ r) nx ↔
  seg m p a l (match r with [] => nx | _ => a + span l end) ∧
  seg m (last_block p a l) (a + span l) r nx.
Proof.
  revert p a. induction l as [|b l IH]; intros p a; simpl.
  - rewrite Z.add_0_r. naive_solver.
  - rewrite IH. fold (span l).
    replace (a + sizeof_block + b.1 + span l) with (a + (sizeof_block + b.1 + span l)) by lia.
    destruct l as [|b' l]; simpl; [|naive_solver].
    destruct r; simpl; [naive_solver|]. fold (span []). simpl.
    replace (a + (sizeof_block + b.1 + 0)) with (a + sizeof_block + b.1) by lia. naive_solver.
Qed.

Lemma headers_app a l r x : headers a (l ++ r) x ↔ headers a l x ∨ headers (a + span l) r x.
Proof.
  revert a. induction l as [|b l IH]; intros a; simpl.
  - rewrite Z.add_0_r. naive_solver.
  - rewrite IH. fold (span l).
    replace (a + sizeof_block + b.1 + span l) with (a + (sizeof_block + b.1 + span l)) by lia. naive_solver.
Qed.

Lemma headers_bounds a bs x : all_pos bs → headers a bs x → a ≤ x < a + span bs.
Proof.
  intros Hp. revert a. induction Hp as [|b bs Hb Hp IH]; intros a; simpl; [done|].
  fold (span bs). pose proof (span_nonneg bs Hp). unfold in_hdr, sizeof_block in *.
  intros [?|H1%IH]; lia.
Qed.

Lemma seg_ext m m' p a bs nx :
  seg m p a bs nx → (∀ x, headers a bs x → ld8 m' x = ld8 m x) → seg m' p a bs nx.
Proof.
  revert p a. induction bs as [|b r IH]; intros p a; simpl; [done|].
  intros (Hn & Hb & Hr) H. split; [done|]. split.
  - rewrite (block_ext m m'); [done|]. intros x Hx. apply H. by left.
  - apply IH; [done|]. intros x Hx. apply H. by right.
Qed.

(** Relinking the two ends of a segment. *)
Lemma seg_prev m m' p p' a bs nx :
  seg m p a bs nx → bs ≠ [] → 0 ≤ p' < 2 ^ 64 →
  (∀ x, headers a bs x → ld8 m' x = ld8 (set_prev a p' m) x) → seg m' p' a bs nx.
Proof.
  destruct bs as [|b r]; [done|]. simpl. intros (Hn & Hb & Hr) _ Hp H. split; [done|].
  split.
  - rewrite (block_ext (set_prev a p' m)); [|intros x Hx; apply H; by left].
    by rewrite (block_set_prev _ _ _ _ Hb) by done.
  - apply (seg_ext m); [done|]. intros x Hx. rewrite H by by right.
    apply set_prev_hdr. apply headers_bounds in Hx; [|by eapply seg_pos]. unfold in_hdr. lia.
Qed.

Lemma seg_snoc m p a l b nx :
  seg m p a (l ++ [b]) nx ↔ seg m p a l (a + span l) ∧ 0 < b.1 ∧
    block_at m (a + span l) = Block b.1 (Z.b2z b.2) nx (last_block p a l).
Proof. rewrite seg_app. simpl. naive_solver. Qed.

Lemma seg_next m m' p a bs nx nx' :
  seg m p a bs nx → bs ≠ [] → 0 ≤ nx' < 2 ^ 64 →
  (∀ x, headers a bs x → ld8 m' x = ld8 (set_next (last_block p a bs) nx' m) x) →
  seg m' p a bs nx'.
Proof.
  intros Hs Hne Hr H. destruct bs as [|b l _] using rev_ind; [done|].
  assert (last_block p a (l ++ [b]) = a + span l) as Hlast.
  { clear. revert p a. induction l as [|c l IH]; intros p a; simpl; [lia|]. rewrite IH. fold (span l). lia. }
  rewrite Hlast in H. pose proof (seg_pos _ _ _ _ _ Hs) as Hpos.
  apply seg_snoc in Hs as (Hl & Hb & Hblk). apply seg_snoc. split; [|split; [done|]].
  - apply (seg_ext m); [done|]. intros x Hx. rewrite H by (apply headers_app; by left).
    apply set_next_hdr. apply headers_bounds in Hx; [|by eapply seg_pos]. unfold in_hdr. lia.
  - rewrite (block_ext (set_next (a + span l) nx' m)).
    + by rewrite (block_set_next _ _ _ _ Hblk) by done.
    + intros x Hx. apply H, headers_app. right. by left.
Qed.

Lemma seg_mid m p a l b r nx :
  seg m p a (l ++ b :: r) nx ↔
  seg m p a l (a + span l) ∧ 0 < b.1 ∧
  block_at m (a + span l) = Block b.1 (Z.b2z b.2)
    (match r with [] => nx | _ => a + span l + sizeof_block + b.1 end) (last_block p a l) ∧
  seg m (a + span l) (a + span l + sizeof_block + b.1) r nx.
Proof. apply seg_app. Qed.

Lemma last_block_bounds p a l :
  all_pos l → l ≠ [] → a ≤ last_block p a l ∧ last_block p a l + sizeof_block < a + span l.
Proof.
  intros Hp. revert p a. induction Hp as [|b l Hb Hp IH]; intros p a Hne; [done|].
  rewrite span_cons. simpl. destruct l as [|c l].
  - simpl. unfold sizeof_block. lia.
  - destruct (IH a (a + sizeof_block + b.1)) as [H1 H2]; [done|]. unfold sizeof_block in *. lia.
Qed.

(** ** The invariant *)
Fixpoint no_adjacent_free (bs : blocks) : Prop :=
  match bs with
  | (_, false) :: (((_, false) :: _) as r) => False
  | _ :: r => no_adjacent_free r
  | [] => True
  end.

Record heap_ok (s : heap) (bs : blocks) : Prop := {
  hk_base : heap_base s = KERNEL_BRK_START;
  hk_ne : bs ≠ [];
  hk_seg : seg (h_mem s) 0 KERNEL_BRK_START bs 0;
  hk_brk : kernel_brk s = KERNEL_BRK_START + span bs;
  hk_lim : kernel_brk s < KERNEL_BRK_LIMIT;
  hk_adj : no_adjacent_free bs;
}.

(** [m'] differs from [m] only in the headers of [bs] and [bs']. *)
Definition only_headers (bs bs' : blocks) (m m' : mem) : Prop :=
  ∀ x, ¬ headers KERNEL_BRK_START bs x → ¬ headers KERNEL_BRK_START bs' x → ld8 m' x = ld8 m x.

Ltac heap_lia :=
  unfold in_hdr, sizeof_block, INIT_HEAP_SIZE, KERNEL_BRK_LIMIT, KERNEL_BRK_START,
    KERNEL_BRK_PAGES, PAGE_SIZE in *; lia.
(** A header write elsewhere does not change a byte. *)
Ltac hdr_frame :=
  repeat first
    [ rewrite set_size_hdr by heap_lia | rewrite set_in_use_hdr by heap_lia
    | rewrite set_next_hdr by heap_lia | rewrite set_prev_hdr by heap_lia ].
(** The header at [a] after writes to other headers. *)
Ltac block_frame H :=
  rewrite (block_ext _ _ _ (λ x _, eq_refl)) in H.

Section ops.
Implicit Types (s : heap) (m : mem) (bs l r : blocks).

Lemma block_at_far m m' a :
  (∀ x, in_hdr a x → ld8 m' x = ld8 m x) → ∀ b, block_at m a = b → block_at m' a = b.
Proof. intros H b <-. by apply block_ext. Qed.

Lemma split_seg m l n r sz v :
  let bs := l ++ (n, false) :: r in
  seg m 0 KERNEL_BRK_START bs 0 → KERNEL_BRK_START + span bs < KERNEL_BRK_LIMIT →
  0 < sz → sz + sizeof_block < n → v = KERNEL_BRK_START + span l →
  let nb := v + sizeof_block + sz in
  let m4 := set_prev nb v (set_next nb (match r with [] => 0 | _ => v + sizeof_block + n end)
             (set_in_use nb 0 (set_size nb (n - sz - sizeof_block) m))) in
  let m5 := set_size v sz m4 in
  let m6 := match r with [] => m5 | _ => set_prev (v + sizeof_block + n) nb m5 end in
  let m7 := set_next v nb m6 in
  let bs' := l ++ (sz, false) :: (n - sz - sizeof_block, false) :: r in
  seg m7 0 KERNEL_BRK_START bs' 0 ∧ only_headers bs bs' m m7.
Proof.
  intros bs Hs Hlim Hsz Hn -> nb m4 m5 m6 m7 bs'. pose proof (seg_pos _ _ _ _ _ Hs) as Hpos.
  apply Forall_app in Hpos as [Hpl Hpr]. apply Forall_cons_1 in Hpr as [Hpn Hpr].
  pose proof (span_nonneg l Hpl) as Hl0. pose proof (span_nonneg r Hpr) as Hr0.
  unfold bs in Hlim. rewrite span_app, span_cons in Hlim. simpl in Hlim, Hpn.
  apply seg_mid in Hs as (Hsl & _ & Hv & Hsr). simpl in Hv, Hsr.
  set (v := KERNEL_BRK_START + span l) in *.
  assert (KERNEL_BRK_START ≤ v) as Hv0 by (unfold v; lia).
  assert (∀ x, ¬ in_hdr v x → ¬ in_hdr nb x → (r = [] ∨ ¬ in_hdr (v + sizeof_block + n) x) →
    ld8 m7 x = ld8 m x) as Hfar.
  { intros x H1 H2 H3. unfold m7, m6, m5, m4. destruct r as [|c r'].
    - by rewrite set_next_hdr, set_size_hdr, set_prev_hdr, set_next_hdr, set_in_use_hdr,
        set_size_hdr by done.
    - destruct H3 as [?|H3]; [done|].
      by rewrite set_next_hdr, set_prev_hdr, set_size_hdr, set_prev_hdr, set_next_hdr,
        set_in_use_hdr, set_size_hdr by done. }
  split.
  - apply seg_mid. fold v. simpl. split; [|split; [done|split; [|split; [|split]]]].
    + apply (seg_ext m); [done|]. intros x Hx%headers_bounds; [|done].
      apply Hfar; [..|right]; unfold nb, v in *; heap_lia.
    + assert (block_at m4 v = block_at m v) as Hv4.
      { apply block_ext. intros x Hx. unfold m4, nb. hdr_frame. done. }
      assert (block_at m5 v = Block sz 0 (match r with [] => 0 | _ => v + sizeof_block + n end)
               (last_block 0 KERNEL_BRK_START l)) as Hv5.
      { unfold m5. rewrite (block_set_size v sz m4 _ Hv4), Hv by heap_lia. done. }
      assert (block_at m6 v = block_at m5 v) as Hv6.
      { destruct r; [done|]. apply block_ext. intros x Hx. unfold m6. hdr_frame. done. }
      unfold m7. rewrite (block_set_next v nb m6 _ Hv6), Hv5 by (unfold nb; heap_lia). done.
    + lia.
    + assert (block_at m4 nb = Block (n - sz - sizeof_block) 0
               (match r with [] => 0 | _ => v + sizeof_block + n end) v) as Hn4.
      { apply block_new; destruct r; unfold nb; heap_lia. }
      fold nb. assert (block_at m7 nb = block_at m4 nb) as ->.
      { apply block_ext. intros x Hx. unfold m7, m6, m5. unfold nb in *. destruct r; hdr_frame; done. }
      rewrite Hn4. replace (nb + sizeof_block + (n - sz - sizeof_block)) with (v + sizeof_block + n)
        by (unfold nb; lia). done.
    + fold nb. replace (nb + sizeof_block + (n - sz - sizeof_block)) with (v + sizeof_block + n)
        by (unfold nb; lia).
      destruct r as [|c r']; [done|].
      apply (seg_prev m _ v); [done|done|unfold nb; heap_lia|]. intros x Hx.
      pose proof (headers_bounds _ _ _ Hpr Hx). unfold m7, m6. rewrite set_next_hdr by heap_lia.
      apply ld8_st_cong. unfold m5, m4, nb. hdr_frame. done.
  - intros x H1 H2. unfold bs, bs' in *. rewrite headers_app in H1, H2. fold v in H1, H2. simpl in H1, H2.
    fold nb in H2. apply Hfar; [tauto|tauto|]. destruct r; [by left|]. right. simpl in H1. tauto.
Qed.

Lemma seg_mark m l n u u' r v :
  seg m 0 KERNEL_BRK_START (l ++ (n, u) :: r) 0 → v = KERNEL_BRK_START + span l →
  seg (set_in_use v (Z.b2z u') m) 0 KERNEL_BRK_START (l ++ (n, u') :: r) 0.
Proof.
  intros Hs ->. pose proof (seg_pos _ _ _ _ _ Hs) as Hpos.
  apply Forall_app in Hpos as [Hpl Hpr]. apply Forall_cons_1 in Hpr as [Hpn Hpr].
  apply seg_mid in Hs as (Hsl & _ & Hv & Hsr). apply seg_mid. simpl in *.
  split; [|split; [done|split]].
  - apply (seg_ext m); [done|]. intros x Hx%headers_bounds; [|done]. hdr_frame. done.
  - rewrite (block_set_in_use _ _ _ _ Hv) by (destruct u'; simpl; lia). done.
  - apply (seg_ext m); [done|]. intros x Hx%headers_bounds; [|done]. hdr_frame. done.
Qed.

Lemma mark_only_headers m l n u u' r v :
  v = KERNEL_BRK_START + span l →
  only_headers (l ++ (n, u) :: r) (l ++ (n, u') :: r) m (set_in_use v (Z.b2z u') m).
Proof.
  intros -> x H1 _. apply set_in_use_hdr. intros Hx. apply H1, headers_app. right. by left.
Qed.

Lemma headers_mark a l n u u' r x :
  headers a (l ++ (n, u) :: r) x ↔ headers a (l ++ (n, u') :: r) x.
Proof. by rewrite !headers_app. Qed.

(** Two states that differ only in the heap's memory. *)
Definition same_brk (s s' : heap) : Prop :=
  heap_base s' = heap_base s ∧ kernel_brk s' = kernel_brk s.

Definition carved (sz n : Z) : blocks :=
  if n - sz <=? sizeof_block then [(n, false)] else [(sz, false); (n - sz - sizeof_block, false)].

Lemma block_read m l n u r :
  seg m 0 KERNEL_BRK_START (l ++ (n, u) :: r) 0 →
  block_at m (KERNEL_BRK_START + span l) = Block n (Z.b2z u)
    (match r with [] => 0 | _ => KERNEL_BRK_START + span l + sizeof_block + n end)
    (last_block 0 KERNEL_BRK_START l).
Proof. by intros (_ & _ & H & _)%seg_mid. Qed.

(** Positions, sizes and the break are far from the bounds of a word. *)
Lemma seg_words l n u r :
  all_pos (l ++ (n, u) :: r) → KERNEL_BRK_START + span (l ++ (n, u) :: r) < KERNEL_BRK_LIMIT →
  0 ≤ span l ∧ 0 < n ∧ 0 ≤ span r ∧ KERNEL_BRK_START + span l + sizeof_block + n + span r < KERNEL_BRK_LIMIT.
Proof.
  intros [Hpl Hpr]%Forall_app Hlim. apply Forall_cons_1 in Hpr as [Hpn Hpr].
  rewrite span_app, span_cons in Hlim. simpl in *.
  pose proof (span_nonneg l Hpl). pose proof (span_nonneg r Hpr). lia.
Qed.

Lemma split_block_ok s l n r sz v :
  let bs := l ++ (n, false) :: r in
  seg (h_mem s) 0 KERNEL_BRK_START bs 0 → KERNEL_BRK_START + span bs < KERNEL_BRK_LIMIT →
  0 < sz → sz + sizeof_block ≤ n → v = KERNEL_BRK_START + span l →
  wp (split_block sz v) s (λ t s', t = v ∧ same_brk s s' ∧
    seg (h_mem s') 0 KERNEL_BRK_START (l ++ carved sz n ++ r) 0 ∧
    only_headers bs (l ++ carved sz n ++ r) (h_mem s) (h_mem s')).
Proof.
  intros bs Hs Hlim Hsz Hn Hv. unfold split_block, hread.
  destruct (seg_words l n false r (seg_pos _ _ _ _ _ Hs) Hlim) as (Hl0 & Hn0 & Hr0 & Hw).
  pose proof (block_read _ _ _ _ _ Hs) as Hb. rewrite <- Hv in Hb.
  wp_steps. rewrite Hb. cbn [size_]. rewrite w64_small by heap_lia. unfold carved.
  destruct (Z.leb_spec (n - sz) sizeof_block) as [Hle|Hgt].
  { wp_steps. done. }
  destruct (split_seg (h_mem s) l n r sz v Hs Hlim Hsz ltac:(lia) Hv) as [Hs' Ho'].
  rewrite (w64_small (v + sizeof_block + sz)), (w64_small (n - sz - sizeof_block)) by heap_lia.
  unfold hwrite. wp_steps. cbn [h_mem set_h_mem].
  assert (∀ m', (∀ x, in_hdr v x → ld8 m' x = ld8 (h_mem s) x) → next (block_at m' v) =
    match r with [] => 0 | _ => v + sizeof_block + n end) as Hnx.
  { intros m' Hm'. rewrite (block_ext _ _ _ Hm'), Hb. by rewrite Hv. }
  rewrite (Hnx (set_in_use _ _ _)) by (intros x Hx; hdr_frame; done).
  match goal with |- context [next (block_at (set_size v sz ?M) v)] => set (m4 := M) end.
  assert (next (block_at (set_size v sz m4) v) = match r with [] => 0 | _ => v + sizeof_block + n end) as ->.
  { rewrite (block_set_size v sz m4 _ eq_refl) by heap_lia. cbn [next]. apply Hnx.
    intros x Hx. unfold m4. hdr_frame. done. }
  destruct r as [|c r].
  - simpl. wp_steps. done.
  - destruct (Z.eqb_spec (v + sizeof_block + n) 0); [heap_lia|]. simpl. wp_steps. done.
Qed.

Lemma fits_eq sz n : fits sz (n, false) = true ↔ n = sz ∨ sz + sizeof_block ≤ n.
Proof. unfold fits. simpl. rewrite orb_true_iff, Z.eqb_eq, Z.leb_le. done. Qed.

(** What the search finds in the blocks [r] that follow [l]. *)
Definition found sz l r s (tp : Z * Z) s' : Prop :=
  same_brk s s' ∧
  ((tp = (0, last_block 0 KERNEL_BRK_START (l ++ r)) ∧ s' = s ∧ Forall (λ b, fits sz b = false) r) ∨
   (∃ r1 n r2, r = r1 ++ (n, false) :: r2 ∧ Forall (λ b, fits sz b = false) r1 ∧
      fits sz (n, false) = true ∧ tp.1 = KERNEL_BRK_START + span (l ++ r1) ∧
      seg (h_mem s') 0 KERNEL_BRK_START ((l ++ r1) ++ carved sz n ++ r2) 0 ∧
      only_headers (l ++ r) ((l ++ r1) ++ carved sz n ++ r2) (h_mem s) (h_mem s'))).

Lemma last_block_snoc p a l b : last_block p a (l ++ [b]) = a + span l.
Proof.
  revert p a. induction l as [|c l IH]; intros p a; simpl; [lia|]. rewrite IH. fold (span l). lia.
Qed.

Lemma found_cons sz l b r s tp s' :
  fits sz b = false → found sz (l ++ [b]) r s tp s' → found sz l (b :: r) s tp s'.
Proof.
  intros Hb [Hbrk [(-> & -> & Hf)|(r1 & n & r2 & -> & Hf & Hfit & Ht & Hs & Ho)]]; split; [done| |done|].
  - left. split; [by rewrite <- app_assoc|]. split; [done|by constructor].
  - right. exists (b :: r1), n, r2. rewrite <- !app_assoc in *. simpl in *.
    split_and!; try done. by constructor.
Qed.

Lemma kmalloc_loop_ok fuel sz l r s :
  seg (h_mem s) 0 KERNEL_BRK_START (l ++ r) 0 → KERNEL_BRK_START + span (l ++ r) < KERNEL_BRK_LIMIT →
  0 < sz → sz + sizeof_block < 2 ^ 64 → (length r < fuel)%nat →
  wp (kmalloc_loop fuel sz (last_block 0 KERNEL_BRK_START l)
        (match r with [] => 0 | _ => KERNEL_BRK_START + span l end)) s (found sz l r s).
Proof.
  revert l r. induction fuel as [|fuel IH]; intros l r Hs Hlim Hsz Hmax Hf; [lia|].
  cbn [kmalloc_loop]. destruct r as [|[n u] r].
  { simpl. wp_steps. split; [done|]. left. by rewrite app_nil_r. }
  destruct (seg_words l n u r (seg_pos _ _ _ _ _ Hs) Hlim) as (Hl0 & Hn0 & Hr0 & Hw).
  destruct (Z.eqb_spec (KERNEL_BRK_START + span l) 0); [heap_lia|].
  unfold hread. wp_steps. rewrite (block_read _ _ _ _ _ Hs). cbn [size_ in_use next].
  assert (fits sz (n, u) = false → wp (kmalloc_loop fuel sz (KERNEL_BRK_START + span l)
      match r with [] => 0 | _ => KERNEL_BRK_START + span l + sizeof_block + n end) s
      (found sz l ((n, u) :: r) s)) as Hnext.
  { intros Hfit. eapply wp_mono; [|intros tp s'; by apply found_cons].
    replace (KERNEL_BRK_START + span l + sizeof_block + n)
      with (KERNEL_BRK_START + span (l ++ [(n, u)])) by (rewrite span_app, span_cons; simpl; lia).
    rewrite <- (last_block_snoc 0 KERNEL_BRK_START l (n, u)).
    apply IH; rewrite <- ?app_assoc; try done. simpl in Hf. lia. }
  destruct u; simpl; [by apply Hnext|].
  destruct (Z.eqb_spec n sz) as [->|Hne].
  { wp_steps. split; [done|]. right. exists [], sz, r. rewrite app_nil_r. unfold carved.
    rewrite Z.sub_diag. split_and!; try done. apply fits_eq. by left. }
  rewrite w64_small by (unfold sizeof_block in *; lia).
  destruct (Z.leb_spec (sz + sizeof_block) n) as [Hle|Hgt].
  - wp_steps. eapply wp_mono; [by apply (split_block_ok s l n r sz)|].
    intros t s' (-> & Hbrk & Hs' & Ho'). wp_steps. split; [done|]. right. exists [], n, r.
    rewrite app_nil_r. split_and!; try done. apply fits_eq. by right.
  - apply Hnext. unfold fits. simpl. apply orb_false_iff. split; [by apply Z.eqb_neq|].
    apply Z.leb_gt. lia.
Qed.

Lemma first_fit_found sz r1 n r2 off :
  Forall (λ b, fits sz b = false) r1 → fits sz (n, false) = true →
  first_fit sz (r1 ++ (n, false) :: r2) off = (r1 ++ carve sz n ++ r2, off + span r1).
Proof.
  intros Hf Hfit. revert off. induction Hf as [|b r1 Hb Hf IH]; intros off; simpl.
  - rewrite Hfit. by rewrite Z.add_0_r.
  - rewrite Hb, IH. simpl. fold (span r1). f_equal. lia.
Qed.

Lemma first_fit_none sz bs off :
  Forall (λ b, fits sz b = false) bs → first_fit sz bs off = (bs ++ [(sz, true)], off + span bs).
Proof.
  intros Hf. revert off. induction Hf as [|b r1 Hb Hf IH]; intros off; simpl.
  - by rewrite Z.add_0_r.
  - rewrite Hb, IH. simpl. fold (span r1). f_equal. lia.
Qed.

(** No two free blocks are neighbours across a join. *)
Lemma no_adjacent_app l r :
  no_adjacent_free (l ++ r) ↔ no_adjacent_free l ∧ no_adjacent_free r ∧
    (∀ b c, list.last l = Some b → list.head r = Some c → b.2 || c.2 = true).
Proof.
  induction l as [|[n u] l IH].
  { simpl. split; [|tauto]. intros H. split_and!; done. }
  destruct l as [|[n' u'] l].
  - simpl. destruct u; simpl.
    + split; [|tauto]. intros H. split_and!; try done. by intros b c [= <-] _.
    + destruct r as [|[n2 [|]] r]; simpl; split; try tauto.
      * intros H. split_and!; done.
      * intros H. split_and!; try done. intros b c [= <-] [= <-]. done.
      * intros (_ & _ & H). by specialize (H _ _ eq_refl eq_refl).
  - change (list.last ((n, u) :: (n', u') :: l)) with (list.last ((n', u') :: l)).
    destruct u; [exact IH|]. destruct u'; [exact IH|].
    simpl. split; [done|by intros []].
Qed.

Lemma no_adjacent_carve sz l n r :
  no_adjacent_free (l ++ (n, false) :: r) → no_adjacent_free (l ++ carve sz n ++ r).
Proof.
  intros (Hl & Hr & Hj)%no_adjacent_app. apply no_adjacent_app. split; [done|].
  unfold carve. split.
  - destruct (n - sz <=? sizeof_block); simpl in *; destruct r as [|[n' [|]] r]; simpl in *; done.
  - intros b c Hb Hc. destruct (n - sz <=? sizeof_block); simpl in Hc; injection Hc as <-;
      by destruct b as [? []].
Qed.

Lemma no_adjacent_mark l n r :
  no_adjacent_free (l ++ (n, false) :: r) → no_adjacent_free (l ++ (n, true) :: r).
Proof.
  intros (Hl & Hr & Hj)%no_adjacent_app. apply no_adjacent_app. split; [done|]. split.
  - simpl in *. destruct r as [|[n' [|]] r]; simpl in *; done.
  - intros b c _ [= <-]. apply orb_true_r.
Qed.

Lemma no_adjacent_extend bs sz : no_adjacent_free bs → no_adjacent_free (bs ++ [(sz, true)]).
Proof.
  intros H. apply no_adjacent_app. split; [done|]. split; [done|]. intros b c _ [= <-].
  apply orb_true_r.
Qed.

(** The block that [sbrk] made room for. *)
Lemma seg_extend m bs sz e p :
  seg m 0 KERNEL_BRK_START bs 0 → bs ≠ [] → e = KERNEL_BRK_START + span bs →
  p = last_block 0 KERNEL_BRK_START bs → 0 < sz → e + sizeof_block + sz < KERNEL_BRK_LIMIT →
  let m' := set_next p e (set_prev e p (set_next e 0 (set_in_use e 1 (set_size e sz m)))) in
  seg m' 0 KERNEL_BRK_START (bs ++ [(sz, true)]) 0 ∧ only_headers bs (bs ++ [(sz, true)]) m m'.
Proof.
  intros Hs Hne -> -> Hsz Hlim m'. pose proof (seg_pos _ _ _ _ _ Hs) as Hpos.
  pose proof (span_nonneg bs Hpos) as H0. pose proof (last_block_bounds 0 KERNEL_BRK_START bs Hpos Hne).
  split.
  - apply seg_snoc. simpl. split; [|split; [done|]].
    + apply (seg_next m _ _ _ _ 0); [done|done|heap_lia|]. intros x Hx%headers_bounds; [|done].
      apply ld8_st_cong. hdr_frame. done.
    + erewrite block_at_far; [done| |apply (block_new _ sz 1 0 (last_block 0 KERNEL_BRK_START bs) m); heap_lia].
      intros x Hx. unfold m'. hdr_frame. done.
  - intros x H1 H2. rewrite headers_app in H2. simpl in H2.
    assert (¬ in_hdr (last_block 0 KERNEL_BRK_START bs) x) as H3.
    { destruct bs as [|b l _] using rev_ind; [done|]. rewrite last_block_snoc. intros Hx.
      apply H1, headers_app. right. by left. }
    unfold m'. rewrite set_next_hdr, set_prev_hdr, set_next_hdr, set_in_use_hdr, set_size_hdr by tauto. done.
Qed.

Lemma heap_length s bs : heap_ok s bs → (length bs < heap_fuel)%nat.
Proof.
  intros [_ _ Hs Hb Hl _]. pose proof (span_length bs (seg_pos _ _ _ _ _ Hs)).
  unfold heap_fuel. heap_lia.
Qed.

#[local] Opaque heap_fuel.

Lemma heap_lim s bs : heap_ok s bs → KERNEL_BRK_START + span bs < KERNEL_BRK_LIMIT.
Proof. intros [_ _ _ <- ? _]. done. Qed.

Lemma carved_head sz n : ∃ c rest, carved sz n = (c, false) :: rest ∧ carve sz n = (c, true) :: rest.
Proof. unfold carve, carved. destruct (n - sz <=? sizeof_block); eauto. Qed.

Lemma span_carve sz n : span (carve sz n) = sizeof_block + n.
Proof. unfold carve. destruct (n - sz <=? sizeof_block); simpl; lia. Qed.

Lemma only_headers_trans bs1 bs2 bs3 m1 m2 m3 :
  only_headers bs1 bs2 m1 m2 → only_headers bs2 bs3 m2 m3 →
  (∀ x, headers KERNEL_BRK_START bs2 x → headers KERNEL_BRK_START bs1 x ∨ headers KERNEL_BRK_START bs3 x) →
  only_headers bs1 bs3 m1 m3.
Proof. intros H1 H2 Hs x Hx1 Hx3. rewrite H2, H1; [done|done| |..|done]; intros ?%Hs; tauto. Qed.

(** [sbrk] grows the heap while there is room. *)
Lemma sbrk_ok s inc Q :
  KERNEL_BRK_START ≤ kernel_brk s → 0 < inc → kernel_brk s + inc < KERNEL_BRK_LIMIT →
  Q (kernel_brk s) (set_kernel_brk s (kernel_brk s + inc)) → wp (sbrk inc) s Q.
Proof.
  intros H0 Hi Hl HQ. unfold sbrk. destruct (Z.eqb_spec inc 0); [lia|].
  wp_steps. cbn [kernel_brk set_kernel_brk]. rewrite w64_small by heap_lia.
  destruct (Z.ltb_spec (kernel_brk s + inc) KERNEL_BRK_START); [lia|].
  destruct (Z.leb_spec KERNEL_BRK_LIMIT (kernel_brk s + inc)); [lia|].
  wp_steps. by replace (w64 (kernel_brk s + inc - inc)) with (kernel_brk s) by (rewrite w64_small; heap_lia).
Qed.

Definition kmalloc_post sz bs s (p : Z) s' : Prop :=
  let bs' := (first_fit sz bs 0).1 in
  p = KERNEL_BRK_START + (first_fit sz bs 0).2 + sizeof_block ∧
  heap_ok s' bs' ∧ only_headers bs bs' (h_mem s) (h_mem s').

Lemma kmalloc_taken s s1 r1 n r2 sz :
  heap_ok s (r1 ++ (n, false) :: r2) → Forall (λ b, fits sz b = false) r1 →
  fits sz (n, false) = true → same_brk s s1 →
  seg (h_mem s1) 0 KERNEL_BRK_START (r1 ++ carved sz n ++ r2) 0 →
  only_headers (r1 ++ (n, false) :: r2) (r1 ++ carved sz n ++ r2) (h_mem s) (h_mem s1) →
  kmalloc_post sz (r1 ++ (n, false) :: r2) s (KERNEL_BRK_START + span r1 + sizeof_block)
    (set_h_mem s1 (set_in_use (KERNEL_BRK_START + span r1) 1 (h_mem s1))).
Proof.
  intros [Hb Hne Hs Hk Hl Ha] Hf Hfit [Hb1 Hk1] Hs1 Ho1.
  unfold kmalloc_post. rewrite (first_fit_found sz r1 n r2) by done. simpl.
  destruct (carved_head sz n) as (c & rest & Hc & Hc'). rewrite Hc in Hs1, Ho1. rewrite Hc'.
  split; [done|]. split.
  - split; simpl.
    + congruence.
    + by destruct r1.
    + apply (seg_mark _ r1 c false true (rest ++ r2)); done.
    + rewrite Hk1, Hk, !span_app, !span_cons. pose proof (span_carve sz n) as Hspan.
      rewrite Hc', span_cons in Hspan. rewrite span_app. simpl in *. lia.
    + by rewrite Hk1.
    + apply (no_adjacent_carve sz) in Ha. by rewrite Hc' in Ha.
  - simpl. eapply only_headers_trans; [exact Ho1|by apply (mark_only_headers _ r1 c false true (rest ++ r2))|].
    intros x Hx. right. by apply (headers_mark _ r1 c false true (rest ++ r2)).
Qed.

Lemma kmalloc_ok s bs sz :
  heap_ok s bs → 0 < sz → KERNEL_BRK_START + span (first_fit sz bs 0).1 < KERNEL_BRK_LIMIT →
  wp (kmalloc sz) s (kmalloc_post sz bs s).
Proof.
  intros Hok Hsz Hfitlim. pose proof Hok as [Hb Hne Hs Hk Hl Ha].
  pose proof (span_nonneg bs (seg_pos _ _ _ _ _ Hs)) as Hsp.
  assert (sz + sizeof_block < KERNEL_BRK_LIMIT - KERNEL_BRK_START) as Hmax.
  { destruct (Forall_Exists_dec (λ b, fits sz b = false) (λ b, ltac:(solve_decision)) bs) as [Hf|Hf].
    - rewrite first_fit_none in Hfitlim by done. simpl in Hfitlim.
      rewrite span_app, span_cons in Hfitlim. simpl in Hfitlim. lia.
    - apply Exists_exists in Hf as ([k u] & Hin & Hfit). destruct u; [done|].
      assert (fits sz (k, false) = true) as [->|Hle]%fits_eq by (by destruct (fits sz (k, false)));
        apply List.in_split in Hin as (l & r & ->);
        destruct (seg_words l _ _ r (seg_pos _ _ _ _ _ Hs) (heap_lim _ _ Hok)) as (?&?&?&?); heap_lia. }
  unfold kmalloc. destruct (Z.eqb_spec sz 0); [lia|]. wp_steps. rewrite Hb.
  pose proof (kmalloc_loop_ok heap_fuel sz [] bs s Hs (heap_lim _ _ Hok) Hsz ltac:(heap_lia)
    (heap_length _ _ Hok)) as Hloop.
  replace (match bs with [] => 0 | _ => KERNEL_BRK_START + span [] end) with KERNEL_BRK_START in Hloop
    by (destruct bs; [done|simpl; by rewrite Z.add_0_r]).
  eapply wp_mono; [exact Hloop|].
  intros [t p] s1 [Hbrk [([= -> ->] & -> & Hf)|(r1 & nb & r2 & -> & Hf & Hfit & Ht & Hs1 & Ho1)]].
  - simpl app. rewrite Z.eqb_refl. unfold hwrite. apply wp_bind, wp_bind.
    rewrite first_fit_none in Hfitlim by done. simpl in Hfitlim.
    rewrite span_app, span_cons in Hfitlim. simpl in Hfitlim.
    rewrite w64_small, s64_small by heap_lia. apply sbrk_ok; [heap_lia..|]. wp_steps.
    destruct (last_block_bounds 0 KERNEL_BRK_START bs (seg_pos _ _ _ _ _ Hs) Hne).
    destruct (Z.eqb_spec (last_block 0 KERNEL_BRK_START bs) 0); [heap_lia|]. wp_steps. cbn [h_mem set_h_mem set_kernel_brk].
    destruct (seg_extend (h_mem s) bs sz (kernel_brk s) (last_block 0 KERNEL_BRK_START bs)
      Hs Hne Hk eq_refl Hsz ltac:(heap_lia)) as [Hs' Ho'].
    unfold kmalloc_post. rewrite first_fit_none by done. simpl.
    split; [rewrite w64_small; heap_lia|]. split.
    + split; simpl; [done|by destruct bs| |rewrite span_app, span_cons; simpl; heap_lia|heap_lia|by apply no_adjacent_extend].
      by apply (seg_mark _ bs sz true true []).
    + eapply only_headers_trans; [exact Ho'| |intros x Hx; right; exact Hx].
      by apply (mark_only_headers _ bs sz true true []).
  - simpl in Ht, Hs1, Ho1. subst t.
    destruct (seg_words r1 nb false r2 (seg_pos _ _ _ _ _ Hs) (heap_lim _ _ Hok)) as (?&?&?&?).
    destruct (Z.eqb_spec (KERNEL_BRK_START + span r1) 0); [heap_lia|].
    unfold hwrite. wp_steps. cbn [h_mem set_h_mem]. rewrite w64_small by heap_lia.
    by apply kmalloc_taken.
Qed.

(** ** Coalescing *)

(** Swallowing the next block: the three writes that both halves of [free] do. *)
Lemma merge_seg m l n1 u n2 v r a nnx :
  let bs := l ++ (n1, u) :: (n2, v) :: r in
  seg m 0 KERNEL_BRK_START bs 0 → KERNEL_BRK_START + span bs < KERNEL_BRK_LIMIT →
  a = KERNEL_BRK_START + span l →
  nnx = (match r with [] => 0 | _ => a + sizeof_block + n1 + sizeof_block + n2 end) →
  let m1 := set_next a nnx (set_size a (n1 + n2 + sizeof_block) m) in
  let m2 := if negb (nnx =? 0) then set_prev nnx a m1 else m1 in
  let bs' := l ++ (n1 + n2 + sizeof_block, u) :: r in
  seg m2 0 KERNEL_BRK_START bs' 0 ∧ only_headers bs bs' m m2.
Proof.
  intros bs Hs Hlim -> Hnnx m1 m2 bs'. pose proof (seg_pos _ _ _ _ _ Hs) as Hpos.
  destruct (seg_words l n1 u _ Hpos Hlim) as (Hl0 & Hn1 & _ & Hw). rewrite span_cons in Hw. simpl in Hw.
  apply Forall_app in Hpos as [Hpl Hpr]. apply Forall_cons_1 in Hpr as [_ Hpr].
  apply Forall_cons_1 in Hpr as [Hn2 Hpr]. simpl in Hn2. pose proof (span_nonneg r Hpr) as Hr0.
  apply seg_mid in Hs as (Hsl & _ & Ha & Hsr). simpl in Ha, Hsr. destruct Hsr as (_ & Hb & Hsr).
  set (a := KERNEL_BRK_START + span l) in *.
  assert (∀ x, ¬ in_hdr a x → (r = [] ∨ ¬ in_hdr nnx x) → ld8 m2 x = ld8 m x) as Hfar.
  { intros x H1 H2. assert (ld8 m1 x = ld8 m x) as Hm1
      by (unfold m1; by rewrite set_next_hdr, set_size_hdr by done).
    unfold m2. destruct r as [|c r'].
    - by subst nnx.
    - destruct H2 as [?|H2]; [done|]. destruct (negb (nnx =? 0)); [|done].
      by rewrite set_prev_hdr by done. }
  assert (r = [] ∨ nnx = a + sizeof_block + n1 + sizeof_block + n2) as Hx by (destruct r; auto).
  split.
  - apply seg_mid. fold a. simpl. split; [|split; [heap_lia|split]].
    + apply (seg_ext m); [done|]. intros x Hx'%headers_bounds; [|done].
      apply Hfar; [|destruct Hx as [?|Hx]; [by left|right]]; unfold a in *; heap_lia.
    + assert (block_at m1 a = Block (n1 + n2 + sizeof_block) (Z.b2z u) nnx (last_block 0 KERNEL_BRK_START l)) as Hm1.
      { unfold m1. rewrite (block_set_next a nnx _ _ (block_set_size a (n1 + n2 + sizeof_block) m _ Ha ltac:(unfold a in *; heap_lia)));
          [done|]. destruct Hx as [->|Hx]; [by subst nnx|unfold a in *; heap_lia]. }
      destruct r as [|c r']; [by subst nnx|]. destruct Hx as [|Hx]; [done|].
      unfold m2. destruct (Z.eqb_spec nnx 0); [unfold a in *; heap_lia|]. simpl.
      rewrite (block_ext m1) by (intros x Hx'; apply set_prev_hdr; heap_lia).
      rewrite Hm1, Hx. f_equal. lia.
    + destruct r as [|c r']; [done|]. destruct Hx as [|Hx]; [done|].
      replace (a + sizeof_block + (n1 + n2 + sizeof_block)) with nnx by lia.
      rewrite <- Hx in Hsr. apply (seg_prev m m2 _ a nnx _ 0 Hsr); [done|unfold a in *; heap_lia|].
      intros x Hx'%headers_bounds; [|done]. unfold m2. destruct (Z.eqb_spec nnx 0); [unfold a in *; heap_lia|].
      simpl. apply ld8_st_cong. unfold m1. hdr_frame. done.
  - intros x H1 _. unfold bs in H1. rewrite headers_app in H1. fold a in H1. simpl in H1.
    apply Hfar; [tauto|]. destruct r; [by left|]. right. destruct Hx as [|Hx]; [done|].
    rewrite Hx. simpl in H1. tauto.
Qed.

Lemma cons_free_spec n r :
  (∃ n2 r2, r = (n2, false) :: r2 ∧ cons_free n r = (n + n2 + sizeof_block, false) :: r2) ∨
  (cons_free n r = (n, false) :: r ∧ (r = [] ∨ ∃ n2 r2, r = (n2, true) :: r2)).
Proof. destruct r as [|[n2 [|]] r2]; simpl; eauto 10. Qed.

Lemma release_free l n0 n r :
  release (l ++ [(n0, false)]) n r = l ++ cons_free (n0 + n + sizeof_block) r.
Proof.
  induction l as [|[k u] l IH]; [done|]. simpl. rewrite <- IH.
  destruct u; [done|]. by destruct l as [|[? []] ?].
Qed.

Lemma release_used l n r :
  (l = [] ∨ ∃ l0 n0, l = l0 ++ [(n0, true)]) → release l n r = l ++ cons_free n r.
Proof.
  intros [->|(l0 & n0 & ->)]; [done|]. rewrite <- app_assoc. simpl.
  induction l0 as [|[k u] l0 IH]; [done|]. simpl. rewrite <- IH.
  destruct u; [done|]. by destruct l0 as [|[? []] ?].
Qed.

Lemma coalesce_forward_ok s l k r a :
  let bs := l ++ (k, false) :: r in
  seg (h_mem s) 0 KERNEL_BRK_START bs 0 → KERNEL_BRK_START + span bs < KERNEL_BRK_LIMIT →
  a = KERNEL_BRK_START + span l →
  wp (coalesce_forward a) s (λ _ s', same_brk s s' ∧
    seg (h_mem s') 0 KERNEL_BRK_START (l ++ cons_free k r) 0 ∧
    only_headers bs (l ++ cons_free k r) (h_mem s) (h_mem s')).
Proof.
  intros bs Hs Hlim ->. unfold coalesce_forward, hread, hwrite. wp_steps.
  rewrite (block_read _ _ _ _ _ Hs). cbn [next]. set (a := KERNEL_BRK_START + span l).
  destruct (seg_words l k false r (seg_pos _ _ _ _ _ Hs) Hlim) as (Hl0 & Hk0 & Hr0 & Hw).
  destruct (cons_free_spec k r) as [(n2 & r2 & Hr & ->)|[-> Hr]].
  - pose proof (seg_pos _ _ _ _ _ Hs) as Hpos. unfold bs in *. rewrite Hr in *. clear Hr.
    rewrite span_cons in Hw. simpl in Hw.
    apply Forall_app in Hpos as [_ Hpos]. do 2 apply Forall_cons_1 in Hpos as [? Hpos].
    pose proof (span_nonneg r2 Hpos). cbn [fst] in *.
    assert (block_at (h_mem s) (a + sizeof_block + k) = Block n2 0
      (match r2 with [] => 0 | _ => a + sizeof_block + k + sizeof_block + n2 end) a) as Hb.
    { apply seg_mid in Hs as (_ & _ & _ & Hs). simpl in Hs. apply Hs. }
    cbv iota. rewrite Hb. cbn [in_use]. destruct (Z.eqb_spec (a + sizeof_block + k) 0); [unfold a in *; heap_lia|].
    cbn [negb andb]. rewrite Z.eqb_refl. wp_steps. cbn [h_mem set_h_mem].
    pose proof (block_read _ _ _ _ _ Hs) as Ha. fold a in Ha. rewrite Ha, Hb. cbn [size_ next].
    rewrite w64_small by heap_lia.
    assert (next (block_at (set_size a (k + n2 + sizeof_block) (h_mem s)) (a + sizeof_block + k)) =
      match r2 with [] => 0 | _ => a + sizeof_block + k + sizeof_block + n2 end) as ->.
    { rewrite (block_ext (h_mem s)) by (intros x Hx; hdr_frame; done). by rewrite Hb. }
    destruct (merge_seg (h_mem s) l k false n2 false r2 a _ Hs Hlim eq_refl eq_refl) as [Hs' Ho'].
    destruct (negb _); wp_steps; done.
  - assert (negb (match r with [] => 0 | _ => a + sizeof_block + k end =? 0) &&
      (in_use (block_at (h_mem s) match r with [] => 0 | _ => a + sizeof_block + k end) =? 0) = false) as ->.
    { destruct Hr as [->|(n2 & r2 & ->)]; [done|].
      apply seg_mid in Hs as (_ & _ & _ & Hs). simpl in Hs. destruct Hs as (_ & Hb & _).
      fold a in Hb. rewrite Hb. simpl. apply andb_false_r. }
    wp_steps. done.
Qed.

Lemma no_adjacent_unmark l n r :
  (l = [] ∨ ∃ l0 n0, l = l0 ++ [(n0, true)]) → (r = [] ∨ ∃ n2 r2, r = (n2, true) :: r2) →
  no_adjacent_free l → no_adjacent_free r → no_adjacent_free (l ++ (n, false) :: r).
Proof.
  intros Hl Hr Hal Har. apply no_adjacent_app. split; [done|]. split.
  - destruct Hr as [->|(n2 & r2 & ->)]; done.
  - intros b c Hb _. destruct Hl as [->|(l0 & n0 & ->)]; [done|].
    rewrite last_snoc in Hb. by injection Hb as <-.
Qed.

Lemma coalesce_back_ok s l n r a :
  let bs := l ++ (n, false) :: r in
  seg (h_mem s) 0 KERNEL_BRK_START bs 0 → KERNEL_BRK_START + span bs < KERNEL_BRK_LIMIT →
  a = KERNEL_BRK_START + span l →
  wp (coalesce_back a) s (λ b s', same_brk s s' ∧ ∃ l' k,
    b = KERNEL_BRK_START + span l' ∧
    ((l' = l ∧ k = n ∧ (l = [] ∨ ∃ l0 n0, l = l0 ++ [(n0, true)])) ∨
     (∃ n0, l = l' ++ [(n0, false)] ∧ k = n0 + n + sizeof_block)) ∧
    seg (h_mem s') 0 KERNEL_BRK_START (l' ++ (k, false) :: r) 0 ∧
    only_headers bs (l' ++ (k, false) :: r) (h_mem s) (h_mem s')).
Proof.
  intros bs Hs Hlim ->. unfold coalesce_back, hread, hwrite. wp_steps.
  pose proof (block_read _ _ _ _ _ Hs) as Ha. set (a := KERNEL_BRK_START + span l) in *.
  rewrite Ha. cbn [prev]. destruct l as [|[n0 u0] l0 _] using rev_ind.
  { simpl. wp_steps. split; [done|]. exists [], n. split; [done|]. split; [left; auto|done]. }
  rewrite last_block_snoc in *. unfold bs in *. rewrite <- app_assoc in Hs, Hlim. simpl in Hs, Hlim.
  destruct (seg_words l0 n0 u0 _ (seg_pos _ _ _ _ _ Hs) Hlim) as (Hl0 & Hn0 & _ & Hw).
  rewrite span_cons in Hw. cbn [fst] in Hw.
  pose proof (block_read _ _ _ _ _ Hs) as Hb. rewrite Hb. cbn [in_use].
  assert (a = KERNEL_BRK_START + span l0 + sizeof_block + n0) as Hap
    by (unfold a; rewrite span_app, span_cons; simpl; lia).
  destruct (Z.eqb_spec (KERNEL_BRK_START + span l0) 0); [heap_lia|]. cbn [negb andb].
  destruct u0; simpl (Z.b2z _ =? 0); cbn [negb andb].
  { wp_steps. split; [done|]. exists (l0 ++ [(n0, true)]), n. split; [done|].
    split; [left; eauto 10|]. rewrite <- !app_assoc. simpl. split; [done|]. by intros x. }
  wp_steps. cbn [h_mem set_h_mem]. rewrite Ha, Hb. cbn [size_ next].
  assert (0 ≤ span r ∧ 0 < n) as [Hr0 Hn].
  { pose proof (seg_pos _ _ _ _ _ Hs) as Hpos. apply Forall_app in Hpos as [_ Hpos].
    do 2 apply Forall_cons_1 in Hpos as [? Hpos]. split; [by apply span_nonneg|done]. }
  rewrite w64_small by heap_lia.
  assert (next (block_at (set_size (KERNEL_BRK_START + span l0) (n0 + n + sizeof_block) (h_mem s)) a) =
    match r with [] => 0 | _ => a + sizeof_block + n end) as ->.
  { rewrite (block_ext (h_mem s)) by (intros x Hx; hdr_frame; done). by rewrite Ha. }
  destruct (merge_seg (h_mem s) l0 n0 false n false r (KERNEL_BRK_START + span l0)
    (match r with [] => 0 | _ => a + sizeof_block + n end) Hs Hlim eq_refl) as [Hs' Ho'];
    [by rewrite Hap|].
  destruct (negb _); wp_steps; (split; [done|]; exists l0, (n0 + n + sizeof_block); split; [done|];
    split; [right; by exists n0|]; rewrite <- app_assoc; done).
Qed.

Definition free_post l n r s s' : Prop :=
  heap_ok s' (release l n r) ∧
  only_headers (l ++ (n, true) :: r) (release l n r) (h_mem s) (h_mem s').

Lemma headers_join l n1 u n2 v w r x :
  headers KERNEL_BRK_START (l ++ (n1 + n2 + sizeof_block, w) :: r) x →
  headers KERNEL_BRK_START (l ++ (n1, u) :: (n2, v) :: r) x.
Proof.
  rewrite !headers_app. simpl.
  replace (KERNEL_BRK_START + span l + sizeof_block + (n1 + n2 + sizeof_block))
    with (KERNEL_BRK_START + span l + sizeof_block + n1 + sizeof_block + n2) by lia. tauto.
Qed.

Lemma span_cons_free k r : span (cons_free k r) = sizeof_block + k + span r.
Proof. destruct r as [|[n2 [|]] r2]; simpl; unfold span; simpl; lia. Qed.

Lemma release_span l n r : span (release l n r) = span (l ++ (n, true) :: r).
Proof.
  destruct l as [|[n0 [|]] l0 _] using rev_ind.
  - simpl. by rewrite span_cons_free.
  - rewrite release_used by eauto. rewrite !span_app, span_cons_free, span_cons. simpl. lia.
  - rewrite release_free, !span_app, span_cons_free, !span_cons. change (span []) with 0. cbn [fst]. lia.
Qed.

Lemma no_adjacent_release l n r :
  no_adjacent_free (l ++ (n, true) :: r) → no_adjacent_free (release l n r).
Proof.
  intros (Hl & Hr & _)%no_adjacent_app.
  assert (no_adjacent_free r) as Hr' by done. clear Hr.
  assert (∀ l1 k, no_adjacent_free l1 → (l1 = [] ∨ ∃ l0 n0, l1 = l0 ++ [(n0, true)]) →
    no_adjacent_free (l1 ++ cons_free k r)) as Hmain.
  { intros l1 k Hl1 He. destruct (cons_free_spec k r) as [(n2 & r2 & -> & ->)|[-> Hr]].
    - apply no_adjacent_unmark; [done| |done|].
      + destruct r2 as [|[n3 [|]] r2]; [by left|right; eauto|done].
      + by destruct r2 as [|[n3 [|]] r2].
    - by apply no_adjacent_unmark. }
  destruct l as [|[n0 [|]] l0 _] using rev_ind.
  - rewrite release_used by by left. apply Hmain; [done|by left].
  - rewrite release_used by eauto. apply Hmain; eauto.
  - rewrite release_free. apply no_adjacent_app in Hl as (Hl & _ & Hj). apply Hmain; [done|].
    destruct l0 as [|[n1 [|]] l0 _] using rev_ind; [by left|eauto|].
    specialize (Hj (n1, false) (n0, false)). rewrite last_snoc in Hj. by specialize (Hj eq_refl eq_refl).
Qed.

Lemma free_ok s l n r :
  heap_ok s (l ++ (n, true) :: r) →
  wp (free (KERNEL_BRK_START + span l + sizeof_block)) s (λ _ s', free_post l n r s s').
Proof.
  intros Hok. pose proof Hok as [Hb Hne Hs Hk Hl Ha].
  destruct (seg_words l n true r (seg_pos _ _ _ _ _ Hs) (heap_lim _ _ Hok)) as (Hl0 & Hn0 & Hr0 & Hw).
  unfold free. rewrite w64_small by heap_lia.
  replace (KERNEL_BRK_START + span l + sizeof_block - sizeof_block) with (KERNEL_BRK_START + span l) by lia.
  set (a := KERNEL_BRK_START + span l). unfold hwrite at 1. wp_steps.
  set (s1 := set_h_mem s (set_in_use a 0 (h_mem s))).
  pose proof (seg_mark (h_mem s) l n true false r a Hs eq_refl) as Hs1.
  pose proof (mark_only_headers (h_mem s) l n true false r a eq_refl) as Ho1.
  assert (KERNEL_BRK_START + span (l ++ (n, false) :: r) < KERNEL_BRK_LIMIT) as Hlim
    by (rewrite span_app, span_cons; simpl; lia).
  eapply wp_mono; [by apply (coalesce_back_ok s1 l n r a)|].
  intros b s2 (Hbrk2 & l' & k & -> & Hcase & Hs2 & Ho2).
  assert (span (l' ++ (k, false) :: r) = span (l ++ (n, false) :: r)) as Hspan.
  { destruct Hcase as [(-> & -> & _)|(n0 & -> & ->)]; rewrite !span_app, !span_cons; simpl; [done|].
    change (span []) with 0. lia. }
  eapply wp_mono; [apply (coalesce_forward_ok s2 l' k r); [done|by rewrite Hspan|done]|].
  intros [] s3 ([Hb3 Hk3] & Hs3 & Ho3). destruct Hbrk2 as [Hb2 Hk2].
  assert (release l n r = l' ++ cons_free k r) as Hrel.
  { destruct Hcase as [(-> & -> & He)|(n0 & -> & ->)]; [by apply release_used|apply release_free]. }
  split.
  - split; rewrite ?Hrel; try done.
    + by rewrite Hb3, Hb2.
    + intros Hn. apply app_nil in Hn as [_ Hn]. by destruct r as [|[? []] ?].
    + rewrite Hk3, Hk2, <- Hrel, release_span. simpl. done.
    + by rewrite Hk3, Hk2.
    + rewrite <- Hrel. by apply no_adjacent_release.
  - rewrite Hrel. intros x H1 H3.
    assert (¬ headers KERNEL_BRK_START (l ++ (n, false) :: r) x) as H1'
      by (rewrite (headers_mark _ l n false true r); done).
    assert (¬ headers KERNEL_BRK_START (l' ++ (k, false) :: r) x) as H2.
    { intros Hx. apply H1'. destruct Hcase as [(-> & -> & _)|(n0 & -> & ->)]; [done|].
      rewrite <- app_assoc. simpl. by eapply headers_join. }
    rewrite (Ho3 x), (Ho2 x) by done. simpl. by apply Ho1.
Qed.
End ops.

(** ** What the clients see: the blocks in use *)
Fixpoint live_blocks (a : Z) (bs : blocks) : list (Z * Z) :=
  match bs with
  | [] => []
  | b :: r => (if b.2 then [(a + sizeof_block, b.1)] else []) ++ live_blocks (a + sizeof_block + b.1) r
  end.
Definition live (bs : blocks) : list (Z * Z) := live_blocks KERNEL_BRK_START bs.

(** The bytes of a block in use. *)
Definition payload (b : Z * Z) (x : Z) : Prop := b.1 ≤ x < b.1 + b.2.

Section live.
Implicit Types (s : heap) (bs l r : blocks).

Lemma live_blocks_app a l r : live_blocks a (l ++ r) = live_blocks a l ++ live_blocks (a + span l) r.
Proof.
  revert a. induction l as [|b l IH]; intros a; simpl; [by rewrite Z.add_0_r|].
  rewrite IH, <- app_assoc. fold (span l). do 3 f_equal. lia.
Qed.

Lemma live_bounds a bs b : all_pos bs → b ∈ live_blocks a bs →
  a + sizeof_block ≤ b.1 ∧ 0 < b.2 ∧ b.1 + b.2 ≤ a + span bs.
Proof.
  intros Hp. revert a. induction Hp as [|[n u] bs Hn Hp IH]; intros a; simpl.
  - by intros ?%not_elem_of_nil.
  - fold (span bs). pose proof (span_nonneg bs Hp). unfold sizeof_block in *. simpl in Hn.
    intros [Hb|Hb]%elem_of_app.
    + destruct u; [|by apply not_elem_of_nil in Hb]. apply list_elem_of_singleton in Hb as ->. simpl. lia.
    + destruct (IH _ Hb). simpl in *. lia.
Qed.

Lemma live_not_header a bs b x :
  all_pos bs → b ∈ live_blocks a bs → payload b x → ¬ headers a bs x.
Proof.
  unfold payload. intros Hp. revert a. induction Hp as [|[n u] bs Hn Hp IH]; intros a; simpl.
  - by intros ?%not_elem_of_nil.
  - unfold in_hdr. simpl in Hn. intros [Hb|Hb]%elem_of_app Hx [Hh|Hh].
    + destruct u; [|by apply not_elem_of_nil in Hb]. apply list_elem_of_singleton in Hb as ->. simpl in Hx. lia.
    + destruct u; [|by apply not_elem_of_nil in Hb]. apply list_elem_of_singleton in Hb as ->. simpl in Hx.
      apply headers_bounds in Hh; [lia|done].
    + apply live_bounds in Hb; [|done]. unfold sizeof_block in *. lia.
    + by eapply IH.
Qed.

(** Blocks in use do not overlap. *)
Definition apart (b c : Z * Z) : Prop := b.1 + b.2 ≤ c.1 ∨ c.1 + c.2 ≤ b.1.

Lemma live_apart a bs i j b c :
  all_pos bs → live_blocks a bs !! i = Some b → live_blocks a bs !! j = Some c → i ≠ j → apart b c.
Proof.
  intros Hp. revert a i j. induction Hp as [|[n u] bs Hn Hp IH]; intros a i j; simpl; [done|].
  simpl in Hn. destruct u; simpl; [|apply IH].
  assert (∀ c, c ∈ live_blocks (a + sizeof_block + n) bs → apart (a + sizeof_block, n) c) as Hfirst.
  { intros c' Hc. apply live_bounds in Hc; [|done]. left. unfold sizeof_block in *. simpl. lia. }
  destruct i as [|i], j as [|j]; simpl; try done.
  - intros [= <-] Hc _. by eapply Hfirst, list_elem_of_lookup_2.
  - intros Hb [= <-] _. destruct (Hfirst b); [by eapply list_elem_of_lookup_2|by right|by left].
  - intros Hb Hc Hij. eapply IH; eauto.
Qed.

Lemma live_free_tail a k r : live_blocks a (cons_free k r) = live_blocks (a + sizeof_block + k) r.
Proof. destruct r as [|[n2 [|]] r2]; simpl; try done. f_equal. lia. Qed.

Lemma release_live l n r :
  live (release l n r) = live_blocks KERNEL_BRK_START l ++
    live_blocks (KERNEL_BRK_START + span l + sizeof_block + n) r.
Proof.
  unfold live. destruct l as [|[n0 [|]] l0 _] using rev_ind.
  - simpl. by rewrite live_free_tail.
  - rewrite release_used by eauto. by rewrite live_blocks_app, live_free_tail.
  - rewrite release_free, !live_blocks_app, live_free_tail, span_app, span_cons.
    change (span []) with 0. simpl. rewrite app_nil_r. do 2 f_equal. lia.
Qed.

Lemma live_mid l n r :
  live (l ++ (n, true) :: r) = live_blocks KERNEL_BRK_START l ++
    (KERNEL_BRK_START + span l + sizeof_block, n) ::
    live_blocks (KERNEL_BRK_START + span l + sizeof_block + n) r.
Proof. unfold live. by rewrite live_blocks_app. Qed.

(** A block in use sits at a position of the list. *)
Lemma live_split bs p n : (p, n) ∈ live bs →
  ∃ l r, bs = l ++ (n, true) :: r ∧ p = KERNEL_BRK_START + span l + sizeof_block.
Proof.
  unfold live. generalize KERNEL_BRK_START. induction bs as [|[k u] bs IH]; intros a; simpl.
  - by intros ?%not_elem_of_nil.
  - intros [Hb|Hb]%elem_of_app.
    + destruct u; [|by apply not_elem_of_nil in Hb]. apply list_elem_of_singleton in Hb as [= -> ->].
      exists [], bs. split; [done|]. simpl. lia.
    + destruct (IH _ Hb) as (l & r & -> & ->). exists ((k, u) :: l), r. split; [done|].
      rewrite span_cons. simpl. lia.
Qed.

(** Allocation adds one block, at least as large as asked for. *)
Lemma first_fit_live sz bs : 0 < sz →
  ∃ L1 L2 n, sz ≤ n ∧ live bs = L1 ++ L2 ∧ live (first_fit sz bs 0).1 =
    L1 ++ (KERNEL_BRK_START + (first_fit sz bs 0).2 + sizeof_block, n) :: L2.
Proof.
  intros Hsz.
  destruct (Forall_Exists_dec (λ b, fits sz b = false) (λ b, ltac:(solve_decision)) bs) as [Hf|Hf].
  - rewrite first_fit_none by done. exists (live bs), [], sz. split; [lia|]. rewrite app_nil_r.
    split; [done|]. unfold live. simpl. by rewrite live_blocks_app.
  - assert (∃ r1 n r2, bs = r1 ++ (n, false) :: r2 ∧ Forall (λ b, fits sz b = false) r1 ∧
      fits sz (n, false) = true) as (r1 & n & r2 & -> & Hr1 & Hfit).
    { clear Hsz. induction Hf as [[n u] bs Hb|b bs Hb IH].
      - exists [], n, bs. destruct u; [done|]. split; [done|]. split; [done|]. by destruct (fits sz (n, false)).
      - destruct (fits sz b) eqn:E.
        + destruct b as [n [|]]; [done|]. by exists [], n, bs.
        + destruct IH as (r1 & n & r2 & -> & ? & ?). exists (b :: r1), n, r2. split; [done|]. split; [by constructor|done]. }
    rewrite (first_fit_found sz r1 n r2) by done. simpl fst. simpl snd.
    unfold live. rewrite !live_blocks_app, span_carve. simpl (live_blocks _ ((n, false) :: r2)).
    apply fits_eq in Hfit.
    exists (live_blocks KERNEL_BRK_START r1), (live_blocks (KERNEL_BRK_START + span r1 + sizeof_block + n) r2).
    unfold carve. rewrite !Z.add_assoc. unfold sizeof_block in *. destruct (Z.leb_spec (n - sz) 32).
    + exists n. split; [lia|]. done.
    + exists sz. split; [lia|]. done.
Qed.

Lemma live_sub_payload bs bs' m m' b x :
  only_headers bs bs' m m' → all_pos bs → all_pos bs' → b ∈ live bs → b ∈ live bs' →
  payload b x → ld8 m' x = ld8 m x.
Proof. intros Ho Hp Hp' Hb Hb' Hx. apply Ho; by eapply live_not_header. Qed.

Lemma heap_pos s bs : heap_ok s bs → all_pos bs.
Proof. intros [_ _ Hs _ _ _]. by eapply seg_pos. Qed.
End live.

Section results.
Implicit Types (s : heap) (bs l r : blocks).

Lemma kmalloc_init_ok m :
  wp kmalloc_init (Heap m 0 KERNEL_BRK_START)
    (λ _ s', heap_ok s' [(INIT_HEAP_SIZE - sizeof_block, false)]).
Proof.
  unfold kmalloc_init. apply wp_bind. apply sbrk_ok; [done|done|done|].
  unfold hwrite. wp_steps. cbn [h_mem set_h_mem set_heap_base set_kernel_brk kernel_brk heap_base].
  split; simpl; try done. split; [done|]. split; [|done].
  apply block_new; heap_lia.
Qed.

(** It writes the header of the one block. *)
Lemma kmalloc_init_mem m :
  wp kmalloc_init (Heap m 0 KERNEL_BRK_START)
    (λ _ s', ∀ x, ¬ (KERNEL_BRK_START ≤ x < KERNEL_BRK_START + sizeof_block) → ld8 (h_mem s') x = ld8 m x).
Proof.
  unfold kmalloc_init. apply wp_bind. apply sbrk_ok; [done|done|done|].
  unfold hwrite. wp_steps. cbn [h_mem set_h_mem set_heap_base set_kernel_brk kernel_brk heap_base].
  intros x Hx. unfold sizeof_block in Hx. unfold set_next, set_prev, set_in_use, set_size, st64, st32.
  by rewrite !ld8_st_ne by (simpl; lia).
Qed.

Lemma kmalloc_exhausted_ok s bs sz :
  heap_ok s bs → 0 < sz < 2 ^ 62 →
  KERNEL_BRK_LIMIT <= KERNEL_BRK_START + span (first_fit sz bs 0).1 →
  ∃ msg, kmalloc sz s = Panic msg.
Proof.
  intros Hok Hsz Hlim. pose proof Hok as [Hb Hne Hs Hk Hl Ha].
  pose proof (span_nonneg bs (seg_pos _ _ _ _ _ Hs)) as Hsp.
  pose proof (kmalloc_loop_ok heap_fuel sz [] bs s Hs (heap_lim _ _ Hok) (proj1 Hsz)
    ltac:(unfold sizeof_block; lia) (heap_length _ _ Hok)) as Hloop.
  replace (match bs with [] => 0 | _ => KERNEL_BRK_START + span [] end) with KERNEL_BRK_START in Hloop
    by (destruct bs; [done|simpl; by rewrite Z.add_0_r]).
  apply wp_run in Hloop as ([t p] & s1 & Hrun & _ & [([= -> ->] & -> & Hf)|(r1 & nb & r2 & -> & Hf & Hfit & _)]).
  - unfold kmalloc. destruct (Z.eqb_spec sz 0); [lia|]. unfold mbind_ at 1, gets at 1. cbv beta iota.
    rewrite Hb. change (last_block 0 KERNEL_BRK_START []) with 0 in Hrun. unfold mbind_ at 1. rewrite Hrun.
    rewrite Z.eqb_refl. rewrite first_fit_none in Hlim by done. simpl in Hlim.
    rewrite span_app, span_cons in Hlim. change (span []) with 0 in Hlim. cbn [fst] in Hlim.
    rewrite w64_small, s64_small by heap_lia. unfold mbind_ at 1 2, sbrk.
    destruct (Z.eqb_spec (sizeof_block + sz) 0); [heap_lia|]. unfold mbind_ at 1 2, modify, gets.
    cbn [kernel_brk set_kernel_brk].
    destruct (Z.ltb_spec (w64 (kernel_brk s + (sizeof_block + sz))) KERNEL_BRK_START) as [|Hge]; [by eexists|].
    destruct (Z.leb_spec KERNEL_BRK_LIMIT (w64 (kernel_brk s + (sizeof_block + sz)))) as [|Hlt]; [by eexists|].
    destruct (decide (kernel_brk s + (sizeof_block + sz) < 2 ^ 64)).
    + rewrite w64_small in Hlt by heap_lia. lia.
    + assert (w64 (kernel_brk s + (sizeof_block + sz)) = kernel_brk s + (sizeof_block + sz) - 2 ^ 64) as Hw
        by (symmetry; apply (Z.mod_unique _ _ 1); heap_lia).
      rewrite Hw in Hge. heap_lia.
  - pose proof (heap_lim _ _ Hok) as H1. rewrite (first_fit_found sz r1 nb r2) in Hlim by done.
    simpl fst in Hlim. rewrite !span_app, span_carve in Hlim. rewrite span_app, span_cons in H1.
    cbn [fst] in H1. lia.
Qed.

(** C19: [kmalloc] is first fit.  On a well-formed heap whose blocks, after the
    allocation, still end below the limit, it answers the payload of a block
    that was not in use and is at least as large as asked for; exactly that
    block joins the blocks in use, the list of blocks is the one of the
    first-fit specification, and no byte of another block in use changes. *)
Theorem kmalloc_spec s bs sz (Hok : heap_ok s bs) (Hsz : 0 < sz)
    (Hroom : KERNEL_BRK_START + span (first_fit sz bs 0).1 < KERNEL_BRK_LIMIT) :
  ∃ p n s' L1 L2, kmalloc sz s = Ok (p, s') ∧ heap_ok s' (first_fit sz bs 0).1 ∧ sz ≤ n ∧
    live bs = L1 ++ L2 ∧ live (first_fit sz bs 0).1 = L1 ++ (p, n) :: L2 ∧
    (∀ b x, b ∈ live bs → payload b x → ld8 (h_mem s') x = ld8 (h_mem s) x).
Proof.
  destruct (proj1 (wp_run _ _ _) (kmalloc_ok s bs sz Hok Hsz Hroom)) as (p & s' & Hrun & Hp & Hok' & Ho).
  destruct (first_fit_live sz bs Hsz) as (L1 & L2 & n & Hn & HL & HL'). rewrite <- Hp in HL'.
  exists p, n, s', L1, L2. do 5 (split; [done|]). intros b x Hb Hx.
  apply (live_sub_payload bs (first_fit sz bs 0).1 _ _ b); try done; [by eapply heap_pos..|].
  rewrite HL' . rewrite HL in Hb. set_solver.
Qed.

(** C20: [free] of a block in use releases exactly that block: the others stay
    in use with their contents, the free block is merged with its free
    neighbours so that no two free blocks are adjacent, and the heap is
    well formed again. *)
Theorem free_spec s bs p n (Hok : heap_ok s bs) (Hlive : (p, n) ∈ live bs) :
  ∃ s' bs' L1 L2, free p s = Ok (tt, s') ∧ heap_ok s' bs' ∧ span bs' = span bs ∧
    live bs = L1 ++ (p, n) :: L2 ∧ live bs' = L1 ++ L2 ∧
    (∀ b x, b ∈ live bs' → payload b x → ld8 (h_mem s') x = ld8 (h_mem s) x).
Proof.
  destruct (live_split bs p n Hlive) as (l & r & -> & ->).
  destruct (proj1 (wp_run _ _ _) (free_ok s l n r Hok)) as ([] & s' & Hrun & Hok' & Ho).
  exists s', (release l n r). eexists _, _. split; [done|]. split; [done|].
  split; [apply release_span|]. split; [apply live_mid|]. split; [apply release_live|].
  intros b x Hb Hx. apply (live_sub_payload _ _ _ _ b x Ho); [by eapply heap_pos..| |done|done].
  rewrite live_mid. rewrite release_live in Hb. set_solver.
Qed.

(** when the request fits no free block and the break cannot be raised, the
    kernel panics; it never answers a pointer beyond the heap. *)
Theorem kmalloc_exhausted s bs sz (Hok : heap_ok s bs) (Hsz : 0 < sz < 2 ^ 62)
    (Hfull : KERNEL_BRK_LIMIT ≤ KERNEL_BRK_START + span (first_fit sz bs 0).1) :
  ∃ msg, kmalloc sz s = Panic msg.
Proof. by apply (kmalloc_exhausted_ok s bs sz). Qed.

(** a request within 32 bytes of [2^64] wraps around: with a first block
    that is free, [kmalloc] succeeds and answers that block although it is
    smaller than the request. *)
Theorem kmalloc_huge_request s n r sz (Hok : heap_ok s ((n, false) :: r))
    (Hn : sizeof_block ≤ n) (Hsz : 2 ^ 64 - sizeof_block ≤ sz < 2 ^ 64) :
  n < sz ∧ ∃ s', kmalloc sz s = Ok (KERNEL_BRK_START + sizeof_block, s').
Proof.
  pose proof Hok as [Hb Hne Hs Hk Hl Ha].
  destruct (seg_words [] n false r (seg_pos _ _ _ _ _ Hs) (heap_lim _ _ Hok)) as (_ & Hn0 & Hr0 & Hw).
  simpl span in Hw. split; [heap_lia|].
  enough (wp (kmalloc sz) s (λ p _, p = KERNEL_BRK_START + sizeof_block)) as H.
  { apply wp_run in H as (p & s' & H & ->). by exists s'. }
  unfold kmalloc. destruct (Z.eqb_spec sz 0); [heap_lia|]. wp_steps. rewrite Hb.
  assert (∃ f, heap_fuel = S f) as [f ->] by (exists 16384%nat; apply Nat2Z.inj; done).
  cbn [kmalloc_loop]. change (KERNEL_BRK_START =? 0) with false. cbv iota.
  unfold hread. wp_steps. pose proof (block_read (h_mem s) [] n false r Hs) as Hblk.
  rewrite Z.add_0_r in Hblk. rewrite Hblk. cbn [in_use size_ next Z.b2z].
  change (negb (0 =? 0)) with false. cbv iota.
  destruct (Z.eqb_spec n sz); [heap_lia|].
  replace (w64 (sz + sizeof_block)) with (sz + sizeof_block - 2 ^ 64)
    by (unfold w64; apply (Z.mod_unique _ _ 1); heap_lia).
  destruct (Z.leb_spec (sz + sizeof_block - 2 ^ 64) n); [|heap_lia].
  wp_steps. apply (wp_mono _ _ (λ t _, t = KERNEL_BRK_START)).
  - unfold split_block, hread, hwrite. wp_steps. destruct (_ <=? _); wp_steps; [done|].
    destruct (negb _); wp_steps; done.
  - intros t s' ->. wp_steps. change (KERNEL_BRK_START =? 0) with false. cbv iota.
    unfold hwrite. wp_steps. rewrite w64_small by heap_lia. done.
Qed.

Lemma no_adjacent_split l n r :
  no_adjacent_free (l ++ (n, false) :: r) →
  (l = [] ∨ ∃ l0 n0, l = l0 ++ [(n0, true)]) ∧ (r = [] ∨ ∃ n2 r2, r = (n2, true) :: r2).
Proof.
  intros (_ & Hr & Hj)%no_adjacent_app. split.
  - destruct l as [|[n1 [|]] l0 _] using rev_ind; [by left|eauto|].
    specialize (Hj (n1, false) (n, false)). rewrite last_snoc in Hj. by specialize (Hj eq_refl eq_refl).
  - destruct r as [|[n2 [|]] r2]; [by left|eauto|done].
Qed.

(** The free block that is taken. *)
Lemma exists_fit sz bs : Exists (λ b, fits sz b = true) bs →
  ∃ r1 n r2, bs = r1 ++ (n, false) :: r2 ∧ Forall (λ b, fits sz b = false) r1 ∧ fits sz (n, false) = true.
Proof.
  induction bs as [|b bs IH]; intros Hfits; [by apply Exists_nil in Hfits|].
  destruct (fits sz b) eqn:E.
  - destruct b as [n [|]]; [done|]. by exists [], n, bs.
  - apply Exists_cons in Hfits as [?|Hf]; [congruence|].
    destruct (IH Hf) as (r1 & n & r2 & -> & ? & ?). exists (b :: r1), n, r2.
    split; [done|]. split; [by constructor|done].
Qed.

(** Allocation from a free block, and the release that undoes it. *)
Lemma kmalloc_scoped s bs sz :
  heap_ok s bs → 0 < sz → Exists (λ b, fits sz b = true) bs →
  wp (kmalloc sz) s (λ p s', ∃ n bs', sz ≤ n ∧ heap_ok s' bs' ∧ span bs' = span bs ∧
    only_headers bs bs' (h_mem s) (h_mem s') ∧ (p, n) ∈ live bs' ∧
    (∀ b, b ∈ live bs → b ∈ live bs' ∧ apart b (p, n)) ∧
    ∀ s2, heap_ok s2 bs' → wp (free p) s2 (λ _ s3, heap_ok s3 bs ∧ only_headers bs' bs (h_mem s2) (h_mem s3))).
Proof.
  intros Hok Hsz Hfits. pose proof (heap_lim _ _ Hok) as Hlim.
  destruct (first_fit_live sz bs Hsz) as (L1 & L2 & n & Hn & HL & HL').
  destruct (exists_fit sz bs Hfits) as (r1 & k & r2 & -> & Hr1 & Hfit).
  pose proof (first_fit_found sz r1 k r2 0 Hr1 Hfit) as Hff. rewrite Z.add_0_l in Hff.
  assert (span (r1 ++ carve sz k ++ r2) = span (r1 ++ (k, false) :: r2)) as Hspan
    by (rewrite !span_app, span_carve, span_cons; simpl; lia).
  eapply wp_mono; [apply (kmalloc_ok s _ sz Hok Hsz); rewrite Hff; cbn [fst]; by rewrite Hspan|].
  intros p s1 (Hp & Hok1 & Ho). rewrite Hff in *. cbn [fst snd] in *. subst p.
  exists n, (r1 ++ carve sz k ++ r2). split; [done|]. split; [done|]. split; [done|]. split; [done|].
  split; [rewrite HL'; set_solver|]. split.
  - intros b Hb. rewrite HL in Hb. split; [rewrite HL'; set_solver|].
    apply list_elem_of_lookup in Hb as [i Hi].
    pose proof (live_apart KERNEL_BRK_START (r1 ++ carve sz k ++ r2)) as Hap. fold (live (r1 ++ carve sz k ++ r2)) in Hap.
    rewrite HL' in Hap. destruct (decide (i < length L1)%nat) as [Hlt|Hge].
    + rewrite lookup_app_l in Hi by done. apply (Hap i (length L1)); [by eapply heap_pos| | |lia].
      * by rewrite lookup_app_l.
      * by rewrite list_lookup_middle.
    + rewrite lookup_app_r in Hi by lia. apply (Hap (S i) (length L1)); [by eapply heap_pos| | |lia].
      * rewrite lookup_app_r by lia. replace (S i - length L1)%nat with (S (i - length L1)) by lia. done.
      * by rewrite list_lookup_middle.
  - intros s2 Hok2. destruct (no_adjacent_split r1 k r2 (hk_adj _ _ Hok)) as [Hl Hr].
    unfold carve in Hok2 |- *. destruct (k - sz <=? sizeof_block).
    + eapply wp_mono; [by apply (free_ok s2 r1 k r2)|]. intros _ s3 [Hok3 Ho3].
      rewrite release_used in Hok3, Ho3 by done. by destruct Hr as [->|(n2 & r3 & ->)].
    + eapply wp_mono; [by apply (free_ok s2 r1 sz ((k - sz - sizeof_block, false) :: r2))|].
      intros _ s3 [Hok3 Ho3]. rewrite release_used in Hok3, Ho3 by done. simpl in Hok3, Ho3.
      by replace (sz + (k - sz - sizeof_block) + sizeof_block) with k in Hok3, Ho3 by lia.
Qed.

(** Writes outside the headers keep the heap. *)
Lemma heap_ok_ext s s' bs :
  heap_ok s bs → heap_base s' = heap_base s → kernel_brk s' = kernel_brk s →
  (∀ x, headers KERNEL_BRK_START bs x → ld8 (h_mem s') x = ld8 (h_mem s) x) → heap_ok s' bs.
Proof.
  intros [Hb Hne Hs Hk Hl Ha] Hb' Hk' H. split; try congruence. by apply (seg_ext (h_mem s)).
Qed.

(** releasing a block that [kmalloc] carved out of a free block restores the
    list of blocks exactly, so allocation does not fragment the heap for good. *)
Theorem kmalloc_free_roundtrip s bs sz (Hok : heap_ok s bs) (Hsz : 0 < sz)
    (Hfits : Exists (λ b, fits sz b = true) bs) :
  ∃ s', mbind_ (kmalloc sz) free s = Ok (tt, s') ∧ heap_ok s' bs.
Proof.
  enough (wp (mbind_ (kmalloc sz) free) s (λ _ s', heap_ok s' bs)) as H.
  { apply wp_run in H as ([] & s' & H). by exists s'. }
  apply wp_bind. eapply wp_mono; [by apply (kmalloc_scoped s bs)|].
  intros p s1 (n & bs' & _ & Hok1 & _ & _ & _ & _ & Hfree).
  eapply wp_mono; [by apply Hfree|]. by intros _ s2 [Hok2 _].
Qed.
End results.

(** The heap after [kmalloc_init], and after a first allocation. *)
Definition ex_blocks : blocks := [(16352, false)].
Definition init_heap (m : mem) : heap :=
  let base := KERNEL_BRK_START in
  Heap (set_prev base 0 (set_next base 0 (set_in_use base 0 (set_size base (INIT_HEAP_SIZE - sizeof_block) m))))
    base (base + INIT_HEAP_SIZE).
Lemma init_heap_ok m : heap_ok (init_heap m) ex_blocks.
Proof. exact (kmalloc_init_ok m). Qed.
Lemma ex_heap : ∃ s, heap_ok s ex_blocks.
Proof. exists (init_heap ∅). apply init_heap_ok. Qed.
Lemma ex_heap1 : ∃ s, heap_ok s [(64, true); (16256, false)].
Proof.
  destruct ex_heap as [s Hs].
  destruct (proj1 (wp_run _ _ _) (kmalloc_ok s ex_blocks 64 Hs ltac:(lia) ltac:(done))) as (p & s' & _ & _ & Hs' & _).
  by exists s'.
Qed.

Lemma kmalloc_spec_witness : ∃ s p s', heap_ok s ex_blocks ∧ kmalloc 64 s = Ok (p, s').
Proof.
  destruct ex_heap as [s Hs].
  destruct (kmalloc_spec s ex_blocks 64 Hs ltac:(lia) ltac:(done)) as (p & n & s' & L1 & L2 & H & _).
  exists s, p, s'. split; [exact Hs|exact H].
Defined.

Lemma free_spec_witness : ∃ s s', free (KERNEL_BRK_START + 32) s = Ok (tt, s').
Proof.
  destruct ex_heap1 as [s Hs].
  destruct (free_spec s _ (KERNEL_BRK_START + 32) 64 Hs ltac:(apply list_elem_of_singleton; done))
    as (s' & bs' & L1 & L2 & H & _).
  exists s, s'. exact H.
Defined.

Lemma kmalloc_exhausted_witness : ∃ s msg, kmalloc (2 ^ 20) s = Panic msg.
Proof.
  destruct ex_heap as [s Hs].
  destruct (kmalloc_exhausted s ex_blocks (2 ^ 20) Hs ltac:(lia) ltac:(done)) as [msg H].
  exists s, msg. exact H.
Defined.

Lemma kmalloc_huge_request_witness :
  ∃ s s', kmalloc (2 ^ 64 - 1) s = Ok (KERNEL_BRK_START + sizeof_block, s').
Proof.
  destruct ex_heap as [s Hs].
  destruct (kmalloc_huge_request s 16352 [] (2 ^ 64 - 1) Hs ltac:(done) ltac:(done)) as (_ & s' & H).
  exists s, s'. exact H.
Defined.

Lemma kmalloc_free_roundtrip_witness : ∃ s s', mbind_ (kmalloc 64) free s = Ok (tt, s') ∧ heap_ok s' ex_blocks.
Proof.
  destruct ex_heap as [s Hs].
  destruct (kmalloc_free_roundtrip s ex_blocks 64 Hs ltac:(lia) ltac:(left; done)) as (s' & H & Hs').
  exists s, s'. split; [exact H|exact Hs'].
Defined.
