(* ===== verification/Heap.v ===== *)
(** The allocator of [mm/kmalloc.c] keeps the heap contract of [Interfaces]:
    the blocks in use of a well-formed heap, as a finite map. *)

From S2P Require Import Prelude Memory Interfaces Kmalloc.

#[export] Instance kmalloc_heap_ops : HeapOps heap := {
  heap_bytes := h_mem;
  heap_kmalloc := kmalloc;
  heap_kcalloc := kcalloc;
  heap_release := free;
}.

Definition live_map (bs : blocks) : gmap Z Z := list_to_map (live bs).
Definition kheap_inv (s : heap) (L : gmap Z Z) : Prop := ∃ bs, heap_ok s bs ∧ L = live_map bs.
Definition kheap_room (s : heap) : Z := KERNEL_BRK_LIMIT - kernel_brk s.

Lemma live_keys bs : all_pos bs → NoDup (live bs).*1.
Proof.
  intros Hp. unfold live. generalize KERNEL_BRK_START. induction Hp as [|[n u] bs Hn Hp IH]; intros a; simpl.
  - by constructor.
  - simpl in Hn. destruct u; simpl; [|apply IH]. constructor; [|apply IH].
    intros ([p k] & Hk & Hin)%list_elem_of_fmap. apply live_bounds in Hin; [|done].
    simpl in *. unfold sizeof_block in *. lia.
Qed.

Lemma live_map_lookup bs p n : all_pos bs → live_map bs !! p = Some n ↔ (p, n) ∈ live bs.
Proof. intros Hp. symmetry. apply elem_of_list_to_map. by apply live_keys. Qed.

Lemma live_map_insert bs bs' L1 L2 p n :
  all_pos bs' → live bs = L1 ++ L2 → live bs' = L1 ++ (p, n) :: L2 →
  live_map bs !! p = None ∧ live_map bs' = <[p := n]> (live_map bs).
Proof.
  intros Hp HL HL'. pose proof (live_keys bs' Hp) as Hnd. unfold live_map. rewrite HL.
  rewrite HL' in *. rewrite fmap_app, fmap_cons in Hnd. cbn [fst] in Hnd.
  rewrite <- (Permutation_middle (fst <$> L1)) in Hnd. apply list.NoDup_cons in Hnd as [Hni Hnd].
  split.
  - apply not_elem_of_list_to_map_1. by rewrite fmap_app.
  - change (<[p := n]> (list_to_map (L1 ++ L2) : gmap Z Z)) with (list_to_map ((p, n) :: L1 ++ L2) : gmap Z Z).
    symmetry. apply list_to_map_proper; [|apply Permutation_middle].
    rewrite fmap_cons, fmap_app. by constructor.
Qed.

Lemma first_fit_span sz bs : span (first_fit sz bs 0).1 ≤ span bs + (sizeof_block + Z.max 0 sz).
Proof.
  generalize 0 at 1. induction bs as [|b bs IH]; intros off; [unfold span; simpl; lia|]. simpl.
  destruct (fits sz b).
  - simpl. rewrite span_app, span_carve. fold (span bs). unfold sizeof_block. lia.
  - simpl. fold (span (first_fit sz bs (off + sizeof_block + b.1)).1). fold (span bs).
    specialize (IH (off + sizeof_block + b.1)). lia.
Qed.

Lemma only_headers_blocks bs bs' L m m' :
  all_pos bs → all_pos bs' → only_headers bs bs' m m' →
  (∀ p n, L !! p = Some n → (p, n) ∈ live bs ∧ (p, n) ∈ live bs') → same_blocks L m m'.
Proof.
  intros Hp Hp' Ho HL p n x Hl Hx. destruct (HL p n Hl) as [H1 H2].
  by apply (live_sub_payload bs bs' m m' (p, n)).
Qed.

(** Allocation, in the vocabulary of the contract. *)
Definition allocated (s : heap) (L : gmap Z Z) (n p : Z) (s' : heap) : Prop :=
  ∃ k, n ≤ k ∧ L !! p = None ∧ kheap_inv s' (<[p := k]> L) ∧
    kheap_room s ≤ kheap_room s' + (n + 32) ∧ same_blocks L (h_mem s) (h_mem s').

Lemma kmalloc_allocated s bs n :
  heap_ok s bs → 0 < n → KERNEL_BRK_START + span (first_fit n bs 0).1 < KERNEL_BRK_LIMIT →
  wp (kmalloc n) s (allocated s (live_map bs) n).
Proof.
  intros Hok Hn Hroom. unfold allocated, kheap_room.
  pose proof (hk_brk _ _ Hok) as Hb. pose proof (first_fit_span n bs) as Hsp. unfold sizeof_block in Hsp.
  eapply wp_mono; [apply (kmalloc_ok s bs n Hok Hn Hroom)|]. intros p s' (Hp & Hok' & Ho).
  pose proof (hk_brk _ _ Hok') as Hb'.
  destruct (first_fit_live n bs Hn) as (L1 & L2 & k & Hk & HL & HL'). rewrite <- Hp in HL'.
  pose proof (heap_pos _ _ Hok) as Hpos. pose proof (heap_pos _ _ Hok') as Hpos'.
  destruct (live_map_insert bs _ L1 L2 p k Hpos' HL HL') as [Hnone Hins].
  exists k. split; [done|]. split; [done|]. split; [exists (first_fit n bs 0).1; by rewrite Hins|].
  split; [lia|]. apply (only_headers_blocks bs (first_fit n bs 0).1); [done|done|done|].
  intros q j Hq%live_map_lookup; [|done]. split; [done|]. rewrite HL', HL in *. set_solver.
Qed.

Lemma kmalloc_contract s L n :
  kheap_inv s L → 0 < n → n + 32 < kheap_room s → wp (kmalloc n) s (allocated s L n).
Proof.
  intros (bs & Hok & ->) Hn Hroom. apply kmalloc_allocated; [done|done|].
  pose proof (hk_brk _ _ Hok) as Hb. pose proof (first_fit_span n bs) as Hsp.
  unfold kheap_room, sizeof_block in *. lia.
Qed.

(** On a well-formed heap an allocation succeeds or panics, nothing else. *)
Lemma kmalloc_total s L n :
  kheap_inv s L → 0 < n < 2 ^ 62 → (∃ msg, kmalloc n s = Panic msg) ∨ wp (kmalloc n) s (allocated s L n).
Proof.
  intros (bs & Hok & ->) Hn.
  destruct (Z.lt_ge_cases (KERNEL_BRK_START + span (first_fit n bs 0).1) KERNEL_BRK_LIMIT) as [Hl|Hl].
  - right. by apply kmalloc_allocated; [|lia|].
  - left. by apply (kmalloc_exhausted_ok s bs n).
Qed.

Lemma free_contract s L p n :
  kheap_inv s L → L !! p = Some n →
  wp (free p) s (λ _ s', kheap_inv s' (delete p L) ∧ kheap_room s' = kheap_room s ∧
    same_blocks (delete p L) (h_mem s) (h_mem s')).
Proof.
  intros (bs & Hok & ->) Hp. pose proof (heap_pos _ _ Hok) as Hpos.
  apply live_map_lookup in Hp; [|done]. destruct (live_split bs p n Hp) as (l & r & -> & ->).
  eapply wp_mono; [by apply (free_ok s l n r)|]. intros _ s' [Hok' Ho].
  pose proof (heap_pos _ _ Hok') as Hpos'.
  destruct (live_map_insert (release l n r) (l ++ (n, true) :: r) _ _ _ n Hpos (release_live l n r) (live_mid l n r))
    as [Hnone Hins].
  assert (live_map (release l n r) = delete (KERNEL_BRK_START + span l + sizeof_block) (live_map (l ++ (n, true) :: r))) as Hdel
    by (by rewrite Hins, delete_insert_id).
  split; [exists (release l n r); by rewrite Hdel|]. split.
  - unfold kheap_room. rewrite (hk_brk _ _ Hok), (hk_brk _ _ Hok'), release_span. done.
  - rewrite <- Hdel. apply (only_headers_blocks (l ++ (n, true) :: r) (release l n r)); [done|done|done|].
    intros q j Hq%live_map_lookup; [|done]. split; [|done]. rewrite live_mid, release_live in *. set_solver.
Qed.

Lemma live_range s L p n : kheap_inv s L → L !! p = Some n → HEAP_START < p ∧ 0 < n ∧ p + n ≤ HEAP_LIMIT.
Proof.
  intros (bs & Hok & ->) Hp. pose proof (heap_pos _ _ Hok) as Hpos. apply live_map_lookup in Hp; [|done].
  apply live_bounds in Hp; [|done]. pose proof (hk_brk _ _ Hok). pose proof (hk_lim _ _ Hok).
  unfold KERNEL_BRK_LIMIT, KERNEL_BRK_START, KERNEL_BRK_PAGES, PAGE_SIZE, HEAP_START, HEAP_LIMIT, sizeof_block in *.
  simpl in *. lia.
Qed.

(** Writing inside a block in use. *)
Lemma kheap_write s L p n m :
  kheap_inv s L → L !! p = Some n → (∀ x, ¬ (p ≤ x < p + n) → ld8 m x = ld8 (h_mem s) x) →
  kheap_inv (set_h_mem s m) L.
Proof.
  intros (bs & Hok & ->) Hp Hm. pose proof (heap_pos _ _ Hok) as Hpos. exists bs. split; [|done].
  apply live_map_lookup in Hp; [|done]. apply (heap_ok_ext s); [done|done|done|]. intros x Hx. apply Hm. intros Hin.
  apply (live_not_header KERNEL_BRK_START bs (p, n) x); [done|done| |done]. exact Hin.
Qed.

(** Blocks in use do not overlap. *)
Lemma kheap_apart s L p n q k :
  kheap_inv s L → L !! p = Some n → L !! q = Some k → p ≠ q → apart (p, n) (q, k).
Proof.
  intros (bs & Hok & ->) Hp Hq Hne. pose proof (heap_pos _ _ Hok) as Hpos.
  apply live_map_lookup in Hp; [|done]. apply live_map_lookup in Hq; [|done].
  apply list_elem_of_lookup in Hp as [i Hi], Hq as [j Hj].
  apply (live_apart KERNEL_BRK_START bs i j); [done|done|done|]. intros ->. unfold live in *. congruence.
Qed.

Lemma kheap_write_other s L p n m :
  kheap_inv s L → L !! p = Some n → (∀ x, ¬ (p ≤ x < p + n) → ld8 m x = ld8 (h_mem s) x) →
  same_blocks (delete p L) (h_mem s) m.
Proof.
  intros Hi Hp Hm q j x [Hne Hq]%lookup_delete_Some Hx. apply Hm. intros Hin.
  destruct (kheap_apart s L p n q j Hi Hp Hq Hne); simpl in *; lia.
Qed.

Lemma kcalloc_cleared s L a b :
  0 < a * b < 2 ^ 62 → wp (kmalloc (a * b)) s (allocated s L (a * b)) →
  wp (kcalloc a b) s (λ p s', allocated s L (a * b) p s' ∧ ∀ x, p ≤ x < p + a * b → ld8 (h_mem s') x = 0).
Proof.
  intros Hn Hw. unfold kcalloc. rewrite w64_small by lia. wp_steps.
  eapply wp_mono; [exact Hw|]. intros p s1 (k & Hk & Hnone & Hi1 & Hr1 & Hs1).
  unfold hwrite. wp_steps. set (s2 := set_h_mem s1 (memset (h_mem s1) p 0 (a * b))).
  assert (∀ x, ld8 (h_mem s2) x = if decide (p ≤ x < p + a * b) then 0 else ld8 (h_mem s1) x) as Hm.
  { intros x. simpl. rewrite ld8_memset by lia. by repeat case_decide. }
  assert (∀ x, ¬ (p ≤ x < p + k) → ld8 (h_mem s2) x = ld8 (h_mem s1) x) as Hout
    by (intros x Hx; rewrite Hm, decide_False; [done|lia]).
  assert (<[p := k]> L !! p = Some k) as Hp by by rewrite lookup_insert_eq.
  split; [|intros x Hx; by rewrite Hm, decide_True].
  exists k. split; [done|]. split; [done|]. split; [by apply (kheap_write s1 _ p k)|]. split; [exact Hr1|].
  pose proof (kheap_write_other s1 _ p k _ Hi1 Hp Hout) as Hs2. rewrite delete_insert_id in Hs2 by done.
  intros q j x Hq Hx. rewrite (Hs2 q j x Hq Hx). by apply (Hs1 q j).
Qed.

Lemma kcalloc_contract s L a b :
  kheap_inv s L → 0 < a * b → a * b + 32 < kheap_room s →
  wp (kcalloc a b) s (λ p s', ∃ k, a * b ≤ k ∧ L !! p = None ∧ kheap_inv s' (<[p := k]> L) ∧
    kheap_room s ≤ kheap_room s' + (a * b + 32) ∧ same_blocks L (h_mem s) (h_mem s') ∧
    (∀ x, p ≤ x < p + a * b → ld8 (h_mem s') x = 0)).
Proof.
  intros Hi Hn Hr.
  assert (a * b < 2 ^ 19) as Hsmall.
  { destruct Hi as (bs & Hok & _). unfold kheap_room in Hr. pose proof (hk_brk _ _ Hok) as Hb.
    pose proof (span_nonneg bs (heap_pos _ _ Hok)).
    unfold KERNEL_BRK_LIMIT, KERNEL_BRK_START, KERNEL_BRK_PAGES, PAGE_SIZE in *. lia. }
  eapply wp_mono; [apply kcalloc_cleared; [lia|by apply kmalloc_contract]|].
  intros p s' ((k & ? & ? & ? & ? & ?) & ?). by exists k.
Qed.

(** Bytes that are not in the heap stay. *)
Definition outside_same (m m' : mem) : Prop := ∀ x, HEAP_LIMIT ≤ x → ld8 m' x = ld8 m x.

Lemma outside_trans m1 m2 m3 : outside_same m1 m2 → outside_same m2 m3 → outside_same m1 m3.
Proof. intros H1 H2 x Hx. by rewrite H2, H1. Qed.

Lemma heap_headers_below s bs x : heap_ok s bs → headers KERNEL_BRK_START bs x → x < HEAP_LIMIT.
Proof.
  intros Hok Hx%headers_bounds; [|by eapply heap_pos]. pose proof (hk_brk _ _ Hok). pose proof (hk_lim _ _ Hok).
  unfold KERNEL_BRK_LIMIT, KERNEL_BRK_START, KERNEL_BRK_PAGES, PAGE_SIZE, HEAP_LIMIT in *. lia.
Qed.

Lemma only_headers_outside s s' bs bs' :
  heap_ok s bs → heap_ok s' bs' → only_headers bs bs' (h_mem s) (h_mem s') → outside_same (h_mem s) (h_mem s').
Proof.
  intros H1 H2 Ho x Hx. apply Ho; intros Hh.
  - pose proof (heap_headers_below s bs x H1 Hh). lia.
  - pose proof (heap_headers_below s' bs' x H2 Hh). lia.
Qed.

Lemma kmalloc_outside s L n : kheap_inv s L → 0 < n → n + 32 < kheap_room s →
  wp (kmalloc n) s (λ p s', outside_same (h_mem s) (h_mem s')).
Proof.
  intros (bs & Hok & ->) Hn Hroom. eapply wp_mono; [apply (kmalloc_ok s bs n Hok Hn)|].
  - pose proof (hk_brk _ _ Hok) as Hb. pose proof (first_fit_span n bs) as Hsp. unfold kheap_room, sizeof_block in *. lia.
  - intros p s' (_ & Hok' & Ho). by eapply only_headers_outside.
Qed.

Lemma kcalloc_outside s L a b : kheap_inv s L → 0 < a * b → a * b + 32 < kheap_room s →
  wp (kcalloc a b) s (λ p s', outside_same (h_mem s) (h_mem s')).
Proof.
  intros Hi Hn Hr.
  assert (a * b < 2 ^ 64) as Hsmall.
  { destruct Hi as (bs & Hok & _). unfold kheap_room in Hr. pose proof (hk_brk _ _ Hok) as Hb.
    pose proof (span_nonneg bs (heap_pos _ _ Hok)).
    unfold KERNEL_BRK_LIMIT, KERNEL_BRK_START, KERNEL_BRK_PAGES, PAGE_SIZE in *. lia. }
  unfold kcalloc. rewrite w64_small by lia. apply wp_bind.
  eapply wp_mono; [exact (wp_and _ _ _ _ (kmalloc_contract s L (a * b) Hi Hn Hr) (kmalloc_outside s L (a * b) Hi Hn Hr))|].
  intros p s1 [(k & Hk & _ & Hi1 & _) Ho]. unfold hwrite. wp_steps. intros x Hx. cbn [h_mem set_h_mem].
  destruct (live_range s1 _ p k Hi1 ltac:(by rewrite lookup_insert_eq)) as (_ & _ & Hlim).
  rewrite ld8_memset by lia. rewrite decide_False by lia. by apply Ho.
Qed.

Lemma free_outside s L p n : kheap_inv s L → L !! p = Some n →
  wp (free p) s (λ _ s', outside_same (h_mem s) (h_mem s')).
Proof.
  intros (bs & Hok & ->) Hp. pose proof (heap_pos _ _ Hok) as Hpos.
  apply live_map_lookup in Hp; [|done]. destruct (live_split bs p n Hp) as (l & r & -> & ->).
  eapply wp_mono; [by apply (free_ok s l n r)|]. intros _ s' [Hok' Ho]. by eapply only_headers_outside.
Qed.

#[export] Instance kmalloc_heap_laws : HeapLaws heap := {
  heap_inv := kheap_inv;
  heap_room := kheap_room;
  heap_range := live_range;
  heap_kmalloc_ok := kmalloc_contract;
  heap_kcalloc_ok := kcalloc_contract;
  heap_release_ok := free_contract;
}.
