(* ===== verification/HeapSession.v ===== *)
(** The kernel heap under a client: any sequence of calls of [kmalloc],
    [kcalloc] and [free] of [mm/kmalloc.c], with stores into the blocks that
    the client holds in between, from the heap that [kmalloc_init] makes. *)

From S2P Require Import Prelude Memory Interfaces Kmalloc Heap.

(** What the client holds: for each block it was given and has not released,
    the bytes it asked for, [None] where nothing was stored yet. *)
Abbreviation client := (gmap Z (list (option Z))).
Implicit Types (h : heap) (V : client) (L : gmap Z Z) (l : list (option Z)).

Inductive heap_step : heap * client → heap * client → Prop :=
  | step_kmalloc h V n p h' :
      0 < n < 2 ^ 62 → kmalloc n h = Ok (p, h') →
      heap_step (h, V) (h', <[p := replicate (Z.to_nat n) None]> V)
  | step_kcalloc h V a b p h' :
      0 < a * b < 2 ^ 62 → kcalloc a b h = Ok (p, h') →
      heap_step (h, V) (h', <[p := replicate (Z.to_nat (a * b)) (Some 0)]> V)
  | step_free h V p l h' :
      V !! p = Some l → free p h = Ok (tt, h') → heap_step (h, V) (h', delete p V)
  | step_store h V p l i v :
      V !! p = Some l → (i < length l)%nat →
      heap_step (h, V) (set_h_mem h (st8 (h_mem h) (p + Z.of_nat i) v), <[p := <[i := Some (w8 v)]> l]> V).

Definition heap_reachable (h : heap) (V : client) : Prop :=
  ∃ m h0, kmalloc_init (Heap m 0 KERNEL_BRK_START) = Ok (tt, h0) ∧ rtc heap_step (h0, ∅) (h, V).

(** ** The type of a heap *)

(** [L] are the blocks in use: exactly those that the client holds, each with
    room for the bytes it asked for, which are the ones it stored. *)
Record heap_typed (h : heap) (V : client) (L : gmap Z Z) : Prop := {
  ht_inv : kheap_inv h L;
  ht_dom : dom L = dom V;
  ht_size p l n : V !! p = Some l → L !! p = Some n → Z.of_nat (length l) ≤ n;
  ht_bytes p l i c : V !! p = Some l → l !! i = Some (Some c) → ld8 (h_mem h) (p + Z.of_nat i) = c;
}.

Lemma typed_block h V L p l :
  heap_typed h V L → V !! p = Some l → ∃ n, L !! p = Some n ∧ Z.of_nat (length l) ≤ n.
Proof.
  intros [_ Hd Hs _] Hp. assert (p ∈ dom L) as [n Hn]%elem_of_dom by (rewrite Hd; by apply elem_of_dom).
  exists n. split; [done|]. by apply (Hs p).
Qed.

(** A byte that the client holds keeps its value when the blocks in use do. *)
Lemma typed_same h V L m p l i c :
  heap_typed h V L → same_blocks (delete p L) (h_mem h) m → ∀ q,
  delete p V !! q = Some l → l !! i = Some (Some c) → ld8 m (q + Z.of_nat i) = c.
Proof.
  intros Ht Hs q [Hne Hq]%lookup_delete_Some Hi. destruct (typed_block h V L q l Ht Hq) as (n & Hn & Hl).
  apply lookup_lt_Some in Hi as Hlt. rewrite (Hs q n); [|by rewrite lookup_delete_ne|lia].
  by apply (ht_bytes _ _ _ Ht q l).
Qed.

Lemma typed_alloc h V L n p h' (o : option Z) :
  heap_typed h V L → 0 < n → allocated h L n p h' →
  (∀ c i, o = Some c → (i < Z.to_nat n)%nat → ld8 (h_mem h') (p + Z.of_nat i) = c) →
  V !! p = None ∧ ∃ k, heap_typed h' (<[p := replicate (Z.to_nat n) o]> V) (<[p := k]> L).
Proof.
  intros Ht Hn (k & Hk & Hnone & Hinv & _ & Hs) Ho. pose proof Ht as [_ Hd Hsz _].
  assert (V !! p = None) as Hfresh.
  { apply not_elem_of_dom. rewrite <- Hd. by apply not_elem_of_dom. }
  split; [done|]. exists k. split; [done|by rewrite !dom_insert_L, Hd| |].
  - intros q l j [[<- <-]|[Hne Hq]]%lookup_insert_Some Hj.
    + rewrite lookup_insert_eq in Hj. injection Hj as <-. rewrite length_replicate. lia.
    + rewrite lookup_insert_ne in Hj by done. by apply (Hsz q).
  - intros q l i c [[<- <-]|[Hne Hq]]%lookup_insert_Some Hi.
    + apply lookup_replicate in Hi as [? Hlt]. by apply Ho.
    + apply (typed_same h V L (h_mem h') p l i c Ht); [by rewrite delete_id|by rewrite lookup_delete_ne|done].
Qed.

Lemma typed_free h V L p l :
  heap_typed h V L → V !! p = Some l → wp (free p) h (λ _ h', heap_typed h' (delete p V) (delete p L)).
Proof.
  intros Ht Hp. pose proof Ht as [Hi Hd Hsz _]. destruct (typed_block h V L p l Ht Hp) as (n & Hn & _).
  eapply wp_mono; [by apply (free_contract h L p n)|]. intros _ h' (Hi' & _ & Hs).
  split; [done|by rewrite !dom_delete_L, Hd| |].
  - intros q l' j [_ Hq]%lookup_delete_Some [_ Hj]%lookup_delete_Some. by apply (Hsz q).
  - intros q l' i c Hq Hl. by apply (typed_same h V L (h_mem h') p l' i c Ht).
Qed.

Lemma typed_store h V L p l i v :
  heap_typed h V L → V !! p = Some l → (i < length l)%nat →
  heap_typed (set_h_mem h (st8 (h_mem h) (p + Z.of_nat i) v)) (<[p := <[i := Some (w8 v)]> l]> V) L.
Proof.
  intros Ht Hp Hi. pose proof Ht as [Hinv Hd Hsz Hb]. destruct (typed_block h V L p l Ht Hp) as (n & Hn & Hl).
  set (m := st8 _ _ _).
  assert (∀ x, ¬ (p ≤ x < p + n) → ld8 m x = ld8 (h_mem h) x) as Hout
    by (intros x Hx; apply ld8_st8_ne; lia).
  pose proof (kheap_write_other h L p n m Hinv Hn Hout) as Hs.
  split; [by apply (kheap_write h L p n)| | |].
  - rewrite dom_insert_L, Hd. symmetry. apply subseteq_union_1_L. apply singleton_subseteq_l. by apply elem_of_dom.
  - intros q l' j [[<- <-]|[Hne Hq]]%lookup_insert_Some Hj; [|by apply (Hsz q)].
    rewrite length_insert. by apply (Hsz p).
  - intros q l' j c [[<- <-]|[Hne Hq]]%lookup_insert_Some Hj.
    + apply list_lookup_insert_Some in Hj as [(<- & [= <-] & _)|[Hne Hj]]; [apply ld8_st8_eq|].
      simpl. unfold m. rewrite ld8_st8_ne by lia. by apply (Hb p l).
    + apply (typed_same h V L m p l' j c Ht Hs q); [by rewrite lookup_delete_ne|done].
Qed.

Lemma typed_init m h0 : kmalloc_init (Heap m 0 KERNEL_BRK_START) = Ok (tt, h0) → heap_typed h0 ∅ ∅.
Proof.
  intros Hrun. destruct (proj1 (wp_run _ _ _) (kmalloc_init_ok m)) as ([] & h & Hrun' & Hok).
  rewrite Hrun in Hrun'. injection Hrun' as <-. split; [|done|done|done].
  eexists. split; [exact Hok|]. done.
Qed.

(** ** Preservation *)

(** What a call that returned has done, from the contract of the call. *)
Lemma total_ok {A} (c : M heap A) h Q a h' :
  (∃ msg, c h = Panic msg) ∨ wp c h Q → c h = Ok (a, h') → Q a h'.
Proof. intros [[msg Hp]|Hw] Hrun; [congruence|]. unfold wp in Hw. by rewrite Hrun in Hw. Qed.

Lemma kcalloc_total h L a b :
  kheap_inv h L → 0 < a * b < 2 ^ 62 →
  (∃ msg, kcalloc a b h = Panic msg) ∨
  wp (kcalloc a b) h (λ p h', allocated h L (a * b) p h' ∧ ∀ x, p ≤ x < p + a * b → ld8 (h_mem h') x = 0).
Proof.
  intros Hi Hn. destruct (kmalloc_total h L (a * b) Hi Hn) as [[msg Hp]|Hw].
  - left. exists msg. unfold kcalloc. rewrite w64_small by lia. unfold mbind_. by rewrite Hp.
  - right. by apply kcalloc_cleared.
Qed.

Lemma typed_step h V L h' V' :
  heap_typed h V L → heap_step (h, V) (h', V') → ∃ L', heap_typed h' V' L'.
Proof.
  intros Ht Hstep. pose proof (ht_inv _ _ _ Ht) as Hi. inversion Hstep; subst.
  - destruct (typed_alloc h V L n p h' None Ht) as [_ [k ?]]; [lia| |done|by eexists].
    by apply (total_ok _ _ _ _ _ (kmalloc_total h L n Hi ltac:(done))).
  - match goal with Hc : kcalloc a b h = _ |- _ =>
      destruct (total_ok _ _ _ _ _ (kcalloc_total h L a b Hi ltac:(done)) Hc) as [Hal Hz] end.
    destruct (typed_alloc h V L (a * b) p h' (Some 0) Ht) as [_ [k ?]]; [lia|done| |by eexists].
    intros c i [= <-] Hlt. apply Hz. lia.
  - pose proof (typed_free h V L p l Ht ltac:(done)) as Hw. eexists.
    by apply (total_ok (free p) h _ tt h' (or_intror Hw)).
  - eexists. by apply typed_store.
Qed.

Lemma typed_reachable h V : heap_reachable h V → ∃ L, heap_typed h V L.
Proof.
  intros (m & h0 & Hinit & Hsteps). remember (h0, ∅) as c0 eqn:E0. remember (h, V) as c eqn:E.
  assert (∃ L, heap_typed c0.1 c0.2 L) as Ht by (subst; eexists; by eapply typed_init).
  enough (∃ L, heap_typed c.1 c.2 L) as H by by subst. clear E0 E.
  induction Hsteps as [c|[h1 V1] [h2 V2] c Hstep Hsteps IH]; [done|].
  apply IH. destruct Ht as [L Ht]. by eapply typed_step.
Qed.

(** C11: the kernel heap is type safe.  After any sequence of [kmalloc],
    [kcalloc], [free] and stores of a client that frees and writes only what it
    holds, and whose requests are of at least one and less than [2 ^ 62] bytes
    (the product, for [kcalloc]; a request of 0 bytes panics, one close to
    [2 ^ 64] wraps around, [kmalloc_huge_request]): the blocks in use are exactly those the client holds; they lie in
    the heap's pages, overlap nothing else that the client holds, and contain
    what the client last stored ([kcalloc]'s zeros to begin with).  And the heap
    is never stuck: an allocation of such a size gives a block that the client did not hold or
    stops with a panic, and every block that it holds can be released. *)
Theorem heap_session_safe h V (Hr : heap_reachable h V) :
  (∀ p l, V !! p = Some l → KERNEL_BRK_START < p ∧ p + Z.of_nat (length l) ≤ KERNEL_BRK_LIMIT) ∧
  (∀ p q l l', V !! p = Some l → V !! q = Some l' → p ≠ q →
    apart (p, Z.of_nat (length l)) (q, Z.of_nat (length l'))) ∧
  (∀ p l i c, V !! p = Some l → l !! i = Some (Some c) → ld8 (h_mem h) (p + Z.of_nat i) = c) ∧
  (∃ bs, heap_ok h bs ∧ ∀ p, p ∈ (live bs).*1 ↔ p ∈ dom V) ∧
  (∀ n, 0 < n < 2 ^ 62 → (∃ msg, kmalloc n h = Panic msg) ∨
    ∃ p h', kmalloc n h = Ok (p, h') ∧ V !! p = None) ∧
  (∀ p l, V !! p = Some l → ∃ h', free p h = Ok (tt, h')).
Proof.
  destruct (typed_reachable h V Hr) as [L Ht]. pose proof Ht as [Hi Hd Hsz Hb]. split_and!.
  - intros p l Hp. destruct (typed_block h V L p l Ht Hp) as (n & Hn & Hl).
    destruct (live_range h L p n Hi Hn) as (? & _ & Hlim). change HEAP_LIMIT with KERNEL_BRK_LIMIT in Hlim.
    split; [done|]. lia.
  - intros p q l l' Hp Hq Hne. destruct (typed_block h V L p l Ht Hp) as (n & Hn & Hl).
    destruct (typed_block h V L q l' Ht Hq) as (k & Hk & Hl').
    destruct (kheap_apart h L p n q k Hi Hn Hk Hne); [left|right]; simpl in *; lia.
  - done.
  - destruct Hi as (bs & Hok & HL). exists bs. split; [done|]. intros p. rewrite <- Hd, HL.
    unfold live_map. by rewrite dom_list_to_map_L, elem_of_list_to_set.
  - intros n Hn. destruct (kmalloc_total h L n Hi Hn) as [?|Hw]; [by left|right].
    apply wp_run in Hw as (p & h' & Hrun & Hal). exists p, h'. split; [done|].
    by destruct (typed_alloc h V L n p h' None Ht ltac:(lia) Hal ltac:(done)).
  - intros p l Hp. pose proof (typed_free h V L p l Ht Hp) as Hw.
    apply wp_run in Hw as ([] & h' & Hrun & _). by exists h'.
Qed.

(** A session that asks for two blocks, writes into the second and frees the first. *)
Lemma heap_session_safe_witness : ∃ h p q,
  heap_reachable h (<[q := [Some 7; None]]> ∅) ∧ p ≠ q ∧ ld8 (h_mem h) q = 7.
Proof.
  assert (∃ h0 p h1 q h2 h4, kmalloc_init (Heap ∅ 0 KERNEL_BRK_START) = Ok (tt, h0) ∧
    kmalloc 3 h0 = Ok (p, h1) ∧ kmalloc 2 h1 = Ok (q, h2) ∧ bool_decide (p = q) = false ∧
    free p (set_h_mem h2 (st8 (h_mem h2) (q + 0) 7)) = Ok (tt, h4)) as (h0 & p & h1 & q & h2 & h4 & H0 & H1 & H2 & Hne & H4).
  { do 6 eexists. split; [by vm_compute|]. split; [by vm_compute|]. split; [by vm_compute|]. split; by vm_compute. }
  apply bool_decide_eq_false in Hne.
  assert (heap_reachable h4 (<[q := [Some 7; None]]> ∅)) as Hr.
  { exists ∅, h0. split; [exact H0|].
    eapply rtc_l; [exact (step_kmalloc h0 ∅ 3 p h1 ltac:(lia) H1)|]. eapply rtc_l; [exact (step_kmalloc h1 _ 2 q h2 ltac:(lia) H2)|].
    eapply rtc_l; [apply (step_store _ _ q [None; None] 0%nat 7); [apply lookup_insert_eq|simpl; lia]|].
    eapply rtc_l; [apply (step_free _ _ p [None; None; None])|].
    - rewrite lookup_insert_ne by congruence. rewrite lookup_insert_ne by congruence. apply lookup_insert_eq.
    - exact H4.
    - match goal with |- rtc _ (_, ?W) _ => assert (W = <[q := [Some 7; None]]> ∅) as -> end; [|apply rtc_refl].
      rewrite insert_insert_eq, delete_insert_ne, delete_insert_id by (congruence || apply lookup_empty). reflexivity. }
  exists h4, p, q. split; [exact Hr|]. split; [exact Hne|]. rewrite <- (Z.add_0_r q).
  apply (proj1 (proj2 (proj2 (heap_session_safe h4 _ Hr))) q [Some 7; None] 0%nat); [apply lookup_insert_eq|reflexivity].
Defined.
