(* ===== verification/Mm.v ===== *)
(** Address spaces and their areas: [mm/vmm.c] from [prot_to_x86_prot] to
    [mm_free].

    The [struct mm], [struct vm_area] and [struct vm_area_li] objects live in
    stores indexed by their address; the address of an object that the code
    allocates is the one the kernel heap answers, and the object is gone after
    [free].  A pointer to no object is a [Fault].  The frame allocator and the
    kernel heap are any that keep the contracts of [Interfaces]. *)

From S2P Require Import Prelude Memory Interfaces PageTable AddressSpace.

Definition PAGE_PROT_READ : Z := Z.shiftl 1 0.
Definition PAGE_PROT_WRITE : Z := Z.shiftl 1 1.
Definition KERNEL_TEXT_BASE : Z := 0xffffffff80000000.
Definition BRK_START : Z := HEAP_START.
Definition BRK_PAGES : Z := 128.

Inductive vm_area_type := VM_AREA_REG | VM_AREA_KERNELTEXT | VM_AREA_KERNELHEAP | VM_AREA_PHYSMEM.
#[export] Instance vm_area_type_eq_dec : EqDecision vm_area_type.
Proof. solve_decision. Defined.

Record vm_area := VmArea {
  v_refcnt : Z; v_type : vm_area_type; v_start : Z; v_pages : Z; v_user : bool; v_prot : Z }.
Record vm_area_li := VmAreaLi { li_vma : Z; li_next : Z; li_prev : Z }.
Definition sizeof_mm : Z := 16.
Definition sizeof_vm_area : Z := 32.
Definition sizeof_vm_area_li : Z := 24.

Definition set_v_refcnt n v := VmArea n (v_type v) (v_start v) (v_pages v) (v_user v) (v_prot v).
Definition set_li_next n l := VmAreaLi (li_vma l) n (li_prev l).
Definition set_li_prev n l := VmAreaLi (li_vma l) (li_next l) n.
Definition set_vm_areas (x : mm) (l : Z) : mm := Mm (p4 x) l.

(** The objects of [vmm.c] that the linker places. *)
Record statics := Statics {
  kernel_mm : Z;
  kernel_vma_li : Z; kernel_vma : Z;
  phys_vma_li : Z; phys_vma : Z;
  kernel_heap_vma_li : Z; kernel_heap_vma : Z }.

Section code.
Context {St : Type} {FO : FrameOps St} {H : Type} {HO : HeapOps H}.
Variable sym : statics.
(** More than the areas of an address space. *)
Variable fuel : nat.

Record vm := Vm {
  frames : St; kheap : H;
  mms : gmap Z mm; vmas : gmap Z vm_area; lis : gmap Z vm_area_li }.
Definition set_frames f s := Vm f (kheap s) (mms s) (vmas s) (lis s).
Definition set_kheap h s := Vm (frames s) h (mms s) (vmas s) (lis s).
Definition set_mms m s := Vm (frames s) (kheap s) m (vmas s) (lis s).
Definition set_vmas v s := Vm (frames s) (kheap s) (mms s) v (lis s).
Definition set_lis l s := Vm (frames s) (kheap s) (mms s) (vmas s) l.

Definition in_frames {A} (m : M St A) : M vm A := zoom frames set_frames m.
Definition in_kheap {A} (m : M H A) : M vm A := zoom kheap set_kheap m.

Definition get_mm (a : Z) : M vm mm := let* s := gets id in from_opt (mms s !! a).
Definition get_vma (a : Z) : M vm vm_area := let* s := gets id in from_opt (vmas s !! a).
Definition get_li (a : Z) : M vm vm_area_li := let* s := gets id in from_opt (lis s !! a).
Definition put_mm (a : Z) (x : mm) : M vm unit := modify (λ s, set_mms (<[a := x]> (mms s)) s).
Definition put_vma (a : Z) (v : vm_area) : M vm unit := modify (λ s, set_vmas (<[a := v]> (vmas s)) s).
Definition put_li (a : Z) (l : vm_area_li) : M vm unit := modify (λ s, set_lis (<[a := l]> (lis s)) s).

(** [kcalloc(1, sizeof)] and [free] of an object. *)
Definition new_vma : M vm Z :=
  let* a := in_kheap (heap_kcalloc 1 sizeof_vm_area) in
  put_vma a (VmArea 0 VM_AREA_REG 0 0 false 0) ;;*
  mret_ a.
Definition free_vma (a : Z) : M vm unit :=
  in_kheap (heap_release a) ;;*
  modify (λ s, set_vmas (delete a (vmas s)) s).

(** [vmm_map_page] and [vmm_unmap_page] on the [struct mm] that [a] points to. *)
Definition map_page (a virt phys flags : Z) : M vm unit :=
  let* x := get_mm a in
  let* x' := in_frames (vmm_map_page x virt phys flags) in
  put_mm a x'.
Definition unmap_page (a virt : Z) : M vm unit :=
  let* x := get_mm a in
  let* x' := in_frames (vmm_unmap_page x virt) in
  put_mm a x'.
(** [p1_get_entry] at the four indices of an address. *)
Definition leaf_entry (a virt : Z) : M vm Z :=
  let* x := get_mm a in
  in_frames (read (λ m, p1_get_entry m x (P4_NDX virt) (P3_NDX virt) (P2_NDX virt) (P1_NDX virt))).

(** [pg * PAGE_SIZE] for an [int pg]: the product is an [int]. *)
Definition int_off (pg : Z) : M vm Z :=
  let off := pg * PAGE_SIZE in
  if 2 ^ 31 <=? off then fault else mret_ off.

Definition prot_to_x86_prot (prot : Z) : Z :=
  if negb (Z.land prot PAGE_PROT_WRITE =? 0) then PAGE_WRITE else 0.
Definition map_flags (prot : Z) (user : bool) : Z :=
  Z.lor (Z.lor (prot_to_x86_prot prot) (if user then PAGE_USER else 0)) PAGE_PRESENT.

Definition mm_insert_vma (a vma : Z) : M vm unit :=
  let* li := in_kheap (heap_kmalloc sizeof_vm_area_li) in
  put_li li (VmAreaLi vma 0 0) ;;*
  let* v := get_vma vma in
  put_vma vma (set_v_refcnt (s32 (v_refcnt v + 1)) v) ;;*
  let* l := get_li li in
  put_li li (set_li_prev 0 l) ;;*
  let* x := get_mm a in
  let* l := get_li li in
  put_li li (set_li_next (vm_areas x) l) ;;*
  (if negb (vm_areas x =? 0) then
     let* head := get_li (vm_areas x) in
     put_li (vm_areas x) (set_li_prev li head)
   else mret_ tt) ;;*
  put_mm a (set_vm_areas x li).

Definition vmm_map_range (a virt phys npages prot : Z) (user : bool) : M vm unit :=
  if negb (Z.land virt PAGE_MASK =? 0) || negb (Z.land phys PAGE_MASK =? 0)
  then panic "mapping is not paged aligned" else
  let flags := map_flags prot user in
  for_ (Z.to_nat npages) 0 (λ pg,
    let* off := int_off pg in
    map_page a (w64 (virt + off)) (w64 (phys + off)) flags).

(** [if (--vma->refcnt == 0) free(vma);] *)
Definition unref_vma (vma : Z) : M vm unit :=
  let* v := get_vma vma in
  put_vma vma (set_v_refcnt (s32 (v_refcnt v - 1)) v) ;;*
  (if s32 (v_refcnt v - 1) =? 0 then free_vma vma else mret_ tt).

Definition mm_free_reg_vma (a vma : Z) : M vm unit :=
  let* v := get_vma vma in
  if decide (v_type v ≠ VM_AREA_REG) then panic "freeing a non-regular vma" else
  for_ (Z.to_nat (v_pages v)) 0 (λ pg,
    let* off := int_off pg in
    let* e := leaf_entry a (w64 (v_start v + off)) in
    let phys := page_base e in
    unmap_page a (w64 (v_start v + off)) ;;*
    in_frames (frame_free phys)) ;;*
  unref_vma vma.

Definition anon_mmap (a start pages prot : Z) (user : bool) : M vm unit :=
  if negb (Z.land start PAGE_MASK =? 0) then panic "mmap is not page aligned" else
  let flags := map_flags prot user in
  for_ (Z.to_nat pages) 0 (λ i,
    let* off := int_off i in
    let* frame := in_frames frame_alloc in
    map_page a (w64 (start + off)) frame flags) ;;*
  let* vma := new_vma in
  let* v := get_vma vma in
  put_vma vma (VmArea (v_refcnt v) VM_AREA_REG start pages user (w8 prot)) ;;*
  mm_insert_vma a vma.

Definition anon_mmap_user (a start pages prot : Z) : M vm unit := anon_mmap a start pages (w8 prot) true.
Definition anon_mmap_kernel (a start pages prot : Z) : M vm unit := anon_mmap a start pages (w8 prot) false.

Definition mm_share_vma (dst src vma : Z) : M vm unit :=
  let* v := get_vma vma in
  let flags := map_flags (v_prot v) (v_user v) in
  for_ (Z.to_nat (v_pages v)) 0 (λ pg,
    let* off := int_off pg in
    let* phys := leaf_entry src (w64 (v_start v + off)) in
    map_page dst (w64 (v_start v + off)) phys flags) ;;*
  mm_insert_vma dst vma.

Definition mm_unshare_vma (a vma : Z) : M vm unit :=
  let* v := get_vma vma in
  for_ (Z.to_nat (v_pages v)) 0 (λ pg,
    let* off := int_off pg in
    unmap_page a (w64 (v_start v + off))) ;;*
  unref_vma vma.

Definition mm_copy_from_mm (dst src start pages : Z) : M vm unit :=
  if negb (Z.land start PAGE_MASK =? 0) then panic "copy_physmem: start is not page aligned" else
  for_ (Z.to_nat pages) 0 (λ pg,
    let off := w64 (PAGE_SIZE * pg) in
    let* es := leaf_entry src (w64 (start + off)) in
    let* ed := leaf_entry dst (w64 (start + off)) in
    in_frames (write (λ m, memcpy m (P_TO_V (page_base ed)) (P_TO_V (page_base es)) PAGE_SIZE))).

(** [memcpy] from the bytes [m'] of the kernel heap to those of a frame. *)
Fixpoint copy_in (n : nat) (m' m : mem) (d s : Z) : mem :=
  match n with
  | O => m
  | S n' => copy_in n' m' (st8 m d (ld8 m' s)) (d + 1) (s + 1)
  end.

(** [while (len > 0)]: each round takes up to a page off [len]. *)
Fixpoint copy_from_buf_loop (n : nat) (dst src start pg len : Z) : M vm unit :=
  if len <=? 0 then mret_ tt else
  match n with
  | O => nofuel
  | S n' =>
      let off := w64 (PAGE_SIZE * pg) in
      let* ed := leaf_entry dst (w64 (start + off)) in
      let bytes := if PAGE_SIZE <? len then PAGE_SIZE else len in
      let* h := gets kheap in
      in_frames (write (λ m, copy_in (Z.to_nat bytes) (heap_bytes h) m (P_TO_V (page_base ed)) (w64 (src + off)))) ;;*
      copy_from_buf_loop n' dst src start (pg + 1) (len - bytes)
  end.
Definition mm_copy_from_buf (dst src start len : Z) : M vm unit :=
  if negb (Z.land start PAGE_MASK =? 0) then panic "copy_physmem: start is not page aligned" else
  copy_from_buf_loop (Z.to_nat (DIV_CEIL len PAGE_SIZE)) dst src start 0 len.

(** The three static areas; [mm] is [&kernel_mm] in the only call. *)
Definition kernel_mm_init (a : Z) : M vm unit :=
  let rw := Z.lor PAGE_PROT_READ PAGE_PROT_WRITE in
  let* k := get_mm (kernel_mm sym) in
  put_mm (kernel_mm sym) (set_vm_areas k (kernel_vma_li sym)) ;;*
  let* v := get_vma (kernel_vma sym) in
  put_vma (kernel_vma sym) (VmArea (v_refcnt v) VM_AREA_KERNELTEXT KERNEL_TEXT_BASE 512 false (w8 rw)) ;;*
  vmm_map_range a KERNEL_TEXT_BASE 0 512 rw false ;;*
  put_li (kernel_vma_li sym) (VmAreaLi (kernel_vma sym) (phys_vma_li sym) 0) ;;*
  let* v := get_vma (phys_vma sym) in
  put_vma (phys_vma sym) (VmArea (v_refcnt v) VM_AREA_PHYSMEM PHYS_MAPPING_START 1024 false (w8 rw)) ;;*
  vmm_map_range a PHYS_MAPPING_START 0 1024 rw false ;;*
  put_li (phys_vma_li sym) (VmAreaLi (phys_vma sym) (kernel_heap_vma_li sym) (kernel_vma_li sym)) ;;*
  let* v := get_vma (kernel_heap_vma sym) in
  put_vma (kernel_heap_vma sym) (VmArea (v_refcnt v) VM_AREA_KERNELHEAP BRK_START BRK_PAGES false (w8 rw)) ;;*
  let flags := Z.lor (prot_to_x86_prot (w8 rw)) PAGE_PRESENT in
  for_ (Z.to_nat BRK_PAGES) 0 (λ i,
    let* off := int_off i in
    let* frame := in_frames frame_alloc in
    map_page a (w64 (BRK_START + off)) frame flags) ;;*
  put_li (kernel_heap_vma_li sym) (VmAreaLi (kernel_heap_vma sym) 0 (phys_vma_li sym)).

Fixpoint mm_init_loop (n : nat) (a curr : Z) : M vm unit :=
  if curr =? 0 then mret_ tt else
  match n with
  | O => nofuel
  | S n' =>
      let* c := get_li curr in
      mm_share_vma a (kernel_mm sym) (li_vma c) ;;*
      let* c := get_li curr in
      mm_init_loop n' a (li_next c)
  end.
Definition mm_init (a : Z) : M vm unit :=
  let* k := get_mm (kernel_mm sym) in
  mm_init_loop fuel a (vm_areas k).

Definition mm_new : M vm Z :=
  let* a := in_kheap (heap_kcalloc 1 sizeof_mm) in
  put_mm a (Mm 0 0) ;;*
  mm_init a ;;*
  mret_ a.

Fixpoint mm_dupe_loop (n : nat) (new a curr : Z) : M vm unit :=
  if curr =? 0 then mret_ tt else
  match n with
  | O => nofuel
  | S n' =>
      let* c := get_li curr in
      let* v := get_vma (li_vma c) in
      (match v_type v with
       | VM_AREA_REG =>
           anon_mmap new (v_start v) (v_pages v) (v_prot v) (v_user v) ;;*
           mm_copy_from_mm new a (v_start v) (v_pages v)
       | VM_AREA_PHYSMEM | VM_AREA_KERNELTEXT | VM_AREA_KERNELHEAP => mret_ tt
       end) ;;*
      let* c := get_li curr in
      mm_dupe_loop n' new a (li_next c)
  end.
Definition mm_dupe (a : Z) : M vm Z :=
  let* new := mm_new in
  let* x := get_mm a in
  mm_dupe_loop fuel new a (vm_areas x) ;;*
  mret_ new.

Fixpoint mm_free_loop (n : nat) (a curr : Z) : M vm unit :=
  if curr =? 0 then mret_ tt else
  match n with
  | O => nofuel
  | S n' =>
      let* c := get_li curr in
      let* v := get_vma (li_vma c) in
      (match v_type v with
       | VM_AREA_REG => mm_free_reg_vma a (li_vma c)
       | VM_AREA_PHYSMEM | VM_AREA_KERNELTEXT | VM_AREA_KERNELHEAP => mm_unshare_vma a (li_vma c)
       end) ;;*
      let* c := get_li curr in
      in_kheap (heap_release curr) ;;*
      modify (λ s, set_lis (delete curr (lis s)) s) ;;*
      mm_free_loop n' a (li_next c)
  end.
Definition mm_free (a : Z) : M vm unit :=
  let* x := get_mm a in
  mm_free_loop fuel a (vm_areas x) ;;*
  let* x := get_mm a in
  in_frames (frame_free (p4 x)) ;;*
  in_kheap (heap_release a) ;;*
  modify (λ s, set_mms (delete a (mms s)) s).
End code.
Arguments vm St H : clear implicits.
