(* ===== verification/MmSpec.v ===== *)
(** What the operations of [Mm] promise.

    [grow] describes an operation that gives an address space more tables and
    more data frames: the new frames were free before, and the frames in use
    that are not tables of the space keep their contents.  The specifications
    of the mapping operations are stated on the finite maps of [AddressSpace];
    a range of pages is [insert_pages]. *)

From S2P Require Import Prelude Memory Interfaces PageTable AddressSpace Mm.

(** The map after the entries [es] have been stored at consecutive pages from
    the address [v]. *)
Fixpoint insert_pages (v : Z) (es : list Z) (f : gmap Z Z) : gmap Z Z :=
  match es with
  | [] => f
  | e :: es' => insert_pages (v + PAGE_SIZE) es' (<[vpn v := e]> f)
  end.

Lemma vpn_w64 v : vpn (w64 v) = vpn v.
Proof.
  unfold vpn, w64. change (2 ^ 64) with (4096 * 2 ^ 52). change (2 ^ 52) with (2 ^ 36 * 2 ^ 16).
  rewrite Z.rem_mul_r by lia. rewrite Z.mul_comm, Z.div_add, Z.mod_div by lia.
  rewrite Z.add_0_l. rewrite Z.rem_mul_r by lia.
  rewrite <- Z.add_mod_idemp_r, Z.mul_comm, Z.mod_mul, Z.add_0_r, Z.mod_mod by lia. done.
Qed.

Lemma vpn_page v i : vpn (v + i * PAGE_SIZE) = (v / 4096 + i) mod 2 ^ 36.
Proof. unfold vpn, PAGE_SIZE. by rewrite Z.div_add by lia. Qed.

Lemma vpn_next v i j : 0 ≤ i < 2 ^ 36 → 0 ≤ j < 2 ^ 36 →
  vpn (v + i * PAGE_SIZE) = vpn (v + j * PAGE_SIZE) → i = j.
Proof.
  intros Hi Hj. rewrite !vpn_page. intros He.
  pose proof (Z.div_mod (v / 4096 + i) (2 ^ 36)). pose proof (Z.div_mod (v / 4096 + j) (2 ^ 36)). lia.
Qed.

Lemma insert_pages_snoc es : ∀ v e f,
  insert_pages v (es ++ [e]) f = <[vpn (v + Z.of_nat (length es) * PAGE_SIZE) := e]> (insert_pages v es f).
Proof.
  induction es as [|e0 es IH]; intros v e f; cbn [insert_pages app length]; [by rewrite Z.add_0_r|].
  rewrite IH. do 2 f_equal. lia.
Qed.

(** Pages outside the range keep their entries. *)
Lemma insert_pages_other es : ∀ v f w,
  (∀ i, 0 ≤ i < Z.of_nat (length es) → vpn (v + i * PAGE_SIZE) ≠ w) → insert_pages v es f !! w = f !! w.
Proof.
  induction es as [|e es IH]; intros v f w Hw; [done|]. cbn [insert_pages length] in *. rewrite IH.
  - apply lookup_insert_ne. rewrite <- (Z.add_0_r v). apply (Hw 0). lia.
  - intros i Hi. replace (v + PAGE_SIZE + i * PAGE_SIZE) with (v + (i + 1) * PAGE_SIZE) by lia. apply Hw. lia.
Qed.

Lemma insert_pages_page es : ∀ v f i e,
  Z.of_nat (length es) ≤ 2 ^ 36 → es !! i = Some e → insert_pages v es f !! vpn (v + Z.of_nat i * PAGE_SIZE) = Some e.
Proof.
  induction es as [|e0 es IH]; intros v f i e Hl He; [done|]. cbn [insert_pages length] in *. destruct i as [|i].
  - injection He as ->. rewrite Z.mul_0_l, Z.add_0_r, insert_pages_other; [by rewrite lookup_insert_eq|].
    intros i Hi Hv. replace (v + PAGE_SIZE + i * PAGE_SIZE) with (v + (i + 1) * PAGE_SIZE) in Hv by lia.
    rewrite <- (Z.add_0_r v) in Hv at 2. apply (vpn_next v (i + 1) 0) in Hv; lia.
  - replace (v + Z.of_nat (S i) * PAGE_SIZE) with (v + PAGE_SIZE + Z.of_nat i * PAGE_SIZE) by lia.
    apply IH; [lia|done].
Qed.

Section grow.
Context {St : Type} {FO : FrameOps St} {FL : FrameLaws St}.
Implicit Types (s : St) (x y : mm) (T U : tables) (f g : gmap Z Z) (D : list Z).

Definition no_table T (q : Z) : Prop := ∀ p, T !! p ≠ Some q.

Record grow s T s' T' D : Prop := {
  gr_inv : frame_inv s';
  gr_sub : T ⊆ T';
  gr_fresh p q : T' !! p = Some q → T !! p = Some q ∨ ¬ frame_used s q;
  gr_used q : frame_used s' q ↔ frame_used s q ∨ (∃ p, T' !! p = Some q) ∨ q ∈ D;
  gr_other q : frame_used s q → no_table T q → same_page (frame_mem s) (frame_mem s') q;
  gr_data q : q ∈ D → ¬ frame_used s q ∧ no_table T' q;
  gr_nodup : NoDup D;
  gr_avail : (frame_avail s' + size T' + length D = frame_avail s + size T)%nat;
}.

Lemma grow_refl s T : frame_inv s → (∀ p q, T !! p = Some q → frame_used s q) → grow s T s T [].
Proof.
  intros Hi HT. split; [done|done|by left| |done| |constructor|simpl; lia].
  - intros q. split; [by left|]. intros [?|[[p Hp]|?%not_elem_of_nil]]; [done|by eapply HT|done].
  - by intros q ?%not_elem_of_nil.
Qed.

Lemma grow_trans s T s1 T1 D1 s2 T2 D2 :
  grow s T s1 T1 D1 → grow s1 T1 s2 T2 D2 → grow s T s2 T2 (D1 ++ D2).
Proof.
  intros [I1 S1 F1 U1 O1 B1 N1 A1] [I2 S2 F2 U2 O2 B2 N2 A2].
  assert (∀ q, frame_used s q → frame_used s1 q) as Hu by (intros q Hq; apply U1; by left).
  split; [done|by etrans|..].
  - intros p q Hq. destruct (F2 p q Hq) as [Hq1|Hn]; [by apply F1|]. right. intros Hq'. by apply Hn, Hu.
  - intros q. rewrite U2, U1, elem_of_app. split.
    + intros [[?|[[p Hp]|?]]|[?|?]]; [tauto| |tauto..]. right. left. exists p. by eapply lookup_weaken.
    + tauto.
  - intros q Hq Hn. eapply same_page_trans; [by apply O1|]. apply O2; [by apply Hu|].
    intros p Hp. destruct (F1 p q Hp) as [H|H]; [by apply (Hn p)|done].
  - intros q [Hq|Hq]%elem_of_app.
    + destruct (B1 q Hq) as [Hb Hn]. split; [done|]. intros p Hp.
      destruct (F2 p q Hp) as [H|H]; [by apply (Hn p)|]. apply H, U1. by right; right.
    + destruct (B2 q Hq) as [Hb Hn]. split; [|done]. intros Hq'. by apply Hb, Hu.
  - apply list.NoDup_app. split; [done|]. split; [|done]. intros q Hq1 Hq2. destruct (B2 q Hq2) as [Hb _].
    apply Hb, U1. by right; right.
  - rewrite length_app. lia.
Qed.

Lemma pt_grow_grow s T s' T' : pt_grow s T s' T' → grow s T s' T' [].
Proof.
  intros [I Su F U O E C]. split; [done|done|done| |done| |constructor|simpl; lia].
  - intros q. rewrite U. split; [tauto|]. intros [?|[?|?%not_elem_of_nil]]; tauto.
  - by intros q ?%not_elem_of_nil.
Qed.

(** Tables and data never leave a space that grows. *)
Lemma grow_keeps s T s' T' D q : grow s T s' T' D → frame_used s q → frame_used s' q.
Proof. intros G Hq. apply (gr_used _ _ _ _ _ G). by left. Qed.

Lemma grow_data_kept s T s' T' D s1 T1 D1 q :
  grow s T s' T' D → grow s' T' s1 T1 D1 → q ∈ D → same_page (frame_mem s') (frame_mem s1) q.
Proof.
  intros G G1 Hq. apply (gr_other _ _ _ _ _ G1).
  - apply (gr_used _ _ _ _ _ G). by right; right.
  - apply (gr_data _ _ _ _ _ G q Hq).
Qed.

(** One more data frame. *)
Lemma alloc_grow s x T f :
  space s x T f → (0 < frame_avail s)%nat →
  wp frame_alloc s (λ p s', space s' x T f ∧ grow s T s' T [p] ∧ zero_page (frame_mem s') p ∧
    good_frame p ∧ (∀ q, frame_used s q → same_page (frame_mem s) (frame_mem s') q)).
Proof.
  intros Hs Hav. pose proof (sp_tree _ _ _ _ Hs) as Ht.
  eapply wp_mono; [by apply frame_alloc_ok; [apply Hs|]|].
  intros p s' (Hi & Hn & Ha & Hu & Hz & Hsame).
  assert (frame_used s' p) as Hp by (apply Hu; by right).
  assert (∀ r q, T !! r = Some q → frame_used s' q) as HT
    by (intros r q Hq; apply Hu; left; by eapply pt_used).
  split; [|split; [|split; [done|split; [by apply (frame_used_good s')|done]]]].
  - apply (space_frame s); [done|done|exact HT|]. intros r q Hq. by eapply Hsame, pt_used.
  - split; [done|done|by left| |by intros; apply Hsame| |apply list.NoDup_singleton|simpl; lia].
    + intros q. rewrite Hu, list_elem_of_singleton. split; [tauto|].
      intros [?|[[r Hr]|?]]; [tauto| |tauto]. left. by eapply pt_used.
    + intros q ->%list_elem_of_singleton. split; [done|]. intros r Hr. by eapply Hn, pt_used.
Qed.

(** The list of areas is not part of what the processor sees. *)
Lemma walk_p4 m x y v : p4 x = p4 y → walk m x v = walk m y v.
Proof.
  intros Hp. unfold walk, p1_get_entry, p2_get_entry, p3_get_entry, p4_get_entry. by rewrite Hp.
Qed.

Lemma space_set_areas s x T f l : space s x T f → space s (set_vm_areas x l) T f.
Proof.
  intros [Hi [R U I C P] Hw Hf]. split; [done|by split| |done]. intros w. rewrite <- Hw. by apply walk_p4.
Qed.

(** Another address space sees nothing of the growth of this one. *)
Lemma grow_other_space s T s' T' D y U g :
  grow s T s' T' D → space s y U g → separate U T → space s' y U g ∧ separate U T'.
Proof.
  intros G Hy Hsep. pose proof (pt_used _ _ _ (sp_tree _ _ _ _ Hy)) as Hu. split.
  - apply (space_frame s); [done|by apply G|..].
    + intros p q Hp. eapply grow_keeps; [done|]. by eapply Hu.
    + intros p q Hp. apply (gr_other _ _ _ _ _ G); [by eapply Hu|]. intros p'. by apply (Hsep p).
  - intros p q g' Hp Hq. destruct (gr_fresh _ _ _ _ _ G q g' Hq) as [H|H]; [by eapply Hsep|].
    by eapply H, Hu.
Qed.

(** Writing into data frames of the space. *)
Lemma write_data_grow s x T f m D :
  space s x T f → (∀ q, q ∈ D → frame_used s q ∧ no_table T q) →
  only_pages (λ q, q ∈ D) (frame_mem s) m →
  let s' := frame_set_mem s m in
  space s' x T f ∧ frame_inv s' ∧ (frame_avail s' = frame_avail s) ∧
  (∀ q, frame_used s' q ↔ frame_used s q) ∧
  (∀ q, frame_used s q → q ∉ D → same_page (frame_mem s) (frame_mem s') q).
Proof.
  intros Hs HD Ho s'. pose proof (sp_inv _ _ _ _ Hs) as Hi.
  destruct (frame_set_mem_ok s m Hi) as (Hi' & Ha & Hu).
  { intros a Hna. apply Ho. intros q Hq. apply Hna. by apply HD. }
  assert (∀ q, frame_used s q → q ∉ D → same_page (frame_mem s) (frame_mem s') q) as Hsame.
  { intros q Hq Hn k Hk. unfold s'. rewrite frame_mem_set. apply Ho. intros r Hr Hin.
    destruct (HD r Hr) as [Hru _].
    apply (good_frames_disjoint q r k (P_TO_V q + k - P_TO_V r)); [by apply (frame_used_good s)..| |done|lia|lia].
    intros ->. done. }
  split; [|done]. apply (space_frame s); [done|done|..].
  - intros p q Hq. apply Hu. by eapply pt_used; [apply Hs|].
  - intros p q Hq. apply Hsame; [by eapply pt_used; [apply Hs|]|]. intros HqD. by apply (HD q HqD) in Hq.
Qed.
End grow.

(** ** Objects *)
Fixpoint li_seg (ls : gmap Z vm_area_li) (prev curr : Z) (L : list (Z * Z)) : Prop :=
  match L with
  | [] => curr = 0
  | (l, v) :: L' => curr = l ∧ l ≠ 0 ∧ ∃ nx, ls !! l = Some (VmAreaLi v nx prev) ∧ li_seg ls l nx L'
  end.

Lemma li_seg_ext ls ls' L : ∀ p c,
  (∀ l, l ∈ L.*1 → ls' !! l = ls !! l) → li_seg ls p c L → li_seg ls' p c L.
Proof.
  induction L as [|[l v] L IH]; intros p c Hl; [done|]. simpl. intros (-> & Hne & nx & Hx & Hr).
  split; [done|]. split; [done|]. exists nx. rewrite Hl by (simpl; left). split; [done|].
  apply IH; [|done]. intros l' Hl'. apply Hl. simpl. by right.
Qed.

Section mm.
Context {St : Type} {FO : FrameOps St} {FL : FrameLaws St}.
Context {H : Type} {HO : HeapOps H} {HL : HeapLaws H}.
Abbreviation vmst := (vm St H).
Implicit Types (s : vmst) (x y : mm) (T U : tables) (f g : gmap Z Z) (D : list Z) (B : gmap Z Z) (L : list (Z * Z)).

(** An object is a block of the heap or placed by the linker, above it. *)
Definition object B (a : Z) : Prop := is_Some (B !! a) ∨ HEAP_LIMIT ≤ a.

Record objects_ok s B : Prop := {
  ob_heap : heap_inv (kheap s) B;
  ob_mms a : is_Some (mms s !! a) → object B a;
  ob_vmas a : is_Some (vmas s !! a) → object B a;
  ob_lis a : is_Some (lis s !! a) → object B a;
}.

Record mm_at s (a : Z) x T f : Prop := {
  ma_mm : mms s !! a = Some x;
  ma_space : space (frames s) x T f;
}.

(** The list of areas of [x]: the node and the area of each. *)
Definition areas s x L : Prop := li_seg (lis s) 0 (vm_areas x) L ∧ NoDup L.*1.

(** Only the frames and the tables of [a] change. *)
Record vm_grow (a : Z) s T s' T' D : Prop := {
  vg_grow : grow (frames s) T (frames s') T' D;
  vg_heap : kheap s' = kheap s;
  vg_vmas : vmas s' = vmas s;
  vg_lis : lis s' = lis s;
  vg_mms b : b ≠ a → mms s' !! b = mms s !! b;
  vg_dom : is_Some (mms s' !! a) → is_Some (mms s !! a);
}.

Lemma vm_grow_trans a s T s1 T1 D1 s2 T2 D2 :
  vm_grow a s T s1 T1 D1 → vm_grow a s1 T1 s2 T2 D2 → vm_grow a s T s2 T2 (D1 ++ D2).
Proof.
  intros [G1 H1 V1 L1 M1 X1] [G2 H2 V2 L2 M2 X2]. split; try congruence; [by eapply grow_trans| |tauto].
  intros b Hb. by rewrite M2, M1.
Qed.

Lemma vm_grow_objects a s T s' T' D B : vm_grow a s T s' T' D → objects_ok s B → objects_ok s' B.
Proof.
  intros [G Hh Hv Hl Hm Hx] [Oh Om Ov Ol]. split; [by rewrite Hh| |by rewrite Hv|by rewrite Hl].
  intros b Hb. destruct (decide (b = a)) as [->|Hne]; [by apply Om, Hx|]. apply Om. by rewrite <- Hm.
Qed.

Lemma vm_grow_other a s T s' T' D b y U g :
  vm_grow a s T s' T' D → b ≠ a → mm_at s b y U g → separate U T →
  mm_at s' b y U g ∧ separate U T'.
Proof.
  intros G Hb [Hm Hs] Hsep. destruct (grow_other_space _ _ _ _ _ _ _ _ (vg_grow _ _ _ _ _ _ G) Hs Hsep) as [Hs' Hsep'].
  split; [|done]. split; [|done]. by rewrite (vg_mms _ _ _ _ _ _ G).
Qed.

Lemma wp_get_mm s a x (Q : mm → vmst → Prop) : mms s !! a = Some x → Q x s → wp (get_mm a) s Q.
Proof. intros Hx HQ. unfold get_mm. by wp_steps. Qed.
Lemma wp_get_vma s a v (Q : vm_area → vmst → Prop) : vmas s !! a = Some v → Q v s → wp (get_vma a) s Q.
Proof. intros Hx HQ. unfold get_vma. by wp_steps. Qed.
Lemma wp_get_li s a l (Q : vm_area_li → vmst → Prop) : lis s !! a = Some l → Q l s → wp (get_li a) s Q.
Proof. intros Hx HQ. unfold get_li. by wp_steps. Qed.

(** [vmm_map_page] on an object. *)
Lemma map_page_obj s a x T f virt phys flags :
  mm_at s a x T f → (4 ≤ frame_avail (frames s))%nat → 0 < flags < PAGE_SIZE → 0 ≤ phys < 2 ^ 64 →
  wp (map_page a virt phys flags) s (λ _ s', ∃ x' T',
    mm_at s' a x' T' (<[vpn virt := page_entry phys flags]> f) ∧ vm_grow a s T s' T' [] ∧
    vm_areas x' = vm_areas x ∧ (frame_avail (frames s) ≤ 4 + frame_avail (frames s'))%nat).
Proof.
  intros [Hm Hs] Hav Hfl Hp. unfold map_page. apply wp_bind, (wp_get_mm _ _ x); [done|].
  apply wp_bind, wp_zoom. eapply wp_mono; [by apply (space_map (frames s) x T f)|].
  intros x' fr (T' & Hs' & Hg & Ha & Hvm). apply wp_modify. exists x', T'. split; [|split; [|done]].
  - split; [simpl; by rewrite lookup_insert_eq|done].
  - split; [by apply pt_grow_grow|done|done|done| |].
    + intros b Hb. simpl. by rewrite lookup_insert_ne.
    + intros _. by rewrite Hm.
Qed.

(** The entry of a page that is mapped. *)
Lemma leaf_entry_ok s a x T f v e (Q : Z → vmst → Prop) :
  mm_at s a x T f → f !! vpn v = Some e → e ≠ 0 → Q e s → wp (leaf_entry a v) s Q.
Proof.
  intros [Hm Hs] He Hne HQ. unfold leaf_entry. apply wp_bind, (wp_get_mm _ _ x); [done|].
  apply wp_zoom. unfold read. apply wp_gets.
  pose proof (sp_walk _ _ _ _ Hs v) as Hw. rewrite He in Hw. simpl in Hw.
  replace (set_frames (frames s) s) with s by (by destruct s).
  unfold walk in Hw. repeat case_match; congruence.
Qed.

Lemma int_off_ok s pg (Q : Z → vmst → Prop) : 0 ≤ pg < 2 ^ 19 → Q (pg * PAGE_SIZE) s → wp (int_off pg) s Q.
Proof.
  intros Hp HQ. unfold int_off, PAGE_SIZE in *. destruct (Z.leb_spec (2 ^ 31) (pg * 4096)); [lia|]. by apply wp_ret.
Qed.

(** A loop that maps consecutive pages: [next] gives the frame of each. *)
Lemma map_loop_ok a v flags (next : Z → M vmst Z) (I : list Z → list Z → vmst → Prop) n s x T f :
  mm_at s a x T f → 0 < flags < PAGE_SIZE → Z.of_nat n ≤ 2 ^ 19 → (5 * n ≤ frame_avail (frames s))%nat →
  I [] [] s →
  (∀ ps D s1 x1 T1, (length ps < n)%nat → I ps D s1 → mm_at s1 a x1 T1 (insert_pages v (map (λ p, page_entry p flags) ps) f) →
    vm_grow a s T s1 T1 D → (5 ≤ frame_avail (frames s1))%nat →
    wp (next (Z.of_nat (length ps) * PAGE_SIZE)) s1 (λ p s2, ∃ D',
      0 ≤ p < 2 ^ 64 ∧ mm_at s2 a x1 T1 (insert_pages v (map (λ p, page_entry p flags) ps) f) ∧
      vm_grow a s1 T1 s2 T1 D' ∧ (frame_avail (frames s1) ≤ 1 + frame_avail (frames s2))%nat ∧
      ∀ s3 T3, vm_grow a s2 T1 s3 T3 [] → I (ps ++ [p]) (D ++ D') s3)) →
  wp (for_ n 0 (λ pg, let* off := int_off pg in let* phys := next off in map_page a (w64 (v + off)) phys flags)) s
    (λ _ s', ∃ x' T' ps D, length ps = n ∧
      mm_at s' a x' T' (insert_pages v (map (λ p, page_entry p flags) ps) f) ∧ vm_grow a s T s' T' D ∧
      vm_areas x' = vm_areas x ∧ I ps D s' ∧ (frame_avail (frames s) ≤ 5 * n + frame_avail (frames s'))%nat).
Proof.
  intros Hx Hfl Hn Hav H0 Hnext.
  set (P := λ (i : Z) s', ∃ x' T' ps D, Z.of_nat (length ps) = i ∧
    mm_at s' a x' T' (insert_pages v (map (λ p, page_entry p flags) ps) f) ∧ vm_grow a s T s' T' D ∧
    vm_areas x' = vm_areas x ∧ I ps D s' ∧ (frame_avail (frames s) ≤ 5 * length ps + frame_avail (frames s'))%nat).
  eapply wp_mono; [apply (wp_for P)|].
  - exists x, T, [], []. split; [done|]. split; [done|]. split; [|split; [done|split; [done|lia]]].
    split; try done. apply grow_refl; [apply Hx|]. intros p q Hq. by eapply pt_used; [apply Hx|].
  - intros i s1 Hi (x1 & T1 & ps & D & <- & H1 & G1 & Hv1 & HI & Ha1).
    apply wp_bind, int_off_ok; [lia|]. apply wp_bind.
    eapply wp_mono; [apply (Hnext ps D s1 x1 T1); try done; lia|].
    intros p s2 (D' & Hp & H2 & G2 & Ha2 & HI2).
    eapply wp_mono; [apply (map_page_obj s2 a x1 T1 _ _ _ _ H2); [lia|done|done]|].
    intros [] s3 (x3 & T3 & H3 & G3 & Hv3 & Ha3).
    pose proof (vm_grow_trans _ _ _ _ _ _ _ _ _ (vm_grow_trans _ _ _ _ _ _ _ _ _ G1 G2) G3) as G.
    rewrite app_nil_r in G. exists x3, T3, (ps ++ [p]), (D ++ D').
    rewrite length_app. simpl. split; [lia|]. split; [|split; [done|split; [congruence|split; [by eapply HI2|lia]]]].
    rewrite map_app. simpl. rewrite insert_pages_snoc, length_map. by rewrite vpn_w64 in H3.
  - intros [] s' (x' & T' & ps & D & Hl & H1 & G1 & Hv1 & HI & Ha1). exists x', T', ps, D.
    assert (length ps = n) as <- by lia. done.
Qed.

(** ** Objects that come and go *)
Lemma fresh_object s B p : objects_ok s B → B !! p = None → p < HEAP_LIMIT →
  mms s !! p = None ∧ vmas s !! p = None ∧ lis s !! p = None.
Proof.
  intros [_ Om Ov Ol] Hp Hlt.
  assert (∀ A (m : gmap Z A), (is_Some (m !! p) → object B p) → m !! p = None) as Hn.
  { intros A m Ho. apply eq_None_not_Some. intros Hs. destruct (Ho Hs) as [[k Hk]|?]; [congruence|lia]. }
  split_and!; apply Hn; [apply Om|apply Ov|apply Ol].
Qed.

Lemma object_weaken B p k a : object B a → object (<[p := k]> B) a.
Proof. intros [Ha|Ha]; [left|by right]. rewrite lookup_insert. by case_decide. Qed.

Lemma object_new B p k : object (<[p := k]> B) p.
Proof. left. by rewrite lookup_insert_eq. Qed.

(** An object of [n] bytes from the heap: a block that was not in use. *)
Definition fresh_block s B (n p : Z) s' B' : Prop :=
  ∃ k, n ≤ k ∧ B !! p = None ∧ B' = <[p := k]> B ∧ p ≠ 0 ∧ p < HEAP_LIMIT ∧
    heap_inv (kheap s') B' ∧ heap_room (kheap s) ≤ heap_room (kheap s') + (n + 32) ∧
    same_blocks B (heap_bytes (kheap s)) (heap_bytes (kheap s')) ∧ s' = set_kheap (kheap s') s.

Lemma kmalloc_obj s B n :
  heap_inv (kheap s) B → 0 < n → n + 32 < heap_room (kheap s) →
  wp (in_kheap (heap_kmalloc n)) s (λ p s', ∃ B', fresh_block s B n p s' B').
Proof.
  intros Hi Hn Hr. apply wp_zoom. eapply wp_mono; [by apply heap_kmalloc_ok|].
  intros p h (k & Hk & Hp & Hi' & Hroom & Hs). exists (<[p := k]> B), k.
  destruct (heap_range _ _ p k Hi' ltac:(by rewrite lookup_insert_eq)) as (? & ? & ?).
  unfold HEAP_START in *. split_and!; try done; lia.
Qed.

Lemma kcalloc_obj s B n :
  heap_inv (kheap s) B → 0 < n → n + 32 < heap_room (kheap s) →
  wp (in_kheap (heap_kcalloc 1 n)) s (λ p s', ∃ B', fresh_block s B n p s' B').
Proof.
  intros Hi Hn Hr. apply wp_zoom. eapply wp_mono; [apply heap_kcalloc_ok; [done|lia|lia]|].
  intros p h (k & Hk & Hp & Hi' & Hroom & Hs & _). exists (<[p := k]> B), k.
  destruct (heap_range _ _ p k Hi' ltac:(by rewrite lookup_insert_eq)) as (? & ? & ?).
  unfold HEAP_START in *. rewrite Z.mul_1_l in *. split_and!; try done; lia.
Qed.

Lemma objects_heap s h B B' : objects_ok s B → heap_inv h B' →
  (∀ a, object B a → object B' a) → objects_ok (set_kheap h s) B'.
Proof. intros [Oh Om Ov Ol] Hi Hw. split; simpl; eauto. Qed.

(** New blocks in the heap, of at most [n] bytes; the others are untouched. *)
Record heap_step s B s' B' (n : Z) : Prop := {
  hs_ok : objects_ok s' B';
  hs_sub : B ⊆ B';
  hs_bytes : same_blocks B (heap_bytes (kheap s)) (heap_bytes (kheap s'));
  hs_room : heap_room (kheap s) ≤ heap_room (kheap s') + n;
}.

Lemma heap_step_refl s B n : objects_ok s B → 0 ≤ n → heap_step s B s B n.
Proof. intros. by split; [done|done|intros ?|lia]. Qed.

Lemma heap_step_trans s B s1 B1 s2 B2 n1 n2 :
  heap_step s B s1 B1 n1 → heap_step s1 B1 s2 B2 n2 → heap_step s B s2 B2 (n1 + n2).
Proof.
  intros [O1 S1 Y1 R1] [O2 S2 Y2 R2]. split; [done|by etrans| |lia].
  intros p n x Hp Hx. rewrite (Y2 p n x), (Y1 p n x); try done. by eapply lookup_weaken.
Qed.

Lemma vm_grow_heap_step a s T s' T' D B : objects_ok s B → vm_grow a s T s' T' D → heap_step s B s' B 0.
Proof.
  intros Ho G. split; [by eapply vm_grow_objects|done| |rewrite (vg_heap _ _ _ _ _ _ G); lia].
  intros p n x _ _. by rewrite (vg_heap _ _ _ _ _ _ G).
Qed.

(** What [mm_insert_vma] leaves: a new node in front, one more reference. *)
Record inserted s a x L vma v (li : Z) s' B B' : Prop := {
  in_heap_ok : heap_step s B s' B' 56;
  in_frames_ok : frames s' = frames s;
  in_mms : mms s' = <[a := set_vm_areas x li]> (mms s);
  in_vmas : vmas s' = <[vma := set_v_refcnt (s32 (v_refcnt v + 1)) v]> (vmas s);
  in_seg : areas s' (set_vm_areas x li) ((li, vma) :: L);
  in_fresh : lis s !! li = None ∧ B !! li = None;
  in_lis l : l ≠ li → l ∉ L.*1 → lis s' !! l = lis s !! l;
  in_block : ∃ k, B' = <[li := k]> B;
}.

Lemma insert_vma_ok s B a x L vma v :
  objects_ok s B → mms s !! a = Some x → areas s x L → vmas s !! vma = Some v →
  56 < heap_room (kheap s) →
  wp (mm_insert_vma a vma) s (λ _ s', ∃ li B', inserted s a x L vma v li s' B B').
Proof.
  intros Ho Hx [HL1 HL2] Hv Hr. unfold mm_insert_vma. apply wp_bind.
  eapply wp_mono; [apply (kmalloc_obj s B); [apply Ho|done|exact Hr]|].
  intros li s1 (B' & k & Hk & Hp & -> & Hne & Hlt & Hi & Hroom & Hsb & ->).
  destruct (fresh_object s B li Ho Hp Hlt) as (_ & _ & Hnl). set (h := kheap s1) in *.
  unfold put_li, put_vma, put_mm. wp_steps. apply wp_bind, (wp_get_vma _ _ v); [done|]. wp_steps.
  apply wp_bind, (wp_get_li _ _ (VmAreaLi vma 0 0)); [simpl; by rewrite lookup_insert_eq|]. wp_steps.
  apply wp_bind, (wp_get_mm _ _ x); [done|].
  apply wp_bind, (wp_get_li _ _ (VmAreaLi vma 0 0)); [simpl; by rewrite lookup_insert_eq|]. wp_steps.
  simpl. unfold set_lis. simpl. rewrite !insert_insert_eq.
  assert (∀ b, object B b → object (<[li := k]> B) b) as Hw by (intros b; apply object_weaken).
  assert (∀ m1 m2 m3, (∀ b, is_Some (m1 !! b) → object (<[li := k]> B) b) →
    (∀ b, is_Some (m2 !! b) → object (<[li := k]> B) b) → (∀ b, is_Some (m3 !! b) → object (<[li := k]> B) b) →
    objects_ok (Vm (frames s) h m1 m2 m3) (<[li := k]> B)) as Hok by (intros; by split).
  assert (∀ A (m : gmap Z A) i (y : A), (∀ b, is_Some (m !! b) → object B b) → object (<[li := k]> B) i →
    ∀ b, is_Some (<[i := y]> m !! b) → object (<[li := k]> B) b) as Hins.
  { intros A m i y Hm Hi0 b. rewrite lookup_insert. case_decide; [by subst|]. eauto. }
  assert (object (<[li := k]> B) a) as Hoa by (apply Hw, (ob_mms _ _ Ho); by rewrite Hx).
  assert (object (<[li := k]> B) vma) as Hovma by (apply Hw, (ob_vmas _ _ Ho); by rewrite Hv).
  pose proof (object_new B li k) as Honew. destruct Ho as [Oh Om Ov Ol].
  assert (∀ ls, (∀ b, is_Some (ls !! b) → object (<[li := k]> B) b) →
    li_seg ls 0 li ((li, vma) :: L) → NoDup ((li, vma) :: L).*1 → (∀ l, l ≠ li → l ∉ L.*1 → ls !! l = lis s !! l) →
    inserted s a x L vma v li (Vm (frames s) h (<[a := set_vm_areas x li]> (mms s))
      (<[vma := set_v_refcnt (s32 (v_refcnt v + 1)) v]> (vmas s)) ls) B (<[li := k]> B)) as Hdone.
  { intros ls Hols Hseg Hnd Hls. split; [|done|done|done|by split|done|done|by exists k].
    split; [apply Hok; [by apply Hins..|done]|by apply insert_subseteq|done|done]. }
  assert (li ∉ L.*1) as HliL.
  { intros Hin. assert (∀ L p c, li_seg (lis s) p c L → li ∈ L.*1 → is_Some (lis s !! li)) as Hdom.
    { clear. induction L as [|[l w] L IH]; intros p c; simpl; [by intros _ ?%not_elem_of_nil|].
      intros (_ & _ & nx & Hl & Hr) [->|Hin]%elem_of_cons; [by rewrite Hl|by eapply IH]. }
    apply (Hdom L _ _ HL1) in Hin as [? ?]. congruence. }
  destruct L as [|[l w] L]; simpl in HL1.
  - rewrite HL1. simpl. wp_steps. exists li, (<[li := k]> B). apply (Hdone (<[li := VmAreaLi vma 0 0]> (lis s))).
    + by apply Hins.
    + split; [done|]. split; [done|]. exists 0. by rewrite lookup_insert_eq.
    + simpl. apply list.NoDup_singleton.
    + intros l Hl _. by rewrite lookup_insert_ne.
  - destruct HL1 as (Hh & Hl0 & nx & Hl & Hseg). rewrite Hh.
    destruct (Z.eqb_spec l 0); [done|]. simpl. wp_steps.
    assert (l ≠ li) as Hll by (intros ->; congruence).
    apply wp_bind, (wp_get_li _ _ (VmAreaLi w nx 0)); [simpl; by rewrite lookup_insert_ne|]. wp_steps.
    exists li, (<[li := k]> B). apply (Hdone (<[l := VmAreaLi w nx li]> (<[li := VmAreaLi vma l 0]> (lis s)))).
    + intros b. rewrite lookup_insert. case_decide; [subst; intros _; apply Hw, Ol; by rewrite Hl|by apply Hins].
    + split; [done|]. split; [done|]. exists l. rewrite lookup_insert_ne, lookup_insert_eq by done.
      split; [done|]. split; [done|]. split; [done|]. exists nx. rewrite lookup_insert_eq. split; [done|].
      simpl in HL2. apply list.NoDup_cons in HL2 as [Hnl2 _]. eapply li_seg_ext; [|exact Hseg].
      intros l' Hl'. rewrite !lookup_insert_ne; [done|..]; intros ->; [|done].
      apply HliL. simpl. by right.
    + simpl. constructor; [exact HliL|exact HL2].
    + intros l' Hl' Hn. simpl in Hn. apply not_elem_of_cons in Hn as [Hn _]. by rewrite !lookup_insert_ne.
Qed.

(** ** Mapping ranges of pages *)
Lemma map_flags_range prot user : 0 < map_flags prot user < PAGE_SIZE.
Proof. unfold map_flags, prot_to_x86_prot. by destruct (negb _), user. Qed.

Lemma aligned_mask v : v mod PAGE_SIZE = 0 → negb (Z.land v PAGE_MASK =? 0) = false.
Proof. intros Hv. by rewrite land_page_mask, Hv. Qed.

Lemma zero_page_same m m' q : zero_page m q → same_page m m' q → zero_page m' q.
Proof. intros Hz Hs k Hk. by rewrite Hs, Hz. Qed.

(** [vmm_map_range] of consecutive frames. *)
Definition range_entries (phys flags : Z) (n : nat) : list Z :=
  map (λ i, page_entry (w64 (phys + i * PAGE_SIZE)) flags) (seqZ 0 (Z.of_nat n)).

Lemma map_range_ok s a x T f virt phys n prot user :
  mm_at s a x T f → virt mod PAGE_SIZE = 0 → phys mod PAGE_SIZE = 0 → 0 ≤ n ≤ 2 ^ 19 →
  (5 * Z.to_nat n ≤ frame_avail (frames s))%nat →
  wp (vmm_map_range a virt phys n prot user) s (λ _ s', ∃ x' T',
    mm_at s' a x' T' (insert_pages virt (range_entries phys (map_flags prot user) (Z.to_nat n)) f) ∧
    vm_grow a s T s' T' [] ∧ vm_areas x' = vm_areas x ∧
    (frame_avail (frames s) ≤ 5 * Z.to_nat n + frame_avail (frames s'))%nat).
Proof.
  intros Hx Hv Hp Hn Hav. unfold vmm_map_range. rewrite !aligned_mask by done. simpl orb. cbv iota.
  set (flags := map_flags prot user).
  eapply wp_mono; [apply (map_loop_ok a virt flags (λ off, mret_ (w64 (phys + off)))
    (λ ps D _, D = [] ∧ ps = map (λ i, w64 (phys + i * PAGE_SIZE)) (seqZ 0 (Z.of_nat (length ps)))) _ s x T f)|].
  - done.
  - apply map_flags_range.
  - lia.
  - done.
  - done.
  - intros ps D s1 x1 T1 _ [-> Hps] H1 G1 _. apply wp_ret. exists []. split; [apply w64_range|].
    split; [done|]. split; [|split; [lia|]].
    + split; try done. apply grow_refl; [apply H1|]. intros q r Hq. by eapply pt_used; [apply H1|].
    + intros _ _ _. split; [done|]. rewrite length_app. simpl.
      rewrite Nat2Z.inj_add, seqZ_app, map_app, <- Hps by lia. simpl. by rewrite Z.add_0_l.
  - intros [] s' (x' & T' & ps & D & Hl & H1 & G1 & Hv1 & [-> Hps] & Ha1). exists x', T'.
    split; [|done]. unfold range_entries. rewrite <- Hl, <- (map_map (λ i, w64 (phys + i * PAGE_SIZE)) (λ p, page_entry p flags)).
    by rewrite <- Hps.
Qed.

(** Fresh zeroed frames [D], mapped at consecutive pages. *)
Lemma map_fresh_ok s a x T f start n flags :
  mm_at s a x T f → 0 < flags < PAGE_SIZE → Z.of_nat n ≤ 2 ^ 19 → (5 * n ≤ frame_avail (frames s))%nat →
  wp (for_ n 0 (λ i, let* off := int_off i in let* frame := in_frames frame_alloc in map_page a (w64 (start + off)) frame flags)) s
    (λ _ s', ∃ x' T' D, length D = n ∧ mm_at s' a x' T' (insert_pages start (map (λ q, page_entry q flags) D) f) ∧
      vm_grow a s T s' T' D ∧ vm_areas x' = vm_areas x ∧
      (∀ q, q ∈ D → zero_page (frame_mem (frames s')) q ∧ good_frame q) ∧
      (frame_avail (frames s) ≤ 5 * n + frame_avail (frames s'))%nat).
Proof.
  intros Hx Hfl Hn Hav.
  eapply wp_mono; [apply (map_loop_ok a start flags (λ _, in_frames frame_alloc)
    (λ ps D s1, ps = D ∧ ∀ q, q ∈ D → zero_page (frame_mem (frames s1)) q ∧ good_frame q) n s x T f); try done|].
  - split; [done|]. by intros q ?%not_elem_of_nil.
  - intros ps D s1 x1 T1 _ [-> HD] [Hm1 H1] G1 Hav1. apply wp_zoom.
    eapply wp_mono; [by apply (alloc_grow (frames s1) x1 T1); [done|lia]|].
    intros p fr (Hsp & Gp & Hz & Hgood & Hsame). exists [p].
    assert (0 ≤ p < 2 ^ 64) by (unfold good_frame, PHYS_LIMIT, PAGE_SIZE in Hgood; lia).
    split; [done|]. split; [by split|]. split; [by split|]. split; [|].
    + pose proof (gr_avail _ _ _ _ _ Gp) as Ha. simpl in Ha. simpl. lia.
    + intros s3 T3 G3. split; [done|]. intros q [Hq|Hq]%elem_of_app.
      * destruct (HD q Hq) as [Hqz Hqg]. split; [|done].
        destruct (gr_data _ _ _ _ _ (vg_grow _ _ _ _ _ _ G1) q Hq) as [_ Hqn].
        assert (frame_used (frames s1) q) as Hqu by (apply (gr_used _ _ _ _ _ (vg_grow _ _ _ _ _ _ G1)); by right; right).
        eapply zero_page_same; [by eapply zero_page_same, Hsame|].
        apply (gr_other _ _ _ _ _ (vg_grow _ _ _ _ _ _ G3)); [|done]. by eapply grow_keeps.
      * apply list_elem_of_singleton in Hq as ->. split; [|done]. eapply zero_page_same; [done|].
        eapply (grow_data_kept _ _ _ _ _ _ _ _ _ Gp (vg_grow _ _ _ _ _ _ G3)). by apply list_elem_of_singleton.
  - intros [] s1 (x1 & T1 & ps & D & Hl & H1 & G1 & Hv1 & [-> HD] & Ha1). by exists x1, T1, D.
Qed.

(** The node [li] for the area [v] at [vma] has been put in front of the list. *)
Record listed s B L vma v (li : Z) s' B' : Prop := {
  ls_vmas : vmas s' = <[vma := v]> (vmas s);
  ls_fresh : lis s !! li = None ∧ B !! li = None;
  ls_lis l : l ≠ li → l ∉ L.*1 → lis s' !! l = lis s !! l;
  ls_block : ∃ k, B' = <[li := k]> B;
}.

(** The state after [anon_mmap]: fresh zeroed frames [D], mapped at
    consecutive pages and listed as an area of their own. *)
Record anon_post s B a x T f L start pages prot user s' x' T' D (vma li : Z) B' : Prop := {
  an_mm : mm_at s' a x' T' (insert_pages start (map (λ q, page_entry q (map_flags prot user)) D) f);
  an_len : length D = Z.to_nat pages;
  an_grow : grow (frames s) T (frames s') T' D;
  an_zero q : q ∈ D → zero_page (frame_mem (frames s')) q ∧ good_frame q;
  an_areas : areas s' x' ((li, vma) :: L);
  an_vmas : vmas s' = <[vma := VmArea 1 VM_AREA_REG start pages user (w8 prot)]> (vmas s);
  an_fresh : vmas s !! vma = None ∧ lis s !! li = None;
  an_block : (∃ k j, B' = <[li := j]> (<[vma := k]> B)) ∧ B !! vma = None ∧ B !! li = None ∧ li ≠ vma;
  an_heap : heap_step s B s' B' 120;
  an_mms b : b ≠ a → mms s' !! b = mms s !! b;
  an_lis l : l ≠ li → l ∉ L.*1 → lis s' !! l = lis s !! l;
  an_avail : (frame_avail (frames s) ≤ 5 * Z.to_nat pages + frame_avail (frames s'))%nat;
}.

Lemma anon_mmap_ok s B a x T f L start pages prot user :
  objects_ok s B → mm_at s a x T f → areas s x L → start mod PAGE_SIZE = 0 → 0 ≤ pages ≤ 2 ^ 19 →
  (5 * Z.to_nat pages ≤ frame_avail (frames s))%nat → 120 < heap_room (kheap s) →
  wp (anon_mmap a start pages prot user) s (λ _ s', ∃ x' T' D vma li B',
    anon_post s B a x T f L start pages prot user s' x' T' D vma li B').
Proof.
  intros Ho Hx Har Hst Hpg Hav Hroom. unfold anon_mmap. rewrite aligned_mask by done.
  set (flags := map_flags prot user). apply wp_bind.
  eapply wp_mono; [apply (map_fresh_ok s a x T f); [done|apply map_flags_range|lia|done]|].
  - intros [] s1 (x1 & T1 & D & Hl & [Hm1 Hs1] & G1 & Hv1 & HD & Ha1).
    pose proof (vm_grow_heap_step _ _ _ _ _ _ _ Ho G1) as [Ho1 _ _ _].
    unfold new_vma. apply wp_bind, wp_bind.
    eapply wp_mono; [apply (kcalloc_obj s1 B); [apply Ho1|done|]|].
    { rewrite (vg_heap _ _ _ _ _ _ G1). unfold sizeof_vm_area. lia. }
    intros vma s2 (B2 & k & Hk & Hp & -> & Hne & Hlt & Hi & Hroom2 & Hsb & ->).
    destruct (fresh_object s1 B vma Ho1 Hp Hlt) as (_ & Hnv & _). set (h := kheap s2) in *.
    rewrite (vg_heap _ _ _ _ _ _ G1) in Hroom2, Hsb. unfold put_vma. wp_steps.
    apply wp_bind, (wp_get_vma _ _ (VmArea 0 VM_AREA_REG 0 0 false 0)); [simpl; by rewrite lookup_insert_eq|]. wp_steps.
    unfold set_vmas, set_kheap. simpl. rewrite insert_insert_eq.
    set (v := VmArea 0 VM_AREA_REG start pages user (w8 prot)).
    set (s3 := Vm (frames s1) h (mms s1) (<[vma := v]> (vmas s1)) (lis s1)).
    assert (∀ b, object B b → object (<[vma := k]> B) b) as Hw by (intros b; apply object_weaken).
    assert (objects_ok s3 (<[vma := k]> B)) as Ho3.
    { destruct Ho1 as [Oh Om Ov Ol]. split; simpl; [done|by eauto| |by eauto].
      intros b. rewrite lookup_insert. case_decide; [intros _; subst; apply object_new|by eauto]. }
    eapply wp_mono; [apply (insert_vma_ok s3 _ a x1 L vma v Ho3)|].
    + done.
    + destruct Har as [HL1 HL2]. split; [|done]. simpl. by rewrite Hv1, (vg_lis _ _ _ _ _ _ G1).
    + simpl. by rewrite lookup_insert_eq.
    + unfold sizeof_vm_area in Hroom2. simpl. lia.
    + intros [] s4 (li & B4 & [Hh Hf Hm Hv Ha [Hfr HfrB] Hlis [j HB4]]). simpl in *.
      exists (set_vm_areas x1 li), T1, D, vma, li, B4. 
      split; try done.
      * split; [rewrite Hm; by rewrite lookup_insert_eq|]. rewrite Hf. by apply space_set_areas.
      * rewrite Hf. apply G1.
      * intros q. rewrite Hf. apply HD.
      * rewrite Hv, insert_insert_eq. unfold v, set_v_refcnt. simpl. by rewrite (vg_vmas _ _ _ _ _ _ G1).
      * rewrite <- (vg_vmas _ _ _ _ _ _ G1), <- (vg_lis _ _ _ _ _ _ G1). done.
      * split; [by exists k, j|]. split; [done|]. rewrite lookup_insert in HfrB. by case_decide.
      * destruct Hh as [O4 S4 Y4 R4]. split; [done| | |simpl in R4; unfold sizeof_vm_area in *; lia].
        -- etrans; [|exact S4]. by apply insert_subseteq.
        -- intros p n z Hp' Hz. rewrite (Y4 p n z); [by apply (Hsb p n z)| |done]. rewrite lookup_insert_ne; congruence.
      * intros b Hb. rewrite Hm, lookup_insert_ne by done. by apply G1.
      * intros l Hl1 Hl2. rewrite Hlis by done. by rewrite (vg_lis _ _ _ _ _ _ G1).
      * rewrite Hf. done.
Qed.

(** ** Steps of one address space

    [mm_step a s B T L s' B' T' L' D n k]: the address space at [a] has taken
    the data frames [D], perhaps more tables, at most [k] frames and at most
    [n] bytes of the heap; the other spaces, their lists and every area (but
    for its reference count) are as before. *)
Record mm_step (a : Z) s B T L s' B' T' L' D (n : Z) (k : nat) : Prop := {
  st_grow : grow (frames s) T (frames s') T' D;
  st_heap : heap_step s B s' B' n;
  st_mms b : b ≠ a → mms s' !! b = mms s !! b;
  st_vmas w v : vmas s !! w = Some v → ∃ r, vmas s' !! w = Some (set_v_refcnt r v);
  st_lis l : is_Some (lis s !! l) → l ∉ L.*1 → lis s' !! l = lis s !! l;
  st_nodes l : l ∈ L'.*1 → l ∈ L.*1 ∨ lis s !! l = None;
  st_avail : (frame_avail (frames s) ≤ k + frame_avail (frames s'))%nat;
  st_sub t : t ∈ L → t ∈ L';
  st_blocks p : is_Some (B' !! p) → is_Some (B !! p) ∨ p = a ∨ p ∈ L'.*1 ∨ p ∈ L'.*2;
}.

Lemma list_fst_snd_mono (L L' : list (Z * Z)) p :
  (∀ t, t ∈ L → t ∈ L') → p ∈ L.*1 ∨ p ∈ L.*2 → p ∈ L'.*1 ∨ p ∈ L'.*2.
Proof.
  intros Hs [Hp|Hp]; apply list_elem_of_fmap in Hp as (t & -> & Ht); [left|right]; apply list_elem_of_fmap;
    exists t; (split; [done|by apply Hs]).
Qed.

(** The blocks after a node and an area object are the old ones and these two. *)
Lemma cons_blocks B (L : list (Z * Z)) (a li vma j k p : Z) :
  is_Some (<[li := j]> (<[vma := k]> B) !! p) →
  is_Some (B !! p) ∨ p = a ∨ p ∈ ((li, vma) :: L).*1 ∨ p ∈ ((li, vma) :: L).*2.
Proof.
  rewrite lookup_insert. case_decide as E; [intros _; subst; right; right; left; simpl; left|].
  rewrite lookup_insert. case_decide as E'; [intros _; subst; right; right; right; simpl; left|by left].
Qed.

Lemma mm_step_trans a s B T L s1 B1 T1 L1 D1 n1 k1 s2 B2 T2 L2 D2 n2 k2 :
  mm_step a s B T L s1 B1 T1 L1 D1 n1 k1 → mm_step a s1 B1 T1 L1 s2 B2 T2 L2 D2 n2 k2 →
  mm_step a s B T L s2 B2 T2 L2 (D1 ++ D2) (n1 + n2) (k1 + k2).
Proof.
  intros [G1 H1 M1 V1 I1 N1 A1 S1 K1] [G2 H2 M2 V2 I2 N2 A2 S2 K2].
  split; [by eapply grow_trans|by eapply heap_step_trans|..|lia|by auto|].
  - intros b Hb. by rewrite M2, M1.
  - intros w v Hv. destruct (V1 w v Hv) as [r1 Hr]. apply (V2 w _ Hr).
  - intros l Hl Hn. rewrite I2, I1; [done|done|done|by rewrite I1|].
    intros [?|Hl1]%N1; [done|]. rewrite Hl1 in Hl. by destruct Hl.
  - intros l [Hl|Hl]%N2; [by apply N1|]. destruct (decide (l ∈ L.*1)) as [|Hn]; [by left|]. right.
    destruct (lis s !! l) as [y|] eqn:E; [|done]. rewrite I1, E in Hl; [done|by rewrite E|done].
  - intros p [Hp|[Hp|Hp]]%K2; [|by right; left|by right; right].
    destruct (K1 p Hp) as [?|[?|Hl]]; [by left|by right; left|]. right. right. by eapply list_fst_snd_mono.
Qed.

Lemma mm_step_refl a s B x T f L : objects_ok s B → mm_at s a x T f → mm_step a s B T L s B T L [] 0 0.
Proof.
  intros Ho Hx. split; [|by apply heap_step_refl|done|by intros w v Hv; exists (v_refcnt v); destruct v|done|by left|lia|done|by left].
  apply grow_refl; [apply Hx|]. intros p q Hq. by eapply pt_used; [apply Hx|].
Qed.

(** The blocks [B'] are those of [B] and the objects of the space at [a] with
    the list [L], and nothing else. *)
Definition space_blocks B B' (a : Z) (L : list (Z * Z)) : Prop :=
  B ⊆ B' ∧ ∀ p, is_Some (B' !! p) → is_Some (B !! p) ∨ p = a ∨ p ∈ L.*1 ∨ p ∈ L.*2.

Lemma mm_step_blocks a s B T L s' B' T' L' D n k :
  mm_step a s B T L s' B' T' L' D n k → space_blocks B B' a L'.
Proof. intros [_ Hh _ _ _ _ _ _ K]. split; [apply Hh|exact K]. Qed.

Lemma space_blocks_step a s B0 B T L s' B' T' L' D n k :
  space_blocks B0 B a L → mm_step a s B T L s' B' T' L' D n k → space_blocks B0 B' a L'.
Proof.
  intros [S1 K1] [_ Hh _ _ _ _ _ Sb K]. split; [etrans; [exact S1|apply Hh]|].
  intros p [Hp|[Hp|Hp]]%K; [|by right; left|by right; right].
  destruct (K1 p Hp) as [?|[?|Hl]]; [by left|by right; left|]. right. right. by eapply list_fst_snd_mono.
Qed.

(** The step seen from another address space. *)
Lemma mm_step_other a s B T L s' B' T' L' D n k b y U g :
  mm_step a s B T L s' B' T' L' D n k → b ≠ a → mm_at s b y U g → separate U T →
  mm_at s' b y U g ∧ separate U T'.
Proof.
  intros S Hb [Hm Hs] Hsep.
  destruct (grow_other_space _ _ _ _ _ _ _ _ (st_grow _ _ _ _ _ _ _ _ _ _ _ _ S) Hs Hsep) as [Hs' Hsep'].
  split; [|done]. split; [|done]. by rewrite (st_mms _ _ _ _ _ _ _ _ _ _ _ _ S).
Qed.

Lemma li_seg_dom ls L : ∀ p c l, li_seg ls p c L → l ∈ L.*1 → is_Some (ls !! l).
Proof.
  induction L as [|[l' w] L IH]; intros p c l; simpl; [by intros _ ?%not_elem_of_nil|].
  intros (_ & _ & nx & Hl & Hr) [->|Hin]%elem_of_cons; [by rewrite Hl|by eapply IH].
Qed.

Definition apart_lists L L2 : Prop := ∀ l, l ∈ L2.*1 → l ∉ L.*1.

Lemma mm_step_list a s B T L s' B' T' L' D n k p c L2 :
  mm_step a s B T L s' B' T' L' D n k → li_seg (lis s) p c L2 → apart_lists L L2 →
  li_seg (lis s') p c L2 ∧ apart_lists L' L2.
Proof.
  intros S Hl Hd. split.
  - eapply li_seg_ext; [|done]. intros l Hin. apply (st_lis _ _ _ _ _ _ _ _ _ _ _ _ S); [by eapply li_seg_dom|by apply Hd].
  - intros l Hin Hin'. destruct (st_nodes _ _ _ _ _ _ _ _ _ _ _ _ S l Hin') as [?|Hn]; [by eapply Hd|].
    destruct (li_seg_dom _ _ _ _ _ Hl Hin) as [? ?]. congruence.
Qed.

Lemma anon_mm_step s B a x T f L start pages prot user s' x' T' D vma li B' :
  anon_post s B a x T f L start pages prot user s' x' T' D vma li B' →
  mm_step a s B T L s' B' T' ((li, vma) :: L) D 120 (5 * Z.to_nat pages).
Proof.
  intros [Hm Hl Hg Hz Ha Hv Hf ((k & j & ->) & _) Hh Hmm Hlis Hav]. destruct Hf as [Hf1 Hf2]. split; try done.
  - intros w v Hw. rewrite Hv, lookup_insert_ne by congruence. exists (v_refcnt v). rewrite Hw. by destruct v.
  - intros l Hl' Hn. apply Hlis; [|done]. intros ->. rewrite Hf2 in Hl'. by destruct Hl'.
  - intros l. simpl. intros [->|?]%elem_of_cons; [by right|by left].
  - intros t. by right.
  - intros p. apply cons_blocks.
Qed.

(** The records of the areas on a list, up to their reference counts. *)
Definition areas_of s L (vs : list vm_area) : Prop :=
  Forall2 (λ lv v, ∃ r, vmas s !! lv.2 = Some (set_v_refcnt r v)) L vs.

Lemma mm_step_areas a s B T L s' B' T' L' D n k L2 vs :
  mm_step a s B T L s' B' T' L' D n k → areas_of s L2 vs → areas_of s' L2 vs.
Proof.
  intros S Hf. eapply list.Forall2_impl; [exact Hf|]. intros [l w] v [r Hr].
  destruct (st_vmas _ _ _ _ _ _ _ _ _ _ _ _ S _ _ Hr) as [r' Hr']. by exists r'.
Qed.

Lemma areas_of_cons a s B T L s' B' T' L' D n k vs li vma r v :
  mm_step a s B T L s' B' T' L' D n k → areas_of s L vs → vmas s' !! vma = Some (set_v_refcnt r v) →
  areas_of s' ((li, vma) :: L) (v :: vs).
Proof. intros S Hf Hv. constructor; [by exists r|by eapply mm_step_areas]. Qed.

(** ** Sharing the areas of the kernel *)
Definition page_entries g (v n : Z) : list Z := map (λ i, default 0 (g !! vpn (v + i * PAGE_SIZE))) (seqZ 0 n).
Definition share_entries g (v : vm_area) : list Z :=
  map (λ e, page_entry e (map_flags (v_prot v) (v_user v))) (page_entries g (v_start v) (v_pages v)).
Definition resident g (v : vm_area) : Prop :=
  0 ≤ v_pages v ≤ 2 ^ 19 ∧
  ∀ i, 0 ≤ i < v_pages v → ∃ e, g !! vpn (v_start v + i * PAGE_SIZE) = Some e ∧ e ≠ 0.

Lemma space_entry_range (s : St) x T f w e : space s x T f → f !! vpn w = Some e → 0 ≤ e < 2 ^ 64.
Proof.
  intros Hs He. pose proof (sp_walk _ _ _ _ Hs w) as Hw. rewrite He in Hw. simpl in Hw. subst e.
  unfold walk. repeat case_match; try lia. apply ld64_range.
Qed.

Lemma share_vma_ok s B a x T f L b y U g vma v :
  objects_ok s B → mm_at s a x T f → areas s x L → a ≠ b → mm_at s b y U g → separate U T →
  vmas s !! vma = Some v → resident g v → (5 * Z.to_nat (v_pages v) ≤ frame_avail (frames s))%nat →
  56 < heap_room (kheap s) →
  wp (mm_share_vma a b vma) s (λ _ s', ∃ x' T' li B', let L' := (li, vma) :: L in
    mm_at s' a x' T' (insert_pages (v_start v) (share_entries g v) f) ∧ areas s' x' L' ∧
    mm_step a s B T L s' B' T' L' [] 56 (5 * Z.to_nat (v_pages v)) ∧
    (∀ vs, areas_of s L vs → areas_of s' L' (v :: vs)) ∧
    listed s B L vma (set_v_refcnt (s32 (v_refcnt v + 1)) v) li s' B').
Proof.
  intros Ho Hx Har Hab Hy Hsep Hv [Hpg Hres] Hav Hroom. unfold mm_share_vma.
  apply wp_bind, (wp_get_vma _ _ v); [done|]. apply wp_bind.
  set (flags := map_flags (v_prot v) (v_user v)).
  eapply wp_mono; [apply (map_loop_ok a (v_start v) flags (λ off, leaf_entry b (w64 (v_start v + off)))
    (λ ps D s1, D = [] ∧ ps = page_entries g (v_start v) (Z.of_nat (length ps))) _ s x T f)|].
  - done.
  - apply map_flags_range.
  - lia.
  - done.
  - done.
  - intros ps D s1 x1 T1 Hlt [-> Hps] H1 G1 _.
    destruct (vm_grow_other _ _ _ _ _ _ _ _ _ _ G1 (not_eq_sym Hab) Hy Hsep) as [Hy1 _].
    destruct (Hres (Z.of_nat (length ps)) ltac:(lia)) as (e & He & Hne).
    apply (leaf_entry_ok s1 b y U g _ e); [done|by rewrite vpn_w64|done|]. exists [].
    split; [by eapply space_entry_range; [apply Hy|]|]. split; [done|]. split; [|split; [lia|]].
    + split; try done. apply grow_refl; [apply H1|]. intros q r Hq. by eapply pt_used; [apply H1|].
    + intros _ _ _. split; [done|]. rewrite length_app. simpl. unfold page_entries in *.
      rewrite Nat2Z.inj_add, seqZ_app, map_app, <- Hps by lia. simpl. by rewrite !Z.add_0_l, He.
  - intros [] s1 (x1 & T1 & ps & D & Hl & [Hm1 Hs1] & G1 & Hv1 & [-> Hps] & Ha1).
    pose proof (vm_grow_heap_step _ _ _ _ _ _ _ Ho G1) as [Ho1 _ _ _].
    eapply wp_mono; [apply (insert_vma_ok s1 B a x1 L vma v Ho1)|].
    + done.
    + destruct Har as [HL1 HL2]. split; [|done]. by rewrite Hv1, (vg_lis _ _ _ _ _ _ G1).
    + by rewrite (vg_vmas _ _ _ _ _ _ G1).
    + by rewrite (vg_heap _ _ _ _ _ _ G1).
    + intros [] s2 (li & B2 & [Hh Hf Hm Hvv Ha [Hfr HfrB] Hlis Hbl]). rewrite (vg_lis _ _ _ _ _ _ G1) in Hfr, Hlis.
      exists (set_vm_areas x1 li), T1, li, B2. cbv zeta.
      assert (mm_step a s B T L s2 B2 T1 ((li, vma) :: L) [] 56 (5 * Z.to_nat (v_pages v))) as S.
      2:{ split; [|split; [done|split; [done|split]]].
          3:{ split; [by rewrite Hvv, (vg_vmas _ _ _ _ _ _ G1)|done|done|done]. }
          2:{ intros vs Hvs. eapply areas_of_cons; [done|done|]. rewrite Hvv. by rewrite lookup_insert_eq. }
          split; [rewrite Hm; by rewrite lookup_insert_eq|]. rewrite Hf. apply space_set_areas.
          unfold share_entries. fold flags. replace (v_pages v) with (Z.of_nat (length ps)) by lia. by rewrite <- Hps. }
      split.
      * rewrite Hf. apply G1.
      * replace 56 with (0 + 56) by done. eapply heap_step_trans; [by eapply vm_grow_heap_step|done].
      * intros b' Hb. rewrite Hm, lookup_insert_ne by done. by apply G1.
      * intros w v' Hw. rewrite Hvv, (vg_vmas _ _ _ _ _ _ G1), lookup_insert. case_decide as Hc.
        -- subst w. assert (v' = v) as -> by congruence. eauto.
        -- rewrite Hw. exists (v_refcnt v'). by destruct v'.
      * intros l Hl1 Hl2. apply Hlis; [|done]. intros ->. rewrite Hfr in Hl1. by destruct Hl1.
      * intros l. simpl. intros [->|?]%elem_of_cons; [by right|by left].
      * by rewrite Hf.
      * intros t. by right.
      * intros p. destruct Hbl as [j ->]. rewrite lookup_insert. case_decide as E; [|by left].
        intros _. subst p. right. right. left. simpl. left.
Qed.

(** The map after every area of [vs] has been shared. *)
Definition share_all g (vs : list vm_area) f : gmap Z Z :=
  foldl (λ f v, insert_pages (v_start v) (share_entries g v) f) f vs.
Definition total_pages (vs : list vm_area) : nat := sum_list_with (λ v, Z.to_nat (v_pages v)) vs.

Section kernel.
Variable sym : statics.

Lemma mm_init_loop_ok LK : ∀ vs n a p curr s B x T f L y U g,
  objects_ok s B → mm_at s a x T f → areas s x L → a ≠ kernel_mm sym → mm_at s (kernel_mm sym) y U g →
  separate U T → li_seg (lis s) p curr LK → apart_lists L LK → (length LK ≤ n)%nat →
  areas_of s LK vs → Forall (resident g) vs → (5 * total_pages vs ≤ frame_avail (frames s))%nat →
  56 * Z.of_nat (length LK) < heap_room (kheap s) →
  wp (mm_init_loop sym n a curr) s (λ _ s', ∃ x' T' L' B',
    mm_at s' a x' T' (share_all g vs f) ∧ areas s' x' L' ∧
    mm_step a s B T L s' B' T' L' [] (56 * Z.of_nat (length LK)) (5 * total_pages vs) ∧
    ∀ vs0, areas_of s L vs0 → areas_of s' L' (rev vs ++ vs0)).
Proof.
  induction LK as [|[l w] LK IH]; intros vs n a p curr s B x T f L y U g Ho Hx Har Hak Hy Hsep Hseg Hap Hn Hvs Hres Hav Hroom.
  - simpl in Hseg. subst curr. apply list.Forall2_nil_inv_l in Hvs as ->.
    destruct n; simpl; apply wp_ret; exists x, T, L, B; (split; [done|split; [done|split; [by eapply mm_step_refl|done]]]).
  - destruct Hseg as (-> & Hl0 & nx & Hl & Hseg). destruct n as [|n]; [simpl in Hn; lia|].
    apply list.Forall2_cons_inv_l in Hvs as (v & vs' & [r Hr] & Hvs & ->). simpl in Hr.
    apply list.Forall_cons in Hres as [Hv Hres]. simpl in Hav, Hn. cbn [length] in Hroom.
    cbn [mm_init_loop]. destruct (Z.eqb_spec l 0); [done|]. apply wp_bind, (wp_get_li _ _ (VmAreaLi w nx p)); [done|].
    apply wp_bind. simpl li_vma.
    eapply wp_mono; [apply (share_vma_ok s B a x T f L (kernel_mm sym) y U g w (set_v_refcnt r v)); try done;
      simpl; lia|].
    intros [] s1 (x1 & T1 & li & B1 & H1 & Har1 & S1 & Hao1 & _). set (L1 := (li, w) :: L) in *.
    destruct (mm_step_other _ _ _ _ _ _ _ _ _ _ _ _ _ _ _ _ S1 (not_eq_sym Hak) Hy Hsep) as [Hy1 Hsep1].
    pose proof (st_lis _ _ _ _ _ _ _ _ _ _ _ _ S1 l ltac:(by rewrite Hl) ltac:(apply Hap; simpl; left)) as Hl1.
    apply wp_bind, (wp_get_li _ _ (VmAreaLi w nx p)); [by rewrite Hl1|]. simpl li_next.
    assert (apart_lists L LK) as Hap' by (intros q Hq; apply Hap; simpl; by right).
    destruct (mm_step_list _ _ _ _ _ _ _ _ _ _ _ _ _ _ _ S1 Hseg Hap') as [Hseg1 Hap1].
    pose proof (st_avail _ _ _ _ _ _ _ _ _ _ _ _ S1) as Ha1. simpl in Ha1.
    pose proof (hs_room _ _ _ _ _ (st_heap _ _ _ _ _ _ _ _ _ _ _ _ S1)) as Hr1.
    eapply wp_mono; [eapply (IH vs' n a l nx s1 B1 x1 T1 _ L1 y U g); try done|].
    + apply (hs_ok _ _ _ _ _ (st_heap _ _ _ _ _ _ _ _ _ _ _ _ S1)).
    + lia.
    + eapply mm_step_areas; [exact S1|exact Hvs].
    + fold (total_pages vs') in Hav. lia.
    + lia.
    + intros [] s2 (x2 & T2 & L2 & B2 & H2 & Har2 & S2 & Hao2). exists x2, T2, L2, B2.
      split; [done|]. split; [done|]. split.
      2:{ intros vs0 Hvs0. simpl. rewrite <- app_assoc. apply Hao2. specialize (Hao1 vs0 Hvs0).
          apply list.Forall2_cons_inv_r in Hao1 as (lv & L1' & [r' Hr'] & Hrest & ->).
          constructor; [by exists r'|done]. }
      replace (56 * Z.of_nat (length ((l, w) :: LK))) with (56 + 56 * Z.of_nat (length LK)) by (cbn [length]; lia).
      replace (5 * total_pages (v :: vs'))%nat with (5 * Z.to_nat (v_pages v) + 5 * total_pages vs')%nat
        by (unfold total_pages; simpl; lia).
      by apply (mm_step_trans _ _ _ _ _ _ _ _ _ _ _ _ _ _ _ _ _ _ _ S1 S2).
Qed.

(** The memory map of the kernel, as the address spaces share it. *)
Record kernel_map s (y : mm) U g (LK : list (Z * Z)) (vs : list vm_area) : Prop := {
  km_at : mm_at s (kernel_mm sym) y U g;
  km_list : areas s y LK;
  km_areas : areas_of s LK vs;
  km_resident : Forall (resident g) vs;
}.

Lemma empty_space (s : St) : frame_inv s → space s (Mm 0 0) ∅ ∅.
Proof.
  intros Hi. split; [done| |intros w; by rewrite lookup_empty|by intros p q; rewrite lookup_empty].
  split; [by rewrite lookup_empty|by intros p f; rewrite lookup_empty..].
Qed.

(** [mm_new]: a new object whose map is the kernel's. *)
Record new_space s B s' B' (a : Z) x T f L vs (n : Z) (k : nat) : Prop := {
  ns_mm : mm_at s' a x T f;
  ns_areas : areas s' x L;
  ns_areas_of : areas_of s' L vs;
  ns_fresh : mms s !! a = None ∧ a ≠ 0;
  ns_step : mm_step a s B ∅ [] s' B' T L [] n k;
}.

Lemma mm_new_ok fuel s B y U g LK vs :
  objects_ok s B → kernel_map s y U g LK vs → (length LK ≤ fuel)%nat →
  (5 * total_pages vs ≤ frame_avail (frames s))%nat → 56 * Z.of_nat (length LK) + 48 < heap_room (kheap s) →
  wp (mm_new sym fuel) s (λ a s', ∃ x T L B',
    new_space s B s' B' a x T (share_all g vs ∅) L (rev vs) (56 * Z.of_nat (length LK) + 48) (5 * total_pages vs)).
Proof.
  intros Ho [Hy [HL1 HL2] Hvs Hres] Hn Hav Hroom. unfold mm_new. apply wp_bind.
  eapply wp_mono; [apply (kcalloc_obj s B); [apply Ho|done|unfold sizeof_mm; lia]|].
  intros a s1 (B1 & k & Hk & Hp & -> & Hne & Hlt & Hi & Hroom1 & Hsb & ->).
  destruct (fresh_object s B a Ho Hp Hlt) as (Hna & _ & _). set (h := kheap s1) in *.
  unfold put_mm. wp_steps. unfold set_mms, set_kheap. simpl.
  set (s2 := Vm (frames s) h (<[a := Mm 0 0]> (mms s)) (vmas s) (lis s)).
  assert (objects_ok s2 (<[a := k]> B)) as Ho2.
  { destruct Ho as [Oh Om Ov Ol]. pose proof (object_new B a k) as Hnew.
    assert (∀ b, object B b → object (<[a := k]> B) b) as Hw by (intros b; apply object_weaken).
    split; simpl; [done| |by eauto..]. intros b. rewrite lookup_insert. case_decide; [by subst|by eauto]. }
  assert (kernel_mm sym ≠ a) as Hka by (intros He; destruct Hy as [Hm _]; rewrite He in Hm; congruence).
  assert (mm_at s2 (kernel_mm sym) y U g) as Hy2.
  { destruct Hy as [Hm Hs]. split; [|done]. simpl. by rewrite lookup_insert_ne. }
  assert (mm_at s2 a (Mm 0 0) ∅ ∅) as Hx2.
  { split; [simpl; by rewrite lookup_insert_eq|]. apply empty_space, Hy. }
  assert (mm_step a s B ∅ [] s2 (<[a := k]> B) ∅ [] [] 48 0) as S0.
  { split; simpl; try done; [| | |by intros w v Hv; exists (v_refcnt v); rewrite Hv; destruct v|by left|].
    - apply grow_refl; [apply Hy|by intros].
    - split; [done|by apply insert_subseteq|done|exact Hroom1].
    - intros b Hb. by rewrite lookup_insert_ne.
    - intros p. rewrite lookup_insert. case_decide; [by right; left|by left]. }
  unfold mm_init. apply wp_bind, wp_bind, (wp_get_mm _ _ y); [apply Hy2|].
  eapply wp_mono; [apply (mm_init_loop_ok LK vs fuel a 0 (vm_areas y) s2 _ (Mm 0 0) ∅ ∅ [] y U g Ho2 Hx2); try done|].
  - by split; [|constructor].
  - by intros l _ ?%not_elem_of_nil.
  - simpl. unfold sizeof_mm in Hroom1. lia.
  - intros [] s3 (x3 & T3 & L3 & B3 & H3 & Har3 & S3 & Hao). apply wp_ret. exists x3, T3, L3, B3.
    split; [done|done|rewrite <- (app_nil_r (rev vs)); apply Hao; constructor|by split|]. rewrite Z.add_comm.
    apply (mm_step_trans _ _ _ _ _ _ _ _ _ _ _ _ _ _ _ _ _ _ _ S0 S3).
Qed.
End kernel.

(** ** Copying into data frames *)

(** Only the contents of the frames [D] have changed. *)
Record wrote s D s' : Prop := {
  wr_objs : kheap s' = kheap s ∧ mms s' = mms s ∧ vmas s' = vmas s ∧ lis s' = lis s;
  wr_inv : frame_inv (frames s');
  wr_avail : frame_avail (frames s') = frame_avail (frames s);
  wr_used q : frame_used (frames s') q ↔ frame_used (frames s) q;
  wr_same q : frame_used (frames s) q → q ∉ D → same_page (frame_mem (frames s)) (frame_mem (frames s')) q;
}.

Lemma wrote_refl s D : frame_inv (frames s) → wrote s D s.
Proof. by intros. Qed.

Lemma wrote_trans s D s1 s2 : wrote s D s1 → wrote s1 D s2 → wrote s D s2.
Proof.
  intros [(a1 & a2 & a3 & a4) I1 A1 U1 W1] [(b1 & b2 & b3 & b4) I2 A2 U2 W2].
  split; [split_and!; congruence|done|congruence|by intros q; rewrite U2|].
  intros q Hq Hn. eapply same_page_trans; [by apply W1|]. by apply W2; [apply U1|].
Qed.

Lemma wrote_weaken s D D' s' : (∀ q, q ∈ D → q ∈ D') → wrote s D s' → wrote s D' s'.
Proof. intros Hd [O I A U W]. split; [done..|]. intros q Hq Hn. apply W; [done|]. intros Hq'. by apply Hn, Hd. Qed.

Lemma wrote_mm_at s D s' a x T f :
  wrote s D s' → mm_at s a x T f → (∀ q, q ∈ D → no_table T q) → mm_at s' a x T f.
Proof.
  intros [(_ & O & _) I A U W] [Hm Hs] HD. split; [by rewrite O|]. apply (space_frame (frames s)); [done|done|..].
  - intros p q Hq. apply U. by eapply pt_used; [apply Hs|].
  - intros p q Hq. apply W; [by eapply pt_used; [apply Hs|]|]. intros Hin. by eapply HD.
Qed.

(** Writing inside one page. *)
Lemma write_page_ok s q (F : mem → mem) (Q : unit → vmst → Prop) :
  frame_inv (frames s) → frame_used (frames s) q →
  only_pages (λ r, r = q) (frame_mem (frames s)) (F (frame_mem (frames s))) →
  (∀ s', wrote s [q] s' → frame_mem (frames s') = F (frame_mem (frames s)) → Q tt s') →
  wp (in_frames (write F)) s Q.
Proof.
  intros Hi Hq Ho HQ. apply wp_zoom. unfold write. apply wp_modify. apply HQ; [|simpl; by rewrite frame_mem_set].
  destruct (frame_set_mem_ok (frames s) (F (frame_mem (frames s))) Hi) as (Hi' & Ha & Hu).
  { intros a Hna. apply Ho. intros r ->. by apply Hna. }
  split; simpl; [done|done|done|done|]. intros r Hr Hn k Hk. rewrite frame_mem_set. apply Ho.
  intros r' -> Hin. apply (good_frames_disjoint r q k (P_TO_V r + k - P_TO_V q)); [by apply (frame_used_good (frames s))..| |done|lia|lia].
  intros ->. apply Hn. left.
Qed.

(** The page frames behind consecutive pages. *)
Definition backed f (start : Z) (Ds : list Z) : Prop :=
  ∀ i q, Ds !! i = Some q → ∃ e, f !! vpn (start + Z.of_nat i * PAGE_SIZE) = Some e ∧ e ≠ 0 ∧ page_base e = q.

(** The frames of a fresh area back its pages, and belong to nothing else. *)
Lemma anon_backed m D start prot user f :
  Z.of_nat (length D) ≤ 2 ^ 36 → (∀ q, q ∈ D → zero_page m q ∧ good_frame q) →
  backed (insert_pages start (map (λ q, page_entry q (map_flags prot user)) D) f) start D.
Proof.
  intros Hl Hz i q Hq. exists (page_entry q (map_flags prot user)).
  rewrite (insert_pages_page _ _ _ i (page_entry q (map_flags prot user))).
  - split; [done|]. destruct (Hz q (list_elem_of_lookup_2 _ _ _ Hq)) as [_ (Hq0 & Hqa & _)].
    pose proof (map_flags_range prot user) as Hfl. split; [|apply page_base_lor; [done|lia]].
    unfold page_entry. intros [? ?]%Z.lor_eq_0_iff. lia.
  - rewrite length_map. lia.
  - change (@map Z Z) with (@fmap list list_fmap Z Z). by rewrite list_lookup_fmap, Hq.
Qed.

Lemma grow_data_owned (s : St) T (s' : St) T' D :
  grow s T s' T' D → ∀ q, q ∈ D → frame_used s' q ∧ no_table T' q.
Proof.
  intros G q Hq. split; [apply (gr_used _ _ _ _ _ G); by right; right|apply (gr_data _ _ _ _ _ G q Hq)].
Qed.

Lemma backed_entry s a x T f start Ds i q (Q : Z → vmst → Prop) :
  mm_at s a x T f → backed f start Ds → Ds !! i = Some q → (∀ e, page_base e = q → Q e s) →
  wp (leaf_entry a (w64 (start + Z.of_nat i * PAGE_SIZE))) s Q.
Proof.
  intros Hx Hb Hi HQ. destruct (Hb i q Hi) as (e & He & Hne & Hp).
  apply (leaf_entry_ok s a x T f _ e); [done|by rewrite vpn_w64|done|by apply HQ].
Qed.

Lemma memcpy_page_ok m p q : good_frame p → good_frame q → p ≠ q →
  only_pages (λ r, r = q) m (memcpy m (P_TO_V q) (P_TO_V p) PAGE_SIZE) ∧
  ∀ k, 0 ≤ k < PAGE_SIZE → ld8 (memcpy m (P_TO_V q) (P_TO_V p) PAGE_SIZE) (P_TO_V q + k) = ld8 m (P_TO_V p + k).
Proof.
  intros (Hp1 & Hp2 & Hp3) (Hq1 & Hq2 & Hq3) Hne. unfold PAGE_SIZE in *.
  assert (P_TO_V q ≤ P_TO_V p ∨ P_TO_V p + 4096 ≤ P_TO_V q) as Hov.
  { rewrite !P_TO_V_small by lia. pose proof (Z.div_mod p 4096). pose proof (Z.div_mod q 4096). lia. }
  split.
  - intros a Ha. rewrite ld8_memcpy by done. rewrite decide_False; [done|]. by apply Ha.
  - intros k Hk. rewrite ld8_memcpy by done. rewrite decide_True by lia. f_equal. lia.
Qed.

(** [mm_copy_from_mm]: page for page. *)
Lemma copy_from_mm_ok s a x T f b y U g start n Ps Ds :
  mm_at s a x T f → mm_at s b y U g → start mod PAGE_SIZE = 0 → 0 ≤ n ≤ 2 ^ 19 →
  length Ps = Z.to_nat n → length Ds = Z.to_nat n → backed f start Ds → backed g start Ps → NoDup Ds →
  (∀ q, q ∈ Ds → frame_used (frames s) q ∧ no_table T q ∧ no_table U q) →
  (∀ p, p ∈ Ps → frame_used (frames s) p ∧ p ∉ Ds) →
  wp (mm_copy_from_mm a b start n) s (λ _ s', wrote s Ds s' ∧
    ∀ (i : nat) p q k, Ps !! i = Some p → Ds !! i = Some q → 0 ≤ k < PAGE_SIZE →
      ld8 (frame_mem (frames s')) (P_TO_V q + k) = ld8 (frame_mem (frames s)) (P_TO_V p + k)).
Proof.
  intros Hx Hy Hst Hn Hlp Hld Hbd Hbs Hnd HD HP. unfold mm_copy_from_mm. rewrite aligned_mask by done.
  set (I := λ (j : Z) s1, wrote s Ds s1 ∧ ∀ (i : nat) p q k, Z.of_nat i < j → Ps !! i = Some p → Ds !! i = Some q →
    0 ≤ k < PAGE_SIZE → ld8 (frame_mem (frames s1)) (P_TO_V q + k) = ld8 (frame_mem (frames s)) (P_TO_V p + k)).
  pose proof (sp_inv _ _ _ _ (ma_space _ _ _ _ _ Hx)) as Hinv.
  eapply wp_mono; [apply (wp_for I)|].
  - split; [by apply wrote_refl|lia].
  - intros j s1 Hj [W1 C1]. rewrite (w64_small (PAGE_SIZE * j)), (Z.mul_comm PAGE_SIZE) by (unfold PAGE_SIZE; lia).
    assert (∃ i : nat, j = Z.of_nat i) as [i ->] by (exists (Z.to_nat j); lia).
    destruct (lookup_lt_is_Some_2 Ps i ltac:(lia)) as [p Hp], (lookup_lt_is_Some_2 Ds i ltac:(lia)) as [q Hq].
    assert (q ∈ Ds) as Hqin by by eapply list_elem_of_lookup_2.
    assert (p ∈ Ps) as Hpin by by eapply list_elem_of_lookup_2.
    destruct (HD q Hqin) as (Hqu & Hqt & Hqt'), (HP p Hpin) as [Hpu Hpd].
    apply wp_bind, (backed_entry s1 b y U g start Ps i p); [by eapply wrote_mm_at; [| |intros; apply HD]|done|done|].
    intros es Hes. apply wp_bind, (backed_entry s1 a x T f start Ds i q); [by eapply wrote_mm_at; [| |intros; apply HD]|done|done|].
    intros ed Hed. rewrite Hes, Hed.
    destruct (memcpy_page_ok (frame_mem (frames s1)) p q) as [Ho Hc];
      [by apply (frame_used_good (frames s))..|by intros ->|].
    apply (write_page_ok s1 q); [apply W1|by apply W1|done|]. intros s2 W2 Hm2. split.
    + eapply wrote_trans; [done|]. eapply wrote_weaken; [|done]. by intros r ->%list_elem_of_singleton.
    + intros i' p' q' k Hi' Hp' Hq' Hk. destruct (decide (i' = i)) as [->|Hne].
      * assert (p' = p) as -> by congruence. assert (q' = q) as -> by congruence.
        rewrite Hm2, Hc by done. by apply (wr_same _ _ _ W1).
      * assert (q' ∈ Ds) as Hqin' by by eapply list_elem_of_lookup_2. 
        transitivity (ld8 (frame_mem (frames s1)) (P_TO_V q' + k)); [apply (wr_same _ _ _ W2); [|  |exact Hk]|].
        -- apply (wr_used _ _ _ W1). by apply HD.
        -- intros ->%list_elem_of_singleton. apply Hne. by eapply list.NoDup_lookup.
        -- apply (C1 i' p' q' k); [lia|exact Hp'|exact Hq'|exact Hk].
  - intros [] s' [W C]. split; [done|]. intros i p q k Hp Hq Hk. apply (C i p q k); [|exact Hp|exact Hq|exact Hk].
    apply lookup_lt_Some in Hp. lia.
Qed.

(** ** Copying a buffer of the kernel heap *)
Lemma ld8_copy_in n m' : ∀ m d src b,
  ld8 (copy_in n m' m d src) b = if decide (d ≤ b < d + Z.of_nat n) then ld8 m' (src + (b - d)) else ld8 m b.
Proof.
  induction n as [|n IH]; intros m d src b; cbn [copy_in]; [rewrite decide_False by lia; done|].
  rewrite IH, ld8_st8. destruct (decide (d = b)) as [->|Hne].
  - rewrite decide_False, decide_True by lia. replace (src + (b - b)) with src by lia. apply w8_small, ld8_range.
  - destruct (decide (d + 1 ≤ b < d + 1 + Z.of_nat n)) as [Hin|Hin].
    + rewrite decide_True by lia. f_equal. lia.
    + by rewrite decide_False by lia.
Qed.

(** What the pages hold after [len] bytes from [src] have been copied, from the
    page [pg] on. *)
Definition filled (h : mem) (src pg len : Z) (Ds : list Z) (m m' : mem) : Prop :=
  ∀ (i : nat) q k, Ds !! i = Some q → 0 ≤ k < PAGE_SIZE →
    ld8 m' (P_TO_V q + k) =
    if decide (pg ≤ Z.of_nat i ∧ Z.of_nat i * PAGE_SIZE + k < pg * PAGE_SIZE + len)
    then ld8 h (src + (Z.of_nat i * PAGE_SIZE + k)) else ld8 m (P_TO_V q + k).

Lemma copy_from_buf_loop_ok n : ∀ s a x T f start src pg len Ds,
  mm_at s a x T f → 0 ≤ pg → len ≤ Z.of_nat n * PAGE_SIZE → pg + Z.of_nat n ≤ Z.of_nat (length Ds) →
  Z.of_nat (length Ds) ≤ 2 ^ 19 → 0 ≤ src → (0 < len → src + (pg * PAGE_SIZE + len) ≤ 2 ^ 64) →
  backed f start Ds → NoDup Ds → (∀ q, q ∈ Ds → frame_used (frames s) q ∧ no_table T q) →
  wp (copy_from_buf_loop n a src start pg len) s (λ _ s', wrote s Ds s' ∧
    filled (heap_bytes (kheap s)) src pg len Ds (frame_mem (frames s)) (frame_mem (frames s'))).
Proof.
  induction n as [|n IH]; intros s a x T f start src pg len Ds Hx Hpg Hlen HnD HD19 Hsrc Hend Hbd Hnd HD;
    cbn [copy_from_buf_loop]; (destruct (Z.leb_spec len 0) as [Hl0|Hl0];
      [apply wp_ret; split; [apply wrote_refl, (ma_space _ _ _ _ _ Hx)|];
       intros i q k _ Hk; rewrite decide_False; [done|unfold PAGE_SIZE in *; lia]|]); [unfold PAGE_SIZE in *; lia|].
  assert (∃ i : nat, pg = Z.of_nat i) as [i ->] by (exists (Z.to_nat pg); lia).
  rewrite (w64_small (PAGE_SIZE * _)), (Z.mul_comm PAGE_SIZE) by (unfold PAGE_SIZE; lia).
  destruct (lookup_lt_is_Some_2 Ds i ltac:(lia)) as [q Hq].
  assert (q ∈ Ds) as Hqin by by eapply list_elem_of_lookup_2.
  apply wp_bind, (backed_entry s a x T f start Ds i q); [done|done|done|]. intros ed Hed. rewrite Hed.
  set (bytes := if PAGE_SIZE <? len then PAGE_SIZE else len).
  assert (0 < bytes ≤ PAGE_SIZE ∧ bytes ≤ len ∧ (bytes = len ∨ bytes = PAGE_SIZE)) as (Hb1 & Hb2 & Hb3)
    by (unfold bytes, PAGE_SIZE; destruct (Z.ltb_spec 4096 len); lia).
  wp_steps. specialize (Hend Hl0). rewrite (w64_small (src + _)) by (unfold PAGE_SIZE in *; lia).
  apply (write_page_ok s q); [apply Hx|by apply HD| |].
  { intros b Hb. rewrite ld8_copy_in. rewrite decide_False; [done|]. intros Hin. apply (Hb q eq_refl). lia. }
  intros s1 W1 Hm1.
  assert (wrote s Ds s1) as W1' by (eapply wrote_weaken; [|done]; by intros r ->%list_elem_of_singleton).
  eapply wp_mono; [apply (IH s1 a x T f start src (Z.of_nat i + 1) (len - bytes) Ds)|].
  - eapply wrote_mm_at; [done|done|]. intros r Hr. by apply HD.
  - lia.
  - unfold PAGE_SIZE in *. lia.
  - lia.
  - done.
  - done.
  - unfold PAGE_SIZE in *. lia.
  - done.
  - done.
  - intros r Hr. split; [apply (wr_used _ _ _ W1); by apply HD|by apply HD].
  - intros [] s2 [W2 F2]. split; [by eapply wrote_trans|].
    destruct (wr_objs _ _ _ W1) as (Hh & _). rewrite Hh in F2. intros j r k Hr Hk. rewrite (F2 j r k Hr Hk).
    assert (r ∈ Ds) as Hrin by by eapply list_elem_of_lookup_2.
    destruct (decide (j = i)) as [->|Hne].
    + assert (r = q) as -> by congruence. rewrite decide_False by lia. rewrite Hm1, ld8_copy_in, Z2Nat.id by lia.
      destruct (decide (_ ≤ _ < _)) as [Hin|Hin], (decide (_ ∧ _)) as [Hin'|Hin']; try done; try lia.
      f_equal. lia.
    + assert (ld8 (frame_mem (frames s1)) (P_TO_V r + k) = ld8 (frame_mem (frames s)) (P_TO_V r + k)) as ->.
      { apply (wr_same _ _ _ W1); [by apply HD| |exact Hk]. intros ->%list_elem_of_singleton. apply Hne.
        by eapply list.NoDup_lookup. }
      destruct (decide (_ ∧ _)) as [Hin|Hin], (decide (_ ∧ _)) as [Hin'|Hin']; try done; exfalso; unfold PAGE_SIZE in *; lia.
Qed.

Lemma copy_from_buf_ok s a x T f start src len Ds :
  mm_at s a x T f → start mod PAGE_SIZE = 0 → 0 ≤ len → DIV_CEIL len PAGE_SIZE ≤ Z.of_nat (length Ds) →
  Z.of_nat (length Ds) ≤ 2 ^ 19 → 0 ≤ src → src + len ≤ 2 ^ 64 →
  backed f start Ds → NoDup Ds → (∀ q, q ∈ Ds → frame_used (frames s) q ∧ no_table T q) →
  wp (mm_copy_from_buf a src start len) s (λ _ s', wrote s Ds s' ∧
    filled (heap_bytes (kheap s)) src 0 len Ds (frame_mem (frames s)) (frame_mem (frames s'))).
Proof.
  intros Hx Hst Hl HD H19 Hsrc Hend Hbd Hnd Hu. unfold mm_copy_from_buf. rewrite aligned_mask by done.
  pose proof (proj1 (div_ceil_le len PAGE_SIZE (DIV_CEIL len PAGE_SIZE) ltac:(done) Hl) ltac:(lia)) as Hle.
  assert (0 ≤ DIV_CEIL len PAGE_SIZE) by (unfold DIV_CEIL, PAGE_SIZE; apply Z.div_pos; lia).
  apply (copy_from_buf_loop_ok _ s a x T f start src 0 len Ds); try done; rewrite ?Z2Nat.id by done; try lia.
Qed.

(** ** Duplicating an address space *)
Definition in_area (v : vm_area) (w : Z) : Prop := ∃ i, 0 ≤ i < v_pages v ∧ w = vpn (v_start v + i * PAGE_SIZE).

(** Every page of the area is backed by a frame in use that is no table of [T]. *)
Definition mapped s T g (v : vm_area) : Prop :=
  (v_start v mod PAGE_SIZE = 0 ∧ w8 (v_prot v) = v_prot v) ∧ 0 ≤ v_pages v ≤ 2 ^ 19 ∧
  ∀ i, 0 ≤ i < v_pages v → ∃ e, g !! vpn (v_start v + i * PAGE_SIZE) = Some e ∧ e ≠ 0 ∧
    frame_used (frames s) (page_base e) ∧ no_table T (page_base e).

(** The pages of the area have fresh frames in [f'] with the contents of those
    in [g]. *)
Definition copied s g s' f' (v : vm_area) : Prop :=
  ∀ i, 0 ≤ i < v_pages v → ∃ e q, g !! vpn (v_start v + i * PAGE_SIZE) = Some e ∧
    f' !! vpn (v_start v + i * PAGE_SIZE) = Some (page_entry q (map_flags (v_prot v) (v_user v))) ∧
    good_frame q ∧ ¬ frame_used (frames s) q ∧ frame_used (frames s') q ∧
    ∀ k, 0 ≤ k < PAGE_SIZE →
      ld8 (frame_mem (frames s')) (P_TO_V q + k) = ld8 (frame_mem (frames s)) (P_TO_V (page_base e) + k).

Definition reg (v : vm_area) : Prop := v_type v = VM_AREA_REG.
#[local] Instance reg_dec v : Decision (reg v) := decide (v_type v = VM_AREA_REG).
Fixpoint reg_disjoint (vs : list vm_area) : Prop :=
  match vs with
  | [] => True
  | v :: r => (reg v → ∀ u w, u ∈ r → reg u → in_area v w → ¬ in_area u w) ∧ reg_disjoint r
  end.
Definition reg_pages (vs : list vm_area) : nat :=
  sum_list_with (λ v, if decide (reg v) then Z.to_nat (v_pages v) else 0%nat) vs.

Lemma grow_wrote s T s1 T1 D s2 :
  grow (frames s) T (frames s1) T1 D → wrote s1 D s2 → grow (frames s) T (frames s2) T1 D.
Proof.
  intros [I Su F U O Dt N A] [_ I2 A2 U2 W2]. split; try done.
  - intros q. by rewrite U2, U.
  - intros q Hq Hn. eapply same_page_trans; [by apply O|]. apply W2; [apply U; by left|].
    intros Hin. by apply (Dt q Hin).
  - by rewrite A2.
Qed.

Lemma mm_step_wrote a s B T L s1 B1 T1 L1 D n k s2 :
  mm_step a s B T L s1 B1 T1 L1 D n k → wrote s1 D s2 → mm_step a s B T L s2 B1 T1 L1 D n k.
Proof.
  intros [G [Ob Su By Ro] M V I N A Sb K] W. destruct (wr_objs _ _ _ W) as (Wh & Wm & Wv & Wl). split.
  - by eapply grow_wrote.
  - split; [|done|by rewrite Wh|by rewrite Wh]. destruct Ob as [Oh Om Ov Ol].
    split; [by rewrite Wh|by rewrite Wm|by rewrite Wv|by rewrite Wl].
  - intros b Hb. by rewrite Wm, M.
  - intros w v Hw. rewrite Wv. by apply V.
  - intros l Hl Hn. rewrite Wl. by apply I.
  - done.
  - by rewrite (wr_avail _ _ _ W).
  - done.
  - done.
Qed.

Lemma mm_step_mapped a s B T L s' B' T' L' D n k g v :
  mm_step a s B T L s' B' T' L' D n k → mapped s T g v → mapped s' T' g v.
Proof.
  intros S (Hs & Hp & Hm). split; [done|]. split; [done|]. intros i Hi.
  destruct (Hm i Hi) as (e & He & Hne & Hu & Hn). exists e. split; [done|]. split; [done|].
  pose proof (st_grow _ _ _ _ _ _ _ _ _ _ _ _ S) as G. split; [by eapply grow_keeps|].
  intros p Hp'. destruct (gr_fresh _ _ _ _ _ G p _ Hp') as [H1|H1]; [by apply (Hn p)|done].
Qed.

(** The frames behind an area that is mapped. *)
Definition area_frames g (v : vm_area) : list Z := map page_base (page_entries g (v_start v) (v_pages v)).

Lemma area_frames_lookup g v i : 0 ≤ v_pages v → (i < Z.to_nat (v_pages v))%nat →
  area_frames g v !! i = Some (page_base (default 0 (g !! vpn (v_start v + Z.of_nat i * PAGE_SIZE)))).
Proof.
  intros Hp Hi. unfold area_frames, page_entries. change (@map Z Z) with (@fmap list list_fmap Z Z).
  rewrite !list_lookup_fmap, lookup_seqZ_lt by lia. simpl. by rewrite Z.add_0_l.
Qed.

Lemma area_frames_length g v : length (area_frames g v) = Z.to_nat (v_pages v).
Proof. unfold area_frames, page_entries. by rewrite !length_map, length_seqZ. Qed.

Lemma mapped_frames s T g v : mapped s T g v →
  backed g (v_start v) (area_frames g v) ∧
  ∀ p, p ∈ area_frames g v → frame_used (frames s) p ∧ no_table T p.
Proof.
  intros (_ & Hp & Hm).
  assert (∀ i p, area_frames g v !! i = Some p → ∃ e, g !! vpn (v_start v + Z.of_nat i * PAGE_SIZE) = Some e ∧
    e ≠ 0 ∧ page_base e = p ∧ frame_used (frames s) p ∧ no_table T p) as Hi.
  { intros i p Hl. pose proof (lookup_lt_Some _ _ _ Hl) as Hlt. rewrite area_frames_length in Hlt.
    rewrite area_frames_lookup in Hl by lia. destruct (Hm (Z.of_nat i) ltac:(lia)) as (e & He & Hne & Hu & Hn).
    rewrite He in Hl. injection Hl as <-. by exists e. }
  split.
  - intros i p Hl. destruct (Hi i p Hl) as (e & ? & ? & ? & _). by exists e.
  - intros p [i Hl]%list_elem_of_lookup. by destruct (Hi i p Hl) as (e & _ & _ & _ & ?).
Qed.

(** One area of the parent. *)
Lemma dupe_area_ok s B a x T f L b y U g v :
  objects_ok s B → mm_at s a x T f → areas s x L → b ≠ a → mm_at s b y U g → separate U T →
  mapped s T g v → (5 * Z.to_nat (v_pages v) ≤ frame_avail (frames s))%nat → 120 < heap_room (kheap s) →
  wp (anon_mmap a (v_start v) (v_pages v) (v_prot v) (v_user v) ;;* mm_copy_from_mm a b (v_start v) (v_pages v)) s
    (λ _ s', ∃ x' T' L' B' D,
      mm_at s' a x' T' (insert_pages (v_start v) (map (λ q, page_entry q (map_flags (v_prot v) (v_user v))) D) f) ∧
      length D = Z.to_nat (v_pages v) ∧ areas s' x' L' ∧
      mm_step a s B T L s' B' T' L' D 120 (5 * Z.to_nat (v_pages v)) ∧ Forall good_frame D ∧
      (v_type v = VM_AREA_REG → ∀ vs, areas_of s L vs → areas_of s' L' (v :: vs)) ∧
      ∀ (i : nat) p q k, area_frames g v !! i = Some p → D !! i = Some q → 0 ≤ k < PAGE_SIZE →
        ld8 (frame_mem (frames s')) (P_TO_V q + k) = ld8 (frame_mem (frames s)) (P_TO_V p + k)).
Proof.
  intros Ho Hx Har Hb Hy Hsep Hmap Hav Hroom. pose proof Hmap as ([Hst Hprot] & Hpg & _).
  destruct (mapped_frames _ _ _ _ Hmap) as [Hbk Hps]. set (flags := map_flags (v_prot v) (v_user v)).
  apply wp_bind. eapply wp_mono; [by apply (anon_mmap_ok s B a x T f L)|].
  intros [] s1 (x1 & T1 & D & vma & li & B1 & Han). pose proof (anon_mm_step _ _ _ _ _ _ _ _ _ _ _ _ _ _ _ _ _ _ Han) as S1.
  destruct Han as [H1 Hl1 G1 Hz1 Har1 Hvm1 _ _ _ _ _ _].
  destruct (mm_step_other _ _ _ _ _ _ _ _ _ _ _ _ _ _ _ _ S1 Hb Hy Hsep) as [Hy1 Hsep1].
  assert (∀ q, q ∈ D → frame_used (frames s1) q ∧ no_table T1 q ∧ no_table U q) as HD.
  { intros q Hq. destruct (grow_data_owned _ _ _ _ _ G1 q Hq) as [Hu Hn]. split; [done|]. split; [done|].
    intros p Hp. apply (gr_data _ _ _ _ _ G1 q Hq). by eapply pt_used; [apply Hy|]. }
  eapply wp_mono; [apply (copy_from_mm_ok s1 a x1 T1 _ b y U g _ _ (area_frames g v) D H1 Hy1); try done|].
  - apply area_frames_length.
  - eapply anon_backed; [lia|exact Hz1].
  - apply (gr_nodup _ _ _ _ _ G1).
  - intros p Hp. destruct (Hps p Hp) as [Hu Hn]. split; [by eapply grow_keeps|].
    intros Hin. by apply (gr_data _ _ _ _ _ G1 p Hin).
  - intros [] s2 [W2 C2]. exists x1, T1, ((li, vma) :: L), B1, D. split; [by eapply wrote_mm_at; [| |intros; apply HD]|].
    split; [done|]. split.
    { destruct Har1 as [Hseg Hnd]. split; [|done]. destruct (wr_objs _ _ _ W2) as (_ & _ & _ & Wl). by rewrite Wl. }
    assert (mm_step a s B T L s2 B1 T1 ((li, vma) :: L) D 120 (5 * Z.to_nat (v_pages v))) as S2 by by eapply mm_step_wrote.
    split; [done|]. split; [apply list.Forall_forall; intros q Hq; by apply Hz1|]. split.
    { intros Hreg vs Hvs. apply (areas_of_cons _ _ _ _ _ _ _ _ _ _ _ _ vs li vma 1 v S2 Hvs).
      destruct (wr_objs _ _ _ W2) as (_ & _ & Wv & _). rewrite Wv, Hvm1, lookup_insert_eq, Hprot.
      unfold set_v_refcnt. by rewrite Hreg. }
    intros i p q k Hp Hq Hk. rewrite (C2 i p q k Hp Hq Hk).
    assert (p ∈ area_frames g v) as Hpin by by eapply list_elem_of_lookup_2.
    apply (gr_other _ _ _ _ _ G1); [by apply Hps|by apply Hps|exact Hk].
Qed.

(** The area just duplicated, whatever is mapped elsewhere afterwards. *)
Lemma area_copied s s1 s2 a B T L B1 T1 L1 D n k B2 T2 L2 D2 n2 k2 g v f f2 :
  mapped s T g v → length D = Z.to_nat (v_pages v) → Forall good_frame D →
  (∀ (i : nat) p q j, area_frames g v !! i = Some p → D !! i = Some q → 0 ≤ j < PAGE_SIZE →
    ld8 (frame_mem (frames s1)) (P_TO_V q + j) = ld8 (frame_mem (frames s)) (P_TO_V p + j)) →
  mm_step a s B T L s1 B1 T1 L1 D n k → mm_step a s1 B1 T1 L1 s2 B2 T2 L2 D2 n2 k2 →
  (∀ w, in_area v w → f2 !! w =
    insert_pages (v_start v) (map (λ q, page_entry q (map_flags (v_prot v) (v_user v))) D) f !! w) →
  copied s g s2 f2 v.
Proof.
  intros (_ & Hpg & Hm) Hl Hgood Hc S1 S2 Hf i Hi. destruct (Hm i Hi) as (e & He & _).
  assert (∃ j : nat, i = Z.of_nat j) as [j ->] by (exists (Z.to_nat i); lia).
  destruct (lookup_lt_is_Some_2 D j ltac:(lia)) as [q Hq]. exists e, q. split; [done|].
  assert (q ∈ D) as Hin by by eapply list_elem_of_lookup_2.
  pose proof (st_grow _ _ _ _ _ _ _ _ _ _ _ _ S1) as G1. pose proof (st_grow _ _ _ _ _ _ _ _ _ _ _ _ S2) as G2.
  split; [|split; [|split; [|split]]].
  - rewrite Hf by (by exists (Z.of_nat j)). apply insert_pages_page; [rewrite length_map; lia|].
    change (@map Z Z) with (@fmap list list_fmap Z Z). by rewrite list_lookup_fmap, Hq.
  - rewrite list.Forall_forall in Hgood. by apply Hgood.
  - apply (gr_data _ _ _ _ _ G1 q Hin).
  - apply (grow_keeps _ _ _ _ _ _ G2), (gr_used _ _ _ _ _ G1). by right; right.
  - intros k' Hk. rewrite (grow_data_kept _ _ _ _ _ _ _ _ q G1 G2 Hin k' Hk).
    apply (Hc j); [|done|done]. rewrite area_frames_lookup by lia. by rewrite He.
Qed.

(** An area copied from a later state is copied from the first. *)
Lemma copied_earlier s s1 s2 a B T L B1 T1 L1 D n k g v f2 :
  mm_step a s B T L s1 B1 T1 L1 D n k → mapped s T g v → copied s1 g s2 f2 v → copied s g s2 f2 v.
Proof.
  intros S1 (_ & _ & Hm) Hc i Hi. destruct (Hm i Hi) as (e0 & He0 & _ & Hu & Hn).
  destruct (Hc i Hi) as (e & q & He & Hq & Hg & Hnu & Hu' & Hcont). assert (e0 = e) as -> by congruence.
  pose proof (st_grow _ _ _ _ _ _ _ _ _ _ _ _ S1) as G1. exists e, q. split_and!; try done.
  - intros Hus. by eapply Hnu, grow_keeps.
  - intros k' Hk. rewrite Hcont by done. by apply (gr_other _ _ _ _ _ G1).
Qed.

Lemma dupe_loop_ok Lp : ∀ vs n a b p curr s B x T f L y U g,
  objects_ok s B → mm_at s a x T f → areas s x L → b ≠ a → mm_at s b y U g → separate U T →
  li_seg (lis s) p curr Lp → apart_lists L Lp → (length Lp ≤ n)%nat → areas_of s Lp vs →
  (∀ v, v ∈ vs → reg v → mapped s T g v) → reg_disjoint vs →
  (5 * reg_pages vs ≤ frame_avail (frames s))%nat → 120 * Z.of_nat (length Lp) < heap_room (kheap s) →
  wp (mm_dupe_loop n a b curr) s (λ _ s', ∃ x' T' f' L' B' D,
    mm_at s' a x' T' f' ∧ areas s' x' L' ∧
    mm_step a s B T L s' B' T' L' D (120 * Z.of_nat (length Lp)) (5 * reg_pages vs) ∧
    (∀ w, (∀ v, v ∈ vs → reg v → ¬ in_area v w) → f' !! w = f !! w) ∧
    (∀ v, v ∈ vs → reg v → copied s g s' f' v) ∧
    (∀ vs0, areas_of s L vs0 → areas_of s' L' (rev (filter reg vs) ++ vs0))).
Proof.
  induction Lp as [|[l w] Lp IH];
    intros vs n a b p curr s B x T f L y U g Ho Hx Har Hb Hy Hsep Hseg Hap Hn Hvs Hmap Hdis Hav Hroom.
  - simpl in Hseg. subst curr. apply list.Forall2_nil_inv_l in Hvs as ->.
    destruct n; simpl; apply wp_ret; exists x, T, f, L, B, [];
      (split; [done|split; [done|split; [by eapply mm_step_refl|split; [done|split; [by intros v ?%not_elem_of_nil|done]]]]]).
  - destruct Hseg as (-> & Hl0 & nx & Hl & Hseg). destruct n as [|n]; [simpl in Hn; lia|].
    apply list.Forall2_cons_inv_l in Hvs as (v & vs' & [r Hr] & Hvs & ->). simpl in Hr, Hn. cbn [length] in Hroom.
    destruct Hdis as [Hdv Hdis]. cbn [mm_dupe_loop]. destruct (Z.eqb_spec l 0); [done|].
    apply wp_bind, (wp_get_li _ _ (VmAreaLi w nx p)); [done|]. apply wp_bind, (wp_get_vma _ _ (set_v_refcnt r v)); [done|].
    assert (apart_lists L Lp) as Hap' by (intros q Hq; apply Hap; simpl; by right).
    replace (reg_pages (v :: vs')) with ((if decide (reg v) then Z.to_nat (v_pages v) else 0) + reg_pages vs')%nat in * by done.
    apply wp_bind. apply (wp_mono _ _ (λ _ s1, ∃ x1 T1 f1 L1 B1 D1,
      mm_at s1 a x1 T1 f1 ∧ areas s1 x1 L1 ∧
      mm_step a s B T L s1 B1 T1 L1 D1 120 (5 * (if decide (reg v) then Z.to_nat (v_pages v) else 0)) ∧
      (∀ w, (reg v → ¬ in_area v w) → f1 !! w = f !! w) ∧
      (∀ vs0, areas_of s L vs0 → areas_of s1 L1 ((if decide (reg v) then [v] else []) ++ vs0)) ∧
      (reg v → ∀ s2 B2 T2 L2 D2 n2 k2 f2, mm_step a s1 B1 T1 L1 s2 B2 T2 L2 D2 n2 k2 →
        (∀ w, in_area v w → f2 !! w = f1 !! w) → copied s g s2 f2 v))).
    + change (v_type (set_v_refcnt r v)) with (v_type v).
      destruct (decide (reg v)) as [Hreg|Hreg].
      * assert (mapped s T g v) as Hmv by (apply Hmap; [left|done]). rewrite Hreg. simpl li_vma.
        eapply wp_mono; [by apply (dupe_area_ok s B a x T f L b y U g v); try done; lia|].
        intros [] s1 (x1 & T1 & L1 & B1 & D & H1 & Hlen & Har1 & S1 & Hgood & Hao & Hc).
        eexists x1, T1, _, L1, B1, D. split; [exact H1|]. split; [done|]. split; [done|]. split.
        -- intros w' Hw. apply insert_pages_other. rewrite length_map. intros i Hi He.
           apply Hw; [done|]. exists i. split; [lia|done].
        -- split; [by apply Hao|]. intros _ s2 B2 T2 L2 D2 n2 k2 f2 S2 Hf. by eapply area_copied.
      * destruct (v_type v) eqn:E; [done|..]; apply wp_ret; exists x, T, f, L, B, [];
          (split; [done|split; [done|split; [|by split; [|split]]]]);
          (destruct (mm_step_refl a s B x T f L Ho Hx) as [G [Ob Su By Ro] M V I N A Sb K];
           split; try done; [by split; [done|done|done|lia]]).
    + intros [] s1 (x1 & T1 & f1 & L1 & B1 & D1 & H1 & Har1 & S1 & Hf1 & Hao1 & Hcv).
      destruct (mm_step_other _ _ _ _ _ _ _ _ _ _ _ _ _ _ _ _ S1 Hb Hy Hsep) as [Hy1 Hsep1].
      pose proof (st_lis _ _ _ _ _ _ _ _ _ _ _ _ S1 l ltac:(by rewrite Hl) ltac:(apply Hap; simpl; left)) as Hl1.
      apply wp_bind, (wp_get_li _ _ (VmAreaLi w nx p)); [by rewrite Hl1|]. simpl li_next.
      destruct (mm_step_list _ _ _ _ _ _ _ _ _ _ _ _ _ _ _ S1 Hseg Hap') as [Hseg1 Hap1].
      pose proof (st_avail _ _ _ _ _ _ _ _ _ _ _ _ S1) as Ha1.
      pose proof (hs_room _ _ _ _ _ (st_heap _ _ _ _ _ _ _ _ _ _ _ _ S1)) as Hr1.
      assert (∀ v', v' ∈ vs' → reg v' → mapped s T g v') as Hmap' by (intros v' Hv'; apply Hmap; by right).
      eapply wp_mono; [eapply (IH vs' n a b l nx s1 B1 x1 T1 f1 L1 y U g); try done|].
      * apply (hs_ok _ _ _ _ _ (st_heap _ _ _ _ _ _ _ _ _ _ _ _ S1)).
      * lia.
      * eapply mm_step_areas; [exact S1|exact Hvs].
      * intros v' Hv' Hreg. eapply mm_step_mapped; [exact S1|by apply Hmap'].
      * lia.
      * lia.
      * intros [] s2 (x2 & T2 & f2 & L2 & B2 & D2 & H2 & Har2 & S2 & Hf2 & Hc2 & Hao2).
        exists x2, T2, f2, L2, B2, (D1 ++ D2). split; [done|]. split; [done|]. split; [|split; [|split]].
        -- replace (120 * Z.of_nat (length ((l, w) :: Lp))) with (120 + 120 * Z.of_nat (length Lp)) by (cbn [length]; lia).
           rewrite Nat.mul_add_distr_l. apply (mm_step_trans _ _ _ _ _ _ _ _ _ _ _ _ _ _ _ _ _ _ _ S1 S2).
        -- intros w' Hw. rewrite Hf2, Hf1; [done|by apply Hw; left|]. intros v' Hv'. apply Hw. by right.
        -- intros v' [->|Hv']%elem_of_cons Hreg.
           ++ apply (Hcv Hreg _ _ _ _ _ _ _ _ S2). intros w' Hw. apply Hf2. intros u Hu Hur. by apply (Hdv Hreg).
           ++ eapply copied_earlier; [exact S1|by apply Hmap'|by apply Hc2].
        -- intros vs0 Hvs0. specialize (Hao2 _ (Hao1 vs0 Hvs0)). rewrite filter_cons. destruct (decide (reg v)).
           ++ simpl. rewrite <- app_assoc. exact Hao2.
           ++ exact Hao2.
Qed.

(** ** Giving an area back *)

(** The frames [D], and the tables that became empty, are free again; nothing
    else changes. *)
Record dropped (a : Z) s T D s' T' : Prop := {
  dr_inv : frame_inv (frames s');
  dr_sub : T' ⊆ T;
  dr_used q : frame_used (frames s') q ↔
    frame_used (frames s) q ∧ q ∉ D ∧ (∀ p, T !! p = Some q → T' !! p = Some q);
  dr_other q : frame_used (frames s') q → no_table T q → same_page (frame_mem (frames s)) (frame_mem (frames s')) q;
  dr_count : (frame_avail (frames s') + size T' = frame_avail (frames s) + size T + length D)%nat;
  dr_objs : kheap s' = kheap s ∧ vmas s' = vmas s ∧ lis s' = lis s;
  dr_mms b : b ≠ a → mms s' !! b = mms s !! b;
}.

Fixpoint delete_pages (v : Z) (n : nat) (f : gmap Z Z) : gmap Z Z :=
  match n with
  | O => f
  | S n' => delete (vpn (v + Z.of_nat n' * PAGE_SIZE)) (delete_pages v n' f)
  end.

Lemma delete_pages_later v n f i : (n ≤ i)%nat → Z.of_nat i < 2 ^ 36 →
  delete_pages v n f !! vpn (v + Z.of_nat i * PAGE_SIZE) = f !! vpn (v + Z.of_nat i * PAGE_SIZE).
Proof.
  induction n as [|n IH]; intros Hn Hi; cbn [delete_pages]; [done|].
  rewrite lookup_delete_ne; [apply IH; lia|]. intros He. apply vpn_next in He; lia.
Qed.

Lemma delete_pages_in v n f i : (i < n)%nat → delete_pages v n f !! vpn (v + Z.of_nat i * PAGE_SIZE) = None.
Proof.
  induction n as [|n IH]; intros Hi; cbn [delete_pages]; [lia|]. rewrite lookup_delete. case_decide; [done|].
  apply IH. destruct (decide (i = n)) as [->|]; [done|lia].
Qed.

Lemma delete_pages_out v n f w : (∀ i, (i < n)%nat → vpn (v + Z.of_nat i * PAGE_SIZE) ≠ w) →
  delete_pages v n f !! w = f !! w.
Proof.
  induction n as [|n IH]; intros Hw; cbn [delete_pages]; [done|].
  rewrite lookup_delete_ne by (apply Hw; lia). apply IH. intros i Hi. apply Hw. lia.
Qed.

Lemma drop_page_ok s0 T0 D s a x T f q v e :
  dropped a s0 T0 D s T → mm_at s a x T f → (∀ r, r ∈ D → no_table T0 r) →
  f !! vpn v = Some e → e ≠ 0 → page_base e = q → frame_used (frames s) q → no_table T0 q →
  wp (unmap_page a v ;;* in_frames (frame_free q)) s (λ _ s', ∃ x' T',
    mm_at s' a x' T' (delete (vpn v) f) ∧ dropped a s0 T0 (D ++ [q]) s' T' ∧ vm_areas x' = vm_areas x).
Proof.
  intros Hd [Hm Hs] HD He Hne Hq Hu Hn. unfold unmap_page. apply wp_bind, wp_bind, (wp_get_mm _ _ x); [done|].
  apply wp_bind, wp_zoom. eapply wp_mono; [by eapply space_unmap|].
  intros x1 fr1 (T1 & Hs1 & [I1 Su1 U1 O1 C1] & Hvm). apply wp_modify.
  assert (no_table T q) as HnT by (intros p Hp; apply (Hn p); eapply lookup_weaken; [done|apply Hd]).
  assert (frame_used fr1 q) as Hu1 by (apply U1; split; [done|]; intros p Hp; by apply HnT in Hp).
  apply wp_zoom. simpl. eapply wp_mono; [by apply frame_free_ok|].
  intros [] fr2 (I2 & A2 & U2 & O2). exists x1, T1. split; [|split; [|done]].
  - split; [simpl; by rewrite lookup_insert_eq|]. simpl. apply (space_frame fr1); [done|done|..].
    + intros p r Hr. apply U2. split; [by eapply pt_used; [apply Hs1|]|]. intros ->.
      apply (HnT p). by eapply lookup_weaken.
    + intros p r Hr. apply O2. by eapply pt_used; [apply Hs1|].
  - destruct Hd as [I S U O C Ob M]. split; simpl; [done|by etrans| | | |done|].
    + intros r. rewrite U2, U1, U, elem_of_app, list_elem_of_singleton. split.
      * intros [[(Hr & HrD & Hk) Hk1] Hrq]. split; [done|]. split; [tauto|]. intros p Hp. by apply Hk1, Hk.
      * intros (Hr & HrD & Hk). split; [split; [split; [done|split; [tauto|]]|]|tauto].
        -- intros p Hp. specialize (Hk p Hp). exact (lookup_weaken _ _ _ _ Hk Su1).
        -- intros p Hp. apply Hk. eapply lookup_weaken; [done|exact S].
    + intros r Hr HrT. apply U2 in Hr as [Hr Hrq]. apply U1 in Hr as Hr0.
      eapply same_page_trans; [apply O; [apply Hr0|done]|]. eapply same_page_trans; [apply O1|by apply O2].
      * apply Hr0.
      * intros p Hp. apply (HrT p). eapply lookup_weaken; [done|exact S].
    + rewrite length_app. simpl. lia.
    + intros b Hb. rewrite lookup_insert_ne by done. by apply M.
Qed.

(** The loop of [mm_free_reg_vma]. *)
Lemma free_pages_ok s a x T f start D :
  mm_at s a x T f → Z.of_nat (length D) ≤ 2 ^ 19 → backed f start D → NoDup D →
  (∀ q, q ∈ D → frame_used (frames s) q ∧ no_table T q) →
  wp (for_ (length D) 0 (λ pg,
      let* off := int_off pg in
      let* e := leaf_entry a (w64 (start + off)) in
      let phys := page_base e in
      unmap_page a (w64 (start + off)) ;;*
      in_frames (frame_free phys))) s
    (λ _ s', ∃ x' T', mm_at s' a x' T' (delete_pages start (length D) f) ∧
       dropped a s T D s' T' ∧ vm_areas x' = vm_areas x).
Proof.
  intros Hx Hl Hb Hnd HD.
  set (I := λ (j : Z) s', ∃ x' T', mm_at s' a x' T' (delete_pages start (Z.to_nat j) f) ∧
    dropped a s T (take (Z.to_nat j) D) s' T' ∧ vm_areas x' = vm_areas x).
  eapply wp_mono; [apply (wp_for I)|].
  - exists x, T. split; [done|]. split; [|done]. split; [apply Hx|done| |done| |done|done].
    + intros q. simpl. split; [intros Hq; split; [done|]; split; [by apply not_elem_of_nil|done]|tauto].
    + simpl. lia.
  - intros j s1 Hj (x1 & T1 & H1 & D1 & Hv1).
    assert (∃ i : nat, j = Z.of_nat i) as [i ->] by (exists (Z.to_nat j); lia). rewrite Nat2Z.id in H1, D1.
    destruct (lookup_lt_is_Some_2 D i ltac:(lia)) as [q Hq].
    assert (q ∈ D) as Hin by by eapply list_elem_of_lookup_2. destruct (HD q Hin) as [Hqu Hqn].
    destruct (Hb i q Hq) as (e & He & Hne & Hqe).
    assert (delete_pages start i f !! vpn (start + Z.of_nat i * PAGE_SIZE) = Some e) as He1
      by (rewrite delete_pages_later by lia; done).
    apply wp_bind, int_off_ok; [lia|]. apply wp_bind, (leaf_entry_ok s1 a x1 T1 _ _ e _ H1); [by rewrite vpn_w64|done|].
    cbv zeta. rewrite Hqe.
    eapply wp_mono; [apply (drop_page_ok s T _ s1 a x1 T1 _ q _ e D1 H1); try done|].
    + intros r Hr. apply HD. apply (elem_of_subseteq (C := list Z)) with (X := take i D); [apply subseteq_take|done].
    + by rewrite vpn_w64.
    + apply (dr_used _ _ _ _ _ _ D1). split; [done|]. split; [|intros p Hp; by destruct (Hqn p)].
      intros Hti. apply list_elem_of_lookup in Hti as [k Hk]. apply lookup_take_Some in Hk as [Hk Hlt].
      assert (k = i) by (by eapply list.NoDup_lookup). lia.
    + intros [] s2 (x2 & T2 & H2 & D2 & Hv2). exists x2, T2. replace (Z.to_nat (Z.of_nat i + 1)) with (S i) by lia.
      rewrite vpn_w64 in H2. rewrite (take_S_r _ _ q) by done. split; [done|]. split; [done|congruence].
  - intros [] s' Hs'. unfold I in Hs'. rewrite Z.add_0_l, Nat2Z.id, take_ge in Hs' by lia. done.
Qed.
End mm.
