(* ===== verification/MmInit.v ===== *)
(** [kernel_mm_init]: from the zeroed objects of the kernel image it builds the
    memory map that every address space shares ([kernel_map]). *)

From S2P Require Import Prelude Memory Interfaces Pmm PageTable AddressSpace Kmalloc Heap Mm MmSpec.

(** The objects of [vmm.c] lie in the image, above the heap. *)
Record statics_ok (sym : statics) : Prop := {
  so_image a : a ∈ [kernel_mm sym; kernel_vma_li sym; kernel_vma sym; phys_vma_li sym; phys_vma sym;
    kernel_heap_vma_li sym; kernel_heap_vma sym] → HEAP_LIMIT ≤ a;
  so_vmas : NoDup [kernel_vma sym; phys_vma sym; kernel_heap_vma sym];
  so_lis : NoDup [kernel_vma_li sym; phys_vma_li sym; kernel_heap_vma_li sym];
}.

(** What [kernel_mm_init] writes in the three areas: nobody counts the
    reference from the kernel's own list. *)
Definition kernel_rw : Z := Z.lor PAGE_PROT_READ PAGE_PROT_WRITE.
Definition text_area : vm_area := VmArea 0 VM_AREA_KERNELTEXT KERNEL_TEXT_BASE 512 false kernel_rw.
Definition phys_area : vm_area := VmArea 0 VM_AREA_PHYSMEM PHYS_MAPPING_START 1024 false kernel_rw.
Definition brk_area : vm_area := VmArea 0 VM_AREA_KERNELHEAP BRK_START BRK_PAGES false kernel_rw.
Definition kernel_areas : list vm_area := [text_area; phys_area; brk_area].
Definition kernel_list (sym : statics) : list (Z * Z) :=
  [(kernel_vma_li sym, kernel_vma sym); (phys_vma_li sym, phys_vma sym); (kernel_heap_vma_li sym, kernel_heap_vma sym)].

(** The pages: the image and the physical memory at fixed places, the frames
    [D] for the heap. *)
Definition kernel_flags : Z := map_flags kernel_rw false.
Definition kernel_pages (D : list Z) : gmap Z Z :=
  insert_pages BRK_START (map (λ q, page_entry q kernel_flags) D)
    (insert_pages PHYS_MAPPING_START (range_entries 0 kernel_flags 1024)
      (insert_pages KERNEL_TEXT_BASE (range_entries 0 kernel_flags 512) ∅)).

Lemma range_entries_length phys flags n : length (range_entries phys flags n) = n.
Proof. unfold range_entries. by rewrite length_map, length_seqZ, Nat2Z.id. Qed.

Lemma range_entries_lookup phys flags n i :
  0 ≤ i < Z.of_nat n → range_entries phys flags n !! Z.to_nat i = Some (page_entry (w64 (phys + i * PAGE_SIZE)) flags).
Proof.
  intros Hi. unfold range_entries. change (@map Z Z) with (@fmap list list_fmap Z Z).
  rewrite list_lookup_fmap, lookup_seqZ_lt by lia. cbn [fmap option_fmap option_map].
  by rewrite Z.add_0_l, Z2Nat.id by lia.
Qed.

(** Page [i] of the range of [n] pages at [v] is page number [v / 4096 + i]. *)
Lemma vpn_in_range v n i : vpn v + n ≤ 2 ^ 36 → 0 ≤ i < n → vpn (v + i * PAGE_SIZE) = vpn v + i.
Proof.
  intros Hv Hi. rewrite vpn_page. unfold vpn in *. pose proof (Z.mod_pos_bound (v / 4096) (2 ^ 36)).
  rewrite <- Z.add_mod_idemp_l by lia. apply Z.mod_small. lia.
Qed.

Section pages.
Variable D : list Z.
Hypothesis HD : length D = Z.to_nat BRK_PAGES.

(** The three ranges of page numbers are disjoint. *)
Lemma text_page i : 0 ≤ i < 512 → vpn (KERNEL_TEXT_BASE + i * PAGE_SIZE) = vpn KERNEL_TEXT_BASE + i.
Proof. apply vpn_in_range. by vm_compute. Qed.
Lemma phys_page i : 0 ≤ i < 1024 → vpn (PHYS_MAPPING_START + i * PAGE_SIZE) = vpn PHYS_MAPPING_START + i.
Proof. apply vpn_in_range. by vm_compute. Qed.
Lemma brk_page i : 0 ≤ i < BRK_PAGES → vpn (BRK_START + i * PAGE_SIZE) = vpn BRK_START + i.
Proof. apply vpn_in_range. by vm_compute. Qed.

Lemma brk_other w (f : gmap Z Z) : ¬ (vpn BRK_START ≤ w < vpn BRK_START + BRK_PAGES) →
  insert_pages BRK_START (map (λ q, page_entry q kernel_flags) D) f !! w = f !! w.
Proof.
  intros Hw. apply insert_pages_other. rewrite length_map, HD. intros i Hi. unfold BRK_PAGES in *. rewrite brk_page; unfold BRK_PAGES; lia.
Qed.
Lemma range_other (v n w : Z) (f : gmap Z Z) : 0 ≤ n → vpn v + n ≤ 2 ^ 36 → ¬ (vpn v ≤ w < vpn v + n) →
  insert_pages v (range_entries 0 kernel_flags (Z.to_nat n)) f !! w = f !! w.
Proof.
  intros Hn Hv Hw. apply insert_pages_other. rewrite range_entries_length. intros i Hi.
  rewrite (vpn_in_range v n) by lia. lia.
Qed.
Lemma range_page (v n i : Z) (f : gmap Z Z) : 0 ≤ i < n → n ≤ 2 ^ 19 →
  insert_pages v (range_entries 0 kernel_flags (Z.to_nat n)) f !! vpn (v + i * PAGE_SIZE) = Some (page_entry (i * PAGE_SIZE) kernel_flags).
Proof.
  intros Hi Hn. replace i with (Z.of_nat (Z.to_nat i)) at 1 by lia. apply insert_pages_page; [rewrite range_entries_length; lia|].
  rewrite range_entries_lookup, Z.add_0_l, w64_small by (unfold PAGE_SIZE; lia). done.
Qed.

Lemma kernel_text_page i : 0 ≤ i < 512 →
  kernel_pages D !! vpn (KERNEL_TEXT_BASE + i * PAGE_SIZE) = Some (page_entry (i * PAGE_SIZE) kernel_flags).
Proof.
  intros Hi. unfold kernel_pages. pose proof (text_page i Hi) as Ht. assert (vpn KERNEL_TEXT_BASE = 68718952448) as Hv by done.
  assert (vpn BRK_START = 53955526656 ∧ vpn PHYS_MAPPING_START = 36641439744) as [Hb Hp] by done. rewrite brk_other by (rewrite Ht, Hb; unfold BRK_PAGES; lia).
  rewrite (range_other PHYS_MAPPING_START 1024) by (rewrite ?Ht, ?Hp; lia).
  apply (range_page KERNEL_TEXT_BASE 512); lia.
Qed.

Lemma kernel_phys_page i : 0 ≤ i < 1024 →
  kernel_pages D !! vpn (PHYS_MAPPING_START + i * PAGE_SIZE) = Some (page_entry (i * PAGE_SIZE) kernel_flags).
Proof.
  intros Hi. unfold kernel_pages. pose proof (phys_page i Hi) as Ht.
  assert (vpn BRK_START = 53955526656 ∧ vpn PHYS_MAPPING_START = 36641439744) as [Hb Hp] by done.
  rewrite brk_other by (rewrite Ht, Hb; unfold BRK_PAGES; lia). apply (range_page PHYS_MAPPING_START 1024); lia.
Qed.

Lemma kernel_brk_page i q : D !! i = Some q →
  kernel_pages D !! vpn (BRK_START + Z.of_nat i * PAGE_SIZE) = Some (page_entry q kernel_flags).
Proof.
  intros Hq. apply insert_pages_page; [rewrite length_map, HD; by vm_compute|].
  change (@map Z Z) with (@fmap list list_fmap Z Z). by rewrite list_lookup_fmap, Hq.
Qed.

Lemma kernel_no_page w :
  ¬ (vpn KERNEL_TEXT_BASE ≤ w < vpn KERNEL_TEXT_BASE + 512) → ¬ (vpn PHYS_MAPPING_START ≤ w < vpn PHYS_MAPPING_START + 1024) →
  ¬ (vpn BRK_START ≤ w < vpn BRK_START + BRK_PAGES) → kernel_pages D !! w = None.
Proof.
  intros Ht Hp Hb. assert (vpn KERNEL_TEXT_BASE = 68718952448 ∧ vpn PHYS_MAPPING_START = 36641439744) as [Et Ep] by done.
  unfold kernel_pages. rewrite brk_other by exact Hb.
  rewrite (range_other PHYS_MAPPING_START 1024); [|lia|lia|exact Hp].
  rewrite (range_other KERNEL_TEXT_BASE 512); [|lia|lia|exact Ht]. apply lookup_empty.
Qed.

Lemma kernel_resident : Forall (resident (kernel_pages D)) kernel_areas.
Proof.
  assert (∀ p, page_entry p kernel_flags ≠ 0) as Hne.
  { intros p Hz. apply Z.lor_eq_0_iff in Hz as [_ Hf]. by vm_compute in Hf. }
  assert (∀ v, 0 ≤ v_pages v ≤ 2 ^ 19 → (∀ i, 0 ≤ i < v_pages v → ∃ p, kernel_pages D !! vpn (v_start v + i * PAGE_SIZE) =
    Some (page_entry p kernel_flags)) → resident (kernel_pages D) v) as Hr.
  { intros v Hn Hp. split; [done|]. intros i Hi. destruct (Hp i Hi) as [p ->]. by eexists. }
  unfold kernel_areas. rewrite !list.Forall_cons, list.Forall_nil.
  split; [|split; [|split; [|exact I]]]; (apply Hr; [split; by vm_compute|]);
    cbn [text_area phys_area brk_area v_pages v_start]; intros i Hi.
  - eexists. apply (kernel_text_page i Hi).
  - eexists. apply (kernel_phys_page i Hi).
  - destruct (lookup_lt_is_Some_2 D (Z.to_nat i)) as [q Hq]; [rewrite HD; unfold BRK_PAGES in *; lia|].
    exists q. replace i with (Z.of_nat (Z.to_nat i)) by lia. exact (kernel_brk_page _ q Hq).
Qed.
End pages.

Section init.
Context {St : Type} {FO : FrameOps St} {FL : FrameLaws St}.
Context {H : Type} {HO : HeapOps H}.
Variable sym : statics.
Hypothesis Hsym : statics_ok sym.
Implicit Types (s : vm St H) (x y : mm) (U : tables) (D : list Z).

(** The objects as the loader leaves them, all zeros. *)
Definition zero_area : vm_area := VmArea 0 VM_AREA_REG 0 0 false 0.
Definition image_zeroed s : Prop :=
  mms s !! kernel_mm sym = Some (Mm 0 0) ∧
  Forall (λ a, vmas s !! a = Some zero_area) [kernel_vma sym; phys_vma sym; kernel_heap_vma sym].

Definition linked_vmas (vs : gmap Z vm_area) : gmap Z vm_area :=
  <[kernel_heap_vma sym := brk_area]> (<[phys_vma sym := phys_area]> (<[kernel_vma sym := text_area]> vs)).
Definition linked_lis (ls : gmap Z vm_area_li) : gmap Z vm_area_li :=
  <[kernel_heap_vma_li sym := VmAreaLi (kernel_heap_vma sym) 0 (phys_vma_li sym)]>
    (<[phys_vma_li sym := VmAreaLi (phys_vma sym) (kernel_heap_vma_li sym) (kernel_vma_li sym)]>
      (<[kernel_vma_li sym := VmAreaLi (kernel_vma sym) (phys_vma_li sym) 0]> ls)).

Record kernel_ready s s' y U D : Prop := {
  kr_map : kernel_map sym s' y U (kernel_pages D) (kernel_list sym) kernel_areas;
  kr_grow : grow (frames s) ∅ (frames s') U D;
  kr_len : length D = Z.to_nat BRK_PAGES;
  kr_zero q : q ∈ D → zero_page (frame_mem (frames s')) q ∧ good_frame q;
  kr_heap : kheap s' = kheap s;
  kr_mms b : b ≠ kernel_mm sym → mms s' !! b = mms s !! b;
  kr_vmas : vmas s' = linked_vmas (vmas s);
  kr_lis : lis s' = linked_lis (lis s);
  kr_avail : (frame_avail (frames s) ≤ 5 * 1664 + frame_avail (frames s'))%nat;
}.

(** The three areas are linked and point to their descriptions. *)
Lemma linked_list s y vs ls : vmas s = linked_vmas vs → lis s = linked_lis ls → vm_areas y = kernel_vma_li sym →
  areas s y (kernel_list sym) ∧ areas_of s (kernel_list sym) kernel_areas.
Proof.
  intros Ev El Hy. pose proof (so_vmas _ Hsym) as Nv. pose proof (so_lis _ Hsym) as Nl.
  rewrite !list.NoDup_cons in Nv, Nl. rewrite !not_elem_of_cons in Nv, Nl.
  destruct Nv as ((Nv1 & Nv2 & _) & (Nv3 & _) & _). destruct Nl as ((Nl1 & Nl2 & _) & (Nl3 & _) & _).
  assert (∀ a, a ∈ [kernel_vma_li sym; phys_vma_li sym; kernel_heap_vma_li sym] → a ≠ 0) as Hne.
  { intros a Ha. assert (HEAP_LIMIT ≤ a) as Hl; [|unfold HEAP_LIMIT, HEAP_START, PAGE_SIZE in Hl; lia].
    apply (so_image _ Hsym). set_solver. }
  split; [split; [|exact (so_lis _ Hsym)]|].
  - rewrite Hy. unfold kernel_list. simpl. rewrite El. unfold linked_lis.
    split; [done|]. split; [apply Hne; set_solver|]. eexists. split; [by rewrite !lookup_insert_ne, lookup_insert_eq by done|].
    split; [done|]. split; [apply Hne; set_solver|]. eexists. split; [by rewrite lookup_insert_ne, lookup_insert_eq by done|].
    split; [done|]. split; [apply Hne; set_solver|]. eexists. split; [by rewrite lookup_insert_eq|done].
  - unfold areas_of, kernel_list, kernel_areas. rewrite Ev. unfold linked_vmas.
    repeat (apply list.Forall2_cons; split); [..|apply list.Forall2_nil]; eexists; simpl.
    + by rewrite !lookup_insert_ne, lookup_insert_eq by done.
    + by rewrite lookup_insert_ne, lookup_insert_eq by done.
    + by rewrite lookup_insert_eq.
Qed.

Lemma kernel_mm_init_ok s : frame_inv (frames s) → image_zeroed s → (5 * 1664 ≤ frame_avail (frames s))%nat →
  wp (kernel_mm_init sym (kernel_mm sym)) s (λ _ s', ∃ y U D, kernel_ready s s' y U D).
Proof.
  intros Hi (Hk & Hz) Hav. rewrite !list.Forall_cons in Hz. destruct Hz as (Hv1 & Hv2 & Hv3 & _).
  pose proof (so_vmas _ Hsym) as Nv. rewrite !list.NoDup_cons, !not_elem_of_cons in Nv. destruct Nv as ((Nv1 & Nv2 & _) & (Nv3 & _) & _).
  set (k := kernel_mm sym) in *. unfold kernel_mm_init. fold k.
  apply wp_bind, (wp_get_mm _ _ (Mm 0 0)); [done|]. unfold put_mm, put_vma, put_li. apply wp_bind, wp_modify.
  apply wp_bind, (wp_get_vma _ _ zero_area); [done|]. apply wp_bind, wp_modify. apply wp_bind.
  match goal with |- wp _ ?t _ => set (s1 := t) end.
  eapply wp_mono; [apply (map_range_ok s1 k (set_vm_areas (Mm 0 0) (kernel_vma_li sym)) ∅ ∅)|].
  { split; [simpl; by rewrite lookup_insert_eq|]. by apply (space_set_areas (frames s)), empty_space. }
  1-3: done. { simpl frames. lia. }
  intros [] s2 (x2 & T2 & H2 & G2 & Hx2 & Ha2). apply wp_bind, wp_modify.
  apply wp_bind, (wp_get_vma _ _ zero_area).
  { simpl. rewrite (vg_vmas _ _ _ _ _ _ G2). simpl. by rewrite lookup_insert_ne. }
  apply wp_bind, wp_modify. apply wp_bind.
  match goal with |- wp _ ?t _ => set (s3 := t) end.
  set (f2 := insert_pages KERNEL_TEXT_BASE _ ∅) in H2.
  assert (mm_at s3 k x2 T2 f2) as H3 by (destruct H2; by split).
  assert (frames s3 = frames s2) as Ef3 by done.
  change (frames s1) with (frames s) in Ha2. change (5 * Z.to_nat 512)%nat with (5 * 512)%nat in Ha2.
  eapply wp_mono; [apply (map_range_ok s3 k x2 T2 f2 _ _ _ _ _ H3)|]. 1-3: done.
  { rewrite Ef3. change (Z.to_nat 1024) with 1024%nat. lia. }
  intros [] s4 (x4 & T4 & H4 & G4 & Hx4 & Ha4). apply wp_bind, wp_modify.
  apply wp_bind, (wp_get_vma _ _ zero_area).
  { simpl. rewrite (vg_vmas _ _ _ _ _ _ G4). simpl. rewrite lookup_insert_ne by done.
    rewrite (vg_vmas _ _ _ _ _ _ G2). simpl. by rewrite lookup_insert_ne. }
  apply wp_bind, wp_modify. apply wp_bind.
  match goal with |- wp _ ?t _ => set (s5 := t) end.
  set (f4 := insert_pages PHYS_MAPPING_START _ f2) in H4.
  assert (mm_at s5 k x4 T4 f4) as H5 by (destruct H4; by split).
  assert (frames s5 = frames s4) as Ef5 by done.
  rewrite Ef3 in Ha4. change (5 * Z.to_nat 1024)%nat with (5 * 1024)%nat in Ha4.
  change (Z.lor (prot_to_x86_prot (w8 (Z.lor PAGE_PROT_READ PAGE_PROT_WRITE))) PAGE_PRESENT) with kernel_flags.
  eapply wp_mono; [apply (map_fresh_ok s5 k x4 T4 f4 BRK_START (Z.to_nat BRK_PAGES) kernel_flags H5)|]. 1-2: done.
  { rewrite Ef5. change (Z.to_nat BRK_PAGES) with 128%nat. lia. }
  intros [] s6 (x6 & T6 & D & HlD & H6 & G6 & Hx6 & HD & Ha6). apply wp_modify.
  match goal with |- ∃ y U D, kernel_ready _ ?t _ _ _ => set (s7 := t) end.
  rewrite Ef5 in Ha6. change (5 * Z.to_nat BRK_PAGES)%nat with (5 * 128)%nat in Ha6.
  exists x6, T6, D.
  assert (vmas s7 = linked_vmas (vmas s)) as Ev.
  { unfold s7. simpl. rewrite (vg_vmas _ _ _ _ _ _ G6). simpl. rewrite (vg_vmas _ _ _ _ _ _ G4). simpl.
    by rewrite (vg_vmas _ _ _ _ _ _ G2). }
  assert (lis s7 = linked_lis (lis s)) as El.
  { unfold s7. simpl. rewrite (vg_lis _ _ _ _ _ _ G6). simpl. rewrite (vg_lis _ _ _ _ _ _ G4). simpl.
    by rewrite (vg_lis _ _ _ _ _ _ G2). }
  assert (vm_areas x6 = kernel_vma_li sym) as Ex by (rewrite Hx6, Hx4, Hx2; done).
  destruct (linked_list s7 x6 _ _ Ev El Ex) as [Har Hao].
  pose proof (grow_trans _ _ _ _ _ _ _ _ (grow_trans _ _ _ _ _ _ _ _ (vg_grow _ _ _ _ _ _ G2) (vg_grow _ _ _ _ _ _ G4)) (vg_grow _ _ _ _ _ _ G6)) as G.
  split; [split| | | | | | | |].
  - destruct H6; by split.
  - exact Har.
  - exact Hao.
  - by apply kernel_resident.
  - exact G.
  - exact HlD.
  - exact HD.
  - change (kheap s7) with (kheap s6). rewrite (vg_heap _ _ _ _ _ _ G6). change (kheap s5) with (kheap s4).
    rewrite (vg_heap _ _ _ _ _ _ G4). change (kheap s3) with (kheap s2). by rewrite (vg_heap _ _ _ _ _ _ G2).
  - intros b Hb. change (mms s7) with (mms s6). rewrite (vg_mms _ _ _ _ _ _ G6) by done. change (mms s5) with (mms s4).
    rewrite (vg_mms _ _ _ _ _ _ G4) by done. change (mms s3) with (mms s2). rewrite (vg_mms _ _ _ _ _ _ G2) by done.
    simpl. by rewrite lookup_insert_ne.
  - exact Ev.
  - exact El.
  - change (frames s7) with (frames s6). lia.
Qed.
End init.

(** ** The property *)
Section property.
Context {St : Type} {FO : FrameOps St} {FL : FrameLaws St}.
Context {H : Type} {HO : HeapOps H}.
Implicit Types (s : vm St H) (y : mm) (U : tables) (g : gmap Z Z) (D : list Z).

(** C8: from zeroed objects and 8320 free frames (1664 pages, at most four new
    tables each), [kernel_mm_init] builds the map that every address space
    shares: 512 pages of the image, 1024 pages of physical memory, 128 fresh
    zeroed frames for the heap, all writable for the kernel alone, and no page
    with another number, in three areas that are linked and resident.  Nothing of the user half
    is mapped; and no frame from 4 MiB on can be reached through [P_TO_V],
    although the frame allocator hands them out. *)
Theorem kernel_mm_init_spec sym s (Hsym : statics_ok sym) (Hi : frame_inv (frames s)) (Hz : image_zeroed sym s)
    (Hav : (5 * 1664 ≤ frame_avail (frames s))%nat) :
  ∃ s' y U g D, kernel_mm_init sym (kernel_mm sym) s = Ok (tt, s') ∧
    kernel_map sym s' y U g (kernel_list sym) kernel_areas ∧
    (∀ i, 0 ≤ i < 512 → g !! vpn (KERNEL_TEXT_BASE + i * PAGE_SIZE) = Some (page_entry (i * PAGE_SIZE) kernel_flags)) ∧
    (∀ i, 0 ≤ i < 1024 → g !! vpn (PHYS_MAPPING_START + i * PAGE_SIZE) = Some (page_entry (i * PAGE_SIZE) kernel_flags)) ∧
    (length D = 128%nat ∧ NoDup D ∧ ∀ i q, D !! i = Some q →
      g !! vpn (BRK_START + Z.of_nat i * PAGE_SIZE) = Some (page_entry q kernel_flags) ∧
      zero_page (frame_mem (frames s')) q ∧ ¬ frame_used (frames s) q) ∧
    (∀ w, ¬ (vpn KERNEL_TEXT_BASE ≤ w < vpn KERNEL_TEXT_BASE + 512) →
      ¬ (vpn PHYS_MAPPING_START ≤ w < vpn PHYS_MAPPING_START + 1024) →
      ¬ (vpn BRK_START ≤ w < vpn BRK_START + 128) → g !! w = None) ∧
    (∀ v, 0 ≤ v < 2 ^ 47 → g !! vpn v = None) ∧
    (∀ q, 0x400000 ≤ q < PHYS_LIMIT → g !! vpn (P_TO_V q) = None) ∧
    kheap s' = kheap s.
Proof.
  destruct (proj1 (wp_run _ _ _) (kernel_mm_init_ok sym Hsym s Hi Hz Hav)) as ([] & s' & Hrun & y & U & D & Hr).
  exists s', y, U, (kernel_pages D), D. pose proof Hr as [Hk G Hl Hzero Hh _ _ _ _].
  assert (vpn KERNEL_TEXT_BASE = 68718952448 ∧ vpn BRK_START = 53955526656 ∧ vpn PHYS_MAPPING_START = 36641439744) as (Et & Eb & Ep) by done.
  split; [exact Hrun|]. split; [exact Hk|]. split; [exact (kernel_text_page D Hl)|]. split; [exact (kernel_phys_page D Hl)|].
  split; [|split; [exact (kernel_no_page D Hl)|split; [|split; [|exact Hh]]]].
  - split; [exact Hl|]. split; [apply (gr_nodup _ _ _ _ _ G)|]. intros i q Hq. split; [by apply kernel_brk_page|].
    assert (q ∈ D) as Hin by (by eapply list_elem_of_lookup_2). split; [by apply Hzero|by apply (gr_data _ _ _ _ _ G)].
  - intros v Hv. assert (0 ≤ vpn v < 2 ^ 35) as Hw.
    { unfold vpn. rewrite Z.mod_small; [split; [apply Z.div_pos; lia|apply Z.div_lt_upper_bound; lia]|].
      split; [apply Z.div_pos; lia|apply Z.div_lt_upper_bound; lia]. }
    apply (kernel_no_page D Hl); unfold BRK_PAGES; lia.
  - intros q Hq. rewrite P_TO_V_small by lia. assert (vpn (PHYS_MAPPING_START + q) = vpn PHYS_MAPPING_START + q / 4096) as Ev.
    { unfold vpn in *. change PHYS_MAPPING_START with (0xffff888000000 * 4096) at 1. rewrite Z.div_add_l by lia.
      rewrite <- Z.add_mod_idemp_l by lia. change (0xffff888000000 mod 2 ^ 36) with 36641439744. rewrite Ep.
      apply Z.mod_small. unfold PHYS_LIMIT in Hq. pose proof (Z.div_pos q 4096). pose proof (Z.div_lt_upper_bound q 4096 0x408000000). lia. }
    rewrite Ev. unfold PHYS_LIMIT in Hq. pose proof (Z.div_le_lower_bound q 4096 1024). pose proof (Z.div_lt_upper_bound q 4096 0x408000000).
    apply (kernel_no_page D Hl); unfold BRK_PAGES; lia.
Qed.
End property.

(** ** A machine with 36 MiB of memory *)
Definition ex_boot_ram : mmap_region := Region 0x200000 9000.
Definition ex_boot_frames : pmm := Pmm (pmm_init_regions ∅ [ex_boot_ram]) [ex_boot_ram].
Definition ex_image : statics :=
  let a i := 0xffffffff80200000 + 64 * i in Statics (a 0) (a 1) (a 2) (a 3) (a 4) (a 5) (a 6).
Definition ex_image_objects {H} (h : H) (fr : pmm) : vm pmm H :=
  Vm fr h {[kernel_mm ex_image := Mm 0 0]}
    (<[kernel_vma ex_image := zero_area]> (<[phys_vma ex_image := zero_area]> {[kernel_heap_vma ex_image := zero_area]})) ∅.

Lemma ex_image_ok : statics_ok ex_image.
Proof.
  split.
  - intros a Ha. assert (Forall (λ a, HEAP_LIMIT ≤ a) [kernel_mm ex_image; kernel_vma_li ex_image; kernel_vma ex_image;
      phys_vma_li ex_image; phys_vma ex_image; kernel_heap_vma_li ex_image; kernel_heap_vma ex_image]) as Hall.
    { repeat constructor; by vm_compute. }
    rewrite list.Forall_forall in Hall. by apply Hall.
  - by apply (bool_decide_eq_true_1 _), eq_refl.
  - by apply (bool_decide_eq_true_1 _), eq_refl.
Qed.
Lemma ex_image_zeroed {H} {HO : HeapOps H} (h : H) fr : image_zeroed ex_image (ex_image_objects h fr).
Proof.
  split; [simpl; by rewrite lookup_singleton_eq|]. repeat constructor.
Qed.
Lemma ex_boot_avail : frame_inv ex_boot_frames ∧ (5 * 1664 ≤ frame_avail ex_boot_frames)%nat.
Proof.
  assert (regions_ok [ex_boot_ram]) as Hrs.
  { split.
    - intros r ->%list_elem_of_singleton. split_and!; by vm_compute.
    - intros r1 r2 ->%list_elem_of_singleton ->%list_elem_of_singleton. by left. }
  destruct (pmm_init_regions_inv [ex_boot_ram] ∅ Hrs) as (Hi & Hf & _). split; [exact Hi|].
  etrans; [|apply (region_avail ex_boot_frames ex_boot_ram Hi); [by apply list_elem_of_singleton|]].
  - assert (bmap_pages ex_boot_ram = 1) as -> by by vm_compute. simpl pages. lia.
  - intros i Hp. apply Hf. exists ex_boot_ram, i. split; [by apply list_elem_of_singleton|done].
Qed.

Lemma kernel_mm_init_spec_witness : ∃ s' : vm pmm heap,
  kernel_mm_init ex_image (kernel_mm ex_image) (ex_image_objects (init_heap ∅) ex_boot_frames) = Ok (tt, s') ∧
  is_Some (mms s' !! kernel_mm ex_image).
Proof.
  destruct ex_boot_avail as [Hi Ha].
  destruct (kernel_mm_init_spec ex_image (ex_image_objects (init_heap ∅) ex_boot_frames) ex_image_ok Hi
    (ex_image_zeroed _ _) Ha) as (s' & y & U & g & D & Hrun & Hk & _).
  exists s'. split; [exact Hrun|]. destruct (km_at _ _ _ _ _ _ _ Hk) as [Hm _]. by rewrite Hm.
Defined.
