(* ===== verification/MmProps.v ===== *)
(** The properties of address spaces ([Mm]), with the states of the two real
    allocators on which their hypotheses hold. *)

From S2P Require Import Prelude Memory Interfaces Pmm PageTable AddressSpace Kmalloc Heap Mm MmSpec.

Section properties.
Context {St : Type} {FO : FrameOps St} {FL : FrameLaws St}.
Context {H : Type} {HO : HeapOps H} {HL : HeapLaws H}.
Implicit Types (s : vm St H) (x y : mm) (T U : tables) (f g : gmap Z Z) (B : gmap Z Z) (L : list (Z * Z)).

(** [vmm_map_range] of [n] aligned pages, with five frames left for each,
    inserts exactly those pages: page [i] maps to [phys + i * 4096] with the
    rights asked for, every other page keeps its entry, and no other object of
    the memory manager changes. *)
Theorem vmm_map_range_spec s a x T f virt phys n prot user
    (Hx : mm_at s a x T f) (Hv : virt mod PAGE_SIZE = 0) (Hp : phys mod PAGE_SIZE = 0)
    (Hn : 0 ≤ n ≤ 2 ^ 19) (Hav : (5 * Z.to_nat n ≤ frame_avail (frames s))%nat) :
  ∃ s' x' T' f', vmm_map_range a virt phys n prot user s = Ok (tt, s') ∧ mm_at s' a x' T' f' ∧
    (∀ i, 0 ≤ i < n → f' !! vpn (virt + i * PAGE_SIZE) =
      Some (page_entry (w64 (phys + i * PAGE_SIZE)) (map_flags prot user))) ∧
    (∀ w, (∀ i, 0 ≤ i < n → vpn (virt + i * PAGE_SIZE) ≠ w) → f' !! w = f !! w) ∧
    vm_areas x' = vm_areas x ∧ kheap s' = kheap s ∧ vmas s' = vmas s ∧ lis s' = lis s ∧
    (∀ b, b ≠ a → mms s' !! b = mms s !! b).
Proof.
  destruct (proj1 (wp_run _ _ _) (map_range_ok s a x T f virt phys n prot user Hx Hv Hp Hn Hav))
    as ([] & s' & Hrun & x' & T' & Hx' & G & Hvm & _).
  eexists s', x', T', _. split; [done|]. split; [exact Hx'|].
  assert (length (range_entries phys (map_flags prot user) (Z.to_nat n)) = Z.to_nat n) as Hlen
    by (unfold range_entries; rewrite length_map, length_seqZ; lia).
  split; [|split; [|split; [done|split_and!; apply G]]].
  - intros i Hi. replace i with (Z.of_nat (Z.to_nat i)) at 1 by lia. apply insert_pages_page; [lia|].
    unfold range_entries. change (@map Z Z) with (@fmap list list_fmap Z Z).
    rewrite list_lookup_fmap, lookup_seqZ_lt by lia. cbn [fmap option_fmap option_map]. by rewrite Z.add_0_l, Z2Nat.id by lia.
  - intros w Hw. apply insert_pages_other. rewrite Hlen. intros i Hi. apply Hw. lia.
Qed.

(** ** Well-formed address spaces

    Every regular area is backed by frames of its own, and the regular areas
    are disjoint. *)
Record mm_wf s (b : Z) y U g L vs : Prop := {
  wf_at : mm_at s b y U g;
  wf_areas : areas s y L;
  wf_areas_of : areas_of s L vs;
  wf_mapped v : v ∈ vs → reg v → mapped s ∅ g v;
  wf_disjoint : reg_disjoint vs;
}.

Lemma reg_disjoint_perm vs vs' : vs ≡ₚ vs' → reg_disjoint vs → reg_disjoint vs'.
Proof.
  induction 1 as [|v vs vs' Hp IH|v u vs|]; simpl; [done| | |tauto].
  - intros [Hv Hd]. split; [|tauto]. intros Hr u w Hu. apply Hv; [done|]. by rewrite Hp.
  - intros (Hv & Hu & Hd). split; [|split; [|done]].
    + intros Hr w a [->|Hw]%elem_of_cons Hrw Hin Hin'; [by apply (Hv Hrw v a); [left|..]|by apply (Hu Hr w a)].
    + intros Hr w a Hw. apply (Hv Hr). by right.
Qed.

Lemma reg_disjoint_filter vs : reg_disjoint vs → reg_disjoint (filter reg vs).
Proof.
  induction vs as [|v vs IH]; [done|]. intros [Hv Hd]. rewrite filter_cons. destruct (decide (reg v)); [|by apply IH].
  split; [|by apply IH]. intros Hr u w [_ Hu]%list_elem_of_filter. by apply Hv.
Qed.

Lemma reg_disjoint_app vs ks : reg_disjoint vs → (∀ v, v ∈ ks → ¬ reg v) → reg_disjoint (vs ++ ks).
Proof.
  intros Hd Hk. induction vs as [|v vs IH]; simpl.
  - clear Hd. induction ks as [|k ks IH]; [done|]. split; [intros Hr; by destruct (Hk k ltac:(left))|].
    apply IH. intros v Hv. apply Hk. by right.
  - destruct Hd as [Hv Hd]. split; [|by apply IH]. intros Hr u w [Hu|Hu]%elem_of_app Hru; [by apply Hv|].
    by destruct (Hk u Hu).
Qed.

Lemma elem_of_rev {A} (v : A) l : v ∈ rev l ↔ v ∈ l.
Proof. by rewrite <- (Permutation_rev l). Qed.

(** A well-formed space after a step of a new one. *)
Lemma wf_other s b y U g L vs c B s' B' T Lc D n k :
  mm_wf s b y U g L vs → b ≠ c → mm_step c s B ∅ [] s' B' T Lc D n k →
  mm_wf s' b y U g L vs ∧ separate U T ∧
  ∀ q, frame_used (frames s) q → same_page (frame_mem (frames s)) (frame_mem (frames s')) q.
Proof.
  intros [Hy [Hseg Hnd] Hvs Hmap Hdis] Hbc S.
  assert (separate U ∅) as Hse by (intros p q r _; by rewrite lookup_empty).
  destruct (mm_step_other _ _ _ _ _ _ _ _ _ _ _ _ _ _ _ _ S Hbc Hy Hse) as [Hy' Hsep'].
  assert (apart_lists [] L) as Hap by by intros l _ ?%not_elem_of_nil.
  destruct (mm_step_list _ _ _ _ _ _ _ _ _ _ _ _ _ _ _ S Hseg Hap) as [Hseg' _].
  pose proof (st_grow _ _ _ _ _ _ _ _ _ _ _ _ S) as G. split; [|split; [done|]].
  - split; [done|by split|by eapply mm_step_areas| |done]. intros v Hv Hr.
    destruct (Hmap v Hv Hr) as (H1 & H2 & Hm). split; [done|]. split; [done|]. intros i Hi.
    destruct (Hm i Hi) as (e & He & Hne & Hu & Hn). exists e. split_and!; try done. by eapply grow_keeps.
  - intros q Hq. apply (gr_other _ _ _ _ _ G); [done|]. intros p. by rewrite lookup_empty.
Qed.

(** The areas of the copy. *)
Lemma child_mapped s s' g f vs kvs v :
  (∀ v, v ∈ kvs → ¬ reg v) → (∀ v, v ∈ vs → reg v → mapped s ∅ g v) →
  (∀ v, v ∈ vs → reg v → copied s g s' f v) → v ∈ rev (filter reg vs) ++ rev kvs → reg v → mapped s' ∅ f v.
Proof.
  intros Hk Hmap Hcp Hv Hr. apply elem_of_app in Hv as [Hv|Hv]; [|by apply elem_of_rev, Hk in Hv].
  apply elem_of_rev, list_elem_of_filter in Hv as [_ Hv].
  destruct (Hmap v Hv Hr) as (Hst & Hpg & _). split; [done|]. split; [done|]. intros i Hi.
  destruct (Hcp v Hv Hr i Hi) as (e & q & _ & Hq & (Hq0 & Hqa & _) & _ & Hu & _).
  pose proof (map_flags_range (v_prot v) (v_user v)) as Hfl.
  exists (page_entry q (map_flags (v_prot v) (v_user v))). split; [done|]. unfold page_entry.
  split; [intros [? ?]%Z.lor_eq_0_iff; lia|]. rewrite page_base_lor by (done || lia).
  split; [done|]. intros p. by rewrite lookup_empty.
Qed.

Lemma child_disjoint vs kvs : (∀ v, v ∈ kvs → ¬ reg v) → reg_disjoint vs →
  reg_disjoint (rev (filter reg vs) ++ rev kvs).
Proof.
  intros Hk Hd. apply reg_disjoint_app; [|intros v Hv; by apply Hk, elem_of_rev].
  eapply reg_disjoint_perm; [apply Permutation_rev|by apply reg_disjoint_filter].
Qed.

(** The copy [c] that [mm_dupe] leaves, with what it took. *)
Record duped s B (b : Z) g vs kg kvs s' c x T f Lc B' D (n : Z) (k : nat) : Prop := {
  du_fresh : mms s !! c = None ∧ b ≠ c;
  du_at : mm_at s' c x T f;
  du_areas : areas s' x Lc;
  du_areas_of : areas_of s' Lc (rev (filter reg vs) ++ rev kvs);
  du_step : mm_step c s B ∅ [] s' B' T Lc D n k;
  du_copied v : v ∈ vs → reg v → copied s g s' f v;
  du_kernel w : (∀ v, v ∈ vs → reg v → ¬ in_area v w) → f !! w = share_all kg kvs ∅ !! w;
}.

Lemma mm_dupe_ok sym fuel s B b y U g L vs ky KU kg LK kvs :
  objects_ok s B → kernel_map sym s ky KU kg LK kvs → mm_wf s b y U g L vs → (length LK ≤ fuel ∧ length L ≤ fuel)%nat →
  (5 * (total_pages kvs + reg_pages vs) ≤ frame_avail (frames s))%nat →
  56 * Z.of_nat (length LK) + 120 * Z.of_nat (length L) + 48 < heap_room (kheap s) →
  wp (mm_dupe sym fuel b) s (λ c s', ∃ x T f Lc B' D, duped s B b g vs kg kvs s' c x T f Lc B' D
    (56 * Z.of_nat (length LK) + 48 + 120 * Z.of_nat (length L)) (5 * total_pages kvs + 5 * reg_pages vs)).
Proof.
  intros Ho Hk [Hy [Hseg Hnd] Hvs Hmap Hdis] Hfuel Hav Hroom.
  unfold mm_dupe. apply wp_bind.
  eapply wp_mono; [apply (mm_new_ok sym fuel s B ky KU kg LK kvs Ho Hk); [apply Hfuel|lia|lia]|].
  intros c s1 (x1 & T1 & L1 & B1 & [Hx1 Har1 Hao1 [Hfr Hc0] S1]).
  assert (b ≠ c) as Hbc by (intros ->; destruct Hy; congruence).
  assert (separate U ∅) as Hse by (intros p q r _; by rewrite lookup_empty).
  destruct (mm_step_other _ _ _ _ _ _ _ _ _ _ _ _ _ _ _ _ S1 Hbc Hy Hse) as [Hy1 Hsep1].
  assert (apart_lists [] L) as Hap by by intros l _ ?%not_elem_of_nil.
  destruct (mm_step_list _ _ _ _ _ _ _ _ _ _ _ _ _ _ _ S1 Hseg Hap) as [Hseg1 Hap1].
  pose proof (st_avail _ _ _ _ _ _ _ _ _ _ _ _ S1) as Ha1.
  pose proof (hs_room _ _ _ _ _ (st_heap _ _ _ _ _ _ _ _ _ _ _ _ S1)) as Hr1.
  apply wp_bind, (wp_get_mm _ _ y); [apply Hy1|]. apply wp_bind.
  eapply wp_mono; [eapply (dupe_loop_ok L vs fuel c b 0 (vm_areas y) s1 B1 x1 T1 _ L1 y U g); try done|].
  - apply (hs_ok _ _ _ _ _ (st_heap _ _ _ _ _ _ _ _ _ _ _ _ S1)).
  - apply Hfuel.
  - eapply mm_step_areas; [exact S1|exact Hvs].
  - intros v Hv Hreg. eapply mm_step_mapped; [exact S1|by apply Hmap].
  - lia.
  - lia.
  - intros [] s2 (x2 & T2 & f2 & L2 & B2 & D2 & H2 & Har2 & S2 & Hf2 & Hc2 & Hao2). apply wp_ret.
    exists x2, T2, f2, L2, B2. eexists. split; [done|done|done|by apply Hao2| | |done].
    + exact (mm_step_trans _ _ _ _ _ _ _ _ _ _ _ _ _ _ _ _ _ _ _ S1 S2).
    + intros v Hv Hreg. eapply copied_earlier; [exact S1|by apply Hmap|by apply Hc2].
Qed.

(** The copy is a well-formed space next to the parent. *)
Lemma duped_wf s B b y U g L vs kg kvs s' c x T f Lc B' D n k :
  (∀ v, v ∈ kvs → ¬ reg v) → mm_wf s b y U g L vs → duped s B b g vs kg kvs s' c x T f Lc B' D n k →
  objects_ok s' B' ∧ mm_wf s' c x T f Lc (rev (filter reg vs) ++ rev kvs) ∧ mm_wf s' b y U g L vs ∧ separate U T ∧
  ∀ q, frame_used (frames s) q → same_page (frame_mem (frames s)) (frame_mem (frames s')) q.
Proof.
  intros Hkvs Hwf [[Hc Hbc] Hx Har Hao S Hcp Hsh]. pose proof Hwf as [Hy _ _ Hmap Hdis].
  split; [apply (hs_ok _ _ _ _ _ (st_heap _ _ _ _ _ _ _ _ _ _ _ _ S))|]. split.
  - split; [done|done|done|intros v Hv Hr; by apply (child_mapped s s' g f vs kvs)|by apply child_disjoint].
  - by apply (wf_other s b y U g L vs c B s' B' T Lc D n k).
Qed.

(** C25: [mm_dupe] is a deep copy.  The new address space is a new object; every
    page of a regular area of the parent has a frame there that was free
    before and holds what the parent's page held, with the rights of the area;
    everywhere else the new space maps what the areas of the kernel map.  Its
    list holds the parent's regular areas and the kernel's, so that it is well
    formed as the parent is, and can be duplicated again.  The parent keeps its
    map, and no frame that was in use, the parent's data among them, changes. *)
Theorem mm_dupe_spec sym fuel s B b y U g L vs ky KU kg LK kvs
    (Ho : objects_ok s B) (Hk : kernel_map sym s ky KU kg LK kvs) (Hkvs : ∀ v, v ∈ kvs → ¬ reg v)
    (Hwf : mm_wf s b y U g L vs) (Hfuel : (length LK ≤ fuel ∧ length L ≤ fuel)%nat)
    (Hav : (5 * (total_pages kvs + reg_pages vs) ≤ frame_avail (frames s))%nat)
    (Hroom : 56 * Z.of_nat (length LK) + 120 * Z.of_nat (length L) + 48 < heap_room (kheap s)) :
  ∃ c s' B' x T f Lc, mm_dupe sym fuel b s = Ok (c, s') ∧ mms s !! c = None ∧ objects_ok s' B' ∧
    mm_wf s' c x T f Lc (rev (filter reg vs) ++ rev kvs) ∧
    (∀ v, v ∈ vs → reg v → copied s g s' f v) ∧
    (∀ w, (∀ v, v ∈ vs → reg v → ¬ in_area v w) → f !! w = share_all kg kvs ∅ !! w) ∧
    mm_wf s' b y U g L vs ∧ separate U T ∧
    (∀ q, frame_used (frames s) q → same_page (frame_mem (frames s)) (frame_mem (frames s')) q).
Proof.
  destruct (proj1 (wp_run _ _ _) (mm_dupe_ok sym fuel s B b y U g L vs ky KU kg LK kvs Ho Hk Hwf Hfuel Hav Hroom))
    as (c & s' & Hrun & x & T & f & Lc & B' & D & Hd).
  destruct (duped_wf _ _ _ _ _ _ _ _ _ _ _ _ _ _ _ _ _ _ _ _ Hkvs Hwf Hd) as (H1 & H2 & H3).
  exists c, s', B', x, T, f, Lc. split; [done|]. split; [apply Hd|]. split; [done|]. split; [done|].
  split; [apply Hd|]. split; [apply Hd|done].
Qed.

(** The last line of [mm_free_reg_vma] and [mm_unshare_vma]. *)
Lemma unref_vma_ok s B vma v k :
  heap_inv (kheap s) B → vmas s !! vma = Some v → (s32 (v_refcnt v - 1) = 0 → B !! vma = Some k) →
  wp (unref_vma vma) s (λ _ s',
    frames s' = frames s ∧ mms s' = mms s ∧ lis s' = lis s ∧
    if s32 (v_refcnt v - 1) =? 0
    then vmas s' = delete vma (vmas s) ∧ heap_inv (kheap s') (delete vma B)
    else vmas s' = <[vma := set_v_refcnt (s32 (v_refcnt v - 1)) v]> (vmas s) ∧ kheap s' = kheap s).
Proof.
  intros Hi Hv Hk. unfold unref_vma. apply wp_bind, (wp_get_vma _ _ v); [done|]. unfold put_vma. wp_steps.
  destruct (Z.eqb_spec (s32 (v_refcnt v - 1)) 0) as [E|E]; [|by apply wp_ret].
  specialize (Hk E). unfold free_vma. apply wp_bind, wp_zoom. eapply wp_mono; [by apply (heap_release_ok _ B vma k)|].
  intros [] h (Hh & _ & _). wp_steps. simpl. split_and!; try done. apply delete_insert_eq.
Qed.

(** The frames [D] back the pages of the area [v], in order, and are no tables. *)
Record owns s T f (v : vm_area) D : Prop := {
  ow_len : length D = Z.to_nat (v_pages v);
  ow_backed : backed f (v_start v) D;
  ow_nodup : NoDup D;
  ow_used q : q ∈ D → frame_used (frames s) q ∧ no_table T q;
}.

(** [mm_free_reg_vma] gives back what [anon_mmap] took.  Of an area whose
    [i]-th page is backed by the [i]-th of the frames [D], every page is
    unmapped and no other; the frames [D] and the tables that became empty are
    free again, and nothing else that was in use; the area loses one reference
    and is released with the last. *)
Theorem mm_free_reg_vma_spec s B a x T f vma v k D
    (Hi : heap_inv (kheap s) B) (Hx : mm_at s a x T f) (Hv : vmas s !! vma = Some v) (Hk : B !! vma = Some k)
    (Hreg : reg v) (Hpg : 0 ≤ v_pages v ≤ 2 ^ 19) (Hown : owns s T f v D) :
  ∃ s' x' T' f', mm_free_reg_vma a vma s = Ok (tt, s') ∧ mm_at s' a x' T' f' ∧ T' ⊆ T ∧
    (∀ i, 0 ≤ i < v_pages v → f' !! vpn (v_start v + i * PAGE_SIZE) = None) ∧
    (∀ w, ¬ in_area v w → f' !! w = f !! w) ∧
    (∀ q, frame_used (frames s') q ↔ frame_used (frames s) q ∧ q ∉ D ∧ (∀ p, T !! p = Some q → T' !! p = Some q)) ∧
    (frame_avail (frames s') + size T' = frame_avail (frames s) + size T + length D)%nat ∧
    vmas s' = if s32 (v_refcnt v - 1) =? 0 then delete vma (vmas s)
              else <[vma := set_v_refcnt (s32 (v_refcnt v - 1)) v]> (vmas s).
Proof.
  destruct Hown as [Hlen Hb Hnd HD].
  enough (wp (mm_free_reg_vma a vma) s (λ _ s', ∃ x' T', mm_at s' a x' T' (delete_pages (v_start v) (length D) f) ∧
    (∃ s1, dropped a s T D s1 T' ∧ frames s' = frames s1) ∧
    vmas s' = if s32 (v_refcnt v - 1) =? 0 then delete vma (vmas s)
              else <[vma := set_v_refcnt (s32 (v_refcnt v - 1)) v]> (vmas s))) as Hw.
  { destruct (proj1 (wp_run _ _ _) Hw) as ([] & s' & Hrun & x' & T' & Hx' & (s1 & [I S U O C Ob M] & Hf) & Hvm).
    exists s', x', T', (delete_pages (v_start v) (length D) f). rewrite Hf. split; [done|]. split; [done|].
    split; [done|]. split; [|split; [|split; [exact U|split; [exact C|exact Hvm]]]].
    - intros i Hin. replace i with (Z.of_nat (Z.to_nat i)) by lia. apply delete_pages_in. lia.
    - intros w Hw'. apply delete_pages_out. intros i Hlt He. apply Hw'. exists (Z.of_nat i). split; [lia|done]. }
  unfold mm_free_reg_vma. apply wp_bind, (wp_get_vma _ _ v); [done|].
  rewrite decide_False by (intros Hn; by apply Hn). apply wp_bind. rewrite <- Hlen.
  eapply wp_mono; [apply (free_pages_ok s a x T f (v_start v) D Hx); [lia|done|done|done]|].
  intros [] s1 (x1 & T1 & H1 & Hd & Hv1). destruct (dr_objs _ _ _ _ _ _ Hd) as (Hh & Hvm & Hl).
  eapply wp_mono; [apply (unref_vma_ok s1 B vma v k); [by rewrite Hh|by rewrite Hvm|done]|].
  intros [] s2 (Hf & Hm & _ & Hcase). exists x1, T1. split; [|split; [by exists s1|]].
  - destruct H1 as [Hm1 Hs1]. split; [by rewrite Hm|by rewrite Hf].
  - rewrite Hvm in Hcase. destruct (_ =? 0); apply Hcase.
Qed.
End properties.

(** ** Building well-formed spaces *)
Section building.
Context {St : Type} {FO : FrameOps St} {FL : FrameLaws St}.
Context {H : Type} {HO : HeapOps H} {HL : HeapLaws H}.
Implicit Types (s : vm St H) (x y : mm) (T U : tables) (f g : gmap Z Z) (B : gmap Z Z) (L : list (Z * Z)).

Lemma new_wf s B s' B' a x T f L vs n k :
  new_space s B s' B' a x T f L vs n k → (∀ v, v ∈ vs → ¬ reg v) → mm_wf s' a x T f L vs.
Proof.
  intros [Hx Har Hao _ _] Hk. split; [done|done|done|intros v Hv Hr; by destruct (Hk v Hv)|].
  pose proof (reg_disjoint_app [] vs I Hk) as Hd. exact Hd.
Qed.

(** The area that [anon_mmap] records. *)
Definition anon_area (start pages prot : Z) (user : bool) : vm_area := VmArea 1 VM_AREA_REG start pages user prot.

Lemma anon_wf s B a x T f L vs start pages prot user s' x' T' D vma li B' :
  mm_wf s a x T f L vs → anon_post s B a x T f L start pages prot user s' x' T' D vma li B' →
  start mod PAGE_SIZE = 0 → 0 ≤ pages ≤ 2 ^ 19 → w8 prot = prot →
  (∀ u w, u ∈ vs → reg u → in_area (anon_area start pages prot user) w → ¬ in_area u w) →
  mm_wf s' a x' T' (insert_pages start (map (λ q, page_entry q (map_flags prot user)) D) f) ((li, vma) :: L)
    (anon_area start pages prot user :: vs).
Proof.
  intros Hwf Han Hst Hpg Hprot Hdj. pose proof (anon_mm_step _ _ _ _ _ _ _ _ _ _ _ _ _ _ _ _ _ _ Han) as S.
  destruct Han as [Hx' Hl G Hz Har Hvm _ _ _ _ _ _]. destruct Hwf as [Hx Har0 Hao Hmap Hdis].
  split; [done|done| | |].
  - apply (areas_of_cons _ _ _ _ _ _ _ _ _ _ _ _ vs li vma 1 _ S Hao).
    rewrite Hvm, lookup_insert_eq. unfold set_v_refcnt, anon_area. simpl. by rewrite Hprot.
  - intros v [->|Hv]%elem_of_cons Hr.
    + split; [done|]. split; [done|]. cbn [anon_area v_start v_pages]. intros i Hi.
      destruct (lookup_lt_is_Some_2 D (Z.to_nat i) ltac:(lia)) as [q Hq].
      assert (q ∈ D) as Hin by by eapply list_elem_of_lookup_2. destruct (Hz q Hin) as [_ (Hq0 & Hqa & _)].
      pose proof (map_flags_range prot user) as Hfl.
      exists (page_entry q (map_flags prot user)). replace i with (Z.of_nat (Z.to_nat i)) by lia. split.
      { apply insert_pages_page; [rewrite length_map; lia|].
        change (@map Z Z) with (@fmap list list_fmap Z Z). by rewrite list_lookup_fmap, Hq. }
      unfold page_entry. split; [intros [? ?]%Z.lor_eq_0_iff; lia|]. rewrite page_base_lor by (done || lia).
      split; [apply (gr_used _ _ _ _ _ G); by right; right|]. intros p. by rewrite lookup_empty.
    + destruct (Hmap v Hv Hr) as (H1 & H2 & Hm). split; [done|]. split; [done|]. intros i Hi.
      destruct (Hm i Hi) as (e & He & Hne & Hu & Hn). exists e. split.
      { rewrite insert_pages_other; [done|]. rewrite length_map. intros j Hj Hw.
        apply (Hdj v (vpn (v_start v + i * PAGE_SIZE)) Hv Hr); [|by exists i].
        exists j. split; [cbn [anon_area v_pages]; lia|done]. }
      split; [done|]. split; [by eapply grow_keeps|done].
  - split; [intros _; exact Hdj|done].
Qed.
(** C26: [anon_mmap] gives an address space [pages] fresh frames: they were free,
    they are filled with zeros, page [i] of the range maps to the [i]-th of
    them with the rights asked for, and every other page keeps its entry.  The
    range is recorded as an area at the head of the list, so that the space
    stays well formed, and an address space with tables of its own sees nothing
    of it. *)
Theorem anon_mmap_spec s B a x T f L vs start pages prot user b y U g
    (Ho : objects_ok s B) (Hwf : mm_wf s a x T f L vs)
    (Hst : start mod PAGE_SIZE = 0) (Hpg : 0 ≤ pages ≤ 2 ^ 19) (Hprot : w8 prot = prot)
    (Hdj : ∀ u w, u ∈ vs → reg u → in_area (anon_area start pages prot user) w → ¬ in_area u w)
    (Hav : (5 * Z.to_nat pages ≤ frame_avail (frames s))%nat) (Hroom : 120 < heap_room (kheap s))
    (Hb : b ≠ a) (Hy : mm_at s b y U g) (Hsep : separate U T) :
  ∃ s' B' x' T' f' L' D, anon_mmap a start pages prot user s = Ok (tt, s') ∧ objects_ok s' B' ∧
    mm_wf s' a x' T' f' L' (anon_area start pages prot user :: vs) ∧ length D = Z.to_nat pages ∧ NoDup D ∧
    (∀ q, q ∈ D → ¬ frame_used (frames s) q ∧ frame_used (frames s') q ∧ zero_page (frame_mem (frames s')) q) ∧
    (∀ (i : nat) q, D !! i = Some q → f' !! vpn (start + Z.of_nat i * PAGE_SIZE) = Some (page_entry q (map_flags prot user))) ∧
    (∀ w, (∀ i, 0 ≤ i < pages → vpn (start + i * PAGE_SIZE) ≠ w) → f' !! w = f !! w) ∧
    mm_at s' b y U g ∧ separate U T'.
Proof.
  destruct (proj1 (wp_run _ _ _) (anon_mmap_ok s B a x T f L start pages prot user Ho (wf_at _ _ _ _ _ _ _ Hwf)
    (wf_areas _ _ _ _ _ _ _ Hwf) Hst Hpg Hav Hroom)) as ([] & s' & Hrun & x' & T' & D & vma & li & B' & Han).
  pose proof (anon_mm_step _ _ _ _ _ _ _ _ _ _ _ _ _ _ _ _ _ _ Han) as S.
  pose proof (anon_wf _ _ _ _ _ _ _ _ _ _ _ _ _ _ _ _ _ _ _ Hwf Han Hst Hpg Hprot Hdj) as Hwf'.
  destruct Han as [Hx' Hl G Hz Har Hvm _ _ _ _ _ _].
  eexists s', B', x', T', _, _, D. split; [done|]. split; [apply (hs_ok _ _ _ _ _ (st_heap _ _ _ _ _ _ _ _ _ _ _ _ S))|].
  split; [exact Hwf'|]. split; [done|].
  split; [apply (gr_nodup _ _ _ _ _ G)|]. split; [|split; [|split]].
  - intros q Hq. destruct (gr_data _ _ _ _ _ G q Hq) as [Hn _]. split; [done|].
    split; [by eapply grow_data_owned|by apply Hz].
  - intros i q Hq. apply insert_pages_page; [rewrite length_map; lia|].
    change (@map Z Z) with (@fmap list list_fmap Z Z). by rewrite list_lookup_fmap, Hq.
  - intros w Hw. apply insert_pages_other. rewrite length_map. intros i Hi. apply Hw. lia.
  - by eapply mm_step_other.
Qed.
End building.

(** ** The states of the witnesses

    256 pages of memory at 1 MiB, the heap after [kmalloc_init], a kernel map of
    one page of kernel text, and a process with one page at 4 MiB. *)
Definition ex_ram : mmap_region := Region 0x100000 256.
Definition ex_frames : pmm := Pmm (pmm_init_regions ∅ [ex_ram]) [ex_ram].
Definition ex_sym : statics :=
  let a i := 0xffffffff80200000 + 64 * i in Statics (a 0) (a 1) (a 2) (a 3) (a 4) (a 5) (a 6).
Definition ex_text : vm_area := VmArea 1 VM_AREA_KERNELTEXT KERNEL_TEXT_BASE 1 false 3.
Definition ex_vm0 : vm pmm heap :=
  Vm ex_frames (init_heap ∅) {[kernel_mm ex_sym := Mm 0 (kernel_vma_li ex_sym)]}
    {[kernel_vma ex_sym := ex_text]} {[kernel_vma_li ex_sym := VmAreaLi (kernel_vma ex_sym) 0 0]}.

Lemma ex_ram_ok : regions_ok [ex_ram].
Proof.
  split.
  - intros r ->%list_elem_of_singleton. split_and!; by vm_compute.
  - intros r1 r2 ->%list_elem_of_singleton ->%list_elem_of_singleton. by left.
Qed.

Lemma ex_frames_avail : (240 ≤ frame_avail ex_frames)%nat.
Proof.
  change (frame_avail ex_frames) with (size (free_frames ex_frames)).
  assert (∀ i, 1 ≤ i < 256 → page_addr ex_ram i ∈ free_frames ex_frames) as Hf.
  { intros i Hi. apply (pmm_init_regions_inv [ex_ram] ∅ ex_ram_ok).
    exists ex_ram, i. split; [by apply list_elem_of_singleton|].
    split; [|done]. assert (bmap_pages ex_ram = 1) as -> by by vm_compute. simpl. lia. }
  transitivity (size (list_to_set (page_addr ex_ram <$> seqZ 1 240) : gset Z)).
  - apply Nat.eq_le_incl. vm_compute. reflexivity.
  - apply subseteq_size. intros q. rewrite elem_of_list_to_set, list_elem_of_fmap.
    intros (i & -> & Hi). apply Hf. apply elem_of_seqZ in Hi. lia.
Qed.

Lemma ex_vm0_objects : objects_ok ex_vm0 ∅.
Proof.
  split; simpl.
  - exists ex_blocks. split; [apply init_heap_ok|done].
  - intros a [y Hy]. apply lookup_singleton_Some in Hy as [<- _]. right. by vm_compute.
  - intros a [y Hy]. apply lookup_singleton_Some in Hy as [<- _]. right. by vm_compute.
  - intros a [y Hy]. apply lookup_singleton_Some in Hy as [<- _]. right. by vm_compute.
Qed.

Lemma ex_vm0_mm : mm_at ex_vm0 (kernel_mm ex_sym) (Mm 0 (kernel_vma_li ex_sym)) ∅ ∅.
Proof.
  split; [simpl; by rewrite lookup_singleton_eq|].
  apply (space_set_areas ex_frames (Mm 0 0) ∅ ∅ (kernel_vma_li ex_sym)), empty_space.
  by apply pmm_init_regions_inv, ex_ram_ok.
Qed.

Lemma ex_room : heap_room (init_heap ∅) = 507904.
Proof. done. Qed.

(** The kernel's own map. *)
Lemma ex_kernel : ∃ (s : vm pmm heap) y U g,
  vmm_map_range (kernel_mm ex_sym) KERNEL_TEXT_BASE 0 1 3 false ex_vm0 = Ok (tt, s) ∧
  kernel_map ex_sym s y U g [(kernel_vma_li ex_sym, kernel_vma ex_sym)] [ex_text] ∧ objects_ok s ∅ ∧
  (235 ≤ frame_avail (frames s))%nat ∧ heap_room (kheap s) = 507904 ∧ vmas s = vmas ex_vm0.
Proof.
  pose proof ex_frames_avail as Hav.
  destruct (proj1 (wp_run _ _ _) (map_range_ok ex_vm0 (kernel_mm ex_sym) _ ∅ ∅ KERNEL_TEXT_BASE 0 1 3 false
    ex_vm0_mm eq_refl eq_refl ltac:(lia) ltac:(cbn [frames ex_vm0]; lia))) as ([] & s & Hrun & y & U & Hy & G & Hvm & Ha).
  exists s, y, U. eexists. split; [exact Hrun|]. clear Hrun.
  pose proof (vm_grow_objects _ _ _ _ _ _ _ G ex_vm0_objects) as Ho. split; [split|].
  - exact Hy.
  - split; [|apply list.NoDup_singleton]. rewrite Hvm, (vg_lis _ _ _ _ _ _ G).
    split; [done|]. split; [done|]. exists 0. split; [by vm_compute|done].
  - constructor; [|constructor]. exists 1. rewrite (vg_vmas _ _ _ _ _ _ G). by vm_compute.
  - constructor; [|constructor]. split; [done|]. intros i Hi. cbn [ex_text v_pages] in Hi.
    replace i with (Z.of_nat 0) by lia. eexists. split; [apply (insert_pages_page _ _ _ 0); [by vm_compute|reflexivity]|]. by vm_compute.
  - split; [done|]. change (5 * Z.to_nat 1)%nat with 5%nat in Ha. change (frames ex_vm0) with ex_frames in Ha. split; [lia|].
    split; [rewrite (vg_heap _ _ _ _ _ _ G); exact ex_room|]. apply (vg_vmas _ _ _ _ _ _ G).
Qed.

(** A process of one page next to the kernel. *)
Record ex_process (s : vm pmm heap) (B : gmap Z Z) (b : Z) (y : mm) (U : tables) (g : gmap Z Z) L vs ky KU kg : Prop := {
  xp_objects : objects_ok s B;
  xp_kernel : kernel_map ex_sym s ky KU kg [(kernel_vma_li ex_sym, kernel_vma ex_sym)] [ex_text];
  xp_wf : mm_wf s b y U g L vs;
  xp_page : ∃ li vma L', L = (li, vma) :: L' ∧ length L' = 1%nat;
  xp_vs : vs = [anon_area 0x400000 1 3 true; ex_text];
  xp_avail : (80 ≤ frame_avail (frames s))%nat;
  xp_room : 507000 < heap_room (kheap s);
}.

Lemma ex_new : ∃ (s : vm pmm heap) B b y U g L ky KU kg,
  objects_ok s B ∧ kernel_map ex_sym s ky KU kg [(kernel_vma_li ex_sym, kernel_vma ex_sym)] [ex_text] ∧
  mm_wf s b y U g L [ex_text] ∧ b ≠ kernel_mm ex_sym ∧ separate KU U ∧
  apart_lists L [(kernel_vma_li ex_sym, kernel_vma ex_sym)] ∧ (230 ≤ frame_avail (frames s))%nat ∧
  507000 + 200 < heap_room (kheap s).
Proof.
  destruct ex_kernel as (s & ky & KU & kg & _ & Hk & Ho & Hav & Hroom & _). pose proof Hk as [Hky [Hseg Hnd] Hvs Hres].
  destruct (proj1 (wp_run _ _ _) (mm_new_ok ex_sym 1 s ∅ ky KU kg _ _ Ho Hk ltac:(done)
    ltac:(change (5 * total_pages [ex_text])%nat with 5%nat; lia) ltac:(cbn [length]; lia)))
    as (b & s1 & _ & x & T & L & B1 & Hns).
  pose proof Hns as [Hx Har Hao [Hnone _] S].
  assert (kernel_mm ex_sym ≠ b) as Hkb by (intros He; destruct Hky as [Hm _]; rewrite He in Hm; congruence).
  destruct (mm_step_other _ _ _ _ _ _ _ _ _ _ _ _ _ _ _ _ S Hkb Hky) as [Hky1 Hsep]; [intros p q r _; by rewrite lookup_empty|].
  destruct (mm_step_list _ _ _ _ _ _ _ _ _ _ _ _ _ _ _ S Hseg) as [Hseg1 Hap]; [by intros l _ ?%not_elem_of_nil|].
  exists s1, B1, b, x, T, (share_all kg [ex_text] ∅), L, ky, KU, kg.
  split; [apply (hs_ok _ _ _ _ _ (st_heap _ _ _ _ _ _ _ _ _ _ _ _ S))|].
  split; [split; [done|by split|by eapply mm_step_areas|done]|].
  split; [eapply new_wf; [exact Hns|]; intros v ->%list_elem_of_singleton; done|].
  split; [congruence|]. split; [done|]. split; [done|].
  pose proof (st_avail _ _ _ _ _ _ _ _ _ _ _ _ S) as Ha. change (5 * total_pages [ex_text])%nat with 5%nat in Ha.
  pose proof (hs_room _ _ _ _ _ (st_heap _ _ _ _ _ _ _ _ _ _ _ _ S)) as Hr. simpl length in Hr. split; lia.
Qed.

Lemma ex_parent : ∃ s B b y U g L vs ky KU kg, ex_process s B b y U g L vs ky KU kg.
Proof.
  destruct ex_new as (s & B & b & y & U & g & L & ky & KU & kg & Ho & Hk & Hwf & Hb & Hsep & Hap & Hav & Hroom).
  pose proof Hwf as [Hy Har Hao _ _].
  destruct (proj1 (wp_run _ _ _) (anon_mmap_ok s B b y U g L 0x400000 1 3 true Ho Hy Har eq_refl ltac:(lia)
    ltac:(change (5 * Z.to_nat 1)%nat with 5%nat; lia) ltac:(lia)))
    as ([] & s1 & _ & y1 & U1 & D & vma & li & B1 & Han).
  pose proof (anon_mm_step _ _ _ _ _ _ _ _ _ _ _ _ _ _ _ _ _ _ Han) as S. pose proof Hk as [Hky [Hseg Hnd] Hvs Hres].
  destruct (mm_step_other _ _ _ _ _ _ _ _ _ _ _ _ _ _ _ _ S (not_eq_sym Hb) Hky Hsep) as [Hky1 Hsep1].
  destruct (mm_step_list _ _ _ _ _ _ _ _ _ _ _ _ _ _ _ S Hseg Hap) as [Hseg1 Hap1].
  exists s1, B1, b, y1, U1. do 3 eexists. exists ky, KU, kg. split.
  - apply (hs_ok _ _ _ _ _ (st_heap _ _ _ _ _ _ _ _ _ _ _ _ S)).
  - split; [done|by split|by eapply mm_step_areas|done].
  - eapply (anon_wf s B b y U g L [ex_text]); [exact Hwf|exact Han|done|done|done|].
    intros u w ->%list_elem_of_singleton Hr. done.
  - exists li, vma, L. split; [done|]. by apply list.Forall2_length in Hao.
  - done.
  - pose proof (st_avail _ _ _ _ _ _ _ _ _ _ _ _ S) as Ha. change (5 * Z.to_nat 1)%nat with 5%nat in Ha. lia.
  - pose proof (hs_room _ _ _ _ _ (st_heap _ _ _ _ _ _ _ _ _ _ _ _ S)) as Hr. lia.
Qed.

Lemma vmm_map_range_spec_witness : ∃ s', vmm_map_range (kernel_mm ex_sym) KERNEL_TEXT_BASE 0 2 3 false ex_vm0 = Ok (tt, s').
Proof.
  pose proof ex_frames_avail as Hav.
  destruct (vmm_map_range_spec ex_vm0 (kernel_mm ex_sym) _ ∅ ∅ KERNEL_TEXT_BASE 0 2 3 false
    ex_vm0_mm eq_refl eq_refl ltac:(lia) ltac:(change (5 * Z.to_nat 2)%nat with 10%nat; change (frames ex_vm0) with ex_frames; lia))
    as (s' & x' & T' & f' & Hr & _).
  exists s'. exact Hr.
Defined.

Lemma anon_mmap_spec_witness : ∃ (s : vm pmm heap) b s', anon_mmap b 0x400000 2 3 true s = Ok (tt, s').
Proof.
  destruct ex_new as (s & B & b & y & U & g & L & ky & KU & kg & Ho & Hk & Hwf & Hb & Hsep & Hap & Hav & Hroom).
  destruct (anon_mmap_spec s B b y U g L [ex_text] 0x400000 2 3 true (kernel_mm ex_sym) ky KU kg Ho Hwf
    eq_refl ltac:(lia) eq_refl ltac:(intros u w ->%list_elem_of_singleton Hr; done)
    ltac:(change (5 * Z.to_nat 2)%nat with 10%nat; lia) ltac:(lia)
    (not_eq_sym Hb) (km_at _ _ _ _ _ _ _ Hk) Hsep) as (s' & B' & x' & T' & f' & L' & D & Hr & _).
  exists s, b, s'. exact Hr.
Defined.

Lemma mm_dupe_spec_witness : ∃ (s : vm pmm heap) b c s', mm_dupe ex_sym 2 b s = Ok (c, s').
Proof.
  destruct ex_parent as (s & B & b & y & U & g & L & vs & ky & KU & kg & [Ho Hk Hwf (li & vma & L' & -> & HL) -> Hav Hr]).
  destruct (mm_dupe_spec ex_sym 2 s B b y U g ((li, vma) :: L') [anon_area 0x400000 1 3 true; ex_text] ky KU kg
    [(kernel_vma_li ex_sym, kernel_vma ex_sym)] [ex_text]
    Ho Hk ltac:(intros v ->%list_elem_of_singleton; done) Hwf ltac:(simpl; lia)
    ltac:(change (5 * (total_pages [ex_text] + reg_pages [anon_area 0x400000 1 3 true; ex_text]))%nat with 10%nat; lia)
    ltac:(cbn [length]; rewrite HL; lia)) as (c & s' & B' & x & T & f & Lc & Hrun & _).
  exists s, b, c, s'. exact Hrun.
Defined.

Lemma mm_free_reg_vma_spec_witness : ∃ (s : vm pmm heap) b vma s', mm_free_reg_vma b vma s = Ok (tt, s').
Proof.
  destruct ex_new as (s & B & b & y & U & g & L & ky & KU & kg & Ho & Hk & Hwf & Hb & Hsep & Hap & Hav & Hroom).
  destruct (proj1 (wp_run _ _ _) (anon_mmap_ok s B b y U g L 0x400000 1 3 true Ho (wf_at _ _ _ _ _ _ _ Hwf)
    (wf_areas _ _ _ _ _ _ _ Hwf) eq_refl ltac:(lia) ltac:(change (5 * Z.to_nat 1)%nat with 5%nat; lia) ltac:(lia)))
    as ([] & s1 & _ & y1 & U1 & D & vma & li & B1 & Han).
  pose proof (hs_ok _ _ _ _ _ (an_heap _ _ _ _ _ _ _ _ _ _ _ _ _ _ _ _ _ _ Han)) as Ho1.
  destruct Han as [Hx Hl G Hz _ Hvm _ [(k & j & HB1) (_ & _ & Hlv)] _ _ _ _].
  assert (B1 !! vma = Some k) as Hk1 by (rewrite HB1, lookup_insert_ne by done; apply lookup_insert_eq).
  assert (vmas s1 !! vma = Some (anon_area 0x400000 1 3 true)) as Hv by (rewrite Hvm; apply lookup_insert_eq).
  destruct (mm_free_reg_vma_spec s1 B1 b y1 U1 _ vma _ k D (ob_heap _ _ Ho1) Hx Hv Hk1 eq_refl ltac:(done)
    (Build_owns s1 U1 _ (anon_area 0x400000 1 3 true) D Hl
      (anon_backed _ D _ _ _ _ ltac:(rewrite Hl; by vm_compute) Hz) (gr_nodup _ _ _ _ _ G) (grow_data_owned _ _ _ _ _ G)))
    as (s' & x' & T' & f' & Hr & _).
  exists s1, b, vma, s'. exact Hr.
Defined.
