(* ===== verification/MmFree.v ===== *)
(** Giving an address space back: [mm_free] of [mm/vmm.c].

    [built] describes an address space that has been made since a state [s0]:
    every frame, block, node and area that it has was not there in [s0], and the
    areas of the kernel have one more reference each.  The operations that make
    an address space keep [built] with one more area, and each turn of the loop
    of [mm_free] keeps it with one area less, so that [mm_free] leads back to
    [s0]. *)

From S2P Require Import Prelude Memory Interfaces Pmm PageTable AddressSpace Kmalloc Heap Mm MmSpec MmProps.

(** No page belongs to two areas. *)
Fixpoint areas_apart (vs : list vm_area) : Prop :=
  match vs with
  | [] => True
  | v :: r => (∀ u w, u ∈ r → in_area v w → ¬ in_area u w) ∧ areas_apart r
  end.

(** An area of a space: the node of the list, its address, the area. *)
Abbreviation area_at := (Z * Z * vm_area)%type.

#[local] Instance free_reg_dec v : Decision (reg v) := decide (v_type v = VM_AREA_REG).

(** The blocks of the heap and the frames that an area owns. *)
Definition area_blocks (t : area_at) : list Z := t.1.1 :: (if decide (reg t.2) then [t.1.2] else []).
Definition blocks_of (As : list area_at) : list Z := As ≫= area_blocks.
Definition area_data (f : gmap Z Z) (t : area_at) : list Z := if decide (reg t.2) then area_frames f t.2 else [].
Definition data_frames (f : gmap Z Z) (As : list area_at) : list Z := As ≫= area_data f.

Lemma blocks_of_cons t As : blocks_of (t :: As) = area_blocks t ++ blocks_of As.
Proof. done. Qed.
Lemma data_frames_cons f t As : data_frames f (t :: As) = area_data f t ++ data_frames f As.
Proof. done. Qed.

Lemma area_frames_ext f f' v : (∀ w, in_area v w → f' !! w = f !! w) → area_frames f' v = area_frames f v.
Proof.
  intros He. unfold area_frames, page_entries. f_equal. apply map_ext_in. intros i Hi%list_elem_of_In%elem_of_seqZ.
  rewrite He; [done|]. exists i. split; [lia|done].
Qed.

Lemma data_frames_ext f f' As : (∀ t w, t ∈ As → in_area t.2 w → f' !! w = f !! w) → data_frames f' As = data_frames f As.
Proof.
  induction As as [|t As IH]; intros He; [done|]. rewrite !data_frames_cons. f_equal.
  - unfold area_data. case_decide; [|done]. apply area_frames_ext. intros w. apply He. left.
  - apply IH. intros u w Hu. apply He. by right.
Qed.

Lemma insert_pages_area v es f w : length es = Z.to_nat (v_pages v) → ¬ in_area v w →
  insert_pages (v_start v) es f !! w = f !! w.
Proof. intros Hl Hw. apply insert_pages_other. intros i Hi He. apply Hw. exists i. split; [lia|done]. Qed.

Lemma insert_pages_hit v es f w : length es = Z.to_nat (v_pages v) → v_pages v ≤ 2 ^ 19 → in_area v w →
  ∃ i e, es !! i = Some e ∧ insert_pages (v_start v) es f !! w = Some e.
Proof.
  intros Hl Hp (i & Hi & ->). destruct (lookup_lt_is_Some_2 es (Z.to_nat i) ltac:(lia)) as [e He]. exists (Z.to_nat i), e.
  split; [done|]. replace i with (Z.of_nat (Z.to_nat i)) by lia. apply insert_pages_page; [lia|done].
Qed.

Lemma in_area_dec v w : Decision (in_area v w).
Proof.
  refine (cast_if (decide (Exists (λ i, w = vpn (v_start v + i * PAGE_SIZE)) (seqZ 0 (v_pages v))))).
  - abstract (apply list.Exists_exists in e as (i & Hi%elem_of_seqZ & ->); exists i; split; [lia|done]).
  - abstract (intros (i & Hi & ->); apply n, list.Exists_exists; exists i; split; [apply elem_of_seqZ; lia|done]).
Defined.
#[local] Existing Instance in_area_dec.

(** The map of a space with one more area. *)
Lemma insert_area_map v es f (P : Z → Prop) :
  length es = Z.to_nat (v_pages v) → v_pages v ≤ 2 ^ 19 → (∀ w, is_Some (f !! w) ↔ P w) →
  ∀ w, is_Some (insert_pages (v_start v) es f !! w) ↔ in_area v w ∨ P w.
Proof.
  intros Hl Hp Hf w. destruct (decide (in_area v w)) as [Hin|Hin].
  - destruct (insert_pages_hit v es f w Hl Hp Hin) as (i & e & _ & He). rewrite He. split; [by left|by eexists].
  - rewrite insert_pages_area, Hf by done. tauto.
Qed.

Section built.
Context {St : Type} {FO : FrameOps St} {FL : FrameLaws St}.
Context {H : Type} {HO : HeapOps H} {HL : HeapLaws H}.
Implicit Types (s : vm St H) (x y : mm) (T U : tables) (f g : gmap Z Z) (B : gmap Z Z) (As : list area_at).

(** The state in which the address space at [a] did not exist, with the blocks
    of its heap. *)
Variables (s0 : vm St H) (B0 : gmap Z Z) (a : Z).

Record built s B x T f (p curr : Z) As : Prop := {
  bu_at : mm_at s a x T f;
  bu_heap : heap_inv (kheap s) B;
  bu_seg : li_seg (lis s) p curr As.*1;
  bu_grow : ∃ D, grow (frames s0) ∅ (frames s) T D ∧ D ≡ₚ data_frames f As;
  bu_nodup : NoDup As.*1.*2 ∧ NoDup (a :: blocks_of As);
  bu_in b : b ∈ a :: blocks_of As → B0 !! b = None ∧ is_Some (B !! b);
  bu_out b : b ∉ a :: blocks_of As → B !! b = B0 !! b;
  bu_mms : mms s0 !! a = None ∧ ∀ b, b ≠ a → mms s !! b = mms s0 !! b;
  bu_nodes l : l ∈ As.*1.*1 → lis s0 !! l = None;
  bu_lis l : l ∉ As.*1.*1 → lis s !! l = lis s0 !! l;
  bu_area t : t ∈ As → vmas s !! t.1.2 = Some t.2 ∧ 0 ≤ v_pages t.2 ≤ 2 ^ 19 ∧
    if decide (reg t.2) then v_refcnt t.2 = 1 ∧ vmas s0 !! t.1.2 = None
    else ∃ r, 1 ≤ r < 2 ^ 31 - 1 ∧ v_refcnt t.2 = r + 1 ∧ vmas s0 !! t.1.2 = Some (set_v_refcnt r t.2);
  bu_vmas w : w ∉ As.*1.*2 → vmas s !! w = vmas s0 !! w;
  bu_map w : is_Some (f !! w) ↔ ∃ t, t ∈ As ∧ in_area t.2 w;
  bu_nonzero w e : f !! w = Some e → e ≠ 0;
  bu_apart : areas_apart As.*2;
  bu_reg t : t ∈ As → reg t.2 → v_start t.2 mod PAGE_SIZE = 0 ∧ w8 (v_prot t.2) = v_prot t.2;
}.

Lemma elem_of_nodes As l : l ∈ As.*1.*1 ↔ ∃ t, t ∈ As ∧ t.1.1 = l.
Proof. rewrite <- list_fmap_compose, list_elem_of_fmap. naive_solver. Qed.
Lemma elem_of_addrs As w : w ∈ As.*1.*2 ↔ ∃ t, t ∈ As ∧ t.1.2 = w.
Proof. rewrite <- (list_fmap_compose fst snd), list_elem_of_fmap. naive_solver. Qed.
Lemma elem_of_areas As v : v ∈ As.*2 ↔ ∃ t, t ∈ As ∧ t.2 = v.
Proof. rewrite list_elem_of_fmap. naive_solver. Qed.

Lemma node_block As l : l ∈ As.*1.*1 → l ∈ blocks_of As.
Proof. intros (t & Ht & <-)%elem_of_nodes. apply list_elem_of_bind. exists t. split; [left|done]. Qed.

Lemma nodes_nodup As : NoDup (blocks_of As) → NoDup As.*1.*1.
Proof.
  induction As as [|t As IH]; intros Hnd; [constructor|]. rewrite blocks_of_cons in Hnd. simpl in Hnd.
  apply list.NoDup_cons in Hnd as [Hn Hnd]. simpl. apply list.NoDup_cons. split.
  - intros Hin%node_block. apply Hn, elem_of_app. by right.
  - apply IH. by apply list.NoDup_app in Hnd as (_ & _ & ?).
Qed.

(** ** One more area *)

(** The node, the block and the reference of a new area. *)
Record area_added s B As li vma v s' B' : Prop := {
  ad_node : lis s !! li = None;
  ad_lis l : l ≠ li → l ∉ As.*1.*1 → lis s' !! l = lis s !! l;
  ad_vmas : vmas s' = <[vma := v]> (vmas s);
  ad_in b : b ∈ area_blocks (li, vma, v) → B !! b = None ∧ is_Some (B' !! b);
  ad_out b : b ∉ area_blocks (li, vma, v) → B' !! b = B !! b;
  ad_nodup : NoDup (area_blocks (li, vma, v));
  ad_mms b : b ≠ a → mms s' !! b = mms s !! b;
  ad_new : vma ∉ As.*1.*2;
  ad_ref : if decide (reg v) then v_refcnt v = 1 ∧ vmas s !! vma = None
           else ∃ r, 1 ≤ r < 2 ^ 31 - 1 ∧ v_refcnt v = r + 1 ∧ vmas s !! vma = Some (set_v_refcnt r v);
}.

Lemma built_cons s B x T f As s' B' x' T' D es li vma v :
  built s B x T f 0 (vm_areas x) As → area_added s B As li vma v s' B' →
  length es = Z.to_nat (v_pages v) → 0 ≤ v_pages v ≤ 2 ^ 19 → Forall (λ e, e ≠ 0) es →
  (∀ u w, u ∈ As.*2 → in_area v w → ¬ in_area u w) →
  let f' := insert_pages (v_start v) es f in
  mm_at s' a x' T' f' → heap_inv (kheap s') B' → li_seg (lis s') 0 (vm_areas x') ((li, vma) :: As.*1) →
  grow (frames s) T (frames s') T' D → D ≡ₚ area_data f' (li, vma, v) →
  (reg v → v_start v mod PAGE_SIZE = 0 ∧ w8 (v_prot v) = v_prot v) →
  built s' B' x' T' f' 0 (vm_areas x') ((li, vma, v) :: As).
Proof.
  intros [Hat Hh Hseg (D0 & G0 & HD0) [Hnd1 Hnd2] Hin Hout [Hm1 Hm2] Hno Hlis Har Hvm Hmap Hnz Hap Hrg]
    [Al1 Al2 Av Ai Ao And Am An Aref] Hes Hpg Hne Hdis f' Hx' Hh' Hseg' G HD Hrv.
  assert (∀ b, b ∈ area_blocks (li, vma, v) → b ∉ a :: blocks_of As) as Hfresh.
  { intros b [Hb _]%Ai Hb'. destruct (Hin b Hb') as [_ [? ?]]. congruence. }
  assert (li ∉ As.*1.*1) as Hli.
  { intros Hn. destruct (li_seg_dom _ _ _ _ _ Hseg Hn) as [? ?]. congruence. }
  assert (∀ t w, t ∈ As → in_area t.2 w → f' !! w = f !! w) as Hold.
  { intros t w Ht Hw. apply insert_pages_area; [done|]. intros Hv. apply (Hdis t.2 w); [|done|done].
    apply elem_of_areas. by exists t. }
  split; [done|done|exact Hseg'|..].
  - exists (D0 ++ D). split; [by eapply grow_trans|]. rewrite data_frames_cons, HD, HD0, (data_frames_ext f f' As Hold). apply Permutation_app_comm.
  - split; [simpl; by apply list.NoDup_cons|]. rewrite blocks_of_cons.
    apply list.NoDup_cons in Hnd2 as [Ha Hnd2]. apply list.NoDup_cons. split.
    + intros [Hb|Hb]%elem_of_app; [|done]. apply (Hfresh a Hb). left.
    + apply list.NoDup_app. split; [done|]. split; [|done]. intros b Hb Hb'. apply (Hfresh b Hb). by right.
  - intros b. rewrite blocks_of_cons.
    intros [->|[Hb|Hb]%elem_of_app]%elem_of_cons.
    + destruct (Hin a ltac:(left)) as [H1 H2]. split; [done|]. rewrite Ao; [done|]. intros Hb. apply (Hfresh a Hb). left.
    + destruct (Ai b Hb) as [H1 H2]. split; [|done]. rewrite <- Hout; [done|by apply Hfresh].
    + destruct (Hin b ltac:(by right)) as [H1 H2]. split; [done|]. rewrite Ao; [done|].
      intros Hb'. apply (Hfresh b Hb'). by right.
  - intros b. rewrite blocks_of_cons.
    intros [Hb1 [Hb2 Hb3]%not_elem_of_app]%not_elem_of_cons. rewrite Ao by done. apply Hout. by apply not_elem_of_cons.
  - split; [done|]. intros b Hb. by rewrite Am, Hm2.
  - intros l [->|Hl]%elem_of_cons; [|by apply Hno]. simpl. by rewrite <- Hlis.
  - intros l [Hl1 Hl2]%not_elem_of_cons. by rewrite Al2, Hlis.
  - intros t [->|Ht]%elem_of_cons; simpl.
    + rewrite Av, lookup_insert_eq. split; [done|]. split; [done|]. rewrite <- Hvm by done. done.
    + rewrite Av, lookup_insert_ne; [by apply Har|]. intros He. apply An, elem_of_addrs. by exists t.
  - intros w [Hw1 Hw2]%not_elem_of_cons. rewrite Av, lookup_insert_ne by done. by apply Hvm.
  - intros w. unfold f'. rewrite (insert_area_map v es f _ Hes (proj2 Hpg) Hmap). split.
    + intros [Hw|(t & Ht & Hw)]; [exists (li, vma, v); split; [left|done]|exists t; split; [by right|done]].
    + intros (t & [->|Ht]%elem_of_cons & Hw); [by left|right; by exists t].
  - intros w e He. destruct (decide (in_area v w)) as [Hw|Hw].
    + destruct (insert_pages_hit v es f w Hes (proj2 Hpg) Hw) as (i & e' & Hi & He'). unfold f' in He.
      rewrite He' in He. injection He as <-. rewrite list.Forall_forall in Hne. eapply Hne, list_elem_of_lookup_2, Hi.
    + unfold f' in He. rewrite insert_pages_area in He by done. by eapply Hnz.
  - split; [done|done].
  - intros t [->|Ht]%elem_of_cons; [done|by apply Hrg].
Qed.

Lemma share_entries_length g v : length (share_entries g v) = Z.to_nat (v_pages v).
Proof. unfold share_entries, page_entries. by rewrite !length_map, length_seqZ. Qed.

Lemma page_entry_nonzero q flags : 0 ≤ q → 0 < flags → page_entry q flags ≠ 0.
Proof. unfold page_entry. intros ? ? [? ?]%Z.lor_eq_0_iff. lia. Qed.

Lemma share_entries_nonzero (fr : St) y U g v : space fr y U g → resident g v → Forall (λ e, e ≠ 0) (share_entries g v).
Proof.
  intros Hs [Hp Hr]. apply list.Forall_forall. unfold share_entries, page_entries. intros e He.
  apply list_elem_of_In, in_map_iff in He as (e0 & <- & He0). apply in_map_iff in He0 as (i & <- & Hi).
  apply list_elem_of_In, elem_of_seqZ in Hi. destruct (Hr i ltac:(lia)) as (e & He & _). rewrite He. simpl.
  pose proof (space_entry_range _ _ _ _ _ _ Hs He). pose proof (map_flags_range (v_prot v) (v_user v)).
  apply page_entry_nonzero; lia.
Qed.

(** One more reference to an area of the kernel. *)
Lemma built_share s B x T f As b y U g vma v :
  objects_ok s B → built s B x T f 0 (vm_areas x) As → a ≠ b → mm_at s b y U g → separate U T →
  ¬ reg v → vma ∉ As.*1.*2 → vmas s !! vma = Some v → 1 ≤ v_refcnt v < 2 ^ 31 - 1 → resident g v →
  (∀ u w, u ∈ As.*2 → in_area v w → ¬ in_area u w) →
  (5 * Z.to_nat (v_pages v) ≤ frame_avail (frames s))%nat → 56 < heap_room (kheap s) →
  wp (mm_share_vma a b vma) s (λ _ s', ∃ x' T' f' li B', let As' := ((li, vma), set_v_refcnt (v_refcnt v + 1) v) :: As in
    built s' B' x' T' f' 0 (vm_areas x') As' ∧
    mm_step a s B T As.*1 s' B' T' As'.*1 [] 56 (5 * Z.to_nat (v_pages v))).
Proof.
  intros Ho Hb Hab Hy Hsep Hreg Hnew Hv Hr Hres Hdis Hav Hroom. pose proof Hb as [Hat _ Hseg _ [_ Hnd] _ _ _ _ _ _ _ _ _ _ _].
  apply list.NoDup_cons in Hnd as [_ Hnd].
  eapply wp_mono; [apply (share_vma_ok s B a x T f As.*1 b y U g vma v); try done; by split; [|apply nodes_nodup]|].
  intros [] s' (x' & T' & li & B' & Hx' & [Hseg' _] & S & _ & [Lv [Ll LB] Lo [k Lb]]).
  assert (s32 (v_refcnt v + 1) = v_refcnt v + 1) as Hs32 by (apply s32_small; lia). rewrite Hs32 in Lv.
  set (u := set_v_refcnt (v_refcnt v + 1) v) in *.
  exists x', T'. eexists. exists li, B'. split; [|exact S].
  assert (area_blocks (li, vma, u) = [li]) as Hbl by (unfold area_blocks; simpl; by rewrite decide_False).
  apply (built_cons s B x T f As s' B' x' T' [] (share_entries g v) li vma u); try done.
  - split; try done; [rewrite Hbl..| |].
    + intros b' ->%list_elem_of_singleton. rewrite Lb, lookup_insert_eq. by split; [|eexists].
    + intros b' [Hb' _]%not_elem_of_cons. by rewrite Lb, lookup_insert_ne.
    + apply list.NoDup_singleton.
    + apply (st_mms _ _ _ _ _ _ _ _ _ _ _ _ S).
    + rewrite decide_False by done. exists (v_refcnt v). split; [done|]. split; [done|]. rewrite Hv. by destruct v.
  - exact (share_entries_length g v).
  - apply Hres.
  - eapply share_entries_nonzero; [apply Hy|done].
  - apply (ob_heap _ _ (hs_ok _ _ _ _ _ (st_heap _ _ _ _ _ _ _ _ _ _ _ _ S))).
  - apply (st_grow _ _ _ _ _ _ _ _ _ _ _ _ S).
  - unfold area_data. simpl. by rewrite decide_False.
Qed.

(** The frames behind the pages that [anon_mmap] has just mapped. *)
Lemma anon_frames D (v : vm_area) f :
  length D = Z.to_nat (v_pages v) → 0 ≤ v_pages v ≤ 2 ^ 19 → (∀ q : Z, q ∈ D → good_frame q) →
  area_frames (insert_pages (v_start v) (map (λ q, page_entry q (map_flags (v_prot v) (v_user v))) D) f) v = D.
Proof.
  intros Hl Hp Hg. apply list_eq_same_length with (n := length D); [|by rewrite area_frames_length|].
  - done.
  - intros i p q Hi Hp1 Hq. rewrite area_frames_lookup in Hp1 by lia. injection Hp1 as <-.
    rewrite (insert_pages_page _ _ _ i (page_entry q (map_flags (v_prot v) (v_user v)))).
    + simpl. destruct (Hg q (list_elem_of_lookup_2 _ _ _ Hq)) as (H1 & H2 & _).
      pose proof (map_flags_range (v_prot v) (v_user v)). apply page_base_lor; [done|lia].
    + rewrite length_map. lia.
    + change (@map Z Z) with (@fmap list list_fmap Z Z). by rewrite list_lookup_fmap, Hq.
Qed.

(** One more area of fresh frames. *)
Lemma built_anon s B x T f As L start pages prot user s' x' T' D vma li B' :
  objects_ok s B → built s B x T f 0 (vm_areas x) As → L = As.*1 → start mod PAGE_SIZE = 0 → 0 ≤ pages ≤ 2 ^ 19 → w8 prot = prot →
  (∀ u w, u ∈ As.*2 → in_area (anon_area start pages prot user) w → ¬ in_area u w) →
  anon_post s B a x T f L start pages prot user s' x' T' D vma li B' →
  built s' B' x' T' (insert_pages start (map (λ q, page_entry q (map_flags prot user)) D) f) 0 (vm_areas x')
    ((li, vma, anon_area start pages prot user) :: As).
Proof.
  intros Ho Hb -> Hst Hpg Hprot Hdis [Hx' Hl G Hz [Hseg' _] Hvm [Hf1 Hf2] [(k & j & HB') (Hb1 & Hb2 & Hlv)] Hh Hmm Hlis Hav].
  rewrite Hprot in Hvm. set (v := anon_area start pages prot user) in *.
  assert (area_blocks (li, vma, v) = [li; vma]) as Hbl by done.
  apply (built_cons s B x T f As s' B' x' T' D (map (λ q, page_entry q (map_flags prot user)) D) li vma v); try done.
  - split; try done; [rewrite Hbl..| |].
    + intros b [->|[->|?%not_elem_of_nil]%elem_of_cons]%elem_of_cons; [| |done]; rewrite HB'.
      * rewrite lookup_insert_eq. by split; [|eexists].
      * rewrite lookup_insert_ne, lookup_insert_eq by done. by split; [|eexists].
    + intros b [Hn1 [Hn2 _]%not_elem_of_cons]%not_elem_of_cons. rewrite HB'. by rewrite !lookup_insert_ne.
    + constructor; [|apply list.NoDup_singleton]. by intros ?%list_elem_of_singleton.
    + intros (t & Ht & He)%elem_of_addrs. destruct (bu_area _ _ _ _ _ _ _ _ Hb t Ht) as [Hv _]. congruence.
  - by rewrite length_map.
  - apply list.Forall_forall. intros e He. apply list_elem_of_In, in_map_iff in He as (q & <- & Hq%list_elem_of_In).
    destruct (Hz q Hq) as [_ (Hq0 & _)]. apply page_entry_nonzero; [lia|]. pose proof (map_flags_range prot user). lia.
  - apply (ob_heap _ _ (hs_ok _ _ _ _ _ Hh)).
  - unfold area_data. rewrite decide_True by done. simpl.
    change start with (v_start v) at 1. change (map_flags prot user) with (map_flags (v_prot v) (v_user v)).
    rewrite (anon_frames D v f); try done. intros q Hq. by apply Hz.
Qed.

(** Writing into frames of the space. *)
Lemma built_wrote s B x T f p curr As D s' :
  built s B x T f p curr As → wrote s D s' → (∀ q, q ∈ D → q ∈ data_frames f As) → built s' B x T f p curr As.
Proof.
  intros [Hat Hh Hseg (D0 & G0 & HD0) Hnd Hin Hout Hm Hno Hlis Har Hvm Hmap Hnz Hap Hrg] W HD.
  destruct (wr_objs _ _ _ W) as (Wh & Wm & Wv & Wl).
  split; try done; try (by rewrite ?Wh, ?Wl, ?Wv, ?Wm).
  - eapply wrote_mm_at; [exact W|done|]. intros q Hq. apply (gr_data _ _ _ _ _ G0). rewrite HD0. by apply HD.
  - exists D0. split; [|done]. eapply grow_wrote; [exact G0|]. eapply wrote_weaken; [|exact W].
    intros q Hq. rewrite HD0. by apply HD.
Qed.

(** ** Making an address space *)

(** The areas of [s] on the list [LK] are exactly [vs]. *)
Definition areas_at s (LK : list (Z * Z)) (vs : list vm_area) : Prop := Forall2 (λ lw v, vmas s !! lw.2 = Some v) LK vs.

(** What an area of the kernel is before one more space refers to it. *)
Definition kernel_area (g : gmap Z Z) (v : vm_area) : Prop := ¬ reg v ∧ 1 ≤ v_refcnt v < 2 ^ 31 - 1 ∧ resident g v.

(** The areas [As] and those of [vs] have no page in common. *)
Definition apart_from As (vs : list vm_area) : Prop :=
  ∀ u v w, u ∈ As.*2 → v ∈ vs → in_area v w → ¬ in_area u w.

Lemma built_init sym LK : ∀ vs n p curr s B x T f As y U g,
  objects_ok s B → built s B x T f 0 (vm_areas x) As → a ≠ kernel_mm sym → mm_at s (kernel_mm sym) y U g → separate U T →
  li_seg (lis s) p curr LK → apart_lists As.*1 LK → (length LK ≤ n)%nat →
  areas_at s LK vs → NoDup LK.*2 → (∀ w, w ∈ LK.*2 → w ∉ As.*1.*2) → Forall (kernel_area g) vs →
  apart_from As vs → areas_apart vs →
  (5 * total_pages vs ≤ frame_avail (frames s))%nat → 56 * Z.of_nat (length LK) < heap_room (kheap s) →
  wp (mm_init_loop sym n a curr) s (λ _ s', ∃ x' T' f' As' B',
    built s' B' x' T' f' 0 (vm_areas x') As' ∧
    mm_step a s B T As.*1 s' B' T' As'.*1 [] (56 * Z.of_nat (length LK)) (5 * total_pages vs) ∧
    (∀ u w, u ∈ As'.*2 → in_area u w → ∃ v, v ∈ As.*2 ++ vs ∧ in_area v w) ∧
    (∀ u, u ∈ As'.*2 → u ∈ As.*2 ∨ ¬ reg u) ∧ length As' = (length As + length LK)%nat).
Proof.
  induction LK as [|[l w] LK IH];
    intros vs n p curr s B x T f As y U g Ho Hb Hak Hy Hsep Hseg Hap Hn Hvs Hnd Hnew Hres Hdis Hself Hav Hroom.
  - simpl in Hseg. subst curr. apply list.Forall2_nil_inv_l in Hvs as ->.
    destruct n; simpl; apply wp_ret; exists x, T, f, As, B; (split; [done|split; [by eapply mm_step_refl; [|apply Hb]|split; [|split; [by left|lia]]]]);
      intros u w Hu Hw; exists u; by rewrite app_nil_r.
  - destruct Hseg as (-> & Hl0 & nx & Hl & Hseg). destruct n as [|n]; [simpl in Hn; lia|].
    apply list.Forall2_cons_inv_l in Hvs as (v & vs' & Hv & Hvs & ->). simpl in Hv.
    apply list.Forall_cons in Hres as [(Hreg & Hr & Hrs) Hres]. simpl in Hav, Hn, Hnd. cbn [length] in Hroom.
    apply list.NoDup_cons in Hnd as [Hwn Hnd]. destruct Hself as [Hself1 Hself].
    cbn [mm_init_loop]. destruct (Z.eqb_spec l 0); [done|]. apply wp_bind, (wp_get_li _ _ (VmAreaLi w nx p)); [done|].
    apply wp_bind. simpl li_vma. fold (total_pages vs') in Hav.
    eapply wp_mono; [apply (built_share s B x T f As (kernel_mm sym) y U g w v); try done|].
    { apply Hnew. simpl. left. }
    { intros u w' Hu Hw. by apply (Hdis u v w' Hu ltac:(left)). }
    { lia. }
    { lia. }
    intros [] s1 (x1 & T1 & f1 & li & B1 & Hb1 & S1). cbv zeta in Hb1, S1. set (As1 := _ :: As) in *.
    pose proof (hs_ok _ _ _ _ _ (st_heap _ _ _ _ _ _ _ _ _ _ _ _ S1)) as Ho1.
    destruct (mm_step_other _ _ _ _ _ _ _ _ _ _ _ _ _ _ _ _ S1 (not_eq_sym Hak) Hy Hsep) as [Hy1 Hsep1].
    pose proof (st_lis _ _ _ _ _ _ _ _ _ _ _ _ S1 l ltac:(by rewrite Hl) ltac:(apply Hap; simpl; left)) as Hl1.
    apply wp_bind, (wp_get_li _ _ (VmAreaLi w nx p)); [by rewrite Hl1|]. simpl li_next.
    assert (apart_lists As.*1 LK) as Hap' by (intros q Hq; apply Hap; simpl; by right).
    destruct (mm_step_list _ _ _ _ _ _ _ _ _ _ _ _ _ _ _ S1 Hseg Hap') as [Hseg1 Hap1].
    pose proof (st_avail _ _ _ _ _ _ _ _ _ _ _ _ S1) as Ha1. 
    pose proof (hs_room _ _ _ _ _ (st_heap _ _ _ _ _ _ _ _ _ _ _ _ S1)) as Hr1.
    assert (areas_at s1 LK vs') as Hvs1.
    { unfold areas_at in *. apply list.Forall2_impl with (P := λ lw v, lw ∈ LK ∧ vmas s !! lw.2 = Some v).
      - clear -Hvs. apply list.Forall2_same_length_lookup. apply list.Forall2_same_length_lookup in Hvs as [Hlen Hvs].
        split; [done|]. intros i lw u Hlw Hu. split; [by eapply list_elem_of_lookup_2|by eapply Hvs].
      - intros lw u [Hin Hu].
        assert (lw.2 ∈ LK.*2) as Hin2 by (apply list_elem_of_fmap; by exists lw).
        assert (lw.2 ≠ w) as Hne by (by intros <-).
        rewrite (bu_vmas _ _ _ _ _ _ _ _ Hb1), <- (bu_vmas _ _ _ _ _ _ _ _ Hb); [done|..].
        + apply Hnew. simpl. by right.
        + unfold As1. simpl. apply not_elem_of_cons. split; [done|]. apply Hnew. simpl. by right. }
    eapply wp_mono; [eapply (IH vs' n l nx s1 B1 x1 T1 f1 As1 y U g); try done|].
    + lia.
    + intros w' Hw'. unfold As1. simpl. apply not_elem_of_cons. split; [by intros ->|]. apply Hnew. simpl. by right.
    + intros u v' w' [->|Hu]%elem_of_cons Hv' Hw'.
      * intros Hin. exact (Hself1 v' w' Hv' Hin Hw').
      * by apply (Hdis u v' w' Hu ltac:(by right)).
    + lia.
    + lia.
    + intros [] s2 (x2 & T2 & f2 & As2 & B2 & Hb2 & S2 & Hfrom & Hnr & Hlen). exists x2, T2, f2, As2, B2. split; [done|]. split; [|split; [|split]].
      * replace (56 * Z.of_nat (length ((l, w) :: LK))) with (56 + 56 * Z.of_nat (length LK)) by (cbn [length]; lia).
        replace (5 * total_pages (v :: vs'))%nat with (5 * Z.to_nat (v_pages v) + 5 * total_pages vs')%nat
          by (unfold total_pages; simpl; lia).
        by apply (mm_step_trans _ _ _ _ _ _ _ _ _ _ _ _ _ _ _ _ _ _ _ S1 S2).
      * intros u w' Hu Hw'. destruct (Hfrom u w' Hu Hw') as (v' & [[->|Hv']%elem_of_cons|Hv']%elem_of_app & Hin).
        -- exists v. split; [apply elem_of_app; right; left|done].
        -- exists v'. split; [apply elem_of_app; by left|done].
        -- exists v'. split; [apply elem_of_app; right; by right|done].
      * intros u Hu. destruct (Hnr u Hu) as [Hu1|]; [|by right]. unfold As1 in Hu1. simpl in Hu1.
        apply elem_of_cons in Hu1 as [->|Hu1]; [by right|by left].
      * rewrite Hlen. unfold As1. simpl. lia.
Qed.
End built.

Section making.
Context {St : Type} {FO : FrameOps St} {FL : FrameLaws St}.
Context {H : Type} {HO : HeapOps H} {HL : HeapLaws H}.
Implicit Types (s : vm St H) (x y : mm) (T U : tables) (f g : gmap Z Z) (B : gmap Z Z) (As : list area_at).

(** The space that [kcalloc] has just zeroed. *)
Lemma built_fresh s B a k h : frame_inv (frames s) → mms s !! a = None → B !! a = None → heap_inv h (<[a := k]> B) →
  let s' := set_mms (<[a := Mm 0 0]> (mms s)) (set_kheap h s) in
  built s B a s' (<[a := k]> B) (Mm 0 0) ∅ ∅ 0 0 [].
Proof.
  intros Hi Ha Hp Hh s'. split; simpl; try done; try (by intros ? ?%not_elem_of_nil).
  - split; [simpl; by rewrite lookup_insert_eq|]. by apply empty_space.
  - exists []. split; [|done]. apply grow_refl; [done|]. intros p q. by rewrite lookup_empty.
  - split; [constructor|apply list.NoDup_singleton].
  - intros b ->%list_elem_of_singleton. rewrite lookup_insert_eq. by split; [|eexists].
  - intros b Hb%not_elem_of_cons. by rewrite lookup_insert_ne by naive_solver.
  - split; [done|]. intros b Hb. by rewrite lookup_insert_ne.
  - intros w. rewrite lookup_empty. split; [by intros [? ?]|by intros (t & ?%not_elem_of_nil & _)].
Qed.

(** The areas of the kernel, with what sharing them needs. *)
Record shareable sym s (y : mm) U g (LK : list (Z * Z)) (vs : list vm_area) : Prop := {
  sh_map : kernel_map sym s y U g LK vs;
  sh_at : areas_at s LK vs;
  sh_nodup : NoDup LK.*2;
  sh_areas : Forall (kernel_area g) vs;
  sh_apart : areas_apart vs;
}.

Lemma mm_new_built sym fuel s B y U g LK vs :
  objects_ok s B → shareable sym s y U g LK vs → (length LK ≤ fuel)%nat →
  (5 * total_pages vs ≤ frame_avail (frames s))%nat → 56 * Z.of_nat (length LK) + 48 < heap_room (kheap s) →
  wp (mm_new sym fuel) s (λ a s', ∃ x T f As B', built s B a s' B' x T f 0 (vm_areas x) As ∧
    mm_step a s B ∅ [] s' B' T As.*1 [] (56 * Z.of_nat (length LK) + 48) (5 * total_pages vs) ∧
    mms s !! a = None ∧
    (∀ u w, u ∈ As.*2 → in_area u w → ∃ v, v ∈ vs ∧ in_area v w) ∧
    (∀ u, u ∈ As.*2 → ¬ reg u) ∧ length As = length LK).
Proof.
  intros Ho [[Hy [HL1 HL2] Hvs0 Hres] Hvs Hnd Hka Hself] Hn Hav Hroom. unfold mm_new. apply wp_bind.
  eapply wp_mono; [apply (kcalloc_obj s B); [apply Ho|done|unfold sizeof_mm; lia]|].
  intros a s1 (B1 & k & Hk & Hp & -> & Hne & Hlt & Hi & Hroom1 & Hsb & ->).
  destruct (fresh_object s B a Ho Hp Hlt) as (Hna & _ & _). set (h := kheap s1) in *.
  unfold put_mm. wp_steps.
  pose proof (built_fresh s B a k h (sp_inv _ _ _ _ (ma_space _ _ _ _ _ Hy)) Hna Hp Hi) as Hb2. cbv zeta in Hb2.
  change (mms (set_kheap h s)) with (mms s). set (s2 := set_mms _ _) in *.
  assert (kernel_mm sym ≠ a) as Hka' by (intros He; destruct Hy as [Hm _]; rewrite He in Hm; congruence).
  assert (objects_ok s2 (<[a := k]> B)) as Ho2.
  { destruct Ho as [Oh Om Ov Ol]. pose proof (object_new B a k) as Hnew.
    assert (∀ b, object B b → object (<[a := k]> B) b) as Hw by (intros b; apply object_weaken).
    split; simpl; [done| |by eauto..]. intros b. rewrite lookup_insert. case_decide; [by subst|by eauto]. }
  assert (mm_at s2 (kernel_mm sym) y U g) as Hy2.
  { destruct Hy as [Hm Hs]. split; [|done]. simpl. by rewrite lookup_insert_ne. }
  assert (mm_step a s B ∅ [] s2 (<[a := k]> B) ∅ [] [] 48 0) as S0.
  { split; simpl; try done; [| | |by intros w v Hv; exists (v_refcnt v); rewrite Hv; destruct v|by left|].
    - apply grow_refl; [apply Hy|by intros].
    - split; [done|by apply insert_subseteq|done|exact Hroom1].
    - intros b Hb. by rewrite lookup_insert_ne.
    - intros p. rewrite lookup_insert. case_decide; [by right; left|by left]. }
  unfold mm_init. apply wp_bind, wp_bind, (wp_get_mm _ _ y); [apply Hy2|].
  eapply wp_mono; [apply (built_init s B a sym LK vs fuel 0 (vm_areas y) s2 _ (Mm 0 0) ∅ ∅ [] y U g Ho2 Hb2); try done|].
  - by intros l _ ?%not_elem_of_nil.
  - by intros w _ ?%not_elem_of_nil.
  - by intros u v w ?%not_elem_of_nil.
  - simpl. unfold sizeof_mm in Hroom1. lia.
  - intros [] s3 (x3 & T3 & f3 & As3 & B3 & Hb3 & S3 & Hfrom & Hnr & Hlen). apply wp_ret. exists x3, T3, f3, As3, B3.
    split; [done|]. split; [|split; [done|split; [exact Hfrom|split; [|exact Hlen]]]].
    2:{ intros u Hu. destruct (Hnr u Hu) as [Hu1|]; [by apply not_elem_of_nil in Hu1|done]. }
    rewrite Z.add_comm.
    apply (mm_step_trans _ _ _ _ _ _ _ _ _ _ _ _ _ _ _ _ _ _ _ S0 S3).
Qed.

(** An area of the parent: fresh frames, with the parent's contents. *)
Lemma built_dupe_area s0 B0 a s B x T f As b y U g v :
  objects_ok s B → built s0 B0 a s B x T f 0 (vm_areas x) As → b ≠ a → mm_at s b y U g → separate U T →
  reg v → mapped s T g v → (∀ u w, u ∈ As.*2 → in_area v w → ¬ in_area u w) →
  (5 * Z.to_nat (v_pages v) ≤ frame_avail (frames s))%nat → 120 < heap_room (kheap s) →
  wp (anon_mmap a (v_start v) (v_pages v) (v_prot v) (v_user v) ;;* mm_copy_from_mm a b (v_start v) (v_pages v)) s
    (λ _ s', ∃ x' T' f' li vma B' D,
      let As' := (li, vma, anon_area (v_start v) (v_pages v) (v_prot v) (v_user v)) :: As in
      built s0 B0 a s' B' x' T' f' 0 (vm_areas x') As' ∧
      mm_step a s B T As.*1 s' B' T' As'.*1 D 120 (5 * Z.to_nat (v_pages v))).
Proof.
  intros Ho Hb Hba Hy Hsep Hreg Hmap Hdis Hav Hroom. pose proof Hmap as ([Hst Hprot] & Hpg & _).
  pose proof Hb as [Hx _ Hseg _ [_ Hnd] _ _ _ _ _ _ _ _ _ _ _]. apply list.NoDup_cons in Hnd as [_ Hnd].
  destruct (mapped_frames _ _ _ _ Hmap) as [Hbk Hps]. apply wp_bind.
  eapply wp_mono; [apply (anon_mmap_ok s B a x T f As.*1); try done; by split; [|apply nodes_nodup]|].
  intros [] s1 (x1 & T1 & D & vma & li & B1 & Han).
  pose proof (anon_mm_step _ _ _ _ _ _ _ _ _ _ _ _ _ _ _ _ _ _ Han) as S1.
  pose proof (built_anon s0 B0 a s B x T f As _ _ _ _ _ _ _ _ _ _ _ _ Ho Hb eq_refl Hst Hpg Hprot Hdis Han) as Hb1.
  pose proof Han as [H1 Hl1 G1 Hz1 _ _ _ _ _ _ _ _].
  destruct (mm_step_other _ _ _ _ _ _ _ _ _ _ _ _ _ _ _ _ S1 Hba Hy Hsep) as [Hy1 Hsep1].
  assert (∀ q, q ∈ D → frame_used (frames s1) q ∧ no_table T1 q ∧ no_table U q) as HD.
  { intros q Hq. destruct (grow_data_owned _ _ _ _ _ G1 q Hq) as [Hu Hn]. split; [done|]. split; [done|].
    intros p Hp. apply (gr_data _ _ _ _ _ G1 q Hq). by eapply pt_used; [apply Hy|]. }
  eapply wp_mono; [apply (copy_from_mm_ok s1 a x1 T1 _ b y U g _ _ (area_frames g v) D H1 Hy1); try done|].
  - apply area_frames_length.
  - eapply anon_backed; [lia|exact Hz1].
  - apply (gr_nodup _ _ _ _ _ G1).
  - intros p Hp. destruct (Hps p Hp) as [Hu Hn]. split; [by eapply grow_keeps|].
    intros Hin. by apply (gr_data _ _ _ _ _ G1 p Hin).
  - intros [] s2 [W2 _]. exists x1, T1. eexists. exists li, vma, B1, D. split; [|by eapply mm_step_wrote].
    eapply built_wrote; [exact Hb1|exact W2|]. intros q Hq. rewrite data_frames_cons. apply elem_of_app. left.
    unfold area_data. rewrite decide_True by done. cbn [snd].
    assert (∀ q : Z, q ∈ D → good_frame q) as Hg by (intros r Hr; by apply Hz1).
    rewrite <- (anon_frames D (anon_area (v_start v) (v_pages v) (v_prot v) (v_user v)) f Hl1 Hpg Hg) in Hq. exact Hq.
Qed.

Lemma built_dupe_loop s0 B0 a Lp : ∀ vs n b p curr s B x T f As y U g,
  objects_ok s B → built s0 B0 a s B x T f 0 (vm_areas x) As → b ≠ a → mm_at s b y U g → separate U T →
  li_seg (lis s) p curr Lp → apart_lists As.*1 Lp → (length Lp ≤ n)%nat → areas_of s Lp vs →
  (∀ v, v ∈ vs → reg v → mapped s T g v) → reg_disjoint vs →
  (∀ u v w, u ∈ As.*2 → v ∈ vs → reg v → in_area v w → ¬ in_area u w) →
  (5 * reg_pages vs ≤ frame_avail (frames s))%nat → 120 * Z.of_nat (length Lp) < heap_room (kheap s) →
  wp (mm_dupe_loop n a b curr) s (λ _ s', ∃ x' T' f' As' B' D,
    built s0 B0 a s' B' x' T' f' 0 (vm_areas x') As' ∧
    mm_step a s B T As.*1 s' B' T' As'.*1 D (120 * Z.of_nat (length Lp)) (5 * reg_pages vs) ∧
    (length As' ≤ length As + length Lp)%nat).
Proof.
  induction Lp as [|[l w] Lp IH];
    intros vs n b p curr s B x T f As y U g Ho Hb Hba Hy Hsep Hseg Hap Hn Hvs Hmap Hdis Hapart Hav Hroom.
  - simpl in Hseg. subst curr. apply list.Forall2_nil_inv_l in Hvs as ->.
    destruct n; simpl; apply wp_ret; exists x, T, f, As, B, [];
      (split; [done|split; [by eapply mm_step_refl; [|apply Hb]|lia]]).
  - destruct Hseg as (-> & Hl0 & nx & Hl & Hseg). destruct n as [|n]; [simpl in Hn; lia|].
    apply list.Forall2_cons_inv_l in Hvs as (v & vs' & [r Hr] & Hvs & ->). simpl in Hr, Hn. cbn [length] in Hroom.
    destruct Hdis as [Hdv Hdis]. cbn [mm_dupe_loop]. destruct (Z.eqb_spec l 0); [done|].
    apply wp_bind, (wp_get_li _ _ (VmAreaLi w nx p)); [done|]. apply wp_bind, (wp_get_vma _ _ (set_v_refcnt r v)); [done|].
    assert (apart_lists As.*1 Lp) as Hap' by (intros q Hq; apply Hap; simpl; by right).
    set (pv := (if decide (reg v) then Z.to_nat (v_pages v) else 0)%nat).
    assert (reg_pages (v :: vs') = pv + reg_pages vs')%nat as Epg by done. rewrite Epg in *.
    apply wp_bind. apply (wp_mono _ _ (λ _ s1, ∃ x1 T1 f1 As1 B1 D1, built s0 B0 a s1 B1 x1 T1 f1 0 (vm_areas x1) As1 ∧
      mm_step a s B T As.*1 s1 B1 T1 As1.*1 D1 120 (5 * pv) ∧ (length As1 ≤ 1 + length As)%nat ∧
      (∀ u v' w, u ∈ As1.*2 → v' ∈ vs' → reg v' → in_area v' w → ¬ in_area u w))).
    + change (v_type (set_v_refcnt r v)) with (v_type v). unfold pv. destruct (decide (reg v)) as [Hreg|Hreg].
      * rewrite Hreg. simpl li_vma.
        eapply wp_mono; [apply (built_dupe_area s0 B0 a s B x T f As b y U g v); try done; [apply Hmap; [left|done]| |lia|lia]|].
        { intros u w' Hu Hw. apply (Hapart u v w' Hu ltac:(left) Hreg Hw). }
        intros [] s1 (x1 & T1 & f1 & li & vma & B1 & D & Hb1 & S1). eexists x1, T1, f1, _, B1, D. split; [exact Hb1|].
        split; [done|]. split; [simpl; lia|]. intros u v' w' [->|Hu]%elem_of_cons Hv' Hrv Hw'.
        -- intros Hin. exact (Hdv Hreg v' w' Hv' Hrv Hin Hw').
        -- by apply (Hapart u v' w' Hu ltac:(by right)).
      * destruct (v_type v) eqn:E; [done|..]; apply wp_ret; exists x, T, f, As, B, []; (split; [done|split; [|split; [lia|]]]);
          try (intros u v' w' Hu Hv'; by apply (Hapart u v' w' Hu ltac:(by right)));
          (destruct (mm_step_refl a s B x T f As.*1 Ho (bu_at _ _ _ _ _ _ _ _ _ _ _ Hb)) as [G [Ob Su By Ro] M V I N A Sb K];
           split; try done; [by split; [done|done|done|lia]]).
    + intros [] s1 (x1 & T1 & f1 & As1 & B1 & D1 & Hb1 & S1 & Hlen1 & Hapart1).
      destruct (mm_step_other _ _ _ _ _ _ _ _ _ _ _ _ _ _ _ _ S1 Hba Hy Hsep) as [Hy1 Hsep1].
      pose proof (st_lis _ _ _ _ _ _ _ _ _ _ _ _ S1 l ltac:(by rewrite Hl) ltac:(apply Hap; simpl; left)) as Hl1.
      apply wp_bind, (wp_get_li _ _ (VmAreaLi w nx p)); [by rewrite Hl1|]. simpl li_next.
      destruct (mm_step_list _ _ _ _ _ _ _ _ _ _ _ _ _ _ _ S1 Hseg Hap') as [Hseg1 Hap1].
      pose proof (st_avail _ _ _ _ _ _ _ _ _ _ _ _ S1) as Ha1.
      pose proof (hs_room _ _ _ _ _ (st_heap _ _ _ _ _ _ _ _ _ _ _ _ S1)) as Hr1.
      assert (∀ v', v' ∈ vs' → reg v' → mapped s T g v') as Hmap' by (intros v' Hv'; apply Hmap; by right).
      eapply wp_mono; [eapply (IH vs' n b l nx s1 B1 x1 T1 f1 As1 y U g); try done|].
      * apply (hs_ok _ _ _ _ _ (st_heap _ _ _ _ _ _ _ _ _ _ _ _ S1)).
      * lia.
      * eapply mm_step_areas; [exact S1|exact Hvs].
      * intros v' Hv' Hreg. eapply mm_step_mapped; [exact S1|by apply Hmap'].
      * lia.
      * lia.
      * intros [] s2 (x2 & T2 & f2 & As2 & B2 & D2 & Hb2 & S2 & Hlen2).
        exists x2, T2, f2, As2, B2, (D1 ++ D2). split; [done|]. split; [|simpl; lia].
        replace (120 * Z.of_nat (length ((l, w) :: Lp))) with (120 + 120 * Z.of_nat (length Lp)) by (cbn [length]; lia).
        rewrite Nat.mul_add_distr_l. apply (mm_step_trans _ _ _ _ _ _ _ _ _ _ _ _ _ _ _ _ _ _ _ S1 S2).
Qed.
End making.

(** ** One area less *)
Section freeing.
Context {St : Type} {FO : FrameOps St} {FL : FrameLaws St}.
Context {H : Type} {HO : HeapOps H} {HL : HeapLaws H}.
Implicit Types (s : vm St H) (x y : mm) (T U : tables) (f g : gmap Z Z) (B : gmap Z Z) (As : list area_at).

Lemma dropped_refl a s T : frame_inv (frames s) → dropped a s T [] s T.
Proof.
  intros Hi. split; [done|done| |done|simpl; lia|done|done]. intros q. split; [|by intros [? _]].
  intros Hq. split; [done|]. split; [by apply not_elem_of_nil|done].
Qed.

(** [vmm_unmap_page] of a page whose frame stays in use. *)
Lemma unmap_obj s0 T0 D s a x T f v e :
  dropped a s0 T0 D s T → mm_at s a x T f → f !! vpn v = Some e → e ≠ 0 →
  wp (unmap_page a v) s (λ _ s', ∃ x' T',
    mm_at s' a x' T' (delete (vpn v) f) ∧ dropped a s0 T0 D s' T' ∧ vm_areas x' = vm_areas x).
Proof.
  intros [I S U O C Ob M] [Hm Hs] He Hne. unfold unmap_page. apply wp_bind, (wp_get_mm _ _ x); [done|].
  apply wp_bind, wp_zoom. eapply wp_mono; [by eapply space_unmap|].
  intros x1 fr1 (T1 & Hs1 & [I1 Su1 U1 O1 C1] & Hvm). apply wp_modify. exists x1, T1.
  split; [|split; [|done]]; [split; [simpl; by rewrite lookup_insert_eq|done]|].
  split; simpl; [done|by etrans| | |lia|done|].
  - intros q. rewrite U1, U. split.
    + intros [(Hq & HqD & Hk) Hk1]. split; [done|]. split; [done|]. intros p Hp. by apply Hk1, Hk.
    + intros (Hq & HqD & Hk). split; [split; [done|split; [done|]]|].
      * intros p Hp. specialize (Hk p Hp). exact (lookup_weaken _ _ _ _ Hk Su1).
      * intros p Hp. apply Hk. eapply lookup_weaken; [done|exact S].
  - intros q Hq HqT. apply U1 in Hq as [Hq _]. eapply same_page_trans; [by apply O|]. apply O1; [done|].
    intros p Hp. apply (HqT p). eapply lookup_weaken; [done|exact S].
  - intros b Hb. rewrite lookup_insert_ne by done. by apply M.
Qed.

(** The loop of [mm_unshare_vma]. *)
Lemma unshare_pages_ok s a x T f start n :
  mm_at s a x T f → Z.of_nat n ≤ 2 ^ 19 →
  (∀ i, (i < n)%nat → ∃ e, f !! vpn (start + Z.of_nat i * PAGE_SIZE) = Some e ∧ e ≠ 0) →
  wp (for_ n 0 (λ pg, let* off := int_off pg in unmap_page a (w64 (start + off)))) s
    (λ _ s', ∃ x' T', mm_at s' a x' T' (delete_pages start n f) ∧ dropped a s T [] s' T' ∧ vm_areas x' = vm_areas x).
Proof.
  intros Hx Hn Hp.
  set (I := λ (j : Z) s', ∃ x' T', mm_at s' a x' T' (delete_pages start (Z.to_nat j) f) ∧
    dropped a s T [] s' T' ∧ vm_areas x' = vm_areas x).
  eapply wp_mono; [apply (wp_for I)|].
  - exists x, T. split; [done|]. split; [|done]. apply dropped_refl, Hx.
  - intros j s1 Hj (x1 & T1 & H1 & D1 & Hv1).
    assert (∃ i : nat, j = Z.of_nat i) as [i ->] by (exists (Z.to_nat j); lia). rewrite Nat2Z.id in H1.
    destruct (Hp i ltac:(lia)) as (e & He & Hne). apply wp_bind, int_off_ok; [lia|].
    eapply wp_mono; [apply (unmap_obj s T [] s1 a x1 T1 _ _ e D1 H1); [|done]|].
    + by rewrite vpn_w64, delete_pages_later by lia.
    + intros [] s2 (x2 & T2 & H2 & D2 & Hv2). exists x2, T2. replace (Z.to_nat (Z.of_nat i + 1)) with (S i) by lia.
      rewrite vpn_w64 in H2. split; [done|]. split; [done|congruence].
  - intros [] s' Hs'. unfold I in Hs'. by rewrite Z.add_0_l, Nat2Z.id in Hs'.
Qed.

Section since.
Variables (s0 : vm St H) (B0 : gmap Z Z) (a : Z).
Abbreviation built := (built s0 B0 a).

(** The pages of an area of the space. *)
Lemma built_page s B x T f p curr As t i : built s B x T f p curr As → t ∈ As → 0 ≤ i < v_pages t.2 →
  ∃ e, f !! vpn (v_start t.2 + i * PAGE_SIZE) = Some e ∧ e ≠ 0.
Proof.
  intros Hb Ht Hi. destruct (proj2 (bu_map _ _ _ _ _ _ _ _ _ _ _ Hb (vpn (v_start t.2 + i * PAGE_SIZE)))) as [e He].
  - exists t. split; [done|]. by exists i.
  - exists e. split; [done|]. by eapply bu_nonzero.
Qed.

(** A space that has been made is well formed. *)
Lemma areas_apart_reg vs : areas_apart vs → reg_disjoint vs.
Proof. induction vs as [|v vs IH]; [done|]. intros [Hv Hr]. split; [|by apply IH]. intros _ u w Hu _. by apply Hv. Qed.

Lemma built_wf s B x T f As : built s B x T f 0 (vm_areas x) As → mm_wf s a x T f As.*1 As.*2.
Proof.
  intros Hb. pose proof (bu_nodup _ _ _ _ _ _ _ _ _ _ _ Hb) as [_ Hnd]. apply list.NoDup_cons in Hnd as [_ Hnd].
  destruct (bu_grow _ _ _ _ _ _ _ _ _ _ _ Hb) as (D & G & HD). split.
  - apply Hb.
  - split; [apply Hb|by apply nodes_nodup].
  - unfold areas_of. apply list.Forall2_same_length_lookup. split; [by rewrite !length_fmap|]. intros i lw v.
    rewrite !list_lookup_fmap. destruct (As !! i) as [t|] eqn:Ht; [|done]. simpl. intros [= <-] [= <-].
    apply list_elem_of_lookup_2 in Ht. destruct (bu_area _ _ _ _ _ _ _ _ _ _ _ Hb t Ht) as [Hv _].
    exists (v_refcnt t.2). rewrite Hv. by destruct t.2.
  - intros v (t & Ht & <-)%elem_of_areas Hr. split; [by eapply bu_reg|].
    destruct (bu_area _ _ _ _ _ _ _ _ _ _ _ Hb t Ht) as (_ & Hpg & _). split; [done|]. intros i Hi.
    destruct (built_page _ _ _ _ _ _ _ _ t i Hb Ht Hi) as (e & He & Hne). exists e. split; [done|]. split; [done|].
    assert (page_base e ∈ data_frames f As) as Hin.
    { apply list_elem_of_bind. exists t. split; [|done]. unfold area_data. rewrite decide_True by done.
      apply (list_elem_of_lookup_2 _ (Z.to_nat i)). rewrite area_frames_lookup by lia. by rewrite Z2Nat.id, He by lia. }
    rewrite <- HD in Hin. split; [by eapply grow_data_owned|]. intros p. by rewrite lookup_empty.
  - by apply areas_apart_reg, (bu_apart _ _ _ _ _ _ _ _ _ _ _ Hb).
Qed.

(** The frames behind a regular area of the space. *)
Lemma built_backed s B x T f p curr As t : built s B x T f p curr As → t ∈ As → backed f (v_start t.2) (area_frames f t.2).
Proof.
  intros Hb Ht i q Hq. pose proof (lookup_lt_Some _ _ _ Hq) as Hlt. rewrite area_frames_length in Hlt.
  destruct (bu_area _ _ _ _ _ _ _ _ _ _ _ Hb t Ht) as (_ & Hpg & _).
  destruct (built_page _ _ _ _ _ _ _ _ t (Z.of_nat i) Hb Ht ltac:(lia)) as (e & He & Hne).
  rewrite area_frames_lookup, He in Hq by lia. injection Hq as <-. by exists e.
Qed.

(** The data frames are in use and are no tables. *)
Lemma built_data s B x T f p curr As q : built s B x T f p curr As → q ∈ data_frames f As →
  frame_used (frames s) q ∧ no_table T q ∧ ¬ frame_used (frames s0) q.
Proof.
  intros Hb Hq. destruct (bu_grow _ _ _ _ _ _ _ _ _ _ _ Hb) as (D & G & HD). rewrite <- HD in Hq.
  destruct (grow_data_owned _ _ _ _ _ G q Hq). split; [done|]. split; [done|]. apply (gr_data _ _ _ _ _ G q Hq).
Qed.
Lemma built_data_nodup s B x T f p curr As : built s B x T f p curr As → NoDup (data_frames f As).
Proof. intros Hb. destruct (bu_grow _ _ _ _ _ _ _ _ _ _ _ Hb) as (D & G & HD). rewrite <- HD. apply (gr_nodup _ _ _ _ _ G). Qed.

(** What is left after the code for one area. *)
Record area_freed s B x T f w v s1 B1 x1 T1 : Prop := {
  af_at : mm_at s1 a x1 T1 (delete_pages (v_start v) (Z.to_nat (v_pages v)) f);
  af_frames : ∃ s2, dropped a s T (area_data f (0, w, v)) s2 T1 ∧ frames s1 = frames s2;
  af_heap : heap_inv (kheap s1) B1;
  af_blocks : B1 = if decide (reg v) then delete w B else B;
  af_lis : lis s1 = lis s;
  af_mms b : b ≠ a → mms s1 !! b = mms s !! b;
  af_vmas : vmas s1 = if decide (reg v) then delete w (vmas s) else <[w := set_v_refcnt (v_refcnt v - 1) v]> (vmas s);
}.

Lemma free_area_ok s B x T f p l lw v As (Q : unit → vm St H → Prop) :
  built s B x T f p l ((lw, v) :: As) →
  (∀ s1 B1 x1 T1, area_freed s B x T f lw.2 v s1 B1 x1 T1 → Q tt s1) →
  wp (match v_type v with
      | VM_AREA_REG => mm_free_reg_vma a lw.2
      | VM_AREA_PHYSMEM | VM_AREA_KERNELTEXT | VM_AREA_KERNELHEAP => mm_unshare_vma a lw.2
      end) s Q.
Proof.
  intros Hb HQ. set (t := (lw, v)).
  assert (t ∈ t :: As) as Ht by left. destruct (bu_area _ _ _ _ _ _ _ _ _ _ _ Hb t Ht) as (Hv & Hpg & Href). simpl in Hv, Hpg, Href.
  pose proof (bu_at _ _ _ _ _ _ _ _ _ _ _ Hb) as Hx. pose proof (bu_heap _ _ _ _ _ _ _ _ _ _ _ Hb) as Hh.
  apply (wp_mono _ _ (λ _ s1, ∃ B1 x1 T1, area_freed s B x T f lw.2 v s1 B1 x1 T1)); [|intros [] s1 (B1 & x1 & T1 & Ha); by eapply HQ].
  destruct (decide (reg v)) as [Hreg|Hreg].
  - destruct Href as [Href _]. rewrite Hreg. unfold mm_free_reg_vma. apply wp_bind, (wp_get_vma _ _ v); [done|].
    rewrite decide_False by (intros Hn; by apply Hn). apply wp_bind.
    assert (∀ q, q ∈ area_frames f v → q ∈ data_frames f (t :: As)) as Hsub.
    { intros q Hq. rewrite data_frames_cons. apply elem_of_app. left. unfold area_data, t. by rewrite decide_True. }
    pose proof (built_data_nodup _ _ _ _ _ _ _ _ Hb) as Hnd. rewrite data_frames_cons in Hnd.
    apply list.NoDup_app in Hnd as (Hnd & _). unfold area_data in Hnd. rewrite decide_True in Hnd by done.
    rewrite <- (area_frames_length f v).
    eapply wp_mono; [apply (free_pages_ok s a x T f (v_start v) (area_frames f v) Hx)|].
    + rewrite area_frames_length. lia.
    + apply (built_backed _ _ _ _ _ _ _ _ t Hb Ht).
    + done.
    + intros q Hq. destruct (built_data _ _ _ _ _ _ _ _ q Hb (Hsub q Hq)) as (? & ? & _). done.
    + intros [] s1 (x1 & T1 & H1 & Hd & Hv1). destruct (dr_objs _ _ _ _ _ _ Hd) as (Hkh & Hvm & Hl).
      destruct (bu_in _ _ _ _ _ _ _ _ _ _ _ Hb lw.2) as [_ [k Hk]].
      { rewrite blocks_of_cons. unfold area_blocks. rewrite decide_True by done. right. apply elem_of_app. left. right. left. }
      eapply wp_mono; [apply (unref_vma_ok s1 B lw.2 v k); [by rewrite Hkh|by rewrite Hvm|done]|].
      intros [] s2 (Hf & Hm & Hl2 & Hcase). rewrite Href in Hcase. simpl in Hcase. destruct Hcase as [Hv2 Hh2].
      exists (delete lw.2 B), x1, T1. split; rewrite ?decide_True by done.
      * destruct H1 as [Hm1 Hs1]. rewrite area_frames_length in Hs1. split; [by rewrite Hm|by rewrite Hf].
      * exists s1. split; [|done]. unfold area_data. by rewrite decide_True.
      * done.
      * done.
      * by rewrite Hl2.
      * intros b Hb'. rewrite Hm. by apply (dr_mms _ _ _ _ _ _ Hd).
      * by rewrite Hv2, Hvm.
  - destruct Href as (r & Hr & Hrv & _). unfold reg in Hreg.
    replace (match v_type v with VM_AREA_REG => mm_free_reg_vma a lw.2 | _ => mm_unshare_vma a lw.2 end)
      with (mm_unshare_vma a lw.2 : M (vm St H) unit) by by destruct (v_type v).
    unfold mm_unshare_vma. apply wp_bind, (wp_get_vma _ _ v); [done|]. apply wp_bind.
    eapply wp_mono; [apply (unshare_pages_ok s a x T f (v_start v) (Z.to_nat (v_pages v)) Hx); [lia|]|].
    { intros i Hi. apply (built_page _ _ _ _ _ _ _ _ t (Z.of_nat i) Hb Ht). simpl. lia. }
    intros [] s1 (x1 & T1 & H1 & Hd & Hv1). destruct (dr_objs _ _ _ _ _ _ Hd) as (Hkh & Hvm & Hl).
    assert (s32 (v_refcnt v - 1) = v_refcnt v - 1) as Hs by (apply s32_small; lia).
    eapply wp_mono; [apply (unref_vma_ok s1 B lw.2 v 0); [by rewrite Hkh|by rewrite Hvm|lia]|].
    intros [] s2 (Hf & Hm & Hl2 & Hcase). rewrite Hs in Hcase. destruct (Z.eqb_spec (v_refcnt v - 1) 0); [lia|].
    destruct Hcase as [Hv2 Hh2]. exists B, x1, T1. split; rewrite ?decide_False by done.
    + destruct H1 as [Hm1 Hs1]. split; [by rewrite Hm|by rewrite Hf].
    + exists s1. split; [|done]. unfold area_data. by rewrite decide_False.
    + by rewrite Hh2, Hkh.
    + done.
    + by rewrite Hl2.
    + intros b Hb'. rewrite Hm. by apply (dr_mms _ _ _ _ _ _ Hd).
    + by rewrite Hv2, Hvm.
Qed.

Lemma delete_area_in v f w : in_area v w → delete_pages (v_start v) (Z.to_nat (v_pages v)) f !! w = None.
Proof. intros (i & Hi & ->). replace i with (Z.of_nat (Z.to_nat i)) by lia. apply delete_pages_in. lia. Qed.
Lemma delete_area_out v f w : ¬ in_area v w → delete_pages (v_start v) (Z.to_nat (v_pages v)) f !! w = f !! w.
Proof. intros Hw. apply delete_pages_out. intros i Hi He. apply Hw. exists (Z.of_nat i). split; [lia|done]. Qed.

(** Frames that go back to where they came from. *)
Lemma grow_undo s1 s2 T T2 Dv D D' : (∀ p q (r : Z), T !! p = Some r → T !! q = Some r → p = q) → grow (frames s0) ∅ (frames s1) T D → D ≡ₚ Dv ++ D' → dropped a s1 T Dv s2 T2 →
  grow (frames s0) ∅ (frames s2) T2 D'.
Proof.
  intros Hinj [I Su F U O Dt N A] HD [I2 S2 U2 O2 C2 _ _].
  assert (∀ p q, T2 !! p = Some q → T !! p = Some q) as Hw by (intros p q Hp; exact (lookup_weaken _ _ _ _ Hp S2)).
  assert (∀ p q, T !! p = Some q → ¬ frame_used (frames s0) q) as HT.
  { intros p q Hp. destruct (F p q Hp) as [He|]; [by rewrite lookup_empty in He|done]. }
  rewrite HD in N. apply list.NoDup_app in N as (N1 & N2 & N3).
  assert (∀ q, q ∈ D ↔ q ∈ Dv ∨ q ∈ D') as HDin by (intros q; by rewrite HD, elem_of_app).
  split; [done|apply map_empty_subseteq|..].
  - intros p q Hp. by apply F, Hw.
  - intros q. rewrite U2, U, HDin. split.
    + intros ([?|[[p Hp]|[?|?]]] & Hn & Hk); [by left| |done|by right; right]. right. left. exists p. by apply Hk.
    + intros [Hq|[[p Hp]|Hq]].
      * split; [by left|]. split; [|intros p Hp; by destruct (HT p q Hp)].
        intros Hd. destruct (Dt q ltac:(apply HDin; by left)) as [Hn _]. done.
      * split; [right; left; exists p; by apply Hw|]. split.
        -- intros Hd. destruct (Dt q ltac:(apply HDin; by left)) as [_ Hn]. by apply (Hn p), Hw.
        -- intros p' Hp'. by rewrite (Hinj p' p q Hp' (Hw p q Hp)).
      * destruct (Dt q ltac:(apply HDin; by right)) as [Hn1 Hn2]. split; [by right; right; right|]. split.
        -- intros Hd. by apply (N2 q).
        -- intros p Hp. by destruct (Hn2 p).
  - intros q Hq Hn. eapply same_page_trans; [by apply O|]. apply O2.
    + apply U2. split; [apply U; by left|]. split; [|intros p Hp; by destruct (HT p q Hp)].
      intros Hd. destruct (Dt q ltac:(apply HDin; by left)) as [Hn' _]. done.
    + intros p Hp. by apply (HT p q).
  - intros q Hq. destruct (Dt q ltac:(apply HDin; by right)) as [Hn1 Hn2]. split; [done|]. intros p Hp. by apply (Hn2 p), Hw.
  - done.
  - apply Permutation_length in HD. rewrite length_app in HD. lia.
Qed.

(** The node goes back too: one area less. *)
Lemma built_uncons s B x T f p l lw v As nx s1 B1 x1 T1 h :
  built s B x T f p l ((lw, v) :: As) → lis s !! lw.1 = Some (VmAreaLi lw.2 nx p) → li_seg (lis s) lw.1 nx As.*1 →
  area_freed s B x T f lw.2 v s1 B1 x1 T1 → heap_inv h (delete lw.1 B1) →
  built (set_lis (delete lw.1 (lis s1)) (set_kheap h s1)) (delete lw.1 B1) x1 T1
    (delete_pages (v_start v) (Z.to_nat (v_pages v)) f) lw.1 nx As.
Proof.
  intros Hb Hl Hseg [Fat (s2 & Hdr & Hfr) _ FB Fl Fm Fv] Hh. set (t := (lw, v)).
  pose proof Hb as [[Hm0 Hs0] _ _ (D & G & HD) [Hnd1 Hnd2] Hin Hout [Hm1 Hm2] Hno Hlis Har Hvm Hmap Hnz [Hap1 Hap2] Hrg].
  rewrite blocks_of_cons in Hnd2. apply list.NoDup_cons in Hnd2 as [Ha Hnd2].
  apply list.NoDup_app in Hnd2 as (Hndt & Hdisj & Hnd2). simpl in Hnd1. apply list.NoDup_cons in Hnd1 as [Hw Hnd1].
  assert (lw.1 ∉ As.*1.*1) as Hln by (intros Hn%node_block; apply (Hdisj lw.1); [left|done]).
  assert (∀ t' w, t' ∈ As → in_area t'.2 w → ¬ in_area v w) as Hdis.
  { intros t' w Ht' Hw' Hv. apply (Hap1 t'.2 w); [apply elem_of_areas; by exists t'|done|done]. }
  assert (∀ b, delete lw.1 B1 !! b = if decide (b ∈ area_blocks t) then None else B !! b) as HB.
  { intros b. rewrite FB. unfold area_blocks, t. simpl. destruct (decide (reg v)); rewrite !lookup_delete;
      repeat case_decide; try done; simplify_eq; set_solver. }
  split; simpl; [by split; [apply Fat|apply Fat]|done|..].
  - rewrite Fl. eapply li_seg_ext; [|exact Hseg]. intros l' Hl'. apply lookup_delete_ne. by intros <-.
  - exists (data_frames f As). split.
    + rewrite Hfr. apply (grow_undo s s2 T T1 (area_data f t) D); try done. apply (pt_inj _ _ _ (sp_tree _ _ _ _ Hs0)).
    + symmetry. apply Permutation_refl'. apply data_frames_ext. intros t' w Ht' Hw'. apply delete_area_out. by eapply Hdis.
  - split; [done|]. apply list.NoDup_cons. split; [|done]. intros Hn. apply Ha, elem_of_app. by right.
  - intros b Hb'. rewrite HB. rewrite decide_False.
    + apply Hin. rewrite blocks_of_cons. apply elem_of_cons in Hb' as [->|Hb']; [left|right; apply elem_of_app; by right].
    + intros Hbt. apply elem_of_cons in Hb' as [->|Hb']; [apply Ha, elem_of_app; by left|by apply (Hdisj b)].
  - intros b Hb'. rewrite HB. destruct (decide (b ∈ area_blocks t)) as [Hbt|Hbt].
    + symmetry. apply Hin. rewrite blocks_of_cons. right. apply elem_of_app. by left.
    + apply Hout. rewrite blocks_of_cons. intros [->|[?|?]%elem_of_app]%elem_of_cons; [|done|]; apply Hb'; [left|by right].
  - split; [done|]. intros b Hne. by rewrite Fm, Hm2.
  - intros l' Hl'. apply Hno. simpl. by right.
  - intros l' Hl'. rewrite Fl. destruct (decide (l' = lw.1)) as [->|Hne].
    + rewrite lookup_delete_eq. symmetry. apply Hno. simpl. left.
    + rewrite lookup_delete_ne by done. apply Hlis. simpl. by apply not_elem_of_cons.
  - intros t' Ht'. destruct (Har t' ltac:(by right)) as (H1 & H2 & H3). split; [|done]. rewrite Fv.
    assert (lw.2 ≠ t'.1.2) as Hne by (intros He; apply Hw, elem_of_addrs; by exists t').
    destruct (decide (reg v)); [by rewrite lookup_delete_ne|by rewrite lookup_insert_ne].
  - intros w Hw'. rewrite Fv. destruct (decide (w = lw.2)) as [->|Hne].
    + destruct (Har t ltac:(left)) as (_ & _ & Href). simpl in Href. destruct (decide (reg v)).
      * rewrite lookup_delete_eq. symmetry. apply Href.
      * rewrite lookup_insert_eq. destruct Href as (r & _ & -> & ->). by replace (r + 1 - 1) with r by lia.
    + assert (vmas s !! w = vmas s0 !! w) as Hs by (apply Hvm; simpl; by apply not_elem_of_cons).
      destruct (decide (reg v)); [by rewrite lookup_delete_ne|by rewrite lookup_insert_ne].
  - intros w. destruct (decide (in_area v w)) as [Hv|Hv].
    + rewrite delete_area_in by done. split; [by intros [? ?]|]. intros (t' & Ht' & Hw'). by destruct (Hdis t' w Ht' Hw').
    + rewrite delete_area_out, Hmap by done. split.
      * intros (t' & [->|Ht']%elem_of_cons & Hw'); [done|by exists t'].
      * intros (t' & Ht' & Hw'). exists t'. split; [by right|done].
  - intros w e. destruct (decide (in_area v w)) as [Hv|Hv]; [by rewrite delete_area_in|].
    rewrite delete_area_out by done. apply Hnz.
  - done.
  - intros t' Ht'. apply Hrg. by right.
Qed.

Lemma free_loop_ok As : ∀ n p curr s B x T f,
  built s B x T f p curr As → (length As ≤ n)%nat →
  wp (mm_free_loop n a curr) s (λ _ s', ∃ B' x' T' f' p', built s' B' x' T' f' p' 0 []).
Proof.
  induction As as [|[lw v] As IH]; intros n p curr s B x T f Hb Hn; pose proof (bu_seg _ _ _ _ _ _ _ _ _ _ _ Hb) as Hseg; simpl in Hseg.
  - subst curr. destruct n; simpl; apply wp_ret; by exists B, x, T, f, p.
  - destruct lw as [l w]. destruct Hseg as (-> & Hl0 & nx & Hl & Hseg). destruct n as [|n]; [simpl in Hn; lia|]. simpl in Hn.
    cbn [mm_free_loop]. destruct (Z.eqb_spec l 0); [done|].
    apply wp_bind, (wp_get_li _ _ (VmAreaLi w nx p)); [done|]. simpl li_vma.
    apply wp_bind, (wp_get_vma _ _ v); [apply (bu_area _ _ _ _ _ _ _ _ _ _ _ Hb (l, w, v)); left|]. apply wp_bind.
    apply (free_area_ok s B x T f p l (l, w) v As); [done|]. intros s1 B1 x1 T1 Hfr. simpl in Hfr.
    apply wp_bind, (wp_get_li _ _ (VmAreaLi w nx p)); [by rewrite (af_lis _ _ _ _ _ _ _ _ _ _ _ Hfr)|]. simpl li_next.
    destruct (bu_in _ _ _ _ _ _ _ _ _ _ _ Hb l) as [_ [k Hk]]; [rewrite blocks_of_cons; right; left|].
    assert (B1 !! l = Some k) as Hk1.
    { rewrite (af_blocks _ _ _ _ _ _ _ _ _ _ _ Hfr). case_decide as Hr; [|done]. rewrite lookup_delete_ne; [done|].
      intros ->. destruct (bu_nodup _ _ _ _ _ _ _ _ _ _ _ Hb) as [_ Hnd]. rewrite blocks_of_cons in Hnd.
      unfold area_blocks in Hnd. simpl in Hnd. rewrite decide_True in Hnd by done.
      apply list.NoDup_cons in Hnd as [_ Hnd]. apply list.NoDup_cons in Hnd as [Hnd _]. apply Hnd. left. }
    apply wp_bind, wp_zoom. eapply wp_mono; [by apply (heap_release_ok _ B1 l k), Hk1; apply Hfr|].
    intros [] h (Hh & _ & _). wp_steps.
    eapply (IH n l nx); [|lia]. exact (built_uncons s B x T f p l (l, w) v As nx s1 B1 x1 T1 h Hb Hl Hseg Hfr Hh).
Qed.
End since.
End freeing.
