(* ===== verification/MmFreeProps.v ===== *)
(** What [mm_free] gives back: everything that [mm_dupe] took, and what becomes
    of the bitmap of [mm/pmm.c] when physical memory starts at address 0. *)

From S2P Require Import Prelude Memory Interfaces Pmm PageTable AddressSpace Kmalloc Heap Mm MmSpec MmProps MmFree.

(** ** Invariants of the frame allocator

    A predicate that the allocator's operations keep is kept by every operation
    on address spaces. *)
Section keeping.
Context {St : Type} {FO : FrameOps St} {H : Type} {HO : HeapOps H}.
Variable I : St → Prop.
Hypothesis I_alloc : keeps I frame_alloc (λ _, True).
Hypothesis I_free : ∀ p, keeps I (frame_free p) (λ _, True).
Hypothesis I_mem : ∀ s m, I s → I (frame_set_mem s m).

Definition steady {S A} (J : S → Prop) (m : M S A) : Prop := keeps J m (λ _, True).
Abbreviation framed := (λ s : vm St H, I (frames s)).

Lemma steady_bind {S A B} (J : S → Prop) (m : M S A) (f : A → M S B) :
  steady J m → (∀ a, steady J (f a)) → steady J (mbind_ m f).
Proof. intros Hm Hf. eapply keeps_bind; [exact Hm|]. intros a _. apply Hf. Qed.
Lemma steady_ret {S A} (J : S → Prop) (a : A) : steady J (mret_ a).
Proof. by apply keeps_ret. Qed.
Lemma steady_gets {S A} (J : S → Prop) (f : S → A) : steady J (gets f).
Proof. apply keeps_gets. Qed.
Lemma steady_opt {S A} (J : S → Prop) (o : option A) : steady J (from_opt o).
Proof. apply keeps_from_opt. Qed.
Lemma steady_panic {S A} (J : S → Prop) msg : steady J (@panic S A msg).
Proof. done. Qed.
Lemma steady_fault {S A} (J : S → Prop) : steady J (@fault S A).
Proof. done. Qed.
Lemma steady_nofuel {S A} (J : S → Prop) : steady J (@nofuel S A).
Proof. done. Qed.
Lemma steady_for {S} (J : S → Prop) (body : Z → M S unit) n : ∀ i, (∀ j, steady J (body j)) → steady J (for_ n i body).
Proof.
  induction n as [|n IH]; intros i Hb; simpl; [apply steady_ret|]. apply steady_bind; [apply Hb|]. intros _. by apply IH.
Qed.
Lemma steady_alloc : steady I frame_alloc.
Proof. exact I_alloc. Qed.
Lemma steady_free p : steady I (frame_free p).
Proof. exact (I_free p). Qed.
Lemma steady_write f : steady I (write f).
Proof. intros s Hs. split; [by apply I_mem|done]. Qed.
Lemma steady_frames {A} (m : M St A) : steady I m → steady framed (in_frames (H := H) m).
Proof. intros Hm s Hs. specialize (Hm (frames s) Hs). unfold in_frames, zoom. by destruct (m (frames s)) as [[]| | |]. Qed.
Lemma steady_kheap {A} (m : M H A) : steady framed (in_kheap m).
Proof. intros s Hs. unfold in_kheap, zoom. by destruct (m (kheap s)) as [[]| | |]. Qed.
Lemma steady_modify (f : vm St H → vm St H) : (∀ s, frames (f s) = frames s) → steady framed (modify f).
Proof. intros Hf s Hs. split; [|done]. by rewrite Hf. Qed.

Ltac head_of t := match t with ?f _ => head_of f | _ => t end.
Ltac steady := repeat (intros; cbv beta zeta; first [assumption|lazymatch goal with
  | |- steady _ (mbind_ _ _) => apply steady_bind
  | |- steady _ (mret_ _) => apply steady_ret
  | |- steady _ (gets _) => apply steady_gets
  | |- steady _ (read _) => apply steady_gets
  | |- steady _ (from_opt _) => apply steady_opt
  | |- steady _ (panic _) => apply steady_panic
  | |- steady _ fault => apply steady_fault
  | |- steady _ nofuel => apply steady_nofuel
  | |- steady _ (write _) => apply steady_write
  | |- steady _ frame_alloc => apply steady_alloc
  | |- steady _ (frame_free _) => apply steady_free
  | |- steady _ (for_ _ _ _) => apply steady_for
  | |- steady _ (in_frames _) => apply steady_frames
  | |- steady _ (in_kheap _) => apply steady_kheap
  | |- steady _ (modify _) => apply steady_modify
  | |- steady _ (match ?x with _ => _ end) => destruct x
  | |- frames _ = frames _ => reflexivity
  | |- steady _ ?m => let h := head_of m in unfold h
  end]).

Lemma mm_init_loop_steady sym n : ∀ a curr, steady framed (mm_init_loop sym n a curr).
Proof. induction n as [|n IH]; intros a curr; cbn [mm_init_loop]; [steady|]. destruct (_ =? 0); steady. apply IH. Qed.
Lemma mm_dupe_loop_steady n : ∀ new a curr, steady framed (mm_dupe_loop n new a curr).
Proof. induction n as [|n IH]; intros new a curr; cbn [mm_dupe_loop]; [steady|]. destruct (_ =? 0); steady; apply IH. Qed.
Lemma mm_free_loop_steady n : ∀ a curr, steady framed (mm_free_loop n a curr).
Proof. induction n as [|n IH]; intros a curr; cbn [mm_free_loop]; [steady|]. destruct (_ =? 0); steady; apply IH. Qed.
Lemma mm_new_steady sym fuel : steady framed (mm_new sym fuel).
Proof. unfold mm_new, mm_init. steady. apply mm_init_loop_steady. Qed.
Lemma mm_dupe_steady sym fuel b : steady framed (mm_dupe sym fuel b).
Proof.
  unfold mm_dupe. apply steady_bind; [apply mm_new_steady|steady; apply mm_dupe_loop_steady].
Qed.
Lemma vmm_map_range_steady a virt phys n prot user : steady framed (vmm_map_range a virt phys n prot user).
Proof. steady. Qed.
Lemma anon_mmap_steady a start n prot user : steady framed (anon_mmap a start n prot user).
Proof. steady. Qed.
End keeping.

Lemma wp_keeps {S A} (J : S → Prop) (m : M S A) (s : S) Q :
  wp m s Q → steady J m → J s → wp m s (λ a s', Q a s' ∧ J s').
Proof. intros Hm HJ Hs. specialize (HJ s Hs). unfold wp in *. destruct (m s) as [[a s']| | |]; [|done..]. by destruct HJ. Qed.

(** ** [mm_free] *)
Section giving_back.
Context {St : Type} {FO : FrameOps St} {FL : FrameLaws St}.
Context {H : Type} {HO : HeapOps H} {HL : HeapLaws H}.
Implicit Types (s : vm St H) (x y : mm) (T U : tables) (f g : gmap Z Z) (B : gmap Z Z) (As : list area_at).


(** The objects of [s0] are there again, and its blocks. *)
Record given_back s0 B0 s : Prop := {
  gb_mms : mms s = mms s0;
  gb_vmas : vmas s = vmas s0;
  gb_lis : lis s = lis s0;
  gb_heap : heap_inv (kheap s) B0;
}.

(** All areas are gone: only the [struct mm] is left. *)
Lemma built_nil s0 B0 a s B x T f p : built s0 B0 a s B x T f p 0 [] →
  p4 x = 0 ∧ T = ∅ ∧ grow (frames s0) ∅ (frames s) ∅ [] ∧ delete a B = B0 ∧ is_Some (B !! a) ∧
  delete a (mms s) = mms s0 ∧ vmas s = vmas s0 ∧ lis s = lis s0.
Proof.
  intros [[Hm Hs] Hh _ (D & G & HD) _ Hin Hout [Hm1 Hm2] _ Hlis _ Hvm Hmap _ _ _].
  assert (f = ∅) as ->.
  { apply map_eq. intros w. rewrite lookup_empty. destruct (f !! w) eqn:E; [|done]. exfalso.
    destruct (proj1 (Hmap w) ltac:(by rewrite E)) as (t & ?%not_elem_of_nil & _). done. }
  destruct (space_empty _ _ _ Hs) as [-> Hp4]. symmetry in HD. apply Permutation_nil in HD as ->.
  destruct (Hin a ltac:(left)) as [HBa HBs].
  split; [done|]. split; [done|]. split; [done|]. split_and!; try done.
  - apply map_eq. intros b. rewrite lookup_delete. case_decide as Hb; [by subst|]. apply Hout.
    apply not_elem_of_cons. split; [congruence|apply not_elem_of_nil].
  - apply map_eq. intros b. rewrite lookup_delete. case_decide as Hb; [by subst|]. by apply Hm2.
  - apply map_eq. intros w. apply Hvm, not_elem_of_nil.
  - apply map_eq. intros l. apply Hlis, not_elem_of_nil.
Qed.

Lemma mm_free_built (I R : St → Prop) s0 B0 a fuel s B x T f As :
  keeps I frame_alloc (λ _, True) → (∀ p, keeps I (frame_free p) (λ _, True)) → (∀ fr m, I fr → I (frame_set_mem fr m)) →
  I (frames s) → built s0 B0 a s B x T f 0 (vm_areas x) As → (length As ≤ fuel)%nat →
  (∀ fr, I fr → grow (frames s0) ∅ fr ∅ [] → wp (frame_free 0) fr (λ _ fr', R fr')) →
  wp (mm_free fuel a) s (λ _ s', given_back s0 B0 s' ∧ R (frames s')).
Proof.
  intros H1 H2 H3 HI Hb Hn HR. unfold mm_free. apply wp_bind, (wp_get_mm _ _ x); [apply Hb|]. apply wp_bind.
  eapply wp_mono; [apply (wp_keeps (λ s, I (frames s)) _ _ _ (free_loop_ok s0 B0 a As fuel 0 (vm_areas x) s B x T f Hb Hn))|].
  - by apply mm_free_loop_steady.
  - done.
  - intros [] s1 [(B1 & x1 & T1 & f1 & p & Hb1) HI1]. apply wp_bind, (wp_get_mm _ _ x1); [apply Hb1|].
    destruct (built_nil _ _ _ _ _ _ _ _ _ Hb1) as (Hp4 & -> & G & HB & [k Hk] & Hmm & Hvm & Hl). rewrite Hp4.
    apply wp_bind, wp_zoom. eapply wp_mono; [by apply HR|]. intros [] fr HRf.
    apply wp_bind, wp_zoom. eapply wp_mono; [apply (heap_release_ok _ B1 a k); [apply Hb1|done]|].
    intros [] h (Hh & _ & _). wp_steps. split; [|done]. rewrite HB in Hh. by split.
Qed.

(** The frames in use are those of [s0], with their contents. *)
Definition same_frames (fr fr' : St) : Prop :=
  frame_inv fr' ∧ frame_avail fr' = frame_avail fr ∧ (∀ q, frame_used fr' q ↔ frame_used fr q) ∧
  ∀ q, frame_used fr q → same_page (frame_mem fr) (frame_mem fr') q.

Lemma grow_same (fr fr' : St) : grow fr ∅ fr' ∅ [] → same_frames fr fr'.
Proof.
  intros [I _ _ U O _ _ A]. split; [done|]. split; [simpl in A; lia|]. split.
  - intros q. rewrite U. split; [|by left]. intros [?|[[p Hp]|?%not_elem_of_nil]]; [done|by rewrite lookup_empty in Hp|done].
  - intros q Hq. apply O; [done|]. intros p. by rewrite lookup_empty.
Qed.

(** [mm_dupe], as a space that has been made since. *)
Lemma mm_dupe_built sym fuel s B b y U g L vs ky KU kg LK kvs :
  objects_ok s B → shareable sym s ky KU kg LK kvs → mm_wf s b y U g L vs →
  (∀ u v w, u ∈ kvs → v ∈ vs → reg v → in_area v w → ¬ in_area u w) → (length LK ≤ fuel ∧ length L ≤ fuel)%nat →
  (5 * (total_pages kvs + reg_pages vs) ≤ frame_avail (frames s))%nat →
  56 * Z.of_nat (length LK) + 120 * Z.of_nat (length L) + 48 < heap_room (kheap s) →
  wp (mm_dupe sym fuel b) s (λ c s', ∃ x T f As B', built s B c s' B' x T f 0 (vm_areas x) As ∧
    (length As ≤ length LK + length L)%nat).
Proof.
  intros Ho Hk [Hy [Hseg Hnd] Hvs Hmap Hdis] Hap [Hf1 Hf2] Hav Hroom. unfold mm_dupe. apply wp_bind.
  eapply wp_mono; [apply (mm_new_built sym fuel s B ky KU kg LK kvs Ho Hk Hf1); lia|].
  intros c s1 (x1 & T1 & f1 & As1 & B1 & Hb1 & S1 & Hfr & Hfrom & _ & Hlen).
  assert (b ≠ c) as Hbc by (intros ->; destruct Hy; congruence).
  assert (separate U ∅) as Hse by (intros p q r _; by rewrite lookup_empty).
  destruct (mm_step_other _ _ _ _ _ _ _ _ _ _ _ _ _ _ _ _ S1 Hbc Hy Hse) as [Hy1 Hsep1].
  assert (apart_lists [] L) as Hapl by by intros l _ ?%not_elem_of_nil.
  destruct (mm_step_list _ _ _ _ _ _ _ _ _ _ _ _ _ _ _ S1 Hseg Hapl) as [Hseg1 Hap1].
  pose proof (st_avail _ _ _ _ _ _ _ _ _ _ _ _ S1) as Ha1.
  pose proof (hs_room _ _ _ _ _ (st_heap _ _ _ _ _ _ _ _ _ _ _ _ S1)) as Hr1.
  apply wp_bind, (wp_get_mm _ _ y); [apply Hy1|]. apply wp_bind.
  eapply wp_mono; [eapply (built_dupe_loop s B c L vs fuel b 0 (vm_areas y) s1 B1 x1 T1 f1 As1 y U g); try done|].
  - apply (hs_ok _ _ _ _ _ (st_heap _ _ _ _ _ _ _ _ _ _ _ _ S1)).
  - eapply mm_step_areas; [exact S1|exact Hvs].
  - intros v Hv Hreg. eapply mm_step_mapped; [exact S1|by apply Hmap].
  - intros u v w Hu Hv Hr Hw Hin. destruct (Hfrom u w Hu Hin) as (u' & Hu' & Hin'). by apply (Hap u' v w).
  - lia.
  - lia.
  - intros [] s2 (x2 & T2 & f2 & As2 & B2 & D2 & Hb2 & _ & Hlen2). apply wp_ret. exists x2, T2, f2, As2, B2. split; [done|lia].
Qed.

(** C10: [mm_free] undoes [mm_dupe].  Duplicating a well-formed address space and
    freeing the copy leads back to the memory manager's state of before: the
    same address spaces, areas, reference counts and lists, the same blocks of
    the heap in use, the same frames in use with the same contents, and no page
    table or data frame is lost.  ([pmm_free(0)], which [mm_free] ends with, is
    asked to have no effect: see [mm_free_unmarks_bitmap].) *)
Theorem mm_dupe_free_roundtrip {FN : FrameNull St} sym fuel fuel' s B b y U g L vs ky KU kg LK kvs
    (Ho : objects_ok s B) (Hk : shareable sym s ky KU kg LK kvs) (Hwf : mm_wf s b y U g L vs)
    (Hap : ∀ u v w, u ∈ kvs → v ∈ vs → reg v → in_area v w → ¬ in_area u w)
    (Hfuel : (length LK ≤ fuel ∧ length L ≤ fuel ∧ length LK + length L ≤ fuel')%nat)
    (Hav : (5 * (total_pages kvs + reg_pages vs) ≤ frame_avail (frames s))%nat)
    (Hroom : 56 * Z.of_nat (length LK) + 120 * Z.of_nat (length L) + 48 < heap_room (kheap s))
    (Hnull : frame_null (frames s)) :
  ∃ c s1 s', mm_dupe sym fuel b s = Ok (c, s1) ∧ mms s1 !! c ≠ None ∧ mm_free fuel' c s1 = Ok (tt, s') ∧
    given_back s B s' ∧ same_frames (frames s) (frames s').
Proof.
  destruct (proj1 (wp_run _ _ _) (wp_keeps (λ s, frame_null (frames s)) _ _ _
    (mm_dupe_built sym fuel s B b y U g L vs ky KU kg LK kvs Ho Hk Hwf Hap ltac:(lia) Hav Hroom)
    (mm_dupe_steady frame_null frame_null_alloc frame_null_mem sym fuel b) Hnull))
    as (c & s1 & Hrun & (x & T & f & As & B1 & Hb & Hlen) & HI).
  destruct (proj1 (wp_run _ _ _) (mm_free_built frame_null (same_frames (frames s)) s B c fuel' s1 B1 x T f As
    frame_null_alloc frame_null_free frame_null_mem HI Hb ltac:(lia)
    (λ fr Hfr G, proj2 (wp_run _ _ _) (ex_intro _ tt (ex_intro _ fr (conj (frame_free_null fr Hfr) (grow_same _ _ G)))))))
    as ([] & s' & Hrun' & Hg & Hs).
  exists c, s1, s'. split; [done|]. split; [|done]. rewrite (ma_mm _ _ _ _ _ (bu_at _ _ _ _ _ _ _ _ _ _ _ Hb)). done.
Qed.
End giving_back.

(** ** The states of the witnesses *)
Definition ex_list : list (Z * Z) := [(kernel_vma_li ex_sym, kernel_vma ex_sym)].

Lemma ex_shareable : ∃ (s : vm pmm heap) y U g,
  shareable ex_sym s y U g ex_list [ex_text] ∧ objects_ok s ∅ ∧
  (235 ≤ frame_avail (frames s))%nat ∧ heap_room (kheap s) = 507904 ∧ frame_null (frames s).
Proof.
  destruct ex_kernel as (s & y & U & g & Hrun & Hk & Ho & Hav & Hroom & Hvm). exists s, y, U, g.
  assert (frame_null (frames s)) as Hn.
  { refine (proj1 (keeps_run (λ s : vm pmm heap, frame_null (frames s)) _ (λ _, True) ex_vm0 tt s _ _ Hrun)).
    - apply (vmm_map_range_steady _ frame_null_alloc frame_null_mem).
    - intros r ->%list_elem_of_singleton. by vm_compute. }
  clear Hrun. split; [|done]. destruct Hk as [H1 H2 H3 H4]. split; [by split|..].
  - constructor; [|constructor]. rewrite Hvm. by vm_compute.
  - apply list.NoDup_singleton.
  - constructor; [|constructor]. split; [done|]. split; [done|]. by apply list.Forall_cons in H4 as [? _].
  - split; [|done]. by intros u w ?%not_elem_of_nil.
Qed.

(** A process with a page at 4 MiB. *)
Record ex_made (s : vm pmm heap) B b y U g L vs ky KU kg r : Prop := {
  xm_objects : objects_ok s B;
  xm_share : shareable ex_sym s ky KU kg ex_list [set_v_refcnt r ex_text];
  xm_wf : mm_wf s b y U g L vs;
  xm_reg v : v ∈ vs → reg v → v = anon_area 0x400000 1 3 true;
  xm_len : length L = 2%nat ∧ (reg_pages vs ≤ 1)%nat;
  xm_avail : (80 ≤ frame_avail (frames s))%nat;
  xm_room : 507000 < heap_room (kheap s);
  xm_null : frame_null (frames s);
}.

(** The area of the kernel after more references, in a space that has been made. *)
Lemma built_kernel_ref s0 B0 a (s : vm pmm heap) B x T f p curr As w v :
  built s0 B0 a s B x T f p curr As → vmas s0 !! w = Some v → ¬ reg v → 1 ≤ v_refcnt v < 2 ^ 30 →
  ∃ r, 1 ≤ r < 2 ^ 31 - 1 ∧ vmas s !! w = Some (set_v_refcnt r v).
Proof.
  intros Hb Hv Hr Href. destruct (decide (w ∈ As.*1.*2)) as [Hin|Hin].
  - apply elem_of_addrs in Hin as (t & Ht & <-). destruct (bu_area _ _ _ _ _ _ _ _ _ _ _ Hb t Ht) as (H1 & _ & H2).
    case_decide as Hreg; [destruct H2; congruence|]. destruct H2 as (r & Hr1 & Hr2 & Hr3). exists (r + 1).
    assert (v = set_v_refcnt r t.2) as -> by congruence. simpl in Href. split; [lia|]. rewrite H1. f_equal.
    destruct t as [? []]. simpl in *. by subst.
  - exists (v_refcnt v). rewrite (bu_vmas _ _ _ _ _ _ _ _ _ _ _ Hb), Hv by done. split; [lia|]. by destruct v.
Qed.

Lemma ex_process_made : ∃ s B b y U g L vs ky KU kg r, ex_made s B b y U g L vs ky KU kg r.
Proof.
  destruct ex_shareable as (s & ky & KU & kg & Hsh & Ho & Hav & Hroom & Hnull).
  pose proof Hsh as [[Hky [Hkseg Hknd] Hkvs Hkres] Hkat Hnd [(_ & _ & Hres) _]%list.Forall_cons _].
  destruct (proj1 (wp_run _ _ _) (wp_keeps (λ s, frame_null (frames s)) _ _ _
    (mm_new_built ex_sym 1 s ∅ ky KU kg ex_list [ex_text] Ho Hsh ltac:(done)
      ltac:(change (5 * total_pages [ex_text])%nat with 5%nat; lia) ltac:(cbn [length ex_list]; lia))
    (mm_new_steady frame_null frame_null_alloc frame_null_mem ex_sym 1) Hnull))
    as (b & s1 & _ & (x & T & f & As & B1 & Hb1 & S1 & Hfr & Hfrom & Hnr & Hlen) & Hnull1).
  assert (kernel_mm ex_sym ≠ b) as Hkb by (intros He; destruct Hky as [Hm _]; rewrite He in Hm; congruence).
  assert (separate KU ∅) as Hse by (intros p q r _; by rewrite lookup_empty).
  assert (apart_lists [] ex_list) as Hapl by by intros l _ ?%not_elem_of_nil.
  destruct (mm_step_other _ _ _ _ _ _ _ _ _ _ _ _ _ _ _ _ S1 Hkb Hky Hse) as [Hky1 Hsep1].
  destruct (mm_step_list _ _ _ _ _ _ _ _ _ _ _ _ _ _ _ S1 Hkseg Hapl) as [Hkseg1 Hap1].
  pose proof (st_avail _ _ _ _ _ _ _ _ _ _ _ _ S1) as Ha1. change (5 * total_pages [ex_text])%nat with 5%nat in Ha1.
  pose proof (hs_room _ _ _ _ _ (st_heap _ _ _ _ _ _ _ _ _ _ _ _ S1)) as Hr1. cbn [length ex_list] in Hr1.
  pose proof (hs_ok _ _ _ _ _ (st_heap _ _ _ _ _ _ _ _ _ _ _ _ S1)) as Ho1.
  pose proof (built_wf _ _ _ _ _ _ _ _ _ Hb1) as Hwf1.
  destruct (proj1 (wp_run _ _ _) (wp_keeps (λ s, frame_null (frames s)) _ _ _
    (anon_mmap_ok s1 B1 b x T f As.*1 0x400000 1 3 true Ho1 (wf_at _ _ _ _ _ _ _ Hwf1) (wf_areas _ _ _ _ _ _ _ Hwf1)
      eq_refl ltac:(lia) ltac:(change (5 * Z.to_nat 1)%nat with 5%nat; lia) ltac:(lia))
    (anon_mmap_steady frame_null frame_null_alloc frame_null_mem b 0x400000 1 3 true) Hnull1))
    as ([] & s2 & _ & (x2 & T2 & D & vma & li & B2 & Han) & Hnull2).
  pose proof (anon_mm_step _ _ _ _ _ _ _ _ _ _ _ _ _ _ _ _ _ _ Han) as S2.
  assert (∀ u w, u ∈ As.*2 → in_area (anon_area 0x400000 1 3 true) w → ¬ in_area u w) as Hap.
  { intros u w Hu (i & Hi & Hw) Hin. destruct (Hfrom u w Hu Hin) as (v & ->%list_elem_of_singleton & (j & Hj & Hw')).
    cbn [anon_area v_pages v_start ex_text] in *. assert (i = 0) as -> by lia. assert (j = 0) as -> by lia.
    rewrite Hw in Hw'. by vm_compute in Hw'. }
  pose proof (built_anon s ∅ b s1 B1 x T f As As.*1 0x400000 1 3 true s2 x2 T2 D vma li B2 Ho1 Hb1 eq_refl eq_refl
    ltac:(lia) eq_refl Hap Han) as Hb2.
  destruct (mm_step_other _ _ _ _ _ _ _ _ _ _ _ _ _ _ _ _ S2 Hkb Hky1 Hsep1) as [Hky2 Hsep2].
  destruct (mm_step_list _ _ _ _ _ _ _ _ _ _ _ _ _ _ _ S2 Hkseg1 Hap1) as [Hkseg2 Hap2].
  pose proof (st_avail _ _ _ _ _ _ _ _ _ _ _ _ S2) as Ha2. change (5 * Z.to_nat 1)%nat with 5%nat in Ha2.
  pose proof (hs_room _ _ _ _ _ (st_heap _ _ _ _ _ _ _ _ _ _ _ _ S2)) as Hr2.
  assert (vmas s !! kernel_vma ex_sym = Some ex_text) as Hkv by (by apply list.Forall2_cons_1 in Hkat as [? _]).
  destruct (built_kernel_ref _ _ _ _ _ _ _ _ _ _ _ _ _ Hb2 Hkv ltac:(done) ltac:(done)) as (r & Hr & Hkv2).
  exists s2, B2, b, x2, T2. do 3 eexists. exists ky, KU, kg, r. split.
  - apply (hs_ok _ _ _ _ _ (st_heap _ _ _ _ _ _ _ _ _ _ _ _ S2)).
  - split; [split; [exact Hky2|by split| |]|..].
    + constructor; [by exists r|constructor].
    + constructor; [exact Hres|constructor].
    + constructor; [exact Hkv2|constructor].
    + apply list.NoDup_singleton.
    + constructor; [|constructor]. split; [done|]. split; [exact Hr|exact Hres].
    + split; [|done]. by intros u w ?%not_elem_of_nil.
  - exact (built_wf _ _ _ _ _ _ _ _ _ Hb2).
  - intros v [->|Hv]%elem_of_cons Hreg; [done|]. by destruct (Hnr v Hv).
  - split; [by rewrite !length_fmap; simpl; rewrite Hlen|]. cbn [fmap list_fmap snd].
    assert (reg_pages As.*2 = 0%nat) as H0.
    { clear -Hnr. induction As.*2 as [|v vs IH]; [done|]. unfold reg_pages in *. simpl. rewrite decide_False by (apply Hnr; left).
      apply IH. intros u Hu. apply Hnr. by right. }
    change (reg_pages (anon_area 0x400000 1 3 true :: As.*2)) with (1 + reg_pages As.*2)%nat. lia.
  - lia.
  - lia.
  - exact Hnull2.
Qed.

Lemma mm_dupe_free_roundtrip_witness : ∃ (s s1 s' : vm pmm heap) B b c,
  mm_dupe ex_sym 2 b s = Ok (c, s1) ∧ mm_free 3 c s1 = Ok (tt, s') ∧ given_back s B s'.
Proof.
  destruct ex_process_made as (s & B & b & y & U & g & L & vs & ky & KU & kg & r & [Ho Hk Hwf Hreg [HL Hpg] Hav Hr Hn]).
  destruct (mm_dupe_free_roundtrip ex_sym 2 3 s B b y U g L vs ky KU kg ex_list [set_v_refcnt r ex_text] Ho Hk Hwf) as (c & s1 & s' & H1 & _ & H2 & H3 & _).
  - intros u v w ->%list_elem_of_singleton Hv Hrv (i & Hi & Hw) (j & Hj & Hw'). rewrite (Hreg v Hv Hrv) in Hi, Hw.
    cbn [anon_area v_pages v_start ex_text set_v_refcnt] in *. assert (i = 0) as -> by lia. assert (j = 0) as -> by lia.
    rewrite Hw in Hw'. by vm_compute in Hw'.
  - rewrite HL. simpl. lia.
  - change (total_pages [set_v_refcnt r ex_text]) with 1%nat. lia.
  - rewrite HL. change (length ex_list) with 1%nat. lia.
  - exact Hn.
  - exists s, s1, s', B, b, c. split; [exact H1|]. split; [exact H2|exact H3].
Defined.

(** ** Physical page 0

    The loop of [mm_free] unmaps every page, so that [vmm_unmap_page] frees the
    top-level table and clears [mm->p4]; [mm_free] then calls [pmm_free(0)]. *)
Lemma free_null_keeps_clear r rs m : start r = 0 → (∀ r', r' ∈ rs → 0 ≤ start r') → region_get_bit m r 0 = false →
  region_get_bit (foldl (free_in_region 0) m rs) r 0 = false.
Proof.
  intros Hr. revert m. induction rs as [|r' rs IH]; intros m Hrs Hm; simpl; [done|].
  apply IH; [intros; apply Hrs; by right|]. assert (0 ≤ start r') as H0 by (apply Hrs; left). unfold free_in_region.
  destruct (Z.ltb_spec 0 (start r')); [done|]. assert (start r' = 0) as E by lia. rewrite E. simpl.
  destruct (_ <? 0); [done|]. change ((0 - 0) / PAGE_SIZE) with 0.
  assert (region_unset_bit m r' 0 = region_unset_bit m r 0) as -> by (unfold region_unset_bit, region_byte; by rewrite Hr, E).
  rewrite region_get_unset_bit. by rewrite decide_True.
Qed.

Lemma pmm_free_null_clears s r rs : pmm_inv s → regions s = r :: rs → start r = 0 →
  wp (pmm_free 0) s (λ _ s', regions s' = r :: rs ∧ region_get_bit (p_mem s') r 0 = false).
Proof.
  intros [[Hwf _] _] E Hr.
  assert (∀ m, free_in_region 0 m r = region_unset_bit m r 0) as Hf.
  { intros m. unfold free_in_region. rewrite Hr. pose proof (w64_range (0 + pages r * PAGE_SIZE)).
    destruct (Z.ltb_spec (w64 (0 + pages r * PAGE_SIZE)) 0); [lia|done]. }
  unfold pmm_free. apply wp_modify. split; [exact E|]. cbn [p_mem]. rewrite E in *. cbn [foldl].
  apply free_null_keeps_clear; [done|intros r' Hr'; apply Hwf; by right|].
  rewrite Hf, region_get_unset_bit. by rewrite decide_True.
Qed.

Section null.
Context {H : Type} {HO : HeapOps H} {HL : HeapLaws H}.
Implicit Types (s : vm pmm H) (x : mm) (T : tables) (f : gmap Z Z) (B : gmap Z Z) (As : list area_at).

(** C14: [mm_free] of any address space whose areas it can free ends with
    [pmm_free(0)].  When the first region of the memory map starts at physical
    address 0 (on a PC it does), that clears the bit of the page that holds the
    region's own bitmap.  If the region is the only one, the next [pmm_alloc]
    answers 0, which is what a caller gets for a frame, and zeroes the bitmap:
    every frame that it describes, in use or not, is free. *)
Theorem mm_free_unmarks_bitmap s0 B0 a fuel s B x T f As r rs
    (Hb : built s0 B0 a s B x T f 0 (vm_areas x) As) (Hn : (length As ≤ fuel)%nat)
    (Hrs : regions (frames s) = r :: rs) (Hr : start r = 0) (Hpages : 0 < pages r) :
  ∃ s', mm_free fuel a s = Ok (tt, s') ∧ given_back s0 B0 s' ∧ region_get_bit (p_mem (frames s')) r 0 = false ∧
    (rs = [] → ∃ fr, pmm_alloc (frames s') = Ok (0, fr) ∧
       ∀ q i, frame_at [r] q r i → i < 8 * PAGE_SIZE → q ∈ free_frames fr).
Proof.
  assert (wp (mm_free fuel a) s (λ _ s', given_back s0 B0 s' ∧
    (regions (frames s') = r :: rs ∧ region_get_bit (p_mem (frames s')) r 0 = false))) as Hw.
  { apply (mm_free_built (λ fr, regions fr = r :: rs) (λ fr, regions fr = r :: rs ∧ region_get_bit (p_mem fr) r 0 = false)
      s0 B0 a fuel s B x T f As); try done.
    - exact (pmm_alloc_regions (λ l, l = r :: rs)).
    - exact (pmm_free_regions (λ l, l = r :: rs)).
    - intros fr E G. by apply pmm_free_null_clears; [apply G|..]. }
  destruct (proj1 (wp_run _ _ _) Hw) as ([] & s' & Hrun & Hg & Hreg & Hbit).
  exists s'. split; [done|]. split; [done|]. split; [done|]. intros ->. unfold pmm_alloc. rewrite Hreg. simpl. unfold find_free_page.
  assert (Z.to_nat (pages r) = S (Z.to_nat (pages r - 1))) as -> by lia. simpl. rewrite Hbit, Hr. simpl.
  eexists. split; [done|]. intros q i (_ & Hi & ->) Hi8.
  assert (0 ≤ bmap_size r) by (unfold bmap_size; pose proof (w64_range (pages r + 8 - 1)); apply Z.div_pos; [apply H0|done]).
  assert (0 ≤ bmap_pages r) by (unfold bmap_pages, DIV_CEIL, PAGE_SIZE; apply Z.div_pos; lia).
  apply elem_of_free_frames. exists r, i. split; [by apply list_elem_of_singleton|]. split; [lia|]. split; [|done].
  rewrite region_get_bit_testbit. simpl. rewrite ld8_memset by (unfold PAGE_SIZE; lia). rewrite decide_True; [apply Z.bits_0|].
  unfold region_byte. rewrite Hr. unfold PAGE_SIZE in *. pose proof (Z.div_mod i 8). pose proof (Z.mod_pos_bound i 8). lia.
Qed.
End null.

Definition ex_low_frames : pmm := Pmm (pmm_init_regions ∅ [Region 0 16]) [Region 0 16].
Definition ex_low_vm : vm pmm heap := Vm ex_low_frames (init_heap ∅) ∅ ∅ ∅.

Lemma mm_free_unmarks_bitmap_witness : ∃ (s s' : vm pmm heap) a fr,
  mm_free 0 a s = Ok (tt, s') ∧ pmm_alloc (frames s') = Ok (0, fr) ∧ 4096 ∈ free_frames fr.
Proof.
  assert (frame_inv ex_low_frames) as Hi.
  { apply (pmm_init_regions_inv [Region 0 16]). split.
    - intros r ->%list_elem_of_singleton. split_and!; by vm_compute.
    - intros r1 r2 ->%list_elem_of_singleton ->%list_elem_of_singleton. by left. }
  assert (heap_inv (kheap ex_low_vm) ∅) as Hh by (exists ex_blocks; split; [apply init_heap_ok|done]).
  destruct (proj1 (wp_run _ _ _) (heap_kcalloc_ok (kheap ex_low_vm) ∅ 1 sizeof_mm Hh ltac:(done) ltac:(done)))
    as (a & h & _ & k & _ & Hp & Hh' & _).
  destruct (mm_free_unmarks_bitmap ex_low_vm ∅ a 0 _ _ _ _ _ _ (Region 0 16) []
    (built_fresh ex_low_vm ∅ a k h Hi (lookup_empty _) Hp Hh') ltac:(done) eq_refl eq_refl ltac:(done))
    as (s' & Hrun & _ & _ & Hal). destruct (Hal eq_refl) as (fr & Hfr & Hall).
  do 4 eexists. split; [exact Hrun|]. split; [exact Hfr|]. apply (Hall 4096 1); [|done].
  split; [by apply list_elem_of_singleton|]. split; [by vm_compute|done].
Defined.
