(* ===== verification/Printf.v ===== *)
(** Formatted output: the integer and string parts of [lib/printf.c], which is
    built without floating point and without [long long].

    The output function is a parameter, as in the code; its state [S] also
    answers the bytes of the strings that [%s] prints.  The format is the list
    of its bytes without the terminator; reading past the terminator is a
    [Fault].  Variadic arguments are a list of 64-bit values. *)

From Stdlib Require Import Ascii.
From S2P Require Import Prelude Memory CString.

Definition PRINTF_NTOA_BUFFER_SIZE : Z := 32.

Definition FLAGS_ZEROPAD : Z := Z.shiftl 1 0.
Definition FLAGS_LEFT : Z := Z.shiftl 1 1.
Definition FLAGS_PLUS : Z := Z.shiftl 1 2.
Definition FLAGS_SPACE : Z := Z.shiftl 1 3.
Definition FLAGS_HASH : Z := Z.shiftl 1 4.
Definition FLAGS_UPPERCASE : Z := Z.shiftl 1 5.
Definition FLAGS_CHAR : Z := Z.shiftl 1 6.
Definition FLAGS_SHORT : Z := Z.shiftl 1 7.
Definition FLAGS_LONG : Z := Z.shiftl 1 8.
Definition FLAGS_LONG_LONG : Z := Z.shiftl 1 9.
Definition FLAGS_PRECISION : Z := Z.shiftl 1 10.

Definition has (flags f : Z) : bool := negb (Z.land flags f =? 0).
Definition clear (flags f : Z) : Z := Z.land flags (Z.lnot f).

(** Character constants. *)
Definition chr (a : Ascii.ascii) : Z := Z.of_N (Ascii.N_of_ascii a).
Arguments chr a%_char.
Definition bytes (s : string) : list Z := chr <$> String.list_ascii_of_string s.

Definition _is_digit (ch : Z) : bool := (chr "0" <=? ch) && (ch <=? chr "9").

(** The value of the digits at the head of the format, modulo [2^32], and the
    rest of the format. *)
Fixpoint _atoi (i : Z) (str : list Z) : Z * list Z :=
  match str with
  | c :: r => if _is_digit c then _atoi (w32 (i * 10 + (c - chr "0"))) r else (i, str)
  | [] => (i, [])
  end.

(** ** The digits of a number, least significant first *)
Definition len (buf : list Z) : Z := Z.of_nat (length buf).

Definition digit_char (flags digit : Z) : Z :=
  if digit <? 10 then chr "0" + digit
  else (if has flags FLAGS_UPPERCASE then chr "A" else chr "a") + digit - 10.

(** [do { ... } while (value && len < PRINTF_NTOA_BUFFER_SIZE)]; the fuel is the
    size of the buffer. *)
Fixpoint ntoa_digits (fuel : nat) (value base flags : Z) (buf : list Z) : list Z :=
  match fuel with
  | O => buf
  | S fuel' =>
      let buf := buf ++ [digit_char flags (value mod base)] in
      let value := value / base in
      if negb (value =? 0) && (len buf <? PRINTF_NTOA_BUFFER_SIZE)
      then ntoa_digits fuel' value base flags buf else buf
  end.

(** [while (len < lim && len < PRINTF_NTOA_BUFFER_SIZE) buf[len++] = '0';] *)
Fixpoint pad_zeros (fuel : nat) (lim : Z) (buf : list Z) : list Z :=
  match fuel with
  | O => buf
  | S fuel' =>
      if (len buf <? lim) && (len buf <? PRINTF_NTOA_BUFFER_SIZE)
      then pad_zeros fuel' lim (buf ++ [chr "0"]) else buf
  end.

Definition push (buf : list Z) (c : Z) : list Z :=
  if len buf <? PRINTF_NTOA_BUFFER_SIZE then buf ++ [c] else buf.

(** The part of [_ntoa_format] that fills the buffer; it also answers the width. *)
Definition ntoa_buffer (buf : list Z) (negative : bool) (base prec width flags : Z) : list Z * Z :=
  let '(buf, width) :=
    if negb (has flags FLAGS_LEFT) then
      let width :=
        if negb (width =? 0) && has flags FLAGS_ZEROPAD &&
           (negative || has flags (Z.lor FLAGS_PLUS FLAGS_SPACE))
        then width - 1 else width in
      let buf := pad_zeros 32 prec buf in
      let buf := if has flags FLAGS_ZEROPAD then pad_zeros 32 width buf else buf in
      (buf, width)
    else (buf, width) in
  let buf :=
    if has flags FLAGS_HASH then
      let buf :=
        if negb (has flags FLAGS_PRECISION) && negb (len buf =? 0) &&
           ((len buf =? prec) || (len buf =? width)) then
          let buf := removelast buf in
          if negb (len buf =? 0) && (base =? 16) then removelast buf else buf
        else buf in
      let buf :=
        if (base =? 16) && negb (has flags FLAGS_UPPERCASE) && (len buf <? PRINTF_NTOA_BUFFER_SIZE)
        then buf ++ [chr "x"]
        else if (base =? 16) && has flags FLAGS_UPPERCASE && (len buf <? PRINTF_NTOA_BUFFER_SIZE)
        then buf ++ [chr "X"]
        else if (base =? 2) && (len buf <? PRINTF_NTOA_BUFFER_SIZE) then buf ++ [chr "b"]
        else buf in
      push buf (chr "0")
    else buf in
  let buf :=
    if negative then push buf (chr "-")
    else if has flags FLAGS_PLUS then push buf (chr "+")
    else if has flags FLAGS_SPACE then push buf (chr " ")
    else buf in
  (buf, width).

(** ** Parsing a conversion *)
Fixpoint parse_flags (flags : Z) (fmt : list Z) : Z * list Z :=
  match fmt with
  | c :: r =>
      if c =? chr "0" then parse_flags (Z.lor flags FLAGS_ZEROPAD) r
      else if c =? chr "-" then parse_flags (Z.lor flags FLAGS_LEFT) r
      else if c =? chr "+" then parse_flags (Z.lor flags FLAGS_PLUS) r
      else if c =? chr " " then parse_flags (Z.lor flags FLAGS_SPACE) r
      else if c =? chr "#" then parse_flags (Z.lor flags FLAGS_HASH) r
      else (flags, fmt)
  | [] => (flags, [])
  end.

(** A conversion as parsed so far: flags, width or precision, format, arguments. *)
Definition spec : Type := Z * Z * list Z * list Z.

Definition parse_width (flags : Z) (fmt va : list Z) : option spec :=
  match fmt with
  | c :: r =>
      if _is_digit c then let '(w, r) := _atoi 0 fmt in Some (flags, w, r, va)
      else if c =? chr "*" then
        match va with
        | [] => None
        | a :: va =>
            let w := s32 a in
            Some (if w <? 0 then (Z.lor flags FLAGS_LEFT, w32 (- w), r, va) else (flags, w, r, va))
        end
      else Some (flags, 0, fmt, va)
  | [] => Some (flags, 0, fmt, va)
  end.

Definition parse_precision (flags : Z) (fmt va : list Z) : option spec :=
  match fmt with
  | c :: r =>
      if c =? chr "." then
        let flags := Z.lor flags FLAGS_PRECISION in
        match r with
        | c' :: r' =>
            if _is_digit c' then let '(p, r) := _atoi 0 r in Some (flags, p, r, va)
            else if c' =? chr "*" then
              match va with
              | [] => None
              | a :: va => let prec := s32 a in Some (flags, if 0 <? prec then prec else 0, r', va)
              end
            else Some (flags, 0, r, va)
        | [] => Some (flags, 0, r, va)
        end
      else Some (flags, 0, fmt, va)
  | [] => Some (flags, 0, fmt, va)
  end.

(** [sizeof(long)] is the size of [ptrdiff_t], [intmax_t] and [size_t]. *)
Definition parse_length (flags : Z) (fmt : list Z) : Z * list Z :=
  match fmt with
  | c :: r =>
      if c =? chr "l" then
        let flags := Z.lor flags FLAGS_LONG in
        match r with
        | c' :: r' => if c' =? chr "l" then (Z.lor flags FLAGS_LONG_LONG, r') else (flags, r)
        | [] => (flags, r)
        end
      else if c =? chr "h" then
        let flags := Z.lor flags FLAGS_SHORT in
        match r with
        | c' :: r' => if c' =? chr "h" then (Z.lor flags FLAGS_CHAR, r') else (flags, r)
        | [] => (flags, r)
        end
      else if (c =? chr "t") || (c =? chr "j") || (c =? chr "z") then (Z.lor flags FLAGS_LONG, r)
      else (flags, fmt)
  | [] => (flags, fmt)
  end.

(** ** Output *)
Section printf.
Context {S : Type}.
(** [rd s a] is the byte at address [a]; [out c idx maxlen] emits [c]. *)
Variable rd : S → Z → Z.
Variable out : Z → Z → Z → M S unit.
(** Enough steps for the strings that are printed. *)
Variable sfuel : nat.

Definition inc (idx : Z) : Z := w64 (idx + 1).

Fixpoint emit (cs : list Z) (idx maxlen : Z) : M S Z :=
  match cs with
  | [] => mret_ idx
  | c :: cs' => out c idx maxlen ;;* emit cs' (inc idx) maxlen
  end.

(** The padding loops: [n] spaces. *)
Definition spaces (n idx maxlen : Z) : M S Z := emit (replicate (Z.to_nat n) (chr " ")) idx maxlen.

Definition _out_rev (idx maxlen : Z) (buf : list Z) (width flags : Z) : M S Z :=
  let start_idx := idx in
  let* idx := (if negb (has flags FLAGS_LEFT) && negb (has flags FLAGS_ZEROPAD)
               then spaces (width - len buf) idx maxlen else mret_ idx) in
  let* idx := emit (rev buf) idx maxlen in
  if has flags FLAGS_LEFT then spaces (width - w64 (idx - start_idx)) idx maxlen else mret_ idx.

Definition _ntoa_format (idx maxlen : Z) (buf : list Z) (negative : bool)
    (base prec width flags : Z) : M S Z :=
  let '(buf, width) := ntoa_buffer buf negative base prec width flags in
  _out_rev idx maxlen buf width flags.

Definition ntoa_buf (value base flags : Z) : list Z :=
  if negb (has flags FLAGS_PRECISION) || negb (value =? 0) then ntoa_digits 32 value base flags []
  else [].

Definition _ntoa_long (idx maxlen value : Z) (negative : bool) (base prec width flags : Z) : M S Z :=
  let flags := if value =? 0 then clear flags FLAGS_HASH else flags in
  _ntoa_format idx maxlen (ntoa_buf value base flags) negative base prec width flags.

(** [_strnlen_s]: [maxsize] is post-decremented. *)
Fixpoint _strnlen_s (fuel : nat) (s : S) (str maxsize n : Z) : result Z :=
  match fuel with
  | O => NoFuel
  | Datatypes.S fuel' =>
      if negb (rd s (str + n) =? 0) && negb (maxsize =? 0)
      then _strnlen_s fuel' s str (maxsize - 1) (n + 1) else Ok (w32 n)
  end.

(** [while (( *p != 0) && (!(flags & FLAGS_PRECISION) || precision--)) out( *(p++), ...)] *)
Fixpoint emit_string (fuel : nat) (p flags precision idx maxlen : Z) : M S Z :=
  match fuel with
  | O => nofuel
  | Datatypes.S fuel' =>
      let* c := gets (λ s, rd s p) in
      if negb (c =? 0) && (negb (has flags FLAGS_PRECISION) || negb (precision =? 0)) then
        out c idx maxlen ;;*
        emit_string fuel' (p + 1) flags (w32 (precision - 1)) (inc idx) maxlen
      else mret_ idx
  end.

Definition va_arg (va : list Z) : M S (Z * list Z) :=
  match va with a :: va' => mret_ (a, va') | [] => fault end.

Definition is_int_spec (c : Z) : bool :=
  (c =? chr "d") || (c =? chr "i") || (c =? chr "u") || (c =? chr "x") || (c =? chr "X") ||
  (c =? chr "o") || (c =? chr "b").

(** The integer conversions; [long long] is consumed and printed by no code. *)
Definition fmt_int (c flags width precision idx maxlen : Z) (va : list Z) : M S (Z * list Z) :=
  let base :=
    if (c =? chr "x") || (c =? chr "X") then 16
    else if c =? chr "o" then 8
    else if c =? chr "b" then 2 else 10 in
  let flags := if base =? 10 then clear flags FLAGS_HASH else flags in
  let flags := if c =? chr "X" then Z.lor flags FLAGS_UPPERCASE else flags in
  let signed := (c =? chr "i") || (c =? chr "d") in
  let flags := if negb signed then clear flags (Z.lor FLAGS_PLUS FLAGS_SPACE) else flags in
  let flags := if has flags FLAGS_PRECISION then clear flags FLAGS_ZEROPAD else flags in
  if has flags FLAGS_LONG_LONG then mret_ (idx, va) else
  let* r := va_arg va in
  let '(a, va) := r in
  let* idx :=
    (if signed then
       if has flags FLAGS_LONG then
         let value := s64 a in
         _ntoa_long idx maxlen (w64 (if 0 <? value then value else 0 - value)) (value <? 0) base
           precision width flags
       else
         let value :=
           if has flags FLAGS_CHAR then s8 a else if has flags FLAGS_SHORT then s16 a else s32 a in
         _ntoa_long idx maxlen (w32 (if 0 <? value then value else 0 - value)) (value <? 0) base
           precision width flags
     else if has flags FLAGS_LONG then
       _ntoa_long idx maxlen (w64 a) false base precision width flags
     else
       let value :=
         if has flags FLAGS_CHAR then w8 a else if has flags FLAGS_SHORT then w16 a else w32 a in
       _ntoa_long idx maxlen value false base precision width flags) in
  mret_ (idx, va).

Definition fmt_char (flags width idx maxlen : Z) (va : list Z) : M S (Z * list Z) :=
  let* idx := (if negb (has flags FLAGS_LEFT) then spaces (width - 1) idx maxlen else mret_ idx) in
  let* r := va_arg va in
  let '(a, va) := r in
  out (w8 a) idx maxlen ;;*
  let idx := inc idx in
  let* idx := (if has flags FLAGS_LEFT then spaces (width - 1) idx maxlen else mret_ idx) in
  mret_ (idx, va).

Definition fmt_string (flags width precision idx maxlen : Z) (va : list Z) : M S (Z * list Z) :=
  let* r := va_arg va in
  let '(p, va) := r in
  let* l := (λ s, match _strnlen_s sfuel s p (if precision =? 0 then 2 ^ 64 - 1 else precision) 0 with
                  | Ok n => Ok (n, s) | Panic e => Panic e | Fault => Fault | NoFuel => NoFuel end) in
  let l := if has flags FLAGS_PRECISION then (if l <? precision then l else precision) else l in
  let* idx := (if negb (has flags FLAGS_LEFT) then spaces (width - l) idx maxlen else mret_ idx) in
  let* idx := emit_string sfuel p flags precision idx maxlen in
  let* idx := (if has flags FLAGS_LEFT then spaces (width - l) idx maxlen else mret_ idx) in
  mret_ (idx, va).

Definition fmt_pointer (flags precision idx maxlen : Z) (va : list Z) : M S (Z * list Z) :=
  let width := 8 * 2 in
  let flags := Z.lor flags (Z.lor FLAGS_ZEROPAD FLAGS_UPPERCASE) in
  let* r := va_arg va in
  let '(a, va) := r in
  let* idx := _ntoa_long idx maxlen (w64 a) false 16 precision width flags in
  mret_ (idx, va).

(** One conversion after the percent sign: the rest of the format, the index
    and the rest of the arguments.  At the end of the format the code prints
    the terminator and goes on behind it. *)
Definition conversion (fmt : list Z) (idx maxlen : Z) (va : list Z) : M S (list Z * Z * list Z) :=
  let '(flags, fmt) := parse_flags 0 fmt in
  let* r := from_opt (parse_width flags fmt va) in
  let '(flags, width, fmt, va) := r in
  let* r := from_opt (parse_precision flags fmt va) in
  let '(flags, precision, fmt, va) := r in
  let '(flags, fmt) := parse_length flags fmt in
  match fmt with
  | [] => fault
  | c :: fmt =>
      let* r := (if is_int_spec c then fmt_int c flags width precision idx maxlen va
                 else if c =? chr "c" then fmt_char flags width idx maxlen va
                 else if c =? chr "s" then fmt_string flags width precision idx maxlen va
                 else if c =? chr "p" then fmt_pointer flags precision idx maxlen va
                 else (out c idx maxlen ;;* mret_ (inc idx, va))) in
      let '(idx, va) := r in
      mret_ (fmt, idx, va)
  end.

(** The main loop; every round consumes at least one byte of the format. *)
Fixpoint vsnprintf_loop (fuel : nat) (fmt : list Z) (idx maxlen : Z) (va : list Z) : M S Z :=
  match fuel, fmt with
  | _, [] => mret_ idx
  | O, _ => nofuel
  | Datatypes.S fuel', c :: fmt' =>
      if negb (c =? chr "%") then
        out c idx maxlen ;;* vsnprintf_loop fuel' fmt' (inc idx) maxlen va
      else
        let* r := conversion fmt' idx maxlen va in
        let '(fmt', idx, va) := r in
        vsnprintf_loop fuel' fmt' idx maxlen va
  end.

Definition _vsnprintf (maxlen : Z) (fmt va : list Z) : M S Z :=
  let* idx := vsnprintf_loop (length fmt) fmt 0 maxlen va in
  out 0 (if idx <? maxlen then idx else w64 (maxlen - 1)) maxlen ;;*
  mret_ (s32 idx).
End printf.

(** ** The output functions *)
Definition _out_buffer (buffer : Z) (c idx maxlen : Z) : M mem unit :=
  if idx <? maxlen then modify (λ m, st8 m (buffer + idx) c) else mret_ tt.
Definition _out_null {S} (c idx maxlen : Z) : M S unit := mret_ tt.
Definition _out_char {S} (_putchar : Z → M S unit) (c idx maxlen : Z) : M S unit :=
  if negb (c =? 0) then _putchar c else mret_ tt.

Definition vsnprintf_ (sfuel : nat) (buffer count : Z) (fmt va : list Z) : M mem Z :=
  _vsnprintf ld8 (if buffer =? 0 then _out_null else _out_buffer buffer) sfuel count fmt va.
Definition snprintf_ := vsnprintf_.
Definition sprintf_ (sfuel : nat) (buffer : Z) (fmt va : list Z) : M mem Z :=
  vsnprintf_ sfuel buffer (2 ^ 64 - 1) fmt va.
Definition vprintf_ {S} (rd : S → Z → Z) (_putchar : Z → M S unit) (sfuel : nat) (fmt va : list Z) : M S Z :=
  _vsnprintf rd (_out_char _putchar) sfuel (2 ^ 64 - 1) fmt va.
Definition printf_ {S} := @vprintf_ S.

(** [fctprintf] passes [_vsnprintf] the address of a pair of a function and its
    argument, which [_out_fct] calls. *)
Record out_fct_wrap_type S := OutFctWrap { fct : Z → Z → M S unit; arg : Z }.
Arguments OutFctWrap {S} fct arg.
Arguments fct {S} o.
Arguments arg {S} o.
Definition _out_fct {S} (buffer : out_fct_wrap_type S) (c idx maxlen : Z) : M S unit :=
  if c =? 0 then mret_ tt else fct buffer c (arg buffer).
Definition fctprintf {S} (rd : S → Z → Z) (out : Z → Z → M S unit) (arg : Z) (sfuel : nat) (fmt va : list Z) : M S Z :=
  _vsnprintf rd (_out_fct (OutFctWrap out arg)) sfuel (2 ^ 64 - 1) fmt va.

(** ** The conversion buffer never overflows *)
Lemma len_snoc buf c : len (buf ++ [c]) = len buf + 1.
Proof. unfold len. rewrite length_app. simpl. lia. Qed.
Lemma len_nonneg buf : 0 ≤ len buf.
Proof. unfold len. lia. Qed.

Lemma len_removelast buf : len (removelast buf) ≤ len buf.
Proof.
  unfold len. induction buf as [|c [|c' buf] IH]; simpl in *; lia.
Qed.

Definition fits_buffer (buf : list Z) : Prop := len buf ≤ PRINTF_NTOA_BUFFER_SIZE.

Lemma pad_zeros_fits fuel lim buf : fits_buffer buf → fits_buffer (pad_zeros fuel lim buf).
Proof.
  revert buf. induction fuel as [|fuel IH]; intros buf Hb; simpl; [done|].
  destruct (Z.ltb_spec (len buf) PRINTF_NTOA_BUFFER_SIZE); rewrite ?andb_true_r, ?andb_false_r; [|done].
  destruct (len buf <? lim); [|done]. apply IH. unfold fits_buffer. rewrite len_snoc. lia.
Qed.
Lemma push_fits buf c : fits_buffer buf → fits_buffer (push buf c).
Proof.
  unfold push. destruct (Z.ltb_spec (len buf) PRINTF_NTOA_BUFFER_SIZE); [|done].
  unfold fits_buffer. rewrite len_snoc. lia.
Qed.
Lemma removelast_fits buf : fits_buffer buf → fits_buffer (removelast buf).
Proof. unfold fits_buffer. pose proof (len_removelast buf). lia. Qed.
Lemma snoc_fits buf c : (len buf <? PRINTF_NTOA_BUFFER_SIZE) = true → fits_buffer (buf ++ [c]).
Proof. intros H%Z.ltb_lt. unfold fits_buffer. rewrite len_snoc. lia. Qed.
Lemma if_fits (b : bool) x y :
  (b = true → fits_buffer x) → (b = false → fits_buffer y) → fits_buffer (if b then x else y).
Proof. destruct b; auto. Qed.
(** Case analysis over the branches that fill the buffer. *)
Ltac fits_cases := repeat first
  [ assumption | simple apply push_fits | simple apply removelast_fits | simple apply pad_zeros_fits
  | simple apply if_fits; intros ? ].

Lemma ntoa_buffer_fits buf negative base prec width flags :
  fits_buffer buf → fits_buffer (ntoa_buffer buf negative base prec width flags).1.
Proof.
  intros Hb. unfold ntoa_buffer.
  assert (∀ b' w, fits_buffer b' → fits_buffer ((let '(buf, width) := (b', w) in
    let buf := if has flags FLAGS_HASH then
      let buf := if negb (has flags FLAGS_PRECISION) && negb (len buf =? 0) &&
           ((len buf =? prec) || (len buf =? width)) then
          let buf := removelast buf in
          if negb (len buf =? 0) && (base =? 16) then removelast buf else buf
        else buf in
      let buf := if (base =? 16) && negb (has flags FLAGS_UPPERCASE) && (len buf <? PRINTF_NTOA_BUFFER_SIZE)
        then buf ++ [chr "x"]
        else if (base =? 16) && has flags FLAGS_UPPERCASE && (len buf <? PRINTF_NTOA_BUFFER_SIZE)
        then buf ++ [chr "X"]
        else if (base =? 2) && (len buf <? PRINTF_NTOA_BUFFER_SIZE) then buf ++ [chr "b"]
        else buf in
      push buf (chr "0")
    else buf in
    let buf := if negative then push buf (chr "-")
      else if has flags FLAGS_PLUS then push buf (chr "+")
      else if has flags FLAGS_SPACE then push buf (chr " ")
      else buf in (buf, width)).1)) as Hmain.
  { intros b' w Hb'. cbv zeta. simpl fst.
    assert (∀ b2, fits_buffer b2 → fits_buffer (if negative then push b2 (chr "-")
      else if has flags FLAGS_PLUS then push b2 (chr "+")
      else if has flags FLAGS_SPACE then push b2 (chr " ") else b2)) as Hsign
      by (intros b2 H2; fits_cases).
    apply Hsign, if_fits; [|auto]. intros _. apply push_fits.
    set (b3 := if negb (has flags FLAGS_PRECISION) && _ && _ then _ else _).
    assert (fits_buffer b3) by (unfold b3; cbv zeta; fits_cases).
    fits_cases; apply snoc_fits;
      match goal with H : _ && (_ <? _) = true |- _ => apply andb_true_iff in H; apply H end. }
  destruct (negb (has flags FLAGS_LEFT)); apply Hmain; [|done].
  fits_cases.
Qed.

Lemma ntoa_digits_fits fuel value base flags buf :
  len buf < PRINTF_NTOA_BUFFER_SIZE → fits_buffer (ntoa_digits fuel value base flags buf).
Proof.
  revert value buf. induction fuel as [|fuel IH]; intros value buf Hb; simpl; [unfold fits_buffer; lia|].
  destruct (Z.ltb_spec (len (buf ++ [digit_char flags (value mod base)])) PRINTF_NTOA_BUFFER_SIZE);
    rewrite ?andb_true_r, ?andb_false_r.
  - destruct (negb _); [by apply IH|unfold fits_buffer; lia].
  - unfold fits_buffer. rewrite len_snoc. lia.
Qed.

(** ** Digits *)
Definition digit_val (c : Z) : Z := if c <=? 57 then c - 48 else if c <=? 90 then c - 55 else c - 87.
Definition parse_digits (base : Z) (ds : list Z) : Z := fold_left (λ acc d, acc * base + digit_val d) ds 0.

Lemma digit_val_char flags d : 0 ≤ d < 16 → digit_val (digit_char flags d) = d.
Proof.
  intros Hd. unfold digit_val, digit_char.
  change (chr "0") with 48. change (chr "A") with 65. change (chr "a") with 97.
  destruct (Z.ltb_spec d 10).
  - destruct (Z.leb_spec (48 + d) 57); lia.
  - destruct (has flags FLAGS_UPPERCASE).
    + destruct (Z.leb_spec (65 + d - 10) 57), (Z.leb_spec (65 + d - 10) 90); lia.
    + destruct (Z.leb_spec (97 + d - 10) 57), (Z.leb_spec (97 + d - 10) 90); lia.
Qed.

Lemma digit_char_byte flags d : 0 ≤ d < 16 → 0 < digit_char flags d < 256.
Proof.
  intros Hd. unfold digit_char. change (chr "0") with 48. change (chr "A") with 65.
  change (chr "a") with 97. destruct (Z.ltb_spec d 10); [lia|]. destruct (has _ _); lia.
Qed.

Lemma digit_char_nonzero flags d : 0 < d < 16 → digit_char flags d ≠ chr "0".
Proof.
  intros Hd H. apply (f_equal digit_val) in H. rewrite digit_val_char in H by lia.
  change (digit_val (chr "0")) with 0 in H. lia.
Qed.

Lemma parse_digits_snoc base ds d : parse_digits base (ds ++ [d]) = parse_digits base ds * base + digit_val d.
Proof. unfold parse_digits. by rewrite fold_left_app. Qed.

Lemma ntoa_digits_spec fuel value base flags buf :
  2 ≤ base ≤ 16 → 0 ≤ value < base ^ Z.of_nat fuel → len buf + Z.of_nat fuel = 32 → (0 < fuel)%nat →
  ∃ ds, ntoa_digits fuel value base flags buf = buf ++ ds ∧ parse_digits base (rev ds) = value ∧
    ds ≠ [] ∧ (value ≠ 0 → hd 0 (rev ds) ≠ chr "0") ∧ (value = 0 → ds = [chr "0"]) ∧
    Forall (λ c, 0 < c < 256) ds.
Proof.
  intros Hbase. revert value buf. induction fuel as [|fuel IH]; intros value buf Hv Hl Hf; [lia|].
  cbn [ntoa_digits]. pose proof (Z.mod_pos_bound value base ltac:(lia)) as Hm.
  pose proof (Z.div_mod value base ltac:(lia)) as Hdm.
  rewrite Nat2Z.inj_succ, Z.pow_succ_r in Hv by lia.
  assert (0 ≤ value / base < base ^ Z.of_nat fuel) as Hq.
  { split; [apply Z.div_pos; lia|]. apply Z.div_lt_upper_bound; lia. }
  destruct (Z.eqb_spec (value / base) 0) as [H0|H0]; simpl.
  - exists [digit_char flags (value mod base)]. split; [done|]. simpl.
    assert (value mod base = value) as Hmv by lia. rewrite Hmv. split_and!; [|done|..].
    + unfold parse_digits. simpl. apply digit_val_char. lia.
    + intros Hne. apply digit_char_nonzero. lia.
    + intros ->. done.
    + constructor; [apply digit_char_byte; lia|done].
  - assert (0 < fuel)%nat as Hf' by (destruct fuel; [simpl in Hq; lia|lia]).
    unfold PRINTF_NTOA_BUFFER_SIZE. rewrite len_snoc.
    destruct (Z.ltb_spec (len buf + 1) 32); [|lia].
    destruct (IH (value / base) (buf ++ [digit_char flags (value mod base)])) as (ds & Hds & Hp & Hne & Hh & _ & Hall);
      [done|rewrite len_snoc; lia|done|].
    exists (digit_char flags (value mod base) :: ds). rewrite Hds. rewrite <- app_assoc.
    split; [done|]. simpl. rewrite parse_digits_snoc, Hp, digit_val_char by lia.
    split; [lia|]. split; [done|]. split_and!.
    + intros _. specialize (Hh H0). destruct (rev ds) eqn:E; [|exact Hh].
      apply (f_equal length) in E. rewrite length_rev in E. by destruct ds.
    + intros ->. rewrite Z.div_0_l in H0 by lia. done.
    + constructor; [apply digit_char_byte; lia|done].
Qed.

(** ** Every byte goes through the output function *)
Section output.
Context {S : Type} (rd : S → Z → Z) (out : Z → Z → Z → M S unit) (sfuel : nat) (I : S → Prop) (maxlen : Z).
Hypothesis out_keeps : ∀ c idx, 0 ≤ idx → keeps I (out c idx maxlen) (λ _, True).

Lemma inc_nonneg idx : 0 ≤ inc idx.
Proof. apply w64_range. Qed.

Lemma emit_keeps cs idx : 0 ≤ idx → keeps I (emit out cs idx maxlen) (λ i, 0 ≤ i).
Proof.
  revert idx. induction cs as [|c cs IH]; intros idx Hi; simpl; [by apply keeps_ret|].
  eapply keeps_bind; [by apply out_keeps|]. intros _ _. apply IH, inc_nonneg.
Qed.

Lemma if_keeps {A} (b : bool) (m1 m2 : M S A) Q :
  keeps I m1 Q → keeps I m2 Q → keeps I (if b then m1 else m2) Q.
Proof. by destruct b. Qed.

Lemma spaces_keeps n idx : 0 ≤ idx → keeps I (spaces out n idx maxlen) (λ i, 0 ≤ i).
Proof. apply emit_keeps. Qed.

Lemma out_rev_keeps idx buf width flags :
  0 ≤ idx → keeps I (_out_rev out idx maxlen buf width flags) (λ i, 0 ≤ i).
Proof.
  intros Hi. unfold _out_rev. apply (keeps_bind I _ _ (λ i, 0 ≤ i)).
  { apply if_keeps; [by apply spaces_keeps|by apply keeps_ret]. }
  intros i Hi'. apply (keeps_bind I _ _ (λ i, 0 ≤ i)); [by apply emit_keeps|].
  intros j Hj. apply if_keeps; [by apply spaces_keeps|by apply keeps_ret].
Qed.

Lemma ntoa_long_keeps idx value neg base prec width flags :
  0 ≤ idx → keeps I (_ntoa_long out idx maxlen value neg base prec width flags) (λ i, 0 ≤ i).
Proof.
  intros Hi. unfold _ntoa_long, _ntoa_format.
  destruct (ntoa_buffer _ _ _ _ _ _) as [buf w]. by apply out_rev_keeps.
Qed.

Definition idx_ok (r : Z * list Z) : Prop := 0 ≤ r.1.

Lemma va_arg_keeps va : keeps I (va_arg va) (λ _, True).
Proof. by destruct va. Qed.

Lemma fmt_int_keeps c flags width prec idx va :
  0 ≤ idx → keeps I (fmt_int out c flags width prec idx maxlen va) idx_ok.
Proof.
  intros Hi. unfold fmt_int. apply if_keeps; [by apply keeps_ret|].
  eapply keeps_bind; [apply va_arg_keeps|]. intros [a va'] _.
  apply (keeps_bind I _ _ (λ i, 0 ≤ i)); [|intros i Hi'; by apply keeps_ret].
  repeat simple apply if_keeps; by apply ntoa_long_keeps.
Qed.

Lemma fmt_char_keeps flags width idx va :
  0 ≤ idx → keeps I (fmt_char out flags width idx maxlen va) idx_ok.
Proof.
  intros Hi. unfold fmt_char. apply (keeps_bind I _ _ (λ i, 0 ≤ i)).
  { apply if_keeps; [by apply spaces_keeps|by apply keeps_ret]. }
  intros i Hi'. eapply keeps_bind; [apply va_arg_keeps|]. intros [a va'] _.
  eapply keeps_bind; [by apply out_keeps|]. intros _ _.
  apply (keeps_bind I _ _ (λ i, 0 ≤ i)); [|intros j Hj; by apply keeps_ret].
  apply if_keeps; [apply spaces_keeps, inc_nonneg|apply keeps_ret, inc_nonneg].
Qed.

Lemma emit_string_keeps fuel p flags prec idx :
  0 ≤ idx → keeps I (emit_string rd out fuel p flags prec idx maxlen) (λ i, 0 ≤ i).
Proof.
  revert p prec idx. induction fuel as [|fuel IH]; intros p prec idx Hi; simpl; [apply keeps_nofuel|].
  eapply keeps_bind; [apply keeps_gets|]. intros c _. apply if_keeps; [|by apply keeps_ret].
  eapply keeps_bind; [by apply out_keeps|]. intros _ _. apply IH, inc_nonneg.
Qed.

Lemma fmt_string_keeps flags width prec idx va :
  0 ≤ idx → keeps I (fmt_string rd out sfuel flags width prec idx maxlen va) idx_ok.
Proof.
  intros Hi. unfold fmt_string. eapply keeps_bind; [apply va_arg_keeps|]. intros [p va'] _.
  apply (keeps_bind I _ _ (λ _, True)).
  { intros s Hs. by destruct (_strnlen_s _ _ _ _ _ _). }
  intros l _. apply (keeps_bind I _ _ (λ i, 0 ≤ i)).
  { apply if_keeps; [by apply spaces_keeps|by apply keeps_ret]. }
  intros i Hi'. apply (keeps_bind I _ _ (λ i, 0 ≤ i)); [by apply emit_string_keeps|].
  intros j Hj. apply (keeps_bind I _ _ (λ i, 0 ≤ i)); [|intros k Hk; by apply keeps_ret].
  apply if_keeps; [by apply spaces_keeps|by apply keeps_ret].
Qed.

Lemma fmt_pointer_keeps flags prec idx va :
  0 ≤ idx → keeps I (fmt_pointer out flags prec idx maxlen va) idx_ok.
Proof.
  intros Hi. unfold fmt_pointer. eapply keeps_bind; [apply va_arg_keeps|]. intros [a va'] _.
  apply (keeps_bind I _ _ (λ i, 0 ≤ i)); [by apply ntoa_long_keeps|].
  intros i Hi'. by apply keeps_ret.
Qed.

Lemma conversion_keeps fmt idx va :
  0 ≤ idx → keeps I (conversion rd out sfuel fmt idx maxlen va) (λ r, 0 ≤ r.1.2).
Proof.
  intros Hi. unfold conversion. destruct (parse_flags 0 fmt) as [flags fmt1].
  eapply keeps_bind; [apply keeps_from_opt|]. intros [[[f2 w] fmt2] va2] _.
  eapply keeps_bind; [apply keeps_from_opt|]. intros [[[f3 p] fmt3] va3] _.
  destruct (parse_length f3 fmt3) as [f4 [|c fmt4]]; [apply keeps_fault|].
  apply (keeps_bind I _ _ idx_ok); [|intros [i va4] Hi'; by apply keeps_ret].
  apply if_keeps; [by apply fmt_int_keeps|]. apply if_keeps; [by apply fmt_char_keeps|].
  apply if_keeps; [by apply fmt_string_keeps|]. apply if_keeps; [by apply fmt_pointer_keeps|].
  eapply keeps_bind; [by apply out_keeps|]. intros _ _. apply keeps_ret, inc_nonneg.
Qed.

Lemma loop_keeps fuel fmt idx va :
  0 ≤ idx → keeps I (vsnprintf_loop rd out sfuel fuel fmt idx maxlen va) (λ i, 0 ≤ i).
Proof.
  revert fmt idx va. induction fuel as [|fuel IH]; intros [|c fmt] idx va Hi; simpl;
    [by apply keeps_ret|apply keeps_nofuel|by apply keeps_ret|].
  apply if_keeps.
  - eapply keeps_bind; [by apply out_keeps|]. intros _ _. apply IH, inc_nonneg.
  - eapply keeps_bind; [by apply conversion_keeps|]. intros [[f i] v] Hi'. by apply IH.
Qed.
End output.

(** ** The loop always has enough fuel *)
Ltac suffix_steps := first [assumption | reflexivity | apply suffix_cons_r; suffix_steps].

Lemma atoi_suffix i fmt : (_atoi i fmt).2 `suffix_of` fmt.
Proof.
  revert i. induction fmt as [|c r IH]; intros i; simpl; [done|].
  destruct (_is_digit c); simpl; [|done]. by apply suffix_cons_r.
Qed.
Lemma parse_flags_suffix flags fmt : (parse_flags flags fmt).2 `suffix_of` fmt.
Proof.
  revert flags. induction fmt as [|c r IH]; intros flags; simpl; [done|].
  repeat case_match; simpl; try done; by apply suffix_cons_r.
Qed.
Lemma parse_width_suffix flags fmt va f w fmt' va' :
  parse_width flags fmt va = Some (f, w, fmt', va') → fmt' `suffix_of` fmt.
Proof.
  unfold parse_width. destruct fmt as [|c r]; [naive_solver|].
  pose proof (atoi_suffix 0 (c :: r)) as Hl. destruct (_is_digit c).
  - destruct (_atoi 0 (c :: r)). simpl in *. naive_solver.
  - destruct (c =? chr "*"); [|naive_solver]. destruct va as [|a va]; [done|].
    destruct (s32 a <? 0); intros [= <- <- <- <-]; suffix_steps.
Qed.
Lemma parse_precision_suffix flags fmt va f w fmt' va' :
  parse_precision flags fmt va = Some (f, w, fmt', va') → fmt' `suffix_of` fmt.
Proof.
  unfold parse_precision. destruct fmt as [|c r]; [naive_solver|].
  destruct (c =? chr "."); [|naive_solver]. destruct r as [|c' r].
  { intros [= <- <- <- <-]. suffix_steps. }
  pose proof (atoi_suffix 0 (c' :: r)) as Hl. destruct (_is_digit c').
  - destruct (_atoi 0 (c' :: r)). simpl in *. intros [= <- <- <- <-]. by apply suffix_cons_r.
  - destruct (c' =? chr "*"); [destruct va as [|a va]; [done|]|]; intros [= <- <- <- <-]; suffix_steps.
Qed.
Lemma parse_length_suffix flags fmt : (parse_length flags fmt).2 `suffix_of` fmt.
Proof. unfold parse_length. repeat case_match; simpl; suffix_steps. Qed.

(** The computation does not run out of fuel, and a result is in [Q]. *)
Definition ends {S A} (m : M S A) (Q : A → Prop) : Prop :=
  ∀ s, match m s with Ok (a, _) => Q a | NoFuel => False | _ => True end.

Section ends.
Context {S : Type} (rd : S → Z → Z) (out : Z → Z → Z → M S unit) (sfuel : nat).
Hypothesis out_ends : ∀ c idx maxlen, ends (out c idx maxlen) (λ _, True).
Definition any {A} (a : A) : Prop := True.

Lemma ends_bind {A B} (m : M S A) (f : A → M S B) R Q :
  ends m R → (∀ a, R a → ends (f a) Q) → ends (mbind_ m f) Q.
Proof.
  intros Hm Hf s. unfold mbind_. specialize (Hm s). destruct (m s) as [[a s']| | |]; [by apply Hf|done..].
Qed.
Lemma ends_ret {A} (a : A) (Q : A → Prop) : Q a → ends (S := S) (mret_ a) Q.
Proof. by intros HQ s. Qed.
Lemma ends_opt {A B} (o : option A) (f : A → M S B) Q :
  (∀ a, o = Some a → ends (f a) Q) → ends (mbind_ (from_opt o) f) Q.
Proof. destruct o as [a|]; intros H; [by apply H|done]. Qed.
Lemma ends_if {A} (b : bool) (m1 m2 : M S A) Q : ends m1 Q → ends m2 Q → ends (if b then m1 else m2) Q.
Proof. by destruct b. Qed.
Lemma emit_ends cs idx maxlen : ends (emit out cs idx maxlen) any.
Proof.
  revert idx. induction cs as [|c cs IH]; intros idx; simpl; [done|].
  eapply ends_bind; [apply out_ends|]. auto.
Qed.
Lemma va_arg_ends va : ends (S := S) (va_arg va) any.
Proof. by destruct va. Qed.

Ltac ends_steps := repeat first
  [ simple apply emit_ends | simple apply va_arg_ends | apply ends_ret; exact Logic.I
  | simple apply ends_if | simple apply (ends_bind _ _ any); [|intros ? _]
  | simple apply (ends_bind _ _ (λ _, True)); [simple apply out_ends|intros ? _] ].

Lemma ntoa_long_ends idx maxlen value neg base prec width flags :
  ends (_ntoa_long out idx maxlen value neg base prec width flags) any.
Proof.
  unfold _ntoa_long, _ntoa_format, _out_rev, spaces. destruct (ntoa_buffer _ _ _ _ _ _). ends_steps.
Qed.
Lemma fmt_int_ends c flags width prec idx maxlen va : ends (fmt_int out c flags width prec idx maxlen va) any.
Proof.
  unfold fmt_int. cbv zeta. apply ends_if; [done|]. eapply ends_bind; [apply va_arg_ends|].
  intros [a va'] _. apply (ends_bind _ _ any); [|done]. repeat simple apply ends_if; apply ntoa_long_ends.
Qed.
Lemma fmt_char_ends flags width idx maxlen va : ends (fmt_char out flags width idx maxlen va) any.
Proof.
  unfold fmt_char, spaces. apply (ends_bind _ _ any); [ends_steps|]. intros i _.
  eapply ends_bind; [apply va_arg_ends|]. intros [a va'] _.
  apply (ends_bind _ _ (λ _, True)); [apply out_ends|]. intros _ _. ends_steps.
Qed.
Lemma fmt_pointer_ends flags prec idx maxlen va : ends (fmt_pointer out flags prec idx maxlen va) any.
Proof.
  unfold fmt_pointer. eapply ends_bind; [apply va_arg_ends|]. intros [a va'] _.
  apply (ends_bind _ _ any); [apply ntoa_long_ends|done].
Qed.

(** A conversion other than [%s] finishes, and the rest of the format is a
    suffix of what it was given. *)
Lemma conversion_ends fmt idx maxlen va :
  chr "s" ∉ fmt → ends (conversion rd out sfuel fmt idx maxlen va) (λ r, r.1.1 `suffix_of` fmt).
Proof.
  intros Hs. unfold conversion. pose proof (parse_flags_suffix 0 fmt) as H1.
  destruct (parse_flags 0 fmt) as [flags fmt1]. simpl in H1.
  apply ends_opt. intros [[[f2 w] fmt2] va2] H2%parse_width_suffix.
  apply ends_opt. intros [[[f3 p] fmt3] va3] H3%parse_precision_suffix.
  pose proof (parse_length_suffix f3 fmt3) as H4.
  destruct (parse_length f3 fmt3) as [f4 [|c fmt4]]; [done|]. simpl in H4.
  assert (c :: fmt4 `suffix_of` fmt) as Hc by (etrans; [exact H4|]; etrans; [exact H3|]; by etrans).
  destruct (Z.eqb_spec c (chr "s")) as [->|Hne].
  { destruct Hs. destruct Hc as [k ->]. apply elem_of_app. right. by apply elem_of_cons; left. }
  apply (ends_bind _ _ any).
  - apply ends_if; [apply fmt_int_ends|]. apply ends_if; [apply fmt_char_ends|].
    apply ends_if; [apply fmt_pointer_ends|].
    apply (ends_bind _ _ (λ _, True)); [apply out_ends|]. intros _ _. by apply ends_ret.
  - intros [i v] _. apply ends_ret. simpl. by apply suffix_cons_l in Hc.
Qed.

Lemma loop_ends fuel fmt idx maxlen va :
  chr "s" ∉ fmt → (length fmt ≤ fuel)%nat → ends (vsnprintf_loop rd out sfuel fuel fmt idx maxlen va) any.
Proof.
  revert fmt idx va. induction fuel as [|fuel IH]; intros [|c fmt] idx va Hs Hf; simpl in *; try done; [lia|].
  apply not_elem_of_cons in Hs as [_ Hs]. apply ends_if.
  - apply (ends_bind _ _ (λ _, True)); [apply out_ends|]. intros _ _. apply IH; [done|lia].
  - eapply ends_bind; [by apply conversion_ends|]. intros [[f i] v] Hf'. simpl in Hf'. apply IH.
    + intros H. apply Hs. destruct Hf' as [k ->]. apply elem_of_app. by right.
    + apply suffix_length in Hf'. lia.
Qed.
End ends.

(** ** Strings written by the buffer function *)
Fixpoint put_bytes (m : mem) (a : Z) (cs : list Z) : mem :=
  match cs with
  | [] => m
  | c :: cs' => put_bytes (st8 m a c) (a + 1) cs'
  end.

Lemma ld8_put_bytes_ne m a cs x : x < a ∨ a + len cs ≤ x → ld8 (put_bytes m a cs) x = ld8 m x.
Proof.
  revert m a. induction cs as [|c cs IH]; intros m a Hx; simpl; [done|].
  unfold len in *. simpl in Hx. rewrite IH by lia. apply ld8_st8_ne. lia.
Qed.

Lemma put_bytes_cstr m a cs : Forall (λ c, 0 < c < 256) cs → cstr (st8 (put_bytes m a cs) (a + len cs) 0) a cs.
Proof.
  intros Hc. revert m a. induction Hc as [|c cs Hb Hc IH]; intros m a; simpl.
  - unfold len. simpl. by rewrite Z.add_0_r, ld8_st8_eq.
  - split; [lia|]. replace (a + len (c :: cs)) with (a + 1 + len cs) by (unfold len; simpl; lia).
    split; [|apply IH]. pose proof (len_nonneg cs).
    rewrite ld8_st8_ne, ld8_put_bytes_ne, ld8_st8_eq by lia. apply w8_small. lia.
Qed.

Lemma emit_buffer b cs idx maxlen m :
  0 ≤ idx → idx + len cs ≤ maxlen → maxlen < 2 ^ 64 →
  emit (_out_buffer b) cs idx maxlen m = Ok (idx + len cs, put_bytes m (b + idx) cs).
Proof.
  revert idx m. induction cs as [|c cs IH]; intros idx m Hi Hl Hm; simpl.
  - unfold len. simpl. by rewrite Z.add_0_r.
  - unfold len in *. simpl in Hl. unfold mbind_, _out_buffer at 1.
    destruct (Z.ltb_spec idx maxlen); [|lia]. simpl. unfold inc. rewrite w64_small by lia.
    rewrite IH by lia. do 2 f_equal; [lia|]. by rewrite Z.add_assoc.
Qed.

Lemma out_buffer_keeps b count m c idx maxlen :
  0 ≤ idx → maxlen = count →
  keeps (λ m', ∀ a, ¬ (b ≤ a < b + count) → ld8 m' a = ld8 m a) (_out_buffer b c idx maxlen) (λ _, True).
Proof.
  intros Hi -> m' Hm'. unfold _out_buffer. destruct (Z.ltb_spec idx count); simpl; [|done].
  split; [|done]. intros a Ha. rewrite ld8_st8_ne by lia. by apply Hm'.
Qed.

(** The base and the flags of the unsigned conversions of a [long]. *)
Definition base_of (c : Z) : Z :=
  if (c =? chr "x") || (c =? chr "X") then 16 else if c =? chr "o" then 8 else 10.
Definition unsigned_conv (c : Z) : Prop := c ∈ [chr "u"; chr "x"; chr "X"; chr "o"].

(** ** The properties *)

(** C34: [vsnprintf_] writes nothing outside the [count] bytes of its buffer,
    whatever the format and the arguments, and leaves a terminating NUL inside
    it; with a format that has no [%s] it always comes to an end (with a
    result, or with a [Fault] when the format or the arguments run short). *)
Theorem vsnprintf_bounded (sfuel : nat) (buffer count : Z) (fmt va : list Z) (m : mem)
    (Hb : buffer ≠ 0) (Hc : 0 < count < 2 ^ 64) :
  (chr "s" ∉ fmt → vsnprintf_ sfuel buffer count fmt va m ≠ NoFuel) ∧
  ∀ n m', vsnprintf_ sfuel buffer count fmt va m = Ok (n, m') →
    (∀ a, ¬ (buffer ≤ a < buffer + count) → ld8 m' a = ld8 m a) ∧
    ∃ k, 0 ≤ k < count ∧ ld8 m' (buffer + k) = 0.
Proof.
  assert ((buffer =? 0) = false) as E by by apply Z.eqb_neq. unfold vsnprintf_, _vsnprintf.
  rewrite E. split.
  - intros Hs. assert (ends (vsnprintf_loop ld8 (_out_buffer buffer) sfuel (length fmt) fmt 0 count va) any)
      as Hends.
    { apply loop_ends; [|done|done]. intros c i l m'. unfold _out_buffer. by destruct (i <? l). }
    specialize (Hends m). unfold mbind_. destruct (vsnprintf_loop _ _ _ _ _ _ _ _ m) as [[i m1]| | |]; try done.
    unfold _out_buffer. by repeat case_match.
  - intros n m' Hrun.
    pose proof (loop_keeps ld8 (_out_buffer buffer) sfuel
      (λ m', ∀ a, ¬ (buffer ≤ a < buffer + count) → ld8 m' a = ld8 m a) count
      (λ c idx Hi, out_buffer_keeps buffer count m c idx count Hi eq_refl) (length fmt) fmt 0 va ltac:(lia)
      m (λ a _, eq_refl)) as Hk.
    unfold mbind_ in Hrun. destruct (vsnprintf_loop _ _ _ _ _ _ _ _ m) as [[i m1]| | |]; try done.
    destruct Hk as [Hk Hi]. set (k := if i <? count then i else w64 (count - 1)) in *.
    assert (0 ≤ k < count) as Hkr.
    { unfold k. destruct (Z.ltb_spec i count); [lia|]. rewrite w64_small; lia. }
    unfold _out_buffer in Hrun. destruct (Z.ltb_spec k count); [|lia]. simpl in Hrun.
    injection Hrun as <- <-. split.
    + intros a Ha. rewrite ld8_st8_ne by lia. by apply Hk.
    + exists k. split; [done|]. by rewrite ld8_st8_eq.
Qed.

(** whatever the flags, the width, the precision, the base and the value,
    the conversion of an integer stays inside the 32 bytes of the local buffer
    of [_ntoa_long]. *)
Theorem ntoa_buffer_bounded (value base flags prec width : Z) (negative : bool) :
  len (ntoa_buffer (ntoa_buf value base flags) negative base prec width flags).1 ≤ PRINTF_NTOA_BUFFER_SIZE.
Proof.
  apply ntoa_buffer_fits. unfold ntoa_buf. apply if_fits; intros _.
  - by apply ntoa_digits_fits.
  - by unfold fits_buffer.
Qed.

Lemma pad_zeros_none fuel buf : pad_zeros fuel 0 buf = buf.
Proof.
  destruct fuel; cbn [pad_zeros]; [done|].
  destruct (Z.ltb_spec (len buf) 0); [pose proof (len_nonneg buf); lia|done].
Qed.

Definition unsigned_flags (c : Z) : Z := if c =? chr "X" then Z.lor FLAGS_LONG FLAGS_UPPERCASE else FLAGS_LONG.

#[local] Opaque _ntoa_long w64 w32.
Lemma conversion_unsigned {S} (rd : S → Z → Z) out sfuel c v maxlen s :
  unsigned_conv c →
  conversion rd out sfuel [chr "l"; c] 0 maxlen [v] s =
  mbind_ (_ntoa_long out 0 maxlen (w64 v) false (base_of c) 0 0 (unsigned_flags c))
    (λ i, mret_ ([], i, [])) s.
Proof.
  intros Hc. unfold unsigned_conv in Hc.
  assert (∀ m : M S Z, (mbind_ (mbind_ m (λ i, mret_ (i, [] : list Z)))
    (λ r, let '(i, va) := r in mret_ ([] : list Z, i, va))) s = mbind_ m (λ i, mret_ ([], i, [])) s) as Hassoc.
  { intros m. unfold mbind_. by destruct (m s) as [[]| | |]. }
  repeat (apply elem_of_cons in Hc as [->|Hc]; [rewrite <- Hassoc; reflexivity|]).
  by apply not_elem_of_nil in Hc.
Qed.
#[local] Transparent _ntoa_long w64 w32.

(** What one unsigned conversion emits. *)
Lemma unsigned_plain c v b count m sfuel :
  unsigned_conv c → 0 ≤ v < 2 ^ 64 → 32 < count < 2 ^ 64 → b ≠ 0 →
  ∃ flags, vsnprintf_ sfuel b count [chr "%"; chr "l"; c] [v] m =
    let ds := rev (ntoa_digits 32 v (base_of c) flags []) in
    Ok (len ds, st8 (put_bytes m b ds) (b + len ds) 0).
Proof.
  intros Hc Hv Hcount Hb. assert ((b =? 0) = false) as E by by apply Z.eqb_neq.
  unfold vsnprintf_, _vsnprintf. rewrite E.
  exists (unsigned_flags c). set (flags := unsigned_flags c).
  set (ds := rev (ntoa_digits 32 v (base_of c) flags [])). cbv zeta.
  assert (len ds ≤ 32) as Hds.
  { unfold ds, len. rewrite length_rev. apply (ntoa_digits_fits 32 v (base_of c) flags []). done. }
  assert (vsnprintf_loop ld8 (_out_buffer b) sfuel 3 [chr "%"; chr "l"; c] 0 count [v] m =
    Ok (len ds, put_bytes m b ds)) as Hloop.
  { assert (_ntoa_long (_out_buffer b) 0 count (w64 v) false (base_of c) 0 0 flags m =
      Ok (len ds, put_bytes m b ds)) as Hn.
    { rewrite w64_small by done. unfold _ntoa_long, _ntoa_format.
      assert ((if v =? 0 then clear flags FLAGS_HASH else flags) = flags) as ->.
      { destruct (v =? 0); [|done]. unfold flags, unsigned_flags. by destruct (c =? chr "X"). }
      assert (ntoa_buf v (base_of c) flags = rev ds) as ->.
      { unfold ds. rewrite rev_involutive. unfold ntoa_buf.
        assert (has flags FLAGS_PRECISION = false) as -> by (unfold flags, unsigned_flags; by destruct (c =? chr "X")). done. }
      assert (ntoa_buffer (rev ds) false (base_of c) 0 0 flags = (rev ds, 0)) as ->.
      { transitivity (pad_zeros 32 0 (rev ds), 0); [|by rewrite pad_zeros_none].
        unfold flags, unsigned_flags. destruct (c =? chr "X"); reflexivity. }
      assert (0 - len (rev ds) ≤ 0) as Hneg by (pose proof (len_nonneg (rev ds)); lia).
      unfold _out_rev, spaces. replace (Z.to_nat (0 - len (rev ds))) with 0%nat by lia.
      assert (has flags FLAGS_LEFT = false ∧ has flags FLAGS_ZEROPAD = false) as [-> ->]
        by (unfold flags, unsigned_flags; destruct (c =? chr "X"); done).
      unfold mbind_, mret_. simpl. rewrite rev_involutive, emit_buffer by lia.
      by rewrite Z.add_0_r. }
    change (vsnprintf_loop ld8 (_out_buffer b) sfuel 3 [chr "%"; chr "l"; c] 0 count [v] m) with
      (mbind_ (conversion ld8 (_out_buffer b) sfuel [chr "l"; c] 0 count [v])
        (λ r, let '(fmt', idx, va) := r in vsnprintf_loop ld8 (_out_buffer b) sfuel 2 fmt' idx count va) m).
    unfold mbind_ at 1. rewrite conversion_unsigned by done. fold flags. unfold mbind_ at 1. by rewrite Hn. }
  unfold mbind_. change (length [chr "%"; chr "l"; c]) with 3%nat. rewrite Hloop.
  pose proof (len_nonneg ds).
  unfold _out_buffer. destruct (Z.ltb_spec (len ds) count); [|lia].
  destruct (Z.ltb_spec (len ds) count); [|lia]. simpl. rewrite s32_small by lia. done.
Qed.


Lemma vsnprintf_bounded_witness :
  (∀ n m', vsnprintf_ 10 4096 8 (bytes "pid %d exited") [42] ∅ = Ok (n, m') → ld8 m' 5000 = ld8 ∅ 5000) ∧
  match vsnprintf_ 10 4096 8 (bytes "pid %d exited") [42] ∅ with Ok (n, _) => n = 13 | _ => False end.
Proof.
  split; [|vm_compute; reflexivity]. intros n m' H.
  apply (proj1 (proj2 (vsnprintf_bounded 10 4096 8 (bytes "pid %d exited") [42] ∅ ltac:(lia) ltac:(lia)) n m' H)).
  lia.
Defined.

