(* ===== verification/Sched.v ===== *)
(** Tasks and the scheduler: [kernel/sched.c], [kernel/exit.c] and
    [kernel/fork.c].

    The task structures live in a store indexed by their address, linked as in
    the code through [next]/[prev] (the ring of runnable tasks) and
    [children]/[sibling] (the process tree).  A NULL or dangling pointer is a
    [Fault].  What the scheduler needs from the memory manager is an interface
    ([TaskOps]).

    A task that has called [schedule_sleep] resumes, when it is switched to
    again, behind that call; [pending] records which kernel function its saved
    stack is in. *)

From S2P Require Import Prelude.

Definition PREEMPT_TICK_COUNT : Z := 10.
Definition TASK_FILE_MAX : Z := 16.
Definition KERNEL_STACK_SIZE : Z := 8192.

Inductive task_state := TASK_RUNNING | TASK_SLEEPING | TASK_WAITING | TASK_ZOMBIE.
#[export] Instance task_state_eq_dec : EqDecision task_state.
Proof. solve_decision. Defined.

(** The registers of [struct regs] that the C code writes. *)
Record regs := Regs { rax : Z; rip : Z; rsp : Z; others : list Z }.
Definition set_rax (r : regs) (v : Z) : regs := Regs v (rip r) (rsp r) (others r).

(** Where the saved kernel stack of a task continues. *)
Inductive pending := Nothing | InWait.

Record task_struct := Task {
  pid : Z; state : task_state; exit_status : Z;
  task_regs : regs; task_mm : Z;
  stack_bottom : Z; stack_top : Z; sp : Z;
  next : Z; prev : Z;
  parent : Z; children : Z; sibling : Z;
  fdtab : list Z; alive_ticks : Z;
  resume : pending;
}.

Definition zero_task : task_struct :=
  Task 0 TASK_RUNNING 0 (Regs 0 0 0 []) 0 0 0 0 0 0 0 0 0 (replicate 16 0) 0 Nothing.

Definition set_pid v t := let 'Task a b c d e f g h i j k l m n o p := t in Task v b c d e f g h i j k l m n o p.
Definition set_state v t := let 'Task a b c d e f g h i j k l m n o p := t in Task a v c d e f g h i j k l m n o p.
Definition set_exit_status v t := let 'Task a b c d e f g h i j k l m n o p := t in Task a b v d e f g h i j k l m n o p.
Definition set_regs v t := let 'Task a b c d e f g h i j k l m n o p := t in Task a b c v e f g h i j k l m n o p.
Definition set_mm v t := let 'Task a b c d e f g h i j k l m n o p := t in Task a b c d v f g h i j k l m n o p.
Definition set_stack vb vt vs t :=
  let 'Task a b c d e f g h i j k l m n o p := t in Task a b c d e vb vt vs i j k l m n o p.
Definition set_sp v t := let 'Task a b c d e f g h i j k l m n o p := t in Task a b c d e f g v i j k l m n o p.
Definition set_next v t := let 'Task a b c d e f g h i j k l m n o p := t in Task a b c d e f g h v j k l m n o p.
Definition set_prev v t := let 'Task a b c d e f g h i j k l m n o p := t in Task a b c d e f g h i v k l m n o p.
Definition set_parent v t := let 'Task a b c d e f g h i j k l m n o p := t in Task a b c d e f g h i j v l m n o p.
Definition set_children v t := let 'Task a b c d e f g h i j k l m n o p := t in Task a b c d e f g h i j k v m n o p.
Definition set_sibling v t := let 'Task a b c d e f g h i j k l m n o p := t in Task a b c d e f g h i j k l v n o p.
Definition set_fdtab v t := let 'Task a b c d e f g h i j k l m n o p := t in Task a b c d e f g h i j k l m v o p.
Definition set_alive_ticks v t := let 'Task a b c d e f g h i j k l m n o p := t in Task a b c d e f g h i j k l m n v p.
Definition set_resume v t := let 'Task a b c d e f g h i j k l m n o p := t in Task a b c d e f g h i j k l m n o v.

(** [struct file] *)
Record file := File { ops : Z; ino : Z; refcnt : Z }.
Definition set_refcnt v f := let 'File a b _ := f in File a b v.

(** What the memory manager offers: [kcalloc(1, n)], [free], [mm_dupe],
    [mm_free], and the top-level table of an [mm]. *)
Class TaskOps (St : Type) := {
  t_kcalloc : Z → M St Z;
  t_free : Z → M St unit;
  t_mm_dupe : Z → M St Z;
  t_mm_free : Z → M St unit;
  t_mm_p4 : St → Z → Z;
}.

Section sched.
Context {St : Type} {TO : TaskOps St}.

Record sched := Sched {
  env : St;
  tasks : gmap Z task_struct;
  files : gmap Z file;
  current : Z; proc_root : Z; next_pid : Z;
  current_task_stack : Z; tss_rsp0 : Z; cr3 : Z;
  cpu_rsp : Z;
}.
Definition set_env v s := let 'Sched a b c d e f g h i j := s in Sched v b c d e f g h i j.
Definition set_tasks v s := let 'Sched a b c d e f g h i j := s in Sched a v c d e f g h i j.
Definition set_files v s := let 'Sched a b c d e f g h i j := s in Sched a b v d e f g h i j.
Definition set_current v s := let 'Sched a b c d e f g h i j := s in Sched a b c v e f g h i j.
Definition set_next_pid v s := let 'Sched a b c d e f g h i j := s in Sched a b c d e v g h i j.
Definition set_cpu vk vr vc vs s :=
  let 'Sched a b c d e f g h i j := s in Sched a b c d e f vk vr vc vs.

Definition in_env {A} (m : M St A) : M sched A := λ s,
  match m (env s) with
  | Ok (a, e) => Ok (a, set_env e s)
  | Panic msg => Panic msg
  | Fault => Fault
  | NoFuel => NoFuel
  end.

(** Reading and writing a field of the task that [t] points to. *)
Definition tget {A} (f : task_struct → A) (t : Z) : M sched A := λ s,
  match tasks s !! t with Some x => Ok (f x, s) | None => Fault end.
Definition tset (f : task_struct → task_struct) (t : Z) : M sched unit := λ s,
  match tasks s !! t with Some x => Ok (tt, set_tasks (<[t := f x]> (tasks s)) s) | None => Fault end.

(** ** [kernel/sched.c] *)

(** [switch_to_asm] pushes six registers on the old stack and pops six from the
    new one. *)
Definition switch_to (t : Z) : M sched unit :=
  let* current_old := gets current in
  modify (set_current t) ;;*
  let* old_pid := tget pid current_old in
  let* cur_pid := tget pid t in
  if old_pid =? cur_pid then panic "kernel bug: switch to same process" else
  let* stop := tget stack_top t in
  let* rsp := tget sp t in
  let* x := tget task_mm t in
  let* old_rsp := gets cpu_rsp in
  modify (λ s, set_cpu stop rsp (t_mm_p4 (env s) x) (rsp + 48) s) ;;*
  tset (set_sp (old_rsp - 48)) current_old.

Definition tree_insert_proc (par t : Z) : M sched unit :=
  tset (set_parent par) t ;;*
  let* ch := tget children par in
  (if negb (ch =? 0) then let* sib := tget sibling ch in tset (set_sibling sib) t
   else tset (set_sibling 0) t) ;;*
  tset (set_children t) par.

Definition sched_rr_insert_proc (t : Z) : M sched unit :=
  let* c := gets current in
  let* n := tget next c in
  tset (set_next n) t ;;*
  tset (set_prev c) t ;;*
  let* n := tget next c in
  tset (set_prev t) n ;;*
  tset (set_next t) c.

Definition sched_rr_remove_proc (t : Z) : M sched unit :=
  let* p := tget prev t in
  let* n := tget next t in
  tset (set_next n) p ;;*
  let* n := tget next t in
  let* p := tget prev t in
  tset (set_prev p) n ;;*
  tset (set_next 0) t ;;*
  tset (set_prev 0) t.

Definition schedule : M sched unit :=
  let* c := gets current in
  tset (set_alive_ticks 0) c ;;*
  let* n := tget next c in
  if c =? n then mret_ tt else switch_to n.

Definition schedule_sleep : M sched unit :=
  let* c := gets current in
  tset (set_alive_ticks 0) c ;;*
  let* n := tget next c in
  sched_rr_remove_proc c ;;*
  switch_to n.

Definition sched_maybe_preempt : M sched unit :=
  let* c := gets current in
  let* ticks := tget alive_ticks c in
  tset (set_alive_ticks (w64 (ticks + 1))) c ;;*
  if ticks <? PREEMPT_TICK_COUNT then mret_ tt else schedule.

(** The files a task holds: drop one reference each, free at zero. *)
Fixpoint close_files (fds : list Z) : M sched unit :=
  match fds with
  | [] => mret_ tt
  | fd :: fds' =>
      (if fd =? 0 then mret_ tt else
       let* fs := gets files in
       match fs !! fd with
       | None => fault
       | Some f =>
           let f := set_refcnt (s32 (refcnt f - 1)) f in
           if refcnt f =? 0
           then modify (set_files (delete fd fs)) ;;* in_env (t_free fd)
           else modify (set_files (<[fd := f]> fs))
       end) ;;*
      close_files fds'
  end.

Definition task_free (t : Z) : M sched unit :=
  let* x := tget task_mm t in
  in_env (t_mm_free x) ;;*
  let* st := tget stack_bottom t in
  in_env (t_free st) ;;*
  let* fds := tget fdtab t in
  close_files fds ;;*
  in_env (t_free t) ;;*
  modify (λ s, set_tasks (delete t (tasks s)) s).

(** ** [kernel/fork.c] *)
Definition sizeof_task_struct : Z := 232.
Definition sizeof_fork_frame : Z := 7 * 8 + 17 * 8.

(** [kcalloc(1, sizeof(struct task_struct))]: a zeroed task at a new address;
    an allocator that answers the address of a live task is a [Fault]. *)
Definition alloc_task : M sched Z :=
  let* t := in_env (t_kcalloc sizeof_task_struct) in
  let* ts := gets tasks in
  if decide (t = 0 ∨ is_Some (ts !! t)) then fault else
  modify (set_tasks (<[t := zero_task]> ts)) ;;* mret_ t.

Definition init_task_stack (t : Z) : M sched unit :=
  let* bottom := in_env (t_kcalloc KERNEL_STACK_SIZE) in
  let top := bottom + KERNEL_STACK_SIZE in
  tset (set_stack bottom top (top - sizeof_fork_frame)) t.

Fixpoint share_files (fds : list Z) : M sched unit :=
  match fds with
  | [] => mret_ tt
  | fd :: fds' =>
      (if fd =? 0 then mret_ tt else
       let* fs := gets files in
       match fs !! fd with
       | None => fault
       | Some f => modify (set_files (<[fd := set_refcnt (s32 (refcnt f + 1)) f]> fs))
       end) ;;*
      share_files fds'
  end.

Definition do_fork (t : Z) : M sched Z :=
  let* new := alloc_task in
  tset (set_state TASK_RUNNING) new ;;*
  let* x := tget task_mm t in
  let* x' := in_env (t_mm_dupe x) in
  tset (set_mm x') new ;;*
  let* p := gets next_pid in
  tset (set_pid p) new ;;*
  modify (set_next_pid (w32 (p + 1))) ;;*
  let* fds := tget fdtab t in
  share_files fds ;;*
  tset (set_fdtab fds) new ;;*
  init_task_stack new ;;*
  let* r := tget task_regs t in
  tset (set_regs (set_rax r 0)) new ;;*
  mret_ new.

Definition sched_fork (t : Z) : M sched Z :=
  let* new := do_fork t in
  sched_rr_insert_proc new ;;*
  tree_insert_proc t new ;;*
  tget pid new.

(** ** [kernel/exit.c] *)

(** The first zombie on the list of siblings, or NULL. *)
Fixpoint find_zombie (fuel : nat) (child : Z) : M sched Z :=
  match fuel with
  | O => nofuel
  | S fuel' =>
      if child =? 0 then mret_ 0 else
      let* st := tget state child in
      if decide (st = TASK_ZOMBIE) then mret_ child else
      let* sib := tget sibling child in
      find_zombie fuel' sib
  end.

(** One round of [do_wait]: [Some (wstatus, pid)] when it returns, [None] when
    the task went to sleep; it tries again when it is resumed. *)
Definition do_wait (t : Z) : M sched (option (Z * Z)) :=
  let* n := gets (λ s, size (tasks s)) in
  let* ch := tget children t in
  let* child := find_zombie (S n) ch in
  if child =? 0 then
    let* c := gets current in
    tset (set_state TASK_WAITING) c ;;*
    tset (set_resume InWait) c ;;*
    schedule_sleep ;;*
    mret_ None
  else
    let* wstatus := tget exit_status t in
    let* ret := tget pid child in
    task_free child ;;*
    tset (set_resume Nothing) t ;;*
    mret_ (Some (wstatus, ret)).

Definition do_exit (t status : Z) : M sched unit :=
  tset (set_state TASK_ZOMBIE) t ;;*
  tset (set_exit_status status) t ;;*
  let* par := tget parent t in
  let* pst := tget state par in
  (if decide (pst = TASK_WAITING) then
     sched_rr_insert_proc par ;;* tset (set_state TASK_RUNNING) par
   else mret_ tt) ;;*
  schedule_sleep.
End sched.
Arguments sched St : clear implicits.

(** ** The ring of runnable tasks *)
Abbreviation store := (gmap Z task_struct).

Definition nxt (ts : store) (t : Z) : option Z := next <$> ts !! t.
Definition prv (ts : store) (t : Z) : option Z := prev <$> ts !! t.
Definition linked (ts : store) (x y : Z) : Prop := nxt ts x = Some y ∧ prv ts y = Some x.

(** [x] leads through [l] to [y]. *)
Fixpoint path (ts : store) (x : Z) (l : list Z) (y : Z) : Prop :=
  match l with
  | [] => linked ts x y
  | z :: l' => linked ts x z ∧ path ts z l' y
  end.

(** The runnable tasks in order, [c] first. *)
Definition ring (ts : store) (c : Z) (r : list Z) : Prop := NoDup (c :: r) ∧ path ts c r c.

(** A task without what the scheduler changes: its ring links, its saved stack
    pointer and its tick count. *)
Definition strip (t : task_struct) : task_struct :=
  set_next 0 (set_prev 0 (set_sp 0 (set_alive_ticks 0 t))).
Definition same_tasks (ts ts' : store) : Prop := ∀ t, strip <$> ts' !! t = strip <$> ts !! t.

(** ** What the scheduler wraps *)
Lemma wp_in_env {E A} (m : M E A) (s : sched E) (Q : A → sched E → Prop) :
  wp m (env s) (λ a e, Q a (set_env e s)) → wp (in_env m) s Q.
Proof. unfold wp, in_env. by destruct (m (env s)) as [[]| | |]. Qed.
Lemma env_set {E} (e : E) (s : sched E) : env (set_env e s) = e.
Proof. by destruct s. Qed.
Lemma set_env_twice {E} (e e' : E) (s : sched E) : set_env e (set_env e' s) = set_env e s.
Proof. by destruct s. Qed.
Lemma set_env_same {E} (s : sched E) : set_env (env s) s = s.
Proof. by destruct s. Qed.
Lemma tasks_set_env {E} (e : E) (s : sched E) : tasks (set_env e s) = tasks s.
Proof. by destruct s. Qed.
Lemma current_set_env {E} (e : E) (s : sched E) : current (set_env e s) = current s.
Proof. by destruct s. Qed.

Section ring.
Implicit Types (ts : store) (l r : list Z).

Lemma nxt_set_next ts t v x :
  is_Some (ts !! t) → nxt (alter (set_next v) t ts) x = if decide (t = x) then Some v else nxt ts x.
Proof.
  intros [y Hy]. unfold nxt. rewrite lookup_alter. case_decide as Hx; [|done].
  subst x. rewrite Hy. by destruct y.
Qed.
Lemma prv_set_prev ts t v x :
  is_Some (ts !! t) → prv (alter (set_prev v) t ts) x = if decide (t = x) then Some v else prv ts x.
Proof.
  intros [y Hy]. unfold prv. rewrite lookup_alter. case_decide as Hx; [|done].
  subst x. rewrite Hy. by destruct y.
Qed.

(** Updates of other fields keep the links. *)
Lemma nxt_alter f ts t x : (∀ y, next (f y) = next y) → nxt (alter f t ts) x = nxt ts x.
Proof.
  intros Hf. unfold nxt. rewrite lookup_alter. case_decide as Heq; [subst|done]. destruct (ts !! x); [|done].
  simpl. by rewrite Hf.
Qed.
Lemma prv_alter f ts t x : (∀ y, prev (f y) = prev y) → prv (alter f t ts) x = prv ts x.
Proof.
  intros Hf. unfold prv. rewrite lookup_alter. case_decide as Heq; [subst|done]. destruct (ts !! x); [|done].
  simpl. by rewrite Hf.
Qed.
Lemma same_alter f ts t : (∀ y, strip (f y) = strip y) → same_tasks ts (alter f t ts).
Proof.
  intros Hf u. rewrite lookup_alter. case_decide as Heq; [subst|done]. destruct (ts !! u); [|done].
  simpl. by rewrite Hf.
Qed.
Lemma same_tasks_trans ts1 ts2 ts3 : same_tasks ts1 ts2 → same_tasks ts2 ts3 → same_tasks ts1 ts3.
Proof. intros H1 H2 t. by rewrite H2, H1. Qed.
Lemma same_tasks_some ts ts' t : same_tasks ts ts' → is_Some (ts !! t) → is_Some (ts' !! t).
Proof. intros Hs [x Hx]. specialize (Hs t). rewrite Hx in Hs. destruct (ts' !! t); [eauto|done]. Qed.

(** A field that [strip] keeps. *)
Lemma same_tasks_field {A} (f : task_struct → A) ts ts' t :
  same_tasks ts ts' → (∀ y, f (strip y) = f y) → f <$> ts' !! t = f <$> ts !! t.
Proof.
  intros Hs Hf. specialize (Hs t). destruct (ts' !! t), (ts !! t); simpl in *; try done.
  injection Hs as Hs. by rewrite <- (Hf t0), Hs, Hf.
Qed.

Lemma is_Some_alter f (ts : store) t x : is_Some (alter f t ts !! x) ↔ is_Some (ts !! x).
Proof. rewrite lookup_alter. case_decide as Heq; [subst|done]. apply fmap_is_Some. Qed.

Lemma path_ext ts ts' x l y :
  path ts x l y → (∀ u, u ∈ x :: l → nxt ts' u = nxt ts u) →
  (∀ u, u ∈ l ++ [y] → prv ts' u = prv ts u) → path ts' x l y.
Proof.
  revert x. induction l as [|z l IH]; intros x; simpl.
  - intros [H1 H2] Hn Hp. split; [rewrite Hn|rewrite Hp]; set_solver.
  - intros [[H1 H2] Hl] Hn Hp. split; [split; [rewrite Hn|rewrite Hp]; set_solver|].
    apply IH; [done|..]; intros u Hu; [apply Hn|apply Hp]; set_solver.
Qed.

Lemma path_snoc ts x l z y : path ts x (l ++ [z]) y ↔ path ts x l z ∧ linked ts z y.
Proof. revert x. induction l as [|u l IH]; intros x; simpl; [done|]. rewrite IH. tauto. Qed.

Lemma path_head ts x l y : path ts x l y → nxt ts x = Some (hd y l).
Proof. destruct l; simpl; [by intros [? _]|by intros [[? _] _]]. Qed.

Lemma path_last ts x l y : path ts x l y → l ≠ [] → ∃ l' z, l = l' ++ [z] ∧ prv ts y = Some z.
Proof.
  intros Hp Hne. destruct l as [|z l _] using rev_ind; [done|].
  apply path_snoc in Hp as [_ [_ Hz]]. by exists l, z.
Qed.

Lemma path_some ts x l y u : path ts x l y → u ∈ x :: l → is_Some (ts !! u).
Proof.
  revert x. induction l as [|z l IH]; intros x; simpl.
  - intros [H1 _] ->%list_elem_of_singleton. unfold nxt in H1. by destruct (ts !! x).
  - intros [[H1 _] Hl] [->|Hu]%elem_of_cons; [|by eapply IH].
    unfold nxt in H1. by destruct (ts !! x).
Qed.

Lemma ring_some ts c r u : ring ts c r → u ∈ c :: r → is_Some (ts !! u).
Proof. intros [_ Hp]. by eapply path_some. Qed.

(** Inserting behind the head. *)
Lemma ring_insert ts c r t n :
  ring ts c r → t ∉ c :: r → is_Some (ts !! t) → nxt ts c = Some n →
  let ts' := alter (set_next t) c (alter (set_prev t) n (alter (set_prev c) t (alter (set_next n) t ts))) in
  ring ts' c (t :: r) ∧ same_tasks ts ts'.
Proof.
  intros Hr Ht Hst Hn ts'. pose proof Hr as [Hnd Hp].
  pose proof (path_head _ _ _ _ Hp) as Hh. rewrite Hn in Hh. injection Hh as Hh.
  assert (n ∈ c :: r) as Hnr by (rewrite Hh; destruct r; simpl; set_solver).
  assert (t ≠ c ∧ t ≠ n) as [Htc Htn] by (split; intros ->; set_solver).
  assert (∀ x, nxt ts' x = if decide (c = x) then Some t else if decide (t = x) then Some n else nxt ts x) as Hnx.
  { intros x. unfold ts'. rewrite nxt_set_next by (rewrite !is_Some_alter; eapply ring_some; [done|set_solver]).
    case_decide; [done|]. rewrite !nxt_alter by by intros []. by rewrite nxt_set_next. }
  assert (∀ x, prv ts' x = if decide (n = x) then Some t else if decide (t = x) then Some c else prv ts x) as Hpx.
  { intros x. unfold ts'. rewrite prv_alter by by intros [].
    rewrite prv_set_prev by (rewrite !is_Some_alter; by eapply ring_some).
    case_decide; [done|]. rewrite prv_set_prev by by rewrite is_Some_alter.
    case_decide; [done|]. by rewrite prv_alter by by intros []. }
  split.
  - split; [apply list.NoDup_cons in Hnd as [? ?]; apply list.NoDup_cons; split; [set_solver|];
            apply list.NoDup_cons; set_solver|].
    simpl. split; [split; [by rewrite Hnx, decide_True by done|]|].
    { rewrite Hpx, decide_False, decide_True by congruence. done. }
    destruct r as [|z r]; simpl in *; subst n.
    + split; [by rewrite Hnx, decide_False, decide_True by congruence|by rewrite Hpx, decide_True by done].
    + destruct Hp as [_ Hp]. split.
      * split; [by rewrite Hnx, decide_False, decide_True by congruence|by rewrite Hpx, decide_True by done].
      * rewrite !list.NoDup_cons in Hnd. eapply path_ext; [exact Hp|..].
        -- intros u Hu. rewrite Hnx, !decide_False; [done|set_solver..].
        -- intros u Hu. rewrite Hpx, !decide_False; [done|set_solver..].
  - unfold ts'. repeat (eapply same_tasks_trans; [|apply same_alter; by intros []]). by intros u.
Qed.

(** Going round: the head moves to the end. *)
Lemma ring_rotate ts c n r : ring ts c (n :: r) → ring ts n (r ++ [c]).
Proof.
  intros [Hnd [Hl Hp]]. split.
  - rewrite !list.NoDup_cons in Hnd. rewrite app_comm_cons. apply list.NoDup_app. rewrite list.NoDup_cons.
    split; [tauto|]. split; [|apply list.NoDup_singleton].
    intros x Hx ->%list_elem_of_singleton. by destruct Hnd as [Hc _].
  - by apply path_snoc.
Qed.

(** Taking the head out of a ring of several tasks. *)
Lemma ring_remove ts c n r p :
  ring ts c (n :: r) → prv ts c = Some p →
  let ts' := alter (set_prev 0) c (alter (set_next 0) c (alter (set_prev p) n (alter (set_next n) p ts))) in
  ring ts' n r ∧ same_tasks ts ts' ∧ p ∈ n :: r.
Proof.
  intros Hr Hpc ts'. pose proof Hr as [Hnd [Hcn Hp]]. rewrite list.NoDup_cons in Hnd.
  assert (∃ l, n :: r = l ++ [p]) as [l Hlz].
  { destruct (path_last ts c (n :: r) c) as (l & z & Hlz & Hz); [by split|done|].
    rewrite Hpc in Hz. injection Hz as ->. by exists l. }
  assert (is_Some (ts !! p) ∧ is_Some (ts !! n) ∧ is_Some (ts !! c)) as (Hsp & Hsn & Hsc).
  { assert (∀ u, u ∈ c :: n :: r → is_Some (ts !! u)) as Hsome by (intros u; by apply (ring_some ts c)).
    split_and!; apply Hsome; [rewrite Hlz|..]; set_solver. }
  assert (p ≠ c ∧ n ≠ c) as [Hne Hnc] by (split; intros ->; [rewrite Hlz in Hnd|]; set_solver).
  assert (∀ x, x ≠ c → nxt ts' x = if decide (p = x) then Some n else nxt ts x) as Hnx.
  { intros x Hx. unfold ts'. rewrite nxt_alter by by intros [].
    rewrite nxt_set_next by by rewrite !is_Some_alter. rewrite decide_False by done.
    rewrite nxt_alter by by intros []. by rewrite nxt_set_next. }
  assert (∀ x, x ≠ c → prv ts' x = if decide (n = x) then Some p else prv ts x) as Hpx.
  { intros x Hx. unfold ts'. rewrite prv_set_prev by by rewrite !is_Some_alter.
    rewrite decide_False by done. rewrite prv_alter by by intros [].
    rewrite prv_set_prev by by rewrite !is_Some_alter.
    case_decide; [done|]. by rewrite prv_alter by by intros []. }
  split; [split; [tauto|]|split].
  - destruct r as [|z r _] using rev_ind.
    + destruct l as [|? [|? ?]]; simpl in Hlz; try done. injection Hlz as <-.
      split; [by rewrite Hnx, decide_True|by rewrite Hpx, decide_True].
    + rewrite app_comm_cons in Hlz. apply app_inj_tail in Hlz as [_ ->].
      apply path_snoc in Hp as [Hp _]. apply path_snoc. destruct Hnd as [Hc Hnd].
      rewrite app_comm_cons in Hnd. apply list.NoDup_app in Hnd as (Hnd1 & Hnd2 & _).
      split.
      * eapply path_ext; [exact Hp|..].
        -- intros u Hu. rewrite Hnx, decide_False; [done|..]; intros ->.
           ++ by apply (Hnd2 u), list_elem_of_singleton.
           ++ set_solver.
        -- intros u Hu. rewrite Hpx, decide_False; [done|..]; intros ->.
           ++ apply list.NoDup_cons in Hnd1 as [Hn1 _].
              apply elem_of_app in Hu as [?|Hu%list_elem_of_singleton]; [done|]. subst p.
              apply (Hnd2 u); [by left|by left].
           ++ set_solver.
      * split; [by rewrite Hnx, decide_True|by rewrite Hpx, decide_True].
  - unfold ts'. repeat (eapply same_tasks_trans; [|apply same_alter; by intros []]). by intros u.
  - rewrite Hlz. set_solver.
Qed.
End ring.

Section steps.
Context {St : Type} {TO : TaskOps St}.
Implicit Types (s : sched St) (ts : store) (r : list Z).

Lemma insert_alter f ts t x : ts !! t = Some x → <[t := f x]> ts = alter f t ts.
Proof.
  intros Hx. apply map_eq. intros u. rewrite lookup_insert, lookup_alter.
  case_decide as Heq; [subst u; by rewrite Hx|done].
Qed.

Lemma wp_tget {A} (f : task_struct → A) t s x Q :
  tasks s !! t = Some x → Q (f x) s → wp (tget f t) s Q.
Proof. intros Hx HQ. unfold wp, tget. by rewrite Hx. Qed.
Lemma wp_tset f t s Q :
  is_Some (tasks s !! t) → Q tt (set_tasks (alter f t (tasks s)) s) → wp (tset f t) s Q.
Proof. intros [x Hx] HQ. unfold wp, tset. rewrite Hx. by rewrite (insert_alter f _ _ _ Hx). Qed.
Lemma wp_next t s n Q : nxt (tasks s) t = Some n → Q n s → wp (tget next t) s Q.
Proof. unfold nxt. intros Hn HQ. destruct (tasks s !! t) eqn:E; [|done]. injection Hn as <-. by eapply wp_tget. Qed.
Lemma wp_prev t s n Q : prv (tasks s) t = Some n → Q n s → wp (tget prev t) s Q.
Proof. unfold prv. intros Hn HQ. destruct (tasks s !! t) eqn:E; [|done]. injection Hn as <-. by eapply wp_tget. Qed.
Lemma wlp_tget {A} (f : task_struct → A) t s Q :
  (∀ x, tasks s !! t = Some x → Q (f x) s) → wlp (tget f t) s Q.
Proof. intros HQ. unfold wlp, tget. destruct (tasks s !! t); [by apply HQ|done]. Qed.
Lemma wlp_tset f t s Q :
  (is_Some (tasks s !! t) → Q tt (set_tasks (alter f t (tasks s)) s)) → wlp (tset f t) s Q.
Proof.
  intros HQ. unfold wlp, tset. destruct (tasks s !! t) as [x|] eqn:E; [|done].
  rewrite (insert_alter f _ _ _ E). apply HQ. eauto.
Qed.

Lemma tasks_set ts s : tasks (set_tasks ts s) = ts.
Proof. by destruct s. Qed.
Lemma current_set ts s : current (set_tasks ts s) = current s.
Proof. by destruct s. Qed.
Lemma set_tasks_twice ts ts' s : set_tasks ts (set_tasks ts' s) = set_tasks ts s.
Proof. by destruct s. Qed.
Lemma set_tasks_same s : set_tasks (tasks s) s = s.
Proof. by destruct s. Qed.

(** A state with another store of tasks. *)
Definition only_tasks s s' : Prop := s' = set_tasks (tasks s') s.

Lemma sched_rr_insert_ok s r t :
  ring (tasks s) (current s) r → t ∉ current s :: r → is_Some (tasks s !! t) →
  wp (sched_rr_insert_proc t) s (λ _ s', only_tasks s s' ∧
    ring (tasks s') (current s) (t :: r) ∧ same_tasks (tasks s) (tasks s')).
Proof.
  intros Hr Ht Hst.
  set (c := current s) in *. set (n := hd c r) in *.
  assert (nxt (tasks s) c = Some n) as Hn by apply (path_head _ _ _ _ (proj2 Hr)).
  assert (n ∈ c :: r) as Hnr by (unfold n; destruct r; simpl; set_solver).
  assert (is_Some (tasks s !! c) ∧ is_Some (tasks s !! n)) as [Hsc Hsn]
    by (split; eapply ring_some; try done; set_solver).
  assert (t ≠ c) as Htc by (intros ->; set_solver).
  unfold sched_rr_insert_proc. wp_steps. fold c. eapply wp_next; [exact Hn|].
  wp_steps. apply wp_tset; [done|]. wp_steps. apply wp_tset.
  { by rewrite tasks_set, is_Some_alter. }
  wp_steps. eapply wp_next.
  { rewrite !tasks_set, nxt_alter by by intros []. rewrite nxt_set_next by done. by rewrite decide_False. }
  wp_steps. apply wp_tset; [by rewrite !tasks_set, !is_Some_alter|].
  apply wp_tset; [by rewrite !tasks_set, !is_Some_alter|].
  rewrite !tasks_set, !set_tasks_twice.
  destruct (ring_insert (tasks s) c r t n Hr Ht Hst Hn) as [Hr' Hsame].
  split; [unfold only_tasks; by rewrite tasks_set|]. split; [exact Hr'|exact Hsame].
Qed.

Lemma sched_rr_remove_ok s n r :
  ring (tasks s) (current s) (n :: r) →
  wp (sched_rr_remove_proc (current s)) s (λ _ s', only_tasks s s' ∧
    ring (tasks s') n r ∧ same_tasks (tasks s) (tasks s')).
Proof.
  intros Hr. set (c := current s) in *.
  destruct (path_last (tasks s) c (n :: r) c) as (l & p & Hl & Hp); [by apply Hr|done|].
  assert (nxt (tasks s) c = Some n) as Hn by apply (path_head _ _ _ _ (proj2 Hr)).
  assert (p ∈ n :: r) as Hpr by (rewrite Hl; set_solver).
  assert (is_Some (tasks s !! c) ∧ is_Some (tasks s !! n) ∧ is_Some (tasks s !! p)) as (Hsc & Hsn & Hsp)
    by (split_and!; eapply ring_some; try done; set_solver).
  assert (p ≠ c ∧ n ≠ c) as [Hpc Hnc].
  { destruct Hr as [Hnd _]. apply list.NoDup_cons in Hnd as [Hnd _]. split; intros ->; set_solver. }
  unfold sched_rr_remove_proc. wp_steps. eapply wp_prev; [exact Hp|].
  wp_steps. eapply wp_next; [exact Hn|]. wp_steps. apply wp_tset; [done|].
  wp_steps. eapply wp_next.
  { rewrite tasks_set, nxt_set_next by done. by rewrite decide_False. }
  wp_steps. eapply wp_prev.
  { rewrite tasks_set, prv_alter by by intros []. exact Hp. }
  wp_steps. apply wp_tset; [by rewrite tasks_set, is_Some_alter|].
  wp_steps. apply wp_tset; [by rewrite !tasks_set, !is_Some_alter|].
  apply wp_tset; [by rewrite !tasks_set, !is_Some_alter|].
  rewrite !tasks_set, !set_tasks_twice.
  destruct (ring_remove (tasks s) c n r p Hr Hp) as (Hr' & Hsame & _).
  split; [unfold only_tasks; by rewrite tasks_set|]. split; [exact Hr'|exact Hsame].
Qed.

(** Updates of other fields keep the ring. *)
Definition link_free (f : task_struct → task_struct) : Prop :=
  ∀ y, next (f y) = next y ∧ prev (f y) = prev y.

Lemma ring_alter ts f t c r : link_free f → ring ts c r → ring (alter f t ts) c r.
Proof.
  intros Hf [Hnd Hp]. split; [done|]. eapply path_ext; [exact Hp|..]; intros u _.
  - apply nxt_alter. apply Hf.
  - apply prv_alter. apply Hf.
Qed.
Lemma ring_same ts ts' c r :
  (∀ u, nxt ts' u = nxt ts u) → (∀ u, prv ts' u = prv ts u) → ring ts c r → ring ts' c r.
Proof. intros Hn Hp [Hnd H]. split; [done|]. eapply path_ext; eauto. Qed.

(** What a switch does: the processor state, and the saved stack pointer. *)
Definition switched s n s' : Prop :=
  current s' = n ∧ env s' = env s ∧ files s' = files s ∧ next_pid s' = next_pid s ∧
  tasks s' = alter (set_sp (cpu_rsp s - 48)) (current s) (tasks s) ∧ n ≠ current s ∧
  (∀ t, tasks s !! n = Some t →
     current_task_stack s' = stack_top t ∧ tss_rsp0 s' = sp t ∧ cr3 s' = t_mm_p4 (env s) (task_mm t)).

Lemma switch_to_ok s n x y :
  tasks s !! current s = Some x → tasks s !! n = Some y →
  wpp (switch_to n) s (λ _ s', switched s n s') (pid x = pid y).
Proof.
  intros Hx Hy. destruct s as [e ts fs c pr np k0 k1 k2 k3]. simpl in Hx, Hy.
  unfold wpp, switch_to, mbind_, gets, modify, tget, tset. simpl. rewrite Hx. simpl. rewrite Hy. simpl.
  destruct (Z.eqb_spec (pid x) (pid y)); [done|]. simpl. rewrite Hy. simpl. rewrite Hy. simpl.
  rewrite Hy. simpl. rewrite Hx. simpl. unfold switched. simpl. rewrite <- (insert_alter _ _ _ _ Hx).
  do 5 (split; [done|]). split; [intros ->; by simplify_eq|]. intros t Ht. by simplify_eq.
Qed.

Definition pid_of ts t : option Z := pid <$> ts !! t.

Lemma set_ticks_free v : link_free (set_alive_ticks v).
Proof. by intros []. Qed.
Lemma set_sp_free v : link_free (set_sp v).
Proof. by intros []. Qed.
Lemma set_state_free v : link_free (set_state v).
Proof. by intros []. Qed.

Lemma pid_alter ts f t u : (∀ y, pid (f y) = pid y) → pid_of (alter f t ts) u = pid_of ts u.
Proof.
  intros Hf. unfold pid_of. rewrite lookup_alter. case_decide as Heq; [subst|done].
  destruct (ts !! u); [|done]. simpl. by rewrite Hf.
Qed.
Lemma pid_same ts ts' u : same_tasks ts ts' → pid_of ts' u = pid_of ts u.
Proof. intros Hs. apply (same_tasks_field pid ts ts' u Hs). by intros []. Qed.

Lemma ring_present ts c n r :
  ring ts c (n :: r) → nxt ts c = Some n ∧ is_Some (ts !! c) ∧ is_Some (ts !! n) ∧ c ≠ n.
Proof.
  intros Hr. split; [apply (path_head _ _ _ _ (proj2 Hr))|].
  split; [eapply ring_some; [done|set_solver]|]. split; [eapply ring_some; [done|set_solver]|].
  destruct Hr as [Hnd _]. apply list.NoDup_cons in Hnd as [Hnd _]. intros ->. set_solver.
Qed.

(** Resetting the tick count, the first statement of both schedulers. *)
Lemma reset_ticks_ok s c r :
  ring (tasks s) c r → is_Some (tasks s !! c) →
  wp (tset (set_alive_ticks 0) c) s (λ _ s', current s' = current s ∧ ring (tasks s') c r ∧
    same_tasks (tasks s) (tasks s')).
Proof.
  intros Hr Hc. apply wp_tset; [done|]. rewrite current_set, tasks_set. split; [done|].
  split; [by apply ring_alter; [apply set_ticks_free|]|]. apply same_alter. by intros [].
Qed.

Lemma same_alter_after ts ts' f t :
  (∀ y, strip (f y) = strip y) → same_tasks ts ts' → same_tasks ts (alter f t ts').
Proof. intros Hf Hs. eapply same_tasks_trans; [exact Hs|]. by apply same_alter. Qed.

(** [schedule] moves the running task to the end of the ring. *)
Lemma schedule_ok s n r :
  ring (tasks s) (current s) (n :: r) →
  wpp schedule s (λ _ s', current s' = n ∧ ring (tasks s') n (r ++ [current s]) ∧
    same_tasks (tasks s) (tasks s')) (pid_of (tasks s) (current s) = pid_of (tasks s) n).
Proof.
  intros Hr. set (c := current s) in *. destruct (ring_present _ _ _ _ Hr) as (Hn & Hsc & _ & Hcn).
  unfold schedule. apply (wpp_bind _ _ _ (λ a s', a = c ∧ s' = s)); [by apply wp_gets|].
  intros ? ? [-> ->]. eapply wpp_bind; [by apply (reset_ticks_ok s c (n :: r))|].
  intros _ s1 (Hc1 & Hr1 & Hs1). destruct (ring_present _ _ _ _ Hr1) as (Hn1 & [x Hx] & [y Hy] & _).
  apply (wpp_bind _ _ _ (λ a s', a = n ∧ s' = s1)); [by eapply wp_next|].
  intros ? ? [-> ->]. destruct (Z.eqb_spec c n); [done|]. fold c in Hc1.
  eapply wpp_mono; [apply (switch_to_ok s1 n x y); [by rewrite Hc1|done]|..].
  - intros _ s' (Hc & _ & _ & _ & Ht & _). rewrite Hc1 in Ht. rewrite Ht. split; [done|]. split.
    + apply ring_alter; [apply set_sp_free|]. by apply ring_rotate.
    + apply same_alter_after; [by intros []|done].
  - intros He. rewrite <- !(pid_same _ _ _ Hs1). unfold pid_of. rewrite Hx, Hy. simpl. congruence.
Qed.

(** A task that is alone on the ring keeps the processor. *)
Lemma schedule_alone s :
  ring (tasks s) (current s) [] →
  wp schedule s (λ _ s', current s' = current s ∧ ring (tasks s') (current s) [] ∧
    same_tasks (tasks s) (tasks s')).
Proof.
  intros Hr. set (c := current s) in *. assert (is_Some (tasks s !! c)) as Hsc
    by (eapply ring_some; [done|set_solver]).
  unfold schedule. wp_steps. fold c. eapply wp_mono; [by apply (reset_ticks_ok s c [])|].
  intros _ s1 (Hc1 & Hr1 & Hs1). wp_steps. eapply wp_next; [apply (path_head _ _ _ _ (proj2 Hr1))|].
  simpl. rewrite Z.eqb_refl. wp_steps. done.
Qed.

(** [schedule_sleep] takes the running task out of the ring; the last one
    cannot leave. *)
Lemma schedule_sleep_ok s r :
  ring (tasks s) (current s) r →
  wpp schedule_sleep s (λ _ s', ∃ n r', r = n :: r' ∧ current s' = n ∧ ring (tasks s') n r' ∧
    same_tasks (tasks s) (tasks s'))
  (∀ n, head r = Some n → pid_of (tasks s) (current s) = pid_of (tasks s) n).
Proof.
  intros Hr. set (c := current s) in *. set (n := hd c r).
  assert (is_Some (tasks s !! c)) as Hsc by (eapply ring_some; [done|set_solver]).
  unfold schedule_sleep. apply (wpp_bind _ _ _ (λ a s', a = c ∧ s' = s)); [by apply wp_gets|].
  intros ? ? [-> ->]. eapply wpp_bind; [by apply (reset_ticks_ok s c r)|].
  intros _ s1 (Hc1 & Hr1 & Hs1). pose proof (path_head _ _ _ _ (proj2 Hr1)) as Hn1. fold c n in Hc1, Hn1.
  apply (wpp_bind _ _ _ (λ a s', a = n ∧ s' = s1)); [by eapply wp_next|].
  intros ? ? [-> ->]. destruct r as [|n' r'].
  - simpl in n. subst n. apply (wpp_bind _ _ _ (λ _ s', current s' = c ∧ same_tasks (tasks s1) (tasks s'))).
    + destruct Hr1 as [_ [Hn Hp]]. assert (is_Some (tasks s1 !! c)) as Hsc1 by by eapply same_tasks_some.
      unfold sched_rr_remove_proc. wp_steps. eapply wp_prev; [exact Hp|]. wp_steps.
      eapply wp_next; [exact Hn|]. wp_steps. apply wp_tset; [done|]. wp_steps.
      eapply wp_next. { rewrite tasks_set, nxt_set_next by done. by rewrite decide_True. }
      wp_steps. eapply wp_prev. { rewrite tasks_set, prv_alter by by intros []. exact Hp. }
      wp_steps. apply wp_tset; [by rewrite tasks_set, is_Some_alter|].
      wp_steps. apply wp_tset; [by rewrite !tasks_set, !is_Some_alter|].
      apply wp_tset; [by rewrite !tasks_set, !is_Some_alter|].
      rewrite !tasks_set, !set_tasks_twice, current_set. split; [done|].
      repeat (eapply same_tasks_trans; [|apply same_alter; by intros []]). by intros u.
    + intros _ s2 [Hc2 Hs2]. assert (is_Some (tasks s2 !! c)) as [x Hx]
        by (do 2 (eapply same_tasks_some; [done|]); done).
      eapply wpp_mono; [apply (switch_to_ok s2 c x x); [by rewrite Hc2|done]|..]; [|done].
      intros _ s' (_ & _ & _ & _ & _ & Hne & _). by rewrite Hc2 in Hne.
  - simpl in n. subst n.
    eapply wpp_bind; [rewrite <- Hc1 at 1; apply (sched_rr_remove_ok s1 n' r'); by rewrite Hc1|].
    intros _ s2 (Ho & Hr2 & Hs2). assert (current s2 = c) as Hc2 by (rewrite Ho, current_set; done).
    assert (same_tasks (tasks s) (tasks s2)) as Hss by by eapply same_tasks_trans.
    assert (is_Some (tasks s2 !! c) ∧ is_Some (tasks s2 !! n')) as [[x Hx] [y Hy]].
    { split; (eapply same_tasks_some; [exact Hss|]); [done|by apply (ring_present _ _ _ _ Hr)]. }
    eapply wpp_mono; [apply (switch_to_ok s2 n' x y); [by rewrite Hc2|done]|..].
    + intros _ s' (Hc & _ & _ & _ & Ht & _). rewrite Hc2 in Ht. exists n', r'. split; [done|].
      split; [done|]. rewrite Ht. split; [by apply ring_alter; [apply set_sp_free|]|].
      by apply same_alter_after; [by intros []|].
    + intros He ? [= <-]. rewrite <- !(pid_same _ _ _ Hss). unfold pid_of. rewrite Hx, Hy. simpl. congruence.
Qed.

(** ** The invariant of the scheduler *)
Definition state_of ts u : option task_state := state <$> ts !! u.

(** A task that sleeps in the terminal ([w], or 0 when none does) keeps the state
    [TASK_RUNNING] and is not on the ring. *)
Variable w : Z.
Definition parked (ts : store) (l : list Z) : Prop := w ≠ 0 → state_of ts w = Some TASK_RUNNING ∧ w ∉ l.

(** The running task [c] may be in any state; the tasks behind it run. *)
Record ring_inv c r s : Prop := {
  ri_cur : current s = c;
  ri_ring : ring (tasks s) c r;
  ri_run u : u ∈ r → state_of (tasks s) u = Some TASK_RUNNING;
  ri_sib u x : tasks s !! u = Some x → sibling x = 0;
  ri_park : parked (tasks s) (c :: r);
}.

(** The runnable tasks form a ring that starts with the running one, all of
    them are in the state [TASK_RUNNING], and no task has a sibling. *)
Definition sched_inv s : Prop :=
  ∃ r, ring_inv (current s) r s ∧ state_of (tasks s) (current s) = Some TASK_RUNNING.

Lemma state_same ts ts' u : same_tasks ts ts' → state_of ts' u = state_of ts u.
Proof. intros Hs. apply (same_tasks_field state ts ts' u Hs). by intros []. Qed.

Lemma sib_same ts ts' :
  same_tasks ts ts' → (∀ u x, ts !! u = Some x → sibling x = 0) → ∀ u x, ts' !! u = Some x → sibling x = 0.
Proof.
  intros Hs H u x Hx. pose proof (same_tasks_field sibling ts ts' u Hs ltac:(by intros [])) as He.
  rewrite Hx in He. destruct (ts !! u) as [y|] eqn:E; [|done]. injection He as ->. by eapply H.
Qed.

Lemma ring_inv_same c r s c' r' s' :
  ring_inv c r s → current s' = c' → ring (tasks s') c' r' → same_tasks (tasks s) (tasks s') →
  (∀ u, u ∈ r' → state_of (tasks s) u = Some TASK_RUNNING) → (∀ u, u ∈ c' :: r' → u ∈ c :: r ∨ (w ≠ 0 → u ≠ w)) →
  ring_inv c' r' s'.
Proof.
  intros [Hc Hr Hrun Hsib Hpk] Hc' Hr' Hs Hrun' Hin. split; [done|done| |by eapply sib_same|].
  - intros u Hu. rewrite (state_same _ _ _ Hs). auto.
  - intros Hw. destruct (Hpk Hw) as [H1 H2]. split; [by rewrite (state_same _ _ _ Hs)|].
    intros Hu. destruct (Hin _ Hu) as [?|Hne]; [done|]. by apply Hne.
Qed.

(** Updates that touch neither links nor the state nor set a sibling. *)
Definition harmless (f : task_struct → task_struct) : Prop :=
  link_free f ∧ (∀ y, state (f y) = state y) ∧ (∀ y, sibling y = 0 → sibling (f y) = 0).

Lemma ring_inv_alter c r s f t :
  link_free f → (∀ y, sibling y = 0 → sibling (f y) = 0) → (t = c ∨ ∀ y, state (f y) = state y) →
  ring_inv c r s → ring_inv c r (set_tasks (alter f t (tasks s)) s).
Proof.
  intros Hf Hsb Hst [Hc Hr Hrun Hsib Hpk].
  assert (∀ u, u ≠ c → state_of (alter f t (tasks s)) u = state_of (tasks s) u) as Hso.
  { intros u Hu. unfold state_of. rewrite lookup_alter. case_decide as Heq; [subst u|done].
    destruct Hst as [?|Hst]; [done|]. destruct (tasks s !! t); [|done]. simpl. by rewrite Hst. }
  split.
  - by rewrite current_set.
  - rewrite tasks_set. by apply ring_alter.
  - intros u Hu. rewrite tasks_set, Hso; [by apply Hrun|]. intros ->. destruct Hr as [Hnd _]. by apply list.NoDup_cons in Hnd as [? _].
  - intros u x. rewrite tasks_set, lookup_alter. case_decide as Heq; [subst u|apply Hsib].
    destruct (tasks s !! t) as [y|] eqn:E; [|done]. intros [= <-]. by eapply Hsb, Hsib.
  - intros Hw. destruct (Hpk Hw) as [H1 H2]. rewrite tasks_set, Hso; [done|]. intros ->. apply H2. by left.
Qed.

Lemma sched_inv_alter s f t : harmless f → sched_inv s → sched_inv (set_tasks (alter f t (tasks s)) s).
Proof.
  intros (Hf & Hst & Hsb) (r & Hi & Hc). exists r. rewrite current_set.
  split; [apply ring_inv_alter; auto|]. rewrite tasks_set. unfold state_of in *. rewrite lookup_alter.
  case_decide as Heq; [subst|done]. destruct (tasks s !! current s); [|done]. simpl in *. by rewrite Hst.
Qed.

Lemma keeps_tset f t : harmless f → keeps sched_inv (tset (St := St) f t) (λ _, True).
Proof.
  intros Hf s Hs. unfold tset. destruct (tasks s !! t) as [x|] eqn:E; [|done].
  split; [|done]. rewrite (insert_alter f _ _ _ E). by apply sched_inv_alter.
Qed.
Lemma keeps_tget {A} (I : sched St → Prop) (f : task_struct → A) t : keeps I (tget f t) (λ _, True).
Proof. intros s Hs. unfold tget. by destruct (tasks s !! t). Qed.

(** *** Timer ticks *)
Lemma schedule_inv s : sched_inv s → wlp schedule s (λ _ s', sched_inv s').
Proof.
  intros (r & Hi & Hc). pose proof (ri_ring _ _ _ Hi) as Hr. destruct r as [|n r].
  - eapply wp_wlp, wp_mono; [by apply schedule_alone|]. intros _ s' (Hc' & Hr' & Hs). exists [].
    rewrite Hc'. split; [|by rewrite (state_same _ _ _ Hs)].
    eapply (ring_inv_same _ [] s); try done; [by intros u ?%not_elem_of_nil|auto].
  - eapply wpp_wlp, wpp_mono; [by apply schedule_ok| |intros H; exact H].
    intros _ s' (Hc' & Hr' & Hs). exists (r ++ [current s]). rewrite Hc'. split.
    + eapply (ring_inv_same _ (n :: r) s); [done..| |set_solver]. intros u [Hu|Hu%list_elem_of_singleton]%elem_of_app.
      * apply (ri_run _ _ _ Hi). by right.
      * by subst u.
    + rewrite (state_same _ _ _ Hs). apply (ri_run _ _ _ Hi). by left.
Qed.

Lemma preempt_inv s : sched_inv s → wlp sched_maybe_preempt s (λ _ s', sched_inv s').
Proof.
  intros Hs. unfold sched_maybe_preempt. apply wlp_bind, wlp_gets, wlp_bind, wlp_tget. intros x Hx.
  apply wlp_bind, wlp_tset. intros _.
  assert (sched_inv (set_tasks (alter (set_alive_ticks (w64 (alive_ticks x + 1))) (current s) (tasks s)) s)) as Hs'
    by (apply sched_inv_alter; [split; [apply set_ticks_free|by split; intros []]|done]).
  destruct (_ <? _); [by apply wlp_ret|by apply schedule_inv].
Qed.

(** *** Going to sleep *)
Lemma sleep_inv c r s : ring_inv c r s → wlp schedule_sleep s (λ _ s', sched_inv s').
Proof.
  intros Hi. pose proof (ri_cur _ _ _ Hi) as <-.
  eapply wpp_wlp, wpp_mono; [apply schedule_sleep_ok, Hi| |intros H; exact H].
  intros _ s' (n & r' & -> & Hc' & Hr' & Hs). exists r'. rewrite Hc'. split.
  - eapply (ring_inv_same _ (n :: r') s); [done..| |set_solver]. intros u Hu. apply (ri_run _ _ _ Hi). by right.
  - rewrite (state_same _ _ _ Hs). apply (ri_run _ _ _ Hi). by left.
Qed.

(** *** Forking *)
Definition same_view s s' : Prop := current s' = current s ∧ tasks s' = tasks s.

Lemma in_env_wlp {A} (m : M St A) s : wlp (in_env m) s (λ _ s', same_view s s').
Proof. unfold wlp, in_env. destruct (m (env s)) as [[a e]| | |]; [|done..]. by destruct s. Qed.

Lemma share_files_wlp fds s : wlp (share_files fds) s (λ _ s', same_view s s').
Proof.
  revert s. induction fds as [|fd fds IH]; intros s; simpl; [done|].
  apply wlp_bind. apply (wlp_mono _ _ (λ _ s', same_view s s')).
  - destruct (fd =? 0); [done|]. apply wlp_bind, wlp_gets. destruct (files s !! fd); [|done].
    apply wlp_modify. by destruct s.
  - intros _ s1 [H1 H2]. eapply wlp_mono; [apply IH|]. intros _ s2 [H3 H4]. split; congruence.
Qed.

Lemma close_files_wlp fds s : wlp (close_files fds) s (λ _ s', same_view s s').
Proof.
  revert s. induction fds as [|fd fds IH]; intros s; simpl; [done|].
  apply wlp_bind. apply (wlp_mono _ _ (λ _ s', same_view s s')).
  - destruct (fd =? 0); [done|]. apply wlp_bind, wlp_gets. destruct (files s !! fd); [|done].
    destruct (_ =? 0).
    + apply wlp_bind, wlp_modify. eapply wlp_mono; [apply in_env_wlp|]. intros _ s' [H1 H2].
      destruct s. by split.
    + apply wlp_modify. by destruct s.
  - intros _ s1 [H1 H2]. eapply wlp_mono; [apply IH|]. intros _ s2 [H3 H4]. split; congruence.
Qed.

(** While a child is being built: its structure is new, runnable and childless. *)
Definition building c new ts s : Prop :=
  current s = c ∧ ∃ x, tasks s = <[new := x]> ts ∧ state x = TASK_RUNNING ∧ sibling x = 0.

Lemma building_view c new ts s s' : same_view s s' → building c new ts s → building c new ts s'.
Proof. intros [H1 H2] [Hc (x & Hx & H)]. split; [congruence|]. exists x. by rewrite H2. Qed.

Lemma keeps_view {A} (m : M (sched St) A) c new ts :
  (∀ s, wlp m s (λ _ s', same_view s s')) → keeps (building c new ts) m (λ _, True).
Proof.
  intros Hm s Hs. specialize (Hm s). unfold wlp in Hm. destruct (m s) as [[a s']| | |]; [|done..].
  split; [by eapply building_view|done].
Qed.

Lemma keeps_build f c new ts :
  (∀ y, state y = TASK_RUNNING → state (f y) = TASK_RUNNING) → (∀ y, sibling y = 0 → sibling (f y) = 0) →
  keeps (building c new ts) (tset f new) (λ _, True).
Proof.
  intros Hst Hsb s [Hc (x & Hx & H1 & H2)]. unfold tset. rewrite Hx, lookup_insert_eq. split; [|done].
  split; [by rewrite current_set|]. exists (f x). rewrite tasks_set, insert_insert_eq. auto.
Qed.

Lemma alloc_task_wlp s :
  wlp alloc_task s (λ new s', tasks s !! new = None ∧ building (current s) new (tasks s) s').
Proof.
  unfold alloc_task. apply wlp_bind. eapply wlp_mono; [apply in_env_wlp|]. intros new s1 [H1 H2].
  apply wlp_bind, wlp_gets. rewrite H2. case_decide as Hd; [done|]. apply wlp_bind, wlp_modify, wlp_ret.
  split.
  - apply eq_None_not_Some. tauto.
  - split; [by destruct s1|]. exists zero_task. split; [by destruct s1|done].
Qed.

Lemma do_fork_wlp t s :
  wlp (do_fork t) s (λ new s', tasks s !! new = None ∧ building (current s) new (tasks s) s').
Proof.
  unfold do_fork. apply wlp_bind. eapply wlp_mono; [apply alloc_task_wlp|]. intros new s1 [Hn Hb].
  match goal with |- wlp ?m _ _ => assert (keeps (building (current s) new (tasks s)) m (λ a, a = new)) as Hk end.
  { eapply keeps_bind; [by apply keeps_build; intros []|]. intros _ _.
    eapply keeps_bind; [apply keeps_tget|]. intros x _.
    eapply keeps_bind; [apply keeps_view; intros; apply in_env_wlp|]. intros x' _.
    eapply keeps_bind; [by apply keeps_build; intros []|]. intros _ _.
    eapply keeps_bind; [apply keeps_gets|]. intros p _.
    eapply keeps_bind; [by apply keeps_build; intros []|]. intros _ _.
    eapply (keeps_bind _ _ _ (λ _, True)).
    { intros s' Hs'. split; [|done]. eapply building_view; [|exact Hs']. by destruct s'. }
    intros _ _. eapply keeps_bind; [apply keeps_tget|]. intros fds _.
    eapply keeps_bind; [apply keeps_view; intros; apply share_files_wlp|]. intros _ _.
    eapply keeps_bind; [by apply keeps_build; intros []|]. intros _ _.
    eapply (keeps_bind _ _ _ (λ _, True)).
    { unfold init_task_stack. eapply keeps_bind; [apply keeps_view; intros; apply in_env_wlp|]. intros b _.
      by apply keeps_build; intros []. }
    intros _ _. eapply keeps_bind; [apply keeps_tget|]. intros r _.
    eapply keeps_bind; [by apply keeps_build; intros []|]. intros _ _. by apply keeps_ret. }
  eapply wlp_mono; [by apply (keeps_wlp _ _ _ _ Hk)|]. by intros a s' [Hb' ->].
Qed.

Lemma ring_insert_fresh ts c r new x : ring ts c r → ts !! new = None → ring (<[new := x]> ts) c r ∧ new ∉ c :: r.
Proof.
  intros Hr Hn. assert (new ∉ c :: r) as Hnin.
  { intros Hin. destruct (ring_some _ _ _ _ Hr Hin) as [y Hy]. congruence. }
  split; [|done]. destruct Hr as [Hnd Hp]. split; [done|].
  eapply path_ext; [exact Hp|..]; intros u Hu; unfold nxt, prv; rewrite lookup_insert_ne; try done;
    intros ->; apply Hnin; set_solver.
Qed.

Lemma state_of_fresh ts u new st : state_of ts u = Some st → ts !! new = None → u ≠ new.
Proof. unfold state_of. intros Hs Hn ->. by rewrite Hn in Hs. Qed.

(** The process tree never touches the ring or the states. *)
Lemma tree_insert_inv par t s : sched_inv s → wlp (tree_insert_proc par t) s (λ _ s', sched_inv s').
Proof.
  intros Hs. unfold tree_insert_proc.
  apply wlp_bind, wlp_tset. intros _.
  assert (sched_inv (set_tasks (alter (set_parent par) t (tasks s)) s)) as H1
    by (apply sched_inv_alter; [by split; [intros []|split; intros []]|done]).
  set (s1 := set_tasks _ s) in *. apply wlp_bind, wlp_tget. intros p Hp. apply wlp_bind.
  apply (wlp_mono _ _ (λ _ s', sched_inv s')).
  - destruct (negb _).
    + apply wlp_bind, wlp_tget. intros ch Hch. apply wlp_tset. intros _.
      apply sched_inv_alter; [|done]. destruct H1 as (r & Hi & _). pose proof (ri_sib _ _ _ Hi _ _ Hch) as Hz.
      split; [by intros []|]. split; [by intros []|]. intros []. simpl. by rewrite Hz.
    + apply wlp_tset. intros _. apply sched_inv_alter; [by split; [intros []|split; intros []]|done].
  - intros _ s2 H2. apply wlp_tset. intros _. apply sched_inv_alter; [by split; [intros []|split; intros []]|done].
Qed.

Lemma sched_fork_inv t s : sched_inv s → wlp (sched_fork t) s (λ _ s', sched_inv s').
Proof.
  intros (r & Hi & Hrun). unfold sched_fork. apply wlp_bind. eapply wlp_mono; [apply do_fork_wlp|].
  intros new s1 [Hn [Hc (x & Hx & Hst & Hsb)]].
  destruct (ring_insert_fresh _ _ _ new x (ri_ring _ _ _ Hi) Hn) as [Hr1 Hnin].
  assert (∀ u, u ≠ new → state_of (tasks s1) u = state_of (tasks s) u) as Hstu
    by (intros u Hu; unfold state_of; by rewrite Hx, lookup_insert_ne).
  assert (ring_inv (current s) r s1) as Hi1.
  { split; [done|by rewrite Hx| | |].
    - intros u Hu. rewrite Hstu; [by apply (ri_run _ _ _ Hi)|]. intros ->. apply Hnin. by right.
    - intros u y. rewrite Hx, lookup_insert. case_decide; [by intros [= <-]|apply (ri_sib _ _ _ Hi)].
    - intros Hw. destruct (ri_park _ _ _ Hi Hw) as [Hp1 Hp2]. rewrite Hstu; [done|by eapply state_of_fresh]. }
  apply wlp_bind. eapply wlp_mono.
  { apply wp_wlp, (sched_rr_insert_ok s1 r new); rewrite ?Hc; [by rewrite Hx|done|].
    rewrite Hx, lookup_insert_eq. eauto. }
  intros _ s2 (Ho & Hr2 & Hs2). rewrite Hc in Hr2.
  assert (current s2 = current s) as Hc2 by (rewrite Ho, current_set; done).
  assert (sched_inv s2) as H2.
  { exists (new :: r). rewrite Hc2. split.
    - eapply (ring_inv_same _ r s1); [done..| |].
      + intros u [->|Hu]%elem_of_cons.
        * unfold state_of. rewrite Hx, lookup_insert_eq. simpl. by rewrite Hst.
        * by apply (ri_run _ _ _ Hi1).
      + intros u Hu. destruct (decide (u = new)) as [->|]; [right|left; set_solver].
        intros Hw ->. destruct (ri_park _ _ _ Hi Hw) as [Hp _]. by apply (state_of_fresh _ _ _ _ Hp Hn).
    - rewrite (state_same _ _ _ Hs2), Hstu; [done|]. intros He. apply Hnin. rewrite He. by left. }
  apply wlp_bind. eapply wlp_mono; [exact (tree_insert_inv t new s2 H2)|]. intros u s3 H3.
  apply wlp_tget. intros y _. exact H3.
Qed.

(** *** Exiting *)
Lemma do_exit_inv status s : sched_inv s → wlp (do_exit (current s) status) s (λ _ s', sched_inv s').
Proof.
  intros (r & Hi & _). set (c := current s) in *. pose proof (ri_ring _ _ _ Hi) as [Hnd _].
  apply list.NoDup_cons in Hnd as [Hcr _].
  unfold do_exit. apply wlp_bind, wlp_tset. intros Hsc. apply wlp_bind, wlp_tset. intros _.
  set (s1 := set_tasks (alter (set_state TASK_ZOMBIE) c (tasks s)) s).
  set (s2 := set_tasks (alter (set_exit_status status) c (tasks s1)) s1).
  assert (ring_inv c r s2) as Hi2.
  { apply ring_inv_alter; [by intros []|by intros []|by left|].
    apply ring_inv_alter; [by intros []|by intros []|by left|exact Hi]. }
  assert (state_of (tasks s2) c = Some TASK_ZOMBIE) as Hz.
  { destruct Hsc as [x Hx]. unfold s2, s1, state_of.
    rewrite !tasks_set, !lookup_alter_eq, Hx. by destruct x. }
  apply wlp_bind, wlp_tget. intros t Ht. apply wlp_bind, wlp_tget. intros p Hp.
  set (par := parent t) in *. apply wlp_bind.
  apply (wlp_mono _ _ (λ _ s3, ∃ r', ring_inv c r' s3)).
  2:{ intros u s3 [r' H3]. by eapply sleep_inv. }
  case_decide as Hw; [|apply wlp_ret; by exists r].
  assert (state_of (tasks s2) par = Some TASK_WAITING) as Hps by (unfold state_of; by rewrite Hp, <- Hw).
  assert (par ∉ c :: r) as Hpr.
  { intros [->|Hin]%elem_of_cons; [by rewrite Hz in Hps|].
    by rewrite (ri_run _ _ _ Hi2 _ Hin) in Hps. }
  pose proof (ri_cur _ _ _ Hi2) as Hc2.
  apply wlp_bind. eapply wlp_mono.
  { apply wp_wlp, (sched_rr_insert_ok s2 r par); rewrite ?Hc2; [apply Hi2|done|eauto]. }
  intros u s3 (Ho & Hr3 & Hs3). rewrite Hc2 in Hr3. apply wlp_tset. intros Hsp.
  assert (w ≠ 0 → w ≠ par) as Hwp.
  { intros Hw0 Heq. destruct (ri_park _ _ _ Hi2 Hw0) as [Hp0 _]. rewrite Heq, Hps in Hp0. discriminate Hp0. }
  exists (par :: r). split.
  - rewrite current_set, Ho, current_set. done.
  - rewrite tasks_set. by apply ring_alter; [apply set_state_free|].
  - intros v Hv. rewrite tasks_set. unfold state_of. rewrite lookup_alter. case_decide as Heq.
    + subst v. destruct Hsp as [y ->]. by destruct y.
    + apply elem_of_cons in Hv as [->|Hv]; [done|].
      change (state_of (tasks s3) v = Some TASK_RUNNING). rewrite (state_same _ _ _ Hs3).
      by apply (ri_run _ _ _ Hi2).
  - intros v y. rewrite tasks_set, lookup_alter. pose proof (sib_same _ _ Hs3 (ri_sib _ _ _ Hi2)) as Hsb.
    case_decide as Heq; [subst v|apply Hsb]. destruct (tasks s3 !! par) as [z|] eqn:E; [|done].
    intros [= <-]. specialize (Hsb _ _ E). by destruct z.
  - intros Hw0. destruct (ri_park _ _ _ Hi2 Hw0) as [Hp1 Hp2]. specialize (Hwp Hw0). split; [|set_solver].
    rewrite tasks_set. unfold state_of. rewrite lookup_alter_ne by done.
    change (state_of (tasks s3) w = Some TASK_RUNNING). by rewrite (state_same _ _ _ Hs3).
Qed.

(** *** Waiting *)
Lemma find_zombie_wlp fuel ch s :
  wlp (find_zombie fuel ch) s (λ z s', s' = s ∧ (z = 0 ∨ state_of (tasks s) z = Some TASK_ZOMBIE)).
Proof.
  revert ch. induction fuel as [|fuel IH]; intros ch; simpl; [done|].
  destruct (ch =? 0); [apply wlp_ret; auto|]. apply wlp_bind, wlp_tget. intros x Hx.
  case_decide as Hz.
  - apply wlp_ret. split; [done|]. right. unfold state_of. by rewrite Hx, <- Hz.
  - apply wlp_bind, wlp_tget. intros y _. apply IH.
Qed.

Lemma task_free_wlp t s :
  wlp (task_free t) s (λ _ s', current s' = current s ∧ tasks s' = delete t (tasks s)).
Proof.
  unfold task_free. apply wlp_bind, wlp_tget. intros x _. apply wlp_bind.
  eapply wlp_mono; [apply in_env_wlp|]. intros ? s1 [H1 H1']. apply wlp_bind, wlp_tget. intros y _.
  apply wlp_bind. eapply wlp_mono; [apply in_env_wlp|]. intros ? s2 [H2 H2']. apply wlp_bind, wlp_tget.
  intros z _. apply wlp_bind. eapply wlp_mono; [apply close_files_wlp|]. intros ? s3 [H3 H3'].
  apply wlp_bind. eapply wlp_mono; [apply in_env_wlp|]. intros ? s4 [H4 H4']. apply wlp_modify.
  rewrite current_set, tasks_set. split; congruence.
Qed.

Lemma ring_inv_delete c r s t s' :
  ring_inv c r s → t ∉ c :: r → state_of (tasks s) t = Some TASK_ZOMBIE →
  current s' = current s → tasks s' = delete t (tasks s) → ring_inv c r s'.
Proof.
  intros [Hc Hr Hrun Hsb Hpk] Ht Hz Hc' Hts. split.
  - congruence.
  - destruct Hr as [Hnd Hp]. split; [done|].
    eapply path_ext; [exact Hp|..]; intros u Hu; unfold nxt, prv; rewrite Hts, lookup_delete_ne; try done;
      intros ->; apply Ht; set_solver.
  - intros u Hu. unfold state_of. rewrite Hts, lookup_delete_ne by (intros ->; set_solver). by apply Hrun.
  - intros u x. rewrite Hts, lookup_delete. case_decide; [done|apply Hsb].
  - intros Hw. destruct (Hpk Hw) as [H1 H2]. unfold state_of in *. rewrite Hts, lookup_delete_ne; [done|]. intros ->. congruence.
Qed.

Lemma do_wait_inv s : sched_inv s → wlp (do_wait (current s)) s (λ _ s', sched_inv s').
Proof.
  intros (r & Hi & Hrun). set (c := current s) in *. pose proof (ri_ring _ _ _ Hi) as [Hnd _].
  apply list.NoDup_cons in Hnd as [Hcr _].
  unfold do_wait. apply wlp_bind, wlp_gets, wlp_bind, wlp_tget. intros x Hx. apply wlp_bind.
  eapply wlp_mono; [apply find_zombie_wlp|]. intros child ? [-> Hz].
  destruct (Z.eqb_spec child 0) as [H0|H0].
  - apply wlp_bind, wlp_gets. fold c. apply wlp_bind, wlp_tset. intros _. apply wlp_bind, wlp_tset. intros _.
    set (s1 := set_tasks _ s). set (s2 := set_tasks _ s1). apply wlp_bind.
    eapply wlp_mono; [apply (sleep_inv c r s2)|intros u s' H; by apply wlp_ret].
    apply ring_inv_alter; [by intros []|by intros []|by left|].
    apply ring_inv_alter; [by intros []|by intros []|by left|exact Hi].
  - destruct Hz as [?|Hz]; [done|]. assert (child ∉ c :: r) as Hch.
    { intros [->|Hin]%elem_of_cons; [congruence|]. by rewrite (ri_run _ _ _ Hi _ Hin) in Hz. }
    apply wlp_bind, wlp_tget. intros y Hy. apply wlp_bind, wlp_tget. intros z _.
    apply wlp_bind. eapply wlp_mono; [apply task_free_wlp|]. intros u s1 [Hc1 Ht1].
    apply wlp_bind, wlp_tset. intros _. apply wlp_ret. apply sched_inv_alter.
    { split; [by intros []|split; by intros []]. }
    exists r. rewrite Hc1. split; [by eapply ring_inv_delete|].
    unfold state_of. rewrite Ht1, lookup_delete_ne; [done|]. intros ->. apply Hch. by left.
Qed.
End steps.

(** *** The terminal: a task goes to sleep there and is put on the ring again *)
Lemma park_inv {St} `{TaskOps St} (s : sched St) : sched_inv 0 s → wlp schedule_sleep s (λ _ s', sched_inv (current s) s').
Proof.
  intros (r & Hi & Hrun). eapply wpp_wlp, wpp_mono; [apply schedule_sleep_ok, Hi| |intros Hp; exact Hp].
  intros _ s' (n & r' & -> & Hc' & Hr' & Hs). exists r'. rewrite Hc'. split; [split|].
  - done.
  - done.
  - intros u Hu. rewrite (state_same _ _ _ Hs). apply (ri_run _ _ _ _ Hi). by right.
  - by eapply sib_same, Hi.
  - intros _. rewrite (state_same _ _ _ Hs). split; [done|]. by destruct (ri_ring _ _ _ _ Hi) as [[Hnd _]%list.NoDup_cons _].
  - rewrite (state_same _ _ _ Hs). apply (ri_run _ _ _ _ Hi). by left.
Qed.

Lemma unpark_inv {St} `{TaskOps St} w (s : sched St) : w ≠ 0 → sched_inv w s →
  wp (sched_rr_insert_proc w) s (λ _ s', sched_inv 0 s' ∧ only_tasks s s').
Proof.
  intros Hw (r & Hi & Hrun). destruct (ri_park _ _ _ _ Hi Hw) as [Hs Hn].
  assert (is_Some (tasks s !! w)) as Hsw by (unfold state_of in Hs; destruct (tasks s !! w); [eauto|done]).
  eapply wp_mono; [apply (sched_rr_insert_ok s r w); [apply Hi|done|done]|]. intros [] s' (Ho & Hr & Hsame).
  assert (current s' = current s) as Hc by (rewrite Ho, current_set; done).
  split; [|done]. exists (w :: r). rewrite Hc. split; [split|]; [done|done| | |done|].
  - intros u [->|Hu]%elem_of_cons; rewrite (state_same _ _ _ Hsame); [done|by apply (ri_run _ _ _ _ Hi)].
  - by eapply sib_same, Hi.
  - by rewrite (state_same _ _ _ Hsame).
Qed.

(** ** The scheduler as a transition system

    What can happen to a running kernel: the running task forks, exits or
    waits, or the timer ticks. *)
Inductive sched_step {St} `{TaskOps St} (s : sched St) : sched St → Prop :=
  | step_fork p s' : sched_fork (current s) s = Ok (p, s') → sched_step s s'
  | step_exit status s' : do_exit (current s) status s = Ok (tt, s') → sched_step s s'
  | step_wait w s' : do_wait (current s) s = Ok (w, s') → sched_step s s'
  | step_tick s' : sched_maybe_preempt s = Ok (tt, s') → sched_step s s'.

(** [m] run [k] times. *)
Fixpoint repeat_m {S} (k : nat) (m : M S unit) : M S unit :=
  match k with
  | O => mret_ tt
  | Datatypes.S k' => m ;;* repeat_m k' m
  end.

Section properties.
Context {St : Type} {TO : TaskOps St}.
Implicit Types (s : sched St).

Lemma step_inv w s s' : sched_inv w s → sched_step s s' → sched_inv w s'.
Proof.
  intros Hs [p s1 Hrun|st s1 Hrun|ws s1 Hrun|s1 Hrun].
  - exact (wlp_run _ _ _ _ _ (sched_fork_inv w _ s Hs) Hrun).
  - exact (wlp_run _ _ _ _ _ (do_exit_inv w _ s Hs) Hrun).
  - exact (wlp_run _ _ _ _ _ (do_wait_inv w s Hs) Hrun).
  - exact (wlp_run _ _ _ _ _ (preempt_inv w s Hs) Hrun).
Qed.

(** whatever sequence of forks, exits, waits and timer ticks happens, the
    runnable tasks form a doubly linked ring without duplicates that starts
    with the running task, and every task on it is in the state
    [TASK_RUNNING]: sleeping, waiting and dead tasks are never scheduled. *)
Theorem sched_reachable_inv w s s' (Hinv : sched_inv w s) (Hreach : rtc sched_step s s') :
  ∃ r, ring (tasks s') (current s') r ∧
    ∀ u, u ∈ current s' :: r → state_of (tasks s') u = Some TASK_RUNNING.
Proof.
  assert (sched_inv w s') as (r & Hi & Hc).
  { induction Hreach as [s|s s1 s' Hstep _ IH]; [done|]. by apply IH, (step_inv w s s1). }
  exists r. split; [apply Hi|]. intros u [->|Hu]%elem_of_cons; [done|]. by apply (ri_run _ _ _ _ Hi).
Qed.

Lemma schedule_rounds s l1 u l2 :
  ring (tasks s) (current s) (tail (l1 ++ u :: l2)) → hd 0 (l1 ++ u :: l2) = current s →
  (∀ x y, x ∈ l1 ++ u :: l2 → y ∈ l1 ++ u :: l2 →
     pid_of (tasks s) x = pid_of (tasks s) y → x = y) →
  wp (repeat_m (length l1) schedule) s (λ _ s', current s' = u ∧ ring (tasks s') u (l2 ++ l1)).
Proof.
  revert s l2. induction l1 as [|c l1 IH]; intros s l2; simpl.
  - intros Hr Hc _. wp_steps. rewrite app_nil_r. subst u. done.
  - intros Hr Hc Hpid. subst c. set (c := current s) in *.
    apply wp_bind. destruct (l1 ++ u :: l2) as [|n r] eqn:E; [by destruct l1|].
    assert (c ∉ n :: r) as Hnin by (destruct Hr as [Hnd _]; by apply list.NoDup_cons in Hnd as [? _]).
    eapply wp_mono.
    { eapply wpp_wp; [by apply schedule_ok|]. intros He. apply Hnin.
      rewrite (Hpid c n); [by left|by left|right; by left|exact He]. }
    intros _ s1 (Hc1 & Hr1 & Hs1). eapply wp_mono; [apply (IH s1 (l2 ++ [c]))|].
    + rewrite app_comm_cons, app_assoc, E. simpl. by rewrite Hc1.
    + rewrite app_comm_cons, app_assoc, E. simpl. done.
    + intros x y Hx Hy. rewrite !(pid_same _ _ _ Hs1). rewrite app_comm_cons, app_assoc, E in Hx, Hy.
      apply Hpid; set_solver.
    + intros _ s' [H1 H2]. split; [done|]. by rewrite <- app_assoc in H2.
Qed.


(** a task that goes to sleep leaves the ring and its successor runs next;
    when it is the only runnable task the kernel panics instead: there is no
    idle task. *)
Theorem schedule_sleep_spec s r (Hr : ring (tasks s) (current s) r)
    (Hpid : ∀ n, head r = Some n → pid_of (tasks s) (current s) ≠ pid_of (tasks s) n) :
  match r with
  | [] => ∃ msg, schedule_sleep s = Panic msg
  | n :: r' => ∃ s', schedule_sleep s = Ok (tt, s') ∧ current s' = n ∧ ring (tasks s') n r' ∧
      same_tasks (tasks s) (tasks s')
  end.
Proof.
  pose proof (schedule_sleep_ok s r Hr) as Hw. destruct r as [|n r'].
  - eapply wpp_panic; [exact Hw|]. by intros ? ? (? & ? & ? & _).
  - eapply wpp_wp in Hw; [|intros H; exact (Hpid n eq_refl (H n eq_refl))].
    apply wp_run in Hw as ([] & s' & Hok & n' & r'' & [= <- <-] & H). by exists s'.
Qed.

(** [do_wait] reports the exit status of the waiting task itself, not the
    child's; and it leaves the freed child on the list of children, so the
    next [do_wait] of the task follows a dangling pointer. *)
Theorem do_wait_status s t ch z ws p s'
    (Ht : tasks s !! current s = Some t) (Hch : children t = ch) (Hne : ch ≠ 0 ∧ ch ≠ current s)
    (Hz : tasks s !! ch = Some z) (Hst : state z = TASK_ZOMBIE)
    (Hrun : do_wait (current s) s = Ok (Some (ws, p), s')) :
  ws = exit_status t ∧ p = pid z ∧ do_wait (current s') s' = Fault.
Proof.
  subst ch. set (c := current s) in *. unfold do_wait in Hrun. unfold mbind_ at 1, gets at 1 in Hrun.
  unfold mbind_ at 1, tget at 1 in Hrun. rewrite Ht in Hrun. unfold mbind_ at 1 in Hrun.
  cbn [find_zombie] in Hrun. destruct (Z.eqb_spec (children t) 0) as [|_]; [tauto|].
  unfold mbind_ at 1, tget at 1 in Hrun. rewrite Hz in Hrun. rewrite decide_True in Hrun by done.
  unfold mret_ at 1 in Hrun. destruct (Z.eqb_spec (children t) 0) as [|_]; [tauto|].
  unfold mbind_ at 1, tget at 1 in Hrun. rewrite Ht in Hrun.
  unfold mbind_ at 1, tget at 1 in Hrun. rewrite Hz in Hrun. unfold mbind_ at 1 in Hrun.
  pose proof (task_free_wlp (children t) s) as Hf. unfold wlp in Hf.
  destruct (task_free (children t) s) as [[u s1]| | |]; try done. destruct Hf as [Hc1 Ht1].
  unfold mbind_, tset in Hrun. rewrite Ht1, lookup_delete_ne, Ht in Hrun by tauto. injection Hrun as <- <- <-.
  split; [done|]. split; [done|]. rewrite current_set, Hc1. fold c.
  unfold do_wait, mbind_, gets, tget. rewrite !tasks_set, lookup_insert_eq.
  assert (children (set_resume Nothing t) = children t) as -> by by destruct t.
  cbn [find_zombie]. destruct (Z.eqb_spec (children t) 0) as [|_]; [tauto|].
  unfold mbind_, tget. rewrite tasks_set, lookup_insert_ne, lookup_delete_eq by (intros ->; tauto). done.
Qed.

(** the list of children never holds more than the newest child: when that
    child is still alive, [do_wait] does not return, whatever other child of
    the task is a zombie. *)
Theorem do_wait_newest_child_only w s t ch x
    (Hinv : sched_inv w s) (Ht : tasks s !! current s = Some t) (Hch : children t = ch)
    (Hx : tasks s !! ch = Some x) (Halive : state x ≠ TASK_ZOMBIE) :
  ∀ ws s', do_wait (current s) s = Ok (ws, s') → ws = None ∧ current s' ≠ current s.
Proof.
  intros ws s' Hrun. destruct Hinv as (r & Hi & Hc). pose proof (ri_sib _ _ _ _ Hi _ _ Hx) as Hsib.
  assert (∀ f, find_zombie (S (S f)) ch s = Ok (0, s)) as Hfind.
  { intros f. cbn [find_zombie]. destruct (Z.eqb_spec ch 0) as [->|]; [done|].
    unfold mbind_, tget. rewrite Hx, decide_False by done. rewrite Hx, Hsib. done. }
  assert (wlp (do_wait (current s)) s (λ ws s', ws = None ∧ current s' ≠ current s)) as Hw.
  { unfold do_wait. apply wlp_bind, wlp_gets, wlp_bind, wlp_tget. intros t' Ht'. simplify_eq.
    assert (∃ f, size (tasks s) = S f) as [f Hf].
    { destruct (size (tasks s)) eqn:E; [|eauto]. apply map_size_empty_inv in E. by rewrite E in Ht. }
    rewrite Hf. apply wlp_bind. unfold wlp at 1. rewrite Hfind. simpl.
    apply wlp_bind, wlp_gets, wlp_bind, wlp_tset. intros _. apply wlp_bind, wlp_tset. intros _.
    set (s1 := set_tasks _ s). set (s2 := set_tasks _ s1). apply wlp_bind.
    assert (current s2 = current s) as Hc2 by (unfold s2, s1; by rewrite !current_set).
    assert (ring (tasks s2) (current s2) r) as Hr2.
    { rewrite Hc2. unfold s2, s1. rewrite !tasks_set.
      do 2 (apply ring_alter; [by intros []|]). apply Hi. }
    eapply wpp_wlp, wpp_mono; [by apply schedule_sleep_ok| |intros H; exact H].
    intros _ s3 (n & r' & -> & Hc3 & _). apply wlp_ret. split; [done|]. rewrite Hc3.
    intros ->. destruct Hr2 as [Hnd _]. rewrite Hc2 in Hnd. apply list.NoDup_cons in Hnd as [Hnd _].
    apply Hnd. by left. }
  exact (wlp_run _ _ _ _ _ Hw Hrun).
Qed.

(** C36: a task that exits while its parent waits puts the parent on the ring in
    its own place: the parent runs next, with the exit status stored in the
    dead task and the other runnable tasks in their order. *)
Theorem do_exit_wakes_parent s r t par p status
    (Hr : ring (tasks s) (current s) r) (Hrun : ∀ u, u ∈ r → state_of (tasks s) u = Some TASK_RUNNING)
    (Ht : tasks s !! current s = Some t) (Hpar : parent t = par)
    (Hp : tasks s !! par = Some p) (Hw : state p = TASK_WAITING)
    (Hself : par ≠ current s) (Hpid : pid t ≠ pid p) :
  ∃ s', do_exit (current s) status s = Ok (tt, s') ∧ current s' = par ∧ ring (tasks s') par r ∧
    state_of (tasks s') par = Some TASK_RUNNING ∧ state_of (tasks s') (current s) = Some TASK_ZOMBIE ∧
    exit_status <$> tasks s' !! current s = Some status.
Proof.
  set (c := current s) in *. enough (wp (do_exit c status) s (λ _ s', current s' = par ∧
    ring (tasks s') par r ∧ state_of (tasks s') par = Some TASK_RUNNING ∧
    state_of (tasks s') c = Some TASK_ZOMBIE ∧ exit_status <$> tasks s' !! c = Some status)) as Hwp.
  { apply wp_run in Hwp as ([] & s' & H). by exists s'. }
  unfold do_exit. wp_steps. apply wp_tset; [eauto|]. wp_steps.
  apply wp_tset; [rewrite tasks_set, is_Some_alter; eauto|]. rewrite tasks_set, set_tasks_twice.
  set (ts2 := alter (set_exit_status status) c (alter (set_state TASK_ZOMBIE) c (tasks s))).
  set (t2 := set_exit_status status (set_state TASK_ZOMBIE t)).
  assert (ts2 !! c = Some t2) as Hc2 by (unfold ts2; by rewrite !lookup_alter_eq, Ht).
  assert (ts2 !! par = Some p) as Hp2 by (unfold ts2; by rewrite !lookup_alter_ne).
  assert (ring ts2 c r) as Hr2 by (do 2 (apply ring_alter; [by intros []|]); done).
  assert (parent t2 = par) as Hpar2 by (destruct t; exact Hpar).
  assert (par ∉ c :: r) as Hnin.
  { intros [?|Hin]%elem_of_cons; [done|]. specialize (Hrun _ Hin). unfold state_of in Hrun.
    rewrite Hp in Hrun. simpl in Hrun. congruence. }
  wp_steps. eapply wp_tget; [by rewrite tasks_set|]. rewrite Hpar2. wp_steps.
  eapply wp_tget; [by rewrite tasks_set|]. rewrite decide_True by done. wp_steps.
  eapply wp_mono.
  { apply (sched_rr_insert_ok (set_tasks ts2 s) r par); rewrite ?current_set, ?tasks_set; [done|done|eauto]. }
  intros _ s3 (Ho & Hr3 & Hs3). rewrite current_set, tasks_set in *. fold c in Hr3.
  assert (is_Some (tasks s3 !! par)) as Hsp by (eapply same_tasks_some; [exact Hs3|eauto]).
  apply wp_tset; [done|]. set (s4 := set_tasks (alter (set_state TASK_RUNNING) par (tasks s3)) s3).
  assert (current s4 = c) as Hc4 by (unfold s4; by rewrite current_set, Ho, !current_set).
  assert (tasks s4 = alter (set_state TASK_RUNNING) par (tasks s3)) as Ht4 by (unfold s4; by rewrite tasks_set).
  eapply wp_mono.
  { eapply wpp_wp; [apply (schedule_sleep_ok s4 (par :: r))|].
    - rewrite Hc4, Ht4. by apply ring_alter; [by intros []|].
    - intros He. specialize (He par eq_refl). rewrite Hc4, Ht4 in He.
      rewrite !pid_alter in He by by intros []. rewrite !(pid_same _ _ _ Hs3) in He. unfold pid_of in He.
      rewrite Hc2, Hp2 in He. simpl in He. destruct t. simpl in *. congruence. }
  intros _ s5 (n & r' & [= <- <-] & Hc5 & Hr5 & Hs5). split; [done|]. split; [done|].
  rewrite !(state_same _ _ _ Hs5), Ht4. split; [|split].
  - unfold state_of. destruct Hsp as [q Hq]. rewrite lookup_alter_eq, Hq. by destruct q.
  - unfold state_of. rewrite lookup_alter_ne by done. fold (state_of (tasks s3) c).
    rewrite (state_same _ _ _ Hs3). unfold state_of. rewrite Hc2. by destruct t.
  - rewrite (same_tasks_field exit_status _ _ _ Hs5) by by intros []. rewrite Ht4, lookup_alter_ne by done.
    rewrite (same_tasks_field exit_status _ _ _ Hs3) by by intros []. rewrite Hc2. by destruct t.
Qed.
End properties.

(** ** A concrete kernel: two tasks and a bump allocator *)
#[export] Instance bump_ops : TaskOps Z := {
  t_kcalloc n := λ s, Ok (s, s + n);
  t_free _ := mret_ tt;
  t_mm_dupe x := mret_ x;
  t_mm_free _ := mret_ tt;
  t_mm_p4 _ x := x;
}.

Definition ex_task (id : Z) (st : task_state) (nx pv par ch : Z) : task_struct :=
  set_state st (set_children ch (set_parent par (set_next nx (set_prev pv (set_pid id zero_task))))).

(** [4096] is the running parent, [8192] its child, in the given state. *)
Definition ex_sched (st : task_state) : sched Z :=
  Sched 65536 {[ 4096 := ex_task 1 TASK_RUNNING 8192 8192 0 8192; 8192 := ex_task 2 st 4096 4096 4096 0 ]}
    ∅ 4096 4096 1000 0 0 0 0.

Lemma ex_ring st : ring (tasks (ex_sched st)) 4096 [8192].
Proof.
  split; [|split; [split; reflexivity|split; reflexivity]].
  apply list.NoDup_cons. split; [|apply list.NoDup_singleton]. by intros ?%list_elem_of_singleton.
Qed.
Lemma ex_lookup st u t : tasks (ex_sched st) !! u = Some t →
  (u = 4096 ∧ t = ex_task 1 TASK_RUNNING 8192 8192 0 8192) ∨ (u = 8192 ∧ t = ex_task 2 st 4096 4096 4096 0).
Proof.
  change (tasks (ex_sched st)) with (<[4096 := ex_task 1 TASK_RUNNING 8192 8192 0 8192]>
    ({[8192 := ex_task 2 st 4096 4096 4096 0]} : store)).
  intros [[<- <-]|[_ [<- <-]%lookup_singleton_Some]]%lookup_insert_Some; auto.
Qed.
Lemma ex_sched_inv : sched_inv 0 (ex_sched TASK_RUNNING).
Proof.
  exists [8192]. split; [|reflexivity]. split; [done|apply ex_ring|..].
  - by intros u ->%list_elem_of_singleton.
  - by intros u x [[-> ->]|[-> ->]]%ex_lookup.
  - by intros H.
Qed.
Lemma ex_pids st x y : x ∈ [4096; 8192] → y ∈ [4096; 8192] →
  pid_of (tasks (ex_sched st)) x = pid_of (tasks (ex_sched st)) y → x = y.
Proof.
  intros [->| ->%list_elem_of_singleton]%elem_of_cons [->| ->%list_elem_of_singleton]%elem_of_cons H;
    done || discriminate H.
Qed.

(** The child has exited; the parent runs alone. *)
Definition ex_zombie : sched Z :=
  Sched 65536 {[ 4096 := ex_task 1 TASK_RUNNING 4096 4096 0 8192;
                 8192 := set_exit_status 7 (ex_task 2 TASK_ZOMBIE 0 0 4096 0) ]}
    ∅ 4096 4096 1000 0 0 0 0.
(** The parent waits; its child is about to exit and another task runs. *)
Definition ex_waiting : sched Z :=
  Sched 65536 {[ 4096 := ex_task 1 TASK_WAITING 0 0 0 8192;
                 8192 := ex_task 2 TASK_RUNNING 8192 8192 4096 0 ]}
    ∅ 8192 4096 1000 0 0 0 0.

Lemma sched_reachable_inv_witness : ∃ s' r, rtc sched_step (ex_sched TASK_RUNNING) s' ∧
  current s' ≠ 4096 ∧ ring (tasks s') (current s') r.
Proof.
  destruct (do_wait 4096 (ex_sched TASK_RUNNING)) as [[w s1]| | |] eqn:E1; [|vm_compute in E1; discriminate E1..].
  assert (rtc sched_step (ex_sched TASK_RUNNING) s1) as Hreach by (eapply rtc_once, step_wait; exact E1).
  destruct (sched_reachable_inv 0 _ s1 ex_sched_inv Hreach) as (r & Hr & _).
  exists s1, r. split; [exact Hreach|]. split; [|exact Hr].
  assert (match do_wait 4096 (ex_sched TASK_RUNNING) with Ok (_, s) => current s | _ => 0 end = 8192) as Hc
    by (vm_compute; reflexivity).
  rewrite E1 in Hc. rewrite Hc. discriminate.
Defined.


Lemma schedule_sleep_spec_witness : ∃ s', schedule_sleep (ex_sched TASK_RUNNING) = Ok (tt, s') ∧ current s' = 8192.
Proof.
  destruct (schedule_sleep_spec (ex_sched TASK_RUNNING) [8192] (ex_ring _)
    ltac:(intros n [= <-]; vm_compute; discriminate)) as (s' & H & Hc & _).
  exists s'. split; [exact H|exact Hc].
Defined.

Lemma do_wait_status_witness : ∃ p s',
  do_wait 4096 ex_zombie = Ok (Some (0, p), s') ∧ do_wait (current s') s' = Fault.
Proof.
  destruct (do_wait 4096 ex_zombie) as [[[[ws p]|] s']| | |] eqn:E;
    try (vm_compute in E; discriminate E).
  destruct (do_wait_status ex_zombie (ex_task 1 TASK_RUNNING 4096 4096 0 8192) 8192
    (set_exit_status 7 (ex_task 2 TASK_ZOMBIE 0 0 4096 0)) ws p s' eq_refl eq_refl
    ltac:(split; discriminate) eq_refl eq_refl E) as (Hws & _ & Hf).
  exists p, s'. rewrite Hws. split; [reflexivity|exact Hf].
Defined.

Lemma do_wait_newest_child_only_witness : ∃ s', do_wait 4096 (ex_sched TASK_RUNNING) = Ok (None, s').
Proof.
  destruct (do_wait 4096 (ex_sched TASK_RUNNING)) as [[w s']| | |] eqn:E; try (vm_compute in E; discriminate E).
  destruct (do_wait_newest_child_only 0 (ex_sched TASK_RUNNING) (ex_task 1 TASK_RUNNING 8192 8192 0 8192) 8192
    (ex_task 2 TASK_RUNNING 4096 4096 4096 0) ex_sched_inv eq_refl eq_refl eq_refl
    ltac:(discriminate) w s' E) as [Hw _].
  exists s'. rewrite Hw. reflexivity.
Defined.

Lemma do_exit_wakes_parent_witness : ∃ s', do_exit 8192 3 ex_waiting = Ok (tt, s') ∧ current s' = 4096.
Proof.
  destruct (do_exit_wakes_parent ex_waiting [] (ex_task 2 TASK_RUNNING 8192 8192 4096 0) 4096
    (ex_task 1 TASK_WAITING 0 0 0 8192) 3
    ltac:(split; [apply list.NoDup_singleton|split; reflexivity])
    ltac:(intros u Hu; by apply not_elem_of_nil in Hu) eq_refl eq_refl eq_refl eq_refl
    ltac:(discriminate) ltac:(discriminate)) as (s' & H & Hc & _).
  exists s'. split; [exact H|exact Hc].
Defined.
