(* ===== verification/Ata.v ===== *)
(** The ATA driver, [drivers/ata.c]: reading and writing sectors by programmed
    I/O.

    The drive is not code of the repository.  [PortOps] are the port
    instructions; [AtaDrive] states the documented behaviour of a drive that
    the driver relies on (LBA28 addressing, READ SECTORS, data through the
    16-bit data register).  The driver is verified for every drive that has
    this behaviour; [sim_drive] is one.

    The driver runs on a drive and a kernel heap, which holds the memory. *)

From S2P Require Import Prelude Memory Kmalloc.

Definition SECTOR_SIZE : Z := 512.

Definition ATA_DATA_REG : Z := 0x1F0.
Definition ATA_SECTOR_COUNT_REG : Z := 0x1F2.
Definition ATA_SECTOR_NUMBER_REG : Z := 0x1F3.
Definition ATA_CYLINDER_LOW_REG : Z := 0x1F4.
Definition ATA_CYLINDER_HIGH_REG : Z := 0x1F5.
Definition ATA_DRIVE_HEAD_REG : Z := 0x1F6.
Definition ATA_STATUS_COMMAND_REG : Z := 0x1F7.
Definition STATUS_BSY : Z := 0x80.
Definition STATUS_RDY : Z := 0x40.
Definition COMMAND_WRITE : Z := 0x30.
Definition COMMAND_READ : Z := 0x20.

(** The port instructions of [include/io.h]. *)
Class PortOps (D : Type) := {
  inb : Z → M D Z;
  outb : Z → Z → M D unit;
  inw : Z → M D Z;
  outw : Z → Z → M D unit;
}.

(** ** The driver *)
Section driver.
Context {D : Type} {PO : PortOps D}.
(** How often a status register is polled before the model gives up. *)
Variable spin : nat.

Record machine := Machine { drive : D; hp : heap }.

Definition in_drive {A} (m : M D A) : M machine A := λ s,
  match m (drive s) with
  | Ok (a, d) => Ok (a, Machine d (hp s))
  | Panic msg => Panic msg
  | Fault => Fault
  | NoFuel => NoFuel
  end.
Definition in_heap {A} (m : M heap A) : M machine A := λ s,
  match m (hp s) with
  | Ok (a, h) => Ok (a, Machine (drive s) h)
  | Panic msg => Panic msg
  | Fault => Fault
  | NoFuel => NoFuel
  end.
Definition load {A} (f : mem → A) : M machine A := gets (λ s, f (h_mem (hp s))).
Definition store (f : mem → mem) : M machine unit := in_heap (hwrite f).

Fixpoint wait_ready_loop (fuel : nat) : M machine unit :=
  match fuel with
  | O => nofuel
  | S fuel' =>
      let* status := in_drive (inb ATA_STATUS_COMMAND_REG) in
      if negb (Z.land status STATUS_RDY =? 0) && (Z.land status STATUS_BSY =? 0)
      then mret_ tt else wait_ready_loop fuel'
  end.
Definition wait_ready : M machine unit := wait_ready_loop spin.

Definition load_lba_nsectors (lba nsectors : Z) : M machine unit :=
  in_drive (outb ATA_DRIVE_HEAD_REG (w8 (Z.lor 0xE0 (Z.land (Z.shiftr lba 24) 0xFF)))) ;;*
  in_drive (outb ATA_SECTOR_COUNT_REG nsectors) ;;*
  in_drive (outb ATA_SECTOR_NUMBER_REG (Z.land lba 0xFF)) ;;*
  in_drive (outb ATA_CYLINDER_LOW_REG (Z.land (Z.shiftr lba 8) 0xFF)) ;;*
  in_drive (outb ATA_CYLINDER_HIGH_REG (Z.land (Z.shiftr lba 16) 0xFF)).

(** [n] words to [buf]. *)
Fixpoint read_words (n : nat) (buf : Z) : M machine unit :=
  match n with
  | O => mret_ tt
  | S n' =>
      let* w := in_drive (inw ATA_DATA_REG) in
      store (λ m, st16 m buf w) ;;*
      read_words n' (buf + 2)
  end.
Fixpoint read_sectors (n : nat) (buf : Z) : M machine unit :=
  match n with
  | O => mret_ tt
  | S n' => wait_ready ;;* read_words 256 buf ;;* read_sectors n' (buf + 512)
  end.

Definition ata_read (buf lba nsectors : Z) : M machine unit :=
  wait_ready ;;*
  load_lba_nsectors lba nsectors ;;*
  in_drive (outb ATA_STATUS_COMMAND_REG COMMAND_READ) ;;*
  read_sectors (Z.to_nat nsectors) buf.

Fixpoint write_words (n : nat) (buf : Z) : M machine unit :=
  match n with
  | O => mret_ tt
  | S n' =>
      let* w := load (λ m, ld16 m buf) in
      in_drive (outw ATA_DATA_REG w) ;;*
      write_words n' (buf + 2)
  end.
Fixpoint write_sectors (n : nat) (buf : Z) : M machine unit :=
  match n with
  | O => mret_ tt
  | S n' => wait_ready ;;* write_words 256 buf ;;* write_sectors n' (buf + 512)
  end.

Definition ata_write (buf lba nsectors : Z) : M machine unit :=
  wait_ready ;;*
  load_lba_nsectors lba nsectors ;;*
  in_drive (outb ATA_STATUS_COMMAND_REG COMMAND_WRITE) ;;*
  write_sectors (Z.to_nat nsectors) buf.

(** [ceil(len / SECTOR_SIZE)] in 32 bits; the calls truncate it to 8. *)
Definition nsectors_of (len : Z) : Z := w32 (len + SECTOR_SIZE - 1) / SECTOR_SIZE.

Definition ata_read_bytes (buf off len : Z) : M machine unit :=
  let lba := off / SECTOR_SIZE in
  let sector_off := off mod SECTOR_SIZE in
  let nsectors := nsectors_of len in
  let* readbuf := in_heap (kmalloc (w32 (nsectors * SECTOR_SIZE))) in
  if buf =? 0 then panic "out of memory" else
  ata_read readbuf lba (w8 nsectors) ;;*
  store (λ m, memcpy m buf (readbuf + sector_off) len) ;;*
  in_heap (free readbuf).

(** The write path copies the fresh buffer over the caller's data. *)
Definition ata_write_bytes (buf off len : Z) : M machine unit :=
  let off_lba := off / SECTOR_SIZE in
  let nsectors := nsectors_of len in
  let* readbuf := in_heap (kmalloc (w32 (nsectors * SECTOR_SIZE))) in
  if buf =? 0 then panic "out of memory" else
  ata_write readbuf off_lba (w8 nsectors) ;;*
  store (λ m, memcpy m buf readbuf len) ;;*
  in_heap (free readbuf).
End driver.
Arguments machine D : clear implicits.

(** ** What the driver relies on *)

(** The address in the task file: 24 bits in three registers and the low four
    bits of the drive/head register; a sector count of 0 stands for 256. *)
Definition lba_of (tf : Z → Z) : Z :=
  Z.land (tf ATA_DRIVE_HEAD_REG) 0xF * 2 ^ 24 + tf ATA_CYLINDER_HIGH_REG * 2 ^ 16 +
  tf ATA_CYLINDER_LOW_REG * 2 ^ 8 + tf ATA_SECTOR_NUMBER_REG.
Definition count_of (tf : Z → Z) : Z :=
  if tf ATA_SECTOR_COUNT_REG =? 0 then 256 else tf ATA_SECTOR_COUNT_REG.

Definition ready (st : Z) : bool := negb (Z.land st STATUS_RDY =? 0) && (Z.land st STATUS_BSY =? 0).

(** [disk] is the byte at an offset, [transfer] the position (in words) and the
    number of words left of a running data-in command.  A drive is busy for the
    next [busy] reads of its status, at most [ata_polls] of them: when it is
    given a command, and when a sector has been read to its end.  While it is
    busy nothing is known of what its other registers do. *)
Class AtaDrive (D : Type) {PO : PortOps D} := {
  disk : D → Z → Z;
  task_file : D → Z → Z;
  transfer : D → option (Z * Z);
  busy : D → nat;
  ata_polls : nat;
  drive_ok : D → Prop;

  disk_byte d i : drive_ok d → 0 ≤ disk d i < 256;
  busy_bound d : drive_ok d → (busy d ≤ ata_polls)%nat;
  inb_status d : drive_ok d → wp (inb ATA_STATUS_COMMAND_REG) d (λ st d',
    drive_ok d' ∧ disk d' = disk d ∧ task_file d' = task_file d ∧ transfer d' = transfer d ∧
    ready st = (busy d =? 0)%nat ∧ busy d' = pred (busy d));
  outb_task_file d r v : drive_ok d → transfer d = None → busy d = O →
    ATA_SECTOR_COUNT_REG ≤ r ≤ ATA_DRIVE_HEAD_REG → 0 ≤ v < 256 →
    wp (outb r v) d (λ _ d', drive_ok d' ∧ transfer d' = None ∧ busy d' = O ∧ disk d' = disk d ∧
      task_file d' r = v ∧ ∀ r', r' ≠ r → task_file d' r' = task_file d r');
  outb_read d : drive_ok d → transfer d = None → busy d = O →
    wp (outb ATA_STATUS_COMMAND_REG COMMAND_READ) d (λ _ d', drive_ok d' ∧ disk d' = disk d ∧
      transfer d' = Some (256 * lba_of (task_file d), 256 * count_of (task_file d)));
  inw_data d pos left : drive_ok d → transfer d = Some (pos, left) → 0 < left → busy d = O →
    wp (inw ATA_DATA_REG) d (λ w d', drive_ok d' ∧ disk d' = disk d ∧
      w = disk d (2 * pos) + 256 * disk d (2 * pos + 1) ∧
      transfer d' = (if left =? 1 then None else Some (pos + 1, left - 1)) ∧
      ((left - 1) mod 256 ≠ 0 → busy d' = O));
}.

(** ** Reading sectors *)
Lemma nsectors_small len : 0 < len → len + 511 < 2 ^ 32 → nsectors_of len = (len + 511) / 512.
Proof.
  intros H1 H2. unfold nsectors_of, SECTOR_SIZE. rewrite w32_small by lia. f_equal. lia.
Qed.

Section proofs.
Context {D : Type} {PO : PortOps D} {AD : AtaDrive D} (spin : nat).
Hypothesis spin_pos : (ata_polls (D := D) < spin)%nat.
Implicit Types (s : machine D) (d : D).

Definition s_mem s : mem := h_mem (hp s).

(** The heap of [s'] is that of [s] with other memory. *)
Definition same_heap s s' : Prop :=
  heap_base (hp s') = heap_base (hp s) ∧ kernel_brk (hp s') = kernel_brk (hp s).

Lemma wp_in_drive {A} (m : M D A) s (Q : A → machine D → Prop) :
  wp m (drive s) (λ a d, Q a (Machine d (hp s))) → wp (in_drive m) s Q.
Proof. unfold wp, in_drive. by destruct (m (drive s)) as [[]| | |]. Qed.
Lemma wp_in_heap {A} (m : M heap A) s (Q : A → machine D → Prop) :
  wp m (hp s) (λ a h, Q a (Machine (drive s) h)) → wp (in_heap m) s Q.
Proof. unfold wp, in_heap. by destruct (m (hp s)) as [[]| | |]. Qed.

(** Polling ends with a drive that is not busy and otherwise as it was. *)
Definition waited s s' : Prop :=
  drive_ok (drive s') ∧ busy (drive s') = O ∧ disk (drive s') = disk (drive s) ∧ transfer (drive s') = transfer (drive s) ∧ hp s' = hp s.

Lemma wait_loop_ok fuel : ∀ s, drive_ok (drive s) → (busy (drive s) < fuel)%nat → wp (wait_ready_loop fuel) s (λ _ s', waited s s').
Proof.
  induction fuel as [|fuel IH]; intros s Hd Hf; [lia|]. cbn [wait_ready_loop].
  apply wp_bind, wp_in_drive. eapply wp_mono; [by apply inb_status|].
  intros st d (Hd' & Hk & _ & Ht & Hr & Hb). fold (ready st). rewrite Hr.
  destruct (Nat.eqb_spec (busy (drive s)) 0) as [E|E].
  - apply wp_ret. split_and!; try done. simpl. by rewrite Hb, E.
  - eapply wp_mono; [apply IH; simpl; [done|lia]|].
    intros _ s' (H1 & H2 & H3 & H4 & H5). simpl in *. split_and!; congruence.
Qed.
Lemma wait_ready_ok s (Q : unit → machine D → Prop) :
  drive_ok (drive s) → (∀ s', waited s s' → Q tt s') → wp (wait_ready spin) s Q.
Proof.
  intros Hd HQ. eapply wp_mono; [apply (wait_loop_ok spin s Hd)|by intros [] s'; apply HQ].
  pose proof (busy_bound (drive s) Hd). lia.
Qed.

Lemma ld8_st16 m a lo hi x :
  0 ≤ lo < 256 → 0 ≤ hi < 256 →
  ld8 (st16 m a (lo + 256 * hi)) x = if decide (x = a) then lo else if decide (x = a + 1) then hi else ld8 m x.
Proof.
  intros Hl Hh. unfold st16. cbn [st]. rewrite !ld8_st8. unfold w8.
  replace ((lo + 256 * hi) / 256) with hi by (apply (Z.div_unique_pos _ _ _ lo); lia).
  change (2 ^ 8) with 256. rewrite (Z.mod_small hi) by lia.
  replace ((lo + 256 * hi) mod 256) with lo by (apply (Z.mod_unique_pos _ _ hi); lia).
  destruct (decide (a + 1 = x)), (decide (a = x)), (decide (x = a)), (decide (x = a + 1)); done || lia.
Qed.

(** What reading [n] words does. *)
Definition words_read (n buf pos left : Z) s s' : Prop :=
  drive_ok (drive s') ∧ disk (drive s') = disk (drive s) ∧ same_heap s s' ∧
  transfer (drive s') = (if left =? n then None else Some (pos + n, left - n)) ∧
  ∀ x, ld8 (s_mem s') x =
    if decide (buf ≤ x < buf + 2 * n) then disk (drive s) (2 * pos + (x - buf)) else ld8 (s_mem s) x.

Lemma read_words_ok n buf pos left s :
  drive_ok (drive s) → transfer (drive s) = Some (pos, left) → Z.of_nat n ≤ (left - 1) mod 256 + 1 → 0 < left →
  (busy (drive s) = O ∨ n = O) → wp (read_words n buf) s (λ _ s', words_read (Z.of_nat n) buf pos left s s').
Proof.
  revert buf pos left s. induction n as [|n IH]; intros buf pos left s Hd Ht Hn Hl Hbusy; cbn [read_words].
  { apply wp_ret. unfold words_read. change (Z.of_nat 0) with 0. destruct (Z.eqb_spec left 0); [lia|].
    split_and!; try done; [rewrite Ht; do 2 f_equal; lia|]. intros x. by rewrite decide_False by lia. }
  destruct Hbusy as [Hbusy|]; [|done].
  apply wp_bind, wp_in_drive. eapply wp_mono; [by apply (inw_data _ pos left)|].
  intros w d (Hd1 & Hk1 & -> & Ht1 & Hb1). apply wp_bind, wp_in_heap, wp_modify.
  cbn [drive hp]. set (s1 := Machine d (set_h_mem _ _)).
  assert (∀ x, ld8 (s_mem s1) x = if decide (buf ≤ x < buf + 2) then disk (drive s) (2 * pos + (x - buf))
    else ld8 (s_mem s) x) as Hm1.
  { intros x. unfold s1, s_mem. cbn [hp h_mem set_h_mem]. rewrite ld8_st16 by by apply disk_byte.
    destruct (decide (x = buf)) as [->|]; [rewrite decide_True by lia; f_equal; lia|].
    destruct (decide (x = buf + 1)) as [->|]; [rewrite decide_True by lia; f_equal; lia|].
    by rewrite decide_False by lia. }
  destruct (Z.eqb_spec left 1) as [->|Hne].
  { assert (n = 0)%nat as -> by (change ((1 - 1) mod 256) with 0 in Hn; lia). cbn [read_words]. apply wp_ret. unfold words_read.
    split_and!; try done. }
  assert (Z.of_nat n ≤ (left - 1) mod 256) as Hn' by lia.
  assert (busy d = O ∨ n = O) as Hb' by (destruct n; [by right|left; apply Hb1; lia]).
  assert (Z.of_nat n ≤ (left - 1 - 1) mod 256 + 1) as Hn2.
  { destruct (Z.eq_dec ((left - 1) mod 256) 0) as [E|E]; [pose proof (Z.mod_pos_bound (left - 1 - 1) 256); lia|].
    pose proof (Z.div_mod (left - 1) 256 ltac:(lia)) as Hdm. pose proof (Z.mod_pos_bound (left - 1) 256 ltac:(lia)).
    rewrite <- (Z.mod_unique_pos (left - 1 - 1) 256 ((left - 1) / 256) ((left - 1) mod 256 - 1)); lia. }
  eapply wp_mono; [apply (IH (buf + 2) (pos + 1) (left - 1) s1); [done|done|done|lia|done]|].
  clear Hb'. intros _ s' (Hd' & Hk' & [Hb' Hbrk'] & Ht' & Hm'). unfold words_read.
  split; [done|]. split; [by rewrite Hk'|]. split; [by split|]. split.
  - rewrite Ht'. destruct (Z.eqb_spec (left - 1) (Z.of_nat n)), (Z.eqb_spec left (Z.of_nat (S n))); try lia; [done|].
    do 2 f_equal; lia.
  - intros x. rewrite Hm', Hm1. change (drive s1) with d. rewrite Hk1.
    destruct (decide (buf + 2 ≤ x < buf + 2 + 2 * Z.of_nat n)).
    + rewrite decide_True by lia. f_equal. lia.
    + destruct (decide (buf ≤ x < buf + 2)); [by rewrite decide_True by lia|by rewrite decide_False by lia].
Qed.

Lemma read_sectors_ok n buf pos left s :
  drive_ok (drive s) → transfer (drive s) = Some (pos, left) → 256 * Z.of_nat n ≤ left → left mod 256 = 0 → (0 < n)%nat →
  wp (read_sectors spin n buf) s (λ _ s', words_read (256 * Z.of_nat n) buf pos left s s').
Proof.
  revert buf pos left s. induction n as [|n IH]; intros buf pos left s Hd Ht Hn Hmod Hp; [lia|].
  cbn [read_sectors]. apply wp_bind, wait_ready_ok; [done|]. intros s0 (Hd0 & Hb0 & Hk0 & Ht0 & Hh0). apply wp_bind.
  assert ((left - 1) mod 256 = 255) as Hlast.
  { pose proof (Z.div_mod left 256 ltac:(lia)). symmetry. apply (Z.mod_unique_pos _ _ (left / 256 - 1)); lia. }
  assert ((left - 256) mod 256 = 0) as Hmod'.
  { pose proof (Z.div_mod left 256 ltac:(lia)). symmetry. apply (Z.mod_unique_pos _ _ (left / 256 - 1)); lia. }
  rewrite <- Ht0 in Ht. eapply wp_mono; [apply (read_words_ok 256 buf pos left s0); rewrite ?Hlast; try done; [lia|by left]|].
  assert (∀ n' s', words_read n' buf pos left s0 s' → words_read n' buf pos left s s') as Hfrom.
  { unfold words_read, same_heap, s_mem. rewrite Hk0, Hh0. done. }
  intros ? s' Hw. apply Hfrom in Hw. revert s' Hw.
  intros s1 (Hd1 & Hk1 & [Hb1 Hbrk1] & Ht1 & Hm1). destruct n as [|n].
  { cbn [read_sectors]. apply wp_ret. by split. }
  change (Z.of_nat 256) with 256 in *. destruct (Z.eqb_spec left 256); [lia|].
  eapply wp_mono; [apply (IH (buf + 512) (pos + 256) (left - 256) s1); [done|done|lia|done|lia]|].
  intros _ s' (Hd' & Hk' & [Hb' Hbrk'] & Ht' & Hm').
  split; [done|]. split; [by rewrite Hk'|]. split; [split; congruence|]. split.
  - rewrite Ht'. destruct (Z.eqb_spec (left - 256) (256 * Z.of_nat (S n))),
      (Z.eqb_spec left (256 * Z.of_nat (S (S n)))); try lia; [done|]. do 2 f_equal; lia.
  - intros x. rewrite Hm', Hm1, Hk1.
    destruct (decide (buf + 512 ≤ x < buf + 512 + 2 * (256 * Z.of_nat (S n)))).
    + rewrite decide_True by lia. f_equal. lia.
    + destruct (decide (buf ≤ x < buf + 2 * 256)); [by rewrite decide_True by lia|by rewrite decide_False by lia].
Qed.

Lemma byte_of_land x k : 0 ≤ k → Z.land (Z.shiftr x k) 0xFF = (x / 2 ^ k) mod 256.
Proof. intros. change 0xFF with (Z.ones 8). by rewrite Z.land_ones, Z.shiftr_div_pow2. Qed.

Lemma head_low x : 0 ≤ x < 16 → Z.land (w8 (Z.lor 0xE0 x)) 0xF = x.
Proof.
  intros Hx. unfold w8. change (2 ^ 8) with 256. change 256 with (2 ^ 8).
  rewrite <- (Z.land_ones _ 8), <- Z.land_assoc by lia. change (Z.land (Z.ones 8) 0xF) with (Z.ones 4).
  rewrite Z.land_lor_distr_l. change (Z.land 0xE0 (Z.ones 4)) with 0. rewrite Z.lor_0_l, Z.land_ones by lia.
  apply Z.mod_small. lia.
Qed.

(** [load_lba_nsectors] puts an LBA28 address into the task file. *)
Lemma load_lba_ok s lba n :
  drive_ok (drive s) → transfer (drive s) = None → busy (drive s) = O → 0 ≤ lba < 2 ^ 28 → 0 ≤ n < 256 →
  wp (load_lba_nsectors lba n) s (λ _ s', drive_ok (drive s') ∧ transfer (drive s') = None ∧ busy (drive s') = O ∧
    disk (drive s') = disk (drive s) ∧ hp s' = hp s ∧
    lba_of (task_file (drive s')) = lba ∧ task_file (drive s') ATA_SECTOR_COUNT_REG = n).
Proof.
  intros Hd Ht Hb Hlba Hn. unfold load_lba_nsectors.
  rewrite !byte_of_land by lia. change 0xFF with (Z.ones 8). rewrite Z.land_ones by lia.
  change (2 ^ 8) with 256. pose proof (w8_range (Z.lor 224 ((lba / 2 ^ 24) mod 256))) as Hh. unfold w8 in Hh at 2.
  assert (lba / 2 ^ 24 < 16) as Hq by (apply Z.div_lt_upper_bound; lia).
  assert (0 ≤ lba / 2 ^ 24) as Hq0 by (apply Z.div_pos; lia).
  assert (∀ q, 0 ≤ q mod 256 < 256) as Hm by (intros; apply Z.mod_pos_bound; lia).
  apply wp_bind, wp_in_drive. eapply wp_mono; [apply outb_task_file; try done; apply w8_range|].
  intros _ d1 (Hd1 & Ht1 & Hb1 & Hk1 & Hv1 & Ho1). apply wp_bind, wp_in_drive.
  eapply wp_mono; [apply (outb_task_file d1); try done; apply Hm|].
  intros _ d2 (Hd2 & Ht2 & Hb2 & Hk2 & Hv2 & Ho2). apply wp_bind, wp_in_drive.
  eapply wp_mono; [apply (outb_task_file d2); try done; apply Hm|].
  intros _ d3 (Hd3 & Ht3 & Hb3 & Hk3 & Hv3 & Ho3). apply wp_bind, wp_in_drive.
  eapply wp_mono; [apply (outb_task_file d3); try done; apply Hm|].
  intros _ d4 (Hd4 & Ht4 & Hb4 & Hk4 & Hv4 & Ho4). apply wp_in_drive.
  eapply wp_mono; [apply (outb_task_file d4); try done; apply Hm|].
  intros _ d5 (Hd5 & Ht5 & Hb5 & Hk5 & Hv5 & Ho5). cbn [drive hp]. split; [done|]. split; [done|]. split; [done|].
  split; [congruence|]. split; [done|]. split.
  - unfold lba_of. rewrite Hv5, !Ho5, Hv4, !Ho4, Hv3, !Ho3, !Ho2, Hv1 by discriminate.
    rewrite (Z.mod_small (lba / 2 ^ 24)) by lia. rewrite head_low by lia.
    pose proof (Z.div_mod lba 256 ltac:(lia)). pose proof (Z.div_mod (lba / 256) 256 ltac:(lia)).
    pose proof (Z.div_mod (lba / 256 / 256) 256 ltac:(lia)).
    change (2 ^ 24) with (256 * 256 * 256) in *. change (2 ^ 16) with (256 * 256). change (2 ^ 8) with 256.
    rewrite <- !Z.div_div in * by lia. lia.
  - by rewrite !Ho5, !Ho4, !Ho3, Hv2 by discriminate.
Qed.

(** [ata_read] brings whole sectors into memory. *)
Lemma ata_read_ok s buf lba n :
  drive_ok (drive s) → transfer (drive s) = None → 0 ≤ lba < 2 ^ 28 → 0 < n < 256 →
  wp (ata_read spin buf lba n) s (λ _ s', drive_ok (drive s') ∧ transfer (drive s') = None ∧
    disk (drive s') = disk (drive s) ∧ same_heap s s' ∧
    ∀ x, ld8 (s_mem s') x = if decide (buf ≤ x < buf + 512 * n) then disk (drive s) (512 * lba + (x - buf))
                            else ld8 (s_mem s) x).
Proof.
  intros Hd Ht Hlba Hn. unfold ata_read. apply wp_bind, wait_ready_ok; [done|]. intros s0 (Hd0 & Hb0 & Hk0 & Ht0 & Hh0). apply wp_bind.
  rewrite <- Ht0 in Ht. eapply wp_mono; [apply load_lba_ok; try done; lia|].
  intros _ s1 (Hd1 & Ht1 & Hb1 & Hk1 & Hh1 & Hl1 & Hc1). rewrite Hk0 in Hk1. rewrite Hh0 in Hh1. apply wp_bind, wp_in_drive.
  eapply wp_mono; [by apply outb_read|]. intros _ d2 (Hd2 & Hk2 & Ht2).
  rewrite Hl1 in Ht2. unfold count_of in Ht2. rewrite Hc1 in Ht2. destruct (Z.eqb_spec n 0); [lia|].
  set (s2 := Machine d2 (hp s1)).
  eapply wp_mono; [apply (read_sectors_ok (Z.to_nat n) buf (256 * lba) (256 * n) s2); try done; [lia|rewrite Z.mul_comm; apply Z.mod_mul; lia|lia]|].
  intros _ s' (Hd' & Hk' & [Hb' Hbrk'] & Ht' & Hm'). rewrite Z2Nat.id, Z.eqb_refl in Ht' by lia.
  split; [done|]. split; [done|]. split; [rewrite Hk'; simpl; congruence|]. split.
  - unfold s2 in Hb', Hbrk'. simpl in Hb', Hbrk'. rewrite Hh1 in *. by split.
  - intros x. rewrite Hm', Z2Nat.id by lia. unfold s2, s_mem. simpl. rewrite Hh1, Hk2, Hk1.
    replace (2 * (256 * n)) with (512 * n) by lia. replace (2 * (256 * lba)) with (512 * lba) by lia. done.
Qed.

(** A byte the heap lends to nobody else: in a block in use, or outside the
    heap. *)
Definition client_byte (bs : blocks) (x : Z) : Prop :=
  (∃ b, b ∈ live bs ∧ payload b x) ∨ ¬ (KERNEL_BRK_START ≤ x < KERNEL_BRK_START + span bs).

Lemma client_not_header h bs x : heap_ok h bs → client_byte bs x → ¬ headers KERNEL_BRK_START bs x.
Proof.
  intros Hok [(b & Hb & Hx)|Hx] Hh.
  - by apply (live_not_header KERNEL_BRK_START bs b x (heap_pos _ _ Hok)).
  - apply Hx, headers_bounds; [by eapply heap_pos|done].
Qed.

(** The machine is idle, with a well-formed heap. *)
Definition machine_ok s bs : Prop :=
  drive_ok (drive s) ∧ transfer (drive s) = None ∧ heap_ok (hp s) bs.

Lemma ata_read_bytes_ok s bs buf off len :
  machine_ok s bs → 0 ≤ off < 2 ^ 32 → 0 < len → nsectors_of len < 256 → len + 511 < 2 ^ 32 →
  off mod 512 + len ≤ 512 * nsectors_of len → buf ≠ 0 →
  Exists (λ b, fits (512 * nsectors_of len) b = true) bs →
  (∀ x, buf ≤ x < buf + len → client_byte bs x) →
  wp (ata_read_bytes spin buf off len) s (λ _ s', machine_ok s' bs ∧
    disk (drive s') = disk (drive s) ∧
    ∀ x, client_byte bs x → ld8 (s_mem s') x =
      if decide (buf ≤ x < buf + len) then disk (drive s) (off + (x - buf)) else ld8 (s_mem s) x).
Proof.
  intros (Hd & Ht & Hok) Hoff Hlen Hns Hl32 Hfit Hbuf Hex Hcl. unfold ata_read_bytes.
  set (ns := nsectors_of len) in *. assert (0 < ns) as Hns0.
  { unfold ns. rewrite nsectors_small by lia. apply Z.div_str_pos. lia. }
  assert (0 ≤ off mod 512 < 512) as Hso by (apply Z.mod_pos_bound; lia).
  pose proof (Z.div_mod off 512 ltac:(lia)) as Hdm.
  unfold SECTOR_SIZE. rewrite (w32_small (ns * 512)), (w8_small ns) by lia. rewrite (Z.mul_comm ns).
  apply wp_bind, wp_in_heap. eapply wp_mono; [apply (kmalloc_scoped (hp s) bs (512 * ns)); [done|lia|done]|].
  intros p h1 (n & bs1 & Hn & Hok1 & Hspan & Ho1 & Hlive & Hold & Hfree).
  destruct (Z.eqb_spec buf 0); [done|]. apply wp_bind.
  set (s1 := Machine (drive s) h1).
  eapply wp_mono; [apply (ata_read_ok s1 p (off / 512) ns); try done|].
  { split; [apply Z.div_pos; lia|apply Z.div_lt_upper_bound; lia]. }
  intros _ s2 (Hd2 & Ht2 & Hk2 & [Hb2 Hbrk2] & Hm2). apply wp_bind. unfold store. apply wp_in_heap, wp_modify.
  pose proof (live_bounds KERNEL_BRK_START bs1 (p, n) (heap_pos _ _ Hok1) Hlive) as Hpb. simpl in Hpb.
  assert (∀ x, client_byte bs x → ¬ (p ≤ x < p + n)) as Hdis.
  { intros x [(b & Hb & Hx)|Hx] Hpx.
    - destruct (Hold b Hb) as [_ [Hap|Hap]]; unfold payload in Hx; simpl in Hap; lia.
    - rewrite <- Hspan in Hx. apply Hx. unfold sizeof_block in Hpb. lia. }
  assert (∀ x, client_byte bs x → ¬ headers KERNEL_BRK_START bs1 x) as Hcl1.
  { intros x [(b & Hb & Hx)|Hx].
    - apply (client_not_header h1 bs1); [done|]. left. exists b. split; [by apply Hold|done].
    - apply (client_not_header h1 bs1); [done|]. right. by rewrite Hspan. }
  set (m3 := memcpy (h_mem (hp s2)) buf (p + off mod 512) len). set (h3 := set_h_mem (hp s2) m3).
  assert (buf ≤ p + off mod 512 ∨ p + off mod 512 + len ≤ buf) as Hov.
  { destruct (Z.le_gt_cases buf (p + off mod 512)); [by left|]. right.
    destruct (Z.le_gt_cases (p + off mod 512 + len) buf); [done|exfalso].
    apply (Hdis buf); [apply Hcl; lia|lia]. }
  assert (∀ x, ld8 m3 x = if decide (buf ≤ x < buf + len) then ld8 (s_mem s2) (p + off mod 512 + (x - buf))
    else ld8 (s_mem s2) x) as Hm3 by (intros x; by apply ld8_memcpy).
  assert (heap_ok h3 bs1) as Hok3.
  { apply (heap_ok_ext h1); [done|exact Hb2|exact Hbrk2|]. intros x Hx. unfold h3. simpl.
    rewrite Hm3, decide_False, Hm2, decide_False; [done|..].
    - intros Hpx. apply (live_not_header KERNEL_BRK_START bs1 (p, n) x (heap_pos _ _ Hok1) Hlive); [|done].
      unfold payload. simpl. lia.
    - intros Hbx. by apply (Hcl1 x); [apply Hcl|]. }
  apply wp_in_heap. eapply wp_mono; [by apply (Hfree h3)|]. intros _ h4 [Hok4 Ho4]. cbn [drive hp].
  split; [by split_and!|]. split; [done|]. intros x Hx. unfold s_mem at 1. cbn [hp].
  assert (¬ headers KERNEL_BRK_START bs x) as Hnh by by apply (client_not_header (hp s) bs).
  rewrite Ho4 by auto. unfold h3. cbn [h_mem set_h_mem]. rewrite Hm3. case_decide as Hbx.
  - rewrite Hm2, decide_True by lia. simpl. f_equal. lia.
  - rewrite Hm2, decide_False by (intros Hpx; apply (Hdis x); [done|lia]).
    unfold s1, s_mem. simpl. by apply Ho1; auto.
Qed.
End proofs.

(** ** A drive *)
(** It is busy for two reads of its status after a command, and for one after
    each sector; a busy drive ignores its registers. *)
Record sim := Sim { sim_bytes : Z → Z; sim_regs : Z → Z; sim_xfer : option (Z * Z); sim_busy : nat }.

#[export] Instance sim_ports : PortOps sim := {
  inb r := λ d,
    if r =? ATA_STATUS_COMMAND_REG then
      Ok (if (sim_busy d =? 0)%nat then STATUS_RDY else STATUS_BSY, Sim (sim_bytes d) (sim_regs d) (sim_xfer d) (pred (sim_busy d)))
    else Ok (0, d);
  outb r v := modify (λ d,
    if negb (sim_busy d =? 0)%nat then d
    else if r =? ATA_STATUS_COMMAND_REG then
      if v =? COMMAND_READ
      then Sim (sim_bytes d) (sim_regs d) (Some (256 * lba_of (sim_regs d), 256 * count_of (sim_regs d))) 2
      else d
    else Sim (sim_bytes d) (λ r', if r' =? r then v else sim_regs d r') (sim_xfer d) 0);
  inw _ := λ d,
    match sim_xfer d, sim_busy d with
    | Some (pos, rest), O =>
        Ok (w8 (sim_bytes d (2 * pos)) + 256 * w8 (sim_bytes d (2 * pos + 1)),
            Sim (sim_bytes d) (sim_regs d) (if rest =? 1 then None else Some (pos + 1, rest - 1)) (if (rest - 1) mod 256 =? 0 then 1 else 0))
    | _, _ => Fault
    end;
  outw _ _ := mret_ tt;
}.

#[export] Instance sim_drive : AtaDrive sim.
Proof.
  refine {| disk d i := w8 (sim_bytes d i); task_file := sim_regs; transfer := sim_xfer; busy := sim_busy; ata_polls := 2;
            drive_ok d := (sim_busy d ≤ 2)%nat |}.
  - intros d i _. apply w8_range.
  - done.
  - intros d Hd. unfold wp, inb. simpl. split; [lia|]. do 3 (split; [done|]). split; [|done]. by destruct (sim_busy d).
  - intros d r v _ Ht Hb Hr Hv. apply wp_modify. unfold ATA_STATUS_COMMAND_REG, ATA_DRIVE_HEAD_REG in *.
    rewrite Hb. destruct (Z.eqb_spec r 0x1F7); [lia|]. simpl. split; [lia|]. do 3 (split; [done|]). split.
    + by rewrite Z.eqb_refl.
    + intros r' Hne. by destruct (Z.eqb_spec r' r).
  - intros d _ _ Hb. apply wp_modify. by rewrite Hb.
  - intros d pos left _ Ht Hl Hb. unfold wp, inw. simpl. rewrite Ht, Hb. split; [destruct (_ =? 0); simpl; lia|].
    do 3 (split; [done|]). intros Hne. by destruct (Z.eqb_spec ((left - 1) mod 256) 0).
Defined.

Definition ex_drive : sim := Sim (λ i, i / 512) (λ _, 0) None 1.
Lemma ex_polls : (ata_polls (D := sim) < 3)%nat.
Proof. apply Nat.lt_succ_diag_r. Qed.

(** reading bytes from the drive: when the wanted bytes lie in the sectors
    that are read ([off mod 512 + len] fits in the sectors that [len] alone
    needs, less than 256), [buf] holds the bytes of the drive from [off] on,
    every other byte the heap has lent or does not own is unchanged, and the
    bounce buffer is back in the heap, which is as it was. *)
Theorem ata_read_bytes_spec {D : Type} {PO : PortOps D} {AD : AtaDrive D} (spin : nat)
    (s : machine D) (bs : blocks) (buf off len : Z)
    (Hspin : (ata_polls (D := D) < spin)%nat) (Hok : machine_ok s bs) (Hoff : 0 ≤ off < 2 ^ 32)
    (Hlen : 0 < len ∧ len + 511 < 2 ^ 32) (Hns : nsectors_of len < 256)
    (Hin : off mod 512 + len ≤ 512 * nsectors_of len) (Hbuf : buf ≠ 0)
    (Hroom : Exists (λ b, fits (512 * nsectors_of len) b = true) bs)
    (Hcl : ∀ x, buf ≤ x < buf + len → client_byte bs x) :
  ∃ s', ata_read_bytes spin buf off len s = Ok (tt, s') ∧ machine_ok s' bs ∧
    (∀ i, 0 ≤ i < len → ld8 (s_mem s') (buf + i) = disk (drive s) (off + i)) ∧
    (∀ x, client_byte bs x → ¬ (buf ≤ x < buf + len) → ld8 (s_mem s') x = ld8 (s_mem s) x).
Proof.
  destruct (proj1 (wp_run _ _ _) (ata_read_bytes_ok spin Hspin s bs buf off len Hok Hoff (proj1 Hlen)
    Hns (proj2 Hlen) Hin Hbuf Hroom Hcl)) as ([] & s' & Hrun & Hok' & _ & Hm).
  exists s'. split; [done|]. split; [done|]. split.
  - intros i Hi. rewrite Hm by (apply Hcl; lia). rewrite decide_True by lia. f_equal. lia.
  - intros x Hx Hnot. rewrite Hm by done. by rewrite decide_False.
Qed.
Lemma ata_read_bytes_spec_witness : ∃ (s s' : machine sim),
  ata_read_bytes 3 4096 1024 264 s = Ok (tt, s') ∧ ld8 (s_mem s') 4096 = 2.
Proof.
  destruct ex_heap as [h Hh].
  destruct (ata_read_bytes_spec 3 (Machine ex_drive h) ex_blocks 4096 1024 264
    ex_polls (conj (Nat.le_succ_diag_r 1) (conj eq_refl Hh)) ltac:(lia) ltac:(lia) ltac:(vm_compute; reflexivity)
    ltac:(vm_compute; discriminate) ltac:(lia) ltac:(left; vm_compute; reflexivity)
    ltac:(intros x Hx; right; unfold KERNEL_BRK_START; lia)) as (s' & H & _ & Hm & _).
  exists (Machine ex_drive h), s'. split; [exact H|].
  replace 4096 with (4096 + 0) at 1 by lia. rewrite Hm by lia. vm_compute. reflexivity.
Defined.
