(* ===== verification/Ext2.v ===== *)
(** The read-only ext2 file system, [fs/ext2.c], on the ATA driver.

    The on-disk structures are read from byte memory at the offsets of the
    C structs, computed from their declarations ([Layout]); [fs], [in] and [buf] are addresses, and variables on the
    stack are addresses passed in as parameters.  Loops over strings and
    directory entries take fuel. *)

From S2P Require Import Prelude Layout Memory CString Kmalloc Ata.

Definition SB_START_BYTES : Z := 1024.
Definition EXT2_ROOT_INO : Z := 2.
Definition EXT2_NDIR_BLK : Z := 12.
Definition EXT2_IND_BLK : Z := EXT2_NDIR_BLK.
Definition EXT2_DIND_BLK : Z := EXT2_IND_BLK + 1.
Definition EXT2_TIND_BLK : Z := EXT2_DIND_BLK + 1.

(** ** The structs of [include/ext2.h] *)
Definition ext2_sb : layout :=
  [u32 "s_inodes_count"; u32 "s_blocks_count"; u32 "s_r_blocks_count"; u32 "s_free_blocks_count";
   u32 "s_free_inodes_count"; u32 "s_first_data_block"; u32 "s_log_block_size"; u32 "s_log_frag_size";
   u32 "s_blocks_per_group"; u32 "s_frags_per_group"; u32 "s_inodes_per_group"; u32 "s_mtime"; u32 "s_wtime";
   u16 "s_mnt_count"; u16 "s_max_mnt_count"; u16 "s_magic"; u16 "s_state"; u16 "s_errors"; u16 "s_minor_rev_level";
   u32 "s_lastcheck"; u32 "s_checkinterval"; u32 "s_creator_os"; u32 "s_rev_level"; u16 "s_def_resuid";
   u16 "s_def_resgid";
   u32 "s_first_ino"; u16 "s_inode_size"; u16 "s_block_group_nr"; u32 "s_feature_compat"; u32 "s_feature_incompat";
   u32 "s_feature_ro_compat"; arr "s_uuid" 1 16; arr "s_volume_name" 1 16; arr "s_last_mounted" 1 64;
   u32 "s_algo_bitmap";
   u8 "s_prealloc_blocks"; u8 "s_prealloc_dir_blocks"; u16 "pad1";
   arr "s_journal_uuid" 1 16; u32 "s_journal_inum"; u32 "s_journal_dev"; u32 "s_last_orphan";
   arr "s_hash_seed" 4 4; u8 "s_def_hash_version"; arr "pad2" 1 3;
   u32 "s_default_mount_options"; u32 "s_first_meta_bg"].
Definition ext2_bgd : layout :=
  [u32 "bg_block_bitmap"; u32 "bg_inode_bitmap"; u32 "bg_inode_table"; u16 "bg_free_blocks_count";
   u16 "bg_free_inodes_count"; u16 "bg_used_dirs_count"; u16 "bg_pad"; arr "bg_reserved" 1 12].
Definition ext2_ino : layout :=
  [u16 "i_mode"; u16 "i_uid"; u32 "i_size"; u32 "i_atime"; u32 "i_ctime"; u32 "i_mtime"; u32 "i_dtime"; u16 "i_gid";
   u16 "i_links_count"; u32 "i_blocks"; u32 "i_flags"; u32 "i_osd1"; arr "i_block" 4 15; u32 "i_generation";
   u32 "i_file_acl"; u32 "i_dir_acl"; u32 "i_faddr"; arr "i_osd2" 1 12].
Definition ext2_dirent : layout := [u32 "inode"; u16 "rec_len"; u8 "name_len"; u8 "file_type"; arr "name" 1 0].
Definition sizeof_sb : Z := Eval vm_compute in sizeof true ext2_sb.
Definition sizeof_bgd : Z := Eval vm_compute in sizeof true ext2_bgd.
Definition sizeof_ino : Z := Eval vm_compute in sizeof true ext2_ino.
(** [struct ext2_fs] is not packed, the structs in it are. *)
Definition ext2_fs : layout := [u32 "block_size"; arr "sb" 1 sizeof_sb; arr "rooti" 1 sizeof_ino; u64 "bgdt"].
Definition sizeof_fs : Z := Eval vm_compute in sizeof false ext2_fs.

Definition s_blocks_count (m : mem) (sb : Z) : Z := ld32 m (sb + field_of true ext2_sb "s_blocks_count").
Definition s_log_block_size (m : mem) (sb : Z) : Z := ld32 m (sb + field_of true ext2_sb "s_log_block_size").
Definition s_blocks_per_group (m : mem) (sb : Z) : Z := ld32 m (sb + field_of true ext2_sb "s_blocks_per_group").
Definition s_inodes_per_group (m : mem) (sb : Z) : Z := ld32 m (sb + field_of true ext2_sb "s_inodes_per_group").

Definition bg_inode_table (m : mem) (bg : Z) : Z := ld32 m (bg + field_of true ext2_bgd "bg_inode_table").

Definition i_mode (m : mem) (i : Z) : Z := ld16 m (i + field_of true ext2_ino "i_mode").
Definition i_size (m : mem) (i : Z) : Z := ld32 m (i + field_of true ext2_ino "i_size").
Definition i_blocks (m : mem) (i : Z) : Z := ld32 m (i + field_of true ext2_ino "i_blocks").
Definition i_block (m : mem) (i k : Z) : Z := ld32 m (i + field_of true ext2_ino "i_block" + 4 * k).

Definition de_inode (m : mem) (de : Z) : Z := ld32 m (de + field_of true ext2_dirent "inode").
Definition de_rec_len (m : mem) (de : Z) : Z := ld16 m (de + field_of true ext2_dirent "rec_len").
Definition de_name_len (m : mem) (de : Z) : Z := ld8 m (de + field_of true ext2_dirent "name_len").
Definition de_name (de : Z) : Z := de + field_of true ext2_dirent "name".

Definition fs_block_size (m : mem) (fs : Z) : Z := ld32 m (fs + field_of false ext2_fs "block_size").
Definition fs_sb (fs : Z) : Z := fs + field_of false ext2_fs "sb".
Definition fs_rooti (fs : Z) : Z := fs + field_of false ext2_fs "rooti".
Definition fs_bgdt (m : mem) (fs : Z) : Z := ld64 m (fs + field_of false ext2_fs "bgdt").

(** The indices to follow for a block of a file: the entry of [i_block], then
    an entry of each indirect block.  [blk] is a 32-bit word and the bounds are
    [long]s, so the comparisons are signed. *)
Definition ext2_block_offsets (block_size blk : Z) : result (list Z) :=
  let ptrs_per_block := block_size / 4 in
  let direct_blocks := EXT2_NDIR_BLK in
  let indirect_blocks := ptrs_per_block in
  let double_blocks := indirect_blocks * indirect_blocks in
  let triple_blocks := double_blocks * double_blocks in
  if blk <? direct_blocks then Ok [s32 blk] else
  let blk := w32 (blk - direct_blocks) in
  if blk - direct_blocks <? indirect_blocks then Ok [EXT2_IND_BLK; s32 blk] else
  let blk := w32 (blk - indirect_blocks) in
  if blk - indirect_blocks <? double_blocks then
    Ok [EXT2_DIND_BLK; s32 (blk / ptrs_per_block); s32 (blk mod ptrs_per_block)] else
  let blk := w32 (blk - double_blocks) in
  if blk - double_blocks <? triple_blocks then
    Ok [EXT2_TIND_BLK; s32 (blk / (ptrs_per_block * ptrs_per_block)); s32 (blk / ptrs_per_block);
        s32 (blk mod ptrs_per_block)] else
  Panic "block too big: %d".

Section code.
Context {D : Type} {PO : PortOps D}.
Variable spin : nat.

Definition read_blk (fs buf boff len : Z) : M (machine D) unit :=
  let* bs := load (λ m, fs_block_size m fs) in
  ata_read_bytes spin buf (w32 (boff * bs)) len.

Definition ext2_get_inode (fs buf ino : Z) : M (machine D) unit :=
  let* per_group := load (λ m, s_inodes_per_group m (fs_sb fs)) in
  if per_group =? 0 then fault else
  let* bgdt := load (λ m, fs_bgdt m fs) in
  let bg := bgdt + sizeof_bgd * (w32 ino / per_group) in
  let ioff := s32 (w32 ino mod per_group - 1) in
  let* table := load (λ m, bg_inode_table m bg) in
  let* bs := load (λ m, fs_block_size m fs) in
  let off := w32 (w32 (table * bs) + ioff * sizeof_ino) in
  ata_read_bytes spin buf off sizeof_ino.

(** [sb] and [r_inodes] are the local variables. *)
Definition ext2_mount_rootfs (sb r_inodes : Z) : M (machine D) Z :=
  let* fs := in_heap (kmalloc sizeof_fs) in
  if fs =? 0 then panic "out of memory" else
  store (λ m, memset m sb 0 sizeof_sb) ;;*
  ata_read_bytes spin sb SB_START_BYTES sizeof_sb ;;*
  store (λ m, memcpy m (fs_sb fs) sb sizeof_sb) ;;*
  let* log := load (λ m, s_log_block_size m sb) in
  if 21 <=? log then fault else
  store (λ m, st32 m fs (Z.shiftl 1024 log)) ;;*
  let* count := load (λ m, s_blocks_count m sb) in
  let* per_group := load (λ m, s_blocks_per_group m sb) in
  if per_group =? 0 then fault else
  let bgdt_elems := s32 (count / per_group) in
  let* bgdt := in_heap (kmalloc (w64 (bgdt_elems * sizeof_bgd))) in
  store (λ m, st64 m (fs + 400) bgdt) ;;*
  read_blk fs bgdt 2 (w32 (bgdt_elems * sizeof_bgd)) ;;*
  let* table := load (λ m, bg_inode_table m bgdt) in
  read_blk fs r_inodes table (11 * sizeof_ino) ;;*
  store (λ m, memcpy m (fs_rooti fs) (r_inodes + sizeof_ino) sizeof_ino) ;;*
  mret_ fs.

(** [for (int i = 1; i < n; i++) read_blk(fs, buf, ptrs[offsets[i]], ...)] *)
Fixpoint follow_offsets (fs buf : Z) (offsets : list Z) : M (machine D) unit :=
  match offsets with
  | [] => mret_ tt
  | o :: rest =>
      let* ptr := load (λ m, ld32 m (buf + 4 * o)) in
      let* bs := load (λ m, fs_block_size m fs) in
      read_blk fs buf ptr bs ;;*
      follow_offsets fs buf rest
  end.

Definition ext2_get_block (fs i buf blk : Z) : M (machine D) unit :=
  let* nb := load (λ m, i_blocks m i) in
  if nb <? blk then panic "get block at index greater than file size" else
  let* bs := load (λ m, fs_block_size m fs) in
  let* offsets := (λ s, match ext2_block_offsets bs blk with
    | Ok l => Ok (l, s) | Panic e => Panic e | Fault => Fault | NoFuel => NoFuel end) in
  match offsets with
  | [] => fault
  | o :: rest =>
      let* ptr := load (λ m, i_block m i o) in
      let* bs := load (λ m, fs_block_size m fs) in
      read_blk fs buf ptr bs ;;*
      follow_offsets fs buf rest
  end.

Fixpoint get_blocks_loop (n : nat) (fs i buf k : Z) : M (machine D) unit :=
  match n with
  | O => mret_ tt
  | S n' =>
      let* bs := load (λ m, fs_block_size m fs) in
      ext2_get_block fs i (buf + w32 (k * bs)) k ;;*
      get_blocks_loop n' fs i buf (k + 1)
  end.
Definition ext2_get_blocks (fs i buf n : Z) : M (machine D) unit :=
  get_blocks_loop (Z.to_nat n) fs i buf 0.

Definition ext2_read_file (fs ino : Z) : M (machine D) Z :=
  let* inode_buf := in_heap (kcalloc 1 sizeof_ino) in
  ext2_get_inode fs inode_buf ino ;;*
  let* size := load (λ m, i_size m inode_buf) in
  let* bs := load (λ m, fs_block_size m fs) in
  if bs =? 0 then fault else
  let nblk := w32 (size + bs - 1) / bs in
  let* buf := in_heap (kmalloc (w32 (nblk * bs))) in
  ext2_get_blocks fs inode_buf buf nblk ;;*
  let* size := load (λ m, i_size m inode_buf) in
  store (λ m, memset m (buf + size) 0 (w32 (w32 (nblk * bs) - size))) ;;*
  in_heap (free inode_buf) ;;*
  mret_ buf.

(** The length of a path component. *)
Fixpoint comp_len (fuel : nat) (m : mem) (p l : Z) : result Z :=
  match fuel with
  | O => NoFuel
  | S fuel' =>
      let c := ld8 m (p + l) in
      if negb (c =? 47) && negb (c =? 0) then comp_len fuel' m p (l + 1) else Ok l
  end.

Definition lift_result {A} (f : mem → result A) : M (machine D) A := λ s,
  match f (h_mem (hp s)) with
  | Ok a => Ok (a, s) | Panic e => Panic e | Fault => Fault | NoFuel => NoFuel
  end.

(** The search of one directory block: the inode of the first entry whose name
    compares equal. *)
Fixpoint find_dirent (fuel sfuel : nat) (fs dirbuf comp doff : Z) : M (machine D) (option Z) :=
  match fuel with
  | O => nofuel
  | S fuel' =>
      let* bs := load (λ m, fs_block_size m fs) in
      if negb (doff <? bs) then mret_ None else
      let de := dirbuf + doff in
      let* inode := load (λ m, de_inode m de) in
      let* rec_len := load (λ m, de_rec_len m de) in
      if inode =? 0 then find_dirent fuel' sfuel fs dirbuf comp (w32 (doff + rec_len)) else
      let* name_len := load (λ m, de_name_len m de) in
      let* r := lift_result (λ m, strncmp sfuel m comp (de_name de) name_len) in
      if r =? 0 then mret_ (Some inode)
      else find_dirent fuel' sfuel fs dirbuf comp (w32 (doff + rec_len))
  end.

Fixpoint namei_loop (fuel sfuel : nat) (fs comp dirbuf i comp_start ino : Z) : M (machine D) Z :=
  match fuel with
  | O => nofuel
  | S fuel' =>
      let* c := load (λ m, ld8 m comp_start) in
      if c =? 0 then mret_ ino else
      let* l := lift_result (λ m, comp_len sfuel m comp_start 0) in
      store (λ m, memcpy m comp comp_start l) ;;*
      store (λ m, st8 m (comp + l) 0) ;;*
      let comp_start := comp_start + l in
      let* c := load (λ m, ld8 m comp_start) in
      let comp_start := if c =? 47 then comp_start + 1 else comp_start in
      ext2_get_block fs i dirbuf 0 ;;*
      let* r := find_dirent fuel' sfuel fs dirbuf comp 0 in
      match r with
      | None => panic "path %s does not exist"
      | Some ino =>
          ext2_get_inode fs i (s32 ino) ;;*
          namei_loop fuel' sfuel fs comp dirbuf i comp_start (s32 ino)
      end
  end.

(** [comp] is the local array of 256 bytes. *)
Definition ext2_namei (fuel sfuel : nat) (comp fs path : Z) : M (machine D) Z :=
  let comp_start := path + 1 in
  let* bs := load (λ m, fs_block_size m fs) in
  let* dirbuf := in_heap (kmalloc bs) in
  let* i := in_heap (kcalloc 1 sizeof_ino) in
  store (λ m, memcpy m i (fs_rooti fs) sizeof_ino) ;;*
  let* ino := namei_loop fuel sfuel fs comp dirbuf i comp_start EXT2_ROOT_INO in
  in_heap (free dirbuf) ;;*
  in_heap (free i) ;;*
  mret_ ino.

(** The loop of [ext2_getdents]: an entry with inode 0 is skipped by a
    [continue] that does not advance. *)
Fixpoint getdents_loop (fuel : nat) (fs data buf doff us_doff : Z) : M (machine D) Z :=
  match fuel with
  | O => nofuel
  | S fuel' =>
      let* bs := load (λ m, fs_block_size m fs) in
      if negb (doff <? bs) then mret_ us_doff else
      let de := data + doff in
      let us_de := buf + us_doff in
      let* inode := load (λ m, de_inode m de) in
      if inode =? 0 then getdents_loop fuel' fs data buf doff us_doff else
      store (λ m, st32 m us_de inode) ;;*
      let* name_len := load (λ m, de_name_len m de) in
      store (λ m, st32 m (us_de + 4) (8 + name_len + 1)) ;;*
      store (λ m, fst (strlcpy m (us_de + 8) (de_name de) name_len)) ;;*
      let* rec_len := load (λ m, de_rec_len m de) in
      let* us_rec := load (λ m, ld32 m (us_de + 4)) in
      getdents_loop fuel' fs data buf (w32 (doff + rec_len)) (w32 (us_doff + us_rec))
  end.

(** [i] is the local inode; [count] is not looked at. *)
Definition ext2_getdents (fuel : nat) (rootfs i ino buf count : Z) : M (machine D) Z :=
  let* bs := load (λ m, fs_block_size m rootfs) in
  let* data := in_heap (kmalloc bs) in
  ext2_get_inode rootfs i ino ;;*
  let* ptr := load (λ m, i_block m i 0) in
  let* bs := load (λ m, fs_block_size m rootfs) in
  read_blk rootfs data ptr bs ;;*
  let* us_doff := getdents_loop fuel rootfs data buf 0 0 in
  in_heap (free data) ;;*
  mret_ us_doff.
End code.

(** ** The reference: the block map of an ext2 inode

    With [p] pointers per block: 12 direct blocks, then [p] blocks through one
    indirect block, then [p * p] through two levels. *)
Definition ext2_layout (p blk : Z) : list Z :=
  if blk <? 12 then [blk]
  else if blk - 12 <? p then [12; blk - 12]
  else [13; (blk - 12 - p) / p; (blk - 12 - p) mod p].

Lemma block_offsets_ok bsz blk p :
  bsz = 4 * p → 0 < p ≤ 2 ^ 14 → 0 ≤ blk < 12 + p + p * p →
  ext2_block_offsets bsz blk =
  Ok (if (12 + p <=? blk) && (blk <? 24 + p) then [12; blk - 12] else ext2_layout p blk).
Proof.
  intros -> Hp Hblk. unfold ext2_block_offsets, ext2_layout, EXT2_NDIR_BLK, EXT2_DIND_BLK, EXT2_IND_BLK, EXT2_NDIR_BLK.
  assert (p * p ≤ 2 ^ 28) by nia.
  rewrite (Z.mul_comm 4), Z.div_mul by lia.
  destruct (Z.ltb_spec blk 12).
  { destruct (Z.leb_spec (12 + p) blk); [lia|]. simpl. by rewrite s32_small by lia. }
  rewrite (w32_small (blk - 12)) by lia. destruct (Z.ltb_spec (blk - 12 - 12) p).
  { rewrite s32_small by lia. destruct (Z.leb_spec (12 + p) blk), (Z.ltb_spec blk (24 + p)), (Z.ltb_spec (blk - 12) p);
      simpl; done || lia. }
  rewrite (w32_small (blk - 12 - p)) by lia. destruct (Z.ltb_spec (blk - 12 - p - p) (p * p)); [|lia].
  destruct (Z.ltb_spec blk (24 + p)); [lia|]. rewrite andb_false_r. destruct (Z.ltb_spec (blk - 12) p); [lia|].
  pose proof (Z.mod_pos_bound (blk - 12 - p) p ltac:(lia)).
  assert ((blk - 12 - p) / p < p) by (apply Z.div_lt_upper_bound; lia).
  assert (0 ≤ (blk - 12 - p) / p) by (apply Z.div_pos; lia).
  rewrite !s32_small by lia. done.
Qed.

(** A little-endian word of the drive. *)
Definition disk_word (dk : Z → Z) (a : Z) : Z :=
  dk a + 256 * (dk (a + 1) + 256 * (dk (a + 1 + 1) + 256 * (dk (a + 1 + 1 + 1) + 256 * 0))).

(** The block number found by following [offsets] from block [ptr], and that
    every block on the way is on a drive of 4 GiB. *)
Fixpoint walk (dk : Z → Z) (bsz ptr : Z) (offsets : list Z) : Z :=
  match offsets with
  | [] => ptr
  | o :: rest => walk dk bsz (disk_word dk (ptr * bsz + 4 * o)) rest
  end.
Fixpoint walk_ok (dk : Z → Z) (bsz ptr : Z) (offsets : list Z) : Prop :=
  0 ≤ ptr ∧ ptr * bsz < 2 ^ 32 ∧
  match offsets with
  | [] => True
  | o :: rest => walk_ok dk bsz (disk_word dk (ptr * bsz + 4 * o)) rest
  end.

(** ** Reading blocks *)
(** The sizes of a block that the driver reads whole: 1, 2, ..., 32 KiB. *)
Definition good_bsz (bsz : Z) : Prop := 512 ≤ bsz < 2 ^ 16 ∧ bsz mod 512 = 0.

Lemma good_bsz_sectors bsz : good_bsz bsz → 512 * nsectors_of bsz = bsz ∧ nsectors_of bsz < 256.
Proof.
  intros [Hb Hm]. rewrite nsectors_small by lia. pose proof (Z.div_mod bsz 512 ltac:(lia)) as Hd. rewrite Hm in Hd.
  replace ((bsz + 511) / 512) with (bsz / 512); [lia|].
  apply (Z.div_unique_pos _ _ _ 511); lia.
Qed.

Section buffers.
Context {D : Type}.
Implicit Types (s : machine D).

(** [buf] is a buffer of the client of the heap that is apart from the file
    system's block size. *)
Definition block_buffer (bs : blocks) (fs bsz buf : Z) : Prop :=
  buf ≠ 0 ∧ (∀ x, buf ≤ x < buf + bsz → client_byte bs x) ∧ (∀ x, fs ≤ x < fs + 4 → client_byte bs x) ∧
  (buf + bsz ≤ fs ∨ fs + 4 ≤ buf).

Definition holds_block s (dk : Z → Z) (bsz buf ptr : Z) : Prop :=
  ∀ j, 0 ≤ j < bsz → ld8 (s_mem s) (buf + j) = dk (ptr * bsz + j).

(** Only the buffer changes, of what the heap has lent. *)
Definition only_buffer (bs : blocks) (buf len : Z) s s' : Prop :=
  ∀ x, client_byte bs x → ¬ (buf ≤ x < buf + len) → ld8 (s_mem s') x = ld8 (s_mem s) x.

Lemma block_size_same bs fs bsz buf s s' :
  block_buffer bs fs bsz buf → only_buffer bs buf bsz s s' →
  fs_block_size (s_mem s') fs = fs_block_size (s_mem s) fs.
Proof.
  intros (_ & _ & Hc & Hd) Ho. unfold fs_block_size, ld32. apply ld_ext. intros x Hx. apply Ho; [apply Hc; lia|lia].
Qed.

Lemma buffer_word s dk bsz buf ptr o :
  holds_block s dk bsz buf ptr → 0 ≤ o → 4 * o + 4 ≤ bsz →
  ld32 (s_mem s) (buf + 4 * o) = disk_word dk (ptr * bsz + 4 * o).
Proof.
  intros H Ho1 Ho2. unfold ld32, disk_word. cbn [ld].
  assert (∀ j, 4 * o ≤ j < 4 * o + 4 → ld8 (s_mem s) (buf + j) = dk (ptr * bsz + j)) as Hj by (intros; apply H; lia).
  rewrite <- !(Z.add_assoc buf), <- !(Z.add_assoc (ptr * bsz)), !Hj by lia. done.
Qed.

End buffers.

Section reading.
Context {D : Type} {PO : PortOps D} {AD : AtaDrive D} (spin : nat).
Hypothesis spin_pos : (ata_polls (D := D) < spin)%nat.
Implicit Types (s : machine D).

Lemma read_blk_ok s bs fs buf ptr bsz :
  machine_ok s bs → good_bsz bsz → fs_block_size (s_mem s) fs = bsz → block_buffer bs fs bsz buf →
  Exists (λ b, fits bsz b = true) bs → 0 ≤ ptr → ptr * bsz < 2 ^ 32 →
  wp (read_blk spin fs buf ptr bsz) s (λ _ s', machine_ok s' bs ∧ disk (drive s') = disk (drive s) ∧
    holds_block s' (disk (drive s)) bsz buf ptr ∧ only_buffer bs buf bsz s s').
Proof.
  intros Hok Hb Hfs (Hnz & Hcl & _) Hroom Hp0 Hp. destruct (good_bsz_sectors bsz Hb) as [Hns Hns'].
  unfold read_blk. apply wp_bind, wp_gets. fold (s_mem s). rewrite Hfs. destruct Hb as [Hb Hm].
  assert ((ptr * bsz) mod 512 = 0) as Hal.
  { rewrite <- Zmult_mod_idemp_r, Hm, Z.mul_0_r. done. }
  rewrite w32_small by nia.
  eapply wp_mono; [apply (ata_read_bytes_ok spin spin_pos s bs buf (ptr * bsz) bsz); try done; try lia; try nia|].
  { rewrite Hns. done. }
  intros _ s' (Hok' & Hk & Hmem). split; [done|]. split; [done|]. split.
  - intros j Hj. rewrite Hmem by (apply Hcl; lia). rewrite decide_True by lia. f_equal. lia.
  - intros x Hx Hn. rewrite Hmem by done. by rewrite decide_False.
Qed.

Lemma follow_offsets_ok bs fs buf bsz offsets : ∀ s ptr,
  machine_ok s bs → good_bsz bsz → fs_block_size (s_mem s) fs = bsz → block_buffer bs fs bsz buf →
  Exists (λ b, fits bsz b = true) bs → Forall (λ o, 0 ≤ o ∧ 4 * o + 4 ≤ bsz) offsets →
  walk_ok (disk (drive s)) bsz ptr offsets → holds_block s (disk (drive s)) bsz buf ptr →
  wp (follow_offsets spin fs buf offsets) s (λ _ s', machine_ok s' bs ∧ disk (drive s') = disk (drive s) ∧
    holds_block s' (disk (drive s)) bsz buf (walk (disk (drive s)) bsz ptr offsets) ∧ only_buffer bs buf bsz s s').
Proof.
  induction offsets as [|o rest IH]; intros s ptr Hok Hb Hfs Hbuf Hroom Hoffs Hw Hh; cbn [follow_offsets walk].
  { apply wp_ret. by split_and!. }
  apply Forall_cons_1 in Hoffs as [[Ho1 Ho2] Hoffs]. destruct Hw as (_ & _ & Hw).
  apply wp_bind, wp_gets. fold (s_mem s). rewrite (buffer_word s (disk (drive s)) bsz buf ptr) by done.
  set (p := disk_word _ _) in *. apply wp_bind, wp_gets. fold (s_mem s). rewrite Hfs. apply wp_bind.
  assert (0 ≤ p ∧ p * bsz < 2 ^ 32) as [Hp1 Hp2] by (destruct rest, Hw as (? & ? & _); done).
  eapply wp_mono; [by apply (read_blk_ok s bs)|]. intros _ s1 (Hok1 & Hk1 & Hh1 & Ho).
  eapply wp_mono; [apply (IH s1 p); try done; rewrite ?Hk1; try done|].
  { by rewrite (block_size_same bs fs bsz buf s s1). }
  intros _ s2 (Hok2 & Hk2 & Hh2 & Ho2'). rewrite Hk1 in *. split_and!; try done.
  intros x Hx Hn. rewrite Ho2' by done. by apply Ho.
Qed.

Lemma layout_bounds p blk : 0 < p → 0 ≤ blk < 12 + p + p * p →
  ∃ o rest, ext2_layout p blk = o :: rest ∧ 0 ≤ o ≤ 13 ∧ Forall (λ o', 0 ≤ o' < p) rest.
Proof.
  intros Hp Hblk. unfold ext2_layout. destruct (Z.ltb_spec blk 12).
  { exists blk, []. split; [done|]. split; [lia|done]. }
  destruct (Z.ltb_spec (blk - 12) p).
  { exists 12, [blk - 12]. split; [done|]. split; [lia|]. repeat constructor; lia. }
  exists 13, [(blk - 12 - p) / p; (blk - 12 - p) mod p]. split; [done|]. split; [lia|].
  pose proof (Z.mod_pos_bound (blk - 12 - p) p ltac:(lia)).
  assert ((blk - 12 - p) / p < p) by (apply Z.div_lt_upper_bound; lia).
  assert (0 ≤ (blk - 12 - p) / p) by (apply Z.div_pos; lia). repeat constructor; lia.
Qed.

(** The drive block that holds block [blk] of the file of inode [i], by the
    reference, and that it can be reached. *)
Definition file_block s (bsz i blk : Z) : Z :=
  match ext2_layout (bsz / 4) blk with
  | o :: rest => walk (disk (drive s)) bsz (i_block (s_mem s) i o) rest
  | [] => 0
  end.
Definition file_block_ok s (bsz i blk : Z) : Prop :=
  match ext2_layout (bsz / 4) blk with
  | o :: rest => walk_ok (disk (drive s)) bsz (i_block (s_mem s) i o) rest
  | [] => True
  end.

Lemma get_block_ok s bs fs i buf blk bsz :
  machine_ok s bs → good_bsz bsz → fs_block_size (s_mem s) fs = bsz → block_buffer bs fs bsz buf →
  Exists (λ b, fits bsz b = true) bs → 0 ≤ blk ≤ i_blocks (s_mem s) i →
  blk < 12 + bsz / 4 + bsz / 4 * (bsz / 4) → ¬ (12 + bsz / 4 ≤ blk < 24 + bsz / 4) →
  file_block_ok s bsz i blk →
  wp (ext2_get_block spin fs i buf blk) s (λ _ s', machine_ok s' bs ∧ disk (drive s') = disk (drive s) ∧
    holds_block s' (disk (drive s)) bsz buf (file_block s bsz i blk) ∧ only_buffer bs buf bsz s s').
Proof.
  intros Hok Hb Hfs Hbuf Hroom Hblk Hmax Hgap. unfold file_block_ok, file_block. remember (bsz / 4) as p eqn:Ep.
  assert (bsz = 4 * p ∧ 0 < p ≤ 2 ^ 14) as [Hp Hp'].
  { destruct Hb as [Hb Hm]. assert (bsz mod 4 = 0) as Hm4.
    { rewrite (Z.div_mod bsz 512), Hm by lia. replace (512 * (bsz / 512) + 0) with (bsz / 512 * 128 * 4) by lia.
      by rewrite Z.mod_mul. }
    pose proof (Z.div_mod bsz 4 ltac:(lia)). subst p. lia. }
  intros Hw. unfold ext2_get_block. apply wp_bind, wp_gets. fold (s_mem s).
  destruct (Z.ltb_spec (i_blocks (s_mem s) i) blk); [lia|].
  apply wp_bind, wp_gets. fold (s_mem s). rewrite Hfs. apply wp_bind.
  destruct (layout_bounds p blk) as (o & rest & Hl & Ho & Hrest); [lia..|].
  assert (ext2_block_offsets bsz blk = Ok (o :: rest)) as Hoff.
  { rewrite (block_offsets_ok bsz blk p) by lia.
    destruct (Z.leb_spec (12 + p) blk), (Z.ltb_spec blk (24 + p)); simpl; try lia; by rewrite Hl. }
  unfold wp at 1. rewrite Hoff. rewrite Hl in *.
  apply wp_bind, wp_gets. fold (s_mem s). apply wp_bind, wp_gets. fold (s_mem s). rewrite Hfs.
  set (ptr := i_block _ _ _) in *. assert (0 ≤ ptr ∧ ptr * bsz < 2 ^ 32) as [Hp1 Hp2] by (destruct rest, Hw as (? & ? & _); done).
  apply wp_bind. eapply wp_mono; [by apply (read_blk_ok s bs)|]. intros _ s1 (Hok1 & Hk1 & Hh1 & Ho1).
  eapply wp_mono; [apply (follow_offsets_ok bs fs buf bsz rest s1 ptr); try done; rewrite ?Hk1; try done|].
  { by rewrite (block_size_same bs fs bsz buf s s1). }
  { apply (list.Forall_impl _ _ _ Hrest). simpl. intros. lia. }
  intros _ s2 (Hok2 & Hk2 & Hh2 & Ho2). rewrite Hk1 in *. split_and!; try done.
  intros x Hx Hn. rewrite Ho2 by done. by apply Ho1.
Qed.

(** The position of an inode on the drive, by the ext2 layout: entry
    [(ino - 1) mod n] of the table of group [(ino - 1) / n], where a group has
    [n] inodes. *)
Definition inode_group s (fs ino : Z) : Z := (ino - 1) / s_inodes_per_group (s_mem s) (fs_sb fs).
Definition inode_pos s (fs ino : Z) : Z :=
  bg_inode_table (s_mem s) (fs_bgdt (s_mem s) fs + sizeof_bgd * inode_group s fs ino) * fs_block_size (s_mem s) fs +
  sizeof_ino * ((ino - 1) mod s_inodes_per_group (s_mem s) (fs_sb fs)).

Lemma get_inode_ok s bs fs buf ino :
  machine_ok s bs → 0 < s_inodes_per_group (s_mem s) (fs_sb fs) < 2 ^ 31 →
  0 < ino < 2 ^ 31 → ino mod s_inodes_per_group (s_mem s) (fs_sb fs) ≠ 0 →
  fs_block_size (s_mem s) fs mod 512 = 0 → inode_pos s fs ino < 2 ^ 32 →
  buf ≠ 0 → (∀ x, buf ≤ x < buf + sizeof_ino → client_byte bs x) →
  Exists (λ b, fits 512 b = true) bs →
  wp (ext2_get_inode spin fs buf ino) s (λ _ s', machine_ok s' bs ∧ disk (drive s') = disk (drive s) ∧
    (∀ j, 0 ≤ j < sizeof_ino → ld8 (s_mem s') (buf + j) = disk (drive s) (inode_pos s fs ino + j)) ∧
    only_buffer bs buf sizeof_ino s s').
Proof.
  intros Hok Hn Hino Hmod Hbs Hpos Hbuf Hcl Hroom. unfold ext2_get_inode.
  apply wp_bind, wp_gets. fold (s_mem s). set (n := s_inodes_per_group _ _) in *.
  destruct (Z.eqb_spec n 0); [lia|]. apply wp_bind, wp_gets. fold (s_mem s).
  apply wp_bind, wp_gets. fold (s_mem s). apply wp_bind, wp_gets. fold (s_mem s).
  pose proof (Z.mod_pos_bound ino n ltac:(lia)) as Hr. pose proof (Z.div_mod ino n ltac:(lia)) as Hd.
  assert ((ino - 1) / n = ino / n) as Hgr by (symmetry; apply (Z.div_unique_pos _ _ _ (ino mod n - 1)); lia).
  assert ((ino - 1) mod n = ino mod n - 1) as Hix by (symmetry; apply (Z.mod_unique_pos _ _ (ino / n)); lia).
  unfold inode_pos, inode_group in *. fold n in Hpos |- *. rewrite Hgr, Hix in *. rewrite (w32_small ino), s32_small by lia.
  set (t := bg_inode_table _ _) in *. set (b := fs_block_size _ _) in *.
  assert (0 ≤ t ∧ 0 ≤ b) as [Ht Hb].
  { unfold t, b, bg_inode_table, fs_block_size, ld32. split; apply ld_range. }
  unfold sizeof_ino in *. assert (0 ≤ t * b) by nia. rewrite (w32_small (t * b)) by lia.
  replace (t * b + (ino mod n - 1) * 128) with (t * b + 128 * (ino mod n - 1)) by lia.
  rewrite w32_small by lia. assert (0 ≤ t * b + 128 * (ino mod n - 1) < 2 ^ 32) as Hoff by lia.
  set (off := t * b + 128 * (ino mod n - 1)) in *.
  assert (nsectors_of 128 = 1) as Hns by done.
  assert (off mod 512 + 128 ≤ 512) as Hfit.
  { assert (off mod 128 = 0) as Hal.
    { unfold off. rewrite (Z.div_mod b 512), Hbs by lia.
      replace (t * (512 * (b / 512) + 0) + 128 * (ino mod n - 1)) with ((t * (4 * (b / 512)) + (ino mod n - 1)) * 128) by lia.
      by rewrite Z.mod_mul. }
    pose proof (Z.div_mod off 512 ltac:(lia)). pose proof (Z.mod_pos_bound off 512 ltac:(lia)).
    pose proof (Z.div_mod off 128 ltac:(lia)). lia. }
  eapply wp_mono; [apply (ata_read_bytes_ok spin spin_pos s bs buf off 128); rewrite ?Hns; try done; lia|].
  intros _ s' (Hok' & Hk & Hm). split; [done|]. split; [done|]. split.
  - intros j Hj. rewrite Hm by (apply Hcl; lia). rewrite decide_True by lia. f_equal. lia.
  - intros x Hx Hno. rewrite Hm by done. by rewrite decide_False.
Qed.

(** The last inode of a group is looked up in the next group, in front of that
    group's table. *)
Lemma get_inode_last_of_group s fs buf ino :
  let n := s_inodes_per_group (s_mem s) (fs_sb fs) in
  let next := fs_bgdt (s_mem s) fs + sizeof_bgd * (inode_group s fs ino + 1) in
  0 < n < 2 ^ 31 → 0 < ino < 2 ^ 31 → ino mod n = 0 →
  ext2_get_inode spin fs buf ino s =
    ata_read_bytes spin buf (w32 (w32 (bg_inode_table (s_mem s) next * fs_block_size (s_mem s) fs) - sizeof_ino)) sizeof_ino s.
Proof.
  intros n next Hn Hino Hm. unfold next, inode_group. cbv beta iota delta [ext2_get_inode mbind_ load gets]. fold (s_mem s). fold n.
  pose proof (Z.div_mod ino n ltac:(lia)) as Hd.
  assert ((ino - 1) / n + 1 = ino / n) as ->.
  { rewrite <- (Z.div_unique_pos (ino - 1) n (ino / n - 1) (n - 1)); lia. }
  destruct (Z.eqb_spec n 0); [lia|]. rewrite (w32_small ino), Hm by lia. by change (s32 (0 - 1)) with (-1).
Qed.
End reading.

(** ** Directory blocks *)

Record dent := Dent { d_ino : Z; d_rec : Z; d_name : list Z }.
Abbreviation name_len e := (Z.of_nat (length (d_name e))).

(** A well-formed directory entry at [a], and a chain of them up to [stop]. *)
Definition dirent_at (m : mem) (a : Z) (e : dent) : Prop :=
  de_inode m a = d_ino e ∧ de_rec_len m a = d_rec e ∧ de_name_len m a = name_len e ∧
  bytes_at m (de_name a) (d_name e) ∧ Forall (λ c, c ≠ 0) (d_name e) ∧ 8 + name_len e ≤ d_rec e.
Fixpoint dirents (m : mem) (a : Z) (es : list dent) (stop : Z) : Prop :=
  match es with
  | [] => a = stop
  | e :: es' => dirent_at m a e ∧ dirents m (a + d_rec e) es' stop
  end.

Lemma dirent_at_ext m m' a e :
  (∀ x, a ≤ x < a + d_rec e → ld8 m' x = ld8 m x) → dirent_at m a e → dirent_at m' a e.
Proof.
  intros Hm (H1 & H2 & H3 & H4 & H5 & H6). unfold dirent_at, de_inode, de_rec_len, de_name_len, ld32, ld16, de_name in *.
  rewrite (ld_ext 4 m' m), (ld_ext 2 m' m) by (intros; apply Hm; lia). rewrite Hm by lia.
  split_and!; try done. apply (bytes_at_ext m); [|done]. intros. apply Hm. lia.
Qed.
Lemma dirents_le m a es stop : dirents m a es stop → a ≤ stop.
Proof.
  revert a. induction es as [|e es IH]; intros a; simpl; [lia|].
  intros [(_ & _ & _ & _ & _ & Hr) H]. apply IH in H. lia.
Qed.
Lemma dirents_ext m m' a es stop :
  (∀ x, a ≤ x < stop → ld8 m' x = ld8 m x) → dirents m a es stop → dirents m' a es stop.
Proof.
  revert a. induction es as [|e es IH]; intros a Hm; simpl; [done|]. intros [He H].
  pose proof (dirents_le _ _ _ _ H) as Hle. destruct He as (H1 & H2 & H3 & H4 & H5 & H6).
  split; [apply (dirent_at_ext m); [intros; apply Hm; lia|by split_and!]|].
  apply IH; [|done]. intros. apply Hm. lia.
Qed.

(** *** Looking a name up *)

(** [strncmp] of a path component with the name of an entry: equal exactly when
    the name is a prefix of the component, if the byte after such a name is not
    the next byte of the component. *)
Lemma strncmp_prefix fuel m s1 s2 comp nm :
  cstr m s1 comp → bytes_at m s2 nm → Forall (λ c, c ≠ 0) nm → (length comp < fuel)%nat →
  Z.of_nat (length nm) < 2 ^ 64 → (nm `prefix_of` comp → comp !! length nm ≠ Some (ld8 m (s2 + Z.of_nat (length nm)))) →
  ∃ r, strncmp fuel m s1 s2 (Z.of_nat (length nm)) = Ok r ∧ (r = 0 ↔ nm `prefix_of` comp).
Proof.
  revert fuel s1 s2 comp. induction nm as [|x nm IH]; intros fuel s1 s2 comp Hc Hn Hnz Hf Hl Ht.
  - destruct fuel as [|fuel]; [lia|]. cbn [strncmp length]. change (Z.of_nat 0) with 0 in *. specialize (Ht (prefix_nil _)). simpl in Ht. rewrite Z.add_0_r in Ht.
    exists 0. split; [|split; [intros _; apply prefix_nil|done]].
    destruct comp as [|c comp]; [simpl in Hc; by rewrite Hc|]. destruct Hc as (Hc0 & Hc & _). rewrite Hc.
    destruct (Z.eqb_spec c (ld8 m s2)) as [He|He]; [by rewrite He in Ht|]. by rewrite andb_false_r.
  - destruct fuel as [|fuel]; [lia|]. apply Forall_cons_1 in Hnz as [Hx Hnz]. destruct Hn as [Hx2 Hn].
    cbn [strncmp]. rewrite Hx2. destruct comp as [|c comp].
    { simpl in Hc. rewrite Hc. simpl. eexists. split; [done|]. split; [lia|]. intros H. by apply prefix_nil_not in H. }
    destruct Hc as (Hc0 & Hc & Hc'). rewrite Hc. destruct (Z.eqb_spec c 0); [done|].
    destruct (Z.eqb_spec c x) as [->|Hne]; cbn [negb andb].
    + replace (w64 (Z.of_nat (length (x :: nm)) - 1)) with (Z.of_nat (length nm))
        by (simpl length in *; rewrite w64_small; lia).
      destruct (IH fuel (s1 + 1) (s2 + 1) comp) as (r & Hr & Hr'); try done.
      * simpl in Hf. lia.
      * simpl in Hl. lia.
      * intros Hpre. specialize (Ht (prefix_cons _ _ _ Hpre)). simpl in Ht.
        by replace (s2 + 1 + Z.of_nat (length nm)) with (s2 + Z.of_nat (S (length nm))) by lia.
      * exists r. split; [done|]. rewrite Hr'. split; [apply prefix_cons|by intros ?%prefix_cons_inv_2].
    + destruct (Z.eqb_spec (Z.of_nat (length (x :: nm))) 0); [simpl in *; lia|]. eexists. split; [done|].
      split; [lia|]. intros H%prefix_cons_inv_1. done.
Qed.

(** What the code looks for: the inode of the first entry in use whose name is a
    prefix of [comp].  The reference is [lookup_name] below. *)
Fixpoint prefix_match (comp : list Z) (es : list dent) : option Z :=
  match es with
  | [] => None
  | e :: es' =>
      if negb (d_ino e =? 0) && bool_decide (d_name e `prefix_of` comp) then Some (d_ino e)
      else prefix_match comp es'
  end.

(** No entry in use that is a prefix of [comp] is followed by a byte that
    continues [comp]: always so when names are padded with a zero byte. *)
Fixpoint terminated (m : mem) (comp : list Z) (a : Z) (es : list dent) : Prop :=
  match es with
  | [] => True
  | e :: es' =>
      (d_ino e ≠ 0 → d_name e `prefix_of` comp → comp !! length (d_name e) ≠ Some (ld8 m (de_name a + name_len e))) ∧
      terminated m comp (a + d_rec e) es'
  end.

(** The reference: the inode of the first entry in use with the name [comp].
    The code finds it when no entry in use has a shorter name that [comp] starts
    with. *)
Fixpoint lookup_name (comp : list Z) (es : list dent) : option Z :=
  match es with
  | [] => None
  | e :: es' => if negb (d_ino e =? 0) && bool_decide (d_name e = comp) then Some (d_ino e) else lookup_name comp es'
  end.
Definition names_clear (comp : list Z) (es : list dent) : Prop :=
  Forall (λ e, d_ino e ≠ 0 → d_name e `prefix_of` comp → d_name e = comp) es.

Lemma clear_match comp es : names_clear comp es → prefix_match comp es = lookup_name comp es.
Proof.
  induction 1 as [|e es He _ IH]; [done|]. cbn [prefix_match lookup_name]. rewrite IH.
  destruct (Z.eqb_spec (d_ino e) 0) as [|Hi]; [done|]. cbn [negb andb].
  rewrite (bool_decide_ext (d_name e `prefix_of` comp) (d_name e = comp)); [done|].
  split; [by apply He|by intros ->].
Qed.
Lemma clear_terminated comp es m : names_clear comp es → ∀ a, terminated m comp a es.
Proof.
  induction 1 as [|e es He _ IH]; intros a; [done|]. split; [|apply IH].
  intros Hi Hp. rewrite (He Hi Hp). by rewrite lookup_ge_None_2.
Qed.

Section lookup.
Context {D : Type}.
Implicit Types (s : machine D).

Lemma find_dirent_ok fs dirbuf compbuf bsz comp sfuel s es : ∀ fuel doff,
  fs_block_size (s_mem s) fs = bsz → bsz < 2 ^ 32 → cstr (s_mem s) compbuf comp → (length comp < sfuel)%nat →
  0 ≤ doff → dirents (s_mem s) (dirbuf + doff) es (dirbuf + bsz) → terminated (s_mem s) comp (dirbuf + doff) es →
  (length es < fuel)%nat →
  find_dirent fuel sfuel fs dirbuf compbuf doff s = Ok (prefix_match comp es, s).
Proof.
  induction es as [|e es IH]; intros [|fuel] doff Hfs Hb Hc Hs Hd0 Hd Ht Hf; simpl in Hf; try lia;
    cbn [find_dirent prefix_match]; unfold mbind_ at 1, load at 1, gets at 1; fold (s_mem s); rewrite Hfs.
  { simpl in Hd. destruct (Z.ltb_spec doff bsz); [lia|]. done. }
  destruct Hd as [(H1 & H2 & H3 & H4 & H5 & H6) Hd]. destruct Ht as [Ht1 Ht].
  pose proof (dirents_le _ _ _ _ Hd) as Hle. destruct (Z.ltb_spec doff bsz); [|lia]. cbn [negb].
  assert (find_dirent fuel sfuel fs dirbuf compbuf (w32 (doff + d_rec e)) s = Ok (prefix_match comp es, s)) as Hnext.
  { rewrite w32_small by lia. apply IH; try done; try lia.
    - by rewrite Z.add_assoc.
    - by rewrite Z.add_assoc. }
  unfold mbind_, load, gets. fold (s_mem s). rewrite H1, H2.
  destruct (Z.eqb_spec (d_ino e) 0) as [|Hi0]; cbn [negb andb]; [done|]. specialize (Ht1 Hi0). cbv beta. fold (s_mem s). rewrite H3.
  destruct (strncmp_prefix sfuel (s_mem s) compbuf (de_name (dirbuf + doff)) comp (d_name e)) as (r & Hr & Hr'); try done.
  { pose proof (ld8_range (s_mem s) (dirbuf + doff + 6)). unfold de_name_len in H3. lia. }
  unfold lift_result. fold (s_mem s). rewrite Hr. destruct (Z.eqb_spec r 0) as [Hr0|Hr0].
  - rewrite bool_decide_true by by apply Hr'. done.
  - rewrite bool_decide_false by (intros Hp; by apply Hr0, Hr'). done.
Qed.
End lookup.

(** *** Listing a directory *)

(** The entries [struct dirent] that the caller of [getdents] gets. *)
Fixpoint udirents (m : mem) (a : Z) (es : list dent) : Prop :=
  match es with
  | [] => True
  | e :: es' =>
      ld32 m a = d_ino e ∧ ld32 m (a + 4) = 8 + name_len e + 1 ∧ bytes_at m (a + 8) (d_name e) ∧
      udirents m (a + (8 + name_len e + 1)) es'
  end.
Definition usize (es : list dent) : Z := foldr (λ e acc, 8 + name_len e + 1 + acc) 0 es.

Lemma usize_nonneg es : 0 ≤ usize es.
Proof. unfold usize. induction es as [|e es IH]; simpl; lia. Qed.

Lemma udirents_ext m m' a es :
  (∀ x, a ≤ x < a + usize es → ld8 m' x = ld8 m x) → udirents m a es → udirents m' a es.
Proof.
  revert a. induction es as [|e es IH]; intros a Hm; simpl in *; [done|]. intros (H1 & H2 & H3 & H4).
  pose proof (usize_nonneg es). unfold usize in *.
  unfold ld32 in *. rewrite !(ld_ext 4 m' m) by (intros; apply Hm; lia).
  split_and!; try done.
  - apply (bytes_at_ext m); [|done]. intros. apply Hm. lia.
  - apply IH; [|done]. intros. apply Hm. lia.
Qed.

Lemma strlcpy_nonzero m d a nm :
  bytes_at m a nm → Forall (λ c, c ≠ 0) nm → d + Z.of_nat (length nm) ≤ a ∨ a + Z.of_nat (length nm) ≤ d →
  fst (strlcpy m d a (Z.of_nat (length nm))) = memcpy m d a (Z.of_nat (length nm)).
Proof.
  intros Hb Hnz Hov. unfold strlcpy, memcpy. rewrite Nat2Z.id.
  assert (∀ n i m', (∀ x, a ≤ x < a + Z.of_nat (length nm) → ld8 m' x = ld8 m x) →
    0 ≤ i → i + Z.of_nat n ≤ Z.of_nat (length nm) →
    fst (strlcpy_loop n m' d a (Z.of_nat (length nm)) i) = memcpy_loop m' d a i n) as H; [|by apply H; [..|lia]].
  induction n as [|n IH]; intros i m' Hm' Hi Hn; cbn [strlcpy_loop memcpy_loop]; [done|].
  rewrite ld8_st8_ne by lia. rewrite Hm' by lia.
  pose proof (bytes_at_ne m a nm i Hb Hnz ltac:(lia)). destruct (Z.eqb_spec (ld8 m (a + i)) 0); [done|].
  apply IH; [|lia|lia]. intros x Hx. rewrite ld8_st8_ne by lia. by apply Hm'.
Qed.

(** The three stores for one entry: inode, record length, name. *)
Definition put_dirent (m : mem) (us_de de : Z) (e : dent) : mem :=
  let m1 := st32 (st32 m us_de (d_ino e)) (us_de + 4) (8 + name_len e + 1) in
  fst (strlcpy m1 (us_de + 8) (de_name de) (name_len e)).

Lemma put_dirent_ok m us_de de e :
  dirent_at m de e → us_de + (8 + name_len e + 1) ≤ de ∨ de + d_rec e ≤ us_de →
  0 ≤ d_ino e < 2 ^ 32 → name_len e < 256 →
  let m' := put_dirent m us_de de e in
  ld32 m' us_de = d_ino e ∧ ld32 m' (us_de + 4) = 8 + name_len e + 1 ∧ bytes_at m' (us_de + 8) (d_name e) ∧
  ∀ x, ¬ (us_de ≤ x < us_de + (8 + name_len e + 1)) → ld8 m' x = ld8 m x.
Proof.
  intros (_ & _ & _ & Hn & Hnz & Hr) Hov Hino Hlen m'. unfold de_name in *.
  set (m1 := st32 (st32 m us_de (d_ino e)) (us_de + 4) (8 + name_len e + 1)).
  assert (∀ x, ¬ (us_de ≤ x < us_de + 8) → ld8 m1 x = ld8 m x) as Hm1.
  { intros x Hx. unfold m1, st32. by rewrite !ld8_st_ne by lia. }
  assert (m' = memcpy m1 (us_de + 8) (de + 8) (name_len e)) as Hm'.
  { apply strlcpy_nonzero; [|done|lia]. apply (bytes_at_ext m); [|done]. intros. apply Hm1. lia. }
  assert (∀ x, ld8 m' x = if decide (us_de + 8 ≤ x < us_de + 8 + name_len e)
    then ld8 m1 (de + 8 + (x - (us_de + 8))) else ld8 m1 x) as Hld by (intros x; rewrite Hm'; apply ld8_memcpy; lia).
  split_and!.
  - unfold ld32. rewrite (ld_ext 4 m' m1) by (intros; rewrite Hld; by rewrite decide_False by lia).
    unfold m1, st32. rewrite ld_st_ne, ld_st_eq by lia. apply Z.mod_small. simpl Z.of_nat. lia.
  - unfold ld32. rewrite (ld_ext 4 m' m1) by (intros; rewrite Hld; by rewrite decide_False by lia).
    unfold m1, st32. rewrite ld_st_eq. apply Z.mod_small. simpl Z.of_nat. lia.
  - assert (∀ l k, 0 ≤ k → k + Z.of_nat (length l) ≤ name_len e → bytes_at m (de + 8 + k) l →
      bytes_at m' (us_de + 8 + k) l) as Hcp.
    { induction l as [|c l IH]; intros k Hk Hle; simpl in *; [done|]. intros [<- Hl]. split.
      - rewrite Hld, decide_True, Hm1 by lia. f_equal. lia.
      - rewrite <- Z.add_assoc. apply IH; [lia|lia|by rewrite Z.add_assoc]. }
    rewrite <- (Z.add_0_r (us_de + 8)). apply Hcp; [lia|lia|by rewrite Z.add_0_r].
  - intros x Hx. rewrite Hld, decide_False by lia. apply Hm1. lia.
Qed.

Section listing.
Context {D : Type}.
Implicit Types (s : machine D).

Definition listed buf us es s (r : Z) s' : Prop :=
  r = us + usize es ∧ drive s' = drive s ∧ same_heap s s' ∧ udirents (s_mem s') (buf + us) es ∧
  ∀ x, ¬ (buf + us ≤ x < buf + us + usize es) → ld8 (s_mem s') x = ld8 (s_mem s) x.

Lemma getdents_loop_ok fs data buf bsz es : ∀ fuel doff us s,
  fs_block_size (s_mem s) fs = bsz → bsz < 2 ^ 32 → 0 ≤ doff → 0 ≤ us → us + usize es < 2 ^ 32 →
  dirents (s_mem s) (data + doff) es (data + bsz) → Forall (λ e, 0 < d_ino e < 2 ^ 32) es →
  (buf + us + usize es ≤ data + doff ∨ data + bsz ≤ buf + us) → (buf + us + usize es ≤ fs ∨ fs + 4 ≤ buf + us) →
  (length es < fuel)%nat →
  wp (getdents_loop fuel fs data buf doff us) s (listed buf us es s).
Proof.
  induction es as [|e es IH]; intros [|fuel] doff us s Hfs Hb Hd0 Hu0 Hus Hd Hino Hov Hov' Hf; simpl in Hf; try lia;
    cbn [getdents_loop]; apply wp_bind, wp_gets; fold (s_mem s); rewrite Hfs.
  { simpl in Hd. destruct (Z.ltb_spec doff bsz); [lia|]. apply wp_ret. unfold listed. simpl. split_and!; try done. lia. }
  apply Forall_cons_1 in Hino as [Hi Hino]. destruct Hd as [He Hd]. pose proof He as (H1 & H2 & H3 & H4 & H5 & H6).
  pose proof (dirents_le _ _ _ _ Hd) as Hle. pose proof (usize_nonneg es) as Hu.
  change (usize (e :: es)) with (8 + name_len e + 1 + usize es) in *.
  assert (name_len e < 256) as Hl8 by (rewrite <- H3; apply ld8_range).
  destruct (Z.ltb_spec doff bsz); [|lia]. cbn [negb]. apply wp_bind, wp_gets. fold (s_mem s). rewrite H1.
  destruct (Z.eqb_spec (d_ino e) 0); [lia|].
  pose proof (put_dirent_ok (s_mem s) (buf + us) (data + doff) e He ltac:(lia) ltac:(lia) Hl8) as (P1 & P2 & P3 & P4).
  set (m' := put_dirent _ _ _ _) in *.
  apply wp_bind, wp_in_heap, wp_modify. apply wp_bind, wp_gets. cbn [hp h_mem set_h_mem].
  assert (∀ k v, 0 ≤ k → k + 4 ≤ 9 + name_len e → de_name_len (st32 (s_mem s) (buf + us + k) v) (data + doff) = name_len e) as Hnl.
  { intros. unfold de_name_len, st32 in *. rewrite ld8_st_ne by lia. done. }
  assert (de_name_len (st32 (h_mem (hp s)) (buf + us) (d_ino e)) (data + doff) = name_len e) as ->.
  { rewrite <- (Z.add_0_r (buf + us)). apply Hnl; lia. }
  apply wp_bind, wp_in_heap, wp_modify. apply wp_bind, wp_in_heap, wp_modify. cbn [drive hp h_mem set_h_mem].
  match goal with |- context [fst (strlcpy ?M ?a ?b ?n)] => change (fst (strlcpy M a b n)) with m' end.
  apply wp_bind, wp_gets. apply wp_bind, wp_gets. cbn [hp h_mem set_h_mem]. rewrite P2.
  set (s' := Machine _ _).
  assert (s_mem s' = m' ∧ drive s' = drive s ∧ same_heap s s') as (Hs' & Hdr & Hsh) by done.
  clearbody s' m'. subst m'.
  assert (de_rec_len (s_mem s') (data + doff) = d_rec e) as ->.
  { unfold de_rec_len, ld16 in *. rewrite (ld_ext 2 (s_mem s') (s_mem s)) by (intros; apply P4; lia). done. }
  rewrite !w32_small by lia.
  eapply wp_mono; [apply (IH fuel (doff + d_rec e) (us + (8 + name_len e + 1)) s'); try done; try lia|].
  - unfold fs_block_size, ld32 in *. rewrite (ld_ext 4 (s_mem s') (s_mem s)) by (intros; apply P4; lia). done.
  - rewrite Z.add_assoc. apply (dirents_ext (s_mem s)); [intros; apply P4; lia|done].
  - intros r s2 (-> & Q1 & Q2 & Q3 & Q4). unfold listed.
    change (usize (e :: es)) with (8 + name_len e + 1 + usize es).
    split; [lia|]. split; [congruence|].
    split; [destruct Q2, Hsh; split; congruence|]. split.
    + cbn [udirents]. unfold ld32 in *. rewrite !(ld_ext 4 (s_mem s2) (s_mem s')) by (intros; apply Q4; lia).
      split; [done|]. split; [done|]. split; [|by rewrite <- Z.add_assoc].
      apply (bytes_at_ext (s_mem s')); [|done]. intros. apply Q4. lia.
    + intros x Hx. rewrite Q4 by lia. apply P4. lia.
Qed.

Lemma getdents_loop_stuck fs data buf doff us s :
  doff < fs_block_size (s_mem s) fs → de_inode (s_mem s) (data + doff) = 0 →
  ∀ fuel, getdents_loop fuel fs data buf doff us s = NoFuel.
Proof.
  intros Hd Hi fuel. induction fuel as [|fuel IH]; [done|]. cbn [getdents_loop].
  unfold mbind_ at 1, load at 1, gets at 1. fold (s_mem s). destruct (Z.ltb_spec doff (fs_block_size (s_mem s) fs)); [|lia].
  cbn [negb]. unfold mbind_, load, gets. fold (s_mem s). by rewrite Hi.
Qed.
End listing.

(** *** A file system to try the theorems on

    [struct ext2_fs] at 256 (block size 1024, 8 inodes in a group, the group
    table at 4000), an inode at 1000 whose indirect block is block 3, a
    directory block at 2048 with the entries ".", "bin" and "etc", and the path
    component "binary" at 3500. *)
Definition ex_words : list (Z * Z) :=
  [(256, 1024); (300, 8); (656, 4000); (4008, 4); (1028, 100); (1088, 3);
   (2048, 2); (2056, 46); (2060, 5); (2068, 0x6e6962); (2072, 7); (2080, 0x637465);
   (3500, 0x616e6962); (3504, 0x7972)].
Definition ex_lens : list (Z * Z) := [(2052, 12); (2064, 12); (2076, 1000)].
Definition ex_name_lens : list (Z * Z) := [(2054, 1); (2066, 3); (2078, 3)].
Definition ex_low : mem :=
  foldr (λ p m, st8 m p.1 p.2) (foldr (λ p m, st16 m p.1 p.2)
    (foldr (λ p m, st32 m p.1 p.2) ∅ ex_words) ex_lens) ex_name_lens.
Definition ex_dents : list dent :=
  [Dent 2 12 [46]; Dent 5 12 [98; 105; 110]; Dent 7 1000 [101; 116; 99]].

(** The first word of block 3 is 5; other bytes have the number of their block. *)
Definition ex_fs_drive : sim :=
  Sim (λ i, if i =? 3072 then 5 else if (3072 <? i) && (i <? 3076) then 0 else i / 1024) (λ _, 0) None 1.
Definition ex_fs : machine sim := Machine ex_fs_drive (init_heap ex_low).

Lemma ex_fs_ok : machine_ok ex_fs ex_blocks.
Proof. split; [apply (Nat.le_succ_diag_r 1)|]. split; [done|]. apply init_heap_ok. Qed.
Lemma ex_low_client x : 0 ≤ x < 2 ^ 20 → client_byte ex_blocks x.
Proof. intros Hx. right. unfold KERNEL_BRK_START. lia. Qed.

Lemma ex_dents_ok : dirents (s_mem ex_fs) 2048 ex_dents (2048 + 1024).
Proof. cbn [dirents ex_dents]. unfold dirent_at. cbn [bytes_at d_name d_ino d_rec]. split_and!; try (repeat constructor; discriminate);
  vm_compute; congruence. Qed.
Lemma ex_buffer buf : 4096 ≤ buf < 2 ^ 19 → block_buffer ex_blocks 256 1024 buf.
Proof.
  intros Hb. split; [lia|]. split; [intros; apply ex_low_client; lia|]. split; [intros; apply ex_low_client; lia|lia].
Qed.

(** ** The properties *)

(** C38: which pointers lead to block [blk] of a file ([p] pointers per block,
    blocks below the end of the double indirect range): [ext2_block_offsets]
    answers the block map of ext2, except for the 12 blocks from [12 + p] on,
    which it looks up in the single indirect block, behind its last entry. *)
Theorem ext2_block_offsets_layout (p blk : Z) (Hp : 0 < p ≤ 2 ^ 14) (Hblk : 0 ≤ blk < 12 + p + p * p) :
  (¬ (12 + p ≤ blk < 24 + p) → ext2_block_offsets (4 * p) blk = Ok (ext2_layout p blk)) ∧
  (12 + p ≤ blk < 24 + p →
    ∃ o, ext2_block_offsets (4 * p) blk = Ok [EXT2_IND_BLK; o] ∧ p ≤ o ∧
      ext2_layout p blk = [EXT2_DIND_BLK; (blk - 12 - p) / p; (blk - 12 - p) mod p]).
Proof.
  rewrite (block_offsets_ok (4 * p) blk p) by done. split; intros H.
  - destruct (Z.leb_spec (12 + p) blk), (Z.ltb_spec blk (24 + p)); done || lia.
  - exists (blk - 12). destruct (Z.leb_spec (12 + p) blk), (Z.ltb_spec blk (24 + p)); try lia.
    split; [done|]. split; [lia|]. unfold ext2_layout. destruct (Z.ltb_spec blk 12), (Z.ltb_spec (blk - 12) p); done || lia.
Qed.

Lemma ext2_block_offsets_layout_witness :
  ext2_block_offsets 1024 1000 = Ok [13; 2; 220] ∧ ext2_block_offsets 1024 270 = Ok [12; 258].
Proof.
  split.
  - exact (proj1 (ext2_block_offsets_layout 256 1000 ltac:(lia) ltac:(lia)) ltac:(lia)).
  - destruct (proj2 (ext2_block_offsets_layout 256 270 ltac:(lia) ltac:(lia)) ltac:(lia)) as (o & H & _ & _).
    change (4 * 256) with 1024 in H. rewrite H. vm_compute in H. injection H as <-. reflexivity.
Defined.

(** C32: [ext2_get_block]: for a block that [ext2_block_offsets] handles right,
    whose pointers stay on a drive of 4 GiB, the buffer ends with exactly the
    drive block that the ext2 block map names, found through the direct,
    indirect or double indirect pointers; the drive and every other byte lent
    by the heap are unchanged. *)
Theorem ext2_get_block_spec {D : Type} {PO : PortOps D} {AD : AtaDrive D} (spin : nat) (s : machine D)
    (bs : blocks) (fs i buf blk bsz : Z) (Hspin : (ata_polls (D := D) < spin)%nat) (Hok : machine_ok s bs)
    (Hbsz : good_bsz bsz) (Hfs : fs_block_size (s_mem s) fs = bsz) (Hbuf : block_buffer bs fs bsz buf)
    (Hroom : Exists (λ b, fits bsz b = true) bs) (Hblk : 0 ≤ blk ≤ i_blocks (s_mem s) i)
    (Hmax : blk < 12 + bsz / 4 + bsz / 4 * (bsz / 4)) (Hgap : ¬ (12 + bsz / 4 ≤ blk < 24 + bsz / 4))
    (Hptrs : file_block_ok s bsz i blk) :
  ∃ s', ext2_get_block spin fs i buf blk s = Ok (tt, s') ∧ machine_ok s' bs ∧
    (∀ j, 0 ≤ j < bsz → ld8 (s_mem s') (buf + j) = disk (drive s) (file_block s bsz i blk * bsz + j)) ∧
    (∀ x, client_byte bs x → ¬ (buf ≤ x < buf + bsz) → ld8 (s_mem s') x = ld8 (s_mem s) x).
Proof.
  destruct (proj1 (wp_run _ _ _) (get_block_ok spin Hspin s bs fs i buf blk bsz Hok Hbsz Hfs Hbuf Hroom Hblk
    Hmax Hgap Hptrs)) as ([] & s' & Hrun & Hok' & _ & Hh & Ho). by exists s'.
Qed.
Lemma ext2_get_block_spec_witness : ∃ s',
  ext2_get_block 3 256 1000 8192 12 ex_fs = Ok (tt, s') ∧ ld8 (s_mem s') 8192 = 5.
Proof.
  destruct (ext2_get_block_spec 3 ex_fs ex_blocks 256 1000 8192 12 1024 ex_polls ex_fs_ok
    ltac:(split; [lia|reflexivity]) ltac:(vm_compute; reflexivity) (ex_buffer 8192 ltac:(lia))
    ltac:(left; vm_compute; reflexivity) ltac:(split; [lia|vm_compute; discriminate]) ltac:(vm_compute; reflexivity)
    ltac:(vm_compute; intros [H _]; by apply H)
    ltac:(vm_compute; split_and!; try done; discriminate)) as (s' & H & _ & Hm & _).
  exists s'. split; [exact H|]. replace 8192 with (8192 + 0) by lia. rewrite Hm by lia. vm_compute. reflexivity.
Defined.

(** [ext2_get_inode] reads the 128 bytes of the inode at its place in the
    inode table of its group, unless the inode number is a multiple of the
    number of inodes per group; nothing else lent by the heap changes. *)
Theorem ext2_get_inode_spec {D : Type} {PO : PortOps D} {AD : AtaDrive D} (spin : nat) (s : machine D)
    (bs : blocks) (fs buf ino : Z) (Hspin : (ata_polls (D := D) < spin)%nat) (Hok : machine_ok s bs)
    (Hn : 0 < s_inodes_per_group (s_mem s) (fs_sb fs) < 2 ^ 31) (Hino : 0 < ino < 2 ^ 31)
    (Hlast : ino mod s_inodes_per_group (s_mem s) (fs_sb fs) ≠ 0)
    (Hbsz : fs_block_size (s_mem s) fs mod 512 = 0) (Hpos : inode_pos s fs ino < 2 ^ 32)
    (Hbuf : buf ≠ 0) (Hcl : ∀ x, buf ≤ x < buf + sizeof_ino → client_byte bs x)
    (Hroom : Exists (λ b, fits 512 b = true) bs) :
  ∃ s', ext2_get_inode spin fs buf ino s = Ok (tt, s') ∧ machine_ok s' bs ∧
    (∀ j, 0 ≤ j < sizeof_ino → ld8 (s_mem s') (buf + j) = disk (drive s) (inode_pos s fs ino + j)) ∧
    (∀ x, client_byte bs x → ¬ (buf ≤ x < buf + sizeof_ino) → ld8 (s_mem s') x = ld8 (s_mem s) x).
Proof.
  destruct (proj1 (wp_run _ _ _) (get_inode_ok spin Hspin s bs fs buf ino Hok Hn Hino Hlast Hbsz Hpos Hbuf
    Hcl Hroom)) as ([] & s' & Hrun & Hok' & _ & Hh & Ho). by exists s'.
Qed.
Lemma ext2_get_inode_spec_witness : inode_pos ex_fs 256 3 = 4352 ∧
  ∃ s', ext2_get_inode 3 256 8192 3 ex_fs = Ok (tt, s').
Proof.
  split; [vm_compute; reflexivity|].
  destruct (ext2_get_inode_spec 3 ex_fs ex_blocks 256 8192 3 ex_polls ex_fs_ok
    ltac:(vm_compute; done) ltac:(lia) ltac:(vm_compute; discriminate) ltac:(vm_compute; reflexivity)
    ltac:(vm_compute; reflexivity) ltac:(lia) ltac:(intros x Hx; apply ex_low_client; unfold sizeof_ino in Hx; lia)
    ltac:(left; vm_compute; reflexivity)) as (s' & H & _).
  exists s'. exact H.
Defined.

(** one step of [ext2_namei] in a directory block with the entries [es]:
    the search finishes and answers the inode of the first entry in use whose
    name is a prefix of the path component, so "binary" finds "bin". *)
Theorem find_dirent_prefix {D : Type} (s : machine D) (fuel sfuel : nat) (fs dirbuf compbuf bsz : Z)
    (comp : list Z) (es : list dent)
    (Hfs : fs_block_size (s_mem s) fs = bsz) (Hbsz : bsz < 2 ^ 32) (Hcomp : cstr (s_mem s) compbuf comp)
    (Hdir : dirents (s_mem s) dirbuf es (dirbuf + bsz)) (Hterm : terminated (s_mem s) comp dirbuf es)
    (Hfuel : (length es < fuel)%nat) (Hsfuel : (length comp < sfuel)%nat) :
  find_dirent fuel sfuel fs dirbuf compbuf 0 s = Ok (prefix_match comp es, s).
Proof. apply (find_dirent_ok fs dirbuf compbuf bsz); rewrite ?Z.add_0_r; done. Qed.
Lemma find_dirent_prefix_witness :
  find_dirent 4 7 256 2048 3500 0 ex_fs = Ok (Some 5, ex_fs).
Proof.
  apply (find_dirent_prefix ex_fs 4 7 256 2048 3500 1024 [98; 105; 110; 97; 114; 121] ex_dents).
  - vm_compute. reflexivity.
  - lia.
  - cbn [cstr]. split_and!; try discriminate; vm_compute; reflexivity.
  - exact ex_dents_ok.
  - cbn [terminated ex_dents]. split_and!; try done; intros _ _; vm_compute; discriminate.
  - simpl. lia.
  - simpl. lia.
Defined.

(** the loop of [ext2_getdents] on a directory block with the entries [es], all in
    use: it terminates, the caller's buffer holds inode, record length and name
    of every entry in order, packed, the answer is their total size, and no
    other byte changes. *)
Theorem getdents_spec {D : Type} (s : machine D) (fuel : nat) (fs data buf bsz : Z) (es : list dent)
    (Hfs : fs_block_size (s_mem s) fs = bsz) (Hbsz : bsz < 2 ^ 32)
    (Hdir : dirents (s_mem s) data es (data + bsz)) (Huse : Forall (λ e, 0 < d_ino e < 2 ^ 32) es)
    (Hsize : usize es < 2 ^ 32) (Hapart : buf + usize es ≤ data ∨ data + bsz ≤ buf)
    (Hapart' : buf + usize es ≤ fs ∨ fs + 4 ≤ buf) (Hfuel : (length es < fuel)%nat) :
  ∃ s', getdents_loop fuel fs data buf 0 0 s = Ok (usize es, s') ∧ udirents (s_mem s') buf es ∧
    (∀ x, ¬ (buf ≤ x < buf + usize es) → ld8 (s_mem s') x = ld8 (s_mem s) x).
Proof.
  destruct (proj1 (wp_run _ _ _) (getdents_loop_ok fs data buf bsz es fuel 0 0 s Hfs Hbsz ltac:(lia) ltac:(lia)
    ltac:(lia) ltac:(by rewrite Z.add_0_r) Huse ltac:(lia) ltac:(lia) Hfuel)) as (r & s' & Hrun & -> & _ & _ & Hu & Ho).
  rewrite !Z.add_0_r in *. by exists s'.
Qed.
Lemma getdents_spec_witness : ∃ s', getdents_loop 4 256 2048 8192 0 0 ex_fs = Ok (34, s') ∧
  udirents (s_mem s') 8192 ex_dents.
Proof.
  destruct (getdents_spec ex_fs 4 256 2048 8192 1024 ex_dents ltac:(vm_compute; reflexivity) ltac:(lia) ex_dents_ok
    ltac:(repeat constructor; simpl; lia) ltac:(vm_compute; reflexivity) ltac:(right; lia) ltac:(right; lia)
    ltac:(simpl; lia)) as (s' & H & Hu & _).
  exists s'. split; [exact H|exact Hu].
Defined.

