(* ===== verification/Ext2Files.v ===== *)
(** Whole files and paths: [ext2_read_file] and [ext2_namei] of [fs/ext2.c],
    against what the drive holds. *)

From stdpp Require Import sorting.
From S2P Require Import Prelude Layout Memory CString Kmalloc Heap Ata Ext2.

(** ** Memory lent by the heap

    [lent bs p n bs']: the list [bs'] has one more block in use than [bs], of
    [n] bytes at [p], carved out of a free block. *)
Record lent (bs : blocks) (p n : Z) (bs' : blocks) : Prop := {
  le_live : live bs' ≡ₚ (p, n) :: live bs;
  le_span : span bs' = span bs;
  le_pos : KERNEL_BRK_START < p;
  le_keep x : client_byte bs x → client_byte bs' x ∧ ¬ (p ≤ x < p + n);
}.

Section lending.
Implicit Types (h : heap) (bs : blocks).

Lemma client_byte_same bs bs' x :
  live bs' ≡ₚ live bs → span bs' = span bs → client_byte bs x → client_byte bs' x.
Proof.
  intros Hl Hs [(b & Hb & Hx)|Hx]; [left; exists b; by rewrite Hl|right; by rewrite Hs].
Qed.

Lemma lent_byte bs p n bs' x : lent bs p n bs' → p ≤ x < p + n → client_byte bs' x.
Proof. intros Hl Hx. left. exists (p, n). split; [|done]. rewrite (le_live _ _ _ _ Hl). left. Qed.

Lemma kmalloc_lent h bs sz :
  heap_ok h bs → 0 < sz → Exists (λ b, fits sz b = true) bs →
  wp (kmalloc sz) h (λ p h', heap_ok h' (first_fit sz bs 0).1 ∧
    (∃ n, sz ≤ n ∧ lent bs p n (first_fit sz bs 0).1) ∧
    ∀ x, client_byte bs x → ld8 (h_mem h') x = ld8 (h_mem h) x).
Proof.
  intros Hok Hsz Hfits. pose proof (heap_lim _ _ Hok) as Hlim.
  assert (span (first_fit sz bs 0).1 = span bs) as Hspan.
  { destruct (exists_fit sz bs Hfits) as (r1 & k & r2 & -> & Hr1 & Hfit).
    pose proof (first_fit_found sz r1 k r2 0 Hr1 Hfit) as Hff. rewrite Z.add_0_l in Hff. rewrite Hff. cbn [fst].
    rewrite !span_app, span_carve, span_cons. simpl. lia. }
  destruct (first_fit_live sz bs Hsz) as (L1 & L2 & n & Hn & HL & HL').
  eapply wp_mono; [apply (kmalloc_ok h bs sz Hok Hsz); by rewrite Hspan|]. intros p h' (Hp & Hok' & Ho).
  rewrite <- Hp in HL'. set (bs' := (first_fit sz bs 0).1) in *.
  pose proof (heap_pos _ _ Hok') as Hpos'.
  assert (live bs' ≡ₚ (p, n) :: live bs) as Hperm by (rewrite HL, HL'; symmetry; apply Permutation_middle).
  assert ((p, n) ∈ live bs') as Hin by (rewrite Hperm; left).
  pose proof (live_bounds KERNEL_BRK_START bs' (p, n) Hpos' Hin) as Hb. unfold sizeof_block in Hb. simpl in Hb.
  assert (∀ x, client_byte bs x → client_byte bs' x ∧ ¬ (p ≤ x < p + n)) as Hkeep.
  { intros x [(b & Hb' & Hx)|Hx].
    - assert (b ∈ live bs') as Hbl by (rewrite Hperm; by right). split; [left; by exists b|]. intros Hpx.
      assert (b ≠ (p, n)) as Hne.
      { intros ->. pose proof (live_keys bs' Hpos') as Hnd. rewrite Hperm, fmap_cons in Hnd.
        apply list.NoDup_cons in Hnd as [Hni _]. apply Hni. by apply (list_elem_of_fmap_2 fst _ _ Hb'). }
      apply list_elem_of_lookup in Hbl as [i Hi], Hin as [j Hj].
      destruct (live_apart KERNEL_BRK_START bs' i j b (p, n)) as [Hap|Hap]; try done; [|unfold payload in Hx; simpl in *; lia..].
      intros ->. unfold live in *. congruence.
    - split; [right; by rewrite Hspan|]. intros Hpx. apply Hx. rewrite <- Hspan. lia. }
  split; [done|]. split; [exists n; split; [done|split; [done|done|lia|done]]|].
  intros x Hx. apply Ho; [by apply (client_not_header h bs)|]. by apply (client_not_header h' bs'), Hkeep.
Qed.

Lemma free_lent h bs' p n L :
  heap_ok h bs' → live bs' ≡ₚ (p, n) :: L →
  wp (free p) h (λ _ h', ∃ bs, heap_ok h' bs ∧ live bs ≡ₚ L ∧ span bs = span bs' ∧
    ∀ x, client_byte bs x → ld8 (h_mem h') x = ld8 (h_mem h) x).
Proof.
  intros Hok Hperm. assert ((p, n) ∈ live bs') as Hin by (rewrite Hperm; left).
  destruct (live_split bs' p n Hin) as (l & r & -> & ->).
  eapply wp_mono; [by apply (free_ok h l n r)|]. intros _ h' [Hok' Ho].
  assert (live (release l n r) ≡ₚ L) as Hl.
  { apply (Permutation_cons_inv (a := (KERNEL_BRK_START + span l + sizeof_block, n))). rewrite <- Hperm, live_mid, release_live.
    apply Permutation_middle. }
  exists (release l n r). split; [done|]. split; [done|]. split; [apply release_span|].
  intros x Hx. apply Ho; [|by apply (client_not_header h' (release l n r))].
  apply (client_not_header h (l ++ (n, true) :: r)); [done|].
  destruct Hx as [(b & Hb & Hx)|Hx]; [left|right; by rewrite <- release_span].
  exists b. split; [|done]. rewrite Hperm, <- Hl. by right.
Qed.

(** The blocks in use and the size of the heap determine the list of blocks. *)
Lemma live_unique bs : ∀ a bs',
  all_pos bs → all_pos bs' → no_adjacent_free bs → no_adjacent_free bs' →
  live_blocks a bs = live_blocks a bs' → span bs = span bs' → bs = bs'.
Proof.
  assert (∀ a k l r b, all_pos l → live_blocks a ((k, true) :: r) = live_blocks (a + b) l → 0 < b → False) as Hlater.
  { intros a k l r b Hl He Hb. assert ((a + sizeof_block, k) ∈ live_blocks (a + b) l) as Hin by (rewrite <- He; by left).
    apply live_bounds in Hin; [|done]. simpl in Hin. lia. }
  induction bs as [|[n u] r IH]; intros a [|[n' u'] r'] Hp Hp' Ha Ha' Hl Hs; [done|..].
  { apply Forall_cons_1 in Hp' as [? Hp']. rewrite span_cons in Hs. pose proof (span_nonneg r' Hp').
    unfold sizeof_block in *. simpl in *. lia. }
  { apply Forall_cons_1 in Hp as [? Hp]. rewrite span_cons in Hs. pose proof (span_nonneg r Hp).
    unfold sizeof_block in *. simpl in *. lia. }
  apply Forall_cons_1 in Hp as [Hn Hp], Hp' as [Hn' Hp']. simpl in Hn, Hn'. rewrite !span_cons in Hs. cbn [fst] in Hs.
  assert (no_adjacent_free r ∧ no_adjacent_free r') as [Har Har']
    by (split; [destruct u, r as [|[? []]]|destruct u', r' as [|[? []]]]; try exact I; try exact Ha; try exact Ha'; done).
  destruct u, u'.
  - simpl in Hl. injection Hl as <- Hl. f_equal. apply (IH (a + sizeof_block + n)); [done..|lia].
  - exfalso. apply (Hlater a n r' r (sizeof_block + n') Hp'); [|unfold sizeof_block; lia]. rewrite Z.add_assoc. exact Hl.
  - exfalso. apply (Hlater a n' r r' (sizeof_block + n) Hp); [|unfold sizeof_block; lia]. rewrite Z.add_assoc. by symmetry.
  - change (live_blocks (a + sizeof_block + n) r = live_blocks (a + sizeof_block + n') r') in Hl.
    assert (n = n') as <-; [|f_equal; apply (IH (a + sizeof_block + n)); [done..|lia]].
    destruct r as [|[k []] r], r' as [|[k' []] r']; try done; simpl in Hl; [|by injection Hl; intros; lia].
    unfold span in Hs. simpl in Hs. lia.
Qed.

Lemma live_sorted a bs : all_pos bs → StronglySorted (λ b c : Z * Z, b.1 < c.1) (live_blocks a bs).
Proof.
  revert a. induction bs as [|[n u] r IH]; intros a Hp; [constructor|]. apply Forall_cons_1 in Hp as [Hn Hp].
  destruct u; [|by apply IH]. simpl. constructor; [by apply IH|]. apply list.Forall_forall. intros b Hb.
  apply live_bounds in Hb; [|done]. unfold sizeof_block in *. simpl in *. lia.
Qed.

Lemma blocks_unique h h' bs bs' :
  heap_ok h bs → heap_ok h' bs' → live bs' ≡ₚ live bs → span bs' = span bs → bs' = bs.
Proof.
  intros Hok Hok' Hl Hs. pose proof (heap_pos _ _ Hok) as Hp. pose proof (heap_pos _ _ Hok') as Hp'.
  apply (live_unique bs' KERNEL_BRK_START); [done|done|apply (hk_adj _ _ Hok')|apply (hk_adj _ _ Hok)| |done].
  assert (AntiSymm (=) (λ b c : Z * Z, b.1 < c.1)) as Has by (intros b c ? ?; lia).
  by apply (StronglySorted_unique (λ b c : Z * Z, b.1 < c.1)); [apply live_sorted..|].
Qed.
End lending.

Lemma apart_of_points a la b lb :
  0 < la → 0 < lb → (∀ x, a ≤ x < a + la → ¬ (b ≤ x < b + lb)) → b + lb ≤ a ∨ a + la ≤ b.
Proof.
  intros Ha Hb H. destruct (decide (b + lb ≤ a)); [by left|right].
  destruct (decide (a + la ≤ b)); [done|exfalso]. apply (H (Z.max a b)); lia.
Qed.

Lemma heap_write_lent h bs m :
  heap_ok h bs → (∀ x, ¬ client_byte bs x → ld8 m x = ld8 (h_mem h) x) → heap_ok (set_h_mem h m) bs.
Proof.
  intros Hok Hm. apply (heap_ok_ext h); [done|done|done|]. intros x Hx. apply Hm. intros Hc.
  by apply (client_not_header h bs x).
Qed.

Lemma kcalloc_lent h bs a b :
  heap_ok h bs → 0 < a * b < 2 ^ 64 → Exists (λ c, fits (a * b) c = true) bs →
  wp (kcalloc a b) h (λ p h', heap_ok h' (first_fit (a * b) bs 0).1 ∧
    (∃ n, a * b ≤ n ∧ lent bs p n (first_fit (a * b) bs 0).1) ∧
    ∀ x, client_byte bs x → ld8 (h_mem h') x = ld8 (h_mem h) x).
Proof.
  intros Hok Hn Hfits. unfold kcalloc. rewrite w64_small by lia. apply wp_bind.
  eapply wp_mono; [apply (kmalloc_lent h bs (a * b) Hok (proj1 Hn) Hfits)|]. intros p h1 (Hok1 & (n & Hle & Hl) & Hm).
  unfold hwrite. wp_steps.
  assert (∀ x, ld8 (memset (h_mem h1) p 0 (a * b)) x = if decide (p ≤ x < p + a * b) then 0 else ld8 (h_mem h1) x) as Hset
    by (intros x; rewrite ld8_memset; by repeat case_decide).
  split; [|split; [by exists n|]].
  - apply heap_write_lent; [done|]. intros x Hx. rewrite Hset, decide_False; [done|]. intros Hin. apply Hx.
    apply (lent_byte bs p n); [done|lia].
  - intros x Hx. cbn [h_mem set_h_mem]. rewrite Hset, decide_False; [by apply Hm|].
    intros Hin. apply (proj2 (le_keep _ _ _ _ Hl x Hx)). lia.
Qed.

Lemma kcalloc_zeros h bs a b :
  heap_ok h bs → 0 < a * b < 2 ^ 64 → Exists (λ c, fits (a * b) c = true) bs →
  wp (kcalloc a b) h (λ p h', ∀ x, p ≤ x < p + a * b → ld8 (h_mem h') x = 0).
Proof.
  intros Hok Hn Hfits. unfold kcalloc. rewrite w64_small by lia. apply wp_bind.
  eapply wp_mono; [apply (kmalloc_lent h bs (a * b) Hok (proj1 Hn) Hfits)|]. intros p h1 _.
  unfold hwrite. wp_steps. intros x Hx. cbn [h_mem set_h_mem]. by rewrite ld8_memset, decide_True.
Qed.

(** ** The mounted file system

    What the memory at [fs] says of the drive: the block size, the inodes of a
    group, and the block where the inode table of each group starts. *)
Record ext2_view := View { v_bsz : Z; v_per_group : Z; v_table : Z → Z; v_groups : Z }.

Record fs_in (P : Z → Prop) (m : mem) (fs : Z) (v : ext2_view) : Prop := {
  fi_bytes x : fs ≤ x < fs + sizeof_fs → P x;
  fi_bgdt_bytes x : fs_bgdt m fs ≤ x < fs_bgdt m fs + sizeof_bgd * v_groups v → P x;
  fi_bsz : fs_block_size m fs = v_bsz v;
  fi_per_group : s_inodes_per_group m (fs_sb fs) = v_per_group v;
  fi_table g : 0 ≤ g < v_groups v → bg_inode_table m (fs_bgdt m fs + sizeof_bgd * g) = v_table v g;
}.

Lemma ld_same (P : Z → Prop) n m m' a :
  (∀ x, P x → ld8 m' x = ld8 m x) → (∀ x, a ≤ x < a + Z.of_nat n → P x) → ld n m' a = ld n m a.
Proof. intros Hm HP. apply ld_ext. intros x Hx. by apply Hm, HP. Qed.

Lemma fs_in_ext (P : Z → Prop) m m' fs v :
  (∀ x, P x → ld8 m' x = ld8 m x) → fs_in P m fs v → fs_in P m' fs v.
Proof.
  intros Hm [Hb Hg H1 H2 H3].
  assert (∀ n o, 0 ≤ o → o + Z.of_nat n ≤ sizeof_fs → ld n m' (fs + o) = ld n m (fs + o)) as Hfs
    by (intros; apply (ld_same P); [done|]; intros; apply Hb; lia).
  assert (fs_bgdt m' fs = fs_bgdt m fs) as Hbg by (apply (Hfs 8%nat); done).
  split; [done|by rewrite Hbg|..].
  - rewrite <- H1. by apply (Hfs 4%nat).
  - rewrite <- H2. unfold s_inodes_per_group, fs_sb. rewrite <- Z.add_assoc. by apply (Hfs 4%nat).
  - intros g Hg'. rewrite <- H3 by done. rewrite Hbg. unfold bg_inode_table, ld32. apply (ld_same P); [done|].
    intros x Hx. apply Hg. change (field_of true ext2_bgd "bg_inode_table") with 8 in Hx. unfold sizeof_bgd in *. lia.
Qed.

Lemma fs_in_weaken (P P' : Z → Prop) m fs v : (∀ x, P x → P' x) → fs_in P m fs v → fs_in P' m fs v.
Proof. intros HP [H1 H2 ? ? ?]. split; auto. Qed.

(** An inode that [ext2_get_inode] finds, and where. *)
Definition ino_pos (v : ext2_view) (ino : Z) : Z :=
  v_table v ((ino - 1) / v_per_group v) * v_bsz v + sizeof_ino * ((ino - 1) mod v_per_group v).
Definition ino_ok (v : ext2_view) (ino : Z) : Prop :=
  0 < ino < 2 ^ 31 ∧ ino mod v_per_group v ≠ 0 ∧ (ino - 1) / v_per_group v < v_groups v ∧ ino_pos v ino < 2 ^ 32.
Definition view_ok (v : ext2_view) : Prop := good_bsz (v_bsz v) ∧ 0 < v_per_group v < 2 ^ 31.

(** The bytes at [a] are the [n] bytes of the drive at [pos]. *)
Definition held (dk : Z → Z) (m : mem) (a pos n : Z) : Prop := ∀ j, 0 ≤ j < n → ld8 m (a + j) = dk (pos + j).

Lemma held_word dk m a pos n o :
  held dk m a pos n → 0 ≤ o → o + 4 ≤ n → ld32 m (a + o) = disk_word dk (pos + o).
Proof.
  intros H H1 H2. unfold ld32, disk_word. cbn [ld].
  rewrite <- !(Z.add_assoc a), <- !(Z.add_assoc pos), !H by lia. done.
Qed.
Lemma held_ext dk m m' a pos n :
  (∀ x, a ≤ x < a + n → ld8 m' x = ld8 m x) → held dk m a pos n → held dk m' a pos n.
Proof. intros Hm H j Hj. rewrite Hm by lia. by apply H. Qed.

(** The inode at [pos] of the drive. *)
Definition disk_size (dk : Z → Z) (pos : Z) : Z := disk_word dk (pos + 4).
Definition disk_mode (dk : Z → Z) (pos : Z) : Z := dk pos + 256 * dk (pos + 1).
Definition disk_blocks (dk : Z → Z) (pos : Z) : Z := disk_word dk (pos + 28).
Definition disk_block (dk : Z → Z) (pos k : Z) : Z := disk_word dk (pos + 40 + 4 * k).

(** The drive block that holds block [blk] of its file, and byte [j] of it. *)
Definition disk_file_block (dk : Z → Z) (bsz pos blk : Z) : Z :=
  match ext2_layout (bsz / 4) blk with
  | o :: rest => walk dk bsz (disk_block dk pos o) rest
  | [] => 0
  end.
Definition disk_file_block_ok (dk : Z → Z) (bsz pos blk : Z) : Prop :=
  match ext2_layout (bsz / 4) blk with
  | o :: rest => walk_ok dk bsz (disk_block dk pos o) rest
  | [] => True
  end.
Definition file_byte (dk : Z → Z) (bsz pos j : Z) : Z :=
  dk (disk_file_block dk bsz pos (j / bsz) * bsz + j mod bsz).

Section inodes.
Context {D : Type} {PO : PortOps D} {AD : AtaDrive D} (spin : nat).
Hypothesis spin_pos : (ata_polls (D := D) < spin)%nat.
Implicit Types (s : machine D).

Lemma get_inode_view s bs fs v buf ino :
  machine_ok s bs → view_ok v → fs_in (client_byte bs) (s_mem s) fs v → ino_ok v ino →
  buf ≠ 0 → (∀ x, buf ≤ x < buf + sizeof_ino → client_byte bs x) → Exists (λ b, fits 512 b = true) bs →
  wp (ext2_get_inode spin fs buf ino) s (λ _ s', machine_ok s' bs ∧ disk (drive s') = disk (drive s) ∧
    held (disk (drive s)) (s_mem s') buf (ino_pos v ino) sizeof_ino ∧ only_buffer bs buf sizeof_ino s s').
Proof.
  intros Hok [[Hb1 Hb2] Hn] Hv (Hi & Hmod & Hg & Hpos) Hbuf Hcl Hroom. pose proof Hv as [_ _ Hbsz Hper Ht].
  assert (inode_pos s fs ino = ino_pos v ino) as E.
  { unfold inode_pos, inode_group, ino_pos. rewrite Hper, Hbsz, Ht; [done|]. split; [|done]. apply Z.div_pos; lia. }
  eapply wp_mono; [apply (get_inode_ok spin spin_pos s bs fs buf ino); rewrite ?Hper, ?Hbsz, ?E; done|].
  rewrite E. by intros [] s' H.
Qed.

Lemma file_block_held s v i pos blk :
  held (disk (drive s)) (s_mem s) i pos sizeof_ino → view_ok v → 0 ≤ blk < 12 + v_bsz v / 4 + v_bsz v / 4 * (v_bsz v / 4) →
  file_block s (v_bsz v) i blk = disk_file_block (disk (drive s)) (v_bsz v) pos blk ∧
  (file_block_ok s (v_bsz v) i blk ↔ disk_file_block_ok (disk (drive s)) (v_bsz v) pos blk).
Proof.
  intros Hh [[Hb _] _] Hblk. assert (0 < v_bsz v / 4) as Hp by (apply Z.div_str_pos; lia).
  unfold file_block, disk_file_block, file_block_ok, disk_file_block_ok.
  destruct (layout_bounds spin spin_pos (v_bsz v / 4) blk Hp Hblk) as (o & rest & -> & Ho & _).
  assert (i_block (s_mem s) i o = disk_block (disk (drive s)) pos o) as ->; [|done].
  unfold i_block, disk_block. change (field_of true ext2_ino "i_block") with 40. rewrite <- !Z.add_assoc.
  apply (held_word _ _ _ _ sizeof_ino); [done|lia|unfold sizeof_ino; lia].
Qed.

(** ** [ext2_read_file] *)

(** The blocks of a file that the block map reaches, up to the end of the
    single indirect range. *)
Definition file_ok (dk : Z → Z) (bsz pos nblk : Z) : Prop :=
  nblk ≤ 12 + bsz / 4 ∧ nblk - 1 ≤ disk_blocks dk pos ∧ ∀ k, 0 ≤ k < nblk → disk_file_block_ok dk bsz pos k.

(** [buf] is lent by the heap, apart from the block size and the inode at [i]. *)
Definition file_buffer (bs : blocks) (fs i buf len : Z) : Prop :=
  buf ≠ 0 ∧ (∀ x, buf ≤ x < buf + len → client_byte bs x) ∧
  (∀ x, fs ≤ x < fs + 4 → client_byte bs x) ∧ (∀ x, i ≤ x < i + sizeof_ino → client_byte bs x) ∧
  (buf + len ≤ fs ∨ fs + 4 ≤ buf) ∧ (buf + len ≤ i ∨ i + sizeof_ino ≤ buf) ∧ 0 < buf.

Lemma get_blocks_loop_ok bs fs v i buf pos nblk : ∀ n k s,
  view_ok v → file_buffer bs fs i buf (nblk * v_bsz v) → Exists (λ b, fits (v_bsz v) b = true) bs →
  nblk * v_bsz v < 2 ^ 32 → k + Z.of_nat n = nblk → 0 ≤ k →
  machine_ok s bs → fs_block_size (s_mem s) fs = v_bsz v →
  held (disk (drive s)) (s_mem s) i pos sizeof_ino → file_ok (disk (drive s)) (v_bsz v) pos nblk →
  (∀ j, 0 ≤ j < k * v_bsz v → ld8 (s_mem s) (buf + j) = file_byte (disk (drive s)) (v_bsz v) pos j) →
  wp (get_blocks_loop spin n fs i buf k) s (λ _ s', machine_ok s' bs ∧ disk (drive s') = disk (drive s) ∧
    (∀ j, 0 ≤ j < nblk * v_bsz v → ld8 (s_mem s') (buf + j) = file_byte (disk (drive s)) (v_bsz v) pos j) ∧
    only_buffer bs buf (nblk * v_bsz v) s s').
Proof.
  induction n as [|n IH]; intros k s Hv Hbuf Hroom H32 Hk Hk0 Hok Hfs Hh Hf Hdone; cbn [get_blocks_loop].
  { apply wp_ret. replace nblk with k by lia. by split_and!. }
  pose proof Hv as [Hg _]. pose proof Hg as [Hg1 Hg2]. set (z := v_bsz v) in *.
  pose proof Hbuf as (Hnz & Hcl & Hcl1 & Hcl2 & Hd1 & Hd2 & Hpos). destruct Hf as (Hmax & Hblocks & Hptrs).
  assert (k * z + z ≤ nblk * z) as Hle by nia.
  assert (block_buffer bs fs z (buf + k * z)) as Hbb.
  { split; [nia|]. split; [intros; apply Hcl; nia|]. split; [done|nia]. }
  assert (0 < z / 4) as Hp by (apply Z.div_str_pos; lia).
  pose proof (Z.mul_nonneg_nonneg (z / 4) (z / 4) ltac:(lia) ltac:(lia)).
  assert (i_blocks (s_mem s) i = disk_blocks (disk (drive s)) pos) as Hib.
  { apply (held_word _ _ _ _ sizeof_ino); [done|done|unfold sizeof_ino; done]. }
  destruct (file_block_held s v i pos k Hh Hv) as [Hfb Hfbok]; [fold z; lia|]. fold z in Hfb, Hfbok.
  apply wp_bind, wp_gets. fold (s_mem s). rewrite Hfs, w32_small by nia. apply wp_bind.
  eapply wp_mono; [apply (get_block_ok spin spin_pos s bs fs i (buf + k * z) k z); try done; try lia; try nia|].
  { apply Hfbok, Hptrs. lia. }
  intros _ s1 (Hok1 & Hk1 & Hh1 & Ho1). rewrite Hfb in Hh1.
  eapply wp_mono; [apply (IH (k + 1) s1); rewrite ?Hk1; try done; try lia|].
  - rewrite <- Hfs. by apply (block_size_same bs fs z (buf + k * z)).
  - apply (held_ext _ (s_mem s)); [|done]. intros x Hx. apply Ho1; [by apply Hcl2|nia].
  - intros j Hj. destruct (decide (j < k * z)) as [Hlt|Hge].
    + rewrite Ho1; [apply Hdone; lia|apply Hcl; nia|nia].
    + assert (0 ≤ j - k * z < z) as Hr by lia. replace (buf + j) with (buf + k * z + (j - k * z)) by lia. rewrite Hh1 by done.
      unfold file_byte. assert (j = z * k + (j - k * z)) as Hdj by lia.
      by rewrite <- (Z.div_unique_pos j z k _ Hr Hdj), <- (Z.mod_unique_pos j z k _ Hr Hdj).
  - intros _ s2 (Hok2 & Hk2 & Hh2 & Ho2). rewrite Hk1 in *. split_and!; try done.
    intros x Hx Hn. rewrite Ho2 by done. apply Ho1; [done|nia].
Qed.

(** Free blocks for the inode, the content, and the buffers of the driver. *)
Definition after (sz : Z) (bs : blocks) : blocks := (first_fit sz bs 0).1.
Definition has_room (sz : Z) (bs : blocks) : Prop := Exists (λ b, fits sz b = true) bs.
Definition read_room (bsz len : Z) (bs : blocks) : Prop :=
  has_room sizeof_ino bs ∧ has_room 512 (after sizeof_ino bs) ∧ has_room len (after sizeof_ino bs) ∧
  has_room bsz (after len (after sizeof_ino bs)).

(** A block of its own for the inode. *)
Definition inode_block bs s (i : Z) s' : Prop :=
  machine_ok s' (after sizeof_ino bs) ∧ drive s' = drive s ∧ i ≠ 0 ∧
  (∃ n, sizeof_ino ≤ n ∧ lent bs i n (after sizeof_ino bs)) ∧
  ∀ x, client_byte bs x → ld8 (s_mem s') x = ld8 (s_mem s) x.

(** The first half: the inode is in it. *)
Definition inode_loaded bs fs v ino s (i : Z) s' : Prop :=
  machine_ok s' (after sizeof_ino bs) ∧ disk (drive s') = disk (drive s) ∧ i ≠ 0 ∧
  (∃ n, sizeof_ino ≤ n ∧ lent bs i n (after sizeof_ino bs)) ∧
  fs_in (client_byte (after sizeof_ino bs)) (s_mem s') fs v ∧
  held (disk (drive s)) (s_mem s') i (ino_pos v ino) sizeof_ino ∧
  ∀ x, client_byte bs x → ld8 (s_mem s') x = ld8 (s_mem s) x.

Lemma alloc_inode_ok bs s :
  machine_ok s bs → has_room sizeof_ino bs → wp (in_heap (kcalloc 1 sizeof_ino)) s (inode_block bs s).
Proof.
  intros (Hd & Ht & Hok) Hr. apply wp_in_heap.
  eapply wp_mono; [apply (kcalloc_lent (hp s) bs 1 sizeof_ino Hok); [done|exact Hr]|].
  change (1 * sizeof_ino) with sizeof_ino. intros i h1 (Hok1 & (n & Hn & Hl) & Hm1). fold (after sizeof_ino bs) in *.
  pose proof (le_pos _ _ _ _ Hl) as Hpos. unfold KERNEL_BRK_START in Hpos.
  split; [by split_and!|]. split_and!; [done|lia|by exists n|done].
Qed.

Lemma fill_inode_ok bs fs v ino s i s1 :
  inode_block bs s i s1 → view_ok v → fs_in (client_byte bs) (s_mem s) fs v → ino_ok v ino →
  has_room 512 (after sizeof_ino bs) → wp (ext2_get_inode spin fs i ino) s1 (λ _ s', inode_loaded bs fs v ino s i s').
Proof.
  intros (Hok1 & Hd1 & Hi0 & (n & Hn & Hl) & Hm1) Hv Hfs Hino Hr2. pose proof (le_pos _ _ _ _ Hl) as Hpos. unfold KERNEL_BRK_START in Hpos.
  assert (fs_in (client_byte (after sizeof_ino bs)) (s_mem s1) fs v) as Hfs1.
  { apply (fs_in_weaken (client_byte bs)); [intros x; apply (le_keep _ _ _ _ Hl)|]. by apply (fs_in_ext _ (s_mem s)). }
  eapply wp_mono; [apply (get_inode_view s1 (after sizeof_ino bs) fs v i ino); try done; [intros x Hx; apply (lent_byte bs i n); [done|lia]]|].
  intros [] s2 (Hok2 & Hk2 & Hh2 & Ho2). rewrite Hd1 in Hk2, Hh2.
  assert (∀ x, client_byte bs x → ld8 (s_mem s2) x = ld8 (s_mem s1) x) as Hm2.
  { intros x Hx. destruct (le_keep _ _ _ _ Hl x Hx) as [Hx1 Hx2]. apply Ho2; [done|lia]. }
  split_and!; try done; [by exists n|..].
  - apply (fs_in_weaken (client_byte bs)); [intros x; apply (le_keep _ _ _ _ Hl)|].
    apply (fs_in_ext (client_byte bs) (s_mem s)); [|done]. intros x Hx. rewrite Hm2 by done. by apply Hm1.
  - intros x Hx. rewrite Hm2 by done. by apply Hm1.
Qed.

Lemma load_inode_ok {A} bs fs v ino s (f : Z → M (machine D) A) Q P :
  machine_ok s bs → view_ok v → fs_in (client_byte bs) (s_mem s) fs v → ino_ok v ino →
  has_room sizeof_ino bs → has_room 512 (after sizeof_ino bs) →
  (∀ i s', inode_loaded bs fs v ino s i s' → wpp (f i) s' Q P) →
  wpp (let* i := in_heap (kcalloc 1 sizeof_ino) in ext2_get_inode spin fs i ino ;;* f i) s Q P.
Proof.
  intros Hok Hv Hfs Hino Hr1 Hr2 HQ. apply (wpp_bind _ _ _ _ _ _ (alloc_inode_ok bs s Hok Hr1)). intros i s1 Hi.
  apply (wpp_bind _ _ _ _ _ _ (fill_inode_ok bs fs v ino s i s1 Hi Hv Hfs Hino Hr2)). intros [] s2. apply HQ.
Qed.

(** The second half: the content, and the inode's block is given back. *)
Definition file_read bs v ino len s (p : Z) s' : Prop :=
  ∃ n bs', machine_ok s' bs' ∧ disk (drive s') = disk (drive s) ∧ live bs' ≡ₚ (p, n) :: live bs ∧ span bs' = span bs ∧
    len ≤ n ∧
    (∀ j, 0 ≤ j < disk_size (disk (drive s)) (ino_pos v ino) →
      ld8 (s_mem s') (p + j) = file_byte (disk (drive s)) (v_bsz v) (ino_pos v ino) j) ∧
    (∀ j, disk_size (disk (drive s)) (ino_pos v ino) ≤ j < len → ld8 (s_mem s') (p + j) = 0) ∧
    ∀ x, client_byte bs x → ld8 (s_mem s') x = ld8 (s_mem s) x.

(** The buffer for the content, next to the inode and the file system. *)
Lemma file_buffer_lent bs1 bs2 fs i b n2 len :
  lent bs1 b n2 bs2 → 0 < len → len ≤ n2 → (∀ x, i ≤ x < i + sizeof_ino → client_byte bs1 x) →
  (∀ x, fs ≤ x < fs + 4 → client_byte bs1 x) → file_buffer bs2 fs i b len.
Proof.
  intros Hl H0 Hn Hib Hfb. pose proof (le_pos _ _ _ _ Hl) as Hpos. unfold KERNEL_BRK_START in Hpos.
  split; [lia|]. split; [intros; apply (lent_byte bs1 b n2); [done|lia]|].
  split; [intros; by apply (le_keep _ _ _ _ Hl), Hfb|]. split; [intros; by apply (le_keep _ _ _ _ Hl), Hib|].
  split; [apply apart_of_points; [lia|lia|]|split; [apply apart_of_points; [done|lia|]|lia]].
  - intros x Hx Hin. apply (proj2 (le_keep _ _ _ _ Hl x (Hfb x Hx))). lia.
  - intros x Hx Hin. apply (proj2 (le_keep _ _ _ _ Hl x (Hib x Hx))). lia.
Qed.

(** Zeros behind the content, and the release of the inode's block. *)
Lemma read_file_end_ok bs2 s i n1 b n2 (L : list (Z * Z)) size len :
  machine_ok s bs2 → i_size (s_mem s) i = size → live bs2 ≡ₚ (b, n2) :: (i, n1) :: L →
  0 ≤ size ≤ len → len ≤ n2 → len < 2 ^ 32 →
  wp (let* size := load (λ m, i_size m i) in
      store (λ m, memset m (b + size) 0 (w32 (len - size))) ;;* in_heap (free i) ;;* mret_ b) s
    (λ p s', p = b ∧ ∃ bs', machine_ok s' bs' ∧ disk (drive s') = disk (drive s) ∧ live bs' ≡ₚ (b, n2) :: L ∧
      span bs' = span bs2 ∧ ∀ x, client_byte bs' x →
        ld8 (s_mem s') x = if decide (b + size ≤ x < b + len) then 0 else ld8 (s_mem s) x).
Proof.
  intros (Hd & Ht & Hok) Hsz Hl Hsize Hn H32. apply wp_bind, wp_gets. fold (s_mem s). rewrite Hsz, w32_small by lia.
  apply wp_bind. unfold store. apply wp_in_heap, wp_modify. set (m4 := memset _ _ _ _).
  assert (∀ x, ld8 m4 x = if decide (b + size ≤ x < b + len) then 0 else ld8 (s_mem s) x) as Hm4.
  { intros x. unfold m4. rewrite ld8_memset. by replace (b + size + (len - size)) with (b + len) by lia. }
  assert (heap_ok (set_h_mem (hp s) m4) bs2) as Hok4.
  { apply heap_write_lent; [done|]. intros x Hx. rewrite Hm4, decide_False; [done|]. intros Hin. apply Hx.
    left. exists (b, n2). split; [rewrite Hl; by left|unfold payload; simpl; lia]. }
  apply wp_bind, wp_in_heap. eapply wp_mono; [apply (free_lent _ bs2 i n1 ((b, n2) :: L) Hok4); rewrite Hl; apply perm_swap|].
  intros _ h5 (bs5 & Hok5 & Hl5 & Hs5 & Hm5). apply wp_ret. simpl in Hm5. split; [done|]. exists bs5.
  split; [by split_and!|]. do 3 (split; [done|]). intros x Hx. unfold s_mem at 1. cbn [hp]. by rewrite Hm5, Hm4.
Qed.

Lemma read_file_ok bs fs v ino s nblk :
  machine_ok s bs → view_ok v → fs_in (client_byte bs) (s_mem s) fs v → ino_ok v ino →
  let dk := disk (drive s) in let size := disk_size dk (ino_pos v ino) in
  0 < size → size + v_bsz v - 1 < 2 ^ 32 → nblk = (size + v_bsz v - 1) / v_bsz v →
  file_ok dk (v_bsz v) (ino_pos v ino) nblk → read_room (v_bsz v) (nblk * v_bsz v) bs →
  wp (ext2_read_file spin fs ino) s (file_read bs v ino (nblk * v_bsz v) s).
Proof.
  intros Hok Hv Hfs Hino dk size Hsize H32 Hnblk Hf (Hr1 & Hr2 & Hr3 & Hr4). pose proof Hv as [[Hz _] _].
  apply (wpp_wp _ _ _ False); [|tauto]. apply (load_inode_ok bs fs v ino s); try done.
  intros i s1 (Hok1 & Hk1 & Hi0 & (n1 & Hn1 & Hl1) & Hfs1 & Hh1 & Hm1). apply wpp_of_wp.
  set (bs1 := after sizeof_ino bs) in *. set (z := v_bsz v) in *. set (pos := ino_pos v ino) in *.
  assert (i_size (s_mem s1) i = size) as Hs1 by (apply (held_word _ _ _ _ sizeof_ino); [done|done|unfold sizeof_ino; done]).
  apply wp_bind, wp_gets. fold (s_mem s1). apply wp_bind, wp_gets. fold (s_mem s1). rewrite Hs1, (fi_bsz _ _ _ _ Hfs1).
  fold z. destruct (Z.eqb_spec z 0); [lia|]. rewrite (w32_small (size + z - 1)) by lia. rewrite <- Hnblk.
  pose proof (Z.div_mod (size + z - 1) z ltac:(lia)) as Hd. pose proof (Z.mod_pos_bound (size + z - 1) z ltac:(lia)) as Hd'.
  rewrite <- Hnblk in Hd. assert (size ≤ nblk * z < 2 ^ 32) as Hlen by lia. assert (0 < nblk) as Hn0 by nia.
  cbv zeta. rewrite !(w32_small (nblk * z)) by lia. apply wp_bind, wp_in_heap. destruct Hok1 as (Hd1 & Ht1 & Hh1ok).
  eapply wp_mono; [apply (kmalloc_lent (hp s1) bs1 (nblk * z)); [done|lia|exact Hr3]|].
  intros b h2 (Hok2 & (n2 & Hn2 & Hl2) & Hm2). fold (after (nblk * z) bs1) in Hok2, Hl2. set (bs2 := after (nblk * z) bs1) in *.
  set (s2 := Machine (drive s1) h2). pose proof (le_keep _ _ _ _ Hl1) as Hk1'. pose proof (le_keep _ _ _ _ Hl2) as Hk2'.
  assert (∀ x, i ≤ x < i + sizeof_ino → client_byte bs1 x) as Hib by (intros; apply (lent_byte bs i n1); [done|lia]).
  assert (∀ x, fs ≤ x < fs + 4 → client_byte bs1 x) as Hfb by (intros; apply (fi_bytes _ _ _ _ Hfs1); unfold sizeof_fs; lia).
  pose proof (file_buffer_lent bs1 bs2 fs i b n2 (nblk * z) Hl2 ltac:(lia) Hn2 Hib Hfb) as Hfbuf.
  assert (fs_in (client_byte bs1) (s_mem s2) fs v) as Hfs2 by by apply (fs_in_ext _ (s_mem s1)).
  apply wp_bind. unfold ext2_get_blocks.
  eapply wp_mono; [apply (get_blocks_loop_ok bs2 fs v i b pos nblk); try done; try (fold z; lia)|].
  - exact (fi_bsz _ _ _ _ Hfs2).
  - simpl. rewrite Hk1. apply (held_ext _ (s_mem s1)); [|done]. intros x Hx. by apply Hm2, Hib.
  - simpl. by rewrite Hk1.
  - intros _ s3 (Hok3 & Hk3 & Hc3 & Ho3). simpl in Hk3, Hc3. rewrite Hk1 in Hk3, Hc3. fold dk z in Hc3, Ho3.
    assert (i_size (s_mem s3) i = size) as Hs3.
    { apply (held_word dk _ _ pos sizeof_ino); [|done|unfold sizeof_ino; done]. apply (held_ext _ (s_mem s1)); [|done].
      intros x Hx. destruct (Hk2' x (Hib x Hx)). rewrite Ho3; [by apply Hm2, Hib|done|lia]. }
    eapply wp_mono; [apply (read_file_end_ok bs2 s3 i n1 b n2 (live bs) size (nblk * z)); try done; try lia|].
    { rewrite (le_live _ _ _ _ Hl2). by rewrite (le_live _ _ _ _ Hl1). }
    intros p s5 (-> & bs5 & Hok5 & Hk5 & Hl5 & Hs5 & Hm5). exists n2, bs5.
    assert (∀ x, b ≤ x < b + n2 → client_byte bs5 x) as Hb5.
    { intros x Hx. left. exists (b, n2). split; [rewrite Hl5; by left|done]. }
    assert (span bs5 = span bs) as Hsp by (rewrite Hs5, (le_span _ _ _ _ Hl2); by apply (le_span _ _ _ _ Hl1)).
    split; [done|]. split; [congruence|]. do 3 (split; [done|]). fold dk pos size. split_and!.
    + intros j Hj. rewrite Hm5 by (apply Hb5; lia). rewrite decide_False by lia. apply Hc3. lia.
    + intros j Hj. rewrite Hm5 by (apply Hb5; lia). by rewrite decide_True by lia.
    + intros x Hx. destruct (Hk1' x Hx) as [Hx1 _]. destruct (Hk2' x Hx1) as [Hx2 Hx3]. rewrite Hm5.
      * rewrite decide_False, Ho3 by (done || lia). unfold s2, s_mem at 1. simpl. rewrite Hm2 by done. by apply Hm1.
      * destruct Hx as [(c & Hc & Hx)|Hx]; [left; exists c; split; [rewrite Hl5; by right|done]|right; by rewrite Hsp].
Qed.
End inodes.

Section file.
Context {D : Type} {PO : PortOps D} {AD : AtaDrive D} (spin : nat).
Implicit Types (s : machine D).

(** C13: [ext2_read_file] of a file that is not empty (an empty one panics,
    [ext2_read_file_empty]), of an inode that is not the last of its group (which
    is looked for in the wrong place, [get_inode_last_of_group]), with at most
    [12 + bsz / 4] blocks (the block map goes wrong behind them,
    [ext2_block_offsets_layout]), all on a drive of 4 GiB, answers a block of the
    heap with exactly the content of the file: byte [j] is byte [j mod bsz] of the drive block that the ext2
    block map names for block [j / bsz] of the inode, zeros follow up to a whole
    number of blocks; that block is the only one that the call leaves in use,
    and the drive and everything else lent by the heap are unchanged. *)
Theorem ext2_read_file_spec s bs fs v ino nblk (dk := disk (drive s)) (pos := ino_pos v ino) (size := disk_size dk pos)
    (Hspin : (ata_polls (D := D) < spin)%nat) (Hok : machine_ok s bs) (Hv : view_ok v) (Hfs : fs_in (client_byte bs) (s_mem s) fs v)
    (Hino : ino_ok v ino) (Hsize : 0 < size) (H32 : size + v_bsz v - 1 < 2 ^ 32)
    (Hnblk : nblk = (size + v_bsz v - 1) / v_bsz v) (Hfile : file_ok dk (v_bsz v) pos nblk)
    (Hroom : read_room (v_bsz v) (nblk * v_bsz v) bs) :
  ∃ p n s' bs', ext2_read_file spin fs ino s = Ok (p, s') ∧ machine_ok s' bs' ∧ disk (drive s') = dk ∧
    live bs' ≡ₚ (p, n) :: live bs ∧ nblk * v_bsz v ≤ n ∧
    (∀ j, 0 ≤ j < size → ld8 (s_mem s') (p + j) = file_byte dk (v_bsz v) pos j) ∧
    (∀ j, size ≤ j < nblk * v_bsz v → ld8 (s_mem s') (p + j) = 0) ∧
    (∀ x, client_byte bs x → ld8 (s_mem s') x = ld8 (s_mem s) x).
Proof.
  destruct (proj1 (wp_run _ _ _) (read_file_ok spin Hspin bs fs v ino s nblk Hok Hv Hfs Hino Hsize H32 Hnblk Hfile Hroom))
    as (p & s' & Hrun & n & bs' & ? & ? & ? & _ & ? & ? & ? & ?). by exists p, n, s', bs'.
Qed.

(** An empty file is not read: [kmalloc] is asked for 0 bytes. *)
Lemma ext2_read_file_empty s bs fs v ino :
  (ata_polls (D := D) < spin)%nat → machine_ok s bs → view_ok v → fs_in (client_byte bs) (s_mem s) fs v → ino_ok v ino →
  disk_size (disk (drive s)) (ino_pos v ino) = 0 → has_room sizeof_ino bs → has_room 512 (after sizeof_ino bs) →
  ∃ msg, ext2_read_file spin fs ino s = Panic msg.
Proof.
  intros Hspin Hok Hv Hfs Hino Hsize Hr1 Hr2. pose proof Hv as [[Hz _] _].
  assert (wpp (ext2_read_file spin fs ino) s (λ _ _, False) True) as Hw; [|by apply (wpp_panic _ _ _ _ Hw); intros ? ? []].
  apply (load_inode_ok spin Hspin bs fs v ino s); [done..|].
  intros i s1 (_ & _ & _ & _ & Hfs1 & Hh1 & _).
  assert (i_size (s_mem s1) i = 0) as Hs1
    by (rewrite <- Hsize; apply (held_word _ _ _ _ sizeof_ino); [done|done|unfold sizeof_ino; done]).
  apply wpp_step, wp_gets. fold (s_mem s1). apply wpp_step, wp_gets. fold (s_mem s1). rewrite Hs1, (fi_bsz _ _ _ _ Hfs1).
  destruct (Z.eqb_spec (v_bsz v) 0); [lia|]. cbv zeta. rewrite (w32_small (0 + v_bsz v - 1)), (Z.div_small (0 + v_bsz v - 1)) by lia. done.
Qed.
End file.

(** *** A drive to try the theorems on

    Blocks of 1024 bytes, 8 inodes in a group, the inode table in block 4: the
    root directory (inode 2) has its entries in block 5 and contains "bin"
    (inode 3), whose block 6 contains "sh" (inode 4), whose block 7 contains
    "hello".  [struct ext2_fs] is at 256, the group table at 4000, the path
    "/bin/sh" at 3500. *)
Definition ex_bytes (w32s w16s w8s : list (Z * Z)) : mem :=
  foldr (λ p m, st8 m p.1 p.2) (foldr (λ p m, st16 m p.1 p.2) (foldr (λ p m, st32 m p.1 p.2) ∅ w32s) w16s) w8s.
Definition ex_image : mem := ex_bytes
  [(4252, 2); (4264, 5); (4380, 2); (4392, 6); (4484, 5); (4508, 2); (4520, 7);
   (5120, 2); (5128, 46); (5132, 3); (5140, 0x6e6962); (6144, 4); (6152, 0x6873); (7168, 0x6c6c6568); (7172, 0x6f)]
  [(5124, 12); (5136, 1012); (6148, 1024)] [(5126, 1); (5138, 3); (6150, 2)].
Definition ex_fs_mem : mem := ex_bytes
  [(256, 1024); (300, 8); (656, 4000); (4008, 4); (552, 2); (564, 5); (3500, 0x6e69622f); (3504, 0x0068732f)] [] [].
Definition ex_disk_of (img : mem) : machine sim := Machine (Sim (ld8 img) (λ _, 0) None 1) (init_heap ex_fs_mem).
Definition ex_disk : machine sim := ex_disk_of ex_image.
Definition ex_view : ext2_view := View 1024 8 (λ _, 4) 1.

Lemma ex_disk_ok img : machine_ok (ex_disk_of img) ex_blocks.
Proof. split; [apply (Nat.le_succ_diag_r 1)|]. split; [done|]. apply init_heap_ok. Qed.
Lemma ex_view_ok : view_ok ex_view.
Proof. by split. Qed.
Definition ex_fs_mem_kept : mem := h_mem (init_heap ex_fs_mem).
Lemma ex_fs_in (P : Z → Prop) : (∀ x, 0 ≤ x < 8192 → P x) → fs_in P ex_fs_mem_kept 256 ex_view.
Proof.
  intros HP. assert (fs_bgdt ex_fs_mem_kept 256 = 4000) as Hb by (vm_compute; reflexivity).
  split; rewrite ?Hb; simpl; [intros; apply HP..| | |].
  - unfold sizeof_fs in *. lia.
  - unfold sizeof_bgd in *. lia.
  - by vm_compute.
  - by vm_compute.
  - intros g Hg. assert (g = 0) as -> by lia. by vm_compute.
Qed.
Lemma ex_ino_ok ino : 2 ≤ ino ≤ 4 → ino_ok ex_view ino.
Proof.
  intros H. assert (ino = 2 ∨ ino = 3 ∨ ino = 4) as [-> | [-> | ->]] by lia; by repeat split.
Qed.

Lemma ext2_read_file_spec_witness : ∃ p s',
  ext2_read_file 3 256 4 ex_disk = Ok (p, s') ∧ ld8 (s_mem s') (p + 1) = 101 ∧ ld8 (s_mem s') (p + 5) = 0.
Proof.
  destruct (ext2_read_file_spec 3 ex_disk ex_blocks 256 ex_view 4 1 ex_polls (ex_disk_ok _) ex_view_ok
    (ex_fs_in _ (λ x Hx, ex_low_client x ltac:(lia))) (ex_ino_ok 4 ltac:(lia)) ltac:(by vm_compute) ltac:(by vm_compute)
    ltac:(by vm_compute)) as (p & n & s' & bs' & Hrun & _ & _ & _ & _ & Hc & Hz & _).
  - split; [by vm_compute|]. split; [by vm_compute|]. intros k Hk. assert (k = 0) as -> by lia. by vm_compute.
  - split_and!; [left; by vm_compute|right; left; by vm_compute|right; left; by vm_compute|
      right; right; left; by vm_compute].
  - exists p, s'. split; [exact Hrun|]. split.
    + rewrite Hc; [by vm_compute|split; [lia|by vm_compute]].
    + apply Hz. split; [by vm_compute|by vm_compute].
Defined.
