(* ===== verification/Ext2Path.v ===== *)
(** Paths: [ext2_namei] of [fs/ext2.c] resolves a path against the directories
    on the drive. *)

From S2P Require Import Prelude Layout Memory CString Kmalloc Heap Ata Ext2 Ext2Files.

(** ** The reference: components and their resolution *)

(** The components of a path behind its first character; a slash at the end
    does not start another one. *)
Fixpoint components (p : list Z) : list (list Z) :=
  match p with
  | [] => []
  | c :: p' =>
      if c =? 47 then [] :: components p'
      else match components p' with [] => [[c]] | w :: ws => (c :: w) :: ws end
  end.

(** [dir ino] are the entries of directory [ino]. *)
Fixpoint resolve (dir : Z → list dent) (cs : list (list Z)) (ino : Z) : option Z :=
  match cs with
  | [] => Some ino
  | c :: cs' => match lookup_name c (dir ino) with Some i => resolve dir cs' i | None => None end
  end.

Example components_usr_bin :
  components [117; 115; 114; 47; 98; 105; 110; 47] = [[117; 115; 114]; [98; 105; 110]].
Proof. reflexivity. Qed.

Lemma components_split p :
  p ≠ [] → ∃ w rest, p = w ++ rest ∧ Forall (λ c, c ≠ 47) w ∧ components p = w :: components (tail rest) ∧
    (rest = [] ∨ ∃ r, rest = 47 :: r).
Proof.
  induction p as [|c p IH]; [done|]. intros _. simpl. destruct (Z.eqb_spec c 47) as [->|Hc].
  { exists [], (47 :: p). split_and!; try done. right. by eexists. }
  destruct p as [|c' p].
  { exists [c], []. split_and!; try done; [by constructor|by left]. }
  destruct IH as (w & rest & -> & Hw & -> & Hr); [done|]. exists (c :: w), rest. split_and!; try done. by constructor.
Qed.

(** ** The same bytes at another address *)
Definition shifted (m m' : mem) (a a' n : Z) : Prop := ∀ j, 0 ≤ j < n → ld8 m' (a' + j) = ld8 m (a + j).

Lemma shifted_sub m m' a a' n o k :
  shifted m m' a a' n → 0 ≤ o → o + k ≤ n → shifted m m' (a + o) (a' + o) k.
Proof. intros H Ho Hk j Hj. rewrite <- !Z.add_assoc. apply H. lia. Qed.

Lemma ld_shift k m m' a a' : shifted m m' a a' (Z.of_nat k) → ld k m' a' = ld k m a.
Proof.
  revert a a'. induction k as [|k IH]; intros a a' H; [done|]. cbn [ld].
  pose proof (H 0 ltac:(lia)) as H0. rewrite !Z.add_0_r in H0. rewrite H0.
  rewrite (IH (a + 1) (a' + 1)); [done|]. apply (shifted_sub _ _ _ _ _ _ _ H); lia.
Qed.

Lemma bytes_at_shift m m' a a' l : shifted m m' a a' (Z.of_nat (length l)) → bytes_at m a l → bytes_at m' a' l.
Proof.
  revert a a'. induction l as [|c l IH]; intros a a' H; [done|]. intros [Hc Hl].
  pose proof (H 0 ltac:(simpl; lia)) as H0. rewrite !Z.add_0_r in H0. split; [by rewrite H0|].
  apply (IH (a + 1)); [|done]. apply (shifted_sub _ _ _ _ _ _ _ H); simpl; lia.
Qed.

Lemma dirent_at_shift m m' a a' e : shifted m m' a a' (d_rec e) → dirent_at m a e → dirent_at m' a' e.
Proof.
  intros H (H1 & H2 & H3 & H4 & H5 & H6).
  assert (∀ k o, 0 ≤ o → o + Z.of_nat k ≤ 8 → ld k m' (a' + o) = ld k m (a + o)) as Hld
    by (intros; apply ld_shift, (shifted_sub _ _ _ _ _ _ _ H); lia).
  unfold dirent_at, de_inode, de_rec_len, de_name_len, ld32, ld16 in *. rewrite !Hld by done.
  split; [done|]. split; [done|]. split; [rewrite <- H3; apply H; split; [done|]; change (field_of true ext2_dirent "name_len") with 6; lia|].
  split; [|done]. apply (bytes_at_shift m m' (de_name a)); [|done]. apply (shifted_sub _ _ _ _ _ _ _ H); [done|].
  change (field_of true ext2_dirent "name") with 8. lia.
Qed.

Lemma dirents_shift m m' es : ∀ a a' n,
  shifted m m' a a' n → dirents m a es (a + n) → dirents m' a' es (a' + n).
Proof.
  induction es as [|e es IH]; intros a a' n H; simpl; [lia|]. intros [He Hd].
  pose proof (dirents_le _ _ _ _ Hd) as Hle. pose proof He as (_ & _ & _ & _ & _ & Hr). split.
  - apply (dirent_at_shift m m' a); [|done]. intros j Hj. apply H. lia.
  - replace (a' + n) with (a' + d_rec e + (n - d_rec e)) by lia. apply (IH (a + d_rec e)).
    + apply (shifted_sub _ _ _ _ _ _ _ H); lia.
    + by replace (a + d_rec e + (n - d_rec e)) with (a + n) by lia.
Qed.

(** ** Directories on the drive *)

(** The first block of directory [ino] has the entries [es]. *)
Definition dir_on (dk : Z → Z) (v : ext2_view) (ino : Z) (es : list dent) : Prop :=
  let ptr := disk_block dk (ino_pos v ino) 0 in
  0 ≤ ptr ∧ ptr * v_bsz v < 2 ^ 32 ∧
  ∃ m, held dk m 0 (ptr * v_bsz v) (v_bsz v) ∧ dirents m 0 es (v_bsz v).

(** Every directory on the way is one (in one block, with at most [dfuel]
    entries), no name in it is a shorter one that the component starts with,
    every component fits the 256 bytes of [comp], and every inode found is one
    that [ext2_get_inode] finds. *)
Fixpoint walkable (dk : Z → Z) (v : ext2_view) (dir : Z → list dent) (dfuel : nat) (cs : list (list Z)) (ino : Z) : Prop :=
  match cs with
  | [] => True
  | c :: cs' =>
      dir_on dk v ino (dir ino) ∧ names_clear c (dir ino) ∧ (length (dir ino) < dfuel)%nat ∧ (length c < 256)%nat ∧
      match lookup_name c (dir ino) with
      | Some i => ino_ok v i ∧ walkable dk v dir dfuel cs' i
      | None => True
      end
  end.

Lemma dir_in_memory dk v ino es m a :
  dir_on dk v ino es → held dk m a (disk_block dk (ino_pos v ino) 0 * v_bsz v) (v_bsz v) → dirents m a es (a + v_bsz v).
Proof.
  intros (_ & _ & m0 & Hh0 & Hd) Hh. apply (dirents_shift m0 m es 0); [|done]. intros j Hj. by rewrite Hh, Hh0.
Qed.

(** ** Path components in memory *)
Lemma cstr_app m a w rest :
  cstr m a (w ++ rest) ↔ bytes_at m a w ∧ Forall (λ c, c ≠ 0) w ∧ cstr m (a + Z.of_nat (length w)) rest.
Proof.
  revert a. induction w as [|c w IH]; intros a; simpl; [rewrite Z.add_0_r; by split; [|intros (_ & _ & ?)]|].
  rewrite IH, list.Forall_cons. replace (a + 1 + Z.of_nat (length w)) with (a + Z.of_nat (S (length w))) by lia. tauto.
Qed.

Lemma comp_len_ok m p w : ∀ fuel l,
  bytes_at m (p + l) w → Forall (λ c, c ≠ 0) w → Forall (λ c, c ≠ 47) w → (length w < fuel)%nat →
  (ld8 m (p + l + Z.of_nat (length w)) = 0 ∨ ld8 m (p + l + Z.of_nat (length w)) = 47) →
  comp_len fuel m p l = Ok (l + Z.of_nat (length w)).
Proof.
  induction w as [|c w IH]; intros [|fuel] l Hb Hz Hs Hf Hend; simpl in Hf; try lia; cbn [comp_len].
  - simpl in Hend. rewrite Z.add_0_r in Hend. destruct Hend as [-> | ->]; simpl; f_equal; lia.
  - destruct Hb as [Hc Hb]. apply Forall_cons_1 in Hz as [Hz Hz'], Hs as [Hs Hs']. rewrite Hc.
    destruct (Z.eqb_spec c 47); [done|]. destruct (Z.eqb_spec c 0); [done|]. simpl negb. cbn [andb].
    rewrite (IH fuel (l + 1)); [simpl; f_equal; lia| |done|done|lia|].
    + by rewrite Z.add_assoc.
    + simpl length in Hend. by replace (p + (l + 1) + Z.of_nat (length w)) with (p + l + Z.of_nat (S (length w))) by lia.
Qed.

(** The component copied to [comp], as [memcpy] and the store of the 0 leave it. *)
Lemma copied_component m comp a w (m' := st8 (memcpy m comp a (Z.of_nat (length w))) (comp + Z.of_nat (length w)) 0) :
  bytes_at m a w → Forall (λ c, c ≠ 0) w →
  comp + Z.of_nat (length w) ≤ a ∨ a + Z.of_nat (length w) ≤ comp →
  cstr m' comp w ∧ ∀ x, ¬ (comp ≤ x < comp + Z.of_nat (length w) + 1) → ld8 m' x = ld8 m x.
Proof.
  intros Hb Hz Hov.
  assert (∀ x, ld8 m' x = if decide (comp + Z.of_nat (length w) = x) then 0 else
    if decide (comp ≤ x < comp + Z.of_nat (length w)) then ld8 m (a + (x - comp)) else ld8 m x) as Hm'.
  { intros x. unfold m'. rewrite ld8_st8. case_decide; [done|]. apply ld8_memcpy. lia. }
  split; [|intros x Hx; rewrite Hm', !decide_False by lia; done].
  rewrite <- (app_nil_r w). apply cstr_app. split; [|split; [done|]].
  - apply (bytes_at_shift m m' a); [|done]. intros j Hj. rewrite Hm', decide_False, decide_True by lia. f_equal. lia.
  - simpl. by rewrite Hm', decide_True.
Qed.

(** ** The walk *)

(** Memory of the caller that the walk does not write: lent by the heap, or
    outside of it, and not the buffer [comp]. *)
Definition path_byte (bs : blocks) (comp x : Z) : Prop := client_byte bs x ∧ ¬ (comp ≤ x < comp + 256).

(** The blocks [dirbuf] and [i], allocated on the heap [bs] and giving [bs2]. *)
Record namei_env (m0 : mem) (bs bs2 : blocks) (fs comp i dirbuf : Z) (v : ext2_view) : Prop := {
  ne_view : view_ok v;
  ne_fs : fs_in (path_byte bs comp) m0 fs v;
  ne_comp x : comp ≤ x < comp + 256 → client_byte bs x;
  ne_keep x : client_byte bs x →
    client_byte bs2 x ∧ ¬ (dirbuf ≤ x < dirbuf + v_bsz v) ∧ ¬ (i ≤ x < i + sizeof_ino);
  ne_dirbuf x : dirbuf ≤ x < dirbuf + v_bsz v → client_byte bs2 x;
  ne_i x : i ≤ x < i + sizeof_ino → client_byte bs2 x;
  ne_nonzero : dirbuf ≠ 0 ∧ i ≠ 0;
  ne_apart : dirbuf + v_bsz v ≤ i ∨ i + sizeof_ino ≤ dirbuf;
  ne_room : has_room (v_bsz v) bs2 ∧ has_room 512 bs2;
}.

Section walk.
Context {D : Type} {PO : PortOps D} {AD : AtaDrive D} (spin : nat).
Hypothesis spin_pos : (ata_polls (D := D) < spin)%nat.
Variables (m0 : mem) (dk : Z → Z) (bs bs2 : blocks) (fs comp i dirbuf : Z) (v : ext2_view).
Hypothesis Henv : namei_env m0 bs bs2 fs comp i dirbuf v.
Implicit Types (s : machine D).

(** Between two components: the inode of the directory is in [i]. *)
Record namei_inv s (ino : Z) : Prop := {
  ni_ok : machine_ok s bs2;
  ni_disk : disk (drive s) = dk;
  ni_held : held dk (s_mem s) i (ino_pos v ino) sizeof_ino;
  ni_same x : path_byte bs comp x → ld8 (s_mem s) x = ld8 m0 x;
}.

Lemma inv_fs s ino : namei_inv s ino → fs_in (path_byte bs comp) (s_mem s) fs v.
Proof. intros [_ _ _ Hs]. apply (fs_in_ext _ m0); [done|]. apply (ne_fs _ _ _ _ _ _ _ _ Henv). Qed.

Lemma path_byte_kept x : path_byte bs comp x → client_byte bs2 x.
Proof. intros [Hx _]. by apply (ne_keep _ _ _ _ _ _ _ _ Henv). Qed.

Lemma copy_component_ok s ino a w :
  namei_inv s ino → bytes_at (s_mem s) a w → Forall (λ c, c ≠ 0) w → (length w < 256)%nat →
  (∀ x, a ≤ x < a + Z.of_nat (length w) → path_byte bs comp x) →
  wp (store (λ m, memcpy m comp a (Z.of_nat (length w))) ;;* store (λ m, st8 m (comp + Z.of_nat (length w)) 0)) s
    (λ _ s', namei_inv s' ino ∧ cstr (s_mem s') comp w).
Proof.
  intros [(Hd & Ht & Hok) Hk Hh Hs] Hb Hz Hlen Hpath.
  destruct (copied_component (s_mem s) comp a w Hb Hz) as [Hc Ho].
  { destruct (decide (w = [])) as [->|Hw]; [simpl; lia|]. assert (0 < length w)%nat by (destruct w; simpl; [done|lia]).
    apply apart_of_points; [lia..|]. intros x Hx Hin. apply (Hpath x Hx). lia. }
  apply wp_bind. unfold store. apply wp_in_heap, wp_modify, wp_in_heap, wp_modify. cbn [hp drive h_mem set_h_mem].
  set (m' := st8 _ _ _) in *. split; [split|exact Hc]; [| |apply (held_ext dk (s_mem s)); [|done]|].
  - split; [done|]. split; [done|]. cbn [hp]. change (set_h_mem (set_h_mem (hp s) _) m') with (set_h_mem (hp s) m').
    apply heap_write_lent; [done|]. intros x Hx. apply Ho. intros Hin. apply Hx.
    apply (ne_keep _ _ _ _ _ _ _ _ Henv), (ne_comp _ _ _ _ _ _ _ _ Henv). lia.
  - done.
  - intros x Hx. apply Ho. intros Hin.
    apply (ne_keep _ _ _ _ _ _ _ _ Henv x); [apply (ne_comp _ _ _ _ _ _ _ _ Henv); lia|done].
  - intros x [Hx Hn]. rewrite <- (Hs x) by done. apply Ho. lia.
Qed.

Lemma dir_block_ok s ino w es :
  namei_inv s ino → cstr (s_mem s) comp w → (length w < 256)%nat → dir_on dk v ino es →
  wp (ext2_get_block spin fs i dirbuf 0) s (λ _ s', namei_inv s' ino ∧ cstr (s_mem s') comp w ∧
    dirents (s_mem s') dirbuf es (dirbuf + v_bsz v)).
Proof.
  intros Hi Hc Hlen Hdir. pose proof (inv_fs s ino Hi) as Hfs. destruct Hi as [Hok Hk Hh Hs].
  pose proof (ne_view _ _ _ _ _ _ _ _ Henv) as Hv. pose proof Hv as [[Hz Hz'] _].
  pose proof Hdir as (Hp0 & Hp & _). destruct (ne_room _ _ _ _ _ _ _ _ Henv) as [Hr _].
  pose proof (ne_keep _ _ _ _ _ _ _ _ Henv) as Hkeep.
  assert (∀ x, fs ≤ x < fs + 4 → client_byte bs x) as Hfsb
    by (intros; apply (fi_bytes _ _ _ _ Hfs); unfold sizeof_fs; lia).
  assert (0 < v_bsz v / 4) as Hq by (apply Z.div_str_pos; lia).
  pose proof (Z.mul_nonneg_nonneg (v_bsz v / 4) (v_bsz v / 4) ltac:(lia) ltac:(lia)).
  rewrite <- Hk in Hh. destruct (file_block_held spin spin_pos s v i _ 0 Hh Hv ltac:(lia)) as [Hfb Hfbok].
  assert (disk_file_block dk (v_bsz v) (ino_pos v ino) 0 = disk_block dk (ino_pos v ino) 0) as Hb0 by done.
  rewrite Hk in Hfb, Hfbok, Hh.
  eapply wp_mono; [apply (get_block_ok spin spin_pos s bs2 fs i dirbuf 0 (v_bsz v)); try done; try lia|].
  - exact (fi_bsz _ _ _ _ Hfs).
  - split; [apply (ne_nonzero _ _ _ _ _ _ _ _ Henv)|]. split; [apply (ne_dirbuf _ _ _ _ _ _ _ _ Henv)|].
    split; [intros; by apply Hkeep, Hfsb|].
    destruct (apart_of_points fs 4 dirbuf (v_bsz v)) as [|]; [lia|lia| |by left|by right].
    intros x Hx. by apply Hkeep, Hfsb.
  - split; [done|]. unfold i_blocks, ld32. apply ld_range.
  - apply Hfbok. by split_and!.
  - intros _ s1 (Hok1 & Hk1 & Hh1 & Ho1). rewrite Hk, Hfb, Hb0 in Hh1.
    assert (∀ x, client_byte bs x → ld8 (s_mem s1) x = ld8 (s_mem s) x) as Hm1
      by (intros x Hx; destruct (Hkeep x Hx) as (Hx1 & Hx2 & _); by apply Ho1).
    split; [split; [done|congruence| |]|split].
    + apply (held_ext dk (s_mem s)); [|done]. intros x Hx. apply Ho1; [by apply (ne_i _ _ _ _ _ _ _ _ Henv)|].
      pose proof (ne_apart _ _ _ _ _ _ _ _ Henv). lia.
    + intros x Hx. rewrite Hm1 by apply Hx. by apply Hs.
    + rewrite <- (app_nil_r w) in Hc |- *. apply cstr_app in Hc as (Hc1 & Hc2 & Hc3). apply cstr_app.
      assert (∀ x, comp ≤ x < comp + 256 → ld8 (s_mem s1) x = ld8 (s_mem s) x) as Hcm
        by (intros x Hx; by apply Hm1, (ne_comp _ _ _ _ _ _ _ _ Henv)).
      split; [apply (bytes_at_ext (s_mem s)); [|done]; intros; apply Hcm; lia|]. split; [done|].
      simpl in *. rewrite Hcm by lia. done.
    + by apply (dir_in_memory dk v ino).
Qed.

Lemma next_inode_ok s ino ino' :
  namei_inv s ino → ino_ok v ino' → wp (ext2_get_inode spin fs i ino') s (λ _ s', namei_inv s' ino').
Proof.
  intros Hi Hino. pose proof (inv_fs s ino Hi) as Hfs. destruct Hi as [Hok Hk Hh Hs].
  pose proof (ne_keep _ _ _ _ _ _ _ _ Henv) as Hkeep.
  eapply wp_mono; [apply (get_inode_view spin spin_pos s bs2 fs v i ino'); try done|].
  - apply (ne_view _ _ _ _ _ _ _ _ Henv).
  - apply (fs_in_weaken (path_byte bs comp)); [apply path_byte_kept|done].
  - apply (ne_nonzero _ _ _ _ _ _ _ _ Henv).
  - apply (ne_i _ _ _ _ _ _ _ _ Henv).
  - apply (ne_room _ _ _ _ _ _ _ _ Henv).
  - intros _ s1 (Hok1 & Hk1 & Hh1 & Ho1). rewrite Hk in *. split; [done|done|done|].
    intros x Hx. rewrite Ho1; [by apply Hs|by apply path_byte_kept|]. by apply Hkeep, Hx.
Qed.

Lemma namei_loop_ok sfuel dir dfuel : ∀ fuel p a ino s,
  (256 ≤ sfuel)%nat → namei_inv s ino → cstr (s_mem s) a p →
  (∀ x, a ≤ x < a + Z.of_nat (length p) + 1 → path_byte bs comp x) →
  walkable dk v dir dfuel (components p) ino → (length (components p) + dfuel < fuel)%nat →
  wpp (namei_loop spin fuel sfuel fs comp dirbuf i a ino) s
    (λ r s', resolve dir (components p) ino = Some r ∧ namei_inv s' r) (resolve dir (components p) ino = None).
Proof.
  induction fuel as [|fuel IH]; intros p a ino s Hsf Hi Hp Hpath Hw Hf; [lia|]. cbn [namei_loop].
  apply wpp_step, wp_gets. fold (s_mem s). destruct p as [|c0 p0].
  { simpl in Hp. rewrite Hp. by apply wpp_ret. }
  assert (ld8 (s_mem s) a ≠ 0) as Hne by (destruct Hp as (? & -> & _); done).
  destruct (Z.eqb_spec (ld8 (s_mem s) a) 0); [done|].
  destruct (components_split (c0 :: p0)) as (w & rest & Hsplit & Hns & Hcomp & Hrest); [done|].
  rewrite Hsplit in Hp, Hpath |- *. rewrite <- Hsplit. rewrite Hcomp in Hw, Hf |- *. clear Hcomp Hsplit c0 p0.
  rewrite length_app in Hpath. apply cstr_app in Hp as (Hb & Hnz & Hp).
  cbn [walkable] in Hw. destruct Hw as (Hdir & Hclear & Hdl & Hcl & Hw). cbn [length] in Hf.
  assert (ld8 (s_mem s) (a + Z.of_nat (length w)) = default 0 (head rest)) as Hnext
    by (destruct Hrest as [->|(r & ->)]; [done|by destruct Hp as (_ & ? & _)]).
  assert (comp_len sfuel (s_mem s) a 0 = Ok (Z.of_nat (length w))) as Hlen.
  { apply (comp_len_ok (s_mem s) a w sfuel 0); rewrite ?Z.add_0_r; [done..|lia|]. rewrite Hnext.
    destruct Hrest as [->|(r & ->)]; [by left|by right]. }
  apply wpp_step. unfold wp at 1, lift_result. fold (s_mem s). rewrite Hlen. apply wpp_assoc.
  apply (wpp_bind _ _ _ (λ _ s', namei_inv s' ino ∧ cstr (s_mem s') comp w)).
  { apply (copy_component_ok s ino a w); [done..|]. intros x Hx. apply Hpath. lia. }
  intros _ s1 [Hi1 Hc1].
  assert (∀ x, path_byte bs comp x → ld8 (s_mem s1) x = ld8 (s_mem s) x) as Hsame
    by (intros x Hx; rewrite (ni_same _ _ Hi1 x Hx); symmetry; by apply (ni_same _ _ Hi)).
  apply wpp_step, wp_gets. fold (s_mem s1). rewrite Hsame, Hnext by (apply Hpath; lia).
  apply (wpp_bind _ _ _ _ _ _ (dir_block_ok s1 ino w (dir ino) Hi1 Hc1 Hcl Hdir)).
  intros _ s2 (Hi2 & Hc2 & Hd2). pose proof (clear_terminated w (dir ino) (s_mem s2) Hclear dirbuf) as Ht2. apply wpp_step.
  pose proof (ne_view _ _ _ _ _ _ _ _ Henv) as [[Hz _] _].
  unfold wp at 1. rewrite (find_dirent_ok fs dirbuf comp (v_bsz v) w sfuel s2 (dir ino)); rewrite ?Z.add_0_r; try done; try lia;
    [|exact (fi_bsz _ _ _ _ (inv_fs s2 ino Hi2))].
  rewrite (clear_match w (dir ino) Hclear). cbn [resolve]. destruct (lookup_name w (dir ino)) as [ino'|]; [|done]. destruct Hw as [Hino' Hw].
  pose proof Hino' as ([? ?] & _). rewrite s32_small by lia.
  apply (wpp_bind _ _ _ _ _ _ (next_inode_ok s2 ino ino' Hi2 Hino')). intros _ s3 Hi3.
  assert (∀ x, path_byte bs comp x → ld8 (s_mem s3) x = ld8 (s_mem s) x) as Hsame3
    by (intros x Hx; rewrite (ni_same _ _ Hi3 x Hx); symmetry; by apply (ni_same _ _ Hi)).
  apply IH; [done|done| | |done|lia].
  - destruct Hrest as [->|(r & ->)]; simpl in *; [by rewrite Hsame3 by (apply Hpath; lia)|].
    destruct Hp as (_ & _ & Hp). apply (cstr_ext (s_mem s)); [|done]. intros x Hx. apply Hsame3, Hpath. lia.
  - intros x Hx. apply Hpath. destruct Hrest as [->|(r & ->)]; simpl in *; lia.
Qed.
End walk.

Section namei.
Context {D : Type} {PO : PortOps D} {AD : AtaDrive D} (spin : nat).
Hypothesis spin_pos : (ata_polls (D := D) < spin)%nat.
Implicit Types (s : machine D).

(** What [ext2_namei] asks of the caller's memory. *)
Record namei_pre (bs : blocks) (fs comp path : Z) (v : ext2_view) (p : list Z) s : Prop := {
  np_ok : machine_ok s bs;
  np_view : view_ok v;
  np_fs : fs_in (path_byte bs comp) (s_mem s) fs v;
  np_root : held (disk (drive s)) (s_mem s) (fs_rooti fs) (ino_pos v EXT2_ROOT_INO) sizeof_ino;
  np_comp x : comp ≤ x < comp + 256 → client_byte bs x;
  np_path : cstr (s_mem s) (path + 1) p;
  np_path_bytes x : path + 1 ≤ x < path + 1 + Z.of_nat (length p) + 1 → path_byte bs comp x;
}.

(** Free blocks for the directory block, the inode, and the driver. *)
Definition namei_room (bsz : Z) (bs : blocks) : Prop :=
  has_room bsz bs ∧ has_room sizeof_ino (after bsz bs) ∧
  has_room bsz (after sizeof_ino (after bsz bs)) ∧ has_room 512 (after sizeof_ino (after bsz bs)).

(** The two allocations and the copy of the root's inode. *)
Definition walk_started bs fs comp v s (dirbuf i : Z) s' : Prop :=
  let bs2 := after sizeof_ino (after (v_bsz v) bs) in
  (∃ n1 n2, live bs2 ≡ₚ (dirbuf, n1) :: (i, n2) :: live bs) ∧ span bs2 = span bs ∧
  namei_env (s_mem s) bs bs2 fs comp i dirbuf v ∧
  namei_inv (s_mem s) (disk (drive s)) bs bs2 comp i v s' EXT2_ROOT_INO.

Lemma namei_start_ok {A} bs fs comp path v p s (f : Z → Z → M (machine D) A) Q P :
  namei_pre bs fs comp path v p s → namei_room (v_bsz v) bs →
  (∀ dirbuf i s', walk_started bs fs comp v s dirbuf i s' → wpp (f dirbuf i) s' Q P) →
  wpp (let* dirbuf := in_heap (kmalloc (v_bsz v)) in
       let* i := in_heap (kcalloc 1 sizeof_ino) in
       store (λ m, memcpy m i (fs_rooti fs) sizeof_ino) ;;* f dirbuf i) s Q P.
Proof.
  intros [(Hd & Ht & Hok) Hv Hfs Hroot Hcomp Hp Hpb] (Hr1 & Hr2 & Hr3 & Hr4) HQ. pose proof Hv as [[Hz _] _].
  apply wpp_step, wp_in_heap. eapply wp_mono; [apply (kmalloc_lent (hp s) bs (v_bsz v) Hok); [lia|exact Hr1]|].
  intros dirbuf h1 (Hok1 & (n1 & Hn1 & Hl1) & Hm1). fold (after (v_bsz v) bs) in Hok1, Hl1.
  apply wpp_step, wp_in_heap. cbn [hp].
  eapply wp_mono; [apply (kcalloc_lent h1 (after (v_bsz v) bs) 1 sizeof_ino Hok1); [done|exact Hr2]|].
  change (1 * sizeof_ino) with sizeof_ino. intros i h2 (Hok2 & (n2 & Hn2 & Hl2) & Hm2). cbn [drive].
  fold (after sizeof_ino (after (v_bsz v) bs)) in Hok2, Hl2.
  set (bs1 := after (v_bsz v) bs) in *. set (bs2 := after sizeof_ino bs1) in *.
  pose proof (le_pos _ _ _ _ Hl1) as Hp1. pose proof (le_pos _ _ _ _ Hl2) as Hp2. unfold KERNEL_BRK_START in Hp1, Hp2.
  assert (∀ x, client_byte bs x → client_byte bs2 x ∧ ¬ (dirbuf ≤ x < dirbuf + v_bsz v) ∧ ¬ (i ≤ x < i + sizeof_ino)) as Hkeep.
  { intros x Hx. destruct (le_keep _ _ _ _ Hl1 x Hx) as [Hx1 ?]. destruct (le_keep _ _ _ _ Hl2 x Hx1) as [Hx2 ?].
    split; [done|]. lia. }
  assert (∀ x, dirbuf ≤ x < dirbuf + v_bsz v → client_byte bs1 x) as Hdb by (intros; apply (lent_byte bs dirbuf n1); [done|lia]).
  assert (∀ x, i ≤ x < i + sizeof_ino → client_byte bs2 x) as Hib by (intros; apply (lent_byte bs1 i n2); [done|lia]).
  assert (namei_env (s_mem s) bs bs2 fs comp i dirbuf v) as Henv.
  { split; try done; [intros x Hx; by apply (le_keep _ _ _ _ Hl2), Hdb|lia|].
    apply (apart_of_points i sizeof_ino dirbuf (v_bsz v)); [done|lia|].
    intros x Hx Hx'. apply (proj2 (le_keep _ _ _ _ Hl2 x (Hdb x Hx'))). lia. }
  assert (∀ x, client_byte bs x → ld8 (h_mem h2) x = ld8 (s_mem s) x) as Hsame.
  { intros x Hx. rewrite Hm2; [by apply Hm1|]. by apply (le_keep _ _ _ _ Hl1). }
  assert (∀ x, fs_rooti fs ≤ x < fs_rooti fs + sizeof_ino → client_byte bs x) as Hrb.
  { intros x Hx. apply (fi_bytes _ _ _ _ Hfs). unfold fs_rooti in Hx.
    change (field_of false ext2_fs "rooti") with 268 in Hx. unfold sizeof_ino, sizeof_fs in *. lia. }
  apply wpp_step. unfold store. apply wp_in_heap, wp_modify. cbn [hp drive].
  assert (i + sizeof_ino ≤ fs_rooti fs ∨ fs_rooti fs + sizeof_ino ≤ i) as Hov.
  { apply apart_of_points; [done|done|]. intros x Hx. by apply Hkeep, Hrb. }
  assert (∀ x, ld8 (memcpy (h_mem h2) i (fs_rooti fs) sizeof_ino) x =
    if decide (i ≤ x < i + sizeof_ino) then ld8 (h_mem h2) (fs_rooti fs + (x - i)) else ld8 (h_mem h2) x) as Hm3
    by (intros x; apply ld8_memcpy; lia).
  apply HQ. split; [exists n1, n2|split; [|split; [done|split]]].
  - fold bs1 bs2. rewrite (le_live _ _ _ _ Hl2), (le_live _ _ _ _ Hl1). apply perm_swap.
  - fold bs1 bs2. rewrite (le_span _ _ _ _ Hl2). apply (le_span _ _ _ _ Hl1).
  - split; [done|]. split; [done|]. cbn [hp]. apply heap_write_lent; [done|]. intros x Hx.
    rewrite Hm3, decide_False; [done|]. intros Hin. by apply Hx, Hib.
  - done.
  - intros j Hj. unfold s_mem. cbn [hp h_mem set_h_mem]. rewrite Hm3, decide_True by lia.
    replace (i + j - i) with j by lia. rewrite Hsame by (apply Hrb; lia). by apply Hroot.
  - intros x [Hx _]. unfold s_mem at 1. cbn [hp h_mem set_h_mem]. rewrite Hm3, decide_False by (by apply Hkeep). by apply Hsame.
Qed.

(** The two releases. *)
Lemma namei_end_ok bs bs2 fs comp v m0 dk dirbuf n1 i n2 s r :
  live bs2 ≡ₚ (dirbuf, n1) :: (i, n2) :: live bs → span bs2 = span bs →
  namei_env m0 bs bs2 fs comp i dirbuf v → namei_inv m0 dk bs bs2 comp i v s r →
  wp (in_heap (free dirbuf) ;;* in_heap (free i) ;;* mret_ r) s (λ r' s', r' = r ∧ disk (drive s') = dk ∧
    (∃ bs', machine_ok s' bs' ∧ live bs' ≡ₚ live bs ∧ span bs' = span bs) ∧
    ∀ x, path_byte bs comp x → ld8 (s_mem s') x = ld8 m0 x).
Proof.
  intros Hl Hsp Henv [(Hd & Ht & Hok) Hk _ Hs].
  apply wp_bind, wp_in_heap. eapply wp_mono; [apply (free_lent (hp s) bs2 dirbuf n1 ((i, n2) :: live bs) Hok Hl)|].
  intros _ h1 (bs3 & Hok3 & Hl3 & Hs3 & Hm3). apply wp_bind, wp_in_heap. cbn [hp drive].
  eapply wp_mono; [apply (free_lent h1 bs3 i n2 (live bs) Hok3 Hl3)|].
  intros _ h2 (bs4 & Hok4 & Hl4 & Hs4 & Hm4). apply wp_ret. split; [done|]. split; [done|].
  split; [exists bs4; split; [by split_and!|split; [done|congruence]]|].
  intros x Hx. unfold s_mem. cbn [hp]. destruct Hx as [Hx Hn].
  assert (client_byte bs4 x) as Hx4 by (apply (client_byte_same bs); [done|congruence|done]).
  assert (client_byte bs3 x) as Hx3.
  { destruct Hx4 as [(b & Hb & Hbx)|Hout]; [left; exists b; split; [rewrite Hl3; right; by rewrite <- Hl4|done]|].
    right. by rewrite <- Hs4. }
  rewrite Hm4, Hm3 by done. by apply (Hs x).
Qed.

(** Either the inode, or a panic. *)
Lemma namei_outcome bs fs comp path v p s dir dfuel fuel sfuel :
  namei_pre bs fs comp path v p s → namei_room (v_bsz v) bs →
  walkable (disk (drive s)) v dir dfuel (components p) EXT2_ROOT_INO →
  (length (components p) + dfuel < fuel)%nat → (256 ≤ sfuel)%nat →
  wpp (ext2_namei spin fuel sfuel comp fs path) s (λ r s',
    resolve dir (components p) EXT2_ROOT_INO = Some r ∧ disk (drive s') = disk (drive s) ∧
    machine_ok s' bs ∧ ∀ x, path_byte bs comp x → ld8 (s_mem s') x = ld8 (s_mem s) x)
    (resolve dir (components p) EXT2_ROOT_INO = None).
Proof.
  intros Hpre Hroom Hwalk Hfuel Hsfuel.
  unfold ext2_namei. apply wpp_step, wp_gets. fold (s_mem s). rewrite (fi_bsz _ _ _ _ (np_fs _ _ _ _ _ _ _ Hpre)).
  apply (namei_start_ok bs fs comp path v p s); [done|done|].
  intros dirbuf i s1 ((n1 & n2 & Hl) & Hsp & Henv & Hinv). apply wpp_bind_wpp.
  eapply wpp_mono; [apply (namei_loop_ok spin spin_pos (s_mem s) (disk (drive s)) bs _ fs comp i dirbuf v Henv
    sfuel dir dfuel fuel p (path + 1) EXT2_ROOT_INO s1 Hsfuel Hinv)|..]; try done.
  - apply (cstr_ext (s_mem s)); [|apply (np_path _ _ _ _ _ _ _ Hpre)]. intros x Hx.
    apply (ni_same _ _ _ _ _ _ _ _ _ Hinv), (np_path_bytes _ _ _ _ _ _ _ Hpre). lia.
  - apply (np_path_bytes _ _ _ _ _ _ _ Hpre).
  - intros r s2 [Hres Hinv2]. apply wpp_of_wp. eapply wp_mono; [by apply (namei_end_ok bs (after sizeof_ino (after (v_bsz v) bs)) fs comp v (s_mem s)
      (disk (drive s)) dirbuf n1 i n2 s2 r)|]. intros r' s3 (-> & Hk & (bs' & Hok' & Hl' & Hs') & Hm). split; [done|]. split; [done|]. split; [|done].
    rewrite <- (blocks_unique (hp s) (hp s3) bs bs'); [done|apply (np_ok _ _ _ _ _ _ _ Hpre)|apply Hok'|done|done].
Qed.

Lemma namei_ok bs fs comp path v p s dir dfuel fuel sfuel ino :
  namei_pre bs fs comp path v p s → namei_room (v_bsz v) bs →
  walkable (disk (drive s)) v dir dfuel (components p) EXT2_ROOT_INO →
  (length (components p) + dfuel < fuel)%nat → (256 ≤ sfuel)%nat →
  resolve dir (components p) EXT2_ROOT_INO = Some ino →
  ∃ s', ext2_namei spin fuel sfuel comp fs path s = Ok (ino, s') ∧ disk (drive s') = disk (drive s) ∧
    machine_ok s' bs ∧ ∀ x, path_byte bs comp x → ld8 (s_mem s') x = ld8 (s_mem s) x.
Proof.
  intros Hpre Hroom Hwalk Hfuel Hsfuel Hres.
  pose proof (namei_outcome bs fs comp path v p s dir dfuel fuel sfuel Hpre Hroom Hwalk Hfuel Hsfuel) as Hw.
  rewrite Hres in Hw. apply wpp_wp in Hw; [|done]. apply wp_run in Hw as (r & s' & Hrun & [= <-] & ? & ? & ?). by exists s'.
Qed.

(** C12: [ext2_namei] implements path resolution.  For a path whose directories
    each are one block of entries on the drive ([walkable]: the inodes on the way
    are ones that [ext2_get_inode] reads right, no component has more than 255
    bytes, and no directory has a name in use that is shorter and that the
    component starts with, which the code would take for it,
    [find_dirent_prefix]) it terminates: with the inode that resolving
    the components by name, one directory after the other, gives, or, when a
    component is not found, with a panic.  The heap has room for two blocks and
    the buffers of the driver.  The two blocks it takes from the heap are given
    back and the list of blocks is the one of before; the drive and the caller's
    memory outside the component buffer are unchanged. *)
Theorem ext2_namei_spec bs fs comp path v p s dir dfuel fuel sfuel
    (Hpre : namei_pre bs fs comp path v p s) (Hroom : namei_room (v_bsz v) bs)
    (Hwalk : walkable (disk (drive s)) v dir dfuel (components p) EXT2_ROOT_INO)
    (Hfuel : (length (components p) + dfuel < fuel)%nat) (Hsfuel : (256 ≤ sfuel)%nat) :
  match resolve dir (components p) EXT2_ROOT_INO with
  | Some ino => ∃ s', ext2_namei spin fuel sfuel comp fs path s = Ok (ino, s') ∧
      disk (drive s') = disk (drive s) ∧ machine_ok s' bs ∧
      ∀ x, path_byte bs comp x → ld8 (s_mem s') x = ld8 (s_mem s) x
  | None => ∃ msg, ext2_namei spin fuel sfuel comp fs path s = Panic msg
  end.
Proof.
  destruct (resolve dir (components p) EXT2_ROOT_INO) as [ino|] eqn:Hres; [by apply (namei_ok bs fs comp path v p s dir dfuel)|].
  pose proof (namei_outcome bs fs comp path v p s dir dfuel fuel sfuel Hpre Hroom Hwalk Hfuel Hsfuel) as Hw.
  rewrite Hres in Hw. apply (wpp_panic _ _ _ _ Hw). by intros ? ? [? _].
Qed.
End namei.

(** ** "/bin/sh" on the drive of [Ext2Files] *)
Definition ex_dir (ino : Z) : list dent :=
  if ino =? 2 then [Dent 2 12 [46]; Dent 3 1012 [98; 105; 110]]
  else if ino =? 3 then [Dent 4 1024 [115; 104]] else [].

(** What the drive with the bytes [img] holds. *)
Definition ex_bytes_of (img : mem) : Z → Z := disk (drive (ex_disk_of img)).

Lemma ex_dir_on img ino :
  0 ≤ disk_block (ex_bytes_of img) (ino_pos ex_view ino) 0 < 2 ^ 20 →
  (let a := disk_block (ex_bytes_of img) (ino_pos ex_view ino) 0 * 1024 in dirents img a (ex_dir ino) (a + 1024)) →
  dir_on (ex_bytes_of img) ex_view ino (ex_dir ino).
Proof.
  set (ptr := disk_block _ _ _). intros Hp Hd. unfold dir_on. fold ptr. change (v_bsz ex_view) with 1024.
  split; [lia|]. split; [lia|]. exists (memcpy img 0 (ptr * 1024) 1024).
  assert (shifted img (memcpy img 0 (ptr * 1024) 1024) (ptr * 1024) 0 1024) as Hs.
  { intros j Hj. rewrite ld8_memcpy, decide_True by lia. f_equal. lia. }
  split; [|by apply (dirents_shift img _ _ (ptr * 1024) 0 1024)].
  intros j Hj. rewrite Hs by lia. simpl. symmetry. apply Z.mod_small, ld8_range.
Qed.

(** "bin" and "sh" are found on a drive that holds these directories. *)
Lemma ex_walkable img :
  (let a := disk_block (ex_bytes_of img) (ino_pos ex_view 2) 0 * 1024 in
   0 ≤ a < 2 ^ 20 ∧ dirents img a (ex_dir 2) (a + 1024)) →
  (let a := disk_block (ex_bytes_of img) (ino_pos ex_view 3) 0 * 1024 in
   0 ≤ a < 2 ^ 20 ∧ dirents img a (ex_dir 3) (a + 1024)) →
  walkable (ex_bytes_of img) ex_view ex_dir 3 [[98; 105; 110]; [115; 104]] 2.
Proof.
  cbv zeta. intros (Ha & Hd) (Ha' & Hd'). cbn [walkable]. split; [|split; [|split; [simpl; lia|split; [simpl; lia|]]]].
  - by apply ex_dir_on; [lia|].
  - apply list.Forall_cons. split; [by intros _ ?%prefix_cons_inv_1|]. by apply list.Forall_singleton.
  - change (lookup_name [98; 105; 110] (ex_dir 2)) with (Some 3). cbv iota. split; [apply ex_ino_ok; lia|].
    split; [|split; [|split; [simpl; lia|split; [simpl; lia|]]]].
    + by apply ex_dir_on; [lia|].
    + by apply list.Forall_singleton.
    + change (lookup_name [115; 104] (ex_dir 3)) with (Some 4). cbv iota. split; [apply ex_ino_ok; lia|done].
Qed.

Ltac ex_solve :=
  cbn [dirents ex_dir Z.eqb Pos.eqb]; unfold dirent_at; cbn [bytes_at d_name d_ino d_rec length];
  split_and!; try (repeat constructor; discriminate); vm_compute; congruence.

Lemma ex_namei_pre img :
  forallb (λ k, ld8 ex_fs_mem_kept (fs_rooti 256 + Z.of_nat k) =?
    ex_bytes_of img (ino_pos ex_view EXT2_ROOT_INO + Z.of_nat k)) (seq 0 128) = true →
  namei_pre ex_blocks 256 8192 3500 ex_view [98; 105; 110; 47; 115; 104] (ex_disk_of img).
Proof.
  intros Hroot. split.
  - apply ex_disk_ok.
  - apply ex_view_ok.
  - apply ex_fs_in. intros x Hx. split; [apply ex_low_client|]; lia.
  - intros j Hj. unfold sizeof_ino in Hj. pose proof (proj1 (forallb_forall _ _) Hroot (Z.to_nat j)) as Hall.
    cbv beta in Hall. rewrite Z2Nat.id in Hall by lia. apply Z.eqb_eq, Hall, in_seq. lia.
  - intros x Hx. apply ex_low_client. lia.
  - cbn [cstr]. split_and!; vm_compute; congruence.
  - intros x Hx. simpl in Hx. split; [apply ex_low_client|]; lia.
Qed.

Lemma ex_namei_room : namei_room (v_bsz ex_view) ex_blocks.
Proof.
  split_and!; [left; by vm_compute|right; left; by vm_compute|right; right; left; by vm_compute|
    right; right; left; by vm_compute].
Qed.

Lemma ext2_namei_spec_witness : ∃ s', ext2_namei 3 6 256 8192 256 3500 ex_disk = Ok (4, s').
Proof.
  destruct (ext2_namei_spec 3 ex_polls ex_blocks 256 8192 3500 ex_view [98; 105; 110; 47; 115; 104] ex_disk ex_dir 3 6 256
    (ex_namei_pre ex_image ltac:(by vm_compute)) ex_namei_room
    (ex_walkable ex_image ltac:(change (disk_block _ _ 0 * 1024) with 5120; ex_solve)
      ltac:(change (disk_block _ _ 0 * 1024) with 6144; ex_solve)) ltac:(simpl; lia) ltac:(lia)) as (s' & Hrun & _).
  by exists s'.
Defined.
