(* ===== verification/Ext2Dents.v ===== *)
(** Listing a directory: [ext2_getdents] of [fs/ext2.c], from the inode on the
    drive to the buffer of the caller. *)

From S2P Require Import Prelude Layout Memory CString Kmalloc Heap Ata Ext2 Ext2Files Ext2Path.

Section getdents.
Context {D : Type} {PO : PortOps D} {AD : AtaDrive D} (spin : nat).
Hypothesis spin_pos : (ata_polls (D := D) < spin)%nat.
Implicit Types (s : machine D).

(** Free blocks for the directory block and the buffers of the driver. *)
Definition getdents_room (bsz : Z) (bs : blocks) : Prop :=
  has_room bsz bs ∧ has_room 512 (after bsz bs) ∧ has_room bsz (after bsz bs).

(** The struct of the file system is outside of the local inode at [i] and of
    the [n] bytes at [buf], which the caller lends. *)
Record getdents_pre (bs : blocks) (fs i buf n : Z) (v : ext2_view) s : Prop := {
  gp_ok : machine_ok s bs;
  gp_view : view_ok v;
  gp_fs : fs_in (λ x, client_byte bs x ∧ ¬ (i ≤ x < i + sizeof_ino)) (s_mem s) fs v;
  gp_i : i ≠ 0 ∧ ∀ x, i ≤ x < i + sizeof_ino → client_byte bs x;
  gp_buf x : buf ≤ x < buf + n → client_byte bs x;
  gp_apart : buf + n ≤ fs ∨ fs + 4 ≤ buf;
}.

(** The directory's block is in memory. *)
Lemma dir_loaded {A} bs fs i buf n v s ino (f : Z → M (machine D) A) Q :
  getdents_pre bs fs i buf n v s → getdents_room (v_bsz v) bs → ino_ok v ino →
  let dk := disk (drive s) in let ptr := disk_block dk (ino_pos v ino) 0 in 0 ≤ ptr → ptr * v_bsz v < 2 ^ 32 →
  (∀ data m s', lent bs data m (after (v_bsz v) bs) → v_bsz v ≤ m → machine_ok s' (after (v_bsz v) bs) → disk (drive s') = dk →
    held dk (s_mem s') data (ptr * v_bsz v) (v_bsz v) →
    (∀ x, client_byte bs x → ¬ (i ≤ x < i + sizeof_ino) → ld8 (s_mem s') x = ld8 (s_mem s) x) → wp (f data) s' Q) →
  wp (let* data := in_heap (kmalloc (v_bsz v)) in ext2_get_inode spin fs i ino ;;*
      let* ptr := load (λ m, i_block m i 0) in let* bs := load (λ m, fs_block_size m fs) in
      read_blk spin fs data ptr bs ;;* f data) s Q.
Proof.
  intros [(Hd & Ht & Hok) Hv Hfs [Hi0 Hi] _ _] (Hr1 & Hr2 & Hr3) Hino dk ptr Hp0 Hp HQ. pose proof Hv as [[Hz Hz'] _].
  set (z := v_bsz v) in *. apply wp_bind, wp_in_heap.
  eapply wp_mono; [apply (kmalloc_lent (hp s) bs z Hok); [lia|exact Hr1]|].
  intros data h1 (Hok1 & (m & Hm & Hl) & Hm1). fold (after z bs) in *. set (s1 := Machine (drive s) h1).
  pose proof (le_pos _ _ _ _ Hl) as Hpos. unfold KERNEL_BRK_START in Hpos.
  assert (∀ x, client_byte bs x → client_byte (after z bs) x ∧ ¬ (data ≤ x < data + z)) as Hkeep.
  { intros x Hx. destruct (le_keep _ _ _ _ Hl x Hx) as [? Hn]. split; [done|lia]. }
  assert (fs_in (λ x, client_byte bs x ∧ ¬ (i ≤ x < i + sizeof_ino)) (s_mem s1) fs v) as Hfs1
    by (apply (fs_in_ext _ (s_mem s)); [intros x [Hx _]; by apply Hm1|done]).
  apply wp_bind. eapply wp_mono; [apply (get_inode_view spin spin_pos s1 (after z bs) fs v i ino); try done|].
  { eapply fs_in_weaken; [|exact Hfs1]. intros x [Hx _]. by apply Hkeep. }
  { intros x Hx. by apply Hkeep, Hi. }
  intros [] s2 (Hok2 & Hk2 & Hh2 & Ho2). change (drive s1) with (drive s) in *. fold dk in Hk2, Hh2.
  assert (∀ x, client_byte bs x → ¬ (i ≤ x < i + sizeof_ino) → ld8 (s_mem s2) x = ld8 (s_mem s) x) as Hm2.
  { intros x Hx Hn. rewrite Ho2 by (done || by apply Hkeep). by apply Hm1. }
  assert (fs_in (λ x, client_byte bs x ∧ ¬ (i ≤ x < i + sizeof_ino)) (s_mem s2) fs v) as Hfs2
    by (apply (fs_in_ext _ (s_mem s)); [intros x [Hx Hn]; by apply Hm2|done]).
  assert (i_block (s_mem s2) i 0 = ptr) as Hptr.
  { unfold i_block, ptr, disk_block. change (field_of true ext2_ino "i_block") with 40. rewrite <- !Z.add_assoc.
    apply (held_word _ _ _ _ sizeof_ino); [done|lia|unfold sizeof_ino; lia]. }
  apply wp_bind, wp_gets. fold (s_mem s2). apply wp_bind, wp_gets. fold (s_mem s2). rewrite Hptr, (fi_bsz _ _ _ _ Hfs2). fold z.
  assert (∀ x, fs ≤ x < fs + 4 → client_byte bs x) as Hfsb.
  { intros x Hx. apply (fi_bytes _ _ _ _ Hfs). unfold sizeof_fs. lia. }
  apply wp_bind. eapply wp_mono; [apply (read_blk_ok spin spin_pos s2 (after z bs) fs data ptr z); try done|].
  - exact (fi_bsz _ _ _ _ Hfs2).
  - split; [lia|]. split; [intros x Hx; apply (lent_byte bs data m); [done|lia]|].
    split; [intros x Hx; by apply Hkeep, Hfsb|].
    destruct (apart_of_points fs 4 data z) as [|]; [lia|lia| |by left|by right]. intros x Hx. by apply Hkeep, Hfsb.
  - intros [] s3 (Hok3 & Hk3 & Hh3 & Ho3). rewrite Hk2 in *. apply (HQ data m); try done.
    intros x Hx Hn. destruct (Hkeep x Hx) as [Hx1 Hx2]. rewrite Ho3 by done. by apply Hm2.
Qed.

(** C33: [ext2_getdents] of a directory whose entries are all in use (the loop
    stays for ever at an entry with inode 0, [getdents_unused_entry_loops]), in
    one block of the drive, of an inode that [ext2_get_inode] reads right, with
    room on the heap and a buffer as large as the answer ([count] is not looked
    at): it terminates, and the buffer holds inode, record length and name of
    every entry in order, packed.  The answer is their total size.  The block
    taken from the heap is given back, and except for the buffer and the local
    inode the caller's memory is unchanged, as is the drive. *)
Theorem ext2_getdents_spec s bs fs i buf v ino count es fuel
    (Hpre : getdents_pre bs fs i buf (usize es) v s) (Hroom : getdents_room (v_bsz v) bs) (Hino : ino_ok v ino)
    (Hdir : dir_on (disk (drive s)) v ino es) (Huse : Forall (λ e, 0 < d_ino e < 2 ^ 32) es)
    (Hsize : usize es < 2 ^ 32) (Hfuel : (length es < fuel)%nat) :
  ∃ s', ext2_getdents spin fuel fs i ino buf count s = Ok (usize es, s') ∧ machine_ok s' bs ∧ disk (drive s') = disk (drive s) ∧
    udirents (s_mem s') buf es ∧
    ∀ x, client_byte bs x → ¬ (buf ≤ x < buf + usize es) → ¬ (i ≤ x < i + sizeof_ino) → ld8 (s_mem s') x = ld8 (s_mem s) x.
Proof.
  enough (wp (ext2_getdents spin fuel fs i ino buf count) s (λ r s', r = usize es ∧ machine_ok s' bs ∧ disk (drive s') = disk (drive s) ∧
    udirents (s_mem s') buf es ∧
    ∀ x, client_byte bs x → ¬ (buf ≤ x < buf + usize es) → ¬ (i ≤ x < i + sizeof_ino) → ld8 (s_mem s') x = ld8 (s_mem s) x)) as Hw.
  { apply wp_run in Hw as (r & s' & Hrun & -> & Hrest). by exists s'. }
  pose proof Hpre as [(Hd & Ht & Hok) Hv Hfs _ Hbuf Hap]. pose proof Hdir as (Hp0 & Hp & _). pose proof Hv as [[Hz _] _].
  unfold ext2_getdents. apply wp_bind, wp_gets. fold (s_mem s). rewrite (fi_bsz _ _ _ _ Hfs).
  apply (dir_loaded bs fs i buf (usize es) v s ino); try done. clear Ht.
  intros data m s3 Hl Hm Hok3 Hk3 Hh3 Hm3. pose proof (dir_in_memory _ v ino es _ _ Hdir Hh3) as Hd3.
  set (bs1 := after (v_bsz v) bs) in *. destruct Hok3 as (Hd3' & Ht3 & Hok3).
  assert (buf + usize es ≤ data ∨ data + v_bsz v ≤ buf) as Hapart.
  { pose proof (usize_nonneg es). destruct (Z.eq_dec (usize es) 0) as [E|E].
    - destruct es as [|e es]; [simpl in Hd3; lia|]. pose proof (usize_nonneg es). unfold usize in *. simpl in *. lia.
    - apply apart_of_points; [lia|lia|]. intros x Hx Hin. apply (proj2 (le_keep _ _ _ _ Hl x (Hbuf x Hin))). lia. }
  apply wp_bind. eapply wp_mono; [apply (getdents_loop_ok fs data buf (v_bsz v) es fuel 0 0 s3); rewrite ?Z.add_0_r; try done; try lia|].
  { rewrite <- (fi_bsz _ _ _ _ Hfs). unfold fs_block_size, ld32. apply ld_ext. intros x Hx.
    destruct (fi_bytes _ _ _ _ Hfs x) as [Hx1 Hx2]; [change (field_of false ext2_fs "block_size") with 0 in Hx; unfold sizeof_fs; simpl in Hx; lia|]. by apply Hm3. }
  intros r s4 (-> & Q1 & [Q2 Q2'] & Q3 & Q4). rewrite Z.add_0_r in *.
  assert (heap_ok (hp s4) bs1) as Hok4.
  { assert (hp s4 = set_h_mem (hp s3) (s_mem s4)) as -> by (destruct s3 as [? []], s4 as [? []]; simpl in *; by subst).
    apply heap_write_lent; [done|]. intros x Hx. apply Q4. intros Hin. apply Hx. by apply (le_keep _ _ _ _ Hl), Hbuf. }
  apply wp_bind, wp_in_heap. eapply wp_mono; [apply (free_lent (hp s4) bs1 data m (live bs) Hok4 (le_live _ _ _ _ Hl))|].
  intros [] h5 (bs5 & Hok5 & Hl5 & Hs5 & Hm5). apply wp_ret. cbn [drive hp]. split; [lia|].
  assert (bs5 = bs) as ->.
  { apply (blocks_unique (hp s) h5 bs bs5); try done. rewrite Hs5. apply (le_span _ _ _ _ Hl). }
  unfold s_mem at 1. split; [rewrite <- Q1 in Hd3'; rewrite <- Q1 in Ht3; by split_and!|]. split; [by rewrite Q1|].
  assert (∀ x, client_byte bs x → ld8 (h_mem h5) x = ld8 (s_mem s4) x) as Hm5' by (intros x Hx; by apply Hm5).
  split; [apply (udirents_ext (s_mem s4)); [intros x Hx; by apply Hm5', Hbuf|done]|].
  intros x Hx Hn1 Hn2. unfold s_mem. cbn [hp]. rewrite Hm5' by done. unfold s_mem at 1. rewrite Q4 by done. by apply Hm3.
Qed.
End getdents.

(** The root of the drive of [Ext2Path]. *)
Lemma ex_getdents_pre : getdents_pre ex_blocks 256 8192 12288 22 ex_view ex_disk.
Proof.
  split; [apply ex_disk_ok|exact ex_view_ok| |split; [done|]| |by right].
  - apply ex_fs_in. intros x Hx. split; [apply ex_low_client|]; lia.
  - intros x Hx. apply ex_low_client. unfold sizeof_ino in Hx. lia.
  - intros x Hx. apply ex_low_client. lia.
Qed.
Lemma ext2_getdents_spec_witness : ∃ s', ext2_getdents 3 3 256 8192 2 12288 100 ex_disk = Ok (22, s') ∧
  udirents (s_mem s') 12288 (ex_dir 2).
Proof.
  assert (getdents_room (v_bsz ex_view) ex_blocks) as Hroom
    by (split_and!; [left; by vm_compute|right; left; by vm_compute|right; left; by vm_compute]).
  assert (ino_ok ex_view 2) as Hino by (apply ex_ino_ok; lia).
  assert (dir_on (disk (drive ex_disk)) ex_view 2 (ex_dir 2)) as Hdir.
  { apply (ex_dir_on ex_image 2); [split; [by vm_compute|by vm_compute]|].
    change (disk_block _ _ 0 * 1024) with 5120. ex_solve. }
  assert (Forall (λ e, 0 < d_ino e < 2 ^ 32) (ex_dir 2)) as Huse by (repeat constructor; simpl; lia).
  destruct (ext2_getdents_spec 3 ex_polls ex_disk ex_blocks 256 8192 12288 ex_view 2 100 (ex_dir 2) 3 ex_getdents_pre Hroom Hino Hdir
    Huse ltac:(by vm_compute) ltac:(simpl; lia)) as (s' & Hrun & _ & _ & Hu & _).
  exists s'. split; [exact Hrun|exact Hu].
Defined.
