(* ===== verification/Ext2Mount.v ===== *)
(** Mounting: [ext2_mount_rootfs] of [fs/ext2.c] leaves in memory what the
    superblock and the group descriptors of the drive say, which is what the
    other operations of the file system ask for ([fs_in]). *)

From S2P Require Import Prelude Layout Memory CString Kmalloc Heap Ata Ext2 Ext2Files Ext2Path.

(** ** What the drive says *)
Definition disk_sb (dk : Z → Z) (o : Z) : Z := disk_word dk (SB_START_BYTES + o).
Definition disk_blocks_count dk : Z := disk_sb dk (field_of true ext2_sb "s_blocks_count").
Definition disk_log_block_size dk : Z := disk_sb dk (field_of true ext2_sb "s_log_block_size").
Definition disk_blocks_per_group dk : Z := disk_sb dk (field_of true ext2_sb "s_blocks_per_group").
Definition disk_inodes_per_group dk : Z := disk_sb dk (field_of true ext2_sb "s_inodes_per_group").

Definition disk_first_data_block dk : Z := disk_sb dk (field_of true ext2_sb "s_first_data_block").

(** The layout of ext2: block group 0 starts at the block of the superblock,
    [s_first_data_block] (1 when blocks have 1024 bytes and 0 when they are
    larger); the group descriptors start in the block behind it; the last group
    may be a partial one. *)
Definition disk_view (dk : Z → Z) : ext2_view :=
  let bsz := Z.shiftl 1024 (disk_log_block_size dk) in
  View bsz (disk_inodes_per_group dk)
    (λ g, disk_word dk ((disk_first_data_block dk + 1) * bsz + (sizeof_bgd * g + field_of true ext2_bgd "bg_inode_table")))
    ((disk_blocks_count dk - disk_first_data_block dk + disk_blocks_per_group dk - 1) / disk_blocks_per_group dk).

(** The code looks for the descriptors at block 2, and counts the groups rounded
    down. *)
Definition code_groups (dk : Z → Z) : Z := disk_blocks_count dk / disk_blocks_per_group dk.

(** ** Writing into one buffer *)
Section mount.
Context {D : Type} {PO : PortOps D} {AD : AtaDrive D} (spin : nat).
Hypothesis spin_pos : (ata_polls (D := D) < spin)%nat.
Implicit Types (s : machine D) (bs : blocks) (v : ext2_view).

Record wrote bs a n s s' : Prop := {
  wr_ok : machine_ok s' bs;
  wr_disk : disk (drive s') = disk (drive s);
  wr_other : only_buffer bs a n s s';
}.

Lemma store_wrote s bs f a n :
  machine_ok s bs → (∀ x, ¬ (a ≤ x < a + n) → ld8 (f (s_mem s)) x = ld8 (s_mem s) x) →
  (∀ x, a ≤ x < a + n → client_byte bs x) → wp (store f) s (λ _ s', wrote bs a n s s' ∧ s_mem s' = f (s_mem s)).
Proof.
  intros (Hd & Ht & Hok) Hf Hc. unfold store. apply wp_in_heap, wp_modify. split; [split|done].
  - split; [done|]. split; [done|]. cbn [hp]. apply heap_write_lent; [done|]. intros x Hx. apply Hf. intros Hin. by apply Hx, Hc.
  - done.
  - intros x _ Hn. by apply Hf.
Qed.

Lemma read_wrote s bs buf off len :
  machine_ok s bs → 0 ≤ off < 2 ^ 32 → 0 < len → nsectors_of len < 256 → len + 511 < 2 ^ 32 →
  off mod 512 = 0 → buf ≠ 0 → has_room (512 * nsectors_of len) bs → (∀ x, buf ≤ x < buf + len → client_byte bs x) →
  wp (ata_read_bytes spin buf off len) s (λ _ s', wrote bs buf len s s' ∧ held (disk (drive s)) (s_mem s') buf off len).
Proof.
  intros Hok Hoff Hl Hns H32 Hal Hb Hr Hc.
  pose proof (nsectors_small len Hl H32) as En. pose proof (Z.div_mod (len + 511) 512 ltac:(lia)).
  pose proof (Z.mod_pos_bound (len + 511) 512 ltac:(lia)).
  eapply wp_mono; [apply (ata_read_bytes_ok spin spin_pos s bs buf off len); try done; lia|].
  intros _ s' (Hok' & Hk & Hm). split; [split; [done|done|]|].
  - intros x Hx Hn. by rewrite Hm, decide_False.
  - intros j Hj. rewrite Hm by (apply Hc; lia). rewrite decide_True by lia. f_equal. lia.
Qed.

Lemma held_wrote dk bs b k s s' a pos n :
  wrote bs b k s s' → (∀ x, a ≤ x < a + n → client_byte bs x ∧ ¬ (b ≤ x < b + k)) →
  held dk (s_mem s) a pos n → held dk (s_mem s') a pos n.
Proof. intros W Ha. apply held_ext. intros x Hx. apply (wr_other _ _ _ _ _ W); by apply Ha. Qed.

Lemma kmalloc_step {A} bs sz s (f : Z → M (machine D) A) Q P :
  machine_ok s bs → 0 < sz → has_room sz bs →
  (∀ p n s', 0 < p < 2 ^ 64 → sz ≤ n → lent bs p n (after sz bs) → machine_ok s' (after sz bs) → drive s' = drive s →
    (∀ x, client_byte bs x → ld8 (s_mem s') x = ld8 (s_mem s) x) → wpp (f p) s' Q P) →
  wpp (let* p := in_heap (kmalloc sz) in f p) s Q P.
Proof.
  intros (Hd & Ht & Hok) Hsz Hr HQ. apply wpp_step, wp_in_heap.
  eapply wp_mono; [apply (kmalloc_lent (hp s) bs sz Hok Hsz Hr)|]. intros p h (Hok1 & (n & Hn & Hl) & Hm).
  fold (after sz bs) in Hok1, Hl. pose proof (le_pos _ _ _ _ Hl) as Hp.
  assert (p < 2 ^ 64).
  { assert ((p, n) ∈ live (after sz bs)) as Hin by (rewrite (le_live _ _ _ _ Hl); left).
    apply live_bounds in Hin; [|by eapply heap_pos]. pose proof (hk_brk _ _ Hok1). pose proof (hk_lim _ _ Hok1).
    unfold KERNEL_BRK_LIMIT, KERNEL_BRK_START, KERNEL_BRK_PAGES, PAGE_SIZE in *. simpl in *. lia. }
  unfold KERNEL_BRK_START in Hp. apply (HQ p n); try done. lia.
Qed.

(** ** The superblock *)
Definition sb_loaded bs fs sb s s' : Prop :=
  let dk := disk (drive s) in
  fs ≠ 0 ∧ (∃ n, sizeof_fs ≤ n ∧ lent bs fs n (after sizeof_fs bs)) ∧ machine_ok s' (after sizeof_fs bs) ∧
  disk (drive s') = dk ∧ held dk (s_mem s') sb SB_START_BYTES sizeof_sb ∧
  held dk (s_mem s') (fs_sb fs) SB_START_BYTES sizeof_sb ∧
  fs_block_size (s_mem s') fs = v_bsz (disk_view dk) ∧
  ∀ x, client_byte bs x → ¬ (sb ≤ x < sb + sizeof_sb) → ld8 (s_mem s') x = ld8 (s_mem s) x.

Definition mount_sb {A} (sb : Z) (f : Z → M (machine D) A) : M (machine D) A :=
  let* fs := in_heap (kmalloc sizeof_fs) in
  if fs =? 0 then panic "out of memory" else
  store (λ m, memset m sb 0 sizeof_sb) ;;*
  ata_read_bytes spin sb SB_START_BYTES sizeof_sb ;;*
  store (λ m, memcpy m (fs_sb fs) sb sizeof_sb) ;;*
  let* log := load (λ m, s_log_block_size m sb) in
  if 21 <=? log then fault else
  store (λ m, st32 m fs (Z.shiftl 1024 log)) ;;*
  f fs.

Lemma mount_sb_ok {A} bs sb s (f : Z → M (machine D) A) Q P :
  machine_ok s bs → sb ≠ 0 → (∀ x, sb ≤ x < sb + sizeof_sb → client_byte bs x) →
  has_room sizeof_fs bs → has_room 512 (after sizeof_fs bs) → good_bsz (v_bsz (disk_view (disk (drive s)))) →
  (∀ fs s', sb_loaded bs fs sb s s' → wpp (f fs) s' Q P) → wpp (mount_sb sb f) s Q P.
Proof.
  intros Hok Hsb Hc Hr1 Hr2 [Hb _] HQ. unfold mount_sb. apply (kmalloc_step bs); [done|done|done|].
  intros fs n s1 Hfs0 Hn Hl Hok1 Hd1 Hm1. assert (fs ≠ 0) as Hfs by lia. destruct (Z.eqb_spec fs 0); [done|]. set (bs1 := after sizeof_fs bs) in *.
  pose proof (le_keep _ _ _ _ Hl) as Hk. set (dk := disk (drive s)) in *.
  assert (disk (drive s1) = dk) as Hdk1 by by rewrite Hd1.
  assert (∀ x, fs ≤ x < fs + sizeof_fs → client_byte bs1 x) as Hfc by (intros; apply (lent_byte bs fs n); [done|lia]).
  assert (∀ x, sb ≤ x < sb + sizeof_sb → client_byte bs1 x ∧ ¬ (fs ≤ x < fs + n)) as Hsc by (intros; by apply Hk, Hc).
  apply wpp_step. eapply wp_mono; [apply (store_wrote s1 bs1 _ sb sizeof_sb Hok1)|].
  { intros x Hx. by rewrite ld8_memset, decide_False. } { intros x Hx. by apply Hsc. }
  intros _ s2 [W2 _]. apply wpp_step.
  eapply wp_mono; [apply (read_wrote s2 bs1 sb SB_START_BYTES sizeof_sb (wr_ok _ _ _ _ _ W2)); try done; intros x Hx; by apply Hsc|].
  intros _ s3 [W3 H3]. rewrite (wr_disk _ _ _ _ _ W2), Hdk1 in H3.
  assert (fs_sb fs = fs + 4) as Efs by done.
  assert (fs + sizeof_fs ≤ sb ∨ sb + sizeof_sb ≤ fs) as Hap.
  { apply apart_of_points; [done|done|]. intros x Hx Hx'. apply (Hsc x Hx). lia. }
  assert (fs_sb fs + sizeof_sb ≤ fs + sizeof_fs) as Hin by (rewrite Efs; unfold sizeof_fs, sizeof_sb; lia).
  assert (4 ≤ sizeof_fs) as H4s by done.
  apply wpp_step. eapply wp_mono; [apply (store_wrote s3 bs1 _ (fs_sb fs) sizeof_sb (wr_ok _ _ _ _ _ W3))|].
  { intros x Hx. by rewrite ld8_memcpy, decide_False by (rewrite ?Efs in *; lia). } { intros x Hx. apply Hfc. lia. }
  intros _ s4 [W4 E4].
  assert (held dk (s_mem s4) (fs_sb fs) SB_START_BYTES sizeof_sb) as H4.
  { intros j Hj. rewrite E4, ld8_memcpy, decide_True by lia. replace (fs_sb fs + j - fs_sb fs) with j by lia. by apply H3. }
  assert (held dk (s_mem s4) sb SB_START_BYTES sizeof_sb) as H4'.
  { apply (held_wrote dk bs1 (fs_sb fs) sizeof_sb s3); [done| |done]. intros x Hx. split; [by apply Hsc|lia]. }
  apply wpp_step, wp_gets. fold (s_mem s4).
  assert (s_log_block_size (s_mem s4) sb = disk_log_block_size dk) as Hlog by (apply (held_word _ _ _ _ sizeof_sb); done).
  pose proof (ld_range 4 (s_mem s4) (sb + field_of true ext2_sb "s_log_block_size")) as Hl0. change (ld 4 (s_mem s4) _) with (s_log_block_size (s_mem s4) sb) in Hl0.
  rewrite Hlog in *. set (log := disk_log_block_size dk) in *. change (v_bsz (disk_view dk)) with (Z.shiftl 1024 log) in *.
  assert (log < 21) as Hl21.
  { destruct (decide (log < 21)); [done|exfalso]. rewrite Z.shiftl_mul_pow2 in Hb by lia.
    pose proof (Z.pow_le_mono_r 2 21 log ltac:(lia) ltac:(lia)). lia. }
  destruct (Z.leb_spec 21 log); [lia|]. apply wpp_step.
  eapply wp_mono; [apply (store_wrote s4 bs1 _ fs 4 (wr_ok _ _ _ _ _ W4))|].
  { intros x Hx. apply ld8_st_ne. lia. } { intros x Hx. apply Hfc. lia. }
  intros _ s5 [W5 E5]. apply HQ. assert (∀ x, client_byte bs x → ¬ (fs ≤ x < fs + n)) as Hnf by (intros x Hx; by apply Hk).
  split; [exact Hfs|]. split; [exists n; split; [exact Hn|exact Hl]|]. split; [apply (wr_ok _ _ _ _ _ W5)|].
  split; [by rewrite (wr_disk _ _ _ _ _ W5), (wr_disk _ _ _ _ _ W4), (wr_disk _ _ _ _ _ W3), (wr_disk _ _ _ _ _ W2)|].
  split; [|split; [|split]].
  - apply (held_wrote dk bs1 fs 4 s4); [done| |done]. intros x Hx. split; [by apply Hsc|lia].
  - apply (held_wrote dk bs1 fs 4 s4); [done| |done]. intros x Hx. split; [apply Hfc; lia|lia].
  - rewrite E5. unfold fs_block_size. change (fs + field_of false ext2_fs "block_size") with (fs + 0).
    rewrite Z.add_0_r. unfold ld32, st32. rewrite ld_st_eq. apply Z.mod_small. change (v_bsz (disk_view (disk (drive s)))) with (Z.shiftl 1024 log). lia.
  - intros x Hx Hn'. pose proof (Hnf x Hx). rewrite (wr_other _ _ _ _ _ W5) by (by apply Hk || lia).
    rewrite (wr_other _ _ _ _ _ W4) by (by apply Hk || lia). rewrite (wr_other _ _ _ _ _ W3) by (exact Hn' || by apply Hk).
    rewrite (wr_other _ _ _ _ _ W2) by (exact Hn' || by apply Hk). by apply Hm1.
Qed.

(** ** The group descriptors and the inode of the root *)
Record mounted bs sb r_inodes s fs s' bs' : Prop := {
  mt_ok : machine_ok s' bs';
  mt_disk : disk (drive s') = disk (drive s);
  mt_blocks : ∃ bgdt n1 n2, live bs' ≡ₚ (bgdt, n2) :: (fs, n1) :: live bs;
  mt_span : span bs' = span bs;
  mt_fs : fs_in (λ x, client_byte bs' x ∧ ¬ client_byte bs x) (s_mem s') fs (disk_view (disk (drive s)));
  mt_root : held (disk (drive s)) (s_mem s') (fs_rooti fs) (ino_pos (disk_view (disk (drive s))) EXT2_ROOT_INO) sizeof_ino;
  mt_keep x : client_byte bs x → client_byte bs' x;
  mt_other x : client_byte bs x → ¬ (sb ≤ x < sb + sizeof_sb) → ¬ (r_inodes ≤ x < r_inodes + 11 * sizeof_ino) →
    ld8 (s_mem s') x = ld8 (s_mem s) x;
}.

(** A file system that the code can mount: with blocks of 1024 bytes (the
    superblock is block 1), and such that the last block group is counted, which
    holds when it is full. *)
Record mountable (dk : Z → Z) : Prop := {
  mo_first : disk_first_data_block dk = 1;
  mo_full : code_groups dk = v_groups (disk_view dk);
  mo_bsz : good_bsz (v_bsz (disk_view dk));
  mo_per_group : disk_blocks_per_group dk ≠ 0;
  mo_groups : 0 < v_groups (disk_view dk) ≤ 4080;
  mo_inodes : 0 < v_per_group (disk_view dk) < 2 ^ 31;
  mo_root : ino_ok (disk_view dk) EXT2_ROOT_INO;
}.
Definition mount_room (groups : Z) bs : Prop :=
  let bs1 := after sizeof_fs bs in let bs2 := after (sizeof_bgd * groups) bs1 in
  has_room sizeof_fs bs ∧ has_room 512 bs1 ∧ has_room (sizeof_bgd * groups) bs1 ∧
  has_room (512 * nsectors_of (sizeof_bgd * groups)) bs2 ∧ has_room (3 * 512) bs2.

(** The blocks in use afterwards. *)
Definition mount_blocks (groups : Z) (bs : blocks) : blocks := after (sizeof_bgd * groups) (after sizeof_fs bs).

(** The two blocks on the heap, and what is read into them. *)
Record groups_loaded bs s fs bgdt s' bs' : Prop := {
  gl_fs : ∃ n1 n2, sizeof_fs ≤ n1 ∧ live bs' ≡ₚ (bgdt, n2) :: (fs, n1) :: live bs;
  gl_span : span bs' = span bs;
  gl_ok : machine_ok s' bs';
  gl_disk : disk (drive s') = disk (drive s);
  gl_keep x : client_byte bs x → client_byte bs' x ∧ ¬ (fs ≤ x < fs + sizeof_fs) ∧
    ¬ (bgdt ≤ x < bgdt + sizeof_bgd * v_groups (disk_view (disk (drive s))));
  gl_fs_bytes x : fs ≤ x < fs + sizeof_fs → client_byte bs' x;
  gl_bgdt_bytes x : bgdt ≤ x < bgdt + sizeof_bgd * v_groups (disk_view (disk (drive s))) → client_byte bs' x;
  gl_apart : fs + sizeof_fs ≤ bgdt ∨ bgdt + sizeof_bgd * v_groups (disk_view (disk (drive s))) ≤ fs;
  gl_bsz : fs_block_size (s_mem s') fs = v_bsz (disk_view (disk (drive s)));
  gl_sb : held (disk (drive s)) (s_mem s') (fs_sb fs) SB_START_BYTES sizeof_sb;
  gl_bgdt : fs_bgdt (s_mem s') fs = bgdt;
  gl_groups : held (disk (drive s)) (s_mem s') bgdt (2 * v_bsz (disk_view (disk (drive s))))
    (sizeof_bgd * v_groups (disk_view (disk (drive s))));
}.

Definition mount_groups {A} (fs sb : Z) (f : Z → M (machine D) A) : M (machine D) A :=
  let* count := load (λ m, s_blocks_count m sb) in
  let* per_group := load (λ m, s_blocks_per_group m sb) in
  if per_group =? 0 then fault else
  let bgdt_elems := s32 (count / per_group) in
  let* bgdt := in_heap (kmalloc (w64 (bgdt_elems * sizeof_bgd))) in
  store (λ m, st64 m (fs + 400) bgdt) ;;*
  read_blk spin fs bgdt 2 (w32 (bgdt_elems * sizeof_bgd)) ;;*
  f bgdt.

Lemma mount_groups_ok {A} bs fs sb s0 s (f : Z → M (machine D) A) Q P :
  let dk := disk (drive s0) in let v := disk_view dk in let bs1 := after sizeof_fs bs in
  let bs2 := after (sizeof_bgd * v_groups v) bs1 in
  sb_loaded bs fs sb s0 s → mountable dk →
  has_room (sizeof_bgd * v_groups v) bs1 → has_room (512 * nsectors_of (sizeof_bgd * v_groups v)) bs2 →
  (∀ bgdt s', groups_loaded bs s0 fs bgdt s' bs2 →
    (∀ x, client_byte bs x → ld8 (s_mem s') x = ld8 (s_mem s) x) → wpp (f bgdt) s' Q P) →
  wpp (mount_groups fs sb f) s Q P.
Proof.
  intros dk v bs1 bs2 (Hfs & (n & Hn & Hl) & Hok1 & Hk1 & Hsb1 & Hfsb1 & Hbs1 & _) [Hfirst Hfull [Hbz Hal] Hpg Hg Hig Hroot] Hr3 Hr4 HQ.
  fold dk bs1 v in Hl, Hok1, Hk1, Hsb1, Hfsb1, Hbs1, Hg, Hbz, Hal. unfold mount_groups.
  apply wpp_step, wp_gets. fold (s_mem s). apply wpp_step, wp_gets. fold (s_mem s).
  assert (s_blocks_count (s_mem s) sb = disk_blocks_count dk) as -> by (apply (held_word _ _ _ _ sizeof_sb); done).
  assert (s_blocks_per_group (s_mem s) sb = disk_blocks_per_group dk) as -> by (apply (held_word _ _ _ _ sizeof_sb); done).
  destruct (Z.eqb_spec (disk_blocks_per_group dk) 0); [done|].
  change (disk_blocks_count dk / disk_blocks_per_group dk) with (code_groups dk). rewrite Hfull. fold v. set (g := v_groups v) in *.
  rewrite (s32_small g) by lia. assert (sizeof_bgd = 32) as Eb by done.
  rewrite w64_small, w32_small, (Z.mul_comm g) by lia. set (len := sizeof_bgd * g) in *. assert (0 < len ≤ 130560) as Hlen by lia.
  apply (kmalloc_step bs1); [done|lia|done|]. fold bs2. intros bgdt n2 s1 Hb Hn2 Hl2 Hok2 Hd2 Hm2.
  pose proof (le_keep _ _ _ _ Hl) as K1. pose proof (le_keep _ _ _ _ Hl2) as K2.
  assert (∀ x, fs ≤ x < fs + sizeof_fs → client_byte bs1 x) as Hf1 by (intros; apply (lent_byte bs fs n); [done|lia]).
  assert (∀ x, fs ≤ x < fs + sizeof_fs → client_byte bs2 x ∧ ¬ (bgdt ≤ x < bgdt + n2)) as Hf2 by (intros; by apply K2, Hf1).
  assert (∀ x, bgdt ≤ x < bgdt + len → client_byte bs2 x) as Hb2 by (intros; apply (lent_byte bs1 bgdt n2); [done|lia]).
  assert (fs + sizeof_fs ≤ bgdt ∨ bgdt + len ≤ fs) as Hap.
  { destruct (apart_of_points fs sizeof_fs bgdt len); [done|lia| |lia..]. intros x Hx Hx'. apply (Hf2 x Hx). lia. }
  assert (sizeof_fs = 408) as Esf by done. assert (sizeof_sb = 264) as Ess by done. assert (fs_sb fs = fs + 4) as Efs by done.
  assert (fs_bgdt (s_mem s1) fs = ld64 (s_mem s1) (fs + 400)) as _ by done.
  apply wpp_step. eapply wp_mono; [apply (store_wrote s1 bs2 _ (fs + 400) 8 Hok2)|].
  { intros x Hx. unfold st64. apply ld8_st_ne. lia. } { intros x Hx. apply Hf2. lia. }
  intros _ s2 [W2 E2].
  assert (fs_block_size (s_mem s2) fs = v_bsz v) as Hbs2.
  { rewrite <- Hbs1, E2. unfold fs_block_size. change (fs + field_of false ext2_fs "block_size") with (fs + 0). rewrite Z.add_0_r.
    unfold st64, ld32. rewrite ld_st_ne by lia. apply ld_ext. intros x Hx. apply Hm2, Hf1. lia. }
  assert (held dk (s_mem s2) (fs_sb fs) SB_START_BYTES sizeof_sb) as Hfsb2.
  { apply (held_ext _ (s_mem s)); [|done]. intros x Hx. rewrite E2. unfold st64. rewrite ld8_st_ne by lia. apply Hm2, Hf1. lia. }
  apply wpp_step. unfold read_blk. apply wp_bind, wp_gets. fold (s_mem s2). rewrite Hbs2, w32_small by lia.
  eapply wp_mono; [apply (read_wrote s2 bs2 bgdt (2 * v_bsz v) len (wr_ok _ _ _ _ _ W2)); try done; try lia|..].
  { rewrite nsectors_small by lia. apply Z.div_lt_upper_bound; lia. }
  { by rewrite <- Z.mul_mod_idemp_r, Hal by lia. }
  intros _ s3 [W3 H3]. rewrite (wr_disk _ _ _ _ _ W2), Hd2, Hk1 in H3.
  assert (∀ x, fs ≤ x < fs + sizeof_fs → ld8 (s_mem s3) x = ld8 (s_mem s2) x) as Hm3.
  { intros x Hx. apply (wr_other _ _ _ _ _ W3); [by apply Hf2|lia]. }
  apply HQ; [split|].
  - exists n, n2. split; [done|]. fold dk v g len. by rewrite (le_live _ _ _ _ Hl2), (le_live _ _ _ _ Hl).
  - by rewrite (le_span _ _ _ _ Hl2), (le_span _ _ _ _ Hl).
  - apply (wr_ok _ _ _ _ _ W3).
  - rewrite (wr_disk _ _ _ _ _ W3), (wr_disk _ _ _ _ _ W2), Hd2. exact Hk1.
  - intros x Hx. destruct (K1 x Hx) as [Hx1 Hn1]. destruct (K2 x Hx1) as [Hx2 Hn2']. split; [done|]. split; [lia|].
    fold dk v g len. lia.
  - intros x Hx. by apply Hf2.
  - exact Hb2.
  - exact Hap.
  - fold dk v. rewrite <- Hbs2. unfold fs_block_size. change (fs + field_of false ext2_fs "block_size") with (fs + 0).
    rewrite Z.add_0_r. apply ld_ext. intros x Hx. apply Hm3. lia.
  - apply (held_ext _ (s_mem s2)); [|exact Hfsb2]. intros x Hx. apply Hm3. lia.
  - transitivity (fs_bgdt (s_mem s2) fs).
    + apply ld_ext. change (field_of false ext2_fs "bgdt") with 400. intros x Hx. apply Hm3. lia.
    + rewrite E2. apply ld64_st64_eq. lia.
  - exact H3.
  - intros x Hx. destruct (K1 x Hx) as [Hx1 Hn1]. destruct (K2 x Hx1) as [Hx2 Hn2'].
    rewrite (wr_other _ _ _ _ _ W3) by (done || lia). rewrite (wr_other _ _ _ _ _ W2) by (done || lia). by apply Hm2.
Qed.

Lemma mount_rootfs_ok bs sb r_inodes s :
  let v := disk_view (disk (drive s)) in
  machine_ok s bs → mountable (disk (drive s)) → sb ≠ 0 → r_inodes ≠ 0 →
  (∀ x, sb ≤ x < sb + sizeof_sb → client_byte bs x) → (∀ x, r_inodes ≤ x < r_inodes + 11 * sizeof_ino → client_byte bs x) →
  mount_room (v_groups v) bs →
  wp (ext2_mount_rootfs spin sb r_inodes) s (λ fs s', mounted bs sb r_inodes s fs s' (mount_blocks (v_groups v) bs)).
Proof.
  intros v Hok Hmount Hsb Hri Hsc Hrc (Hr1 & Hr2 & Hr3 & Hr4 & Hr5).
  pose proof Hmount as [Hfirst _ Hbsz Hpg Hg Hig Hroot].
  apply (wpp_wp _ _ _ False); [|tauto]. unfold ext2_mount_rootfs.
  eapply (mount_sb_ok bs sb s); try done. intros fs s1 Hl1. pose proof Hl1 as (_ & _ & _ & _ & _ & _ & _ & Hm1).
  eapply (mount_groups_ok bs fs sb s s1); try done. intros bgdt s2 [G1 G2 G3 G4 G5 G6 G7 G8 G9 G10 G11 G12] Hm2.
  fold v in G5, G7, G8, G9, G12. set (dk := disk (drive s)) in *. set (bs2 := after (sizeof_bgd * v_groups v) _) in *.
  assert (sizeof_bgd = 32 ∧ sizeof_ino = 128 ∧ sizeof_fs = 408 ∧ sizeof_sb = 264) as (Eb & Ei & Ef & Es) by done.
  assert (fs_rooti fs = fs + 268 ∧ fs_sb fs = fs + 4) as [Er Efs] by done.
  apply wpp_step, wp_gets. fold (s_mem s2).
  fold v in Hg.
  assert (∀ g, v_table v g = disk_word dk (2 * v_bsz v + (sizeof_bgd * g + field_of true ext2_bgd "bg_inode_table"))) as Htab.
  { intros g. unfold v, disk_view. cbn [v_table v_bsz]. fold dk in Hfirst. by rewrite Hfirst. }
  assert (bg_inode_table (s_mem s2) bgdt = v_table v 0) as Et.
  { unfold bg_inode_table. rewrite (held_word dk _ bgdt _ _ _ G12), Htab; [done|done|]. rewrite Eb. lia. }
  pose proof Hroot as (_ & Hrm & _ & Hrp). assert (2 < v_per_group v) as Hpg2.
  { destruct (decide (v_per_group v = 1)) as [E|]; [unfold v in E; by rewrite E in Hrm|].
    destruct (decide (v_per_group v = 2)) as [E|]; [unfold v in E; by rewrite E in Hrm|]. fold v in Hig. lia. }
  assert (ino_pos v EXT2_ROOT_INO = v_table v 0 * v_bsz v + 128) as Epos.
  { unfold ino_pos. change (EXT2_ROOT_INO - 1) with 1. rewrite Z.div_small, Z.mod_small by lia. lia. }
  fold v in Hrp. rewrite Epos in Hrp.
  assert (0 ≤ v_table v 0) as Ht0 by (rewrite <- Et; apply ld_range). rewrite Et.
  destruct Hbsz as [Hbz Hal]. fold v in Hbz, Hal.
  apply wpp_step. unfold read_blk. apply wp_bind, wp_gets. fold (s_mem s2). rewrite G9, w32_small by nia.
  eapply wp_mono; [apply (read_wrote s2 bs2 r_inodes (v_table v 0 * v_bsz v) (11 * sizeof_ino) G3); try done; try nia|..].
  { by rewrite <- Z.mul_mod_idemp_r, Hal, Z.mul_0_r by lia. }
  { intros x Hx. by apply G5, Hrc. }
  intros _ s3 [W3 H3]. rewrite G4 in H3.
  assert (fs + sizeof_fs ≤ r_inodes ∨ r_inodes + 11 * sizeof_ino ≤ fs) as Hap.
  { destruct (apart_of_points fs sizeof_fs r_inodes (11 * sizeof_ino)); [done|done| |lia..]. intros x Hx Hx'. destruct (G5 x (Hrc x Hx')) as (_ & Hn & _). by apply Hn. }
  apply wpp_step. eapply wp_mono; [apply (store_wrote s3 bs2 _ (fs_rooti fs) sizeof_ino (wr_ok _ _ _ _ _ W3))|].
  { intros x Hx. rewrite ld8_memcpy, decide_False by lia. done. }
  { intros x Hx. apply G6. lia. }
  intros _ s4 [W4 E4]. apply wpp_ret. change (mount_blocks (v_groups v) bs) with bs2.
  assert (∀ x, fs ≤ x < fs + sizeof_fs → ¬ (fs_rooti fs ≤ x < fs_rooti fs + sizeof_ino) → ld8 (s_mem s4) x = ld8 (s_mem s2) x) as Hfs4.
  { intros x Hx Hn. rewrite (wr_other _ _ _ _ _ W4) by (exact (G6 x Hx) || exact Hn). apply (wr_other _ _ _ _ _ W3); [exact (G6 x Hx)|lia]. }
  assert (fs_bgdt (s_mem s4) fs = bgdt) as Hbg4.
  { rewrite <- G11. apply ld_ext. intros x Hx. apply Hfs4; simpl in Hx; lia. }
  split.
  - apply (wr_ok _ _ _ _ _ W4).
  - by rewrite (wr_disk _ _ _ _ _ W4), (wr_disk _ _ _ _ _ W3).
  - destruct G1 as (n1 & n2 & _ & Hl). by exists bgdt, n1, n2.
  - exact G2.
  - split.
    + intros x Hx. split; [by apply G6|]. intros Hc. destruct (G5 x Hc) as (_ & Hn & _). by apply Hn.
    + rewrite Hbg4. intros x Hx. split; [by apply G7|]. intros Hc. destruct (G5 x Hc) as (_ & _ & Hn). by apply Hn.
    + transitivity (fs_block_size (s_mem s2) fs); [|exact G9]. apply ld_ext. intros x Hx. apply Hfs4; simpl in Hx; lia.
    + transitivity (s_inodes_per_group (s_mem s2) (fs_sb fs)).
      * apply ld_ext. intros x Hx. apply Hfs4; simpl in Hx; lia.
      * by apply (held_word _ _ _ _ sizeof_sb).
    + change (v_groups (disk_view (disk (drive s)))) with (v_groups v). intros g Hg'. rewrite Hbg4. transitivity (bg_inode_table (s_mem s2) (bgdt + sizeof_bgd * g)).
      * apply ld_ext. intros x Hx. simpl in Hx. rewrite Eb in *.
        assert (bgdt ≤ x < bgdt + 32 * v_groups v) as Hin by lia.
        rewrite (wr_other _ _ _ _ _ W4); [|exact (G7 x Hin)|lia].
        apply (wr_other _ _ _ _ _ W3); [exact (G7 x Hin)|]. intros Hx'.
        destruct (G5 x (Hrc x Hx')) as (_ & _ & Hn). by apply Hn.
      * unfold bg_inode_table. rewrite <- Z.add_assoc, (held_word dk _ bgdt _ _ _ G12), Htab; [done|lia|]. rewrite Eb. lia.
  - intros j Hj. rewrite E4, ld8_memcpy, decide_True by lia.
    replace (r_inodes + sizeof_ino + (fs_rooti fs + j - fs_rooti fs)) with (r_inodes + (128 + j)) by lia.
    rewrite H3 by lia. change (disk_view (disk (drive s))) with v. rewrite Epos. f_equal. lia.
  - intros x Hx. by apply G5.
  - intros x Hx Hn1 Hn2. destruct (G5 x Hx) as (Hx2 & Hnf & _).
    rewrite (wr_other _ _ _ _ _ W4); [|done|lia]. rewrite (wr_other _ _ _ _ _ W3) by done.
    rewrite Hm2 by done. by apply Hm1.
Qed.

(** A mounted file system is one that paths are resolved in. *)
Lemma mounted_namei_pre bs sb r_inodes s fs s' bs' comp path p :
  mounted bs sb r_inodes s fs s' bs' → mountable (disk (drive s)) →
  (∀ x, comp ≤ x < comp + 256 → client_byte bs x) → cstr (s_mem s') (path + 1) p →
  (∀ x, path + 1 ≤ x < path + 1 + Z.of_nat (length p) + 1 → path_byte bs comp x) →
  namei_pre bs' fs comp path (disk_view (disk (drive s))) p s'.
Proof.
  intros [Mok Mk _ _ Mfs Mroot Mkeep _] [_ _ Hz _ _ Hi _] Hc Hp Hpb. split; try done.
  - apply (fs_in_weaken (λ x, client_byte bs' x ∧ ¬ client_byte bs x)); [|done].
    intros x [Hx Hn]. split; [done|]. intros Hin. by apply Hn, Hc.
  - by rewrite Mk.
  - intros x Hx. by apply Mkeep, Hc.
  - intros x Hx. destruct (Hpb x Hx) as [Hx1 Hx2]. split; [by apply Mkeep|done].
Qed.

(** A full last group is counted. *)
Lemma full_groups dk : disk_first_data_block dk = 1 → 0 < disk_blocks_per_group dk →
  disk_blocks_count dk mod disk_blocks_per_group dk = 1 ∨ disk_blocks_count dk mod disk_blocks_per_group dk = 0 ∧ 1 < disk_blocks_per_group dk →
  code_groups dk = v_groups (disk_view dk).
Proof.
  intros Hf Hp Hm. unfold code_groups, disk_view. cbn [v_groups]. rewrite Hf.
  set (n := disk_blocks_count dk) in *. set (q := disk_blocks_per_group dk) in *. pose proof (Z.div_mod n q ltac:(lia)) as Hd.
  pose proof (Z.mod_pos_bound n q Hp). destruct Hm as [Hm|[Hm Hq]]; rewrite Hm in *.
  - apply (Z.div_unique_pos _ _ _ (q - 1)); lia.
  - apply (Z.div_unique_pos _ _ _ (q - 2)); lia.
Qed.

(** A file system that is smaller than one block group is not mounted: no
    group is counted, and [kmalloc] is asked for 0 bytes. *)
Lemma mount_small_fs bs sb r_inodes s :
  machine_ok s bs → good_bsz (v_bsz (disk_view (disk (drive s)))) → sb ≠ 0 →
  (∀ x, sb ≤ x < sb + sizeof_sb → client_byte bs x) → has_room sizeof_fs bs → has_room 512 (after sizeof_fs bs) →
  0 ≤ disk_blocks_count (disk (drive s)) < disk_blocks_per_group (disk (drive s)) →
  ∃ msg, ext2_mount_rootfs spin sb r_inodes s = Panic msg.
Proof.
  intros Hok Hz Hsb Hc Hr1 Hr2 Hcount.
  assert (wpp (ext2_mount_rootfs spin sb r_inodes) s (λ _ _, False) True) as Hw; [|by apply (wpp_panic _ _ _ _ Hw); intros ? ? []].
  unfold ext2_mount_rootfs. eapply (mount_sb_ok bs sb s); try done.
  intros fs s1 (_ & _ & _ & _ & Hsb1 & _). apply wpp_step, wp_gets. fold (s_mem s1). apply wpp_step, wp_gets. fold (s_mem s1).
  assert (s_blocks_count (s_mem s1) sb = disk_blocks_count (disk (drive s))) as -> by (apply (held_word _ _ _ _ sizeof_sb); done).
  assert (s_blocks_per_group (s_mem s1) sb = disk_blocks_per_group (disk (drive s))) as -> by (apply (held_word _ _ _ _ sizeof_sb); done).
  destruct (Z.eqb_spec (disk_blocks_per_group (disk (drive s))) 0); [lia|]. by rewrite Z.div_small.
Qed.
End mount.

(** C9: [ext2_mount_rootfs], on a drive that it can mount ([mountable]: blocks of
    1024 bytes, so that the descriptors are at block 2, and a last block group
    that is not a partial one; at most 4080 groups) and with room on the heap,
    answers a [struct ext2_fs] in a heap block of its own:
    the block size, the inodes per group and the inode tables of all the groups
    are those of the drive, and the inode of the root directory is the one that
    the root's inode number names.  Two blocks are in use that were not, the drive is
    as before, and of the memory lent to others only the two local buffers
    change. *)
Theorem ext2_mount_rootfs_spec {D : Type} {PO : PortOps D} {AD : AtaDrive D} (spin : nat) (s : machine D) bs sb r_inodes
    (v := disk_view (disk (drive s))) (Hspin : (ata_polls (D := D) < spin)%nat) (Hok : machine_ok s bs) (Hmount : mountable (disk (drive s)))
    (Hsb : sb ≠ 0) (Hri : r_inodes ≠ 0) (Hsbc : ∀ x, sb ≤ x < sb + sizeof_sb → client_byte bs x)
    (Hric : ∀ x, r_inodes ≤ x < r_inodes + 11 * sizeof_ino → client_byte bs x) (Hroom : mount_room (v_groups v) bs) :
  ∃ fs s' bs', ext2_mount_rootfs spin sb r_inodes s = Ok (fs, s') ∧ machine_ok s' bs' ∧ disk (drive s') = disk (drive s) ∧
    (∃ bgdt n1 n2, live bs' ≡ₚ (bgdt, n2) :: (fs, n1) :: live bs) ∧
    fs_block_size (s_mem s') fs = v_bsz v ∧ s_inodes_per_group (s_mem s') (fs_sb fs) = v_per_group v ∧
    (∀ g, 0 ≤ g < v_groups v → bg_inode_table (s_mem s') (fs_bgdt (s_mem s') fs + sizeof_bgd * g) = v_table v g) ∧
    held (disk (drive s)) (s_mem s') (fs_rooti fs) (ino_pos v EXT2_ROOT_INO) sizeof_ino ∧
    (∀ x, client_byte bs x → ¬ (sb ≤ x < sb + sizeof_sb) → ¬ (r_inodes ≤ x < r_inodes + 11 * sizeof_ino) →
      ld8 (s_mem s') x = ld8 (s_mem s) x).
Proof.
  pose proof (mount_rootfs_ok spin Hspin bs sb r_inodes s Hok Hmount Hsb Hri Hsbc Hric Hroom) as Hw.
  apply wp_run in Hw as (fs & s' & Hrun & [M1 M2 M3 M4 [_ _ F3 F4 F5] M6 M7 M8]).
  exists fs, s'. eexists. by split_and!.
Qed.

(** The drive of [Ext2Files] with a superblock and one group descriptor. *)
Definition ex_mount_image : mem :=
  foldr (λ p m, st32 m p.1 p.2) ex_image [(1024 + 4, 8192); (1024 + 20, 1); (1024 + 32, 8192); (1024 + 40, 8); (2048 + 8, 4)].
Definition ex_mount_disk : Z → Z := disk (drive (ex_disk_of ex_mount_image)).
Lemma ex_mount_view : v_groups (disk_view ex_mount_disk) = 1 ∧ v_bsz (disk_view ex_mount_disk) = 1024 ∧
  v_per_group (disk_view ex_mount_disk) = 8 ∧ v_table (disk_view ex_mount_disk) 0 = 4 ∧
  disk_blocks_per_group ex_mount_disk = 8192 ∧ disk_first_data_block ex_mount_disk = 1 ∧ code_groups ex_mount_disk = 1.
Proof. split_and!; by vm_compute. Qed.
Lemma ex_mountable : mountable (disk (drive (ex_disk_of ex_mount_image))).
Proof.
  destruct ex_mount_view as (Eg & Ez & Ep & Et & Eb & Ef & Ec).
  unfold ex_mount_disk in *. generalize dependent (disk (drive (ex_disk_of ex_mount_image))). intros dk Eg Ez Ep Et Eb Ef Ec.
  assert (ino_pos (disk_view dk) EXT2_ROOT_INO = 4224) as Epos.
  { unfold ino_pos. rewrite Ep, Ez. change ((EXT2_ROOT_INO - 1) / 8) with 0. by rewrite Et. }
  split; [exact Ef|by rewrite Eg|rewrite Ez; by split|rewrite Eb; lia|rewrite Eg; lia|rewrite Ep; lia|].
  split; [by split|]. rewrite Epos, Ep, Eg. by split_and!.
Qed.

Lemma ext2_mount_rootfs_spec_witness : ∃ fs s', ext2_mount_rootfs 3 100 600 (ex_disk_of ex_mount_image) = Ok (fs, s') ∧
  fs_block_size (s_mem s') fs = 1024 ∧ i_block (s_mem s') (fs_rooti fs) 0 = 5.
Proof.
  destruct ex_mount_view as (Eg & Ez & Ep & Et & Eb).
  destruct (ext2_mount_rootfs_spec 3 (ex_disk_of ex_mount_image) ex_blocks 100 600 ex_polls (ex_disk_ok _) ex_mountable
    ltac:(lia) ltac:(lia)) as (fs & s' & _ & Hrun & _ & _ & _ & Hbz & _ & _ & Hr & _).
  - intros x Hx. apply ex_low_client. unfold sizeof_sb in Hx. lia.
  - intros x Hx. apply ex_low_client. unfold sizeof_ino in Hx. lia.
  - fold ex_mount_disk. rewrite Eg.
    split_and!; [left; by vm_compute|right; left; by vm_compute|right; left; by vm_compute|
      right; right; left; by vm_compute|right; right; left; by vm_compute].
  - exists fs, s'. split; [exact Hrun|]. split; [by rewrite Hbz|].
    unfold i_block. rewrite <- Z.add_assoc, (held_word _ _ _ _ _ _ Hr); [|done|done]. by vm_compute.
Defined.
