(* ===== verification/Gdt.v ===== *)
(** The segment descriptors of [mm/gdt.c].

    The code fills byte arrays; the reference decodes a descriptor the way the
    processor does (base, limit, access byte and flags scattered over eight
    bytes, sixteen for a TSS).  The theorems say that the processor reads back
    what the kernel encoded. *)

From S2P Require Import Prelude Layout Memory.

(** [struct gdtr] and [struct tss], packed. *)
Definition gdtr_l : layout := [u16 "len"; u64 "addr"].
Definition tss : layout :=
  [u32 "resv1"; u64 "rsp0"; u64 "rsp1"; u64 "rsp2"; u64 "rsp3"; u64 "resv2"; u64 "ist1"; u64 "ist2"; u64 "ist3";
   u64 "ist4"; u64 "ist5"; u64 "ist6"; u64 "ist7"; u64 "resv3"; u32 "resv4"; u16 "iopb"].
Definition sizeof_tss : Z := Eval vm_compute in sizeof true tss.
(** [static uint64_t gdt[7]] *)
Definition sizeof_gdt : Z := 7 * 8.

(** ** The code *)
Definition st8_ (a v : Z) : M mem unit := modify (λ m, st8 m a v).

Definition encode_gdt_entry (target base limit access_byte flags : Z) : M mem unit :=
  if 0xFFFFF <? limit then panic "GDT cannot encode limits larger than 0xFFFFF" else
  st8_ (target + 0) (Z.land limit 0xFF) ;;*
  st8_ (target + 1) (Z.land (Z.shiftr limit 8) 0xFF) ;;*
  st8_ (target + 6) (Z.land (Z.shiftr limit 16) 0x0F) ;;*
  st8_ (target + 2) (Z.land base 0xFF) ;;*
  st8_ (target + 3) (Z.land (Z.shiftr base 8) 0xFF) ;;*
  st8_ (target + 4) (Z.land (Z.shiftr base 16) 0xFF) ;;*
  st8_ (target + 7) (Z.land (Z.shiftr base 24) 0xFF) ;;*
  st8_ (target + 5) access_byte ;;*
  modify (λ m, st8 m (target + 6) (Z.lor (ld8 m (target + 6)) (Z.shiftl flags 4))).

Definition encode_tss_gdt_entry (target base limit access_byte flags : Z) : M mem unit :=
  encode_gdt_entry target 0 limit access_byte flags ;;*
  st8_ (target + 2) (Z.land base 0xFF) ;;*
  st8_ (target + 3) (Z.land (Z.shiftr base 8) 0xFF) ;;*
  st8_ (target + 4) (Z.land (Z.shiftr base 16) 0xFF) ;;*
  st8_ (target + 7) (Z.land (Z.shiftr base 24) 0xFF) ;;*
  st8_ (target + 8) (Z.land (Z.shiftr base 32) 0xFF) ;;*
  st8_ (target + 9) (Z.land (Z.shiftr base 40) 0xFF) ;;*
  st8_ (target + 10) (Z.land (Z.shiftr base 48) 0xFF) ;;*
  st8_ (target + 11) (Z.land (Z.shiftr base 56) 0xFF) ;;*
  st8_ (target + 12) 0 ;;*
  st8_ (target + 13) 0 ;;*
  st8_ (target + 14) 0 ;;*
  st8_ (target + 15) 0.

(** What [lgdt] and [flush_gdt] load: the table register, and the selectors of
    code, data and task. *)
Record gdt_regs := GdtRegs { gdtr_len : Z; gdtr_addr : Z; sel_code : Z; sel_data : Z; sel_tss : Z }.

Definition load_gdt (gdt : Z) : gdt_regs := GdtRegs (w16 sizeof_gdt) gdt 0x8 0x10 0x28.

(** [gdt] and [__tss] are the addresses of the two static objects. *)
Definition gdt_init (gdt __tss : Z) : M mem gdt_regs :=
  encode_gdt_entry gdt 0 0 0 0 ;;*
  encode_gdt_entry (gdt + 8 * 1) 0 0xFFFFF 0x9A 0xA ;;*
  encode_gdt_entry (gdt + 8 * 2) 0 0xFFFFF 0x92 0xC ;;*
  encode_gdt_entry (gdt + 8 * 3) 0 0xFFFFF 0xF2 0xC ;;*
  encode_gdt_entry (gdt + 8 * 4) 0 0xFFFFF 0xFA 0xA ;;*
  modify (λ m, memset m __tss 0 sizeof_tss) ;;*
  encode_tss_gdt_entry (gdt + 8 * 5) __tss sizeof_tss 0x89 0 ;;*
  mret_ (load_gdt gdt).

(** ** The reference: how the processor decodes a descriptor *)
Record descriptor := Descr { d_base : Z; d_limit : Z; d_access : Z; d_flags : Z }.

Definition decode (m : mem) (a : Z) : descriptor :=
  Descr (ld8 m (a + 2) + 2 ^ 8 * ld8 m (a + 3) + 2 ^ 16 * ld8 m (a + 4) + 2 ^ 24 * ld8 m (a + 7))
        (ld8 m (a + 0) + 2 ^ 8 * ld8 m (a + 1) + 2 ^ 16 * (ld8 m (a + 6) mod 16))
        (ld8 m (a + 5)) (ld8 m (a + 6) / 16).
(** A TSS descriptor has four more bytes of base and four reserved ones. *)
Definition decode_tss (m : mem) (a : Z) : descriptor * Z :=
  let d := decode m a in
  (Descr (d_base d + 2 ^ 32 * ld32 m (a + 8)) (d_limit d) (d_access d) (d_flags d), ld32 m (a + 12)).

(** ** Proofs *)
Lemma land_byte x k : 0 ≤ k → Z.land (Z.shiftr x k) 0xFF = (x / 2 ^ k) mod 256.
Proof. intros. change 0xFF with (Z.ones 8). by rewrite Z.land_ones, Z.shiftr_div_pow2. Qed.
Lemma land_byte0 x : Z.land x 0xFF = x mod 256.
Proof. change 0xFF with (Z.ones 8). by rewrite Z.land_ones. Qed.

(** The bytes of a number. *)
Lemma bytes_of_word x : 0 ≤ x < 2 ^ 32 →
  x = x mod 256 + 2 ^ 8 * (x / 2 ^ 8 mod 256) + 2 ^ 16 * (x / 2 ^ 16 mod 256) + 2 ^ 24 * (x / 2 ^ 24 mod 256).
Proof.
  intros Hx. change (2 ^ 24) with (256 * 256 * 256). change (2 ^ 16) with (256 * 256). change (2 ^ 8) with 256.
  rewrite <- !Z.div_div by lia. rewrite (Z.mod_small (x / 256 / 256 / 256)).
  - pose proof (Z.div_mod x 256 ltac:(lia)). pose proof (Z.div_mod (x / 256) 256 ltac:(lia)).
    pose proof (Z.div_mod (x / 256 / 256) 256 ltac:(lia)). lia.
  - rewrite !Z.div_div by lia. split; [apply Z.div_pos; lia|apply Z.div_lt_upper_bound; lia].
Qed.

(** The byte that holds the flags and the top of the limit. *)
Lemma flags_byte limit flags : 0 ≤ limit < 2 ^ 20 → 0 ≤ flags < 16 →
  w8 (Z.lor (w8 (Z.land (Z.shiftr limit 16) 0x0F)) (Z.shiftl flags 4)) = limit / 2 ^ 16 + 16 * flags.
Proof.
  intros Hl Hf. change 0x0F with (Z.ones 4). rewrite Z.land_ones, Z.shiftr_div_pow2, Z.shiftl_mul_pow2 by lia.
  assert (0 ≤ limit / 2 ^ 16 < 16) as Hq.
  { split; [apply Z.div_pos; lia|apply Z.div_lt_upper_bound; lia]. }
  rewrite (Z.mod_small (limit / 2 ^ 16) (2 ^ 4)), (w8_small (limit / 2 ^ 16)) by lia.
  rewrite Z.lor_comm, (lor_aligned_low _ _ 4); [|lia|by rewrite Z.mod_mul|lia]. rewrite w8_small; lia.
Qed.

Ltac byte_at := repeat first [rewrite ld8_st8_eq | rewrite ld8_st8_ne by lia].

Lemma encode_ok t base limit access flags m :
  0 ≤ base < 2 ^ 32 → 0 ≤ limit < 2 ^ 20 → 0 ≤ access < 256 → 0 ≤ flags < 16 →
  wp (encode_gdt_entry t base limit access flags) m (λ _ m',
    decode m' t = Descr base limit access flags ∧ ∀ x, ¬ (t ≤ x < t + 8) → ld8 m' x = ld8 m x).
Proof.
  intros Hb Hl Ha Hf. unfold encode_gdt_entry. destruct (Z.ltb_spec 0xFFFFF limit); [lia|].
  unfold st8_. wp_steps. split; [|intros; byte_at; done].
  assert (∀ y, w8 (y mod 256) = y mod 256) as Hw by (intros; apply w8_small, Z.mod_pos_bound; lia).
  unfold decode. byte_at. rewrite flags_byte by done. rewrite !land_byte, !land_byte0 by lia. rewrite !Hw.
  rewrite (w8_small access) by lia. f_equal.
  - symmetry. by apply bytes_of_word.
  - assert (0 ≤ limit / 2 ^ 16 < 16) as Hq.
    { split; [apply Z.div_pos; lia|apply Z.div_lt_upper_bound; lia]. }
    replace ((limit / 2 ^ 16 + 16 * flags) mod 16) with (limit / 2 ^ 16).
    + pose proof (bytes_of_word limit ltac:(lia)) as He. rewrite (Z.div_small limit (2 ^ 24)) in He by lia.
      rewrite (Z.mod_small (limit / 2 ^ 16) 256) in He by lia. rewrite Z.mod_0_l in He by lia. lia.
    + rewrite Z.mul_comm, Z.mod_add, Z.mod_small; lia.
  - rewrite Z.mul_comm, Z.div_add by lia. rewrite Z.div_small; [lia|].
    split; [apply Z.div_pos; lia|apply Z.div_lt_upper_bound; lia].
Qed.

Lemma encode_tss_ok t base limit access flags m :
  0 ≤ base < 2 ^ 64 → 0 ≤ limit < 2 ^ 20 → 0 ≤ access < 256 → 0 ≤ flags < 16 →
  wp (encode_tss_gdt_entry t base limit access flags) m (λ _ m',
    decode_tss m' t = (Descr base limit access flags, 0) ∧ ∀ x, ¬ (t ≤ x < t + 16) → ld8 m' x = ld8 m x).
Proof.
  intros Hb Hl Ha Hf. unfold encode_tss_gdt_entry. apply wp_bind.
  eapply wp_mono; [by apply encode_ok; [lia|..]|]. intros _ m1 [Hd Ho]. injection Hd as _ H1 H2 H3.
  unfold st8_. wp_steps. split; [|intros; byte_at; apply Ho; lia].
  assert (∀ y, w8 (y mod 256) = y mod 256) as Hw by (intros; apply w8_small, Z.mod_pos_bound; lia).
  rewrite !land_byte, !land_byte0 by lia.
  unfold decode_tss, decode, ld32. cbn [ld d_base d_limit d_access d_flags]. rewrite <- !Z.add_assoc.
  change (8 + 1) with 9. change (9 + 1) with 10. change (10 + 1) with 11. change (8 + (1 + 1)) with 10.
  change (8 + (1 + (1 + 1))) with 11. change (12 + 1) with 13. change (12 + (1 + 1)) with 14. change (12 + (1 + (1 + 1))) with 15.
  byte_at. rewrite !Hw. rewrite <- !Z.add_assoc in H1. rewrite H1, H2, H3. f_equal. f_equal.
  pose proof (bytes_of_word (base mod 2 ^ 32) ltac:(apply Z.mod_pos_bound; lia)) as Hlo.
  pose proof (bytes_of_word (base / 2 ^ 32) ltac:(split; [apply Z.div_pos; lia|apply Z.div_lt_upper_bound; lia])) as Hhi.
  rewrite !Z.div_div in Hhi by lia.
  assert (∀ k, 0 ≤ k → k + 8 ≤ 32 → base mod 2 ^ 32 / 2 ^ k mod 256 = base / 2 ^ k mod 256) as Hk.
  { intros k Hk0 Hk. change 256 with (2 ^ 8). apply Z.bits_inj'. intros i Hi.
    destruct (Z.lt_ge_cases i 8).
    - rewrite !Z.mod_pow2_bits_low, !Z.div_pow2_bits, Z.mod_pow2_bits_low by lia. done.
    - by rewrite !Z.mod_pow2_bits_high by lia. }
  rewrite !Hk in Hlo by lia. change (base mod 2 ^ 32 mod 256) with (base mod 2 ^ 32 mod 2 ^ 8) in Hlo.
  assert (base mod 2 ^ 32 mod 2 ^ 8 = base mod 2 ^ 8) as Hm.
  { specialize (Hk 0 ltac:(lia) ltac:(lia)). change (2 ^ 0) with 1 in Hk. by rewrite !Z.div_1_r in Hk. }
  rewrite Hm in Hlo. pose proof (Z.div_mod base (2 ^ 32) ltac:(lia)).
  change (2 ^ 32 * 2 ^ 8) with (2 ^ 40) in Hhi. change (2 ^ 32 * 2 ^ 16) with (2 ^ 48) in Hhi.
  change (2 ^ 32 * 2 ^ 24) with (2 ^ 56) in Hhi. change (base mod 2 ^ 8) with (base mod 256) in Hlo.
  clear Hk Hm Hw H1 H2 H3 Ho.
  repeat match goal with H : context [base / ?d mod 256] |- _ => let x := fresh "x" in set (x := base / d mod 256) in *; clearbody x end.
  set (xl := base mod 256) in *; clearbody xl. set (hi := base / 2 ^ 32) in *; clearbody hi.
  set (lo := base mod 2 ^ 32) in *; clearbody lo. lia.
Qed.

Lemma decode_ext m m' a : (∀ x, a ≤ x < a + 8 → ld8 m' x = ld8 m x) → decode m' a = decode m a.
Proof. intros H. unfold decode. by rewrite !H by lia. Qed.

Lemma decode_tss_ext m m' a : (∀ x, a ≤ x < a + 16 → ld8 m' x = ld8 m x) → decode_tss m' a = decode_tss m a.
Proof.
  intros H. unfold decode_tss. rewrite (decode_ext m m') by (intros; apply H; lia). unfold ld32.
  by rewrite !(ld_ext 4 m' m) by (intros; apply H; lia).
Qed.

(** the processor decodes from an encoded descriptor exactly the base,
    limit, access byte and flags it was made of, for a segment and for a TSS
    with a 64-bit base (whose reserved half is zero), and no other byte
    changes; a limit of more than 20 bits is refused with a panic. *)
Theorem gdt_entry_roundtrip (t base limit access flags : Z) (m : mem)
    (Ha : 0 ≤ access < 256) (Hf : 0 ≤ flags < 16) :
  (0 ≤ base < 2 ^ 32 → 0 ≤ limit < 2 ^ 20 →
    ∃ m', encode_gdt_entry t base limit access flags m = Ok (tt, m') ∧
      decode m' t = Descr base limit access flags ∧ ∀ x, ¬ (t ≤ x < t + 8) → ld8 m' x = ld8 m x) ∧
  (0 ≤ base < 2 ^ 64 → 0 ≤ limit < 2 ^ 20 →
    ∃ m', encode_tss_gdt_entry t base limit access flags m = Ok (tt, m') ∧
      decode_tss m' t = (Descr base limit access flags, 0) ∧ ∀ x, ¬ (t ≤ x < t + 16) → ld8 m' x = ld8 m x) ∧
  (2 ^ 20 ≤ limit → ∃ msg, encode_gdt_entry t base limit access flags m = Panic msg ∧
    encode_tss_gdt_entry t base limit access flags m = Panic msg).
Proof.
  split_and!.
  - intros Hb Hl. destruct (proj1 (wp_run _ _ _) (encode_ok t base limit access flags m Hb Hl Ha Hf)) as ([] & m' & H).
    by exists m'.
  - intros Hb Hl. destruct (proj1 (wp_run _ _ _) (encode_tss_ok t base limit access flags m Hb Hl Ha Hf)) as ([] & m' & H).
    by exists m'.
  - intros Hl. unfold encode_tss_gdt_entry, encode_gdt_entry, mbind_ at 1. destruct (Z.ltb_spec 0xFFFFF limit); [|lia].
    by eexists.
Qed.
Lemma gdt_entry_roundtrip_witness : ∃ m',
  encode_tss_gdt_entry 64 0xffffffff80123456 104 0x89 0 ∅ = Ok (tt, m') ∧
  decode_tss m' 64 = (Descr 0xffffffff80123456 104 0x89 0, 0).
Proof.
  destruct (gdt_entry_roundtrip 64 0xffffffff80123456 104 0x89 0 ∅ ltac:(lia) ltac:(lia)) as (_ & H & _).
  destruct (H ltac:(lia) ltac:(lia)) as (m' & Hr & Hd & _). exists m'. split; [exact Hr|exact Hd].
Defined.

(** after [gdt_init] the table holds the null descriptor, kernel code and
    data, user data and code (flat, ring 0 and ring 3 in the access byte), and
    the descriptor of a zeroed TSS; [lgdt] gets the table with its size (one
    more than the limit the processor expects), and the selectors loaded are
    those of kernel code, kernel data and the TSS.  No other byte changes. *)
Theorem gdt_init_spec (gdt tss : Z) (m : mem) (Hgdt : 0 ≤ gdt) (Htss : 0 ≤ tss < 2 ^ 64)
    (Hapart : gdt + sizeof_gdt ≤ tss ∨ tss + sizeof_tss ≤ gdt) :
  ∃ m', gdt_init gdt tss m = Ok (GdtRegs 56 gdt (8 * 1) (8 * 2) (8 * 5), m') ∧
    decode m' gdt = Descr 0 0 0 0 ∧
    decode m' (gdt + 8 * 1) = Descr 0 0xFFFFF 0x9A 0xA ∧ decode m' (gdt + 8 * 2) = Descr 0 0xFFFFF 0x92 0xC ∧
    decode m' (gdt + 8 * 3) = Descr 0 0xFFFFF 0xF2 0xC ∧ decode m' (gdt + 8 * 4) = Descr 0 0xFFFFF 0xFA 0xA ∧
    decode_tss m' (gdt + 8 * 5) = (Descr tss sizeof_tss 0x89 0, 0) ∧
    (∀ x, tss ≤ x < tss + sizeof_tss → ld8 m' x = 0) ∧
    (∀ x, ¬ (gdt ≤ x < gdt + sizeof_gdt) → ¬ (tss ≤ x < tss + sizeof_tss) → ld8 m' x = ld8 m x).
Proof.
  enough (wp (gdt_init gdt tss) m (λ r m', r = GdtRegs 56 gdt 8 16 40 ∧
    decode m' gdt = Descr 0 0 0 0 ∧
    decode m' (gdt + 8 * 1) = Descr 0 0xFFFFF 0x9A 0xA ∧ decode m' (gdt + 8 * 2) = Descr 0 0xFFFFF 0x92 0xC ∧
    decode m' (gdt + 8 * 3) = Descr 0 0xFFFFF 0xF2 0xC ∧ decode m' (gdt + 8 * 4) = Descr 0 0xFFFFF 0xFA 0xA ∧
    decode_tss m' (gdt + 8 * 5) = (Descr tss sizeof_tss 0x89 0, 0) ∧
    (∀ x, tss ≤ x < tss + sizeof_tss → ld8 m' x = 0) ∧
    (∀ x, ¬ (gdt ≤ x < gdt + sizeof_gdt) → ¬ (tss ≤ x < tss + sizeof_tss) → ld8 m' x = ld8 m x))) as Hw.
  { destruct (proj1 (wp_run _ _ _) Hw) as (r & m' & Hr & -> & H). by exists m'. }
  unfold gdt_init. unfold sizeof_gdt, sizeof_tss in *.
  apply wp_bind. eapply wp_mono; [apply encode_ok; lia|]. intros _ m0 [D0 O0].
  apply wp_bind. eapply wp_mono; [apply encode_ok; lia|]. intros _ m1 [D1 O1].
  apply wp_bind. eapply wp_mono; [apply encode_ok; lia|]. intros _ m2 [D2 O2].
  apply wp_bind. eapply wp_mono; [apply encode_ok; lia|]. intros _ m3 [D3 O3].
  apply wp_bind. eapply wp_mono; [apply encode_ok; lia|]. intros _ m4 [D4 O4].
  apply wp_bind, wp_modify. set (m5 := memset m4 tss 0 114).
  assert (∀ x, ld8 m5 x = if decide (tss ≤ x < tss + 114) then 0 else ld8 m4 x) as O5 by (intros; apply ld8_memset).
  apply wp_bind. eapply wp_mono; [apply encode_tss_ok; lia|]. intros _ m6 [D6 O6]. apply wp_ret.
  assert (∀ x, gdt ≤ x < gdt + 40 → ld8 m6 x = ld8 m4 x) as O64.
  { intros x Hx. rewrite O6, O5, decide_False by lia. done. }
  split; [done|]. split_and!.
  - rewrite (decode_ext m0); [done|]. intros. rewrite O64, O4, O3, O2, O1 by lia. done.
  - rewrite (decode_ext m1); [done|]. intros. rewrite O64, O4, O3, O2 by lia. done.
  - rewrite (decode_ext m2); [done|]. intros. rewrite O64, O4, O3 by lia. done.
  - rewrite (decode_ext m3); [done|]. intros. rewrite O64, O4 by lia. done.
  - rewrite (decode_ext m4); [done|]. intros. by rewrite O64 by lia.
  - exact D6.
  - intros x Hx. by rewrite O6, O5, decide_True by lia.
  - intros x H1 H2. rewrite O6, O5, decide_False, O4, O3, O2, O1, O0 by lia. done.
Qed.
Lemma gdt_init_spec_witness : ∃ m', gdt_init 4096 8192 ∅ = Ok (GdtRegs 56 4096 8 16 40, m').
Proof.
  destruct (gdt_init_spec 4096 8192 ∅ ltac:(lia) ltac:(lia) ltac:(left; vm_compute; discriminate)) as (m' & H & _).
  exists m'. exact H.
Defined.
