(* ===== verification/Vga.v ===== *)
(** The text terminal of [kernel/vgaterm.c].

    The frame buffer is 16-bit cells in byte memory behind [vgaterm_buf]; the
    cursor is moved through two ports.  The reference is the screen as a
    function of row and column; [cell] reads it back from memory. *)

From S2P Require Import Prelude Memory Ata.

Definition VGATERM_WIDTH : Z := 80.
Definition VGATERM_HEIGHT : Z := 25.
Definition VGATERM_BUF_START : Z := 0xffffffff800b8000.

(** [enum vga_color] *)
Inductive vga_color : Set :=
  | VGA_COLOR_BLACK | VGA_COLOR_BLUE | VGA_COLOR_GREEN | VGA_COLOR_CYAN | VGA_COLOR_RED | VGA_COLOR_MAGENTA
  | VGA_COLOR_BROWN | VGA_COLOR_LIGHT_GREY | VGA_COLOR_DARK_GREY | VGA_COLOR_LIGHT_BLUE | VGA_COLOR_LIGHT_GREEN
  | VGA_COLOR_LIGHT_CYAN | VGA_COLOR_LIGHT_RED | VGA_COLOR_LIGHT_MAGENTA | VGA_COLOR_LIGHT_BROWN | VGA_COLOR_WHITE.
Definition color_code (c : vga_color) : Z :=
  match c with
  | VGA_COLOR_BLACK => 0 | VGA_COLOR_BLUE => 1 | VGA_COLOR_GREEN => 2 | VGA_COLOR_CYAN => 3 | VGA_COLOR_RED => 4
  | VGA_COLOR_MAGENTA => 5 | VGA_COLOR_BROWN => 6 | VGA_COLOR_LIGHT_GREY => 7 | VGA_COLOR_DARK_GREY => 8
  | VGA_COLOR_LIGHT_BLUE => 9 | VGA_COLOR_LIGHT_GREEN => 10 | VGA_COLOR_LIGHT_CYAN => 11 | VGA_COLOR_LIGHT_RED => 12
  | VGA_COLOR_LIGHT_MAGENTA => 13 | VGA_COLOR_LIGHT_BROWN => 14 | VGA_COLOR_WHITE => 15
  end.

(** [c] is a [char], that is signed. *)
Definition VGATERM_ENTRY (c color : Z) : Z := w16 (Z.lor (s8 c) (Z.shiftl color 8)).
Definition VGATERM_COLOR (fg bg : Z) : Z := w8 (Z.lor fg (Z.shiftl bg 4)).
Definition VGATERM_ADDR (x y : Z) : Z := y * VGATERM_WIDTH + x.

Record vgaterm := Vgaterm {
  vga_mem : mem; vgaterm_y : Z; vgaterm_x : Z; vgaterm_color : Z; vgaterm_buf : Z
}.
Definition set_vga_mem m v := Vgaterm m (vgaterm_y v) (vgaterm_x v) (vgaterm_color v) (vgaterm_buf v).
Definition set_cursor_pos x y v := Vgaterm (vga_mem v) y x (vgaterm_color v) (vgaterm_buf v).
Definition set_color c v := Vgaterm (vga_mem v) (vgaterm_y v) (vgaterm_x v) c (vgaterm_buf v).

Definition get_cell (v : vgaterm) (i : Z) : Z := ld16 (vga_mem v) (vgaterm_buf v + 2 * i).
Definition put_cell (i e : Z) (v : vgaterm) : vgaterm :=
  set_vga_mem (st16 (vga_mem v) (vgaterm_buf v + 2 * i) e) v.

(** ** The code *)

(** [for (row) for (col) buf[ADDR(col, row)] = buf[ADDR(col, row + 1)]] *)
Fixpoint scroll_cols (n : nat) (col row : Z) (v : vgaterm) : vgaterm :=
  match n with
  | O => v
  | S n' => scroll_cols n' (col + 1) row (put_cell (VGATERM_ADDR col row) (get_cell v (VGATERM_ADDR col (row + 1))) v)
  end.
Fixpoint scroll_rows (width n : nat) (row : Z) (v : vgaterm) : vgaterm :=
  match n with
  | O => v
  | S n' => scroll_rows width n' (row + 1) (scroll_cols width 0 row v)
  end.
Fixpoint fill_cols (n : nat) (col row e : Z) (v : vgaterm) : vgaterm :=
  match n with
  | O => v
  | S n' => fill_cols n' (col + 1) row e (put_cell (VGATERM_ADDR col row) e v)
  end.
Definition vgaterm_scroll (v : vgaterm) : vgaterm :=
  fill_cols (Z.to_nat VGATERM_WIDTH) 0 VGATERM_HEIGHT 0 (scroll_rows (Z.to_nat VGATERM_WIDTH) (Z.to_nat VGATERM_HEIGHT) 0 v).

Definition vgaterm_newline (v : vgaterm) : vgaterm :=
  let v := if vgaterm_y v =? VGATERM_HEIGHT - 1 then vgaterm_scroll v
           else set_cursor_pos (vgaterm_x v) (w64 (vgaterm_y v + 1)) v in
  set_cursor_pos 0 (vgaterm_y v) v.

Section term.
Context {D : Type} {PO : PortOps D}.

Record term := Term { t_ports : D; t_vga : vgaterm }.
Definition set_vga (v : vgaterm) (t : term) : term := Term (t_ports t) v.
Definition in_ports {A} (m : M D A) : M term A := λ t,
  match m (t_ports t) with
  | Ok (a, d) => Ok (a, Term d (t_vga t))
  | Panic msg => Panic msg
  | Fault => Fault
  | NoFuel => NoFuel
  end.

(** The arguments are not looked at; the position is that of the globals. *)
Definition vgaterm_set_cursor (x y : Z) : M term unit :=
  let* pos := gets (λ t, w16 (vgaterm_y (t_vga t) * VGATERM_WIDTH + vgaterm_x (t_vga t))) in
  in_ports (outb 0x3D4 0x0F) ;;*
  in_ports (outb 0x3D5 (Z.land pos 0xFF)) ;;*
  in_ports (outb 0x3D4 0x0E) ;;*
  in_ports (outb 0x3D5 (Z.land (Z.shiftr pos 8) 0xFF)).

Definition vgaterm_putchar (c : Z) : M term unit :=
  if c =? 10 then modify (λ t, set_vga (vgaterm_newline (t_vga t)) t) else
  modify (λ t, let v := t_vga t in
    set_vga (put_cell (vgaterm_y v * VGATERM_WIDTH + vgaterm_x v) (VGATERM_ENTRY c (vgaterm_color v)) v) t) ;;*
  modify (λ t, let v := t_vga t in
    let x := w64 (vgaterm_x v + 1) in
    let '(x, y) :=
      if x =? VGATERM_WIDTH then
        let y := w64 (vgaterm_y v + 1) in
        (0, if y =? VGATERM_HEIGHT then 0 else y)
      else (x, vgaterm_y v) in
    set_vga (set_cursor_pos x y v) t) ;;*
  let* v := gets t_vga in
  vgaterm_set_cursor (s32 (vgaterm_x v)) (s32 (vgaterm_y v)).

Definition _putchar (c : Z) : M term unit := vgaterm_putchar c.

Definition vgaterm_setcolor (fg bg : vga_color) : M term unit :=
  modify (λ t, set_vga (set_color (VGATERM_COLOR (color_code fg) (color_code bg)) (t_vga t)) t).

(** The string is the list of its bytes. *)
Fixpoint vgaterm_print (s : list Z) : M term unit :=
  match s with
  | [] => mret_ tt
  | c :: s' => vgaterm_putchar c ;;* vgaterm_print s'
  end.

Fixpoint clear_rows (width n : nat) (y : Z) (v : vgaterm) : vgaterm :=
  match n with
  | O => v
  | S n' => clear_rows width n' (y + 1) (fill_cols width 0 y (VGATERM_ENTRY 32 (vgaterm_color v)) v)
  end.
Definition vgaterm_clear : M term unit :=
  modify (λ t, set_vga (clear_rows (Z.to_nat VGATERM_WIDTH) (Z.to_nat VGATERM_HEIGHT) 0
    (Vgaterm (vga_mem (t_vga t)) 0 0 (VGATERM_COLOR (color_code VGA_COLOR_LIGHT_GREY) (color_code VGA_COLOR_BLACK))
       VGATERM_BUF_START)) t).
End term.
Arguments term D : clear implicits.

(** ** Reading and writing cells *)
Definition cell (v : vgaterm) (row col : Z) : Z := get_cell v (VGATERM_ADDR col row).

Lemma get_put_cell i j e v :
  get_cell (put_cell i e v) j = if decide (j = i) then w16 e else get_cell v j.
Proof.
  unfold get_cell, put_cell. simpl. case_decide as Hj.
  - subst j. unfold ld16, st16. rewrite ld_st_eq. done.
  - unfold ld16, st16. rewrite ld_st_ne; [done|]. lia.
Qed.

(** The same buffer with other cells. *)
Definition same_term (v v' : vgaterm) : Prop :=
  vgaterm_y v' = vgaterm_y v ∧ vgaterm_x v' = vgaterm_x v ∧ vgaterm_color v' = vgaterm_color v ∧ vgaterm_buf v' = vgaterm_buf v.

Lemma w16_get v i : w16 (get_cell v i) = get_cell v i.
Proof. apply Z.mod_small. unfold get_cell, ld16. exact (ld_range 2 (vga_mem v) (vgaterm_buf v + 2 * i)). Qed.

Lemma scroll_cols_ok n : ∀ col row v, 0 ≤ col → col + Z.of_nat n ≤ VGATERM_WIDTH →
  same_term v (scroll_cols n col row v) ∧ ∀ i, get_cell (scroll_cols n col row v) i =
    if decide (VGATERM_ADDR col row ≤ i < VGATERM_ADDR col row + Z.of_nat n) then get_cell v (i + VGATERM_WIDTH) else get_cell v i.
Proof.
  unfold VGATERM_ADDR, VGATERM_WIDTH. induction n as [|n IH]; intros col row v Hc Hn; cbn [scroll_cols].
  - split; [done|]. intros i. by rewrite decide_False by lia.
  - set (v1 := put_cell _ _ v). destruct (IH (col + 1) row v1 ltac:(lia) ltac:(lia)) as [Hs Hi].
    split; [exact Hs|]. intros i. rewrite Hi. unfold v1. rewrite !get_put_cell, w16_get. unfold VGATERM_ADDR, VGATERM_WIDTH.
    destruct (decide (row * 80 + (col + 1) ≤ i < row * 80 + (col + 1) + Z.of_nat n)).
    + rewrite !decide_False, decide_True by lia. done.
    + destruct (decide (i = row * 80 + col)) as [->|].
      * rewrite decide_True by lia. f_equal. lia.
      * by rewrite decide_False by lia.
Qed.

Lemma scroll_rows_ok w n : Z.of_nat w = VGATERM_WIDTH → ∀ row v, 0 ≤ row →
  same_term v (scroll_rows w n row v) ∧ ∀ i, get_cell (scroll_rows w n row v) i =
    if decide (VGATERM_WIDTH * row ≤ i < VGATERM_WIDTH * (row + Z.of_nat n)) then get_cell v (i + VGATERM_WIDTH) else get_cell v i.
Proof.
  intros Hw. induction n as [|n IH]; intros row v Hr; cbn [scroll_rows].
  - split; [done|]. intros i. by rewrite decide_False by lia.
  - destruct (scroll_cols_ok w 0 row v ltac:(lia) ltac:(lia)) as [Hs1 H1].
    set (v1 := scroll_cols _ _ _ _) in *. clearbody v1. destruct (IH (row + 1) v1 ltac:(lia)) as [Hs2 H2].
    split; [destruct Hs1 as (?&?&?&?), Hs2 as (?&?&?&?); split_and!; congruence|].
    intros i. rewrite H2, !H1. unfold VGATERM_ADDR, VGATERM_WIDTH in *.
    destruct (decide (80 * (row + 1) ≤ i < 80 * (row + 1 + Z.of_nat n))).
    + rewrite decide_False, decide_True by lia. done.
    + destruct (decide (row * 80 + 0 ≤ i < row * 80 + 0 + Z.of_nat w)).
      * by rewrite decide_True by lia.
      * by rewrite decide_False by lia.
Qed.

Lemma fill_cols_ok n e : ∀ col row v,
  same_term v (fill_cols n col row e v) ∧ ∀ i, get_cell (fill_cols n col row e v) i =
    if decide (VGATERM_ADDR col row ≤ i < VGATERM_ADDR col row + Z.of_nat n) then w16 e else get_cell v i.
Proof.
  unfold VGATERM_ADDR. induction n as [|n IH]; intros col row v; cbn [fill_cols].
  - split; [done|]. intros i. by rewrite decide_False by lia.
  - set (v1 := put_cell _ _ v). destruct (IH (col + 1) row v1) as [Hs Hi].
    split; [exact Hs|]. intros i. rewrite Hi. unfold v1. rewrite get_put_cell. unfold VGATERM_ADDR.
    destruct (decide (row * VGATERM_WIDTH + (col + 1) ≤ i < row * VGATERM_WIDTH + (col + 1) + Z.of_nat n)).
    + by rewrite decide_True by lia.
    + destruct (decide (i = row * VGATERM_WIDTH + col)) as [->|].
      * by rewrite decide_True by lia.
      * by rewrite decide_False by lia.
Qed.

Lemma scroll_gen w h v : Z.of_nat w = VGATERM_WIDTH → Z.of_nat h = VGATERM_HEIGHT →
  same_term v (fill_cols w 0 VGATERM_HEIGHT 0 (scroll_rows w h 0 v)) ∧
  ∀ i, get_cell (fill_cols w 0 VGATERM_HEIGHT 0 (scroll_rows w h 0 v)) i =
    if decide (0 ≤ i < 2000) then get_cell v (i + 80) else if decide (2000 ≤ i < 2080) then 0 else get_cell v i.
Proof.
  intros Hw Hh. destruct (scroll_rows_ok w h Hw 0 v ltac:(lia)) as [(S1 & S2 & S3 & S4) C1].
  generalize dependent (scroll_rows w h 0 v). intros v1 S1 S2 S3 S4 C1.
  destruct (fill_cols_ok w 0 0 VGATERM_HEIGHT v1) as [(F1 & F2 & F3 & F4) C2].
  generalize dependent (fill_cols w 0 VGATERM_HEIGHT 0 v1). intros v2 F1 F2 F3 F4 C2.
  split; [split_and!; congruence|]. intros i. rewrite C2, C1. unfold VGATERM_ADDR, VGATERM_HEIGHT, VGATERM_WIDTH in *.
  rewrite Hw, Hh. change (w16 0) with 0. destruct (decide (0 ≤ i < 2000)).
  - rewrite decide_False, decide_True by lia. done.
  - destruct (decide (2000 ≤ i < 2080)); [by rewrite decide_True by lia|by rewrite !decide_False by lia].
Qed.
Lemma scroll_ok v :
  same_term v (vgaterm_scroll v) ∧ ∀ i, get_cell (vgaterm_scroll v) i =
    if decide (0 ≤ i < 2000) then get_cell v (i + 80) else if decide (2000 ≤ i < 2080) then 0 else get_cell v i.
Proof. exact (scroll_gen (Z.to_nat VGATERM_WIDTH) (Z.to_nat VGATERM_HEIGHT) v eq_refl eq_refl). Qed.
#[local] Opaque vgaterm_scroll.

(** ** What the code relies on: the cursor registers of the CRT controller

    A byte written to port 0x3D4 selects a register, one written to 0x3D5 goes
    into the selected register; registers 14 and 15 are the cursor position. *)
Class CrtPorts (D : Type) {PO : PortOps D} := {
  crt_index : D → Z;
  crt_reg : D → Z → Z;
  outb_index d v : wp (outb 0x3D4 v) d (λ _ d', crt_index d' = v ∧ crt_reg d' = crt_reg d);
  outb_data d v : wp (outb 0x3D5 v) d (λ _ d', crt_index d' = crt_index d ∧ crt_reg d' (crt_index d) = v ∧
    ∀ r, r ≠ crt_index d → crt_reg d' r = crt_reg d r);
}.
Definition crt_cursor {D : Type} {PO : PortOps D} {CP : CrtPorts D} (d : D) : Z := crt_reg d 0x0F + 2 ^ 8 * crt_reg d 0x0E.

Section proofs.
Context {D : Type} {PO : PortOps D} {CP : CrtPorts D}.
Implicit Types (t : term D) (v : vgaterm).

(** The cursor is on the screen. *)
Definition on_screen v : Prop := 0 ≤ vgaterm_x v < VGATERM_WIDTH ∧ 0 ≤ vgaterm_y v < VGATERM_HEIGHT.
Definition cursor v : Z := VGATERM_ADDR (vgaterm_x v) (vgaterm_y v).

Lemma wp_in_ports {A} (m : M D A) t (Q : A → term D → Prop) :
  wp m (t_ports t) (λ a d, Q a (Term d (t_vga t))) → wp (in_ports m) t Q.
Proof. unfold wp, in_ports. by destruct (m (t_ports t)) as [[]| | |]. Qed.

Lemma set_cursor_ok x y t : on_screen (t_vga t) →
  wp (vgaterm_set_cursor x y) t (λ _ t', t_vga t' = t_vga t ∧ crt_cursor (t_ports t') = cursor (t_vga t)).
Proof.
  intros [Hx Hy]. unfold VGATERM_WIDTH, VGATERM_HEIGHT in *. unfold vgaterm_set_cursor. apply wp_bind, wp_gets.
  fold (VGATERM_ADDR (vgaterm_x (t_vga t)) (vgaterm_y (t_vga t))). fold (cursor (t_vga t)).
  assert (0 ≤ cursor (t_vga t) < 2000) as Hc by (unfold cursor, VGATERM_ADDR, VGATERM_WIDTH; lia).
  rewrite w16_small by lia. set (p := cursor _) in *.
  apply wp_bind, wp_in_ports. eapply wp_mono; [apply outb_index|]. intros _ d1 [I1 R1].
  apply wp_bind, wp_in_ports. eapply wp_mono; [apply outb_data|]. cbn [t_ports]. intros _ d2 (I2 & V2 & R2).
  apply wp_bind, wp_in_ports. eapply wp_mono; [apply outb_index|]. cbn [t_ports]. intros _ d3 [I3 R3].
  apply wp_in_ports. eapply wp_mono; [apply outb_data|]. cbn [t_ports t_vga]. intros _ d4 (I4 & V4 & R4).
  split; [done|]. rewrite I1 in *. rewrite I3 in *. unfold crt_cursor. rewrite V4, R4, R3, V2 by lia.
  change 0xFF with (Z.ones 8). rewrite !Z.land_ones, Z.shiftr_div_pow2 by lia.
  rewrite (Z.mod_small (p / 2 ^ 8)).
  - pose proof (Z.div_mod p (2 ^ 8) ltac:(lia)). lia.
  - split; [apply Z.div_pos; lia|apply Z.div_lt_upper_bound; lia].
Qed.

Lemma newline_ok v : on_screen v →
  on_screen (vgaterm_newline v) ∧ vgaterm_x (vgaterm_newline v) = 0 ∧
  vgaterm_y (vgaterm_newline v) = Z.min (vgaterm_y v + 1) 24 ∧
  vgaterm_buf (vgaterm_newline v) = vgaterm_buf v ∧ vgaterm_color (vgaterm_newline v) = vgaterm_color v ∧
  ∀ i, get_cell (vgaterm_newline v) i =
    if decide (vgaterm_y v = 24 ∧ 0 ≤ i < 2000) then get_cell v (i + 80)
    else if decide (vgaterm_y v = 24 ∧ 2000 ≤ i < 2080) then 0 else get_cell v i.
Proof.
  intros [Hx Hy]. unfold vgaterm_newline, on_screen, VGATERM_HEIGHT, VGATERM_WIDTH in *.
  destruct (Z.eqb_spec (vgaterm_y v) (25 - 1)) as [He|He].
  - destruct (scroll_ok v) as [(S1 & S2 & S3 & S4) C].
    generalize dependent (vgaterm_scroll v). intros v1 S1 S2 S3 S4 C.
    cbn [vgaterm_x vgaterm_y vgaterm_buf vgaterm_color set_cursor_pos].
    rewrite S1, S3, S4. split_and!; try lia; try done. intros i.
    change (get_cell (set_cursor_pos 0 (vgaterm_y v) v1) i) with (get_cell v1 i). rewrite C.
    destruct (decide (0 ≤ i < 2000)); [by rewrite decide_True by lia|].
    rewrite (decide_False (P := vgaterm_y v = 24 ∧ 0 ≤ i < 2000)) by lia.
    destruct (decide (2000 ≤ i < 2080)); [by rewrite decide_True by lia|by rewrite decide_False by lia].
  - cbn [vgaterm_x vgaterm_y vgaterm_buf vgaterm_color set_cursor_pos]. rewrite w64_small by lia.
    split_and!; try lia; try done. intros i. rewrite !decide_False by lia. done.
Qed.

(** The cell after the cursor, from the last one back to the first. *)
Definition advance (x y : Z) : Z * Z :=
  if x =? 79 then (0, if y =? 24 then 0 else y + 1) else (x + 1, y).

Lemma putchar_ok c t : on_screen (t_vga t) →
  wp (vgaterm_putchar c) t (λ _ t',
    if c =? 10 then t' = set_vga (vgaterm_newline (t_vga t)) t else
    let '(x, y) := advance (vgaterm_x (t_vga t)) (vgaterm_y (t_vga t)) in
    t_vga t' = set_cursor_pos x y (put_cell (cursor (t_vga t)) (VGATERM_ENTRY c (vgaterm_color (t_vga t))) (t_vga t)) ∧
    on_screen (t_vga t') ∧ crt_cursor (t_ports t') = cursor (t_vga t')).
Proof.
  intros Hs. unfold vgaterm_putchar. destruct (Z.eqb_spec c 10); [by apply wp_modify|].
  apply wp_bind, wp_modify. apply wp_bind, wp_modify. cbn [t_vga set_vga]. apply wp_bind, wp_gets.
  set (v := t_vga t) in *. destruct (advance _ _) as [x y] eqn:Ea.
  unfold advance in Ea. destruct Hs as [Hx Hy]. unfold VGATERM_HEIGHT, VGATERM_WIDTH in *.
  set (v1 := put_cell _ _ _). change (vgaterm_x v1) with (vgaterm_x v). change (vgaterm_y v1) with (vgaterm_y v).
  rewrite !w64_small by lia. set (xy := if vgaterm_x v + 1 =? 80 then _ else _).
  assert (xy = (x, y)) as ->.
  { unfold xy. rewrite <- Ea. destruct (Z.eqb_spec (vgaterm_x v + 1) 80), (Z.eqb_spec (vgaterm_x v) 79); try lia; [|done].
    f_equal. destruct (Z.eqb_spec (vgaterm_y v + 1) 25), (Z.eqb_spec (vgaterm_y v) 24); lia. }
  assert (on_screen (set_cursor_pos x y v1)) as Hs1.
  { unfold on_screen, VGATERM_HEIGHT, VGATERM_WIDTH. cbn [vgaterm_x vgaterm_y set_cursor_pos].
    destruct (vgaterm_x v =? 79) eqn:E1; [destruct (vgaterm_y v =? 24) eqn:E2|]; injection Ea as <- <-; lia. }
  eapply wp_mono; [apply set_cursor_ok; exact Hs1|]. cbn [t_vga set_vga]. intros _ t' [-> Hc]. done.
Qed.

(** Memory outside the 26 rows from the start of the buffer. *)
Definition outside v (a : Z) : Prop := ¬ (vgaterm_buf v ≤ a < vgaterm_buf v + 2 * (80 * 26)).

(** A byte belongs to a cell. *)
Lemma cells_bytes v v' :
  vgaterm_buf v' = vgaterm_buf v → (∀ i, ¬ (0 ≤ i < 80 * 26) → get_cell v' i = get_cell v i) →
  ∀ a, outside v a → ld8 (vga_mem v') a = ld8 (vga_mem v) a.
Proof.
  intros Hb Hc a Ha. unfold outside in Ha. set (i := (a - vgaterm_buf v) / 2).
  pose proof (Z.div_mod (a - vgaterm_buf v) 2 ltac:(lia)) as Hd. fold i in Hd.
  pose proof (Z.mod_pos_bound (a - vgaterm_buf v) 2 ltac:(lia)).
  specialize (Hc i ltac:(lia)). unfold get_cell, ld16 in Hc. rewrite Hb in Hc. cbn [ld] in Hc.
  pose proof (ld8_range (vga_mem v) (vgaterm_buf v + 2 * i)). pose proof (ld8_range (vga_mem v') (vgaterm_buf v + 2 * i)).
  destruct (decide ((a - vgaterm_buf v) mod 2 = 0)).
  - replace a with (vgaterm_buf v + 2 * i) by lia. lia.
  - replace a with (vgaterm_buf v + 2 * i + 1) by lia. lia.
Qed.

Lemma putchar_cells c t : on_screen (t_vga t) →
  wp (vgaterm_putchar c) t (λ _ t', on_screen (t_vga t') ∧ vgaterm_buf (t_vga t') = vgaterm_buf (t_vga t) ∧
    ∀ a, outside (t_vga t) a → ld8 (vga_mem (t_vga t')) a = ld8 (vga_mem (t_vga t)) a).
Proof.
  intros Hs. eapply wp_mono; [by apply putchar_ok|]. cbn beta. intros _ t' H. destruct (Z.eqb_spec c 10).
  - subst t'. cbn [t_vga set_vga]. destruct (newline_ok (t_vga t) Hs) as (H1 & _ & _ & H2 & _ & H3).
    split; [done|]. split; [done|]. apply cells_bytes; [done|]. intros i Hi. rewrite H3.
    by rewrite !decide_False by lia.
  - destruct (advance _ _) as [x y]. destruct H as (Hv & Hs' & _). split; [done|]. rewrite Hv.
    split; [done|]. apply cells_bytes; [done|]. intros i Hi.
    change (get_cell (set_cursor_pos x y (put_cell (cursor (t_vga t)) (VGATERM_ENTRY c (vgaterm_color (t_vga t))) (t_vga t))) i)
      with (get_cell (put_cell (cursor (t_vga t)) (VGATERM_ENTRY c (vgaterm_color (t_vga t))) (t_vga t)) i).
    rewrite get_put_cell, decide_False; [done|]. destruct Hs as [Hx Hy].
    unfold cursor, VGATERM_ADDR, VGATERM_WIDTH, VGATERM_HEIGHT in *. lia.
Qed.

(** a character other than a newline goes, with the current colour, into
    the cell at the cursor and into no other, the cursor moves on (from the last
    cell back to the first) and the hardware cursor follows; a newline moves to
    the start of the next line, and on the last line scrolls: every row takes
    the contents of the next one, where the last row takes the row behind the
    screen, which is cleared. *)
Theorem vgaterm_putchar_spec (c : Z) t (Hs : on_screen (t_vga t)) :
  let v := t_vga t in
  ∃ t', vgaterm_putchar c t = Ok (tt, t') ∧ on_screen (t_vga t') ∧
    let v' := t_vga t' in
    if c =? 10 then
      vgaterm_x v' = 0 ∧ vgaterm_y v' = Z.min (vgaterm_y v + 1) 24 ∧
      (vgaterm_y v < 24 → ∀ i, get_cell v' i = get_cell v i) ∧
      (vgaterm_y v = 24 → ∀ row col, 0 ≤ row ≤ 25 → 0 ≤ col < 80 →
        cell v' row col = if row =? 25 then 0 else cell v (row + 1) col)
    else
      (∀ i, get_cell v' i = if decide (i = cursor v) then VGATERM_ENTRY c (vgaterm_color v) else get_cell v i) ∧
      (vgaterm_x v', vgaterm_y v') = advance (vgaterm_x v) (vgaterm_y v) ∧
      crt_cursor (t_ports t') = cursor v'.
Proof.
  intros v. destruct (proj1 (wp_run _ _ _) (putchar_ok c t Hs)) as ([] & t' & Hr & H). exists t'. split; [done|].
  fold v in H. destruct (Z.eqb_spec c 10).
  - subst t'. cbn [t_vga set_vga]. destruct (newline_ok v Hs) as (H1 & H2 & H3 & _ & _ & H4).
    split; [done|]. split; [done|]. split; [done|]. split.
    + intros Hy i. by rewrite H4, !decide_False by lia.
    + intros Hy row col Hrow Hcol. unfold cell. rewrite H4. unfold VGATERM_ADDR, VGATERM_WIDTH.
      destruct (Z.eqb_spec row 25) as [->|].
      * by rewrite decide_False, decide_True by lia.
      * rewrite decide_True by lia. f_equal. lia.
  - destruct (advance _ _) as [x y]. destruct H as (Hv & Hs' & Hc). split; [done|]. split; [|split; [|done]].
    + intros i. rewrite Hv.
      change (get_cell (set_cursor_pos x y (put_cell (cursor v) (VGATERM_ENTRY c (vgaterm_color v)) v)) i)
        with (get_cell (put_cell (cursor v) (VGATERM_ENTRY c (vgaterm_color v)) v) i).
      rewrite get_put_cell. case_decide; [|done]. unfold VGATERM_ENTRY. unfold w16. by rewrite Z.mod_mod.
    + by rewrite Hv.
Qed.

(** whatever is printed, and in whatever colour, [vgaterm_print] finishes
    with the cursor on the screen and writes no byte outside the screen's 25
    rows and the one row behind them that scrolling uses. *)
Theorem vgaterm_print_safe (s : list Z) t (Hs : on_screen (t_vga t)) :
  ∃ t', vgaterm_print s t = Ok (tt, t') ∧ on_screen (t_vga t') ∧
    ∀ a, outside (t_vga t) a → ld8 (vga_mem (t_vga t')) a = ld8 (vga_mem (t_vga t)) a.
Proof.
  enough (∀ t, on_screen (t_vga t) → wp (vgaterm_print s) t (λ _ t', on_screen (t_vga t') ∧
    ∀ a, outside (t_vga t) a → ld8 (vga_mem (t_vga t')) a = ld8 (vga_mem (t_vga t)) a)) as H.
  { destruct (proj1 (wp_run _ _ _) (H t Hs)) as ([] & t' & H'). by exists t'. }
  clear t Hs. induction s as [|c s IH]; intros t Hs; cbn [vgaterm_print]; [by apply wp_ret|].
  apply wp_bind. eapply wp_mono; [by apply putchar_cells|]. intros _ t1 (Hs1 & Hb1 & Ho1).
  eapply wp_mono; [by apply IH|]. intros _ t2 (Hs2 & Ho2). split; [done|].
  intros a Ha. rewrite Ho2 by (unfold outside in *; by rewrite Hb1). by apply Ho1.
Qed.
End proofs.

(** A CRT controller, and a cleared terminal. *)
Record crt := Crt { c_index : Z; c_reg : Z → Z }.
#[export] Instance crt_ports_ops : PortOps crt := {
  inb _ := mret_ 0;
  outb p v := modify (λ d,
    if p =? 0x3D4 then Crt v (c_reg d)
    else if p =? 0x3D5 then Crt (c_index d) (λ r, if r =? c_index d then v else c_reg d r) else d);
  inw _ := mret_ 0;
  outw _ _ := mret_ tt;
}.
#[export] Instance crt_crt_ports : CrtPorts crt.
Proof.
  refine {| crt_index := c_index; crt_reg := c_reg |}.
  - intros d v. by apply wp_modify.
  - intros d v. apply wp_modify. simpl. rewrite Z.eqb_refl. split_and!; try done.
    intros r Hr. by destruct (Z.eqb_spec r (c_index d)).
Defined.
Definition ex_term (x y : Z) : term crt := Term (Crt 0 (λ _, 0)) (Vgaterm ∅ y x 7 VGATERM_BUF_START).

Lemma vgaterm_putchar_spec_witness : ∃ t',
  vgaterm_putchar 65 (ex_term 79 24) = Ok (tt, t') ∧ cell (t_vga t') 24 79 = 65 + 7 * 256 ∧ crt_cursor (t_ports t') = 0.
Proof.
  destruct (vgaterm_putchar_spec 65 (ex_term 79 24) ltac:(split; vm_compute; done)) as (t' & H & _ & Hc & Hx & Hp).
  exists t'. split; [exact H|]. split; [unfold cell; rewrite Hc; vm_compute; reflexivity|].
  rewrite Hp. unfold cursor. injection Hx as -> ->. vm_compute. reflexivity.
Defined.
Lemma vgaterm_print_safe_witness : ∃ t', vgaterm_print [72; 105; 10] (ex_term 0 24) = Ok (tt, t') ∧ on_screen (t_vga t').
Proof.
  destruct (vgaterm_print_safe [72; 105; 10] (ex_term 0 24) ltac:(split; vm_compute; done)) as (t' & H & Hs & _).
  exists t'. split; [exact H|exact Hs].
Defined.
