(* ===== verification/Tty.v ===== *)
(** The keyboard and the terminal: [drivers/ps2.c] and [kernel/tty.c].

    The console is the screen ([Vga]), the keyboard's ports, the kernel heap and
    its memory with the [struct tty], and the driver's [release] flag.  Its code
    runs inside the scheduler's state ([Sched]), since reading sleeps and the
    enter key wakes.  A read is two steps: up to [schedule_sleep], and from there on when the
    task is resumed. *)

From Stdlib Require Import Ascii.
From S2P Require Import Prelude Layout Memory Kmalloc Printf Sched Ata Vga.

(** [enum ps2_key] of [include/ps2.h]. *)
Inductive ps2_key : Set :=
  | KEY_RESERVED | KEY_ESC | KEY_1 | KEY_2 | KEY_3 | KEY_4 | KEY_5 | KEY_6
  | KEY_7 | KEY_8 | KEY_9 | KEY_0 | KEY_MINUS | KEY_EQUAL | KEY_BACKSPACE | KEY_TAB
  | KEY_Q | KEY_W | KEY_E | KEY_R | KEY_T | KEY_Y | KEY_U | KEY_I
  | KEY_O | KEY_P | KEY_LEFTBRACE | KEY_RIGHTBRACE | KEY_ENTER | KEY_LEFTCTRL | KEY_A | KEY_S
  | KEY_D | KEY_F | KEY_G | KEY_H | KEY_J | KEY_K | KEY_L | KEY_SEMICOLON
  | KEY_APOSTROPHE | KEY_GRAVE | KEY_LEFTSHIFT | KEY_BACKSLASH | KEY_Z | KEY_X | KEY_C | KEY_V
  | KEY_B | KEY_N | KEY_M | KEY_COMMA | KEY_DOT | KEY_SLASH | KEY_RIGHTSHIFT | KEY_KPASTERISK
  | KEY_LEFTALT | KEY_SPACE | KEY_CAPSLOCK | KEY_F1 | KEY_F2 | KEY_F3 | KEY_F4 | KEY_F5
  | KEY_F6 | KEY_F7 | KEY_F8 | KEY_F9 | KEY_F10 | KEY_NUMLOCK | KEY_SCROLLLOCK | KEY_KP7
  | KEY_KP8 | KEY_KP9 | KEY_KPMINUS | KEY_KP4 | KEY_KP5 | KEY_KP6 | KEY_KPPLUS | KEY_KP1
  | KEY_KP2 | KEY_KP3 | KEY_KP0 | KEY_KPDOT | KEY_102ND | KEY_F11 | KEY_F12 | KEY_RO
  | KEY_KPENTER | KEY_RIGHTCTRL | KEY_KPSLASH | KEY_SYSRQ | KEY_RIGHTALT | KEY_HOME | KEY_UP | KEY_PAGEUP
  | KEY_LEFT | KEY_RIGHT | KEY_END | KEY_DOWN | KEY_PAGEDOWN | KEY_INSERT | KEY_DELETE | KEY_PAUSE
  | KEY_LEFTMETA | KEY_RIGHTMETA | KEY_COMPOSE.

Definition key_code (k : ps2_key) : Z :=
  match k with
  | KEY_RESERVED => 0 | KEY_ESC => 1 | KEY_1 => 2 | KEY_2 => 3 | KEY_3 => 4 | KEY_4 => 5
  | KEY_5 => 6 | KEY_6 => 7 | KEY_7 => 8 | KEY_8 => 9 | KEY_9 => 10 | KEY_0 => 11
  | KEY_MINUS => 12 | KEY_EQUAL => 13 | KEY_BACKSPACE => 14 | KEY_TAB => 15 | KEY_Q => 16 | KEY_W => 17
  | KEY_E => 18 | KEY_R => 19 | KEY_T => 20 | KEY_Y => 21 | KEY_U => 22 | KEY_I => 23
  | KEY_O => 24 | KEY_P => 25 | KEY_LEFTBRACE => 26 | KEY_RIGHTBRACE => 27 | KEY_ENTER => 28 | KEY_LEFTCTRL => 29
  | KEY_A => 30 | KEY_S => 31 | KEY_D => 32 | KEY_F => 33 | KEY_G => 34 | KEY_H => 35
  | KEY_J => 36 | KEY_K => 37 | KEY_L => 38 | KEY_SEMICOLON => 39 | KEY_APOSTROPHE => 40 | KEY_GRAVE => 41
  | KEY_LEFTSHIFT => 42 | KEY_BACKSLASH => 43 | KEY_Z => 44 | KEY_X => 45 | KEY_C => 46 | KEY_V => 47
  | KEY_B => 48 | KEY_N => 49 | KEY_M => 50 | KEY_COMMA => 51 | KEY_DOT => 52 | KEY_SLASH => 53
  | KEY_RIGHTSHIFT => 54 | KEY_KPASTERISK => 55 | KEY_LEFTALT => 56 | KEY_SPACE => 57 | KEY_CAPSLOCK => 58 | KEY_F1 => 59
  | KEY_F2 => 60 | KEY_F3 => 61 | KEY_F4 => 62 | KEY_F5 => 63 | KEY_F6 => 64 | KEY_F7 => 65
  | KEY_F8 => 66 | KEY_F9 => 67 | KEY_F10 => 68 | KEY_NUMLOCK => 69 | KEY_SCROLLLOCK => 70 | KEY_KP7 => 71
  | KEY_KP8 => 72 | KEY_KP9 => 73 | KEY_KPMINUS => 74 | KEY_KP4 => 75 | KEY_KP5 => 76 | KEY_KP6 => 77
  | KEY_KPPLUS => 78 | KEY_KP1 => 79 | KEY_KP2 => 80 | KEY_KP3 => 81 | KEY_KP0 => 82 | KEY_KPDOT => 83
  | KEY_102ND => 84 | KEY_F11 => 85 | KEY_F12 => 86 | KEY_RO => 87 | KEY_KPENTER => 88 | KEY_RIGHTCTRL => 89
  | KEY_KPSLASH => 90 | KEY_SYSRQ => 91 | KEY_RIGHTALT => 92 | KEY_HOME => 93 | KEY_UP => 94 | KEY_PAGEUP => 95
  | KEY_LEFT => 96 | KEY_RIGHT => 97 | KEY_END => 98 | KEY_DOWN => 99 | KEY_PAGEDOWN => 100 | KEY_INSERT => 101
  | KEY_DELETE => 102 | KEY_PAUSE => 103 | KEY_LEFTMETA => 104 | KEY_RIGHTMETA => 105 | KEY_COMPOSE => 106
  end.

(** From scan codes (set 2) to keys; the table is of bytes, and one entry is no
    key. *)
Definition sc_map : list Z :=
  [
   (* 00 *) key_code KEY_RESERVED; key_code KEY_F9; key_code KEY_RESERVED; key_code KEY_F5; key_code KEY_F3; key_code KEY_F1; key_code KEY_F2; key_code KEY_F12;
   (* 08 *) key_code KEY_ESC; key_code KEY_F10; key_code KEY_F8; key_code KEY_F6; key_code KEY_F4; key_code KEY_TAB; key_code KEY_GRAVE; key_code KEY_F2;
   (* 10 *) key_code KEY_RESERVED; key_code KEY_LEFTALT; key_code KEY_LEFTSHIFT; key_code KEY_RESERVED; key_code KEY_LEFTCTRL; key_code KEY_Q; key_code KEY_1; key_code KEY_F3;
   (* 18 *) key_code KEY_RESERVED; key_code KEY_LEFTALT; key_code KEY_Z; key_code KEY_S; key_code KEY_A; key_code KEY_W; key_code KEY_2; key_code KEY_F4;
   (* 20 *) key_code KEY_RESERVED; key_code KEY_C; key_code KEY_X; key_code KEY_D; key_code KEY_E; key_code KEY_4; key_code KEY_3; key_code KEY_F5;
   (* 28 *) key_code KEY_RESERVED; key_code KEY_SPACE; key_code KEY_V; key_code KEY_F; key_code KEY_T; key_code KEY_R; key_code KEY_5; key_code KEY_F6;
   (* 30 *) key_code KEY_RESERVED; key_code KEY_N; key_code KEY_B; key_code KEY_H; key_code KEY_G; key_code KEY_Y; key_code KEY_6; key_code KEY_F7;
   (* 38 *) key_code KEY_RESERVED; key_code KEY_RIGHTALT; key_code KEY_M; key_code KEY_J; key_code KEY_U; key_code KEY_7; key_code KEY_8; key_code KEY_F8;
   (* 40 *) key_code KEY_RESERVED; key_code KEY_COMMA; key_code KEY_K; key_code KEY_I; key_code KEY_O; key_code KEY_0; key_code KEY_9; key_code KEY_F9;
   (* 48 *) key_code KEY_RESERVED; key_code KEY_DOT; key_code KEY_SLASH; key_code KEY_L; key_code KEY_SEMICOLON; key_code KEY_P; key_code KEY_MINUS; key_code KEY_F10;
   (* 50 *) key_code KEY_RESERVED; key_code KEY_RESERVED; key_code KEY_APOSTROPHE; key_code KEY_RESERVED; key_code KEY_LEFTBRACE; key_code KEY_EQUAL; key_code KEY_F11; key_code KEY_SYSRQ;
   (* 58 *) key_code KEY_CAPSLOCK; key_code KEY_RIGHTSHIFT; key_code KEY_ENTER; key_code KEY_RIGHTBRACE; key_code KEY_BACKSLASH; key_code KEY_BACKSLASH; key_code KEY_F12; key_code KEY_SCROLLLOCK;
   (* 60 *) key_code KEY_DOWN; key_code KEY_102ND; key_code KEY_PAUSE; key_code KEY_UP; key_code KEY_DELETE; key_code KEY_END; key_code KEY_BACKSPACE; key_code KEY_INSERT;
   (* 68 *) key_code KEY_RESERVED; key_code KEY_KP1; key_code KEY_RIGHT; key_code KEY_KP4; key_code KEY_KP7; key_code KEY_PAGEDOWN; key_code KEY_HOME; key_code KEY_PAGEUP;
   (* 70 *) key_code KEY_KP0; key_code KEY_KPDOT; key_code KEY_KP2; key_code KEY_KP5; key_code KEY_KP6; key_code KEY_KP8; key_code KEY_ESC; key_code KEY_NUMLOCK;
   (* 78 *) key_code KEY_F11; key_code KEY_KPPLUS; key_code KEY_KP3; key_code KEY_KPMINUS; key_code KEY_KPASTERISK; key_code KEY_KP9; key_code KEY_SCROLLLOCK; key_code KEY_102ND;
   (* 80 *) key_code KEY_RESERVED; key_code KEY_RESERVED; key_code KEY_RESERVED; key_code KEY_RESERVED; key_code KEY_RESERVED; key_code KEY_RESERVED; key_code KEY_RESERVED; key_code KEY_RESERVED;
   (* 88 *) key_code KEY_RESERVED; key_code KEY_RESERVED; key_code KEY_RESERVED; key_code KEY_RESERVED; key_code KEY_RESERVED; key_code KEY_RESERVED; key_code KEY_RESERVED; key_code KEY_RESERVED;
   (* 90 *) key_code KEY_RESERVED; key_code KEY_RIGHTALT; 255; key_code KEY_RESERVED; key_code KEY_RIGHTCTRL; key_code KEY_RESERVED; key_code KEY_RESERVED; key_code KEY_RESERVED;
   (* 98 *) key_code KEY_RESERVED; key_code KEY_RESERVED; key_code KEY_RESERVED; key_code KEY_RESERVED; key_code KEY_RESERVED; key_code KEY_CAPSLOCK; key_code KEY_RESERVED; key_code KEY_LEFTMETA;
   (* a0 *) key_code KEY_RESERVED; key_code KEY_RESERVED; key_code KEY_RESERVED; key_code KEY_RESERVED; key_code KEY_RESERVED; key_code KEY_RESERVED; key_code KEY_RESERVED; key_code KEY_RIGHTMETA;
   (* a8 *) key_code KEY_RESERVED; key_code KEY_RESERVED; key_code KEY_RESERVED; key_code KEY_RESERVED; key_code KEY_RESERVED; key_code KEY_RESERVED; key_code KEY_RESERVED; key_code KEY_COMPOSE;
   (* b0 *) key_code KEY_RESERVED; key_code KEY_RESERVED; key_code KEY_RESERVED; key_code KEY_RESERVED; key_code KEY_RESERVED; key_code KEY_RESERVED; key_code KEY_RESERVED; key_code KEY_RESERVED;
   (* b8 *) key_code KEY_RESERVED; key_code KEY_RESERVED; key_code KEY_RESERVED; key_code KEY_RESERVED; key_code KEY_RESERVED; key_code KEY_RESERVED; key_code KEY_RESERVED; key_code KEY_RESERVED;
   (* c0 *) key_code KEY_RESERVED; key_code KEY_RESERVED; key_code KEY_RESERVED; key_code KEY_RESERVED; key_code KEY_RESERVED; key_code KEY_RESERVED; key_code KEY_RESERVED; key_code KEY_RESERVED;
   (* c8 *) key_code KEY_RESERVED; key_code KEY_RESERVED; key_code KEY_KPSLASH; key_code KEY_RESERVED; key_code KEY_RESERVED; key_code KEY_RESERVED; key_code KEY_RESERVED; key_code KEY_RESERVED;
   (* d0 *) key_code KEY_RESERVED; key_code KEY_RESERVED; key_code KEY_RESERVED; key_code KEY_RESERVED; key_code KEY_RESERVED; key_code KEY_RESERVED; key_code KEY_RESERVED; key_code KEY_RESERVED;
   (* d8 *) key_code KEY_RESERVED; key_code KEY_RESERVED; key_code KEY_KPENTER; key_code KEY_RESERVED; key_code KEY_RESERVED; key_code KEY_RESERVED; key_code KEY_RESERVED; key_code KEY_RESERVED;
   (* e0 *) key_code KEY_RESERVED; key_code KEY_RESERVED; key_code KEY_RESERVED; key_code KEY_RESERVED; key_code KEY_RESERVED; key_code KEY_RESERVED; key_code KEY_RESERVED; key_code KEY_RESERVED;
   (* e8 *) key_code KEY_RESERVED; key_code KEY_END; key_code KEY_RESERVED; key_code KEY_LEFT; key_code KEY_HOME; key_code KEY_RESERVED; key_code KEY_RESERVED; key_code KEY_RESERVED;
   (* f0 *) key_code KEY_INSERT; key_code KEY_DELETE; key_code KEY_DOWN; key_code KEY_RESERVED; key_code KEY_RIGHT; key_code KEY_UP; key_code KEY_RESERVED; key_code KEY_PAUSE;
   (* f8 *) key_code KEY_RESERVED; key_code KEY_RESERVED; key_code KEY_PAGEDOWN; key_code KEY_RESERVED; key_code KEY_SYSRQ; key_code KEY_PAGEUP; key_code KEY_RESERVED; key_code KEY_RESERVED].

(** [key_map]: the characters of keys; 0 where nothing is given. *)
Definition key_chars : list (Z * Z) :=
  [(key_code KEY_A, 97); (key_code KEY_B, 98); (key_code KEY_C, 99); (key_code KEY_D, 100); (key_code KEY_E, 101);
   (key_code KEY_F, 102); (key_code KEY_G, 103); (key_code KEY_H, 104); (key_code KEY_I, 105); (key_code KEY_J, 106);
   (key_code KEY_K, 107); (key_code KEY_L, 108); (key_code KEY_M, 109); (key_code KEY_N, 110); (key_code KEY_O, 111);
   (key_code KEY_P, 112); (key_code KEY_Q, 113); (key_code KEY_R, 114); (key_code KEY_S, 115); (key_code KEY_T, 116);
   (key_code KEY_U, 117); (key_code KEY_V, 118); (key_code KEY_W, 119); (key_code KEY_X, 120); (key_code KEY_Y, 121);
   (key_code KEY_Z, 122); (key_code KEY_1, 49); (key_code KEY_2, 50); (key_code KEY_3, 51); (key_code KEY_4, 52);
   (key_code KEY_5, 53); (key_code KEY_6, 54); (key_code KEY_7, 55); (key_code KEY_8, 56); (key_code KEY_9, 57);
   (key_code KEY_SPACE, 32); (key_code KEY_SEMICOLON, 59); (key_code KEY_ENTER, 10); (key_code KEY_SLASH, 47)].
Fixpoint assoc (l : list (Z * Z)) (key : Z) : Z :=
  match l with
  | [] => 0
  | (k, c) :: l' => if key =? k then c else assoc l' key
  end.
Definition key_map (key : Z) : Z := assoc key_chars key.

Definition PS2_DATA : Z := 0x60.
Definition PS2_COMMAND : Z := 0x64.
Definition PS2_STATUS : Z := 0x64.
Definition TTY_BUF_SIZE : Z := 1024.

(** [struct tty] *)
Definition tty : layout := [u32 "bufi"; arr "buf" 1 TTY_BUF_SIZE; u64 "waiting_task"; u64 "stdin"; u64 "stdout"].
Definition sizeof_tty : Z := Eval vm_compute in sizeof false tty.
(** [struct file] *)
Definition file_l : layout := [u64 "ops"; u32 "ino"; u32 "refcnt"].
Definition sizeof_file : Z := Eval vm_compute in sizeof false file_l.

(** ** The console *)
Section code.
Context {D : Type} {PO : PortOps D}.

Record console := Console {
  c_term : term D; c_mem : mem; c_base : Z; c_brk : Z; release : bool; global_tty : Z
}.
Definition set_c_term t c := Console t (c_mem c) (c_base c) (c_brk c) (release c) (global_tty c).
Definition set_c_mem m c := Console (c_term c) m (c_base c) (c_brk c) (release c) (global_tty c).
Definition set_release b c := Console (c_term c) (c_mem c) (c_base c) (c_brk c) b (global_tty c).
Definition set_global_tty g c := Console (c_term c) (c_mem c) (c_base c) (c_brk c) (release c) g.

(** The kernel heap in the memory of the console. *)
Definition c_heap (c : console) : heap := Heap (c_mem c) (c_base c) (c_brk c).
Definition set_c_heap (h : heap) (c : console) : console :=
  Console (c_term c) (h_mem h) (heap_base h) (kernel_brk h) (release c) (global_tty c).

Definition in_term {A} (m : M (term D) A) : M console A := λ c,
  match m (c_term c) with
  | Ok (a, t) => Ok (a, set_c_term t c)
  | Panic msg => Panic msg
  | Fault => Fault
  | NoFuel => NoFuel
  end.

Context {TO : TaskOps console}.
(** Fuel for strings that are printed, and how often a status port is polled. *)
Variables sfuel spin : nat.
(** The addresses of [stdin_ops] and [stdout_ops]. *)
Variables stdin_ops stdout_ops : Z.

Definition getc {A} (f : console → A) : M (sched console) A := gets (λ s, f (env s)).
Definition setc (f : console → console) : M (sched console) unit := in_env (modify f).
Definition port {A} (m : M D A) : M (sched console) A := in_env (in_term (in_ports m)).

Definition tty_bufi (c : console) : Z := s32 (ld32 (c_mem c) (global_tty c + field_of false tty "bufi")).
Definition tty_buf (c : console) : Z := global_tty c + field_of false tty "buf".
Definition tty_waiting (c : console) : Z := ld64 (c_mem c) (global_tty c + field_of false tty "waiting_task").
Definition set_bufi (v : Z) (c : console) : console :=
  set_c_mem (st32 (c_mem c) (global_tty c + field_of false tty "bufi") v) c.
Definition set_waiting (v : Z) (c : console) : console :=
  set_c_mem (st64 (c_mem c) (global_tty c + field_of false tty "waiting_task") v) c.
Definition put_char (i v : Z) (c : console) : console := set_c_mem (st8 (c_mem c) (tty_buf c + i) v) c.

(** [printf] on the terminal; [%s] reads the memory. *)
Definition printf (fmt va : list Z) : M (sched console) Z :=
  in_env (printf_ (λ c a, ld8 (c_mem c) a) (λ ch, in_term (_putchar ch)) sfuel fmt va).

(** ** [kernel/tty.c] *)
Definition stdout_write (f buf n : Z) : M (sched console) Z :=
  let* r := printf (bytes "%.*s") [n; buf] in mret_ (w64 r).

(** [stdin_read], up to the call of [schedule_sleep] ... *)
Definition stdin_read (f buf n : Z) : M (sched console) unit :=
  let* w := getc tty_waiting in
  if negb (w =? 0) then panic "tty cannot manage >1 waiting task" else
  let* cur := gets current in
  setc (set_waiting cur) ;;*
  schedule_sleep.
(** ... and after it, when the task runs again. *)
Definition stdin_read_resumed (f buf n : Z) : M (sched console) Z :=
  let* b := getc (λ c, w64 (tty_bufi c)) in
  let nbytes := if n <? b then n else b in
  setc (λ c, set_c_mem (memcpy (c_mem c) buf (tty_buf c) nbytes) c) ;;*
  setc (set_bufi 0) ;;*
  mret_ nbytes.

Definition tty_init : M (sched console) unit :=
  let* g := in_env (t_kcalloc sizeof_tty) in
  setc (set_global_tty g) ;;*
  let* f := in_env (t_kcalloc sizeof_file) in
  setc (λ c, set_c_mem (st64 (c_mem c) (global_tty c + field_of false tty "stdin") f) c) ;;*
  modify (λ s, set_files (<[f := File stdin_ops 0 1]> (files s)) s) ;;*
  let* f := in_env (t_kcalloc sizeof_file) in
  setc (λ c, set_c_mem (st64 (c_mem c) (global_tty c + field_of false tty "stdout") f) c) ;;*
  modify (λ s, set_files (<[f := File stdout_ops 0 1]> (files s)) s).

Definition tty_send_key (key : Z) : M (sched console) unit :=
  let* b := getc tty_bufi in
  if TTY_BUF_SIZE <? b then panic "tty buf exceeded" else
  let c := key_map key in
  setc (put_char b c) ;;*
  setc (set_bufi (b + 1)) ;;*
  (if key =? key_code KEY_ENTER then
     let* w := getc tty_waiting in
     if negb (w =? 0) then
       sched_rr_insert_proc w ;;*
       setc (set_waiting 0)
     else mret_ tt
   else mret_ tt) ;;*
  printf (bytes "%c") [c] ;;*
  mret_ tt.

Definition tty_install_stdin_stdout (t : Z) : M (sched console) unit :=
  let* f := getc (λ c, ld64 (c_mem c) (global_tty c + field_of false tty "stdin")) in
  tset (λ x, set_fdtab (<[0%nat := f]> (fdtab x)) x) t ;;*
  let* f := getc (λ c, ld64 (c_mem c) (global_tty c + field_of false tty "stdout")) in
  tset (λ x, set_fdtab (<[1%nat := f]> (fdtab x)) x) t.

(** ** [drivers/ps2.c] *)
Fixpoint ps2_wait_ready (fuel : nat) : M (sched console) unit :=
  match fuel with
  | O => nofuel
  | S fuel' =>
      let* st := port (inb PS2_STATUS) in
      if Z.land st 1 =? 0 then ps2_wait_ready fuel' else mret_ tt
  end.

Definition ps2_key_in : M (sched console) unit :=
  let* data := port (inb PS2_DATA) in
  let* rel := getc release in
  if rel then setc (set_release false) else
  if data =? 0xf0 then setc (set_release true) else
  let* key := from_opt (sc_map !! Z.to_nat data) in
  tty_send_key key.

Definition ps2_init : M (sched console) unit :=
  port (outb PS2_COMMAND 0xAD) ;;*
  port (outb PS2_COMMAND 0xA7) ;;*
  port (inb PS2_DATA) ;;*
  port (outb PS2_COMMAND 0xAA) ;;*
  ps2_wait_ready spin ;;*
  let* r := port (inb PS2_DATA) in
  if negb (r =? 0x55) then panic "PS2 selftest failed" else
  port (outb PS2_COMMAND 0xAE) ;;*
  let* config := port (inb 0x20) in
  let config := w8 (Z.lor config 1) in
  port (outb PS2_COMMAND 0x60) ;;*
  port (outb PS2_DATA config).
End code.
Arguments console D : clear implicits.

(** ** What the code relies on: the keyboard controller

    Reading port 0x60 takes the next byte of the keyboard; the ports of the
    screen do not touch it. *)
Class KbdPorts (D : Type) {PO : PortOps D} {CP : CrtPorts D} := {
  kbd : D → list Z;
  inb_kbd d b l : kbd d = b :: l → wp (inb PS2_DATA) d (λ v d', v = b ∧ kbd d' = l);
  outb_kbd d p v : p = 0x3D4 ∨ p = 0x3D5 → wp (outb p v) d (λ _ d', kbd d' = kbd d);
}.

Lemma wp_repeat_app {S} n k (m : M S unit) s Q :
  wp (repeat_m n m) s (λ _ s', wp (repeat_m k m) s' Q) → wp (repeat_m (n + k) m) s Q.
Proof.
  revert s. induction n as [|n IH]; intros s H; [exact H|]. cbn [repeat_m Nat.add] in *.
  apply wp_bind_inv in H. apply wp_bind. eapply wp_mono; [exact H|]. intros a s'. apply IH.
Qed.

Section proofs.
Context {D : Type} {PO : PortOps D} {CP : CrtPorts D} {KP : KbdPorts D} {TO : TaskOps (console D)}.
Variables sfuel : nat.
Implicit Types (s : sched (console D)) (c : console D).

Lemma wp_in_term {A} (m : M (term D) A) c Q :
  wp m (c_term c) (λ a t, Q a (set_c_term t c)) → wp (in_term m) c Q.
Proof. unfold wp, in_term. by destruct (m (c_term c)) as [[]| | |]. Qed.
Lemma wp_getc {A} (f : console D → A) s Q : Q (f (env s)) s → wp (getc f) s Q.
Proof. done. Qed.
Lemma wp_setc f s Q : Q tt (set_env (f (env s)) s) → wp (setc f) s Q.
Proof. intros H. unfold setc. by apply wp_in_env, wp_modify. Qed.


(** The keyboard as the console sees it. *)
Definition keys_left c : list Z := kbd (t_ports (c_term c)).

Lemma set_cursor_kbd x y (t : term D) :
  wp (vgaterm_set_cursor x y) t (λ _ t', kbd (t_ports t') = kbd (t_ports t)).
Proof.
  unfold vgaterm_set_cursor. apply wp_bind, wp_gets.
  apply wp_bind, wp_in_ports. eapply wp_mono; [by apply outb_kbd; left|]. intros [] d1 K1.
  apply wp_bind, wp_in_ports. eapply wp_mono; [by apply outb_kbd; right|]. intros [] d2 K2.
  apply wp_bind, wp_in_ports. eapply wp_mono; [by apply outb_kbd; left|]. intros [] d3 K3.
  apply wp_in_ports. eapply wp_mono; [by apply outb_kbd; right|]. intros [] d4 K4.
  cbn [t_ports] in *. congruence.
Qed.
Lemma putchar_kbd ch (t : term D) :
  wp (vgaterm_putchar ch) t (λ _ t', kbd (t_ports t') = kbd (t_ports t)).
Proof.
  unfold vgaterm_putchar. destruct (ch =? 10); [by apply wp_modify|].
  apply wp_bind, wp_modify. apply wp_bind, wp_modify. apply wp_bind, wp_gets.
  eapply wp_mono; [apply set_cursor_kbd|]. intros _ t' ->. simpl. by repeat case_match.
Qed.

(** The screen is all that [printf("%c", c)] changes. *)
Definition echoed s s' : Prop :=
  s' = set_env (set_c_term (c_term (env s')) (env s)) s ∧
  on_screen (t_vga (c_term (env s'))) ∧ keys_left (env s') = keys_left (env s).

Lemma printf_char_ok ch s : 0 ≤ ch < 256 → on_screen (t_vga (c_term (env s))) →
  wp (printf sfuel (bytes "%c") [ch]) s (λ _ s', echoed s s').
Proof.
  intros Hc Hs. unfold printf. apply wp_in_env.
  enough (wp (printf_ (λ c a, ld8 (c_mem c) a) (λ ch, in_term (_putchar ch)) sfuel (bytes "%c") [ch]) (env s)
    (λ _ e, e = set_c_term (c_term e) (env s) ∧ on_screen (t_vga (c_term e)) ∧ keys_left e = keys_left (env s))) as H.
  { eapply wp_mono; [exact H|]. intros _ e (H1 & H2 & H3). unfold echoed. rewrite env_set. by rewrite <- H1. }
  unfold printf_, vprintf_, _vsnprintf. change (length (bytes "%c")) with 2%nat. change (bytes "%c") with [37; 99].
  cbn [vsnprintf_loop]. change (negb (37 =? chr "%")) with false. cbn iota.
  unfold conversion. change (parse_flags 0 [99]) with (0, [99]). cbn iota beta.
  change (from_opt (parse_width 0 [99] [ch])) with (@mret_ (console D) _ (0, 0, [99], [ch])).
  apply wp_bind, wp_bind, wp_bind, wp_ret. cbv beta iota.
  change (from_opt (parse_precision 0 [99] [ch])) with (@mret_ (console D) _ (0, 0, [99], [ch])).
  apply wp_bind, wp_ret. cbv beta iota. change (parse_length 0 [99]) with (0, [99]). cbv beta iota.
  change (is_int_spec 99) with false. change (99 =? chr "c") with true. cbv iota. apply wp_bind.
  unfold fmt_char. change (has 0 FLAGS_LEFT) with false. cbn [negb]. cbv iota.
  apply wp_bind. unfold spaces. change (Z.to_nat (0 - 1)) with 0%nat. cbn. apply wp_ret.
  apply wp_bind, wp_ret. rewrite w8_small by lia. apply wp_bind. unfold _out_char at 1.
  assert (wp (if negb (ch =? 0) then in_term (_putchar ch) else mret_ tt) (env s)
    (λ _ e, e = set_c_term (c_term e) (env s) ∧ on_screen (t_vga (c_term e)) ∧ keys_left e = keys_left (env s))) as H.
  { destruct (negb (ch =? 0)); [|apply wp_ret; split_and!; try done; by destruct (env s)].
    apply wp_in_term. eapply wp_mono; [apply wp_and; [by apply putchar_cells|apply putchar_kbd]|].
    intros _ t [(H1 & _) H2]. by destruct (env s). }
  eapply wp_mono; [exact H|]. intros [] e He. by repeat (apply wp_bind, wp_ret || apply wp_ret).
Qed.

(** *** Typing *)

(** The line typed so far. *)
Definition line c (l : list Z) : Prop :=
  tty_bufi c = Z.of_nat (length l) ∧ bytes_at (c_mem c) (tty_buf c) l.

(** Two consoles with the same screen, flags and memory outside the line. *)
Definition same_but_line c c' : Prop :=
  c_term c' = c_term c ∧ release c' = release c ∧ global_tty c' = global_tty c ∧
  ∀ x, ¬ (global_tty c ≤ x < global_tty c + 1032) → ld8 (c_mem c') x = ld8 (c_mem c) x.

Lemma key_map_range k : 0 ≤ key_map k < 256.
Proof.
  assert (Forall (λ p : Z * Z, 0 ≤ p.2 < 256) key_chars) as Hf by (repeat constructor; simpl; lia).
  unfold key_map. induction Hf as [|[k' ch] l H _ IH]; simpl; [lia|]. by destruct (k =? k').
Qed.

Lemma put_key_ok c l ch : line c l → (length l ≤ 1024)%nat → 0 ≤ ch < 256 →
  let c' := set_bufi (tty_bufi c + 1) (put_char (tty_bufi c) ch c) in
  line c' (l ++ [ch]) ∧ tty_waiting c' = tty_waiting c ∧ same_but_line c c'.
Proof.
  intros [Hb Hl] Hlen Hch c'. set (g := global_tty c) in *.
  assert (∀ x, ¬ (g ≤ x < g + 4) → x ≠ g + 4 + tty_bufi c → ld8 (c_mem c') x = ld8 (c_mem c) x) as Ho.
  { intros x H1 H2. unfold c', set_bufi, put_char, tty_buf. cbn [c_mem set_c_mem global_tty]. unfold st32. fold g.
    rewrite ld8_st_ne by lia. by rewrite ld8_st8_ne by lia. }
  assert (ld8 (c_mem c') (g + 4 + tty_bufi c) = ch) as Hc.
  { unfold c', set_bufi, put_char, tty_buf. cbn [c_mem set_c_mem global_tty]. unfold st32. fold g.
    rewrite ld8_st_ne by lia. by rewrite ld8_st8_eq, w8_small by lia. }
  split; [split|split; [|split_and!; try done]].
  - unfold c', tty_bufi at 1, set_bufi. cbn [c_mem set_c_mem global_tty put_char]. unfold ld32, st32.
    rewrite ld_st_eq, Hb, length_app. change (256 ^ Z.of_nat 4) with (2 ^ 32). simpl length.
    rewrite Z.mod_small, s32_small by lia. lia.
  - change (tty_buf c') with (g + 4). apply bytes_at_app. split.
    + apply (bytes_at_ext (c_mem c)); [|exact Hl]. intros x Hx. apply Ho; lia.
    + simpl. rewrite <- Hb. done.
  - unfold tty_waiting, ld64. change (global_tty c') with g. fold g. apply ld_ext. intros x Hx. apply Ho; lia.
  - intros x Hx. fold g in Hx. apply Ho; lia.
Qed.

Definition typed s s' l : Prop :=
  s' = set_env (env s') s ∧ line (env s') l ∧ on_screen (t_vga (c_term (env s'))) ∧
  release (env s') = release (env s) ∧ keys_left (env s') = keys_left (env s) ∧
  global_tty (env s') = global_tty (env s) ∧ tty_waiting (env s') = tty_waiting (env s).

Lemma send_key_ok key l s :
  line (env s) l → (length l ≤ 1024)%nat → key ≠ key_code KEY_ENTER → on_screen (t_vga (c_term (env s))) →
  wp (tty_send_key sfuel key) s (λ _ s', typed s s' (l ++ [key_map key])).
Proof.
  intros Hl Hlen Hk Hs. pose proof (key_map_range key) as Hr.
  destruct (put_key_ok (env s) l (key_map key) Hl Hlen Hr) as (Hl' & Hw' & Ht & Hrel & Hg & _).
  unfold tty_send_key. apply wp_bind, wp_getc. unfold TTY_BUF_SIZE. destruct Hl as [Hb _].
  destruct (Z.ltb_spec 1024 (tty_bufi (env s))); [lia|]. apply wp_bind, wp_setc, wp_bind, wp_setc.
  rewrite env_set, set_env_twice. set (c1 := set_bufi _ _) in *. destruct (Z.eqb_spec key (key_code KEY_ENTER)); [done|].
  apply wp_bind, wp_ret, wp_bind. eapply wp_mono; [apply printf_char_ok; [done|]|].
  { rewrite env_set. by rewrite Ht. }
  intros r s2 (He & Hs2 & Hk2). rewrite env_set in He, Hk2. rewrite set_env_twice in He. apply wp_ret.
  assert (env s2 = set_c_term (c_term (env s2)) c1) as He2 by (rewrite He at 1; apply env_set).
  unfold typed. split; [by rewrite <- He2 in He|].
  assert (line (env s2) (l ++ [key_map key]) ∧ release (env s2) = release c1 ∧
    global_tty (env s2) = global_tty c1 ∧ tty_waiting (env s2) = tty_waiting c1) as (H1 & H2 & H3 & H4) by by rewrite He2.
  split; [done|]. split; [done|]. split; [congruence|]. split; [|split; congruence].
  rewrite Hk2. unfold keys_left. by rewrite Ht.
Qed.

(** The enter key completes the line and makes the reader runnable. *)
Definition woken s s' l : Prop :=
  line (env s') l ∧ on_screen (t_vga (c_term (env s'))) ∧ release (env s') = release (env s) ∧
  keys_left (env s') = keys_left (env s) ∧ global_tty (env s') = global_tty (env s) ∧
  tty_waiting (env s') = 0 ∧ current s' = current s ∧ same_tasks (tasks s) (tasks s').

Lemma clear_waiting_ok c l : line c l → (length l ≤ 1028)%nat →
  line (set_waiting 0 c) l ∧ tty_waiting (set_waiting 0 c) = 0.
Proof.
  intros [Hb Hl] Hlen. unfold line, tty_bufi, tty_waiting, set_waiting in *. cbn [c_mem set_c_mem global_tty] in *.
  unfold ld32, ld64, st64 in *. split; [split|].
  - rewrite ld_st_ne by lia. exact Hb.
  - apply (bytes_at_ext (c_mem c)); [|exact Hl]. intros x Hx. change (tty_buf (set_c_mem _ c)) with (tty_buf c) in Hx.
    unfold tty_buf in Hx. apply ld8_st_ne. lia.
  - rewrite ld_st_eq. done.
Qed.

Lemma send_enter_ok l s r w :
  line (env s) l → (length l ≤ 1024)%nat → on_screen (t_vga (c_term (env s))) →
  ring (tasks s) (current s) r → tty_waiting (env s) = w → w ≠ 0 → w ∉ current s :: r → is_Some (tasks s !! w) →
  wp (tty_send_key sfuel (key_code KEY_ENTER)) s (λ _ s', woken s s' (l ++ [10]) ∧
    ring (tasks s') (current s) (w :: r)).
Proof.
  intros Hl Hlen Hs Hring Hwait Hw0 Hnot Hsome.
  destruct (put_key_ok (env s) l 10 Hl Hlen ltac:(lia)) as (Hl' & Hw' & Ht & Hrel & Hg & _).
  unfold tty_send_key. change (key_map (key_code KEY_ENTER)) with 10.
  apply wp_bind, wp_getc. unfold TTY_BUF_SIZE. destruct Hl as [Hb _].
  destruct (Z.ltb_spec 1024 (tty_bufi (env s))); [lia|]. apply wp_bind, wp_setc, wp_bind, wp_setc.
  rewrite env_set, set_env_twice. set (c1 := set_bufi _ _) in *. rewrite Z.eqb_refl.
  apply wp_bind, wp_bind, wp_getc. rewrite env_set, Hw', Hwait. destruct (Z.eqb_spec w 0); [done|]. cbn [negb].
  apply wp_bind. eapply wp_mono; [apply (sched_rr_insert_ok (set_env c1 s) r w)|].
  { by rewrite tasks_set_env, current_set_env. }
  { by rewrite current_set_env. }
  { by rewrite tasks_set_env. }
  rewrite tasks_set_env, current_set_env. intros [] s2 (Ho & Hr2 & Hs2). apply wp_setc, wp_bind.
  assert (env s2 = c1 ∧ current s2 = current s) as [He2 Hc2].
  { unfold only_tasks in Ho. rewrite Ho. destruct s. done. }
  destruct (clear_waiting_ok c1 (l ++ [10]) Hl') as [Hl2 Hw2]; [rewrite length_app; simpl; lia|]. rewrite He2.
  eapply wp_mono; [apply printf_char_ok; [lia|]|].
  { rewrite env_set. change (c_term (set_waiting 0 c1)) with (c_term c1). by rewrite Ht. }
  intros k s3 (He & Hs3 & Hk3). rewrite env_set, set_env_twice in He. rewrite env_set in Hk3. apply wp_ret.
  assert (env s3 = set_c_term (c_term (env s3)) (set_waiting 0 c1)) as He3 by (rewrite He at 1; apply env_set).
  assert (line (env s3) (l ++ [10]) ∧ release (env s3) = release c1 ∧ global_tty (env s3) = global_tty c1 ∧
    tty_waiting (env s3) = 0) as (H1 & H2 & H3 & H4) by by rewrite He3.
  assert (tasks s3 = tasks s2 ∧ current s3 = current s) as [Ht3 Hc3] by (rewrite He, tasks_set_env, current_set_env; done).
  rewrite Ht3. split; [|done]. unfold woken. rewrite Ht3. split_and!; try done; try congruence.
Qed.

(** *** Scan codes *)

(** What the keyboard sends for a key that is pressed and released. *)
Definition stroke (sc : Z) : list Z := [sc; 0xf0; sc].
Definition sc_key (sc : Z) : Z := default 0 (sc_map !! Z.to_nat sc).
Definition sc_char (sc : Z) : Z := key_map (sc_key sc).

Lemma sc_map_some sc : 0 ≤ sc < 256 → sc_map !! Z.to_nat sc = Some (sc_key sc).
Proof.
  intros Hsc. unfold sc_key. destruct (sc_map !! Z.to_nat sc) eqn:E; [done|].
  apply lookup_ge_None in E. change (length sc_map) with 256%nat in E. lia.
Qed.

Lemma take_key_ok s b l (Q : Z → sched (console D) → Prop) :
  keys_left (env s) = b :: l →
  (∀ c, keys_left c = l → c_mem c = c_mem (env s) → release c = release (env s) →
     global_tty c = global_tty (env s) → t_vga (c_term c) = t_vga (c_term (env s)) → Q b (set_env c s)) →
  wp (port (inb PS2_DATA)) s Q.
Proof.
  intros Hk HQ. apply wp_in_env, wp_in_term, wp_in_ports.
  eapply wp_mono; [by apply inb_kbd|]. intros v d [-> Hd]. by apply HQ.
Qed.

(** The two interrupts of a key that is released. *)
Lemma release_ok s sc l :
  release (env s) = false → keys_left (env s) = 0xf0 :: sc :: l →
  wp (repeat_m 2 (ps2_key_in sfuel)) s (λ _ s', s' = set_env (env s') s ∧ keys_left (env s') = l ∧
    release (env s') = false ∧ c_mem (env s') = c_mem (env s) ∧ global_tty (env s') = global_tty (env s) ∧
    t_vga (c_term (env s')) = t_vga (c_term (env s))).
Proof.
  intros Hrel Hk. cbn [repeat_m]. unfold ps2_key_in. apply wp_bind, wp_bind. eapply take_key_ok; [exact Hk|].
  intros c1 K1 M1 R1 G1 V1. apply wp_bind, wp_getc. rewrite env_set, R1, Hrel. change (0xf0 =? 0xf0) with true. cbv iota.
  apply wp_setc. rewrite env_set, set_env_twice. apply wp_bind, wp_bind. eapply take_key_ok; [by rewrite env_set|].
  rewrite env_set. intros c2 K2 M2 R2 G2 V2. apply wp_bind, wp_getc. rewrite env_set, R2. cbn [release set_release]. cbv iota.
  apply wp_setc, wp_ret. rewrite env_set, !set_env_twice, env_set.
  split; [done|]. split; [exact K2|]. split; [done|]. cbn [c_mem set_release global_tty c_term] in *.
  split; [congruence|]. split; congruence.
Qed.

(** A state with the same tasks in which [l] has been typed and [ks] is to come. *)
Definition typing s l ks : Prop :=
  line (env s) l ∧ on_screen (t_vga (c_term (env s))) ∧ release (env s) = false ∧ keys_left (env s) = ks.

Lemma stroke_ok s l ks sc :
  typing s l (stroke sc ++ ks) → (length l ≤ 1024)%nat → 0 ≤ sc < 256 → sc ≠ 0xf0 → sc_key sc ≠ key_code KEY_ENTER →
  wp (repeat_m 3 (ps2_key_in sfuel)) s (λ _ s', typing s' (l ++ [sc_char sc]) ks ∧ s' = set_env (env s') s ∧
    global_tty (env s') = global_tty (env s) ∧ tty_waiting (env s') = tty_waiting (env s)).
Proof.
  intros (Hl & Hs & Hr & Hk) Hlen Hsc Hf0 Hne. change (repeat_m 3 (ps2_key_in sfuel)) with
    (mbind_ (ps2_key_in (D := D) sfuel) (λ _, repeat_m 2 (ps2_key_in sfuel))).
  apply wp_bind. unfold ps2_key_in at 1. apply wp_bind. eapply take_key_ok; [exact Hk|].
  intros c1 K1 M1 R1 G1 V1. apply wp_bind, wp_getc. rewrite env_set, R1, Hr. destruct (Z.eqb_spec sc 0xf0); [done|].
  apply wp_bind. eapply wp_from_opt; [by apply sc_map_some|].
  assert (line c1 l ∧ tty_waiting c1 = tty_waiting (env s)) as [Hl1 Hw1].
  { unfold line, tty_bufi, tty_buf, tty_waiting in *. rewrite M1, G1. done. }
  eapply wp_mono; [apply send_key_ok; rewrite ?env_set; try done|].
  { by rewrite V1. }
  intros [] s2 (He2 & Hl2 & Hs2 & Hr2 & Hk2 & Hg2 & Hw2). rewrite env_set in *. rewrite set_env_twice in He2.
  eapply wp_mono; [apply (release_ok s2 sc ks)|].
  { congruence. }
  { by rewrite Hk2, K1. }
  intros [] s3 (He3 & Hk3 & Hr3 & Hm3 & Hg3 & Hv3).
  assert (line (env s3) (l ++ [sc_char sc]) ∧ tty_waiting (env s3) = tty_waiting (env s2)) as [Hl3 Hw3].
  { unfold line, tty_bufi, tty_buf, tty_waiting in *. rewrite Hm3, Hg3. done. }
  split; [split_and!; try done; by rewrite Hv3|]. split; [|split; congruence].
  rewrite He3 at 1. by rewrite He2, set_env_twice.
Qed.

Lemma strokes_ok scs : ∀ s l ks,
  typing s l (concat (stroke <$> scs) ++ ks) → (length l + length scs ≤ 1024)%nat →
  Forall (λ sc, 0 ≤ sc < 256 ∧ sc ≠ 0xf0 ∧ sc_key sc ≠ key_code KEY_ENTER) scs →
  wp (repeat_m (3 * length scs) (ps2_key_in sfuel)) s (λ _ s', typing s' (l ++ (sc_char <$> scs)) ks ∧
    s' = set_env (env s') s ∧ global_tty (env s') = global_tty (env s) ∧ tty_waiting (env s') = tty_waiting (env s)).
Proof.
  induction scs as [|sc scs IH]; intros s l ks Ht Hlen Hf.
  { apply wp_ret. rewrite fmap_nil, app_nil_r. split; [done|]. by rewrite set_env_same. }
  apply Forall_cons_1 in Hf as [(Hsc & Hf0 & Hne) Hf]. simpl length in Hlen.
  replace (3 * length (sc :: scs))%nat with (3 + 3 * length scs)%nat by (simpl; lia).
  rewrite fmap_cons in Ht. cbn [concat] in Ht. rewrite <- app_assoc in Ht.
  apply wp_repeat_app. eapply wp_mono; [apply (stroke_ok s l _ sc Ht); [lia|done..]|].
  intros [] s1 (Ht1 & He1 & Hg1 & Hw1). eapply wp_mono; [apply (IH s1 (l ++ [sc_char sc]) ks Ht1); [|done]|].
  { rewrite length_app. simpl. lia. }
  intros [] s2 (Ht2 & He2 & Hg2 & Hw2). rewrite <- app_assoc in Ht2. split; [exact Ht2|].
  split; [rewrite He2 at 1; by rewrite He1, set_env_twice|split; congruence].
Qed.

(** *** Reading *)
Lemma resumed_ok f buf n l s :
  line (env s) l → (length l ≤ 1024)%nat → 0 ≤ n < 2 ^ 64 →
  (buf + 1024 ≤ global_tty (env s) ∨ global_tty (env s) + sizeof_tty ≤ buf) →
  wp (stdin_read_resumed f buf n) s (λ r s', r = Z.min n (Z.of_nat (length l)) ∧
    bytes_at (c_mem (env s')) buf (take (Z.to_nat n) l) ∧ tty_bufi (env s') = 0 ∧ s' = set_env (env s') s).
Proof.
  intros [Hb Hl] Hlen Hn Hov. unfold sizeof_tty in Hov. unfold stdin_read_resumed. apply wp_bind, wp_getc.
  rewrite Hb, w64_small by lia. set (k := if n <? Z.of_nat (length l) then n else Z.of_nat (length l)).
  assert (k = Z.min n (Z.of_nat (length l))) as Hk by (unfold k; destruct (Z.ltb_spec n (Z.of_nat (length l))); lia).
  clearbody k. subst k. set (k := Z.min n (Z.of_nat (length l))).
  apply wp_bind, wp_setc, wp_bind, wp_setc, wp_ret. rewrite !env_set, set_env_twice. split; [done|]. split; [|split; [|done]].
  - assert (take (Z.to_nat n) l = take (Z.to_nat k) l) as ->.
    { unfold k. destruct (Z.le_gt_cases n (Z.of_nat (length l))); [by rewrite Z.min_l by lia|].
      rewrite Z.min_r, Nat2Z.id by lia. by rewrite !take_ge by lia. }
    assert (∀ x, buf ≤ x < buf + k → ld8 (c_mem (set_bufi 0 (set_c_mem (memcpy (c_mem (env s)) buf (tty_buf (env s)) k) (env s)))) x =
      ld8 (c_mem (env s)) (tty_buf (env s) + (x - buf))) as Hc.
    { intros x Hx. unfold set_bufi, tty_buf. cbn [c_mem set_c_mem global_tty]. unfold st32.
      rewrite ld8_st_ne by lia. rewrite ld8_memcpy by lia. by rewrite decide_True by lia. }
    assert (∀ l' j, 0 ≤ j → j + Z.of_nat (length l') ≤ k → bytes_at (c_mem (env s)) (tty_buf (env s) + j) l' →
      bytes_at (c_mem (set_bufi 0 (set_c_mem (memcpy (c_mem (env s)) buf (tty_buf (env s)) k) (env s)))) (buf + j) l') as Hcp.
    { induction l' as [|ch l' IH]; intros j Hj Hjl Hbs; [done|]. cbn [length] in Hjl. destruct Hbs as [<- Hbs]. split.
      - rewrite Hc by lia. f_equal. lia.
      - rewrite <- Z.add_assoc. apply IH; [lia|lia|]. by rewrite Z.add_assoc. }
    specialize (Hcp (take (Z.to_nat k) l) 0 ltac:(lia) ltac:(rewrite length_take; lia)). rewrite !Z.add_0_r in Hcp.
    by apply Hcp, bytes_at_take.
  - unfold tty_bufi, set_bufi. cbn [c_mem set_c_mem global_tty]. unfold ld32, st32. by rewrite ld_st_eq.
Qed.
End proofs.

(** C31: a line typed at the keyboard reaches the reader: with a task [w]
    asleep in [stdin_read] and nothing typed yet, the interrupts of the strokes
    of [scs] (at most 1023, none of them enter) and then of enter terminate,
    put [w] back into the ring of runnable tasks and leave no task waiting;
    when [w] resumes, its buffer gets the characters of the keys and a newline,
    cut at the size it asked for, and the line is empty again.  Keys without a
    character, such as shift, are read as zero bytes. *)
Theorem tty_line_roundtrip {D : Type} {PO : PortOps D} {CP : CrtPorts D} {KP : KbdPorts D}
    {TO : TaskOps (console D)} (sfuel : nat) (s : sched (console D)) (r scs : list Z) (w : Z)
    (Hline : tty_bufi (env s) = 0) (Hscreen : on_screen (t_vga (c_term (env s))))
    (Hrel : release (env s) = false) (Hwait : tty_waiting (env s) = w) (Hw0 : w ≠ 0)
    (Hkeys : keys_left (env s) = concat (stroke <$> scs ++ [0x5a])) (Hlen : (length scs ≤ 1023)%nat)
    (Hscs : Forall (λ sc, 0 ≤ sc < 256 ∧ sc ≠ 0xf0 ∧ sc_key sc ≠ key_code KEY_ENTER) scs)
    (Hring : ring (tasks s) (current s) r) (Hw : w ∉ current s :: r) (Hsome : is_Some (tasks s !! w)) :
  ∃ s', repeat_m (3 * (length scs + 1)) (ps2_key_in sfuel) s = Ok (tt, s') ∧
    ring (tasks s') (current s') (w :: r) ∧ tty_waiting (env s') = 0 ∧ keys_left (env s') = [] ∧
    ∀ s2 f buf n, env s2 = env s' → 0 ≤ n < 2 ^ 64 →
      (buf + 1024 ≤ global_tty (env s) ∨ global_tty (env s) + sizeof_tty ≤ buf) →
      ∃ s3, stdin_read_resumed f buf n s2 = Ok (Z.min n (Z.of_nat (length scs + 1)), s3) ∧
        bytes_at (c_mem (env s3)) buf (take (Z.to_nat n) ((sc_char <$> scs) ++ [10])) ∧ tty_bufi (env s3) = 0.
Proof.
  enough (wp (repeat_m (3 * length scs + 3) (ps2_key_in sfuel)) s (λ _ s',
    ring (tasks s') (current s') (w :: r) ∧ tty_waiting (env s') = 0 ∧ keys_left (env s') = [] ∧
    line (env s') ((sc_char <$> scs) ++ [10]) ∧ global_tty (env s') = global_tty (env s))) as H.
  { destruct (proj1 (wp_run _ _ _) H) as ([] & s' & Hr & H1 & H2 & H3 & H4 & H5). exists s'.
    replace (3 * (length scs + 1))%nat with (3 * length scs + 3)%nat by lia.
    split; [done|]. split; [done|]. split; [done|]. split; [done|]. intros s2 f buf n He Hn Hov.
    rewrite <- He in H4. destruct (proj1 (wp_run _ _ _) (resumed_ok f buf n _ s2 H4 ltac:(rewrite length_app, length_fmap; simpl; lia)
      Hn ltac:(rewrite He, H5; done))) as (k & s3 & Hr3 & -> & Hb3 & Hz3 & _).
    exists s3. rewrite length_app, length_fmap in Hr3. done. }
  rewrite fmap_app, concat_app in Hkeys. apply wp_repeat_app.
  assert (typing s [] (concat (stroke <$> scs) ++ stroke 0x5a)) as Ht by (split_and!; done).
  eapply wp_mono; [by apply (strokes_ok sfuel scs s [] (stroke 0x5a) Ht); [simpl; lia|]|].
  intros [] s1 ((Hl1 & Hs1 & Hr1 & Hk1) & He1 & Hg1 & Hw1). change ([] ++ (sc_char <$> scs)) with (sc_char <$> scs) in Hl1.
  assert (tasks s1 = tasks s ∧ current s1 = current s) as [Ht1 Hc1] by (rewrite He1, tasks_set_env, current_set_env; done).
  change (repeat_m 3 (ps2_key_in sfuel)) with (mbind_ (ps2_key_in (D := D) sfuel) (λ _, repeat_m 2 (ps2_key_in sfuel))).
  apply wp_bind. unfold ps2_key_in at 1. apply wp_bind. eapply take_key_ok; [exact Hk1|].
  intros c2 K2 M2 R2 G2 V2. apply wp_bind, wp_getc. rewrite env_set, R2, Hr1. change (0x5a =? 0xf0) with false. cbv iota.
  apply wp_bind. apply wp_from_opt with (a := key_code KEY_ENTER); [reflexivity|].
  assert (line c2 (sc_char <$> scs) ∧ tty_waiting c2 = w) as [Hl2 Hw2].
  { unfold line, tty_bufi, tty_buf, tty_waiting in *. rewrite M2, G2. split; [done|]. congruence. }
  eapply wp_mono; [apply (send_enter_ok sfuel (sc_char <$> scs) (set_env c2 s1) r w); rewrite ?env_set; try done|].
  { rewrite length_fmap. lia. }
  { by rewrite V2. }
  { by rewrite tasks_set_env, current_set_env, Ht1, Hc1. }
  { by rewrite current_set_env, Hc1. }
  { by rewrite tasks_set_env, Ht1. }
  rewrite current_set_env. intros [] s3 ((Hl3 & Hs3 & Hr3 & Hk3 & Hg3 & Hw3 & Hc3 & _) & Hring3).
  rewrite env_set in *. rewrite current_set_env in Hc3.
  eapply wp_mono; [apply (release_ok sfuel s3 0x5a []); [congruence|by rewrite Hk3, K2]|].
  intros [] s4 (He4 & Hk4 & Hr4 & Hm4 & Hg4 & Hv4).
  assert (tasks s4 = tasks s3 ∧ current s4 = current s3) as [Ht4 Hc4] by (rewrite He4, tasks_set_env, current_set_env; done).
  rewrite Ht4, Hc4, Hc3. split; [done|]. unfold line, tty_bufi, tty_buf, tty_waiting in *. rewrite Hm4, Hg4.
  split; [done|]. split; [done|]. split; [done|]. congruence.
Qed.

(** A machine with a keyboard: the user types "hi" and enter. *)
Record kbd_sim := KbdSim { k_crt : crt; k_keys : list Z }.
#[export] Instance kbd_ports_ops : PortOps kbd_sim := {
  inb p := λ d,
    if p =? PS2_DATA then
      match k_keys d with b :: l => Ok (b, KbdSim (k_crt d) l) | [] => Ok (0, d) end
    else Ok (0, d);
  outb p v := λ d,
    match outb p v (k_crt d) with
    | Ok (x, c) => Ok (x, KbdSim c (k_keys d)) | Panic e => Panic e | Fault => Fault | NoFuel => NoFuel
    end;
  inw _ := mret_ 0;
  outw _ _ := mret_ tt;
}.
#[export] Instance kbd_crt_ports : CrtPorts kbd_sim.
Proof.
  refine {| crt_index d := crt_index (k_crt d); crt_reg d := crt_reg (k_crt d) |}.
  - intros d v. exact (outb_index (k_crt d) v).
  - intros d v. exact (outb_data (k_crt d) v).
Defined.
#[export] Instance kbd_kbd_ports : KbdPorts kbd_sim.
Proof.
  refine {| kbd := k_keys |}.
  - intros d b l Hk. unfold wp, inb. simpl. by rewrite Hk.
  - intros d p v [-> | ->]; done.
Defined.

#[export] Instance console_task_ops : TaskOps (console kbd_sim) := {
  t_kcalloc n := mret_ 0x10000;
  t_free _ := mret_ tt;
  t_mm_dupe x := mret_ x;
  t_mm_free _ := mret_ tt;
  t_mm_p4 _ x := x;
}.

(** Task 4096 runs; task 8192 sleeps in [stdin_read]. *)
Definition ex_console : console kbd_sim :=
  Console (Term (KbdSim (Crt 0 (λ _, 0)) [0x33; 0xf0; 0x33; 0x43; 0xf0; 0x43; 0x5a; 0xf0; 0x5a])
             (Vgaterm ∅ 0 0 7 VGATERM_BUF_START)) (st64 ∅ (0x5000 + 1032) 8192) 0 0 false 0x5000.
Definition ex_typing : sched (console kbd_sim) :=
  Sched ex_console {[ 4096 := ex_task 1 TASK_RUNNING 4096 4096 0 0; 8192 := ex_task 2 TASK_RUNNING 0 0 0 0 ]}
    ∅ 4096 4096 1000 0 0 0 0.

Lemma tty_line_roundtrip_witness : ∃ s' s3,
  repeat_m 9 (ps2_key_in 10) ex_typing = Ok (tt, s') ∧ ring (tasks s') (current s') [8192] ∧
  stdin_read_resumed 0 0x8000 100 s' = Ok (3, s3) ∧ bytes_at (c_mem (env s3)) 0x8000 [104; 105; 10].
Proof.
  destruct (tty_line_roundtrip 10 ex_typing [] [0x33; 0x43] 8192) as (s' & H1 & H2 & _ & _ & H3).
  - vm_compute. reflexivity.
  - split; vm_compute; done.
  - reflexivity.
  - vm_compute. reflexivity.
  - discriminate.
  - reflexivity.
  - simpl. lia.
  - repeat constructor; try lia; vm_compute; discriminate.
  - split; [apply list.NoDup_singleton|]. split; reflexivity.
  - intros H. apply elem_of_cons in H as [H|H]; [discriminate H|by apply not_elem_of_nil in H].
  - by eexists.
  - destruct (H3 s' 0 0x8000 100 eq_refl ltac:(lia) ltac:(right; vm_compute; discriminate)) as (s3 & Hr & Hb & _).
    exists s', s3. split; [exact H1|]. split; [exact H2|]. split; [exact Hr|exact Hb].
Defined.
