(* ===== verification/Idt.v ===== *)
(** Interrupts: [drivers/int.c].

    The interrupt table is filled in memory and decoded by the reference the
    way the processor does; the two interrupt controllers are the documented
    8259 behaviour the code relies on ([PicPorts]); the handler dispatches to
    the scheduler and the keyboard. *)

From S2P Require Import Prelude Layout Memory Sched Ata Vga Tty.

Definition PIC1_REMAP_BASE : Z := 32.
Definition PIC2_REMAP_BASE : Z := 40.
Definition PIC1_COMMAND : Z := 0x20.
Definition PIC1_DATA : Z := 0x21.
Definition PIC2_COMMAND : Z := 0xA0.
Definition PIC2_DATA : Z := 0xA1.
Definition PIC_EOI : Z := 0x20.
Definition ICW1_ICW4 : Z := 0x01.
Definition ICW1_INIT : Z := 0x10.
Definition ICW4_8086 : Z := 0x01.
Definition IDT_MAX_DESCRIPTORS : Z := 256.

(** [struct idt_entry] *)
Definition idt_entry : layout :=
  [u16 "offset_1"; u16 "selector"; u8 "ist"; u8 "attr"; u16 "offset_2"; u32 "offset_3"; u32 "reserved"].
Definition sizeof_idt_entry : Z := Eval vm_compute in sizeof true idt_entry.
(** [struct isr_ctx]: what the stubs push. *)
Definition isr_ctx : layout :=
  [u64 "r11"; u64 "r10"; u64 "r9"; u64 "r8"; u64 "rax"; u64 "rcx"; u64 "rdx"; u64 "rsi"; u64 "rdi"; u64 "info";
   u64 "rip"; u64 "cs"; u64 "rflags"; u64 "rsp"; u64 "ss"].
(** [struct idtr] *)
Record idtr := Idtr { idtr_limit : Z; idtr_base : Z }.

Section code.
Context {D : Type} {PO : PortOps D} {TO : TaskOps (console D)}.
Variable sfuel : nat.
Abbreviation kernel := (sched (console D)).

Definition io_wait : M kernel unit := port (outb 0x80 0).

Definition send_eoi (irq : Z) : M kernel unit :=
  (if PIC2_REMAP_BASE <=? irq then port (outb PIC2_COMMAND PIC_EOI) else mret_ tt) ;;*
  port (outb PIC1_COMMAND PIC_EOI).

(** [ctx] is the address of the [struct isr_ctx]. *)
Definition isr_main_entry (ctx : Z) : M kernel unit :=
  let* info := getc (λ c, ld64 (c_mem c) (ctx + field_of false isr_ctx "info")) in
  let vec := Z.land (Z.shiftr info 32) 0xFFFF in
  send_eoi (w8 vec) ;;*
  if vec =? 0x6 then panic "Illegal instruction"
  else if vec =? 0xD then panic "General protection fault"
  else if vec =? 0xE then panic "Page fault"
  else if vec =? 0x20 then sched_maybe_preempt
  else if vec =? 0x21 then ps2_key_in sfuel
  else mret_ tt.

Definition idt_set_descriptor (idt vector isr attr : Z) (m : mem) : mem :=
  let descriptor := idt + sizeof_idt_entry * vector in
  let m := st16 m (descriptor + field_of true idt_entry "offset_1") (Z.land isr 0xFFFF) in
  let m := st16 m (descriptor + field_of true idt_entry "offset_2") (Z.land (Z.shiftr isr 16) 0xFFFF) in
  let m := st32 m (descriptor + field_of true idt_entry "offset_3") (Z.land (Z.shiftr isr 32) 0xFFFFFFFF) in
  let m := st16 m (descriptor + field_of true idt_entry "selector") 0x08 in
  let m := st8 m (descriptor + field_of true idt_entry "attr") attr in
  let m := st8 m (descriptor + field_of true idt_entry "ist") 0 in
  st32 m (descriptor + field_of true idt_entry "reserved") 0.

Definition remap_pic (pic1_offset pic2_offset : Z) : M kernel unit :=
  let* mask1 := port (inb PIC1_DATA) in
  let* mask2 := port (inb PIC2_DATA) in
  port (outb PIC1_COMMAND (Z.lor ICW1_INIT ICW1_ICW4)) ;;* io_wait ;;*
  port (outb PIC2_COMMAND (Z.lor ICW1_INIT ICW1_ICW4)) ;;* io_wait ;;*
  port (outb PIC1_DATA (w8 pic1_offset)) ;;* io_wait ;;*
  port (outb PIC2_DATA (w8 pic2_offset)) ;;* io_wait ;;*
  port (outb PIC1_DATA 4) ;;* io_wait ;;*
  port (outb PIC2_DATA 2) ;;* io_wait ;;*
  port (outb PIC1_DATA ICW4_8086) ;;* io_wait ;;*
  port (outb PIC2_DATA ICW4_8086) ;;* io_wait ;;*
  port (outb PIC1_DATA mask1) ;;*
  port (outb PIC2_DATA mask2).

(** The loop over the vectors; [stubs] is the address of [isr_stub_table]. *)
Fixpoint set_descriptors (n : nat) (idt vectors stubs vector : Z) (m : mem) : mem :=
  match n with
  | O => m
  | S n' =>
      let m := idt_set_descriptor idt vector (ld64 m (stubs + 8 * vector)) 0x8E m in
      let m := st32 m (vectors + 4 * vector) 1 in
      set_descriptors n' idt vectors stubs (vector + 1) m
  end.

(** [lidt] loads the answer. *)
Definition idt_init (idt vectors stubs : Z) : M kernel idtr :=
  let r := Idtr (w16 (sizeof_idt_entry * IDT_MAX_DESCRIPTORS - 1)) idt in
  setc (λ c, set_c_mem (set_descriptors 48 idt vectors stubs 0 (c_mem c)) c) ;;*
  remap_pic PIC1_REMAP_BASE PIC2_REMAP_BASE ;;*
  mret_ r.
End code.

(** ** The reference: a gate as the processor decodes it *)
Record gate := Gate { g_offset : Z; g_selector : Z; g_ist : Z; g_attr : Z }.
Definition decode_gate (m : mem) (a : Z) : gate :=
  Gate (ld16 m a + 2 ^ 16 * ld16 m (a + 6) + 2 ^ 32 * ld32 m (a + 8)) (ld16 m (a + 2)) (ld8 m (a + 4)) (ld8 m (a + 5)).

Lemma decode_gate_ext m m' a : (∀ x, a ≤ x < a + 16 → ld8 m' x = ld8 m x) → decode_gate m' a = decode_gate m a.
Proof.
  intros H. unfold decode_gate, ld16, ld32. rewrite !(ld_ext 2 m' m), (ld_ext 4 m' m) by (intros; apply H; lia).
  by rewrite !H by lia.
Qed.

(** ** What the code relies on: two 8259 interrupt controllers

    A command with bit 4 set starts the initialisation, after which the data
    port takes the vector base, the cascade word and the mode; otherwise it
    takes the mask.  The command 0x20 ends an interrupt. *)
Inductive pic_phase : Set := PicReady | PicBase | PicCascade | PicMode.
Record pic := Pic { pic_st : pic_phase; pic_base : Z; pic_cascade : Z; pic_mode : Z; pic_mask : Z; pic_eois : Z }.

Definition pic_command (v : Z) (p : pic) : pic :=
  if Z.testbit v 4 then Pic PicBase (pic_base p) (pic_cascade p) (pic_mode p) 0 (pic_eois p)
  else if v =? 0x20 then Pic (pic_st p) (pic_base p) (pic_cascade p) (pic_mode p) (pic_mask p) (pic_eois p + 1)
  else p.
Definition pic_data (v : Z) (p : pic) : pic :=
  match pic_st p with
  | PicReady => Pic PicReady (pic_base p) (pic_cascade p) (pic_mode p) v (pic_eois p)
  | PicBase => Pic PicCascade v (pic_cascade p) (pic_mode p) (pic_mask p) (pic_eois p)
  | PicCascade => Pic PicMode (pic_base p) v (pic_mode p) (pic_mask p) (pic_eois p)
  | PicMode => Pic PicReady (pic_base p) (pic_cascade p) v (pic_mask p) (pic_eois p)
  end.
Definition pics_out (p v : Z) (ps : pic * pic) : pic * pic :=
  if p =? PIC1_COMMAND then (pic_command v ps.1, ps.2)
  else if p =? PIC1_DATA then (pic_data v ps.1, ps.2)
  else if p =? PIC2_COMMAND then (ps.1, pic_command v ps.2)
  else if p =? PIC2_DATA then (ps.1, pic_data v ps.2)
  else ps.

Class PicPorts (D : Type) {PO : PortOps D} := {
  pics : D → pic * pic;
  outb_pic d p v : p ∈ [0x80; PIC1_COMMAND; PIC1_DATA; PIC2_COMMAND; PIC2_DATA] →
    wp (outb p v) d (λ _ d', pics d' = pics_out p v (pics d));
  inb_mask1 d : wp (inb PIC1_DATA) d (λ v d', d' = d ∧ v = pic_mask (pics d).1);
  inb_mask2 d : wp (inb PIC2_DATA) d (λ v d', d' = d ∧ v = pic_mask (pics d).2);
}.

(** ** The gates *)
Lemma split_isr isr : 0 ≤ isr < 2 ^ 64 →
  w16 (Z.land isr 0xFFFF) + 2 ^ 16 * w16 (Z.land (Z.shiftr isr 16) 0xFFFF) +
  2 ^ 32 * w32 (Z.land (Z.shiftr isr 32) 0xFFFFFFFF) = isr.
Proof.
  intros Hi. change 0xFFFF with (Z.ones 16). change 0xFFFFFFFF with (Z.ones 32).
  rewrite !Z.land_ones, !Z.shiftr_div_pow2 by lia.
  rewrite (w16_small (isr mod 2 ^ 16)), (w16_small (isr / 2 ^ 16 mod 2 ^ 16)), (w32_small (isr / 2 ^ 32 mod 2 ^ 32))
    by (apply Z.mod_pos_bound; lia).
  rewrite (Z.mod_small (isr / 2 ^ 32)) by (split; [apply Z.div_pos; lia|apply Z.div_lt_upper_bound; lia]).
  pose proof (Z.div_mod isr (2 ^ 16) ltac:(lia)). pose proof (Z.div_mod (isr / 2 ^ 16) (2 ^ 16) ltac:(lia)) as H1.
  rewrite Z.div_div in H1 by lia. change (2 ^ 16 * 2 ^ 16) with (2 ^ 32) in H1. lia.
Qed.

Lemma ld_st8_ne k m a v b : b + Z.of_nat k ≤ a ∨ a + 1 ≤ b → ld k (st8 m a v) b = ld k m b.
Proof. exact (ld_st_ne 1 k m a v b). Qed.
(** Read back what a sequence of stores to different places left. *)
Ltac load_back := repeat first
  [ rewrite ld_st_eq | rewrite ld8_st8_eq | rewrite ld_st_ne by lia | rewrite ld_st8_ne by lia
  | rewrite ld8_st_ne by lia | rewrite ld8_st8_ne by lia ].

Lemma set_descriptor_ok idt v isr attr m :
  0 ≤ isr < 2 ^ 64 → 0 ≤ attr < 256 →
  decode_gate (idt_set_descriptor idt v isr attr m) (idt + 16 * v) = Gate isr 8 0 attr ∧
  ∀ x, ¬ (idt + 16 * v ≤ x < idt + 16 * v + 16) → ld8 (idt_set_descriptor idt v isr attr m) x = ld8 m x.
Proof.
  intros Hi Ha. unfold idt_set_descriptor, sizeof_idt_entry. set (d := idt + 16 * v). split.
  - unfold decode_gate, ld16, ld32, st16, st32. rewrite !Z.add_0_r. f_equal; load_back; [|done|done|by apply w8_small].
    etransitivity; [|exact (split_isr isr Hi)]; reflexivity.
  - intros x Hx. unfold st16, st32.
    repeat first [rewrite ld8_st_ne by lia | rewrite ld8_st8_ne by lia]. done.
Qed.

(** The stub table, the table and the vector flags are apart. *)
Definition idt_regions (idt vectors stubs : Z) : Prop :=
  (idt + 16 * 256 ≤ vectors ∨ vectors + 4 * 256 ≤ idt) ∧
  (stubs + 8 * 48 ≤ idt ∨ idt + 16 * 256 ≤ stubs) ∧ (stubs + 8 * 48 ≤ vectors ∨ vectors + 4 * 256 ≤ stubs).

Lemma set_descriptors_ok idt vectors stubs n : ∀ v m,
  idt_regions idt vectors stubs → 0 ≤ v → v + Z.of_nat n ≤ 48 →
  let m' := set_descriptors n idt vectors stubs v m in
  (∀ i, v ≤ i < v + Z.of_nat n → decode_gate m' (idt + 16 * i) = Gate (ld64 m (stubs + 8 * i)) 8 0 0x8E ∧
     ld32 m' (vectors + 4 * i) = 1) ∧
  ∀ x, ¬ (idt + 16 * v ≤ x < idt + 16 * (v + Z.of_nat n)) → ¬ (vectors + 4 * v ≤ x < vectors + 4 * (v + Z.of_nat n)) →
    ld8 m' x = ld8 m x.
Proof.
  unfold idt_regions. induction n as [|n IH]; intros v m Hreg Hv Hn; cbn [set_descriptors].
  { split; [lia|done]. }
  destruct (set_descriptor_ok idt v (ld64 m (stubs + 8 * v)) 0x8E m (ld64_range m _) ltac:(lia)) as [G1 O1].
  set (m1 := idt_set_descriptor _ _ _ _ _) in *. set (m2 := st32 m1 (vectors + 4 * v) 1).
  assert (∀ x, ¬ (vectors + 4 * v ≤ x < vectors + 4 * v + 4) → ld8 m2 x = ld8 m1 x) as O2.
  { intros x Hx. unfold m2, st32. by rewrite ld8_st_ne by lia. }
  destruct (IH (v + 1) m2 Hreg ltac:(lia) ltac:(lia)) as [G3 O3]. set (m3 := set_descriptors _ _ _ _ _ _) in *.
  split.
  - intros i Hi. destruct (decide (i = v)) as [->|Hne].
    + split.
      * rewrite <- G1. unfold decode_gate, ld16, ld32. rewrite !O3, !O2 by lia.
        rewrite !(ld_ext 2 m3 m1), !(ld_ext 4 m3 m1); [done|..]; intros x Hx; rewrite O3, O2 by lia; done.
      * unfold ld32. rewrite (ld_ext 4 m3 m2) by (intros; apply O3; lia). unfold m2, st32. by rewrite ld_st_eq.
    + destruct (G3 i ltac:(lia)) as [H1 H2]. split; [|done]. rewrite H1. f_equal. unfold ld64.
      apply ld_ext. intros x Hx. rewrite O2, O1 by lia. done.
  - intros x Hx1 Hx2. rewrite O3, O2, O1 by lia. done.
Qed.

(** ** The interrupt controllers *)
Section pic_proofs.
Context {D : Type} {PO : PortOps D} {PP : PicPorts D} {TO : TaskOps (console D)}.
Implicit Types (s : sched (console D)).

Definition kpics s : pic * pic := pics (t_ports (c_term (env s))).
(** Only the devices behind the ports change. *)
Definition only_ports s s' : Prop :=
  s' = set_env (set_c_term (Term (t_ports (c_term (env s'))) (t_vga (c_term (env s)))) (env s)) s.

Lemma only_ports_refl s : only_ports s s.
Proof. unfold only_ports. destruct s as [[[d v] m r g] ? ? ? ? ? ? ? ? ?]. done. Qed.
Lemma only_ports_trans s1 s2 s3 : only_ports s1 s2 → only_ports s2 s3 → only_ports s1 s3.
Proof.
  unfold only_ports. intros H1 H2. rewrite H2 at 1. rewrite H1. rewrite env_set, set_env_twice. done.
Qed.

Lemma port_ok {A} (m : M D A) s (Q : A → D → Prop) :
  wp m (t_ports (c_term (env s))) Q →
  wp (port m) s (λ a s', only_ports s s' ∧ Q a (t_ports (c_term (env s')))).
Proof.
  intros H. unfold port. apply wp_in_env, wp_in_term, wp_in_ports. eapply wp_mono; [exact H|].
  intros a d Hd. unfold only_ports. rewrite env_set. done.
Qed.

(** One or two writes to the controllers, seen from the states before them. *)
Definition pics_now s0 ps s : Prop := only_ports s0 s ∧ kpics s = ps.

Lemma out_ok s0 ps s p v (Q : unit → sched (console D) → Prop) :
  pics_now s0 ps s → p ∈ [0x80; PIC1_COMMAND; PIC1_DATA; PIC2_COMMAND; PIC2_DATA] →
  (∀ s', pics_now s0 (pics_out p v ps) s' → Q tt s') → wp (port (outb p v)) s Q.
Proof.
  intros [Ho <-] Hp HQ. eapply wp_mono; [apply port_ok; by apply outb_pic|].
  intros [] s' [H1 H2]. apply HQ. split; [by eapply only_ports_trans|exact H2].
Qed.
Lemma mask_ok s0 ps s p (Q : Z → sched (console D) → Prop) :
  pics_now s0 ps s → p = PIC1_DATA ∨ p = PIC2_DATA →
  (∀ s', pics_now s0 ps s' → Q (pic_mask (if p =? PIC1_DATA then ps.1 else ps.2)) s') → wp (port (inb p)) s Q.
Proof.
  intros [Ho <-] Hp HQ. destruct Hp as [-> | ->].
  - eapply wp_mono; [apply port_ok; apply inb_mask1|]. intros a s' [H1 [H2 ->]]. apply HQ.
    split; [by eapply only_ports_trans|]. unfold kpics. by rewrite H2.
  - eapply wp_mono; [apply port_ok; apply inb_mask2|]. intros a s' [H1 [H2 ->]]. apply HQ.
    split; [by eapply only_ports_trans|]. unfold kpics. by rewrite H2.
Qed.
Lemma io_wait_ok s0 ps s (Q : unit → sched (console D) → Prop) :
  pics_now s0 ps s → (∀ s', pics_now s0 ps s' → Q tt s') → wp io_wait s Q.
Proof. intros H HQ. unfold io_wait. eapply (out_ok s0 ps); [exact H|by left|]. intros s'. apply HQ. Qed.

Ltac pic_step :=
  match goal with
  | H : pics_now _ _ ?s |- wp (mbind_ _ _) ?s _ => apply wp_bind
  | H : pics_now _ _ ?s |- wp io_wait ?s _ => eapply io_wait_ok; [exact H|]; clear H; intros ? ?
  | H : pics_now _ _ ?s |- wp (port (outb _ _)) ?s _ =>
      eapply out_ok; [exact H|repeat constructor|]; clear H; intros ? ?
  end.

(** The controllers after [remap_pic]. *)
Lemma remap_ok s p1 p2 : 0 ≤ p1 < 256 → 0 ≤ p2 < 256 →
  wp (remap_pic p1 p2) s (λ _ s', only_ports s s' ∧ kpics s' =
    (Pic PicReady p1 4 ICW4_8086 (pic_mask (kpics s).1) (pic_eois (kpics s).1),
     Pic PicReady p2 2 ICW4_8086 (pic_mask (kpics s).2) (pic_eois (kpics s).2))).
Proof.
  intros H1 H2. assert (pics_now s (kpics s) s) as H by (split; [apply only_ports_refl|done]).
  destruct (kpics s) as [[a1 b1 c1 d1 e1 f1] [a2 b2 c2 d2 e2 f2]].
  unfold remap_pic. rewrite !w8_small by lia. apply wp_bind. eapply mask_ok; [exact H|by left|]. clear H. intros s1 H.
  apply wp_bind. eapply mask_ok; [exact H|by right|]. clear H. intros s2 H.
  repeat pic_step.
  match goal with H : pics_now _ _ ?s |- _ => destruct H as [Ho Hk] end. split; [exact Ho|]. rewrite Hk. reflexivity.
Qed.
End pic_proofs.

Section properties.
Context {D : Type} {PO : PortOps D} {PP : PicPorts D} {TO : TaskOps (console D)}.
Implicit Types (s : sched (console D)).

(** C37: [idt_init] makes gates for the first 48 vectors that the processor
    decodes to the stubs of the table, in the kernel code segment, as interrupt
    gates of ring 0; the table register covers all 256 entries, no memory
    outside the table and the flags changes, and the two controllers are
    initialised with the vectors 32 and 40, cascaded, with the interrupt masks
    they had. *)
Theorem idt_init_spec s (idt vectors stubs : Z) (Hreg : idt_regions idt vectors stubs) :
  ∃ s', idt_init idt vectors stubs s = Ok (Idtr 4095 idt, s') ∧
    (∀ v, 0 ≤ v < 48 → decode_gate (c_mem (env s')) (idt + 16 * v) =
        Gate (ld64 (c_mem (env s)) (stubs + 8 * v)) 0x08 0 0x8E) ∧
    (∀ x, ¬ (idt ≤ x < idt + 16 * 48) → ¬ (vectors ≤ x < vectors + 4 * 48) →
       ld8 (c_mem (env s')) x = ld8 (c_mem (env s)) x) ∧
    kpics s' = (Pic PicReady 32 4 1 (pic_mask (kpics s).1) (pic_eois (kpics s).1),
                Pic PicReady 40 2 1 (pic_mask (kpics s).2) (pic_eois (kpics s).2)).
Proof.
  destruct (set_descriptors_ok idt vectors stubs 48 0 (c_mem (env s)) Hreg ltac:(lia) ltac:(lia)) as [Hg Ho].
  enough (wp (idt_init idt vectors stubs) s (λ r s', r = Idtr 4095 idt ∧
    c_mem (env s') = set_descriptors 48 idt vectors stubs 0 (c_mem (env s)) ∧
    kpics s' = (Pic PicReady 32 4 1 (pic_mask (kpics s).1) (pic_eois (kpics s).1),
                Pic PicReady 40 2 1 (pic_mask (kpics s).2) (pic_eois (kpics s).2)))) as H.
  { destruct (proj1 (wp_run _ _ _) H) as (r & s' & Hr & -> & Hm & Hk). exists s'. split; [done|].
    rewrite Hm. split; [intros v Hv; by apply Hg|]. split; [|done]. intros x H1 H2. apply Ho; lia. }
  clear Hg Ho. unfold idt_init. apply wp_bind, wp_setc. set (m' := set_descriptors _ _ _ _ _ _). clearbody m'.
  apply wp_bind. eapply wp_mono; [apply remap_ok; unfold PIC1_REMAP_BASE, PIC2_REMAP_BASE; lia|].
  intros [] s' [Ho Hk]. apply wp_ret. split; [done|].
  assert (kpics (set_env (set_c_mem m' (env s)) s) = kpics s) as <- by (unfold kpics; by rewrite env_set).
  split; [|exact Hk]. rewrite Ho. by rewrite !env_set.
Qed.

(** The number in the upper half of the word that the stubs push. *)
Definition vector_of s (ctx : Z) : Z := (ld64 (c_mem (env s)) (ctx + 72) / 2 ^ 32) mod 2 ^ 16.

Lemma vector_of_eq s ctx :
  Z.land (Z.shiftr (ld64 (c_mem (env s)) (ctx + 72)) 32) 0xFFFF = vector_of s ctx.
Proof. change 0xFFFF with (Z.ones 16). by rewrite Z.land_ones, Z.shiftr_div_pow2 by lia. Qed.

Definition eoi (p : pic) : pic := Pic (pic_st p) (pic_base p) (pic_cascade p) (pic_mode p) (pic_mask p) (pic_eois p + 1).

Lemma send_eoi_ok s v : 
  wp (send_eoi v) s (λ _ s', only_ports s s' ∧ kpics s' = (eoi (kpics s).1, if 40 <=? v then eoi (kpics s).2 else (kpics s).2)).
Proof.
  assert (pics_now s (kpics s) s) as H by (split; [apply only_ports_refl|done]).
  unfold send_eoi. apply wp_bind. change (PIC2_REMAP_BASE <=? v) with (40 <=? v). destruct (40 <=? v).
  - eapply out_ok; [exact H|repeat constructor|]. intros s1 H1. eapply out_ok; [exact H1|repeat constructor|].
    intros s2 [Ho Hk]. split; [exact Ho|]. rewrite Hk. by destruct (kpics s).
  - apply wp_ret. eapply out_ok; [exact H|repeat constructor|]. intros s2 [Ho Hk]. split; [exact Ho|].
    rewrite Hk. by destruct (kpics s).
Qed.

(** every interrupt is acknowledged before anything else: the master
    controller gets one end of interrupt, the slave one exactly when the vector
    is at least 40, nothing else changes ([s1]); then the timer runs the
    scheduler and the keyboard its driver, illegal instructions, protection and
    page faults panic, and other vectors (up to 255) do nothing. *)
Theorem isr_main_entry_spec (sfuel : nat) s (ctx : Z) (Hvec : vector_of s ctx < 256) :
  let vec := vector_of s ctx in
  ∃ s1, only_ports s s1 ∧
    kpics s1 = (eoi (kpics s).1, if 40 <=? vec then eoi (kpics s).2 else (kpics s).2) ∧
    (vec = 32 → isr_main_entry sfuel ctx s = sched_maybe_preempt s1) ∧
    (vec = 33 → isr_main_entry sfuel ctx s = ps2_key_in sfuel s1) ∧
    (vec ∈ [6; 13; 14] → ∃ msg, isr_main_entry sfuel ctx s = Panic msg) ∧
    (vec ∉ [6; 13; 14; 32; 33] → isr_main_entry sfuel ctx s = Ok (tt, s1)).
Proof.
  intros vec. destruct (proj1 (wp_run _ _ _) (send_eoi_ok s vec)) as ([] & s1 & Hr & Ho & Hk).
  exists s1. split; [done|]. split; [done|].
  assert (0 ≤ vec < 256) as Hv by (split; [apply Z.mod_pos_bound; lia|done]).
  assert (isr_main_entry sfuel ctx s = (if vec =? 0x6 then panic "Illegal instruction"
    else if vec =? 0xD then panic "General protection fault" else if vec =? 0xE then panic "Page fault"
    else if vec =? 0x20 then sched_maybe_preempt else if vec =? 0x21 then ps2_key_in sfuel else mret_ tt) s1) as ->.
  { unfold isr_main_entry, mbind_, getc, gets. rewrite vector_of_eq. fold vec. rewrite w8_small by lia. by rewrite Hr. }
  clearbody vec. split_and!.
  - by intros ->.
  - by intros ->.
  - intros [-> |[-> |[-> |H]%elem_of_cons]%elem_of_cons]%elem_of_cons; [by eexists..|by apply not_elem_of_nil in H].
  - intros Hn. rewrite !not_elem_of_cons in Hn. destruct Hn as (H1 & H2 & H3 & H4 & H5 & _).
    destruct (Z.eqb_spec vec 6), (Z.eqb_spec vec 13), (Z.eqb_spec vec 14), (Z.eqb_spec vec 32), (Z.eqb_spec vec 33); done.
Qed.
End properties.

(** Two controllers in real mode, as the firmware leaves them. *)
Record pic_sim := PicSim { ps_pics : pic * pic }.
#[export] Instance pic_ports_ops : PortOps pic_sim := {
  inb p := λ d, Ok (pic_mask (if p =? PIC1_DATA then (ps_pics d).1 else (ps_pics d).2), d);
  outb p v := λ d, Ok (tt, PicSim (pics_out p v (ps_pics d)));
  inw _ := mret_ 0;
  outw _ _ := mret_ tt;
}.
#[export] Instance pic_pic_ports : PicPorts pic_sim.
Proof. by refine {| pics := ps_pics |}. Defined.
#[export] Instance pic_task_ops : TaskOps (console pic_sim) := {
  t_kcalloc n := mret_ 0x10000;
  t_free _ := mret_ tt;
  t_mm_dupe x := mret_ x;
  t_mm_free _ := mret_ tt;
  t_mm_p4 _ x := x;
}.
Definition ex_intr : sched (console pic_sim) :=
  Sched (Console (Term (PicSim (Pic PicReady 8 4 1 0xB8 0, Pic PicReady 0x70 2 1 0x8E 0)) (Vgaterm ∅ 0 0 7 VGATERM_BUF_START))
           (st64 (st64 ∅ 0x9008 0xffffffff80101234) (0x7000 + 72) (44 * 2 ^ 32)) 0 0 false 0x5000)
    {[ 4096 := ex_task 1 TASK_RUNNING 4096 4096 0 0 ]} ∅ 4096 4096 1000 0 0 0 0.

Lemma idt_init_spec_witness : ∃ s', idt_init 0x1000 0x3000 0x9000 ex_intr = Ok (Idtr 4095 0x1000, s') ∧
  decode_gate (c_mem (env s')) (0x1000 + 16 * 1) = Gate 0xffffffff80101234 8 0 0x8E.
Proof.
  destruct (idt_init_spec ex_intr 0x1000 0x3000 0x9000 ltac:(unfold idt_regions; lia)) as (s' & H & Hg & _).
  exists s'. split; [exact H|]. rewrite (Hg 1 ltac:(lia)). vm_compute. reflexivity.
Defined.
Lemma isr_main_entry_spec_witness : ∃ s1, isr_main_entry 10 0x7000 ex_intr = Ok (tt, s1) ∧ pic_eois (kpics s1).2 = 1.
Proof.
  destruct (isr_main_entry_spec 10 ex_intr 0x7000 ltac:(vm_compute; reflexivity)) as (s1 & _ & Hk & _ & _ & _ & Hr).
  exists s1. split; [apply Hr|rewrite Hk; vm_compute; reflexivity].
  intros H. vm_compute in H. repeat (apply elem_of_cons in H as [H|H]; [discriminate H|]). by apply not_elem_of_nil in H.
Defined.
