(* ===== verification/Asm.v ===== *)
(** The assembly of the kernel: [kernel/syscall.asm] and the interrupt stubs of
    [drivers/int_table.asm].

    The listings are programs of a small x86-64 machine: sixteen registers,
    flags, selectors, model-specific registers and byte memory, with the
    instructions that the listings use and the [syscall], [sysret], [iretq] and
    interrupt transitions as the processor manuals document them.  A call of a C
    function is any change of the machine that the System V calling convention
    allows.  The theorems say what the C code finds on the kernel stack ([struct
    regs], [struct isr_ctx]) and with what registers the interrupted program
    continues. *)

From S2P Require Import Prelude Layout Memory Sched Vga Tty Idt.

(** ** The machine *)
Inductive reg : Set := RAX | RBX | RCX | RDX | RSI | RDI | RBP | RSP | R8 | R9 | R10 | R11 | R12 | R13 | R14 | R15.
#[export] Instance reg_eq_dec : EqDecision reg.
Proof. solve_decision. Defined.

Record cpu := Cpu {
  gpr : reg → Z; rip_ : Z; rflags : Z; cs : Z; ss : Z; ds : Z;
  msr : Z → Z; cmem : mem;
}.
Definition upd {K : Type} `{EqDecision K} (k : K) (v : Z) (f : K → Z) : K → Z := λ k', if decide (k' = k) then v else f k'.
Definition set_gpr (r : reg) (v : Z) (c : cpu) : cpu :=
  Cpu (upd r v (gpr c)) (rip_ c) (rflags c) (cs c) (ss c) (ds c) (msr c) (cmem c).
Definition set_cmem (m : mem) (c : cpu) : cpu := Cpu (gpr c) (rip_ c) (rflags c) (cs c) (ss c) (ds c) (msr c) m.
Definition set_msr (f : Z → Z) (c : cpu) : cpu := Cpu (gpr c) (rip_ c) (rflags c) (cs c) (ss c) (ds c) f (cmem c).
Definition set_ds (v : Z) (c : cpu) : cpu := Cpu (gpr c) (rip_ c) (rflags c) (cs c) (ss c) v (msr c) (cmem c).
Definition set_rip_ (v : Z) (c : cpu) : cpu := Cpu (gpr c) v (rflags c) (cs c) (ss c) (ds c) (msr c) (cmem c).
(** A transition: where to go on, the flags and the two selectors. *)
Definition far (pc fl c_sel s_sel : Z) (c : cpu) : cpu := Cpu (gpr c) pc fl c_sel s_sel (ds c) (msr c) (cmem c).

(** The privilege level is in the low bits of [cs]. *)
Definition in_kernel (c : cpu) : bool := Z.land (cs c) 3 =? 0.

Definition IA32_STAR : Z := 0xC0000081.
Definition IA32_LSTAR : Z := 0xC0000082.
Definition IA32_EFER : Z := 0xC0000080.
Definition IA32_FMASK : Z := 0xC0000084.

Inductive instr : Set :=
  | Push (r : reg) | PushAt (a : Z) | PushImm (v : Z) | Pop (r : reg)
  | Mov (d s : reg) | MovImm (d : reg) (v : Z) | Mov32 (d s : reg) | Or32 (d : reg) (v : Z) | Shr (d : reg) (n : Z) | AddImm (d : reg) (v : Z)
  | LoadAt (d : reg) (a : Z) | StoreAt (a : Z) (s : reg) | Store (b s : reg) | Store32Imm (b : reg) (off v : Z) | MovDs (s : reg)
  | Rdmsr | Wrmsr | Ret | Sysret | Iretq.

Definition push_val (v : Z) (c : cpu) : cpu :=
  let sp := w64 (gpr c RSP - 8) in set_gpr RSP sp (set_cmem (st64 (cmem c) sp v) c).
Definition top_val (c : cpu) : Z := ld64 (cmem c) (gpr c RSP).
Definition drop_val (c : cpu) : cpu := set_gpr RSP (w64 (gpr c RSP + 8)) c.

(** [sysret] masks reserved bits of the flags. *)
Definition sysret_flags (v : Z) : Z := Z.lor (Z.land v 0x3C7FD7) 2.

Definition kernel_only (m : M cpu unit) : M cpu unit := λ c, if in_kernel c then m c else Fault.

Definition step (i : instr) : M cpu unit :=
  match i with
  | Push r => modify (λ c, push_val (gpr c r) c)
  | PushAt a => modify (λ c, push_val (ld64 (cmem c) a) c)
  | PushImm v => modify (push_val v)
  | Pop r => modify (λ c, set_gpr r (top_val c) (drop_val c))
  | Mov d s => modify (λ c, set_gpr d (gpr c s) c)
  | MovImm d v => modify (set_gpr d v)
  | Mov32 d s => modify (λ c, set_gpr d (w32 (gpr c s)) c)
  | Or32 d v => modify (λ c, set_gpr d (w32 (Z.lor (gpr c d) v)) c)
  | Shr d n => modify (λ c, set_gpr d (Z.shiftr (gpr c d) n) c)
  | AddImm d v => modify (λ c, set_gpr d (w64 (gpr c d + v)) c)
  | LoadAt d a => modify (λ c, set_gpr d (ld64 (cmem c) a) c)
  | StoreAt a s => modify (λ c, set_cmem (st64 (cmem c) a (gpr c s)) c)
  | Store b s => modify (λ c, set_cmem (st64 (cmem c) (gpr c b) (gpr c s)) c)
  | Store32Imm b off v => modify (λ c, set_cmem (st32 (cmem c) (gpr c b + off) v) c)
  | MovDs s => modify (λ c, set_ds (w16 (gpr c s)) c)
  | Rdmsr => kernel_only (modify (λ c,
      let v := msr c (w32 (gpr c RCX)) in set_gpr RDX (Z.shiftr v 32) (set_gpr RAX (w32 v) c)))
  | Wrmsr => kernel_only (modify (λ c,
      set_msr (upd (w32 (gpr c RCX)) (w32 (gpr c RAX) + 2 ^ 32 * w32 (gpr c RDX)) (msr c)) c))
  | Ret => modify (λ c, set_rip_ (top_val c) (drop_val c))
  | Sysret => kernel_only (modify (λ c,
      let sel := Z.shiftr (msr c IA32_STAR) 48 in
      far (gpr c RCX) (sysret_flags (gpr c R11)) (Z.lor (sel + 16) 3) (Z.lor (sel + 8) 3) c))
  | Iretq => kernel_only (λ c,
      let a := gpr c RSP in
      let m := cmem c in
      Ok (tt, set_gpr RSP (ld64 m (a + 24))
        (far (ld64 m a) (ld64 m (a + 16)) (w16 (ld64 m (a + 8))) (w16 (ld64 m (a + 32))) c)))
  end.
Fixpoint run (l : list instr) : M cpu unit :=
  match l with
  | [] => mret_ tt
  | i :: l' => step i ;;* run l'
  end.

(** The [syscall] instruction at the address before [next]. *)
Definition syscall (next : Z) : M cpu unit := modify (λ c,
  let star := msr c IA32_STAR in
  let c1 := set_gpr R11 (rflags c) (set_gpr RCX next c) in
  far (msr c IA32_LSTAR) (Z.land (rflags c) (Z.lnot (msr c IA32_FMASK)))
    (Z.land (Z.shiftr star 32) 0xFFFC) (Z.land (Z.shiftr star 32) 0xFFFF + 8) c1).

(** An interrupt through a gate that clears the interrupt flag; the stack is
    that of the task state segment, when the interrupted code is not the kernel. *)
Definition interrupt (g : gate) (rsp0 : Z) (c : cpu) : cpu :=
  let sp := Z.land (if in_kernel c then gpr c RSP else rsp0) (Z.lnot 15) in
  let c1 := push_val (rip_ c) (push_val (cs c) (push_val (rflags c) (push_val (gpr c RSP) (push_val (ss c) (set_gpr RSP sp c))))) in
  far (g_offset g) (Z.land (rflags c) (Z.lnot 0x200)) (g_selector g) (if in_kernel c then ss c else 0) c1.

(** ** [kernel/syscall.asm] *)
Section syscall_asm.
(** The addresses of [rsp_scratch], of [__current_task_stack] and of the labels. *)
Variables rsp_scratch current_task_stack syscall_entry pop_regs_and_sysret_addr : Z.

Definition switch_to_asm : list instr :=
  [Push RBP; Push RBX; Push R12; Push R13; Push R14; Push R15;
   Store RSI RSP; Mov RSP RDI;
   Pop R15; Pop R14; Pop R13; Pop R12; Pop RBX; Pop RBP;
   Ret].

Definition syscall_enable : list instr :=
  [MovImm RCX IA32_STAR; Rdmsr; MovImm RDX 0x00100008; Wrmsr;
   MovImm RCX IA32_LSTAR; Rdmsr; MovImm RDI syscall_entry; Mov32 RAX RDI; Shr RDI 32; Mov32 RDX RDI; Wrmsr;
   MovImm RCX IA32_EFER; Rdmsr; Or32 RAX 1; Wrmsr;
   MovImm RCX IA32_FMASK; Rdmsr; Or32 RAX (Z.lor (Z.shiftl 1 9) (Z.shiftl 1 10)); Wrmsr;
   Ret].

(** The sixteen pushes below [rsp], and the fifteen pops: [struct regs]. *)
Definition regs_pushed : list reg := [RAX; RBX; RCX; RDX; RDI; RSI; RBP; R8; R9; R10; R11; R12; R13; R14; R15].
Definition regs_popped : list reg := [R15; R14; R13; R12; R11; R10; R9; R8; RBP; RSI; RDI; RDX; RCX; RBX; RAX].

Definition pop_regs_and_sysret : list instr :=
  map Pop regs_popped ++ [Pop RCX; Pop RSP; MovImm R11 0x1b; MovDs R11; MovImm R11 0x202; Sysret].

(** [syscall_entry], before and after the call of [do_syscall]. *)
Definition syscall_enter : list instr :=
  [StoreAt rsp_scratch RSP; MovImm RBP 0; LoadAt RSP current_task_stack; PushAt rsp_scratch; Push RCX]
  ++ map Push regs_pushed ++ [Mov RDI RSP].
Definition syscall_leave : list instr :=
  map Pop regs_popped ++ [Pop RCX; Pop RSP; MovImm R11 0x202; Sysret].
End syscall_asm.

(** ** [drivers/int_table.asm] *)
Definition isr_pushed : list reg := [RDI; RSI; RDX; RCX; RAX; R8; R9; R10; R11].
(** The stub of an interrupt without an error code. *)
Definition isr_irq_stub (n : Z) : list instr := [PushImm 0; Store32Imm RSP 4 n].
(** [isr_common], before and after the call of [isr_main_entry]. *)
Definition isr_common_entry : list instr := map Push isr_pushed ++ [Mov RDI RSP].
Definition isr_common_exit : list instr := map Pop isr_pushed ++ [AddImm RSP 8; Iretq].

(** ** [struct regs] in memory, and [struct fork_frame] of [kernel/fork.c] *)
Definition regs_l : layout :=
  [u64 "r15"; u64 "r14"; u64 "r13"; u64 "r12"; u64 "r11"; u64 "r10"; u64 "r9"; u64 "r8"; u64 "rbp"; u64 "rsi"; u64 "rdi";
   u64 "rdx"; u64 "rcx"; u64 "rbx"; u64 "rax"; u64 "rip"; u64 "rsp"].
Definition inactive_task_frame : layout :=
  [u64 "r15"; u64 "r14"; u64 "r13"; u64 "r12"; u64 "rbx"; u64 "rbp"; u64 "ret_addr"].
Definition sizeof_regs : Z := Eval vm_compute in sizeof true regs_l.
Definition sizeof_itf : Z := Eval vm_compute in sizeof false inactive_task_frame.

Definition reg_at (m : mem) (a : Z) (name : string) : Z := ld64 m (a + offsetof true regs_l name).
(** The [struct regs] at [a] as the record of [Sched]. *)
Definition regs_at (m : mem) (a : Z) : regs :=
  Regs (reg_at m a "rax") (reg_at m a "rip") (reg_at m a "rsp")
    (map (reg_at m a) ["r15"; "r14"; "r13"; "r12"; "r11"; "r10"; "r9"; "r8"; "rbp"; "rsi"; "rdi"; "rdx"; "rcx"; "rbx"]%string).

(** [init_task_stack]: the frame at [sp] of a stack that [kcalloc] zeroed. *)
Definition init_fork_frame (ret_addr sp : Z) (m : mem) : mem :=
  let m := st64 m (sp + offsetof false inactive_task_frame "rbp") 0 in
  st64 m (sp + offsetof false inactive_task_frame "ret_addr") ret_addr.
(** [*new->regs = *t->regs; new->regs->rax = 0] *)
Definition copy_regs (src sp : Z) (m : mem) : mem :=
  let m := memcpy m (sp + sizeof_itf) src sizeof_regs in
  st64 m (sp + sizeof_itf + offsetof true regs_l "rax") 0.

(** ** Running listings *)
Lemma upd_eq `{EqDecision K} (k : K) v f : upd k v f k = v.
Proof. unfold upd. by rewrite decide_True. Qed.
Lemma upd_ne `{EqDecision K} (k k' : K) v f : k' ≠ k → upd k v f k' = f k'.
Proof. intros. unfold upd. by rewrite decide_False. Qed.

Definition set_gm (g : reg → Z) (m : mem) (c : cpu) : cpu :=
  Cpu g (rip_ c) (rflags c) (cs c) (ss c) (ds c) (msr c) m.

Lemma wp_run_app l1 l2 c Q : wp (run l1) c (λ _ c', wp (run l2) c' Q) → wp (run (l1 ++ l2)) c Q.
Proof.
  revert c. induction l1 as [|i l1 IH]; intros c H; [exact H|]. cbn [run app] in *.
  apply wp_bind_inv in H. apply wp_bind. eapply wp_mono; [exact H|]. intros [] c'. apply IH.
Qed.

(** Pushing values: what is below and on the stack afterwards. *)
Fixpoint push_list (vs : list Z) (c : cpu) : cpu :=
  match vs with
  | [] => c
  | v :: vs' => push_list vs' (push_val v c)
  end.

Record pushed (vs : list Z) (c : cpu) (g : reg → Z) (m : mem) : Prop := Pushed {
  pu_sp : g RSP = gpr c RSP - 8 * Z.of_nat (length vs);
  pu_gpr r : r ≠ RSP → g r = gpr c r;
  pu_word i v : reverse vs !! i = Some v → ld64 m (g RSP + 8 * Z.of_nat i) = v;
  pu_else a : a < g RSP ∨ gpr c RSP ≤ a → ld8 m a = ld8 (cmem c) a;
}.

Lemma push_list_ok vs : ∀ c, 8 * Z.of_nat (length vs) ≤ gpr c RSP < 2 ^ 64 → Forall (λ v, 0 ≤ v < 2 ^ 64) vs →
  ∃ g m, push_list vs c = set_gm g m c ∧ pushed vs c g m.
Proof.
  induction vs as [|v vs IH]; intros c Hsp Hv; cbn [push_list length] in *.
  { exists (gpr c), (cmem c). split; [by destruct c|]. split; cbn [length]; [lia|done|done|done]. }
  apply list.Forall_cons in Hv as [Hv Hvs]. set (c1 := push_val v c).
  assert (gpr c1 RSP = gpr c RSP - 8) as E1.
  { unfold c1, push_val. cbn [gpr set_gpr]. rewrite upd_eq. apply w64_small. lia. }
  assert (cmem c1 = st64 (cmem c) (gpr c RSP - 8) v) as E3.
  { unfold c1, push_val. cbn [cmem set_gpr set_cmem]. by rewrite w64_small by lia. }
  destruct (IH c1) as (g & m & -> & [G1 G2 M1 M2]); [lia|done|]. exists g, m. split; [done|].
  assert (g RSP = gpr c RSP - 8 * Z.of_nat (S (length vs))) as G3 by lia. split; cbn [length]; [done| | |].
  - intros r Hr. rewrite G2 by done. unfold c1, push_val. cbn [gpr set_gpr]. by rewrite upd_ne.
  - intros i x Hi. rewrite reverse_cons in Hi. apply lookup_app_Some in Hi as [Hi|[Hl Hi]]; [by apply M1|].
    rewrite length_reverse in *. apply list_lookup_singleton_Some in Hi as [Hi <-].
    assert (g RSP + 8 * Z.of_nat i = gpr c RSP - 8) as -> by lia.
    transitivity (ld64 (cmem c1) (gpr c RSP - 8)); [|rewrite E3; by apply ld64_st64_eq].
    apply ld_ext. intros b Hb. cbn in Hb. apply M2. lia.
  - intros a Ha. rewrite M2 by lia. rewrite E3. apply ld8_st_ne. cbn. lia.
Qed.

Lemma run_pushes rs c : RSP ∉ rs → run (map Push rs) c = Ok (tt, push_list (map (gpr c) rs) c).
Proof.
  revert c. induction rs as [|r rs IH]; intros c Hr; [done|]. rewrite not_elem_of_cons in Hr. destruct Hr as [_ Hr].
  cbn [map run step push_list]. unfold mbind_, modify. rewrite IH by done. do 3 f_equal. apply map_ext_in. intros x Hx.
  unfold push_val. cbn [gpr set_gpr]. apply upd_ne. intros ->. apply Hr. by apply list_elem_of_In.
Qed.

(** The words on the stack, from its top. *)
Lemma wp_push_frame rs c Q : RSP ∉ rs → 8 * Z.of_nat (length rs) ≤ gpr c RSP < 2 ^ 64 → (∀ r, r ∈ rs → 0 ≤ gpr c r < 2 ^ 64) →
  (∀ g m, g RSP = gpr c RSP - 8 * Z.of_nat (length rs) → (∀ r, r ≠ RSP → g r = gpr c r) →
    (∀ i r, reverse rs !! i = Some r → ld64 m (g RSP + 8 * Z.of_nat i) = gpr c r) →
    (∀ a, a < g RSP ∨ gpr c RSP ≤ a → ld8 m a = ld8 (cmem c) a) → Q tt (set_gm g m c)) →
  wp (run (map Push rs)) c Q.
Proof.
  intros Hr Hsp Hv HQ. apply wp_run. eexists _, _. split; [by apply run_pushes|].
  destruct (push_list_ok (map (gpr c) rs) c) as (g & m & -> & [G1 G2 M1 M2]).
  - by rewrite length_map.
  - apply Forall_map, list.Forall_forall. exact Hv.
  - rewrite length_map in *. apply HQ; [done|done| |done]. intros i r Hi. apply M1.
    change (@map reg Z) with (@fmap list list_fmap reg Z). rewrite <- fmap_reverse, list_lookup_fmap, Hi. done.
Qed.

Lemma wp_pops rs : ∀ c Q, RSP ∉ rs → NoDup rs → 0 ≤ gpr c RSP → gpr c RSP + 8 * Z.of_nat (length rs) < 2 ^ 64 →
  (∀ g, g RSP = gpr c RSP + 8 * Z.of_nat (length rs) →
    (∀ i r, rs !! i = Some r → g r = ld64 (cmem c) (gpr c RSP + 8 * Z.of_nat i)) →
    (∀ r, r ≠ RSP → r ∉ rs → g r = gpr c r) → Q tt (set_gm g (cmem c) c)) →
  wp (run (map Pop rs)) c Q.
Proof.
  induction rs as [|r rs IH]; intros c Q Hr Hnd Hsp Hsp2 HQ; cbn [map run].
  { apply wp_ret. specialize (HQ (gpr c)). destruct c. apply HQ; cbn; (done || lia). }
  rewrite not_elem_of_cons in Hr. destruct Hr as [Hne Hr]. apply list.NoDup_cons in Hnd as [Hni Hnd]. cbn [length] in *.
  apply wp_bind, wp_modify. cbn beta. set (c1 := set_gpr r _ _).
  assert (gpr c1 RSP = gpr c RSP + 8) as E1.
  { unfold c1, drop_val. cbn [gpr set_gpr]. rewrite upd_ne, upd_eq by done. apply w64_small. lia. }
  assert (gpr c1 r = ld64 (cmem c) (gpr c RSP)) as E2 by (unfold c1; cbn [gpr set_gpr]; by rewrite upd_eq).
  assert (∀ x, x ≠ RSP → x ≠ r → gpr c1 x = gpr c x) as E3.
  { intros x Hx Hxr. unfold c1, drop_val. cbn [gpr set_gpr]. by rewrite !upd_ne. }
  apply (IH c1); [done|done|lia|lia|]. rewrite E1. change (cmem c1) with (cmem c).
  intros g Hg1 Hg2 Hg3. change (set_gm g (cmem c) c1) with (set_gm g (cmem c) c). apply HQ.
  - lia.
  - intros [|i] x Hx; cbn in Hx.
    + injection Hx as <-. rewrite Hg3, E2 by done. f_equal. lia.
    + rewrite (Hg2 i x Hx). f_equal. lia.
  - intros x Hx Hxn. rewrite not_elem_of_cons in Hxn. destruct Hxn. rewrite Hg3, E3 by done. done.
Qed.

(** ** System calls *)

(** What a call of a C function keeps. *)
Definition callee_saved : list reg := [RSP; RBX; RBP; R12; R13; R14; R15].
Record c_call (c c' : cpu) : Prop := CCall {
  cc_gpr r : r ∈ callee_saved → gpr c' r = gpr c r;
  cc_msr : msr c' = msr c;
  cc_cs : cs c' = cs c;
}.

(** Registers hold 64-bit values. *)
Definition word_regs (c : cpu) : Prop := ∀ r, 0 ≤ gpr c r < 2 ^ 64.

(** The model-specific registers, as [syscall_enable] leaves them. *)
Record syscalls_enabled (entry : Z) (c : cpu) : Prop := SyscallsEnabled {
  se_lstar : msr c IA32_LSTAR = entry;
  se_star : Z.shiftr (msr c IA32_STAR) 32 = 0x00100008;
  se_efer : Z.testbit (msr c IA32_EFER) 0 = true;
  se_fmask : Z.testbit (msr c IA32_FMASK) 9 = true ∧ Z.testbit (msr c IA32_FMASK) 10 = true;
}.

(** The registers that user code enters the kernel with, as [do_syscall] sees
    them: [rip] is where it goes on, [rcx] and [r11] are what the instruction
    puts there, [rbp] is 0. *)
Definition entered (next : Z) (c : cpu) : regs :=
  Regs (gpr c RAX) next (gpr c RSP)
    [gpr c R15; gpr c R14; gpr c R13; gpr c R12; rflags c; gpr c R10; gpr c R9; gpr c R8; 0; gpr c RSI; gpr c RDI; gpr c RDX;
     next; gpr c RBX].

Lemma regs_at_words m a : regs_at m a =
  Regs (ld64 m (a + 112)) (ld64 m (a + 120)) (ld64 m (a + 128))
    (map (λ i, ld64 m (a + 8 * i)) [0; 1; 2; 3; 4; 5; 6; 7; 8; 9; 10; 11; 12; 13]).
Proof. reflexivity. Qed.

Section entry.
Variables rsp_scratch current_task_stack : Z.
Hypothesis Happart : rsp_scratch + 8 ≤ current_task_stack ∨ current_task_stack + 8 ≤ rsp_scratch.

Lemma syscall_enter_ok c next top Q :
  word_regs c → gpr c RCX = next → ld64 (cmem c) current_task_stack = top → 136 ≤ top →
  (∀ c', gpr c' RSP = top - 136 → gpr c' RDI = top - 136 → (∀ r, r ≠ RSP → r ≠ RDI → r ≠ RBP → gpr c' r = gpr c r) →
    msr c' = msr c → cs c' = cs c →
    regs_at (cmem c') (top - 136) =
      Regs (gpr c RAX) next (gpr c RSP)
        [gpr c R15; gpr c R14; gpr c R13; gpr c R12; gpr c R11; gpr c R10; gpr c R9; gpr c R8; 0; gpr c RSI; gpr c RDI; gpr c RDX;
         next; gpr c RBX] →
    (∀ a, ¬ top - 136 ≤ a < top → ¬ rsp_scratch ≤ a < rsp_scratch + 8 → ld8 (cmem c') a = ld8 (cmem c) a) → Q tt c') →
  wp (run (syscall_enter rsp_scratch current_task_stack)) c Q.
Proof.
  intros Hw Hcx Htop H136 HQ. pose proof (ld64_range (cmem c) current_task_stack) as Hr. rewrite Htop in Hr.
  unfold syscall_enter. apply (wp_run_app [StoreAt _ _; _; _; _; _]). cbn [run step].
  do 5 (apply wp_bind, wp_modify; cbn beta). apply wp_ret. set (c5 := push_val _ _).
  set (m1 := st64 (cmem c) rsp_scratch (gpr c RSP)).
  assert (ld64 m1 rsp_scratch = gpr c RSP) as Hs by apply ld64_st64_eq, Hw.
  assert (c5 = push_val next (push_val (gpr c RSP) (set_gpr RSP top (set_gpr RBP 0 (set_cmem m1 c))))) as E5.
  { unfold c5, push_val. cbn [gpr cmem set_gpr set_cmem]. fold m1.
    assert (ld64 m1 current_task_stack = top) as E by (unfold m1; by rewrite ld64_st64_ne by lia).
    rewrite E, Hs. by rewrite (upd_ne RSP RCX), (upd_ne RSP RCX), (upd_ne RBP RCX), Hcx by done. }
  clearbody c5.
  assert (gpr c5 RSP = top - 16 ∧ (∀ r, r ≠ RSP → r ≠ RBP → gpr c5 r = gpr c r) ∧ gpr c5 RBP = 0 ∧
    cmem c5 = st64 (st64 m1 (top - 8) (gpr c RSP)) (top - 16) next ∧
    msr c5 = msr c ∧ cs c5 = cs c) as (S5 & G5 & B5 & M5 & R5 & C5).
  { subst c5. unfold push_val. cbn [gpr cmem set_gpr set_cmem msr cs]. rewrite !upd_eq, (w64_small (top - 8)) by lia.
    replace (top - 8 - 8) with (top - 16) by lia. rewrite w64_small by lia. repeat split.
    intros r H1 H2. by rewrite !upd_ne. }
  clear E5 Hs. apply wp_run_app, wp_push_frame; [set_solver|cbn; lia| |].
  { intros r Hr'. destruct (decide (r = RBP)) as [->|]; [lia|]. rewrite G5; [apply Hw|set_solver|done]. }
  intros g m Hg1 Hg2 Hm1 Hm2. cbn [run step]. apply wp_bind, wp_modify, wp_ret. cbn in Hg1. rewrite S5 in *.
  assert (ld64 m (top - 16) = next ∧ ld64 m (top - 8) = gpr c RSP) as [W1 W2].
  { split.
    - transitivity (ld64 (cmem c5) (top - 16)); [apply ld_ext; intros b Hb; apply Hm2; cbn in *; lia|].
      rewrite M5. apply ld64_st64_eq. rewrite <- Hcx. apply Hw.
    - transitivity (ld64 (cmem c5) (top - 8)); [apply ld_ext; intros b Hb; apply Hm2; cbn in *; lia|].
      rewrite M5, ld64_st64_ne by lia. apply ld64_st64_eq, Hw. }
  apply HQ; cbn [gpr set_gpr set_gm cmem].
  - rewrite upd_ne by done. lia.
  - rewrite upd_eq. lia.
  - intros r H1 H2 H3. rewrite upd_ne by done. rewrite Hg2, G5 by done. done.
  - done.
  - done.
  - rewrite regs_at_words. cbn [map].
    assert (∀ i r, regs_popped !! i = Some r → ld64 m (top - 136 + 8 * Z.of_nat i) = if decide (r = RBP) then 0 else gpr c r) as Hm.
    { intros i r Hi. replace (top - 136 + 8 * Z.of_nat i) with (g RSP + 8 * Z.of_nat i) by lia. rewrite (Hm1 i r Hi).
      case_decide as Hd; [by subst|]. apply G5; [|done]. intros ->. apply list_elem_of_lookup_2 in Hi. set_solver. }
    replace (top - 136 + 120) with (top - 16) by lia. replace (top - 136 + 128) with (top - 8) by lia. rewrite W1, W2.
    f_equal; [exact (Hm 14%nat RAX eq_refl)|]. rewrite <- Hcx.
    repeat (f_equal; [first [exact (Hm 0%nat _ eq_refl)|exact (Hm 1%nat _ eq_refl)|exact (Hm 2%nat _ eq_refl)|exact (Hm 3%nat _ eq_refl)
      |exact (Hm 4%nat _ eq_refl)|exact (Hm 5%nat _ eq_refl)|exact (Hm 6%nat _ eq_refl)|exact (Hm 7%nat _ eq_refl)|exact (Hm 8%nat _ eq_refl)
      |exact (Hm 9%nat _ eq_refl)|exact (Hm 10%nat _ eq_refl)|exact (Hm 11%nat _ eq_refl)|exact (Hm 12%nat _ eq_refl)]|]).
    f_equal. exact (Hm 13%nat _ eq_refl).
  - intros a Ha1 Ha2. cbn in Hm2. rewrite Hm2 by lia. rewrite M5. unfold m1, st64. by rewrite !ld8_st_ne by (cbn; lia).
Qed.
End entry.

(** The register that a [struct regs] gives to the machine. *)
Definition gpr_of (f : regs) (r : reg) : Z :=
  let o i := default 0 (others f !! i) in
  match r with
  | RAX => rax f | RSP => rsp f
  | R15 => o 0%nat | R14 => o 1%nat | R13 => o 2%nat | R12 => o 3%nat | R11 => o 4%nat | R10 => o 5%nat | R9 => o 6%nat
  | R8 => o 7%nat | RBP => o 8%nat | RSI => o 9%nat | RDI => o 10%nat | RDX => o 11%nat | RCX => o 12%nat | RBX => o 13%nat
  end.

(** User mode at the registers of [f], the two aside that [sysret] uses. *)
Record resumed (f : regs) (c : cpu) : Prop := Resumed {
  rs_rip : rip_ c = rip f;
  rs_gpr r : r ≠ RCX → r ≠ R11 → gpr c r = gpr_of f r;
  rs_rcx : gpr c RCX = rip f;
  rs_r11 : gpr c R11 = 0x202;
  rs_flags : rflags c = 0x202;
  rs_sel : cs c = 0x23 ∧ ss c = 0x1b;
}.

Lemma star_sysret c : Z.shiftr (msr c IA32_STAR) 32 = 0x00100008 → Z.shiftr (msr c IA32_STAR) 48 = 0x10.
Proof. intros H. change 48 with (32 + 16). by rewrite <- Z.shiftr_shiftr, H by lia. Qed.

(** The pops of both ways back to the user. *)
Lemma pops_ok c (Q : unit → cpu → Prop) : 0 ≤ gpr c RSP → gpr c RSP + 136 < 2 ^ 64 →
  (∀ g, (∀ r, r ≠ RCX → g r = gpr_of (regs_at (cmem c) (gpr c RSP)) r) →
    g RCX = rip (regs_at (cmem c) (gpr c RSP)) → Q tt (set_gm g (cmem c) c)) →
  wp (run (map Pop regs_popped ++ [Pop RCX; Pop RSP])) c Q.
Proof.
  intros H0 H1 HQ. set (a := gpr c RSP) in *. apply wp_run_app, wp_pops; [set_solver| |done|cbn; lia|].
  { by apply (bool_decide_unpack _). }
  intros g Hg1 Hg2 _. fold a in Hg1, Hg2. cbn [run step]. do 2 (apply wp_bind, wp_modify; cbn beta). apply wp_ret.
  match goal with |- Q tt ?x => set (c' := x) end.
  assert (c' = set_gm (gpr c') (cmem c) c) as -> by (by unfold c', set_gm, set_gpr, drop_val, set_gm).
  cbn in Hg1. assert (gpr c' RCX = ld64 (cmem c) (a + 120)) as E1.
  { unfold c', top_val, drop_val. cbn [gpr set_gpr set_gm cmem]. rewrite upd_ne, upd_ne, upd_eq by done. f_equal. lia. }
  assert (gpr c' RSP = ld64 (cmem c) (a + 128)) as E2.
  { unfold c', top_val, drop_val. cbn [gpr set_gpr set_gm cmem]. rewrite upd_eq, upd_ne, upd_eq by done. f_equal.
    rewrite w64_small by lia. lia. }
  assert (∀ r, r ≠ RCX → r ≠ RSP → gpr c' r = g r) as E3.
  { intros r Hr1 Hr2. unfold c', drop_val. cbn [gpr set_gpr set_gm cmem]. by rewrite !upd_ne by done. }
  clearbody c'. apply HQ; [|by rewrite E1, regs_at_words].
  intros r Hr. rewrite regs_at_words. destruct (decide (r = RSP)) as [->|Hr2]; [done|]. rewrite E3 by done.
  destruct r; try done.
  - exact (Hg2 14%nat _ eq_refl). - exact (Hg2 13%nat _ eq_refl). - exact (Hg2 11%nat _ eq_refl). - exact (Hg2 9%nat _ eq_refl).
  - exact (Hg2 10%nat _ eq_refl). - exact (Hg2 8%nat _ eq_refl). - exact (Hg2 7%nat _ eq_refl). - exact (Hg2 6%nat _ eq_refl).
  - exact (Hg2 5%nat _ eq_refl). - exact (Hg2 4%nat _ eq_refl). - exact (Hg2 3%nat _ eq_refl). - exact (Hg2 2%nat _ eq_refl).
  - exact (Hg2 1%nat _ eq_refl). - exact (Hg2 0%nat _ eq_refl).
Qed.

Lemma sysret_ok c f Q : in_kernel c = true → Z.shiftr (msr c IA32_STAR) 32 = 0x00100008 → gpr c R11 = 0x202 → gpr c RCX = rip f →
  (∀ r, r ≠ RCX → r ≠ R11 → gpr c r = gpr_of f r) → (∀ c', resumed f c' → cmem c' = cmem c → Q tt c') → wp (step Sysret) c Q.
Proof.
  intros Hk Hs H11 Hcx Hg HQ. unfold step, kernel_only, wp. rewrite Hk. cbn [modify].
  rewrite (star_sysret _ Hs), H11, Hcx. by apply HQ.
Qed.

Lemma syscall_leave_ok c f (Q : unit → cpu → Prop) : in_kernel c = true → Z.shiftr (msr c IA32_STAR) 32 = 0x00100008 →
  0 ≤ gpr c RSP → gpr c RSP + 136 < 2 ^ 64 → regs_at (cmem c) (gpr c RSP) = f →
  (∀ c', resumed f c' → cmem c' = cmem c → Q tt c') → wp (run syscall_leave) c Q.
Proof.
  intros Hk Hs H0 H1 <- HQ. unfold syscall_leave.
  change (_ ++ [_; _; _; _]) with ((map Pop regs_popped ++ [Pop RCX; Pop RSP]) ++ [MovImm R11 0x202; Sysret]).
  apply wp_run_app, pops_ok; [done|done|]. intros g Hg1 Hg2. cbn [run]. apply wp_bind, wp_modify, wp_bind.
  eapply (sysret_ok _ (regs_at (cmem c) (gpr c RSP))); cbn [gpr set_gpr set_gm]; [done|done|by rewrite upd_eq|by rewrite upd_ne| |].
  - intros r Hr1 Hr2. rewrite upd_ne by done. by apply Hg1.
  - intros c' Hc Hm. apply wp_ret. by apply HQ.
Qed.

Lemma pop_regs_ok c f (Q : unit → cpu → Prop) : in_kernel c = true → Z.shiftr (msr c IA32_STAR) 32 = 0x00100008 →
  0 ≤ gpr c RSP → gpr c RSP + 136 < 2 ^ 64 → regs_at (cmem c) (gpr c RSP) = f →
  (∀ c', resumed f c' → cmem c' = cmem c → Q tt c') → wp (run pop_regs_and_sysret) c Q.
Proof.
  intros Hk Hs H0 H1 <- HQ. unfold pop_regs_and_sysret.
  change (_ ++ [_; _; _; _; _; _]) with
    ((map Pop regs_popped ++ [Pop RCX; Pop RSP]) ++ [MovImm R11 0x1b; MovDs R11; MovImm R11 0x202; Sysret]).
  apply wp_run_app, pops_ok; [done|done|]. intros g Hg1 Hg2. cbn [run].
  do 3 (apply wp_bind, wp_modify; cbn beta). apply wp_bind.
  eapply (sysret_ok _ (regs_at (cmem c) (gpr c RSP))); cbn [gpr set_gpr set_gm set_ds]; [done|done|by rewrite upd_eq|by rewrite !upd_ne| |].
  - intros r Hr1 Hr2. rewrite !upd_ne by done. by apply Hg1.
  - intros c' Hc Hm. apply wp_ret. by apply HQ.
Qed.

(** ** Switching stacks *)
Definition switch_pushed : list reg := [RBP; RBX; R12; R13; R14; R15].

Lemma switch_ok c Q : word_regs c → 48 ≤ gpr c RSP → gpr c RDI + 56 < 2 ^ 64 →
  gpr c RSI + 8 ≤ gpr c RSP - 48 ∨ gpr c RSP ≤ gpr c RSI →
  (∀ c', (∀ a, ¬ gpr c RSP - 48 ≤ a < gpr c RSP → ¬ gpr c RSI ≤ a < gpr c RSI + 8 → ld8 (cmem c') a = ld8 (cmem c) a) →
    ld64 (cmem c') (gpr c RSI) = gpr c RSP - 48 →
    (∀ i r, reverse switch_pushed !! i = Some r → ld64 (cmem c') (gpr c RSP - 48 + 8 * Z.of_nat i) = gpr c r) →
    (∀ i r, reverse switch_pushed !! i = Some r → gpr c' r = ld64 (cmem c') (gpr c RDI + 8 * Z.of_nat i)) →
    rip_ c' = ld64 (cmem c') (gpr c RDI + 48) → gpr c' RSP = gpr c RDI + 56 → msr c' = msr c → cs c' = cs c → Q tt c') →
  wp (run switch_to_asm) c Q.
Proof.
  intros Hw H48 H56 Hsep HQ. pose proof (Hw RSP). pose proof (Hw RDI).
  change switch_to_asm with (map Push switch_pushed ++ [Store RSI RSP; Mov RSP RDI] ++ map Pop (reverse switch_pushed) ++ [Ret]).
  apply wp_run_app, wp_push_frame; [set_solver|cbn; lia|intros; apply Hw|]. intros g m Hg1 Hg2 Hm1 Hm2. cbn [length switch_pushed] in Hg1.
  change (8 * Z.of_nat 6) with 48 in Hg1. apply wp_run_app. cbn [run step]. do 2 (apply wp_bind, wp_modify; cbn beta). apply wp_ret.
  cbn [gpr set_gpr set_cmem set_gm cmem]. rewrite (Hg2 RSI), (Hg2 RDI), Hg1 by done.
  set (m' := st64 m (gpr c RSI) (gpr c RSP - 48)). apply wp_run_app.
  apply wp_pops; cbn [gpr set_gpr set_cmem set_gm cmem]; rewrite ?upd_eq; [set_solver|by apply (bool_decide_unpack _)|lia|cbn; lia|].
  intros g' Hg1' Hg2' _. cbn [run step]. apply wp_bind, wp_modify, wp_ret. cbn in Hg1'.
  apply HQ; cbn [gpr set_gpr set_rip_ set_gm cmem rip_ msr cs set_cmem].
  - intros a Ha1 Ha2. change (ld8 m' a = ld8 (cmem c) a). unfold m', st64. rewrite ld8_st_ne by (cbn; lia). apply Hm2. rewrite Hg1. lia.
  - change (ld64 m' (gpr c RSI) = gpr c RSP - 48). apply ld64_st64_eq. lia.
  - intros i r Hi. change (ld64 m' (gpr c RSP - 48 + 8 * Z.of_nat i) = gpr c r). unfold m'. pose proof (lookup_lt_Some _ _ _ Hi) as Hlt. change (length (reverse switch_pushed)) with 6%nat in Hlt.
    rewrite ld64_st64_ne by lia. rewrite <- (Hm1 _ _ Hi), Hg1. done.
  - intros i r Hi. change (upd RSP (w64 (g' RSP + 8)) g' r = ld64 m' (gpr c RDI + 8 * Z.of_nat i)).
    rewrite upd_ne; [by apply Hg2'|]. intros ->. apply list_elem_of_lookup_2 in Hi. set_solver.
  - change (ld64 m' (g' RSP) = ld64 m' (gpr c RDI + 48)). by rewrite Hg1'.
  - unfold drop_val. cbn [gpr set_gpr set_gm cmem]. rewrite upd_eq, Hg1', w64_small by lia. lia.
  - done.
  - done.
Qed.

(** ** The properties *)

(** C28: a task that calls [switch_to_asm] and is switched to later, by a call
    with the stack pointer that was saved and with the seven words of its stack
    as it left them, returns from its own call: at its return address, with the
    stack pointer behind it and with every register that a C caller relies on. *)
Theorem switch_resumes (c c2 : cpu)
    (Hw : word_regs c) (Hw2 : word_regs c2) (Hsp : 48 ≤ gpr c RSP) (Hsp' : gpr c RSP + 8 < 2 ^ 64) (Hsp2 : 48 ≤ gpr c2 RSP) (Hto : gpr c RDI + 56 < 2 ^ 64)
    (Hold : gpr c RSI + 8 ≤ gpr c RSP - 48 ∨ gpr c RSP + 8 ≤ gpr c RSI)
    (Hold2 : gpr c2 RSI + 8 ≤ gpr c2 RSP - 48 ∨ gpr c2 RSP ≤ gpr c2 RSI)
    (Hother : gpr c RSP + 8 ≤ gpr c2 RSP - 48 ∨ gpr c2 RSP ≤ gpr c RSP - 48)
    (Hsi : gpr c2 RSI + 8 ≤ gpr c RSP - 48 ∨ gpr c RSP + 8 ≤ gpr c2 RSI) :
  wp (run switch_to_asm) c (λ _ c1, ld64 (cmem c1) (gpr c RSI) = gpr c RSP - 48 ∧
    (gpr c2 RDI = gpr c RSP - 48 →
     (∀ a, gpr c RSP - 48 ≤ a < gpr c RSP + 8 → ld8 (cmem c2) a = ld8 (cmem c1) a) →
     wp (run switch_to_asm) c2 (λ _ c3, rip_ c3 = ld64 (cmem c) (gpr c RSP) ∧ gpr c3 RSP = gpr c RSP + 8 ∧
       ∀ r, r ∈ switch_pushed → gpr c3 r = gpr c r))).
Proof.
  apply switch_ok; [done|done|lia|lia|].
  - intros c1 M1 W1 F1 _ _ _ _ _. split; [done|]. intros Hdi Hkeep.
    apply switch_ok; [done|done|lia|lia|]. rewrite Hdi. intros c3 M3 _ _ G3 R3 S3 _ _.
    assert (∀ i, 0 ≤ i → i + 8 ≤ 56 → ld64 (cmem c3) (gpr c RSP - 48 + i) = ld64 (cmem c1) (gpr c RSP - 48 + i)) as HM.
    { intros i Hi1 Hi2. apply ld_ext. intros b Hb. cbn in Hb. rewrite M3 by lia. apply Hkeep. lia. }
    split; [|split].
    + rewrite R3, HM by lia. replace (gpr c RSP - 48 + 48) with (gpr c RSP) by lia. apply ld_ext. intros b Hb. cbn in Hb. apply M1; lia.
    + rewrite S3. lia.
    + intros r Hr. apply elem_of_reverse, list_elem_of_lookup_1 in Hr as [i Hi]. rewrite (G3 _ _ Hi).
      pose proof (lookup_lt_Some _ _ _ Hi) as Hlt. change (length (reverse switch_pushed)) with 6%nat in Hlt.
      rewrite HM by lia. by apply F1.
Qed.


Lemma regs_at_ext m m' a b : (∀ i, 0 ≤ i < 136 → ld8 m' (b + i) = ld8 m (a + i)) → regs_at m' b = regs_at m a.
Proof.
  intros H. assert (∀ i, 0 ≤ i → i + 8 ≤ 136 → ld64 m' (b + i) = ld64 m (a + i)) as Hw.
  { intros i Hi1 Hi2. unfold ld64. remember 8%nat as n eqn:En. assert (i + Z.of_nat n ≤ 136) as Hn by lia. clear En Hi2.
    revert i Hi1 Hn. induction n as [|n IH]; intros i Hi1 Hn; [done|]. cbn [ld]. rewrite H by lia.
    replace (b + i + 1) with (b + (i + 1)) by lia. replace (a + i + 1) with (a + (i + 1)) by lia. rewrite IH by lia. done. }
  rewrite !regs_at_words. cbn [map]. by rewrite !Hw by lia.
Qed.

Lemma regs_at_rax m a : regs_at (st64 m (a + 112) 0) a = set_rax (regs_at m a) 0.
Proof.
  rewrite !regs_at_words. cbn [map]. rewrite ld64_st64_eq by lia. by rewrite !ld64_st64_ne by lia.
Qed.

(** C16: a forked task enters the user program: [init_task_stack] and [do_fork]
    prepare its stack so that the first switch to it arrives at
    [pop_regs_and_sysret], which goes to user mode with the registers of its
    parent ([src] is where they are) and 0 in [rax]. *)
Theorem fork_child_starts (ret_addr sp src : Z) (f : regs) (m0 : mem) (c : cpu)
    (Hkernel : in_kernel c = true) (Hstar : Z.shiftr (msr c IA32_STAR) 32 = 0x00100008) (Hw : word_regs c)
    (Hret : 0 ≤ ret_addr < 2 ^ 64) (Hsp : 0 ≤ sp ∧ sp + sizeof_fork_frame < 2 ^ 64)
    (Hf : regs_at m0 src = f) (Hsrc : src + 136 ≤ sp ∨ sp + sizeof_fork_frame ≤ src)
    (Hm : cmem c = copy_regs src sp (init_fork_frame ret_addr sp m0))
    (Hrdi : gpr c RDI = sp) (Hstack : 48 ≤ gpr c RSP)
    (Hmine : gpr c RSP ≤ sp ∨ sp + sizeof_fork_frame ≤ gpr c RSP - 48)
    (Hold : gpr c RSI + 8 ≤ gpr c RSP - 48 ∨ gpr c RSP ≤ gpr c RSI)
    (Hold2 : gpr c RSI + 8 ≤ sp ∨ sp + sizeof_fork_frame ≤ gpr c RSI) :
  wp (run switch_to_asm) c (λ _ c1, rip_ c1 = ret_addr ∧
    wp (run pop_regs_and_sysret) c1 (λ _ c2, resumed (set_rax f 0) c2)).
Proof.
  change sizeof_fork_frame with 192 in *. apply switch_ok; [done|done|lia|done|]. rewrite Hrdi.
  intros c1 M1 _ _ _ R1 S1 MS1 C1.
  assert (∀ b, sp ≤ b < sp + 192 → ld8 (cmem c1) b = ld8 (cmem c) b) as HM by (intros b Hb; apply M1; lia).
  set (m1 := init_fork_frame ret_addr sp m0) in *. set (m2 := memcpy m1 (sp + sizeof_itf) src sizeof_regs).
  assert (cmem c = st64 m2 (sp + 168) 0) as Hm2.
  { rewrite Hm. unfold copy_regs. fold m2. f_equal. change sizeof_itf with 56. change (offsetof true regs_l "rax") with 112. lia. }
  assert (∀ b, b < sp + 56 ∨ sp + 192 ≤ b → ld8 (cmem c) b = ld8 m1 b) as Hlow.
  { intros b Hb. rewrite Hm2. unfold st64. rewrite ld8_st_ne by (cbn; lia). unfold m2. change sizeof_itf with 56. change sizeof_regs with 136.
    rewrite ld8_memcpy by lia. by rewrite decide_False by lia. }
  split.
  - rewrite R1. transitivity (ld64 m1 (sp + 48)).
    + apply ld_ext. intros b Hb. cbn in Hb. rewrite HM by lia. apply Hlow. lia.
    + unfold m1, init_fork_frame. change (offsetof false inactive_task_frame "ret_addr") with 48. by apply ld64_st64_eq.
  - apply (pop_regs_ok c1 (set_rax f 0)); [| |lia|lia| |done].
    + unfold in_kernel. by rewrite C1.
    + by rewrite MS1.
    + rewrite S1, (regs_at_ext (cmem c) _ (sp + 56)) by (intros i Hi; apply HM; lia).
      rewrite Hm2. replace (sp + 168) with (sp + 56 + 112) by lia. rewrite regs_at_rax. f_equal. rewrite <- Hf. apply regs_at_ext.
      intros i Hi. unfold m2. change sizeof_itf with 56. change sizeof_regs with 136. rewrite ld8_memcpy by lia.
      rewrite decide_True by lia. replace (src + (sp + 56 + i - (sp + 56))) with (src + i) by lia.
      unfold m1, init_fork_frame, st64. change (offsetof false inactive_task_frame "rbp") with 40.
      change (offsetof false inactive_task_frame "ret_addr") with 48. by rewrite !ld8_st_ne by (cbn; lia).
Qed.

(** ** Enabling system calls *)
Lemma wp_step_modify f (m : M cpu unit) c Q : wp m (f c) Q → wp (modify f ;;* m) c Q.
Proof. intros H. by apply wp_bind, wp_modify. Qed.
Lemma wp_step_kernel f (m : M cpu unit) c Q : in_kernel c = true → wp m (f c) Q → wp (kernel_only (modify f) ;;* m) c Q.
Proof. intros Hk H. apply wp_bind. unfold kernel_only, wp. rewrite Hk. exact H. Qed.

Lemma w32_or v k : 0 ≤ k < 32 → Z.testbit (w32 v) k = Z.testbit v k.
Proof. intros Hk. unfold w32. by rewrite Z.mod_pow2_bits_low by lia. Qed.
Lemma pair_testbit lo hi k : 0 ≤ lo < 2 ^ 32 → 0 ≤ k < 32 → Z.testbit (lo + 2 ^ 32 * hi) k = Z.testbit lo k.
Proof.
  intros Hl Hk. rewrite <- (Z.mod_pow2_bits_low (lo + 2 ^ 32 * hi) 32) by lia. rewrite Z.mul_comm, Z_mod_plus_full.
  by rewrite Z.mod_small.
Qed.
Lemma pair_shiftr lo hi : 0 ≤ lo < 2 ^ 32 → Z.shiftr (lo + 2 ^ 32 * hi) 32 = hi.
Proof.
  intros Hl. rewrite Z.shiftr_div_pow2, Z.mul_comm, Z_div_plus by lia. rewrite Z.div_small by lia. lia.
Qed.

(** What a write of model-specific registers changes. *)
Record msr_written (f : Z → Z) (c c' : cpu) : Prop := MsrWritten {
  mw_msr : msr c' = f;
  mw_mem : cmem c' = cmem c;
  mw_cs : cs c' = cs c;
  mw_gpr r : r ∉ [RAX; RCX; RDX; RDI] → gpr c' r = gpr c r;
}.
Lemma msr_written_trans f1 f2 c1 c2 c3 : msr_written f1 c1 c2 → msr_written f2 c2 c3 → msr_written f2 c1 c3.
Proof.
  intros [_ M1 C1 G1] [F2 M2 C2 G2]. split; [done|congruence|congruence|]. intros r Hr. by rewrite G2, G1.
Qed.
Lemma msr_written_kernel f c c' : msr_written f c c' → in_kernel c = true → in_kernel c' = true.
Proof. intros [_ _ C _] H. unfold in_kernel. by rewrite C. Qed.

Ltac upds := repeat first [rewrite upd_eq | rewrite upd_ne by done].
Ltac run_block :=
  cbn [run step app];
  repeat lazymatch goal with
  | |- wp (mbind_ (modify _) _) _ _ => apply wp_step_modify; cbn beta
  | H : in_kernel _ = true |- wp (mbind_ (kernel_only _) _) _ _ => apply wp_step_kernel; [exact H|]; cbn beta
  end.

Section blocks.
Variables (c : cpu) (k : Z) (l : list instr) (Q : unit → cpu → Prop).
Hypotheses (Hkern : in_kernel c = true) (Hw : w32 k = k).

Ltac msr_block :=
  split; cbn [msr gpr cmem cs set_gpr set_msr]; rewrite ?Hw; upds; rewrite ?Hw; [done|done|done|];
  intros r Hr; rewrite !not_elem_of_cons in Hr; destruct Hr as (? & ? & ? & ? & _); by upds.

Lemma msr_high_ok v :
  (∀ c', msr_written (upd k (w32 (w32 (msr c k)) + 2 ^ 32 * w32 v) (msr c)) c c' → wp (run l) c' Q) →
  wp (run ([MovImm RCX k; Rdmsr; MovImm RDX v; Wrmsr] ++ l)) c Q.
Proof. intros H. run_block. apply H. msr_block. Qed.

Lemma msr_or_ok v :
  (∀ c', msr_written (upd k (w32 (w32 (Z.lor (w32 (msr c k)) v)) + 2 ^ 32 * w32 (Z.shiftr (msr c k) 32)) (msr c)) c c' → wp (run l) c' Q) →
  wp (run ([MovImm RCX k; Rdmsr; Or32 RAX v; Wrmsr] ++ l)) c Q.
Proof. intros H. run_block. apply H. msr_block. Qed.

Lemma msr_addr_ok v :
  (∀ c', msr_written (upd k (w32 (w32 v) + 2 ^ 32 * w32 (w32 (Z.shiftr v 32))) (msr c)) c c' → wp (run l) c' Q) →
  wp (run ([MovImm RCX k; Rdmsr; MovImm RDI v; Mov32 RAX RDI; Shr RDI 32; Mov32 RDX RDI; Wrmsr] ++ l)) c Q.
Proof. intros H. run_block. apply H. msr_block. Qed.
End blocks.

Lemma pair_split e : 0 ≤ e < 2 ^ 64 → w32 (w32 e) + 2 ^ 32 * w32 (w32 (Z.shiftr e 32)) = e.
Proof.
  intros He. rewrite Z.shiftr_div_pow2 by lia. unfold w32. rewrite !Z.mod_mod by lia.
  rewrite (Z.mod_small (e / 2 ^ 32)) by (split; [apply Z.div_pos; lia|apply Z.div_lt_upper_bound; lia]).
  pose proof (Z.div_mod e (2 ^ 32)). lia.
Qed.

(** [syscall_enable], which the kernel calls once when it starts, leaves the
    processor with [syscall_entry] as the target, the selectors of the kernel
    and the user, the instruction enabled, and a flag mask that turns off
    interrupts and clears the direction flag; no other such register changes. *)
Theorem syscall_enable_spec (syscall_entry : Z) (c : cpu) (Hk : in_kernel c = true) (He : 0 ≤ syscall_entry < 2 ^ 64) :
  wp (run (syscall_enable syscall_entry)) c (λ _ c', syscalls_enabled syscall_entry c' ∧
    (∀ k, k ∉ [IA32_STAR; IA32_LSTAR; IA32_EFER; IA32_FMASK] → msr c' k = msr c k) ∧
    rip_ c' = ld64 (cmem c) (gpr c RSP) ∧ cmem c' = cmem c ∧ ∀ r, r ∈ callee_saved → r ≠ RSP → gpr c' r = gpr c r).
Proof.
  change syscall_enable with (λ e, [MovImm RCX IA32_STAR; Rdmsr; MovImm RDX 0x00100008; Wrmsr] ++
    [MovImm RCX IA32_LSTAR; Rdmsr; MovImm RDI e; Mov32 RAX RDI; Shr RDI 32; Mov32 RDX RDI; Wrmsr] ++
    [MovImm RCX IA32_EFER; Rdmsr; Or32 RAX 1; Wrmsr] ++
    [MovImm RCX IA32_FMASK; Rdmsr; Or32 RAX (Z.lor (Z.shiftl 1 9) (Z.shiftl 1 10)); Wrmsr] ++ [Ret]). cbv beta.
  apply msr_high_ok; [done|done|]. intros c1 W1. pose proof (msr_written_kernel _ _ _ W1 Hk) as K1.
  apply msr_addr_ok; [done|done|]. intros c2 W2. pose proof (msr_written_kernel _ _ _ W2 K1) as K2.
  apply msr_or_ok; [done|done|]. intros c3 W3. pose proof (msr_written_kernel _ _ _ W3 K2) as K3.
  apply msr_or_ok; [done|done|]. intros c4 W4. run_block. apply wp_ret.
  pose proof (msr_written_trans _ _ _ _ _ (msr_written_trans _ _ _ _ _ (msr_written_trans _ _ _ _ _ W1 W2) W3) W4) as [F4 M4 _ G4].
  apply mw_msr in W1, W2, W3, W4. pose proof w32_range as Hr. split; [split|split; [|split; [|split]]].
  - cbn [msr set_rip_ drop_val set_gpr]. rewrite W4, W3, W2. upds. by apply pair_split.
  - cbn [msr set_rip_ drop_val set_gpr]. rewrite W4, W3, W2, W1. upds. by rewrite pair_shiftr by apply Hr.
  - cbn [msr set_rip_ drop_val set_gpr]. rewrite W4, W3. upds. rewrite pair_testbit by (done || apply Hr).
    rewrite w32_or, w32_or, Z.lor_spec by lia. by rewrite orb_true_r.
  - cbn [msr set_rip_ drop_val set_gpr]. rewrite W4. upds. rewrite !pair_testbit by (done || apply Hr).
    rewrite !w32_or, !Z.lor_spec by lia. by rewrite !orb_true_r.
  - intros k Hkk. rewrite !not_elem_of_cons in Hkk. destruct Hkk as (? & ? & ? & ? & _). cbn [msr set_rip_ drop_val set_gpr].
    by rewrite W4, upd_ne, W3, upd_ne, W2, upd_ne, W1, upd_ne.
  - cbn [rip_ set_rip_]. unfold top_val. rewrite M4, G4; [done|set_solver].
  - done.
  - intros r Hr1 Hr2. cbn [gpr set_rip_ drop_val set_gpr]. rewrite upd_ne by done. apply G4. set_solver.
Qed.

(** ** Interrupts *)
Lemma ld64_split m a : ld64 m a = ld32 m a + 2 ^ 32 * ld32 m (a + 4).
Proof.
  unfold ld64, ld32. cbn [ld]. replace (a + 1 + 1 + 1 + 1) with (a + 4) by lia. lia.
Qed.

(** The word that the stub makes of [push qword 0] and [mov dword [rsp + 4], n]. *)
Lemma info_word m a n : 0 ≤ n < 2 ^ 32 → ld64 m a = 0 → ld64 (st32 m (a + 4) n) a = 2 ^ 32 * n.
Proof.
  intros Hn Ha. rewrite ld64_split in Ha. pose proof (ld_range 4 m a) as H1. pose proof (ld_range 4 m (a + 4)) as H2.
  change (ld 4) with ld32 in *. assert (ld32 m a = 0) as H0 by lia.
  rewrite ld64_split. unfold st32 at 2, ld32 at 2. rewrite ld_st_eq, Z.mod_small by (cbn; lia).
  unfold ld32, st32. rewrite ld_st_ne by (cbn; lia). fold (ld32 m a). lia.
Qed.

Lemma run_pops_frame c Q : 0 ≤ gpr c RSP → gpr c RSP + 120 < 2 ^ 64 → in_kernel c = true →
  (∀ c', (∀ i r, isr_pushed !! i = Some r → gpr c' r = ld64 (cmem c) (gpr c RSP + 8 * Z.of_nat i)) →
    (∀ r, r ≠ RSP → r ∉ isr_pushed → gpr c' r = gpr c r) →
    rip_ c' = ld64 (cmem c) (gpr c RSP + 80) → cs c' = w16 (ld64 (cmem c) (gpr c RSP + 88)) →
    rflags c' = ld64 (cmem c) (gpr c RSP + 96) → gpr c' RSP = ld64 (cmem c) (gpr c RSP + 104) →
    ss c' = w16 (ld64 (cmem c) (gpr c RSP + 112)) → cmem c' = cmem c → Q tt c') →
  wp (run isr_common_exit) c Q.
Proof.
  intros H0 H1 Hk HQ. unfold isr_common_exit. apply wp_run_app, wp_pops; [set_solver|by apply (bool_decide_unpack _)|done|cbn; lia|].
  intros g G1 G2 G3. cbn [length isr_pushed] in G1. cbn [run step]. apply wp_bind, wp_modify. cbn beta.
  apply wp_bind. unfold kernel_only, wp at 1. change (in_kernel (set_gpr _ _ _)) with (in_kernel c). rewrite Hk.
  cbn [gpr set_gpr set_gm cmem]. rewrite upd_eq, G1, w64_small by lia. cbn [run]. apply wp_ret.
  replace (gpr c RSP + 8 * Z.of_nat 9 + 8) with (gpr c RSP + 80) by lia.
  apply HQ; cbn [gpr set_gpr set_gm cmem far rip_ cs rflags ss].
  - intros i r Hi. assert (r ≠ RSP) by (intros ->; apply list_elem_of_lookup_2 in Hi; set_solver).
    rewrite !upd_ne by done. by apply G2.
  - intros r Hr1 Hr2. rewrite !upd_ne by done. by apply G3.
  - done.
  - do 2 f_equal. lia.
  - f_equal. lia.
  - rewrite upd_eq. f_equal. lia.
  - do 2 f_equal. lia.
  - done.
Qed.

Lemma push_far v pc fl c_sel s_sel c : push_val v (far pc fl c_sel s_sel c) = far pc fl c_sel s_sel (push_val v c).
Proof. done. Qed.

(** C29: an interrupt of vector [n] (an exception without an error code, or a
    device), from its delivery to [iretq]: [isr_main_entry] gets a [struct
    isr_ctx] that holds [n], and if it leaves that struct alone, the interrupted
    code goes on where it was, with its flags, selectors and stack — but nine
    registers come back exchanged, since [isr_common] pops them in the order it
    pushed them. *)
Theorem interrupt_roundtrip (g : gate) (rsp0 n : Z) (c : cpu)
    (Hg : Z.land (g_selector g) 3 = 0) (Hn : 0 ≤ n < 48) (Hw : word_regs c)
    (Hfl : 0 ≤ rflags c < 2 ^ 64) (Hrip : 0 ≤ rip_ c < 2 ^ 64) (Hcs : 0 ≤ cs c < 2 ^ 16) (Hss : 0 ≤ ss c < 2 ^ 16)
    (Hsp : 120 ≤ Z.land (if in_kernel c then gpr c RSP else rsp0) (Z.lnot 15) < 2 ^ 64) :
  wp (run (isr_irq_stub n ++ isr_common_entry)) (interrupt g rsp0 c) (λ _ c1,
    Z.testbit (rflags c1) 9 = false ∧
    Z.land (Z.shiftr (ld64 (cmem c1) (gpr c1 RDI + field_of false isr_ctx "info")) 32) 0xFFFF = n ∧
    ∀ c2, c_call c1 c2 → (∀ a, gpr c1 RDI ≤ a < gpr c1 RDI + 120 → ld8 (cmem c2) a = ld8 (cmem c1) a) →
      wp (run isr_common_exit) c2 (λ _ c3, rip_ c3 = rip_ c ∧ rflags c3 = rflags c ∧ cs c3 = cs c ∧ ss c3 = ss c ∧
        (∀ r, r ∈ callee_saved → gpr c3 r = gpr c r) ∧
        ∀ i r r', isr_pushed !! i = Some r → reverse isr_pushed !! i = Some r' → gpr c3 r = gpr c r')).
Proof.
  set (sp := Z.land (if in_kernel c then gpr c RSP else rsp0) (Z.lnot 15)) in *.
  set (c0 := set_gpr RSP sp c).
  set (i0 := far (g_offset g) (Z.land (rflags c) (Z.lnot 0x200)) (g_selector g) (if in_kernel c then ss c else 0)).
  assert (interrupt g rsp0 c = i0 (push_list [ss c; gpr c RSP; rflags c; cs c; rip_ c] c0)) as -> by done.
  destruct (push_list_ok [ss c; gpr c RSP; rflags c; cs c; rip_ c; 0] c0) as (gp & m & Heq & [G1 G2 W E]).
  { unfold c0. cbn [gpr set_gpr length]. rewrite upd_eq. lia. }
  { repeat constructor; try lia; apply Hw. }
  cbn [length] in G1. assert (gpr c0 RSP = sp) as S0 by (unfold c0; cbn [gpr set_gpr]; by rewrite upd_eq). rewrite S0 in *.
  apply wp_run_app. cbn [isr_irq_stub run step]. do 2 (apply wp_bind, wp_modify; cbn beta). apply wp_ret.
  assert (push_val 0 (i0 (push_list [ss c; gpr c RSP; rflags c; cs c; rip_ c] c0)) = i0 (set_gm gp m c0)) as ->.
  { rewrite <- Heq. unfold i0. rewrite push_far. done. }
  unfold i0. clear i0. cbn [gpr cmem far set_gm]. set (m1 := st32 m (gp RSP + 4) n).
  apply wp_run_app, wp_push_frame; cbn [gpr far set_gm set_cmem]; [set_solver|cbn [isr_pushed length]; lia| |].
  { intros r Hr. rewrite G2 by set_solver. unfold c0. cbn [gpr set_gpr]. rewrite upd_ne by set_solver. apply Hw. }
  change (length isr_pushed) with 9%nat. intros g1 m2 F1 F2 F3 F4. cbn [run step]. apply wp_bind, wp_modify, wp_ret.
  set (a := sp - 120). assert (g1 RSP = a) as Ea by (unfold a; lia).
  assert (∀ r, r ≠ RSP → gp r = gpr c r) as Gr.
  { intros r Hr. rewrite G2 by done. unfold c0. cbn [gpr set_gpr]. by rewrite upd_ne. }
  assert (∀ i v j, reverse [ss c; gpr c RSP; rflags c; cs c; rip_ c; 0] !! S i = Some v → j = 80 + 8 * Z.of_nat i → ld64 m2 (a + j) = v) as W2.
  { intros i v j Hi ->. rewrite <- (W _ _ Hi), G1.
    replace (a + (80 + 8 * Z.of_nat i)) with (sp - 8 * Z.of_nat 6 + 8 * Z.of_nat (S i)) by lia.
    apply ld_ext. intros b Hb. cbn in Hb. rewrite F4 by lia. cbn [cmem far set_gm set_cmem]. unfold m1, st32.
    apply ld8_st_ne. cbn. lia. }
  assert (ld64 m2 (a + 72) = 2 ^ 32 * n) as Wi.
  { transitivity (ld64 m1 (gp RSP)); [|apply info_word; [lia|]; rewrite <- (W 0%nat 0 eq_refl); f_equal; lia].
    replace (gp RSP) with (a + 72) by lia. apply ld_ext. intros b Hb. cbn in Hb. apply F4. lia. }
  cbn [gpr set_gpr set_gm cmem rflags far set_cmem]. rewrite upd_eq, Ea. split; [|split].
  - by rewrite Z.land_spec, Z.lnot_spec, andb_false_r by lia.
  - change (field_of false isr_ctx "info") with 72. rewrite Wi, Z.shiftr_div_pow2, Z.mul_comm, Z.div_mul by lia.
    change 0xFFFF with (Z.ones 16). rewrite Z.land_ones by lia. apply Z.mod_small. lia.
  - intros c2 [CG CM CC] Hkeep. cbn [cs set_gpr set_gm far set_cmem] in CC.
    assert (gpr c2 RSP = a) as S2.
    { rewrite CG by set_solver. cbn [gpr set_gpr set_gm]. by rewrite upd_ne. }
    assert (∀ i, 0 ≤ i → i + 8 ≤ 120 → ld64 (cmem c2) (a + i) = ld64 m2 (a + i)) as HM.
    { intros i Hi1 Hi2. apply ld_ext. intros b Hb. cbn in Hb. apply Hkeep. lia. }
    apply run_pops_frame; [lia|lia|unfold in_kernel; by rewrite CC, Hg|]. rewrite S2.
    intros c3 P1 P2 P3 P4 P5 P6 P7 _.
    rewrite P3, P4, P5, P7, !HM by lia.
    rewrite (W2 0%nat _ 80 eq_refl eq_refl), (W2 1%nat _ 88 eq_refl eq_refl), (W2 2%nat _ 96 eq_refl eq_refl),
      (W2 4%nat _ 112 eq_refl eq_refl), !w16_small by lia.
    repeat split.
    + intros r Hr. destruct (decide (r = RSP)) as [->|Hne].
      { by rewrite P6, HM, (W2 3%nat _ 104 eq_refl eq_refl) by lia. }
      assert (r ∉ isr_pushed) by set_solver. rewrite P2, CG by done. cbn [gpr set_gpr set_gm]. rewrite upd_ne by set_solver.
      rewrite F2 by done. by apply Gr.
    + intros i r r' Hi Hi'. rewrite (P1 _ _ Hi). pose proof (lookup_lt_Some _ _ _ Hi) as Hlt. change (length isr_pushed) with 9%nat in Hlt.
      rewrite HM, <- Ea, (F3 _ _ Hi') by lia. apply Gr. intros ->. apply list_elem_of_lookup_2 in Hi'. set_solver.
Qed.

(** ** Examples *)

(** A machine in user mode ([sel] is 0x23) or in the kernel (8), after
    [syscall_enable]. *)
Definition ex_cpu (sel sp rdi rsi : Z) (m : mem) : cpu :=
  Cpu (λ r, match r with RSP => sp | RDI => rdi | RSI => rsi | _ => 7 end) 0x401000 0x202 sel 0x1b 0x1b
    (λ k, if k =? IA32_STAR then 2 ^ 32 * 0x00100008 else if k =? IA32_LSTAR then 0x100000 else if k =? IA32_EFER then 1 else 0x600) m.

Lemma ex_words sel sp rdi rsi m : 0 ≤ sp < 2 ^ 64 → 0 ≤ rdi < 2 ^ 64 → 0 ≤ rsi < 2 ^ 64 → word_regs (ex_cpu sel sp rdi rsi m).
Proof. intros H1 H2 H3 r. destruct r; cbn; lia. Qed.

Lemma ex_enabled sel sp rdi rsi m : syscalls_enabled 0x100000 (ex_cpu sel sp rdi rsi m).
Proof. split; [reflexivity|reflexivity|reflexivity|by split]. Qed.

Lemma switch_resumes_witness : wp (run switch_to_asm) (ex_cpu 8 0x2000 0x5000 0x8000 ∅) (λ _ c1,
  ld64 (cmem c1) 0x8000 = 0x2000 - 48 ∧
  wp (run switch_to_asm) (ex_cpu 8 0x6000 (0x2000 - 48) 0x8100 (cmem c1)) (λ _ c3, gpr c3 RSP = 0x2008)).
Proof.
  assert (∀ m, wp (run switch_to_asm) (ex_cpu 8 0x2000 0x5000 0x8000 ∅) (λ _ c1, ld64 (cmem c1) 0x8000 = 0x2000 - 48 ∧
    (0x2000 - 48 = 0x2000 - 48 → (∀ a, 0x2000 - 48 ≤ a < 0x2000 + 8 → ld8 m a = ld8 (cmem c1) a) →
     wp (run switch_to_asm) (ex_cpu 8 0x6000 (0x2000 - 48) 0x8100 m) (λ _ c3, rip_ c3 = ld64 ∅ 0x2000 ∧ gpr c3 RSP = 0x2000 + 8 ∧
       ∀ r, r ∈ switch_pushed → gpr c3 r = gpr (ex_cpu 8 0x2000 0x5000 0x8000 ∅) r)))) as H.
  { intros m. apply (switch_resumes (ex_cpu 8 0x2000 0x5000 0x8000 ∅) (ex_cpu 8 0x6000 (0x2000 - 48) 0x8100 m));
      first [apply ex_words; lia | cbn; lia]. }
  pose proof (proj1 (wp_run _ _ _) (H ∅)) as ([] & c1 & E & H1 & _).
  apply wp_run. exists tt, c1. split; [exact E|]. split; [exact H1|].
  pose proof (proj1 (wp_run _ _ _) (H (cmem c1))) as ([] & c1' & E' & _ & H2). rewrite E in E'. injection E' as <-.
  eapply wp_mono; [by apply H2|]. by intros [] c3 (_ & H3 & _).
Defined.


(** The frame of the example, for the first switch to it. *)
Lemma fork_child_starts_witness :
  let m := copy_regs 0x4000 0x2000 (init_fork_frame 0x100200 0x2000 ∅) in
  wp (run switch_to_asm) (ex_cpu 8 0x7000 0x2000 0x8000 m) (λ _ c1, rip_ c1 = 0x100200).
Proof.
  intros m. eapply wp_mono.
  - apply (fork_child_starts 0x100200 0x2000 0x4000 (regs_at ∅ 0x4000) ∅ (ex_cpu 8 0x7000 0x2000 0x8000 m));
      first [reflexivity | apply ex_words; lia | unfold sizeof_fork_frame; cbn [gpr ex_cpu]; lia].
  - by intros [] c1 [H _].
Defined.

Lemma syscall_enable_spec_witness : wp (run (syscall_enable 0x100000)) (ex_cpu 8 0x7000 0 0 ∅) (λ _ c', syscalls_enabled 0x100000 c').
Proof.
  eapply wp_mono; [apply (syscall_enable_spec 0x100000 (ex_cpu 8 0x7000 0 0 ∅)); [reflexivity|lia]|]. by intros [] c' [H _].
Defined.

Lemma interrupt_roundtrip_witness :
  wp (run (isr_irq_stub 33 ++ isr_common_entry)) (interrupt (Gate 0x100300 8 0 0x8E) 0x3000 (ex_cpu 0x23 0x7000 5 6 ∅)) (λ _ c1,
    Z.testbit (rflags c1) 9 = false).
Proof.
  eapply wp_mono.
  - apply (interrupt_roundtrip (Gate 0x100300 8 0 0x8E) 0x3000 33 (ex_cpu 0x23 0x7000 5 6 ∅));
      first [reflexivity | apply ex_words; lia | cbn; lia | split; vm_compute; congruence].
  - by intros [] c1 [H _].
Defined.
