(* ===== verification/Exec.v ===== *)
(** Starting programs: [fs/exec.c], and [sched_exec], [start_init] and
    [create_init] of [kernel/sched.c] and [kernel/fork.c].

    An executable is read into a block of the kernel heap; its headers are the
    structs of [include/elf.h], laid out by [Layout].  The tasks of [Sched] run
    here on the memory manager of [Mm] ([vm_task_ops]); the file system is any
    with the operations of [Interfaces]. *)

From S2P Require Import Prelude Layout Memory Interfaces PageTable Mm Sched.

(** ** [include/elf.h] *)
Definition PT_LOAD : Z := 1.
Definition EI_NIDENT : Z := 16.
Definition Elf64_Ehdr : layout :=
  [arr "e_ident" 1 EI_NIDENT; u16 "e_type"; u16 "e_machine"; u32 "e_version"; u64 "e_entry"; u64 "e_phoff";
   u64 "e_shoff"; u32 "e_flags"; u16 "e_ehsize"; u16 "e_phentsize"; u16 "e_phnum"; u16 "e_shentsize";
   u16 "e_shnum"; u16 "e_shstrndx"].
Definition Elf64_Phdr : layout :=
  [u32 "p_type"; u32 "p_flags"; u64 "p_offset"; u64 "p_vaddr"; u64 "p_paddr"; u64 "p_filesz"; u64 "p_memsz";
   u64 "p_align"].
Definition sizeof_ehdr : Z := Eval vm_compute in sizeof false Elf64_Ehdr.
Definition sizeof_phdr : Z := Eval vm_compute in sizeof false Elf64_Phdr.

Definition e_entry (m : mem) (a : Z) : Z := ld64 m (a + field_of false Elf64_Ehdr "e_entry").
Definition e_phoff (m : mem) (a : Z) : Z := ld64 m (a + field_of false Elf64_Ehdr "e_phoff").
Definition e_phnum (m : mem) (a : Z) : Z := ld16 m (a + field_of false Elf64_Ehdr "e_phnum").
Definition p_type (m : mem) (a : Z) : Z := ld32 m (a + field_of false Elf64_Phdr "p_type").
Definition p_offset (m : mem) (a : Z) : Z := ld64 m (a + field_of false Elf64_Phdr "p_offset").
Definition p_vaddr (m : mem) (a : Z) : Z := ld64 m (a + field_of false Elf64_Phdr "p_vaddr").
Definition p_filesz (m : mem) (a : Z) : Z := ld64 m (a + field_of false Elf64_Phdr "p_filesz").
Definition p_memsz (m : mem) (a : Z) : Z := ld64 m (a + field_of false Elf64_Phdr "p_memsz").

(** ** [include/vmm.h] *)
Definition USER_STACK_BASE : Z := 0x7ffffffde000.
Definition USER_STACK_PAGES : Z := 32.

Definition set_rip (v : Z) (r : regs) : regs := Regs (rax r) v (rsp r) (others r).
Definition set_rsp (v : Z) (r : regs) : regs := Regs (rax r) (rip r) v (others r).

Section code.
Context {St : Type} {FO : FrameOps St} {H : Type} {HO : HeapOps H} {FS : FileSystem H}.
Variable sym : statics.
Variable fuel : nat.
Abbreviation kst := (sched (vm St H)).

(** The memory manager as the scheduler uses it. *)
#[export] Instance vm_task_ops : TaskOps (vm St H) := {
  t_kcalloc n := in_kheap (heap_kcalloc 1 n);
  t_free p := in_kheap (heap_release p);
  t_mm_dupe a := mm_dupe sym fuel a;
  t_mm_free a := mm_free fuel a;
  t_mm_p4 s a := default 0 (p4 <$> mms s !! a);
}.

(** Reading the kernel heap. *)
Definition hload {A} (f : mem → A) : M (vm St H) A := gets (λ s, f (heap_bytes (kheap s))).

(** ** [fs/exec.c] *)
Definition map_segment (mm elf ph : Z) : M (vm St H) unit :=
  let* vaddr := hload (λ m, p_vaddr m ph) in
  let map_addr := page_base vaddr in
  let* offset := hload (λ m, p_offset m ph) in
  let map_offset := page_base offset in
  let extraspace := Z.land vaddr PAGE_MASK in
  let* memsz := hload (λ m, p_memsz m ph) in
  anon_mmap_user mm map_addr (w64 (w64 (memsz + extraspace) + (PAGE_SIZE - 1)) / PAGE_SIZE) PAGE_PROT_READ ;;*
  let* filesz := hload (λ m, p_filesz m ph) in
  mm_copy_from_buf mm (w64 (elf + map_offset)) map_addr (w64 (filesz + extraspace)).

(** [for (int i = 0; i < ehdr->e_phnum; i++)]; [n] bounds the rounds left. *)
Fixpoint exec_loop (n : nat) (task buf ph_arr i : Z) : M kst unit :=
  let* phnum := in_env (hload (λ m, e_phnum m buf)) in
  if phnum <=? i then mret_ tt else
  match n with
  | O => nofuel
  | S n' =>
      let ph := w64 (ph_arr + i * sizeof_phdr) in
      let* ty := in_env (hload (λ m, p_type m ph)) in
      (if ty =? PT_LOAD then
         let* x := tget task_mm task in
         in_env (map_segment x buf ph)
       else mret_ tt) ;;*
      exec_loop n' task buf ph_arr (i + 1)
  end.

(** [e_phnum] has 16 bits. *)
Definition exec_fuel : nat := Z.to_nat (2 ^ 16).

Definition exec_elf (task path : Z) : M kst unit :=
  let* ino := in_env (in_kheap (fs_namei path)) in
  let* buf := in_env (in_kheap (fs_read_file ino)) in
  let* x := in_env (mm_new sym fuel) in
  tset (set_mm x) task ;;*
  let* phoff := in_env (hload (λ m, e_phoff m buf)) in
  exec_loop exec_fuel task buf (w64 (buf + phoff)) 0 ;;*
  let* entry := in_env (hload (λ m, e_entry m buf)) in
  let* r := tget task_regs task in
  tset (set_regs (set_rip entry r)) task ;;*
  in_env (in_kheap (heap_release buf)) ;;*
  let* x := tget task_mm task in
  in_env (anon_mmap_user x USER_STACK_BASE USER_STACK_PAGES (Z.lor PAGE_PROT_READ PAGE_PROT_WRITE)) ;;*
  let* r := tget task_regs task in
  tset (set_regs (set_rsp (USER_STACK_BASE + PAGE_SIZE * USER_STACK_PAGES) r)) task.

(** ** [kernel/sched.c] *)
Definition switch_cr3 (addr : Z) : M kst unit :=
  modify (λ s, set_cpu (current_task_stack s) (tss_rsp0 s) addr (cpu_rsp s) s).

(** [t->mm->p4] and [kernel_mm.p4] *)
Definition p4_of (x : Z) : M kst Z := let* y := in_env (get_mm x) in mret_ (p4 y).

Definition sched_exec (path t : Z) : M kst Z :=
  let* mm_old := tget task_mm t in
  exec_elf t path ;;*
  let* k := p4_of (kernel_mm sym) in
  switch_cr3 k ;;*
  in_env (mm_free fuel mm_old) ;;*
  let* x := tget task_mm t in
  let* p := p4_of x in
  switch_cr3 p ;;*
  mret_ 0.

(** ** [kernel/fork.c] *)

(** [install] is [tty_install_stdin_stdout] and [init_path] the string "/init". *)
Variable install : Z → M kst unit.
Variable init_path : Z.

Definition create_init : M kst Z :=
  let* init := alloc_task in
  init_task_stack init ;;*
  exec_elf init init_path ;;*
  tset (set_pid 1) init ;;*
  tset (set_alive_ticks 0) init ;;*
  tset (set_next init) init ;;*
  tset (set_prev init) init ;;*
  tset (set_state TASK_RUNNING) init ;;*
  install init ;;*
  mret_ init.

Definition set_proc_root (v : Z) (s : kst) : kst :=
  let 'Sched a b c d e f g h i j := s in Sched a b c d v f g h i j.

(** [switch_to_asm] saves the boot stack nowhere and pops the six registers of
    the new one. *)
Definition start_init : M kst unit :=
  let* init := create_init in
  modify (set_proc_root init) ;;*
  modify (set_current init) ;;*
  let* top := tget stack_top init in
  let* rsp := tget sp init in
  let* x := tget task_mm init in
  let* p := p4_of x in
  modify (set_cpu top rsp p (rsp + 48)).
End code.
