(* ===== verification/ExecSpec.v ===== *)
(** What [exec_elf] promises: the segments of an ELF file are where its headers
    say.

    The block of the heap that holds the file is lent to the loader: [frozen_laws]
    is the heap contract for the other blocks, with the bytes of that block
    fixed.  [holds] says what a range of user memory contains. *)

From S2P Require Import Prelude Layout Memory Interfaces Pmm PageTable AddressSpace Kmalloc Heap Mm MmSpec MmProps Sched Exec.

(** ** Setting a block of the heap aside *)
Section frozen.
Context {H : Type} {HO : HeapOps H} {HL : HeapLaws H}.
Variables (buf k : Z) (m0 : mem).
Implicit Types (h : H) (L : gmap Z Z).

Definition block_bytes h : Prop := ∀ x, buf ≤ x < buf + k → ld8 (heap_bytes h) x = ld8 m0 x.
Definition frozen_inv h L : Prop := heap_inv h (<[buf := k]> L) ∧ L !! buf = None ∧ block_bytes h.

Lemma block_bytes_kept h h' L : block_bytes h → L !! buf = Some k →
  same_blocks L (heap_bytes h) (heap_bytes h') → block_bytes h'.
Proof. intros Hb Hl Hs x Hx. rewrite (Hs buf k x); auto. Qed.

Lemma same_blocks_less (L L' : gmap Z Z) m m' : L ⊆ L' → same_blocks L' m m' → same_blocks L m m'.
Proof. intros Hs Hb p n x Hp. apply (Hb p n). exact (lookup_weaken _ _ _ _ Hp Hs). Qed.

Lemma frozen_fresh h h' L p j : frozen_inv h L → (<[buf := k]> L : gmap Z Z) !! p = None →
  heap_inv h' (<[p := j]> (<[buf := k]> L)) → same_blocks (<[buf := k]> L) (heap_bytes h) (heap_bytes h') →
  L !! p = None ∧ frozen_inv h' (<[p := j]> L) ∧ same_blocks L (heap_bytes h) (heap_bytes h').
Proof.
  intros (Hi & Hn & Hb) Hp Hi' Hs.
  assert (p ≠ buf) as Hne by (intros ->; by rewrite lookup_insert_eq in Hp).
  rewrite lookup_insert_ne in Hp by done. split; [done|]. split; [split; [|split]|].
  - by rewrite insert_insert_ne.
  - by rewrite lookup_insert_ne.
  - eapply block_bytes_kept; [exact Hb| |exact Hs]. by rewrite lookup_insert_eq.
  - eapply same_blocks_less; [|exact Hs]. by apply insert_subseteq.
Qed.

Lemma frozen_range h L p n : frozen_inv h L → L !! p = Some n → HEAP_START < p ∧ 0 < n ∧ p + n ≤ HEAP_LIMIT.
Proof.
  intros (Hi & Hn & _) Hp. apply (heap_range h _ p n Hi). rewrite lookup_insert_ne; [done|]. intros ->. congruence.
Qed.

Lemma frozen_kmalloc h L n : frozen_inv h L → 0 < n → n + 32 < heap_room h →
  wp (heap_kmalloc n) h (λ p h', ∃ j, n ≤ j ∧ L !! p = None ∧ frozen_inv h' (<[p := j]> L) ∧
    heap_room h ≤ heap_room h' + (n + 32) ∧ same_blocks L (heap_bytes h) (heap_bytes h')).
Proof.
  intros Hf Hn Hr. eapply wp_mono; [apply (heap_kmalloc_ok h _ n (proj1 Hf) Hn Hr)|].
  intros p h' (j & Hj & Hp & Hi' & Hr' & Hs). destruct (frozen_fresh h h' L p j Hf Hp Hi' Hs) as (? & ? & ?).
  by exists j.
Qed.

Lemma frozen_kcalloc h L a b : frozen_inv h L → 0 < a * b → a * b + 32 < heap_room h →
  wp (heap_kcalloc a b) h (λ p h', ∃ j, a * b ≤ j ∧ L !! p = None ∧ frozen_inv h' (<[p := j]> L) ∧
    heap_room h ≤ heap_room h' + (a * b + 32) ∧ same_blocks L (heap_bytes h) (heap_bytes h') ∧
    (∀ x, p ≤ x < p + a * b → ld8 (heap_bytes h') x = 0)).
Proof.
  intros Hf Hn Hr. eapply wp_mono; [apply (heap_kcalloc_ok h _ a b (proj1 Hf) Hn Hr)|].
  intros p h' (j & Hj & Hp & Hi' & Hr' & Hs & Hz). destruct (frozen_fresh h h' L p j Hf Hp Hi' Hs) as (? & ? & ?).
  by exists j.
Qed.

Lemma frozen_release h L p n : frozen_inv h L → L !! p = Some n →
  wp (heap_release p) h (λ _ h', frozen_inv h' (delete p L) ∧ heap_room h' = heap_room h ∧
    same_blocks (delete p L) (heap_bytes h) (heap_bytes h')).
Proof.
  intros (Hi & Hn & Hb) Hp. assert (p ≠ buf) as Hne by (intros ->; congruence).
  eapply wp_mono; [apply (heap_release_ok h _ p n Hi); by rewrite lookup_insert_ne|].
  intros _ h' (Hi' & Hr' & Hs). rewrite delete_insert_ne in Hi', Hs by done. split; [split; [done|split]|split; [done|]].
  - by rewrite lookup_delete_ne.
  - eapply block_bytes_kept; [exact Hb| |exact Hs]. by rewrite lookup_insert_eq.
  - eapply same_blocks_less; [|exact Hs]. apply insert_subseteq. by rewrite lookup_delete_ne.
Qed.

Definition frozen_laws : HeapLaws H := {|
  heap_inv := frozen_inv;
  heap_room := heap_room;
  heap_range := frozen_range;
  heap_kmalloc_ok := frozen_kmalloc;
  heap_kcalloc_ok := frozen_kcalloc;
  heap_release_ok := frozen_release;
|}.
End frozen.

(** ** Segments *)
Record segment := Segment { sg_vaddr : Z; sg_offset : Z; sg_filesz : Z; sg_memsz : Z }.
Definition segment_at (m : mem) (a : Z) : segment :=
  Segment (p_vaddr m a) (p_offset m a) (p_filesz m a) (p_memsz m a).

(** The loadable segments among the program headers [i], ..., [i + n - 1]. *)
Definition phdr (m : mem) (buf i : Z) : Z := buf + e_phoff m buf + i * sizeof_phdr.
Definition segments_from (m : mem) (buf i n : Z) : list segment :=
  omap (λ i, if p_type m (phdr m buf i) =? PT_LOAD then Some (segment_at m (phdr m buf i)) else None) (seqZ i n).
Definition load_segments (m : mem) (buf : Z) : list segment := segments_from m buf 0 (e_phnum m buf).

(** The pages of a segment. *)
Definition seg_base (g : segment) : Z := page_base (sg_vaddr g).
Definition seg_pages (g : segment) : Z := DIV_CEIL (sg_memsz g + sg_vaddr g mod PAGE_SIZE) PAGE_SIZE.
Definition seg_area (g : segment) : vm_area := anon_area (seg_base g) (seg_pages g) PAGE_PROT_READ true.
Definition seg_end (g : segment) : Z := seg_base g + seg_pages g * PAGE_SIZE.

(** A segment that lies in a file of [size] bytes and below the user stack. *)
Record good_segment (size : Z) (g : segment) : Prop := {
  gs_nonneg : 0 ≤ sg_vaddr g ∧ 0 ≤ sg_offset g ∧ 0 ≤ sg_filesz g;
  gs_file : sg_filesz g ≤ sg_memsz g ∧ sg_offset g + sg_filesz g ≤ size;
  gs_align : sg_offset g mod PAGE_SIZE = sg_vaddr g mod PAGE_SIZE;
  gs_user : sg_vaddr g + sg_memsz g ≤ USER_STACK_BASE;
  gs_pages : seg_pages g ≤ 2 ^ 19;
}.
Definition seg_apart (g h : segment) : Prop := seg_end g ≤ seg_base h ∨ seg_end h ≤ seg_base g.

(** An ELF file of [size] bytes at [buf] that the loader can handle. *)
Record elf_ok (m : mem) (buf size : Z) : Prop := {
  eo_header : sizeof_ehdr ≤ size;
  eo_phdrs : e_phoff m buf + e_phnum m buf * sizeof_phdr ≤ size;
  eo_segs : Forall (good_segment size) (load_segments m buf);
  eo_apart : ForallOrdPairs seg_apart (load_segments m buf);
}.

Lemma seg_facts size g : good_segment size g →
  seg_base g = sg_vaddr g - sg_vaddr g mod PAGE_SIZE ∧ 0 ≤ seg_base g ∧ seg_base g mod PAGE_SIZE = 0 ∧
  0 ≤ seg_pages g ∧ sg_vaddr g + sg_memsz g ≤ seg_end g ≤ USER_STACK_BASE.
Proof.
  intros [(? & ? & ?) [? ?] _ Hu _]. unfold seg_end, seg_pages, seg_base.
  pose proof (page_base_aligned (sg_vaddr g)) as Hal. rewrite page_base_eq in *.
  unfold DIV_CEIL, PAGE_SIZE, USER_STACK_BASE in *.
  pose proof (Z.div_mod (sg_vaddr g) 4096 ltac:(lia)). pose proof (Z.mod_pos_bound (sg_vaddr g) 4096 ltac:(lia)).
  set (e := sg_memsz g + sg_vaddr g mod 4096) in *.
  pose proof (Z.div_mod (e + 4096 - 1) 4096 ltac:(lia)). pose proof (Z.mod_pos_bound (e + 4096 - 1) 4096 ltac:(lia)).
  unfold e in *. split_and!; try lia; done.
Qed.

Lemma seg_in_area size g w : good_segment size g → in_area (seg_area g) w →
  ∃ p, w = p ∧ seg_base g ≤ p * PAGE_SIZE < seg_end g.
Proof.
  intros Hg (i & Hi & ->). destruct (seg_facts size g Hg) as (_ & H0 & Hal & _ & He). simpl in *.
  eexists. split; [done|]. unfold seg_end in *. rewrite vpn_page. unfold PAGE_SIZE, USER_STACK_BASE in *.
  pose proof (Z.div_mod (seg_base g) 4096 ltac:(lia)). rewrite Z.mod_small; lia.
Qed.

Lemma seg_disjoint size g h : good_segment size g → good_segment size h → seg_apart g h →
  ∀ w, in_area (seg_area g) w → ¬ in_area (seg_area h) w.
Proof.
  intros Hg Hh Hap w Hw Hw'. destruct (seg_in_area size g w Hg Hw) as (p & -> & Hp).
  destruct (seg_in_area size h _ Hh Hw') as (p' & <- & Hp'). destruct Hap; lia.
Qed.

Lemma segments_cons m buf i n : 0 < n → segments_from m buf i n =
  (if p_type m (phdr m buf i) =? PT_LOAD then [segment_at m (phdr m buf i)] else []) ++ segments_from m buf (i + 1) (n - 1).
Proof.
  intros Hn. unfold segments_from. rewrite seqZ_cons by done.
  cbn [omap list_omap]. by destruct (_ =? _).
Qed.

(** ** User memory *)
Section exec.
Context {St : Type} {FO : FrameOps St} {FL : FrameLaws St}.
Context {H : Type} {HO : HeapOps H} {HL : HeapLaws H}.
Implicit Types (s : vm St H) (x : mm) (T : tables) (f : gmap Z Z) (B : gmap Z Z) (L : list (Z * Z)).

(** The [pages] pages from [start] have frames that were free in [s0], with the
    rights asked for, and hold the bytes [content]. *)
Definition holds s0 s T f (start pages prot : Z) (user : bool) (content : Z → Z) : Prop :=
  ∀ i k, 0 ≤ i < pages → 0 ≤ k < PAGE_SIZE → ∃ q,
    f !! vpn (start + i * PAGE_SIZE) = Some (page_entry q (map_flags prot user)) ∧ good_frame q ∧
    ¬ frame_used (frames s0) q ∧ frame_used (frames s) q ∧ no_table T q ∧
    ld8 (frame_mem (frames s)) (P_TO_V q + k) = content (start + i * PAGE_SIZE + k).

Lemma holds_new s s1 a B T L B1 T1 L1 D n k f f1 start pages prot user content :
  mm_step a s B T L s1 B1 T1 L1 D n k → length D = Z.to_nat pages → pages ≤ 2 ^ 19 → Forall good_frame D →
  f1 = insert_pages start (map (λ q, page_entry q (map_flags prot user)) D) f →
  (∀ (i : nat) q j, D !! i = Some q → 0 ≤ j < PAGE_SIZE →
    ld8 (frame_mem (frames s1)) (P_TO_V q + j) = content (start + Z.of_nat i * PAGE_SIZE + j)) →
  holds s s1 T1 f1 start pages prot user content.
Proof.
  intros S Hl Hp Hg -> Hc i j Hi Hj. destruct (lookup_lt_is_Some_2 D (Z.to_nat i) ltac:(lia)) as [q Hq].
  assert (q ∈ D) as Hin by by eapply list_elem_of_lookup_2. pose proof (st_grow _ _ _ _ _ _ _ _ _ _ _ _ S) as G.
  destruct (gr_data _ _ _ _ _ G q Hin) as [Hn Ht]. replace i with (Z.of_nat (Z.to_nat i)) by lia.
  exists q. split; [|split; [|split; [done|split; [|split; [done|by apply Hc]]]]].
  - apply insert_pages_page; [rewrite length_map; lia|].
    change (@map Z Z) with (@fmap list list_fmap Z Z). by rewrite list_lookup_fmap, Hq.
  - rewrite list.Forall_forall in Hg. by apply Hg.
  - apply (gr_used _ _ _ _ _ G). by right; right.
Qed.

Lemma holds_later s0 s s1 a B T L B1 T1 L1 D n k f f1 start pages prot user content :
  mm_step a s B T L s1 B1 T1 L1 D n k → holds s0 s T f start pages prot user content →
  (∀ i, 0 ≤ i < pages → f1 !! vpn (start + i * PAGE_SIZE) = f !! vpn (start + i * PAGE_SIZE)) →
  holds s0 s1 T1 f1 start pages prot user content.
Proof.
  intros S Hh Hf i j Hi Hj. pose proof (st_grow _ _ _ _ _ _ _ _ _ _ _ _ S) as G.
  destruct (Hh i j Hi Hj) as (q & He & Hg & Hn & Hu & Ht & Hc). exists q. rewrite Hf by done.
  split; [done|]. split; [done|]. split; [done|]. split; [by eapply grow_keeps|]. split.
  - intros p Hp. destruct (gr_fresh _ _ _ _ _ G p q Hp) as [H1|H1]; [by apply (Ht p)|done].
  - rewrite <- Hc. by apply (gr_other _ _ _ _ _ G).
Qed.

Lemma holds_earlier s0 s s1 T2 f start pages prot user content :
  (∀ q, frame_used (frames s0) q → frame_used (frames s) q) → holds s s1 T2 f start pages prot user content →
  holds s0 s1 T2 f start pages prot user content.
Proof.
  intros Hu Hh i j Hi Hj. destruct (Hh i j Hi Hj) as (q & He & Hg & Hn & Hr). exists q.
  split; [done|]. split; [done|]. split; [|done]. intros Hq. by apply Hn, Hu.
Qed.

Lemma wf_wrote s a x T f L vs D s' :
  mm_wf s a x T f L vs → wrote s D s' → (∀ q, q ∈ D → no_table T q) → mm_wf s' a x T f L vs.
Proof.
  intros [Hx [Hseg Hnd] Hao Hmap Hdis] W HD. destruct (wr_objs _ _ _ W) as (_ & _ & Wv & Wl). split.
  - by eapply wrote_mm_at.
  - split; [by rewrite Wl|done].
  - unfold areas_of. by rewrite Wv.
  - intros v Hv Hr. destruct (Hmap v Hv Hr) as (H1 & H2 & Hm). split; [done|]. split; [done|]. intros i Hi.
    destruct (Hm i Hi) as (e & He & Hne & Hu & Hn). exists e. split_and!; try done. by apply (wr_used _ _ _ W).
  - done.
Qed.

Section image.
Variables (buf size : Z) (m0 : mem).
Hypothesis frozen : ∀ h B, heap_inv h B → block_bytes buf size m0 h.
Hypothesis in_heap : 0 ≤ buf ∧ buf + size < 2 ^ 64.

Lemma hload_ok {A} s B (F : mem → A) (Q : A → vm St H → Prop) :
  objects_ok s B → F (heap_bytes (kheap s)) = F m0 → Q (F m0) s → wp (hload F) s Q.
Proof. intros Ho HF HQ. apply wp_gets. by rewrite HF. Qed.

Lemma frozen_ld n s B a : objects_ok s B → buf ≤ a → a + Z.of_nat n ≤ buf + size →
  ld n (heap_bytes (kheap s)) a = ld n m0 a.
Proof.
  intros Ho H1 H2. apply ld_ext. intros b Hb. apply (frozen _ B); [apply Ho|lia].
Qed.

(** The bytes of a segment, at their addresses. *)
Definition seg_content (g : segment) (v : Z) : Z :=
  if decide (v < sg_vaddr g + sg_filesz g) then ld8 m0 (buf + sg_offset g + (v - sg_vaddr g)) else 0.

(** [map_segment] with the numbers of a good segment. *)
Lemma map_segment_eq s B a ph g (Q : unit → vm St H → Prop) :
  objects_ok s B → buf ≤ ph → ph + sizeof_phdr ≤ buf + size → g = segment_at m0 ph → good_segment size g →
  wp (anon_mmap_user a (seg_base g) (seg_pages g) PAGE_PROT_READ) s (λ _ s1, ∃ B1, objects_ok s1 B1 ∧
    wp (mm_copy_from_buf a (buf + page_base (sg_offset g)) (seg_base g) (sg_vaddr g mod PAGE_SIZE + sg_filesz g)) s1 Q) →
  wp (map_segment a buf ph) s Q.
Proof.
  intros Ho H1 H2 -> Hg Hw. unfold sizeof_phdr in H2. pose proof (seg_facts _ _ Hg) as (Hb & Hb0 & _ & Hp & He & He').
  destruct Hg as [(? & ? & ?) [? ?] Hal Hu _]. simpl in *. unfold map_segment.
  assert (∀ s B, objects_ok s B → p_vaddr (heap_bytes (kheap s)) ph = p_vaddr m0 ph ∧
    p_offset (heap_bytes (kheap s)) ph = p_offset m0 ph ∧ p_memsz (heap_bytes (kheap s)) ph = p_memsz m0 ph ∧
    p_filesz (heap_bytes (kheap s)) ph = p_filesz m0 ph) as Hrd.
  { intros s' B' Ho'. split_and!; eapply (frozen_ld 8); try exact Ho'; lia. }
  destruct (Hrd s B Ho) as (R1 & R2 & R3 & R4).
  apply wp_bind, (hload_ok s B); [done..|]. apply wp_bind, (hload_ok s B); [done..|]. apply wp_bind, (hload_ok s B); [done..|].
  rewrite land_page_mask. unfold seg_pages, seg_base in Hw. simpl in Hw.
  pose proof (Z.mod_pos_bound (p_vaddr m0 ph) PAGE_SIZE ltac:(done)) as Hm.
  unfold USER_STACK_BASE, PAGE_SIZE in *.
  rewrite (w64_small (p_memsz m0 ph + _)) by lia. rewrite (w64_small (_ + _ + (4096 - 1))) by lia.
  replace (p_memsz m0 ph + p_vaddr m0 ph mod 4096 + (4096 - 1)) with (p_memsz m0 ph + p_vaddr m0 ph mod 4096 + 4096 - 1) by lia.
  apply wp_bind. eapply wp_mono; [exact Hw|]. intros [] s1 (B1 & Ho1 & Hw1). destruct (Hrd s1 B1 Ho1) as (_ & _ & _ & R5).
  apply wp_bind, (hload_ok s1 B1); [done..|]. rewrite page_base_eq in Hw1 |- *. unfold PAGE_SIZE in *.
  pose proof (Z.mod_pos_bound (p_offset m0 ph) 4096 ltac:(done)).
  pose proof (Z.mod_le (p_offset m0 ph) 4096 ltac:(done) ltac:(done)).
  rewrite (w64_small (buf + _)) by lia. rewrite (w64_small (p_filesz m0 ph + _)), Z.add_comm by lia.
  rewrite (Z.add_comm (p_vaddr m0 ph mod 4096)) in Hw1. rewrite Z.add_comm. exact Hw1.
Qed.

(** One segment. *)
Lemma map_segment_ok s B a x T f L vs ph g :
  objects_ok s B → mm_wf s a x T f L vs → buf ≤ ph → ph + sizeof_phdr ≤ buf + size →
  g = segment_at m0 ph → good_segment size g →
  (∀ u w, u ∈ vs → reg u → in_area (seg_area g) w → ¬ in_area u w) →
  (5 * Z.to_nat (seg_pages g) ≤ frame_avail (frames s))%nat → 120 < heap_room (kheap s) →
  wp (map_segment a buf ph) s (λ _ s', ∃ x' T' f' L' B' D,
    mm_wf s' a x' T' f' L' (seg_area g :: vs) ∧
    mm_step a s B T L s' B' T' L' D 120 (5 * Z.to_nat (seg_pages g)) ∧
    holds s s' T' f' (seg_base g) (seg_pages g) PAGE_PROT_READ true (seg_content g) ∧
    (∀ w, ¬ in_area (seg_area g) w → f' !! w = f !! w)).
Proof.
  intros Ho Hwf H1 H2 Hgm Hg Hdj Hav Hroom. pose proof (seg_facts _ _ Hg) as (Hb & Hb0 & Hal & Hp & He & He').
  pose proof (gs_pages _ _ Hg) as Hpg.
  apply (map_segment_eq s B a ph g _ Ho H1 H2 Hgm Hg). unfold anon_mmap_user.
  eapply wp_mono; [apply (anon_mmap_ok s B a x T f L); try done; [apply Hwf|apply Hwf]|].
  intros [] s1 (x1 & T1 & D & vma & li & B1 & Han).
  pose proof (anon_mm_step _ _ _ _ _ _ _ _ _ _ _ _ _ _ _ _ _ _ Han) as S1.
  pose proof (anon_wf _ _ _ _ _ _ _ _ _ _ _ _ _ _ _ _ _ _ _ Hwf Han Hal (conj Hp Hpg) eq_refl Hdj) as Hwf1.
  pose proof (hs_ok _ _ _ _ _ (st_heap _ _ _ _ _ _ _ _ _ _ _ _ S1)) as Ho1.
  destruct Han as [H1' Hl G Hz _ _ _ _ _ _ _ _]. exists B1. split; [done|].
  assert (∀ q, q ∈ D → frame_used (frames s1) q ∧ no_table T1 q) as HD by by eapply grow_data_owned.
  destruct Hg as [(? & ? & ?) [Hfm Hfs] Hofs Hus _].
  rewrite page_base_eq in *. unfold seg_end, PAGE_SIZE, USER_STACK_BASE in *.
  pose proof (Z.mod_pos_bound (sg_vaddr g) 4096 ltac:(done)). pose proof (Z.mod_le (sg_offset g) 4096 ltac:(done) ltac:(done)).
  set (e := sg_vaddr g mod 4096) in *.
  eapply wp_mono; [apply (copy_from_buf_ok s1 a x1 T1 _ _ _ _ D H1'); try done|].
  - lia.
  - rewrite Hl, Z2Nat.id by done. apply div_ceil_le; [done|lia|]. unfold PAGE_SIZE. lia.
  - lia.
  - lia.
  - lia.
  - eapply anon_backed; [lia|exact Hz].
  - apply G.
  - intros [] s2 [W F]. pose proof (mm_step_wrote _ _ _ _ _ _ _ _ _ _ _ _ _ S1 W) as S2.
    eexists x1, T1, _, _, B1, D. split; [eapply wf_wrote; [exact Hwf1|exact W|apply HD]|]. split; [exact S2|]. split.
    + eapply holds_new; [exact S2|done|done| |done|].
      { apply list.Forall_forall. intros q Hq. by apply Hz. }
      intros i q j Hq Hj. rewrite (F i q j Hq Hj). unfold seg_content. fold e in Hb.
      destruct (decide (0 ≤ Z.of_nat i ∧ _)) as [Hin|Hin], (decide (_ < _ + sg_filesz g)) as [Hin'|Hin'];
        unfold PAGE_SIZE in *; try lia.
      * replace (buf + sg_offset g + (seg_base g + Z.of_nat i * 4096 + j - sg_vaddr g))
          with (buf + (sg_offset g - sg_offset g mod 4096) + (Z.of_nat i * 4096 + j)) by lia.
        apply (frozen _ B1); [apply Ho1|]. lia.
      * apply (Hz q (list_elem_of_lookup_2 _ _ _ Hq)). unfold PAGE_SIZE. lia.
    + intros w Hw. apply insert_pages_other. rewrite length_map. intros i Hi Hiw. apply Hw. exists i.
      split; [simpl; lia|by rewrite <- Hiw].
Qed.

(** ** The loop over the program headers *)
Definition segs_pages (gs : list segment) : nat := sum_list_with (λ g, Z.to_nat (seg_pages g)) gs.

(** The space after the segments [gs] have been mapped. *)
Record segs_loaded a s B T f L vs gs s' B' x' T' f' L' D : Prop := {
  sl_wf : mm_wf s' a x' T' f' L' (rev (seg_area <$> gs) ++ vs);
  sl_step : mm_step a s B T L s' B' T' L' D (120 * Z.of_nat (length gs)) (5 * segs_pages gs);
  sl_holds g : g ∈ gs →
    holds s s' T' f' (seg_base g) (seg_pages g) PAGE_PROT_READ true (seg_content g);
  sl_other w : (∀ g, g ∈ gs → ¬ in_area (seg_area g) w) → f' !! w = f !! w;
}.

Lemma segs_loaded_nil a s B x T f L vs : objects_ok s B → mm_wf s a x T f L vs →
  segs_loaded a s B T f L vs [] s B x T f L [].
Proof. intros Ho Hwf. split; [done|eapply mm_step_refl; [done|apply Hwf]|by intros g ?%not_elem_of_nil|done]. Qed.

Lemma segs_loaded_cons a s B T f L vs g gs s1 B1 x1 T1 f1 L1 D1 s2 B2 x2 T2 f2 L2 D2 :
  mm_wf s1 a x1 T1 f1 L1 (seg_area g :: vs) → mm_step a s B T L s1 B1 T1 L1 D1 120 (5 * Z.to_nat (seg_pages g)) →
  holds s s1 T1 f1 (seg_base g) (seg_pages g) PAGE_PROT_READ true (seg_content g) →
  (∀ w, ¬ in_area (seg_area g) w → f1 !! w = f !! w) →
  (∀ h w, h ∈ gs → in_area (seg_area g) w → ¬ in_area (seg_area h) w) →
  segs_loaded a s1 B1 T1 f1 L1 (seg_area g :: vs) gs s2 B2 x2 T2 f2 L2 D2 →
  segs_loaded a s B T f L vs (g :: gs) s2 B2 x2 T2 f2 L2 (D1 ++ D2).
Proof.
  intros Hwf1 S1 Hh1 Hf1 Hap [Hwf2 S2 Hh2 Hf2]. split.
  - cbn [fmap list_fmap rev]. by rewrite <- app_assoc.
  - replace (120 * Z.of_nat (length (g :: gs))) with (120 + 120 * Z.of_nat (length gs)) by (cbn [length]; lia).
    replace (5 * segs_pages (g :: gs))%nat with (5 * Z.to_nat (seg_pages g) + 5 * segs_pages gs)%nat
      by (unfold segs_pages; simpl; lia).
    apply (mm_step_trans _ _ _ _ _ _ _ _ _ _ _ _ _ _ _ _ _ _ _ S1 S2).
  - intros h [->|Hin]%elem_of_cons.
    + eapply holds_later; [exact S2|exact Hh1|]. intros i Hi. apply Hf2. intros h' Hh'. apply Hap; [done|]. by exists i.
    + eapply holds_earlier; [intros q; apply (grow_keeps _ _ _ _ _ _ (st_grow _ _ _ _ _ _ _ _ _ _ _ _ S1))|by apply Hh2].
  - intros w Hw. rewrite Hf2 by (intros h Hh; apply Hw; by right). apply Hf1, Hw. by left.
Qed.

Lemma exec_loop_ok n : ∀ i K a B x T f L vs task t,
  tasks K !! task = Some t → task_mm t = a → objects_ok (env K) B → mm_wf (env K) a x T f L vs →
  sizeof_ehdr ≤ size → e_phoff m0 buf + e_phnum m0 buf * sizeof_phdr ≤ size →
  0 ≤ i → e_phnum m0 buf - i = Z.of_nat n →
  let gs := segments_from m0 buf i (Z.of_nat n) in
  Forall (good_segment size) gs → ForallOrdPairs seg_apart gs →
  (∀ g u w, g ∈ gs → u ∈ vs → reg u → in_area (seg_area g) w → ¬ in_area u w) →
  (5 * segs_pages gs ≤ frame_avail (frames (env K)))%nat → 120 * Z.of_nat (length gs) < heap_room (kheap (env K)) →
  ∀ n', (n ≤ n')%nat →
  wp (exec_loop n' task buf (w64 (buf + e_phoff m0 buf)) i) K (λ _ K', ∃ s' B' x' T' f' L' D,
    K' = set_env s' K ∧ segs_loaded a (env K) B T f L vs gs s' B' x' T' f' L' D).
Proof.
  induction n as [|n IH]; intros i K a B x T f L vs task t Ht Hmm Ho Hwf Hhd Hph Hi0 Hi gs Hgs Hap Hdj Hav Hroom n' Hn'.
  all: assert (∀ s B, objects_ok s B → e_phnum (heap_bytes (kheap s)) buf = e_phnum m0 buf) as Hnum
    by (intros s1 B1 Ho1; eapply (frozen_ld 2); [exact Ho1|lia|unfold sizeof_ehdr in *; lia]).
  - assert (gs = []) as -> by done.
    destruct n'; cbn [exec_loop];
      (apply wp_bind, wp_in_env, (hload_ok (env K) B); [done|by eapply Hnum|];
       rewrite set_env_same; destruct (Z.leb_spec (e_phnum m0 buf) i); [|lia]; apply wp_ret;
       exists (env K), B, x, T, f, L, []; split; [by rewrite set_env_same|by apply segs_loaded_nil]).
  - destruct n' as [|n']; [lia|]. cbn [exec_loop].
    apply wp_bind, wp_in_env, (hload_ok (env K) B); [done|by eapply Hnum|]. rewrite set_env_same.
    destruct (Z.leb_spec (e_phnum m0 buf) i) as [|_]; [lia|].
    assert (0 ≤ e_phoff m0 buf) as H0 by apply (ld_range 8).
    assert (w64 (w64 (buf + e_phoff m0 buf) + i * sizeof_phdr) = phdr m0 buf i) as ->.
    { unfold phdr, sizeof_phdr in *. rewrite (w64_small (buf + _)) by lia. apply w64_small. lia. }
    assert (buf ≤ phdr m0 buf i ∧ phdr m0 buf i + sizeof_phdr ≤ buf + size) as [Hp1 Hp2]
      by (unfold phdr, sizeof_phdr in *; lia).
    apply wp_bind, wp_in_env, (hload_ok (env K) B); [done| |].
    { eapply (frozen_ld 4); [exact Ho|..]; unfold sizeof_phdr in *; lia. }
    rewrite set_env_same. unfold gs in *. rewrite segments_cons in * by lia.
    replace (Z.of_nat (S n) - 1) with (Z.of_nat n) in * by lia. set (gs' := segments_from m0 buf (i + 1) (Z.of_nat n)) in *.
    destruct (p_type m0 (phdr m0 buf i) =? PT_LOAD); cbn [app] in *.
    + set (g := segment_at m0 (phdr m0 buf i)) in *.
      apply Forall_cons_1 in Hgs as [Hg Hgs]. inversion Hap as [|? ? Hap1 Hap2]; subst.
      assert (∀ h w, h ∈ gs' → in_area (seg_area g) w → ¬ in_area (seg_area h) w) as Hgd.
      { intros h w Hh. rewrite list.Forall_forall in Hap1, Hgs. apply (seg_disjoint size); auto. }
      replace (5 * segs_pages (g :: gs'))%nat with (5 * Z.to_nat (seg_pages g) + 5 * segs_pages gs')%nat in Hav
        by (unfold segs_pages; simpl; lia). cbn [length] in Hroom.
      apply wp_bind, wp_bind, (wp_tget task_mm task K t); [done|]. apply wp_in_env.
      eapply wp_mono; [apply (map_segment_ok (env K) B (task_mm t) x T f L vs _ g Ho Hwf Hp1 Hp2 eq_refl Hg); [|lia|lia]|].
      { intros u w. apply Hdj. left. }
      intros [] s1 (x1 & T1 & f1 & L1 & B1 & D1 & Hwf1 & S1 & Hh1 & Hf1).
      pose proof (st_avail _ _ _ _ _ _ _ _ _ _ _ _ S1) as Ha1.
      pose proof (hs_room _ _ _ _ _ (st_heap _ _ _ _ _ _ _ _ _ _ _ _ S1)) as Hr1.
      eapply wp_mono; [apply (IH (i + 1) (set_env s1 K) (task_mm t) B1 x1 T1 f1 L1 (seg_area g :: vs) task t);
        rewrite ?tasks_set_env, ?env_set; try done; try lia|].
      * apply (hs_ok _ _ _ _ _ (st_heap _ _ _ _ _ _ _ _ _ _ _ _ S1)).
      * intros h u w Hh [->|Hu]%elem_of_cons Hr Hw; [|by apply (Hdj h); [right|..]]. intros Hw'. by apply (Hgd h w).
      * fold gs'. lia.
      * fold gs'. lia.
      * intros [] K' (s2 & B2 & x2 & T2 & f2 & L2 & D2 & -> & Hl). rewrite env_set in Hl. fold gs' in Hl.
        exists s2, B2, x2, T2, f2, L2, (D1 ++ D2). split; [apply set_env_twice|]. by eapply segs_loaded_cons.
    + apply wp_bind, wp_ret. by eapply (IH (i + 1)); try done; try lia.
Qed.
End image.

(** ** The new program *)
Definition stack_area : vm_area :=
  anon_area USER_STACK_BASE USER_STACK_PAGES (Z.lor PAGE_PROT_READ PAGE_PROT_WRITE) true.

(** The address space of a program with the segments [gs] of the file at [buf]
    in [m], as [exec_elf] builds it from the state [s0]. *)
Record program m buf (gs : list segment) kvs kg s0 s c x T f L : Prop := {
  pr_wf : mm_wf s c x T f L (stack_area :: rev (seg_area <$> gs) ++ rev kvs);
  pr_segs g : g ∈ gs → holds s0 s T f (seg_base g) (seg_pages g) PAGE_PROT_READ true (seg_content buf m g);
  pr_stack : holds s0 s T f USER_STACK_BASE USER_STACK_PAGES (Z.lor PAGE_PROT_READ PAGE_PROT_WRITE) true (λ _, 0);
  pr_kernel w : (∀ g, g ∈ gs → ¬ in_area (seg_area g) w) → ¬ in_area stack_area w → f !! w = share_all kg kvs ∅ !! w;
}.

(** Nothing that was there before is touched. *)
Record untouched s0 s c T : Prop := {
  un_spaces b y U g : mm_at s0 b y U g → b ≠ c ∧ mm_at s b y U g ∧ separate U T;
  un_frames q : frame_used (frames s0) q → same_page (frame_mem (frames s0)) (frame_mem (frames s)) q;
}.

Lemma untouched_step s0 s s' c T B L B' T' L' D n k :
  untouched s0 s c T → (∀ q, frame_used (frames s0) q → frame_used (frames s) q ∧ no_table T q) →
  mm_step c s B T L s' B' T' L' D n k → untouched s0 s' c T'.
Proof.
  intros [U1 U2] Hu S. split.
  - intros b y U g Hy. destruct (U1 b y U g Hy) as (Hb & Hy' & Hsep). split; [done|].
    eapply mm_step_other; [exact S|done|exact Hy'|exact Hsep].
  - intros q Hq. eapply same_page_trans; [by apply U2|]. destruct (Hu q Hq) as [Hq1 Hn].
    by apply (gr_other _ _ _ _ _ (st_grow _ _ _ _ _ _ _ _ _ _ _ _ S)).
Qed.

Lemma step_old s0 s c B T L s' B' T' L' D n k :
  (∀ q, frame_used (frames s0) q → frame_used (frames s) q ∧ no_table T q) →
  mm_step c s B T L s' B' T' L' D n k →
  ∀ q, frame_used (frames s0) q → frame_used (frames s') q ∧ no_table T' q.
Proof.
  intros Hu S q Hq. destruct (Hu q Hq) as [H1 H2]. pose proof (st_grow _ _ _ _ _ _ _ _ _ _ _ _ S) as G.
  split; [by eapply grow_keeps|]. intros p Hp. destruct (gr_fresh _ _ _ _ _ G p q Hp) as [H3|H3]; [by apply (H2 p)|done].
Qed.

Lemma stack_in_area w : in_area stack_area w → USER_STACK_BASE ≤ w * PAGE_SIZE.
Proof.
  intros (i & Hi & ->). cbn [stack_area anon_area v_pages v_start] in *. unfold USER_STACK_PAGES in Hi.
  rewrite vpn_page. unfold USER_STACK_BASE, PAGE_SIZE.
  change (140737488216064 / 4096) with 34359738334. rewrite Z.mod_small; lia.
Qed.

Lemma stack_apart size gs kvs : Forall (good_segment size) gs → (∀ v, v ∈ kvs → ¬ reg v) →
  ∀ u w, u ∈ rev (seg_area <$> gs) ++ rev kvs → reg u → in_area stack_area w → ¬ in_area u w.
Proof.
  intros Hgs Hk u w [Hu|Hu]%elem_of_app Hr Hw Hw'; [|by apply (Hk u); [apply elem_of_rev|]].
  apply elem_of_rev, list_elem_of_fmap in Hu as (g & -> & Hg). rewrite list.Forall_forall in Hgs.
  destruct (seg_in_area size g w (Hgs g Hg) Hw') as (p & -> & Hp).
  pose proof (seg_facts size g (Hgs g Hg)) as (_ & _ & _ & _ & _ & He).
  pose proof (stack_in_area p Hw). lia.
Qed.
End exec.

(** The stages of [exec_elf] put together; the first two with the contract that
    keeps the file ([HF]). *)
Section program.
Context {St : Type} {FO : FrameOps St} {FL : FrameLaws St}.
Context {H : Type} {HO : HeapOps H} {HL : HeapLaws H} {HF : HeapLaws H}.

Lemma program_ok m buf size gs kvs kg (s0 s1 s2 s4 : vm St H) h B B1 B2 B4 c x1 T1 L1 n k x2 T2 f2 L2 D2 x4 T4 D4 vma li :
  new_space (HL := HF) s0 B s1 B1 c x1 T1 (share_all kg kvs ∅) L1 (rev kvs) n k →
  segs_loaded (HL := HF) buf m c s1 B1 T1 (share_all kg kvs ∅) L1 (rev kvs) gs s2 B2 x2 T2 f2 L2 D2 →
  Forall (good_segment size) gs → (∀ v, v ∈ kvs → ¬ reg v) →
  anon_post (HL := HL) (set_kheap h s2) B2 c x2 T2 f2 L2 USER_STACK_BASE USER_STACK_PAGES
    (Z.lor PAGE_PROT_READ PAGE_PROT_WRITE) true s4 x4 T4 D4 vma li B4 →
  program m buf gs kvs kg s0 s4 c x4 T4
    (insert_pages USER_STACK_BASE (map (λ q, page_entry q (map_flags (Z.lor PAGE_PROT_READ PAGE_PROT_WRITE) true)) D4) f2)
    ((li, vma) :: L2) ∧ untouched s0 s4 c T4.
Proof.
  intros [Hx1 Har1 Hao1 [Hfr _] S1] [Hwf2 S2 Hh2 Hf2] Hgs Hk Han.
  pose proof (stack_apart size gs kvs Hgs Hk) as Hap. pose proof (anon_mm_step _ _ _ _ _ _ _ _ _ _ _ _ _ _ _ _ _ _ Han) as S4.
  set (s3 := set_kheap h s2) in *.
  assert (mm_wf s3 c x2 T2 f2 L2 (rev (seg_area <$> gs) ++ rev kvs)) as Hwf3 by (destruct Hwf2 as [[A1 A2] A3 A4 A5 A6]; by split).
  assert (0 ≤ USER_STACK_PAGES ≤ 2 ^ 19) as Hpg by (unfold USER_STACK_PAGES; lia).
  pose proof (anon_wf _ _ _ _ _ _ _ _ _ _ _ _ _ _ _ _ _ _ _ Hwf3 Han eq_refl Hpg eq_refl Hap) as Hwf4.
  assert (∀ q, frame_used (frames s0) q → frame_used (frames s0) q ∧ no_table ∅ q) as O0
    by (intros q Hq; split; [done|]; intros p; by rewrite lookup_empty).
  assert (untouched s0 s0 c ∅) as N0.
  { split; [|done]. intros b y U g Hy. split; [intros ->; destruct Hy; congruence|]. split; [done|].
    intros p q r _. by rewrite lookup_empty. }
  pose proof (step_old _ _ _ _ _ _ _ _ _ _ _ _ _ O0 S1) as O1. pose proof (step_old _ _ _ _ _ _ _ _ _ _ _ _ _ O1 S2) as O2.
  pose proof (untouched_step _ _ _ _ _ _ _ _ _ _ _ _ _ N0 O0 S1) as N1.
  pose proof (untouched_step _ _ _ _ _ _ _ _ _ _ _ _ _ N1 O1 S2) as N2.
  assert (untouched s0 s3 c T2) as N3.
  { destruct N2 as [U1 U2]. split; [|exact U2]. intros b y U g Hy. destruct (U1 b y U g Hy) as (? & [? ?] & ?). split; [done|]. split; [by split|done]. }
  pose proof (untouched_step _ _ _ _ _ _ _ _ _ _ _ _ _ N3 O2 S4) as N4. split; [|exact N4].
  destruct Han as [Hx4 Hl4 G4 Hz4 _ _ _ _ _ _ _ _]. split.
  - exact Hwf4.
  - intros g Hg. apply (holds_later s0 s3 s4 c B2 T2 L2 _ _ _ _ _ _ f2 _ _ _ _ _ _ S4).
    + apply (holds_earlier s0 s1); [intros q Hq; by apply O1|exact (Hh2 g Hg)].
    + intros i Hi. apply insert_pages_other. rewrite length_map, Hl4. intros j Hj He.
      apply (Hap (seg_area g) (vpn (seg_base g + i * PAGE_SIZE))); [|done| |by exists i].
      * apply elem_of_app; left. apply elem_of_rev, list_elem_of_fmap. by exists g.
      * exists j. split; [exact Hj|by rewrite <- He].
  - apply (holds_earlier s0 s3); [intros q Hq; by apply O2|].
    eapply (holds_new (HL := HL)); [exact S4|exact Hl4|done| |done|intros i q j Hq Hj; apply (Hz4 q), Hj; by eapply list_elem_of_lookup_2].
    apply list.Forall_forall. intros q Hq. by apply Hz4.
  - intros w Hw Hst. rewrite insert_pages_other; [by apply Hf2|]. rewrite length_map, Hl4. intros j Hj He.
    apply Hst. exists j. split; [exact Hj|by rewrite <- He].
Qed.
End program.

(** ** [exec_elf] *)
Section exec_elf.
Context {St : Type} {FO : FrameOps St} {FL : FrameLaws St}.
Context {H : Type} {HO : HeapOps H} {HL : HeapLaws H} {FS : FileSystem H}.

(** The registers of a new program. *)
Definition entry_regs (m : mem) (buf : Z) (r : regs) : regs :=
  Regs (rax r) (e_entry m buf) (USER_STACK_BASE + PAGE_SIZE * USER_STACK_PAGES) (others r).

(** The block of the file goes back to the heap, with the objects in place. *)
Lemma objects_thaw (s : vm St H) B buf size m :
  objects_ok (HL := frozen_laws buf size m) s B →
  wp (in_kheap (heap_release buf)) s (λ _ s', objects_ok s' B ∧ ∃ h, s' = set_kheap h s ∧ heap_room h = heap_room (kheap s)).
Proof.
  intros [(Hi & Hn & _) Om Ov Ol]. apply wp_zoom.
  eapply wp_mono; [apply (heap_release_ok _ _ buf size Hi); by rewrite lookup_insert_eq|].
  intros [] h (Hh & Hr & _). rewrite delete_insert_id in Hh by done. split; [by split|]. by exists h.
Qed.

Lemma objects_freeze (s : vm St H) B h buf size :
  objects_ok s B → heap_inv h (<[buf := size]> B) → B !! buf = None →
  objects_ok (HL := frozen_laws buf size (heap_bytes h)) (set_kheap h s) B.
Proof. intros [Oh Om Ov Ol] Hi Hn. split; simpl; [|done..]. by split. Qed.

(** The tasks after [exec_elf] has run for [task]. *)
Definition exec_task (c : Z) (m : mem) (buf : Z) (t : task_struct) : task_struct :=
  set_regs (entry_regs m buf (task_regs t)) (set_mm c t).

Lemma frozen_keeps buf size m : ∀ h B, frozen_inv buf size m h B → block_bytes buf size m h.
Proof. by intros h B (_ & _ & ?). Qed.

Lemma tasks_alter_alter (f g : task_struct → task_struct) (t : Z) (ts : store) x :
  ts !! t = Some x → alter f t (alter g t ts) = <[t := f (g x)]> ts.
Proof.
  intros Hx. apply map_eq. intros u. destruct (decide (u = t)) as [->|Hne].
  - by rewrite !lookup_alter_eq, lookup_insert_eq, Hx.
  - by rewrite !lookup_alter_ne, lookup_insert_ne.
Qed.

(** After the loop: the entry point, the release of the file, the stack. *)
Lemma exec_tail_ok (K : sched (vm St H)) B task t buf size m x T f L :
  tasks K !! task = Some t → objects_ok (HL := frozen_laws buf size m) (env K) B → sizeof_ehdr ≤ size →
  mm_at (env K) (task_mm t) x T f → areas (env K) x L →
  (160 ≤ frame_avail (frames (env K)))%nat → 120 < heap_room (kheap (env K)) →
  wp (let* entry := in_env (hload (λ m, e_entry m buf)) in
      let* r := tget task_regs task in
      tset (set_regs (set_rip entry r)) task ;;*
      in_env (in_kheap (heap_release buf)) ;;*
      let* x := tget task_mm task in
      in_env (anon_mmap_user x USER_STACK_BASE USER_STACK_PAGES (Z.lor PAGE_PROT_READ PAGE_PROT_WRITE)) ;;*
      let* r := tget task_regs task in
      tset (set_regs (set_rsp (USER_STACK_BASE + PAGE_SIZE * USER_STACK_PAGES) r)) task) K
    (λ _ K', tasks K' = <[task := set_regs (entry_regs m buf (task_regs t)) t]> (tasks K) ∧
      ∃ h x' T' D vma li B', anon_post (set_kheap h (env K)) B (task_mm t) x T f L USER_STACK_BASE USER_STACK_PAGES
        (Z.lor PAGE_PROT_READ PAGE_PROT_WRITE) true (env K') x' T' D vma li B').
Proof.
  intros Ht Ho Hsz Hx Har Hav Hroom. apply wp_bind, wp_in_env.
  eapply (hload_ok (HL := frozen_laws buf size m) m (env K) B); [exact Ho| |].
  { eapply (frozen_ld (HL := frozen_laws buf size m) buf size m (frozen_keeps buf size m) 8);
      [exact Ho|lia|unfold sizeof_ehdr in *; lia]. }
  rewrite set_env_same. apply wp_bind, (wp_tget task_regs task K t); [done|]. apply wp_bind, wp_tset; [eauto|].
  set (K1 := set_tasks _ K). assert (env K1 = env K) as HE1 by by destruct K.
  assert (tasks K1 = alter (set_regs (set_rip (e_entry m buf) (task_regs t))) task (tasks K)) as HT1 by by destruct K.
  apply wp_bind, wp_in_env. rewrite HE1. eapply wp_mono; [by apply (objects_thaw _ B buf size m)|].
  intros [] s2 (Ho2 & h & -> & Hr2). set (t1 := set_regs (set_rip (e_entry m buf) (task_regs t)) t).
  assert (tasks K1 !! task = Some t1) as Ht1 by (by rewrite HT1, lookup_alter_eq, Ht).
  assert (task_mm t1 = task_mm t) as Hm1 by (unfold t1; by destruct t).
  apply wp_bind, (wp_tget task_mm task _ t1); [by rewrite tasks_set_env|]. apply wp_bind, wp_in_env.
  rewrite env_set, Hm1. unfold anon_mmap_user.
  eapply wp_mono; [apply (anon_mmap_ok (set_kheap h (env K)) B (task_mm t) x T f L); try done|].
  - by destruct Hx.
  - simpl. unfold USER_STACK_PAGES. lia.
  - intros [] s3 (x3 & T3 & D & vma & li & B3 & Han). rewrite set_env_twice.
    apply wp_bind, (wp_tget task_regs task _ t1); [by rewrite tasks_set_env|]. apply wp_tset; [rewrite tasks_set_env; eauto|].
    split; [|exists h, x3, T3, D, vma, li, B3; destruct K; exact Han].
    rewrite tasks_set_env. assert (∀ ts (K : sched (vm St H)), tasks (set_tasks ts K) = ts) as -> by (intros ? []; done).
    rewrite HT1. erewrite tasks_alter_alter by done. f_equal. unfold t1, entry_regs, set_rsp, set_rip. by destruct t as [??? []].
Qed.

(** The new space and its segments. *)
Lemma exec_head_ok sym fuel (K : sched (vm St H)) B task t buf size m ky KU kg LK kvs (rest : M (sched (vm St H)) unit) Q :
  let HF := frozen_laws buf size m in
  let gs := load_segments m buf in
  tasks K !! task = Some t → objects_ok (HL := HF) (env K) B → 0 ≤ buf ∧ buf + size < 2 ^ 64 → elf_ok m buf size →
  kernel_map sym (env K) ky KU kg LK kvs → (∀ v, v ∈ kvs → ¬ reg v) → (length LK ≤ fuel)%nat →
  (5 * (total_pages kvs + segs_pages gs) ≤ frame_avail (frames (env K)))%nat →
  56 * Z.of_nat (length LK) + 48 + 120 * Z.of_nat (length gs) < @heap_room H HO HF (kheap (env K)) →
  (∀ c K2 s1 B1 x1 T1 L1 n k B2 x2 T2 f2 L2 D2, n = 56 * Z.of_nat (length LK) + 48 → k = (5 * total_pages kvs)%nat →
    new_space (HL := HF) (env K) B s1 B1 c x1 T1 (share_all kg kvs ∅) L1 (rev kvs) n k →
    segs_loaded (HL := HF) buf m c s1 B1 T1 (share_all kg kvs ∅) L1 (rev kvs) gs (env K2) B2 x2 T2 f2 L2 D2 →
    tasks K2 = <[task := set_mm c t]> (tasks K) → wp rest K2 Q) →
  wp (let* x := in_env (mm_new sym fuel) in
      tset (set_mm x) task ;;*
      let* phoff := in_env (hload (λ m, e_phoff m buf)) in
      exec_loop exec_fuel task buf (w64 (buf + phoff)) 0 ;;* rest) K Q.
Proof.
  intros HF gs Ht Ho Hbuf [He1 He2 He3 He4] Hk Hkvs Hfuel Hav Hroom Hrest. pose proof (ld_range 2 m (buf + 56)) as Hnum.
  apply wp_bind, wp_in_env. eapply wp_mono; [apply (mm_new_ok (HL := HF) sym fuel _ B ky KU kg LK kvs Ho Hk Hfuel); [lia|]|].
  { unfold HF in *. lia. }
  intros c s1 (x1 & T1 & L1 & B1 & Hns). pose proof (ns_step _ _ _ _ _ _ _ _ _ _ _ _ Hns) as S1.
  assert (∀ v, v ∈ rev kvs → ¬ reg v) as Hkr by (intros v Hv; by apply Hkvs, elem_of_rev).
  pose proof (new_wf _ _ _ _ _ _ _ _ _ _ _ _ Hns Hkr) as Hwf1.
  pose proof (st_avail _ _ _ _ _ _ _ _ _ _ _ _ S1) as Ha1.
  pose proof (hs_room _ _ _ _ _ (st_heap _ _ _ _ _ _ _ _ _ _ _ _ S1)) as Hr1.
  pose proof (hs_ok _ _ _ _ _ (st_heap _ _ _ _ _ _ _ _ _ _ _ _ S1)) as Ho1.
  apply wp_bind, wp_tset; [rewrite tasks_set_env; eauto|]. rewrite tasks_set_env.
  set (K1 := set_tasks _ _). assert (env K1 = s1) as HK1 by (unfold K1; by destruct K).
  assert (tasks K1 = <[task := set_mm c t]> (tasks K)) as HT1
    by (unfold K1; destruct K; simpl in *; symmetry; by apply insert_alter).
  clearbody K1. subst s1.
  apply wp_bind, wp_in_env. eapply (hload_ok (HL := HF) m (env K1) B1); [exact Ho1| |].
  { eapply (frozen_ld (HL := HF) buf size m (frozen_keeps buf size m) 8); [exact Ho1|lia|unfold sizeof_ehdr in *; lia]. }
  rewrite set_env_same. apply wp_bind.
  eapply wp_mono; [apply (exec_loop_ok (HL := HF) buf size m (frozen_keeps buf size m) Hbuf
    (Z.to_nat (e_phnum m buf)) 0 K1 c B1 x1 T1 (share_all kg kvs ∅) L1 (rev kvs) task (set_mm c t));
    try rewrite Z2Nat.id by apply Hnum; try done|].
  - by rewrite HT1, lookup_insert_eq.
  - by destruct t.
  - lia.
  - intros g u w _ Hu Hr. by destruct (Hkr u Hu).
  - unfold load_segments in gs. fold gs. lia.
  - unfold load_segments in gs. fold gs. unfold HF in *. lia.
  - unfold exec_fuel, e_phnum, ld16 in *. change (256 ^ Z.of_nat 2) with (2 ^ 16) in Hnum. lia.
  - intros [] K2 (s2 & B2 & x2 & T2 & f2 & L2 & D2 & -> & Hl).
    eapply (Hrest c _ (env K1)); [done|done|exact Hns| |by rewrite tasks_set_env]. rewrite env_set.
    rewrite Z2Nat.id in Hl by apply Hnum. exact Hl.
Qed.

(** From the file in the heap to the program. *)
Lemma exec_elf_ok sym fuel (K : sched (vm St H)) B task t path ino h1 h2 buf size ky KU kg LK kvs :
  let m := heap_bytes h2 in
  let gs := load_segments m buf in
  tasks K !! task = Some t → objects_ok (env K) B →
  fs_namei path (kheap (env K)) = Ok (ino, h1) → fs_read_file ino h1 = Ok (buf, h2) →
  heap_inv h2 (<[buf := size]> B) → B !! buf = None → elf_ok m buf size →
  kernel_map sym (env K) ky KU kg LK kvs → (∀ v, v ∈ kvs → ¬ reg v) → (length LK ≤ fuel)%nat →
  (5 * (total_pages kvs + segs_pages gs + 32) ≤ frame_avail (frames (env K)))%nat →
  56 * Z.of_nat (length LK) + 120 * Z.of_nat (length gs) + 168 < heap_room h2 →
  wp (exec_elf sym fuel task path) K (λ _ K', ∃ c x T f L B',
    tasks K' = <[task := exec_task c m buf t]> (tasks K) ∧ mms (env K) !! c = None ∧ objects_ok (env K') B' ∧
    program m buf gs kvs kg (env K) (env K') c x T f L ∧ untouched (env K) (env K') c T ∧ space_blocks B B' c L).
Proof.
  intros m gs Ht Ho Hino Hbuf Hblk Hnew Helf Hk Hkvs Hfuel Hav Hroom.
  destruct (heap_range h2 _ buf size Hblk ltac:(by rewrite lookup_insert_eq)) as (Hb1 & Hb2 & Hb3).
  unfold HEAP_START, HEAP_LIMIT in *. pose proof (objects_freeze _ _ _ _ _ Ho Hblk Hnew) as Ho0.
  unfold exec_elf. apply wp_bind, wp_in_env, wp_zoom, wp_run. exists ino, h1. split; [exact Hino|].
  apply wp_bind, wp_in_env, wp_zoom, wp_run. exists buf, h2. split; [by rewrite env_set|].
  rewrite set_env_twice, env_set. set (s0 := set_kheap h2 (set_kheap h1 (env K))).
  change (set_kheap h2 (env K)) with s0 in Ho0.
  assert (kernel_map sym s0 ky KU kg LK kvs) as Hk0 by (destruct Hk as [[A1 A2] [A3 A4] A5 A6]; split; [by split|by split|done|done]).
  apply (exec_head_ok sym fuel _ B task t buf size m ky KU kg LK kvs);
    rewrite ?env_set, ?tasks_set_env; try done; [lia|change (frames s0) with (frames (env K)); fold gs; lia| |].
  { change (56 * Z.of_nat (length LK) + 48 + 120 * Z.of_nat (length gs) < heap_room h2). lia. }
  intros c K2 s1 B1 x1 T1 L1 n k B2 x2 T2 f2 L2 D2 -> -> Hns Hsl HT2.
  pose proof (ns_step _ _ _ _ _ _ _ _ _ _ _ _ Hns) as S1. pose proof (sl_step _ _ _ _ _ _ _ _ _ _ _ _ _ _ _ _ _ Hsl) as S2.
  pose proof (st_avail _ _ _ _ _ _ _ _ _ _ _ _ S1) as Ha1. pose proof (st_avail _ _ _ _ _ _ _ _ _ _ _ _ S2) as Ha2.
  pose proof (hs_room _ _ _ _ _ (st_heap _ _ _ _ _ _ _ _ _ _ _ _ S1)) as Hr1.
  pose proof (hs_room _ _ _ _ _ (st_heap _ _ _ _ _ _ _ _ _ _ _ _ S2)) as Hr2.
  pose proof (hs_ok _ _ _ _ _ (st_heap _ _ _ _ _ _ _ _ _ _ _ _ S2)) as Ho2.
  pose proof (sl_wf _ _ _ _ _ _ _ _ _ _ _ _ _ _ _ _ _ Hsl) as Hwf2. fold gs in Ha2, Hr2.
  assert (task_mm (set_mm c t) = c) as Hmm by by destruct t.
  eapply wp_mono; [apply (exec_tail_ok K2 B2 task (set_mm c t) buf size m x2 T2 f2 L2); rewrite ?Hmm|].
  - by rewrite HT2, lookup_insert_eq.
  - exact Ho2.
  - apply Helf.
  - apply Hwf2.
  - apply Hwf2.
  - change (frames s0) with (frames (env K)) in Ha1. lia.
  - change (@heap_room H HO HL h2 ≤ @heap_room H HO HL (kheap s1) + (56 * Z.of_nat (length LK) + 48)) in Hr1.
    change (@heap_room H HO HL (kheap s1) ≤ @heap_room H HO HL (kheap (env K2)) + 120 * Z.of_nat (length gs)) in Hr2. lia.
  - intros [] K4 (HT4 & h & x4 & T4 & D4 & vma & li & B4 & Han). rewrite Hmm in Han.
    destruct (program_ok _ _ _ _ _ _ _ _ _ _ _ _ _ _ _ _ _ _ _ _ _ _ _ _ _ _ _ _ _ _ _
      Hns Hsl (eo_segs _ _ _ Helf) Hkvs Han) as [Hp Hu].
    exists c, x4, T4. do 2 eexists. exists B4. split; [|split; [apply (ns_fresh _ _ _ _ _ _ _ _ _ _ _ _ Hns)|split; [|split; [|split]]]].
    + rewrite HT4, HT2, insert_insert_eq. unfold exec_task. by destruct t.
    + apply (hs_ok _ _ _ _ _ (an_heap _ _ _ _ _ _ _ _ _ _ _ _ _ _ _ _ _ _ Han)).
    + destruct Hp as [P1 P2 P3 P4]. split; [exact P1|exact P2|exact P3|exact P4].
    + destruct Hu as [U1 U2]. split; [|exact U2]. intros b y U g [Hy1 Hy2]. by apply U1.
    + pose proof (anon_mm_step _ _ _ _ _ _ _ _ _ _ _ _ _ _ _ _ _ _ Han) as S4.
      eapply space_blocks_step; [|exact S4]. eapply (space_blocks_step (HL := frozen_laws buf size m)); [|exact S2].
      eapply (mm_step_blocks (HL := frozen_laws buf size m)), S1.
Qed.


(** C4: [exec_elf] starts the program of an ELF file: with the file read into
    the heap, enough memory, and program headers that lie inside the file and
    describe segments below the stack, at addresses that agree with their
    offsets in the file modulo the page size, that share no page ([elf_ok]), the task gets a new address space in which every loadable
    segment is at its virtual address, holds the bytes of the file followed by
    zeros and has the leaf entries of a page the user may read but not write, a
    zeroed stack of 32 pages with leaf entries that allow writing ends at the
    initial stack pointer, and only the kernel is mapped elsewhere, all in
    frames of its own; execution starts at the entry point of the header.  The
    blocks of the heap are then those of before the file was read and the
    objects of the new space, so the block of the file has been freed; every
    other address space and task is as before, and no frame that was in use has
    changed. *)
Theorem exec_elf_spec sym fuel (K : sched (vm St H)) B task t path ino h1 h2 buf size ky KU kg LK kvs
    (Ht : tasks K !! task = Some t) (Ho : objects_ok (env K) B)
    (Hino : fs_namei path (kheap (env K)) = Ok (ino, h1)) (Hbuf : fs_read_file ino h1 = Ok (buf, h2))
    (Hblk : heap_inv h2 (<[buf := size]> B)) (Hnew : B !! buf = None) (Helf : elf_ok (heap_bytes h2) buf size)
    (Hk : kernel_map sym (env K) ky KU kg LK kvs) (Hkvs : ∀ v, v ∈ kvs → ¬ reg v) (Hfuel : (length LK ≤ fuel)%nat)
    (Hav : (5 * (total_pages kvs + segs_pages (load_segments (heap_bytes h2) buf) + 32) ≤ frame_avail (frames (env K)))%nat)
    (Hroom : 56 * Z.of_nat (length LK) + 120 * Z.of_nat (length (load_segments (heap_bytes h2) buf)) + 168 < heap_room h2) :
  ∃ K' c x T f L B', exec_elf sym fuel task path K = Ok (tt, K') ∧
    tasks K' = <[task := exec_task c (heap_bytes h2) buf t]> (tasks K) ∧ mms (env K) !! c = None ∧ objects_ok (env K') B' ∧
    program (heap_bytes h2) buf (load_segments (heap_bytes h2) buf) kvs kg (env K) (env K') c x T f L ∧
    untouched (env K) (env K') c T ∧ space_blocks B B' c L.
Proof.
  destruct (proj1 (wp_run _ _ _) (exec_elf_ok sym fuel K B task t path ino h1 h2 buf size ky KU kg LK kvs
    Ht Ho Hino Hbuf Hblk Hnew Helf Hk Hkvs Hfuel Hav Hroom)) as ([] & K' & Hrun & c & x & T & f & L & B' & Hr).
  exists K', c, x, T, f, L, B'. split; [exact Hrun|exact Hr].
Qed.
End exec_elf.

(** ** A file with one segment

    The header, a program header for the four bytes at offset 120, which go to
    address [0x400078], and the bytes. *)
Fixpoint put_bytes (m : mem) (a : Z) (l : list Z) : mem :=
  match l with
  | [] => m
  | c :: l' => put_bytes (st8 m a c) (a + 1) l'
  end.
Fixpoint word (n : nat) (l : list Z) : Z :=
  match n, l with
  | S n', c :: l' => w8 c + 256 * word n' l'
  | _, _ => 0
  end.

Lemma ld8_put_out l : ∀ m a b, ¬ (a ≤ b < a + Z.of_nat (length l)) → ld8 (put_bytes m a l) b = ld8 m b.
Proof.
  induction l as [|c l IH]; intros m a b Hb; [done|]. cbn [put_bytes length] in *.
  rewrite IH by lia. apply ld8_st8_ne. lia.
Qed.

Lemma ld_put n : ∀ l i m a, (i + n ≤ length l)%nat →
  ld n (put_bytes m a l) (a + Z.of_nat i) = word n (drop i l).
Proof.
  induction n as [|n IH]; intros l i m a Hl; [done|]. cbn [ld].
  replace (a + Z.of_nat i + 1) with (a + Z.of_nat (S i)) by lia. rewrite IH by lia.
  destruct (lookup_lt_is_Some_2 l i ltac:(lia)) as [c Hc]. rewrite (drop_S l c i Hc). cbn [word]. f_equal.
  clear IH. revert i m a Hl Hc. induction l as [|d l IHl]; intros i m a Hl Hc; [done|]. destruct i as [|i].
  - injection Hc as <-. cbn [put_bytes]. rewrite Z.add_0_r, ld8_put_out by lia. by rewrite ld8_st8_eq.
  - cbn [put_bytes length] in *. replace (a + Z.of_nat (S i)) with (a + 1 + Z.of_nat i) by lia. apply IHl; [lia|done].
Qed.

Definition bytes_of (n : nat) (x : Z) : list Z := map (λ i, x / 2 ^ (8 * Z.of_nat i) mod 256) (seq 0 n).
Definition ex_elf : list Z :=
  [0x7f; 0x45; 0x4c; 0x46; 2; 1; 1; 0] ++ replicate 8 0 ++ bytes_of 2 2 ++ bytes_of 2 62 ++ bytes_of 4 1 ++
  bytes_of 8 0x400078 ++ bytes_of 8 64 ++ bytes_of 8 0 ++ bytes_of 4 0 ++
  bytes_of 2 64 ++ bytes_of 2 56 ++ bytes_of 2 1 ++ bytes_of 2 0 ++ bytes_of 2 0 ++ bytes_of 2 0 ++
  bytes_of 4 PT_LOAD ++ bytes_of 4 5 ++ bytes_of 8 120 ++ bytes_of 8 0x400078 ++ bytes_of 8 0x400078 ++
  bytes_of 8 4 ++ bytes_of 8 4 ++ bytes_of 8 4096 ++ [0xeb; 0xfe; 0x90; 0x90].

(** A file system with that file only. *)
#[local] Instance ex_files : FileSystem heap := {
  fs_namei _ := mret_ 12;
  fs_read_file _ := let* p := kmalloc 124 in hwrite (λ m, put_bytes m p ex_elf) ;;* mret_ p;
  fs_get_inode _ _ := mret_ tt;
  fs_getdents _ _ _ := mret_ 0;
  put_int _ _ := mret_ tt;
}.

Definition ex_seg : segment := Segment 0x400078 120 4 4.

Lemma ex_field n i m p : (i + n ≤ 124)%nat → ld n (put_bytes m p ex_elf) (p + Z.of_nat i) = word n (drop i ex_elf).
Proof. intros Hi. apply ld_put. exact Hi. Qed.

Lemma ex_elf_header m p :
  e_phoff (put_bytes m p ex_elf) p = 64 ∧ e_phnum (put_bytes m p ex_elf) p = 1 ∧ e_entry (put_bytes m p ex_elf) p = 0x400078.
Proof.
  split_and!; [apply (ex_field 8 32)|apply (ex_field 2 56)|apply (ex_field 8 24)]; lia.
Qed.

Lemma ex_elf_segments m p : load_segments (put_bytes m p ex_elf) p = [ex_seg].
Proof.
  destruct (ex_elf_header m p) as (Ho & Hn & _). unfold load_segments, segments_from. rewrite Hn.
  change (seqZ 0 1) with [0]. cbn [omap list_omap]. unfold phdr. rewrite Ho, Z.mul_0_l, Z.add_0_r.
  assert (p_type (put_bytes m p ex_elf) (p + 64) = 1) as ->.
  { unfold p_type. rewrite Z.add_0_r. apply (ex_field 4 64). lia. }
  assert (segment_at (put_bytes m p ex_elf) (p + 64) = ex_seg) as ->; [|done].
  unfold segment_at, ex_seg. f_equal; unfold p_vaddr, p_offset, p_filesz, p_memsz; rewrite <- Z.add_assoc;
    [apply (ex_field 8 80)|apply (ex_field 8 72)|apply (ex_field 8 96)|apply (ex_field 8 104)]; lia.
Qed.

Lemma ex_elf_ok m p k : 124 ≤ k → elf_ok (put_bytes m p ex_elf) p k.
Proof.
  intros Hk. destruct (ex_elf_header m p) as (Ho & Hn & _). split.
  - unfold sizeof_ehdr. lia.
  - rewrite Ho, Hn. unfold sizeof_phdr. lia.
  - rewrite ex_elf_segments. constructor; [|constructor]. split; simpl; try done; try lia.
  - rewrite ex_elf_segments. by repeat constructor.
Qed.

Lemma ex_read_file (h : heap) B : kheap_inv h B → 124 + 32 < kheap_room h →
  wp (fs_read_file 12) h (λ buf h2, ∃ k, 124 ≤ k ∧ B !! buf = None ∧ kheap_inv h2 (<[buf := k]> B) ∧
    kheap_room h ≤ kheap_room h2 + 156 ∧ ∃ m, h_mem h2 = put_bytes m buf ex_elf).
Proof.
  intros Hi Hr. unfold fs_read_file, ex_files. apply wp_bind.
  eapply wp_mono; [apply (kmalloc_contract h B 124 Hi ltac:(lia) Hr)|].
  intros p h1 (k & Hk & Hp & Hi1 & Hr1 & _). unfold hwrite. wp_steps. exists k. split; [done|]. split; [done|].
  split; [|split; [unfold kheap_room in *; simpl; lia|by eexists]].
  apply (kheap_write h1 _ p k); [done|by rewrite lookup_insert_eq|].
  intros x Hx. apply ld8_put_out. change (Z.of_nat (length ex_elf)) with 124. lia.
Qed.

Lemma exec_elf_spec_witness : ∃ (K K' : sched (vm pmm heap)) t',
  exec_elf ex_sym 1 4096 0 K = Ok (tt, K') ∧ tasks K' !! 4096 = Some t' ∧
  rip (task_regs t') = 0x400078 ∧ rsp (task_regs t') = 0x7fffffffe000.
Proof.
  destruct ex_new as (s & B & b & y & U & g & L & ky & KU & kg & Ho & Hk & Hwf & Hb & Hsep & Hap & Hav & Hroom).
  change (heap_room (kheap s)) with (kheap_room (kheap s)) in Hroom.
  destruct (proj1 (wp_run _ _ _) (ex_read_file (kheap s) B (ob_heap _ _ Ho) ltac:(lia)))
    as (buf & h2 & Hrun & k & Hk4 & Hp & Hi & Hr & m & Hm).
  set (K := Sched s {[4096 := zero_task]} ∅ 4096 4096 1000 0 0 0 0).
  assert (heap_bytes h2 = put_bytes m buf ex_elf) as Hbytes by exact Hm.
  destruct (exec_elf_spec (FS := ex_files) ex_sym 1 K B 4096 zero_task 0 12 (kheap s) h2 buf k ky KU kg
    [(kernel_vma_li ex_sym, kernel_vma ex_sym)] [ex_text] eq_refl Ho eq_refl Hrun Hi Hp
    ltac:(rewrite Hbytes; by apply ex_elf_ok) Hk ltac:(intros v ->%list_elem_of_singleton; done) ltac:(simpl; lia)
    ltac:(rewrite Hbytes, ex_elf_segments;
      change (5 * (total_pages [ex_text] + segs_pages [ex_seg] + 32))%nat with 170%nat; change (env K) with s; lia)
    ltac:(rewrite Hbytes, ex_elf_segments; change (heap_room h2) with (kheap_room h2); cbn [length]; lia))
    as (K' & c & x & T & f & L' & B' & He & HT & _).
  exists K, K', (exec_task c (heap_bytes h2) buf zero_task). split; [exact He|]. split; [by rewrite HT, lookup_insert_eq|].
  split; [|reflexivity]. change (e_entry (heap_bytes h2) buf = 0x400078). rewrite Hbytes. apply (ex_elf_header m buf).
Defined.
