(* ===== verification/Rootfs.v ===== *)
(** The file system of the kernel: [fs/ext2.c] on the drive of [drivers/ata.c],
    with its buffers in the heap of [mm/kmalloc.c], as the operations that
    [Interfaces] names.

    The state is the [machine] of [Ata], which keeps the heap contract. *)

From S2P Require Import Prelude Memory Interfaces Kmalloc Heap Ata Ext2.

Section machine.
Context {D : Type} {PO : PortOps D}.

#[export] Instance machine_heap_ops : HeapOps (machine D) := {
  heap_bytes s := h_mem (hp s);
  heap_kmalloc n := in_heap (kmalloc n);
  heap_kcalloc a b := in_heap (kcalloc a b);
  heap_release p := in_heap (free p);
}.

Lemma machine_range (s : machine D) L p n :
  kheap_inv (hp s) L → L !! p = Some n → HEAP_START < p ∧ 0 < n ∧ p + n ≤ HEAP_LIMIT.
Proof. apply live_range. Qed.

Lemma machine_kmalloc (s : machine D) L n : kheap_inv (hp s) L → 0 < n → n + 32 < kheap_room (hp s) →
  wp (heap_kmalloc n) s (λ p s', ∃ k, n ≤ k ∧ L !! p = None ∧ kheap_inv (hp s') (<[p := k]> L) ∧
    kheap_room (hp s) ≤ kheap_room (hp s') + (n + 32) ∧ same_blocks L (heap_bytes s) (heap_bytes s')).
Proof. intros Hi Hn Hr. apply wp_in_heap. by apply kmalloc_contract. Qed.

Lemma machine_kcalloc (s : machine D) L a b : kheap_inv (hp s) L → 0 < a * b → a * b + 32 < kheap_room (hp s) →
  wp (heap_kcalloc a b) s (λ p s', ∃ k, a * b ≤ k ∧ L !! p = None ∧ kheap_inv (hp s') (<[p := k]> L) ∧
    kheap_room (hp s) ≤ kheap_room (hp s') + (a * b + 32) ∧ same_blocks L (heap_bytes s) (heap_bytes s') ∧
    (∀ x, p ≤ x < p + a * b → ld8 (heap_bytes s') x = 0)).
Proof. intros Hi Hn Hr. apply wp_in_heap. by apply kcalloc_contract. Qed.

Lemma machine_release (s : machine D) L p n : kheap_inv (hp s) L → L !! p = Some n →
  wp (heap_release p) s (λ _ s', kheap_inv (hp s') (delete p L) ∧ kheap_room (hp s') = kheap_room (hp s) ∧
    same_blocks (delete p L) (heap_bytes s) (heap_bytes s')).
Proof. intros Hi Hp. apply wp_in_heap. by apply (free_contract _ _ p n). Qed.

#[export] Instance machine_heap_laws : HeapLaws (machine D) := {
  heap_inv s := kheap_inv (hp s);
  heap_room s := kheap_room (hp s);
  heap_range := machine_range;
  heap_kmalloc_ok := machine_kmalloc;
  heap_kcalloc_ok := machine_kcalloc;
  heap_release_ok := machine_release;
}.

(** [rootfs] is the mounted file system, [comp] and [inode] the local variables
    of [ext2_namei] and [ext2_getdents]. *)
Definition ext2_files (spin fuel sfuel : nat) (rootfs comp inode : Z) : FileSystem (machine D) := {|
  fs_namei path := ext2_namei spin fuel sfuel comp rootfs path;
  fs_read_file ino := ext2_read_file spin rootfs ino;
  fs_get_inode buf ino := ext2_get_inode spin rootfs buf ino;
  fs_getdents ino buf count := ext2_getdents spin fuel rootfs inode ino buf count;
  put_int a v := store (λ m, st32 m a v);
|}.
End machine.
