(* ===== verification/Syscall.v ===== *)
(** Files and system calls: [fs/open.c] and [kernel/sys.c].

    The kernel state is that of [Sched] on the memory manager of [Mm].  The
    tables of file operations are those that the sources define: the two of
    [fs/ext2.c] and the two of [kernel/tty.c], at the addresses of [fops].

    A call that puts the task to sleep in the kernel ([read] of an empty
    terminal, [wait] without a dead child) answers [None]: its result is stored
    when the task is resumed.  Pointers of the caller are followed in the memory
    of the kernel heap's state, which stands for the memory mapped while the
    task runs. *)

From S2P Require Import Prelude Layout Memory Interfaces PageTable Mm Sched Ext2 Tty Exec.

Definition SYS_READ : Z := 0.
Definition SYS_WRITE : Z := 1.
Definition SYS_OPEN : Z := 2.
Definition SYS_CLOSE : Z := 3.
Definition SYS_FORK : Z := 4.
Definition SYS_EXEC : Z := 5.
Definition SYS_EXIT : Z := 6.
Definition SYS_WAIT : Z := 7.
Definition SYS_GETDENTS : Z := 8.

Definition EXT2_S_IFREG : Z := 0x8000.
Definition EXT2_S_IFDIR : Z := 0x4000.

(** The addresses of the four tables. *)
Record fops := Fops { ext2_file_ops : Z; ext2_dir_ops : Z; stdin_ops : Z; stdout_ops : Z }.

(** A struct of function pointers: the functions that are not NULL. *)
Record file_ops (S : Type) := FileOps {
  f_read : option (Z → Z → Z → M S (option Z));
  f_write : option (Z → Z → Z → M S (option Z));
  f_getdents : option (Z → Z → Z → M S (option Z));
}.
Arguments FileOps {S}. Arguments f_read {S}. Arguments f_write {S}. Arguments f_getdents {S}.

(** What [kernel/tty.c] offers to the tables, on the state of the system calls. *)
Class TtyFiles (S : Type) := {
  tty_stdin_read : Z → Z → Z → M S (option Z);
  tty_stdout_write : Z → Z → Z → M S (option Z);
}.

(** [struct regs], in the order of the struct; [others] are the registers before
    [rax]. *)
Definition reg_names : list string :=
  ["r15"; "r14"; "r13"; "r12"; "r11"; "r10"; "r9"; "r8"; "rbp"; "rsi"; "rdi"; "rdx"; "rcx"; "rbx"]%string.
Definition rsi (r : regs) : Z := default 0 (others r !! 9%nat).
Definition rdi (r : regs) : Z := default 0 (others r !! 10%nat).
Definition rdx (r : regs) : Z := default 0 (others r !! 11%nat).

Section code.
Context {St : Type} {FO : FrameOps St} {H : Type} {HO : HeapOps H} {FS : FileSystem H}.
Variable sym : statics.
Variable fuel : nat.
Abbreviation kst := (sched (vm St H)).
Context {TF : TtyFiles (sched (vm St H))}.
Variable ops_at : fops.
#[local] Instance kst_ops : TaskOps (vm St H) := vm_task_ops sym fuel.

Definition some_result {A} (m : M kst A) : M kst (option A) := let* v := m in mret_ (Some v).

(** The file that a pointer leads to. *)
Definition get_file (p : Z) : M kst file := let* fs := gets files in from_opt (fs !! p).
Definition put_file (p : Z) (f : file) : M kst unit := modify (λ s, set_files (<[p := f]> (files s)) s).

(** [fdtab[fd]]: a descriptor outside the table is an access out of bounds. *)
Definition get_fd (t fd : Z) : M kst Z :=
  let* fds := tget fdtab t in
  if decide (0 ≤ fd) then from_opt (fds !! Z.to_nat fd) else fault.
Definition set_fd (t fd v : Z) : M kst unit :=
  let* fds := tget fdtab t in
  tset (set_fdtab (<[Z.to_nat fd := v]> fds)) t.

(** The four [struct file_ops]. *)
Definition ext2_getdents_file (p buf count : Z) : M kst (option Z) :=
  let* f := get_file p in
  some_result (in_env (in_kheap (fs_getdents (ino f) buf count))).
Definition ops_of (a : Z) : M kst (file_ops kst) :=
  if a =? ext2_file_ops ops_at then mret_ (FileOps None None None) else
  if a =? ext2_dir_ops ops_at then mret_ (FileOps None None (Some ext2_getdents_file)) else
  if a =? stdin_ops ops_at then mret_ (FileOps (Some tty_stdin_read) None None) else
  if a =? stdout_ops ops_at then mret_ (FileOps None (Some tty_stdout_write) None) else fault.

(** ** [fs/open.c] *)

(** The first entry of the table that is NULL. *)
Fixpoint free_fd (fds : list Z) (i : Z) : option Z :=
  match fds with
  | [] => None
  | p :: fds' => if p =? 0 then Some i else free_fd fds' (i + 1)
  end.

(** [kcalloc(1, sizeof(struct file))] *)
Definition alloc_file : M kst Z :=
  let* p := in_env (in_kheap (heap_kcalloc 1 sizeof_file)) in
  let* fs := gets files in
  if decide (p = 0 ∨ is_Some (fs !! p)) then fault else
  put_file p (File 0 0 0) ;;* mret_ p.

Definition set_ino (v : Z) (f : file) : file := File (ops f) v (refcnt f).
Definition set_ops (v : Z) (f : file) : file := File v (ino f) (refcnt f).

(** The mode of the inode chooses the table. *)
Definition set_mode_ops (p mode : Z) : M kst unit :=
  let* f := get_file p in
  if negb (Z.land mode EXT2_S_IFREG =? 0) then put_file p (set_ops (ext2_file_ops ops_at) f)
  else if negb (Z.land mode EXT2_S_IFDIR =? 0) then put_file p (set_ops (ext2_dir_ops ops_at) f)
  else panic "unsupported file mode %x".
Definition open_inode (p : Z) : M kst unit :=
  let* inode_buf := in_env (in_kheap (heap_kcalloc 1 sizeof_ino)) in
  let* f := get_file p in
  in_env (in_kheap (fs_get_inode inode_buf (ino f))) ;;*
  let* mode := in_env (hload (λ m, i_mode m inode_buf)) in
  set_mode_ops p mode ;;*
  in_env (in_kheap (heap_release inode_buf)).

Definition do_open (path : Z) : M kst Z :=
  let* p := alloc_file in
  let* n := in_env (in_kheap (fs_namei path)) in
  let* f := get_file p in
  put_file p (set_ino n f) ;;*
  let* c := gets current in
  let* fds := tget fdtab c in
  match free_fd fds 0 with
  | None => panic "out of file descriptors"
  | Some i =>
      set_fd c i p ;;*
      open_inode p ;;*
      mret_ i
  end.

(** [free] of a pointer to no file is undefined. *)
Definition do_close (fd : Z) : M kst Z :=
  let* c := gets current in
  let* p := get_fd c fd in
  if p =? 0 then panic "bad fd" else
  let* _ := get_file p in
  in_env (in_kheap (heap_release p)) ;;*
  modify (λ s, set_files (delete p (files s)) s) ;;*
  set_fd c fd 0 ;;*
  mret_ 0.

(** ** [kernel/sys.c] *)
Definition sys_file_op (op : file_ops kst → option (Z → Z → Z → M kst (option Z))) (fd buf count : Z) : M kst (option Z) :=
  let* c := gets current in
  let* p := get_fd c fd in
  if p =? 0 then panic "fd %d does not exist" else
  let* f := get_file p in
  let* o := ops_of (ops f) in
  match op o with
  | None => panic "fd %d ENOSYS"
  | Some g => g p buf count
  end.
Definition sys_read (fd buf count : Z) : M kst (option Z) := sys_file_op f_read fd buf count.
Definition sys_write (fd buf count : Z) : M kst (option Z) := sys_file_op f_write fd buf count.
Definition sys_getdents (fd buf size : Z) : M kst (option Z) := sys_file_op f_getdents fd buf size.

(** [do_wait(current, wstatus)] with the store through [wstatus]. *)
Definition sys_wait (wstatus : Z) : M kst (option Z) :=
  let* c := gets current in
  let* r := do_wait c in
  match r with
  | None => mret_ None
  | Some (status, p) =>
      in_env (in_kheap (put_int wstatus status)) ;;*
      mret_ (Some (w64 (s32 p)))
  end.

Definition sys_open (path : Z) : M kst (option Z) := some_result (do_open path).
Definition sys_close (fd : Z) : M kst (option Z) := some_result (do_close fd).
Definition sys_fork : M kst (option Z) :=
  let* c := gets current in
  let* p := sched_fork c in
  mret_ (Some (w64 (s32 p))).
Definition sys_exec (pathname : Z) : M kst (option Z) :=
  let* c := gets current in
  some_result (sched_exec sym fuel pathname c).
(** [do_exit] does not come back. *)
Definition sys_exit (status : Z) : M kst (option Z) :=
  let* c := gets current in
  do_exit c status ;;*
  mret_ None.

(** The switch of [do_syscall]. *)
Definition dispatch (r : regs) : M kst (option Z) :=
  if rax r =? SYS_READ then sys_read (s32 (rdi r)) (rsi r) (rdx r) else
  if rax r =? SYS_WRITE then sys_write (s32 (rdi r)) (rsi r) (rdx r) else
  if rax r =? SYS_OPEN then sys_open (rdi r) else
  if rax r =? SYS_CLOSE then sys_close (s32 (rdi r)) else
  if rax r =? SYS_WAIT then sys_wait (rdi r) else
  if rax r =? SYS_EXEC then sys_exec (rdi r) else
  if rax r =? SYS_FORK then sys_fork else
  if rax r =? SYS_EXIT then sys_exit (s32 (rdi r)) else
  if rax r =? SYS_GETDENTS then sys_getdents (s32 (rdi r)) (rsi r) (rdx r) else
  panic "syscall %d not implemented
".

(** [regs] is the frame on the stack of the task that called: the answer goes
    there, whatever task is current afterwards. *)
Definition do_syscall (r : regs) : M kst unit :=
  let* c := gets current in
  tset (set_regs r) c ;;*
  let* v := dispatch r in
  match v with
  | None => mret_ tt
  | Some v => let* r := tget task_regs c in tset (set_regs (set_rax r v)) c
  end.
End code.
