(* ===== verification/SyscallProps.v ===== *)
(** The properties of files and system calls ([Syscall]). *)

From S2P Require Import Prelude Layout Memory Interfaces Pmm PageTable Kmalloc Heap Mm MmSpec MmProps Sched Ext2 Tty Exec.
From S2P Require Import ExecSpec Syscall.

Section props.
Context {St : Type} {FO : FrameOps St} {H : Type} {HO : HeapOps H} {HL : HeapLaws H} {FS : FileSystem H}.
Context {TF : TtyFiles (sched (vm St H))}.
Variable ops_at : fops.
Abbreviation kst := (sched (vm St H)).
Implicit Types (s : kst) (B : gmap Z Z).

(** ** Steps in the heap *)
Definition k_heap s : H := kheap (env s).

(** Only the heap differs. *)
Definition heap_only s s' : Prop := s' = set_env (set_kheap (k_heap s') (env s)) s.

Lemma heap_only_tasks s s' : heap_only s s' → tasks s' = tasks s ∧ files s' = files s ∧ current s' = current s.
Proof. intros ->. by destruct s. Qed.

Lemma wp_kheap {A} (m : M H A) s (Q : A → kst → Prop) :
  wp m (k_heap s) (λ a h, ∀ s', heap_only s s' → k_heap s' = h → Q a s') → wp (in_env (in_kheap m)) s Q.
Proof.
  intros Hm. apply wp_in_env, wp_zoom. eapply wp_mono; [exact Hm|]. intros a h Hq. apply Hq.
  - unfold heap_only, k_heap. by destruct s.
  - unfold k_heap. by destruct s.
Qed.

Lemma heap_only_trans s s1 s2 : heap_only s s1 → heap_only s1 s2 → heap_only s s2.
Proof. unfold heap_only, k_heap. intros -> ->. destruct s as [e]. by destruct e. Qed.

Lemma heap_set_files s fs : k_heap (set_files fs s) = k_heap s.
Proof. by destruct s. Qed.
Lemma files_set_files s fs : files (set_files fs s) = fs.
Proof. by destruct s. Qed.
Lemma tasks_set_files s fs : tasks (set_files fs s) = tasks s.
Proof. by destruct s. Qed.
Lemma current_set_files s fs : current (set_files fs s) = current s.
Proof. by destruct s. Qed.
Lemma heap_set_tasks s ts : k_heap (set_tasks ts s) = k_heap s.
Proof. by destruct s. Qed.
Lemma files_set_tasks s ts : files (set_tasks ts s) = files s.
Proof. by destruct s. Qed.

Lemma wp_get_file s p f (Q : file → kst → Prop) : files s !! p = Some f → Q f s → wp (get_file p) s Q.
Proof. intros Hf HQ. unfold get_file. by wp_steps. Qed.
Lemma wp_put_file s p f (Q : unit → kst → Prop) :
  Q tt (set_files (<[p := f]> (files s)) s) → wp (put_file p f) s Q.
Proof. apply wp_modify. Qed.

(** ** Opening a file *)

(** The table that goes with a mode. *)
Definition open_ops (mode : Z) : option Z :=
  if negb (Z.land mode EXT2_S_IFREG =? 0) then Some (ext2_file_ops ops_at)
  else if negb (Z.land mode EXT2_S_IFDIR =? 0) then Some (ext2_dir_ops ops_at) else None.

Lemma free_fd_spec fds : ∀ i j, free_fd fds i = Some j →
  i ≤ j < i + Z.of_nat (length fds) ∧ fds !! Z.to_nat (j - i) = Some 0 ∧
  ∀ k, i ≤ k < j → ∃ p, fds !! Z.to_nat (k - i) = Some p ∧ p ≠ 0.
Proof.
  induction fds as [|p fds IH]; intros i j; simpl; [done|].
  destruct (Z.eqb_spec p 0) as [->|Hp].
  - intros [= ->]. rewrite Z.sub_diag. split; [lia|]. split; [done|]. intros k Hk. lia.
  - intros Hj. destruct (IH _ _ Hj) as (H1 & H2 & H3). split; [lia|]. split.
    + replace (Z.to_nat (j - i)) with (S (Z.to_nat (j - (i + 1)))) by lia. done.
    + intros k Hk. destruct (decide (k = i)) as [->|Hne]; [rewrite Z.sub_diag; by exists p|].
      replace (Z.to_nat (k - i)) with (S (Z.to_nat (k - (i + 1)))) by lia. apply H3. lia.
Qed.

(** The table of a mode, or a panic. *)
Lemma set_mode_ops_ok s p n mode (Q : unit → kst → Prop) :
  files s !! p = Some (File 0 n 0) →
  (∀ o, open_ops mode = Some o → Q tt (set_files (<[p := File o n 0]> (files s)) s)) →
  wpp (set_mode_ops ops_at p mode) s Q (open_ops mode = None).
Proof.
  intros Hf HQ. unfold set_mode_ops. apply wpp_step, (wp_get_file _ _ (File 0 n 0)); [done|]. unfold open_ops in *.
  destruct (negb (Z.land mode EXT2_S_IFREG =? 0)); [by apply wpp_of_wp, wp_put_file, HQ|].
  destruct (negb (Z.land mode EXT2_S_IFDIR =? 0)); [by apply wpp_of_wp, wp_put_file, HQ|done].
Qed.

Lemma do_close_ok s B t fd p f k :
  heap_inv (k_heap s) B → tasks s !! current s = Some t → 0 ≤ fd → fdtab t !! Z.to_nat fd = Some p → p ≠ 0 →
  files s !! p = Some f → B !! p = Some k →
  wp (do_close fd) s (λ r s', r = 0 ∧ tasks s' = <[current s := set_fdtab (<[Z.to_nat fd := 0]> (fdtab t)) t]> (tasks s) ∧
    current s' = current s ∧ files s' = delete p (files s) ∧ heap_inv (k_heap s') (delete p B)).
Proof.
  intros Hi Ht Hfd Hp Hp0 Hf Hk. unfold do_close. apply wp_bind, wp_gets. unfold get_fd.
  apply wp_bind, wp_bind, (wp_tget fdtab _ _ t); [done|]. rewrite decide_True by done. apply (wp_from_opt _ p); [done|].
  destruct (Z.eqb_spec p 0); [done|]. apply wp_bind, (wp_get_file _ _ f); [done|]. apply wp_bind, wp_kheap.
  eapply wp_mono; [by apply (heap_release_ok _ B p k)|]. intros [] h (Hi1 & _ & _) s1 Hs1 <-.
  destruct (heap_only_tasks _ _ Hs1) as (Ht1 & Hf1 & Hc1). apply wp_bind, wp_modify. unfold set_fd.
  apply wp_bind, wp_bind, (wp_tget fdtab _ _ t); [by rewrite tasks_set_files, Ht1|].
  apply wp_tset; [rewrite tasks_set_files, Ht1; eauto|]. apply wp_ret. split; [done|].
  rewrite heap_set_tasks, heap_set_files, files_set_tasks, files_set_files, tasks_set, tasks_set_files, current_set,
    current_set_files, Ht1, Hf1, Hc1. split_and!; try done. symmetry. by apply insert_alter.
Qed.

(** C40: [do_close] frees a file whatever its reference count: when another task
    has the same file in its table, as after a fork, its next use of the
    descriptor follows a dangling pointer. *)
Theorem do_close_dangles s B t fd p f k u x fd' buf count s' r
    (Hi : heap_inv (k_heap s) B) (Ht : tasks s !! current s = Some t) (Hfd : 0 ≤ fd)
    (Hp : fdtab t !! Z.to_nat fd = Some p) (Hp0 : p ≠ 0) (Hf : files s !! p = Some f) (Hk : B !! p = Some k)
    (Hu : u ≠ current s) (Hx : tasks s !! u = Some x) (Hfd' : 0 ≤ fd') (Hpx : fdtab x !! Z.to_nat fd' = Some p)
    (Hrun : do_close fd s = Ok (r, s')) :
  sys_read ops_at fd' buf count (set_current u s') = Fault.
Proof.
  destruct (proj1 (wp_run _ _ _) (do_close_ok s B t fd p f k Hi Ht Hfd Hp Hp0 Hf Hk)) as (v & s2 & Hrun2 & _ & Ht2 & _ & Hf2 & _).
  assert (s' = s2) as -> by congruence.
  assert (tasks (set_current u s2) = tasks s2 ∧ files (set_current u s2) = files s2 ∧ current (set_current u s2) = u)
    as (E1 & E2 & E3) by by destruct s2.
  unfold sys_read, sys_file_op, get_fd, get_file, mbind_, gets, tget. rewrite E3, E1, Ht2, lookup_insert_ne, Hx by done.
  rewrite decide_True by done. rewrite Hpx. cbn [from_opt mret_]. destruct (Z.eqb_spec p 0); [done|].
  cbn [mret_ id]. unfold id. by rewrite E2, Hf2, lookup_delete_eq.
Qed.

(** an open regular file supports no operation: [read], [write] and
    [getdents] on its descriptor are panics of the kernel. *)
Theorem regular_file_unsupported s t fd p f buf count op
    (Ht : tasks s !! current s = Some t) (Hfd : 0 ≤ fd) (Hp : fdtab t !! Z.to_nat fd = Some p) (Hp0 : p ≠ 0)
    (Hf : files s !! p = Some f) (Hops : ops f = ext2_file_ops ops_at)
    (Hop : op = sys_read ops_at ∨ op = sys_write ops_at ∨ op = sys_getdents ops_at) :
  ∃ msg, op fd buf count s = Panic msg.
Proof.
  assert (∀ g, g (FileOps None None None) = None → ∃ msg, sys_file_op ops_at g fd buf count s = Panic msg) as Hg.
  { intros g Hgn. unfold sys_file_op, get_fd, get_file, mbind_, gets, tget. rewrite Ht, decide_True by done. rewrite Hp.
    cbn [from_opt mret_]. destruct (Z.eqb_spec p 0); [done|]. cbn [mret_]. unfold id. rewrite Hf. cbn [from_opt mret_].
    unfold ops_of. rewrite Hops, Z.eqb_refl. cbn [mret_]. rewrite Hgn. by eexists. }
  destruct Hop as [->|[->| ->]]; by apply Hg.
Qed.
End props.

(** ** A kernel with one regular file *)
#[local] Instance ex_disk : FileSystem heap := {
  fs_namei _ := mret_ 12;
  fs_read_file _ := mret_ 0;
  fs_get_inode buf _ := hwrite (λ m, st16 m buf 0x81a4);
  fs_getdents _ _ _ := mret_ 0;
  put_int _ _ := mret_ tt;
}.
#[local] Instance ex_tty : TtyFiles (sched (vm pmm heap)) := {
  tty_stdin_read _ _ _ := mret_ None;
  tty_stdout_write _ _ n := mret_ (Some n);
}.
Definition ex_ops : fops := Fops 0xffffffff80300000 0xffffffff80300020 0xffffffff80300040 0xffffffff80300060.

(** Two tasks that share the file at [p]. *)
Definition ex_shared (h : heap) (p : Z) : sched (vm pmm heap) :=
  let t := set_fdtab (p :: replicate 15 0) zero_task in
  Sched (set_kheap h ex_vm0) {[4096 := t; 8192 := t]} {[p := File (ext2_file_ops ex_ops) 12 1]} 4096 4096 1000 0 0 0 0.

Lemma do_close_dangles_witness : ∃ h p s', do_close 0 (ex_shared h p) = Ok (0, s') ∧
  sys_read ex_ops 0 0 16 (set_current 8192 s') = Fault.
Proof.
  destruct (proj1 (wp_run _ _ _) (kmalloc_contract (init_heap ∅) ∅ 16 (ob_heap _ _ ex_vm0_objects) ltac:(lia)
    ltac:(change (kheap_room (init_heap ∅)) with 507904; lia))) as (p & h & _ & k & Hk & Hp & Hi & _).
  destruct (live_range h _ p k Hi ltac:(by rewrite lookup_insert_eq)) as (Hp0 & _ & _). unfold HEAP_START in Hp0.
  set (t := set_fdtab (p :: replicate 15 0) zero_task).
  assert (heap_inv (k_heap (ex_shared h p)) (<[p := k]> ∅)) as Hi' by exact Hi.
  assert (tasks (ex_shared h p) !! 4096 = Some t) as Ht by apply lookup_insert_eq.
  assert (tasks (ex_shared h p) !! 8192 = Some t) as Hu.
  { change ((<[4096 := t]> {[8192 := t]} : store) !! 8192 = Some t). by rewrite lookup_insert_ne, lookup_singleton_eq. }
  assert (files (ex_shared h p) !! p = Some (File (ext2_file_ops ex_ops) 12 1)) as Hf by apply lookup_singleton_eq.
  assert ((<[p := k]> ∅ : gmap Z Z) !! p = Some k) as Hb by apply lookup_insert_eq.
  destruct (proj1 (wp_run _ _ _) (do_close_ok (ex_shared h p) (<[p := k]> ∅) t 0 p _ k Hi' Ht ltac:(lia) eq_refl
    ltac:(lia) Hf Hb)) as (r & s' & Hrun & -> & _).
  exists h, p, s'. split; [exact Hrun|].
  apply (do_close_dangles ex_ops (ex_shared h p) (<[p := k]> ∅) t 0 p _ k 8192 t 0 0 16 s' 0 Hi' Ht ltac:(lia) eq_refl
    ltac:(lia) Hf Hb ltac:(done) Hu ltac:(lia) eq_refl Hrun).
Defined.

Lemma regular_file_unsupported_witness : ∃ h p msg, sys_read ex_ops 0 0 16 (ex_shared h p) = Panic msg.
Proof.
  destruct (regular_file_unsupported ex_ops (ex_shared (init_heap ∅) 64) (set_fdtab (64 :: replicate 15 0) zero_task)
    0 64 (File (ext2_file_ops ex_ops) 12 1) 0 16 (sys_read ex_ops) ltac:(apply lookup_insert_eq) ltac:(lia) eq_refl ltac:(lia)
    ltac:(apply lookup_singleton_eq) eq_refl ltac:(by left)) as [msg H].
  exists (init_heap ∅), 64, msg. exact H.
Defined.
