(* ===== verification/ForkSpec.v ===== *)
(** [fork], from the system call to the page tables: [do_syscall] with
    [SYS_FORK] composed of [sys_fork], [sched_fork], [do_fork] and [mm_dupe].

    The child is a task of its own: its address space is the deep copy of
    [MmProps], its registers are the caller's with 0 in [rax], it shares the
    open files, and it is the next task to run. *)

From S2P Require Import Prelude Layout Memory Interfaces Pmm PageTable AddressSpace Kmalloc Heap Mm MmSpec MmProps Sched Exec.
From S2P Require Import ExecSpec Syscall.

(** ** The files of the parent gain a reference *)
Definition shared (fds : list Z) (fs : gmap Z file) : gmap Z file :=
  foldl (λ fs p, if p =? 0 then fs else alter (λ f, set_refcnt (s32 (refcnt f + 1)) f) p fs) fs fds.

Definition fds_ok (fds : list Z) (fs : gmap Z file) : Prop := ∀ p, p ∈ fds → p = 0 ∨ is_Some (fs !! p).

Lemma alter_known {A} (g : A → A) (m : gmap Z A) p x : m !! p = Some x → alter g p m = <[p := g x]> m.
Proof.
  intros Hx. apply map_eq. intros q. rewrite lookup_alter, lookup_insert.
  case_decide as Hq; [subst q; by rewrite Hx|done].
Qed.

Section fork.
Context {St : Type} {FO : FrameOps St} {FL : FrameLaws St}.
Context {H : Type} {HO : HeapOps H} {HL : HeapLaws H}.
Abbreviation kst := (sched (vm St H)).
Variable sym : statics.
Variable fuel : nat.
#[local] Instance fork_ops : TaskOps (vm St H) := vm_task_ops sym fuel.
Implicit Types (K : kst) (B : gmap Z Z).


Lemma share_files_ok fds : ∀ K, fds_ok fds (files K) →
  wp (share_files fds) K (λ _ K', K' = set_files (shared fds (files K)) K).
Proof.
  induction fds as [|p fds IH]; intros K Hf; simpl.
  - apply wp_ret. by destruct K.
  - apply wp_bind. destruct (Z.eqb_spec p 0) as [->|Hp].
    + apply wp_ret. apply IH. intros q Hq. apply Hf. by right.
    + apply wp_bind, wp_gets. destruct (Hf p ltac:(left)) as [?|[f Hfp]]; [done|]. rewrite Hfp.
      apply wp_modify. rewrite <- (alter_known (λ f, set_refcnt (s32 (refcnt f + 1)) f) _ _ _ Hfp).
      eapply wp_mono; [apply IH|].
      * intros q Hq. destruct (Hf q ltac:(by right)) as [?|Hs]; [by left|right].
        assert (∀ fs, files (set_files fs K) = fs) as -> by by destruct K. by rewrite lookup_alter_is_Some.
      * intros [] K' ->. by destruct K.
Qed.

(** ** Blocks for the task and its stack *)
Lemma env_kcalloc_ok K B n (Q : Z → kst → Prop) :
  objects_ok (env K) B → 0 < n → n + 32 < heap_room (kheap (env K)) →
  (∀ p h k, n ≤ k → p ≠ 0 → B !! p = None → objects_ok (set_kheap h (env K)) (<[p := k]> B) →
    heap_room (kheap (env K)) ≤ heap_room h + (n + 32) → Q p (set_env (set_kheap h (env K)) K)) →
  wp (in_env (in_kheap (heap_kcalloc 1 n))) K Q.
Proof.
  intros Ho Hn Hr HQ. apply wp_in_env. eapply wp_mono; [apply (kcalloc_obj (env K) B n); [apply Ho|done|done]|].
  intros p s' (B' & k & Hk & Hp & -> & Hp0 & Hlt & Hi & Hr' & _ & ->). apply (HQ p (kheap s') k); try done.
  apply (objects_heap (env K)  _ B); [done|done|]. intros a. apply object_weaken.
Qed.

(** A space does not see the heap. *)
Lemma wf_kheap (s : vm St H) h a x T f L vs : mm_wf s a x T f L vs → mm_wf (set_kheap h s) a x T f L vs.
Proof. intros [[A1 A2] A3 A4 A5 A6]. by split. Qed.
Lemma km_kheap (s : vm St H) h y U g LK vs : kernel_map sym s y U g LK vs → kernel_map sym (set_kheap h s) y U g LK vs.
Proof. intros [[A1 A2] [A3 A4] A5 A6]. split; [by split|by split|done|done]. Qed.

(** The child of [x] with the address space [c] and the stack [bottom]. *)
Definition fork_child (x : task_struct) (p c bottom : Z) : task_struct :=
  let top := bottom + KERNEL_STACK_SIZE in
  set_regs (set_rax (task_regs x) 0) (set_stack bottom top (top - sizeof_fork_frame)
    (set_fdtab (fdtab x) (set_pid p (set_mm c (set_state TASK_RUNNING zero_task))))).

(** The kernel stack of the task [new] at [bottom]: a block of the heap that was
    not there in [B], large enough, and not that of the task or of an object of
    the memory manager. *)
Record own_stack B (s' : vm St H) B' (new bottom : Z) : Prop := {
  os_block : ∃ k, KERNEL_STACK_SIZE ≤ k ∧ B' !! bottom = Some k;
  os_fresh : B !! bottom = None;
  os_task : bottom ≠ new;
  os_objects : mms s' !! bottom = None ∧ vmas s' !! bottom = None ∧ lis s' !! bottom = None;
}.

(** The address space [c] of a child next to that of its parent [b], with the
    blocks [new] and [bottom] of the task and its stack. *)
Record forked (s : vm St H) B (new bottom : Z) (b : Z) y U g L vs kg kvs (s' : vm St H) c x T f Lc B' : Prop := {
  fk_objects : objects_ok s' B';
  fk_fresh : mms s !! c = None;
  fk_child : mm_wf s' c x T f Lc (rev (filter reg vs) ++ rev kvs);
  fk_copied v : v ∈ vs → reg v → copied s g s' f v;
  fk_kernel w : (∀ v, v ∈ vs → reg v → ¬ in_area v w) → f !! w = share_all kg kvs ∅ !! w;
  fk_parent : mm_wf s' b y U g L vs;
  fk_separate : separate U T;
  fk_frames q : frame_used (frames s) q → same_page (frame_mem (frames s)) (frame_mem (frames s')) q;
  fk_task : B !! new = None ∧ ∃ k, sizeof_task_struct ≤ k ∧ B' !! new = Some k;
  fk_stack : own_stack B s' B' new bottom;
  fk_blocks p : is_Some (B' !! p) →
    is_Some (B !! p) ∨ p = new ∨ p = bottom ∨ p = c ∨ p ∈ Lc.*1 ∨ p ∈ Lc.*2;
}.

(** What [do_fork] needs of memory. *)
Definition fork_room (LK L : list (Z * Z)) : Z :=
  sizeof_task_struct + KERNEL_STACK_SIZE + 112 + 56 * Z.of_nat (length LK) + 120 * Z.of_nat (length L).

(** The task [new] under construction: it is [z] so far. *)
Record making K0 (new : Z) (z : task_struct) (fs : gmap Z file) (np : Z) (e : vm St H) K : Prop := {
  mk_env : env K = e;
  mk_tasks : tasks K = <[new := z]> (tasks K0);
  mk_files : files K = fs;
  mk_cur : current K = current K0;
  mk_pid : next_pid K = np;
}.

Lemma making_tset K0 new z fs np e K f (Q : unit → kst → Prop) :
  making K0 new z fs np e K → (∀ K', making K0 new (f z) fs np e K' → Q tt K') → wp (tset f new) K Q.
Proof.
  intros [E T F C P] HQ. apply wp_tset; [rewrite T, lookup_insert_eq; eauto|]. apply HQ.
  destruct K. simpl in *. split; simpl; try done. rewrite T, (alter_known _ _ _ _ (lookup_insert_eq _ _ _)).
  by rewrite insert_insert_eq.
Qed.

Lemma making_env {A} K0 new z fs np e K (m : M (vm St H) A) (Q : A → kst → Prop) :
  making K0 new z fs np e K → wp m e (λ a e', ∀ K', making K0 new z fs np e' K' → Q a K') → wp (in_env m) K Q.
Proof.
  intros [E T F C P] Hm. apply wp_in_env. rewrite E. eapply wp_mono; [exact Hm|]. intros a e' HQ. apply HQ.
  by destruct K.
Qed.

Lemma making_tget {A} K0 new z fs np e K (f : task_struct → A) t x (Q : A → kst → Prop) :
  making K0 new z fs np e K → tasks K0 !! t = Some x → new ≠ t → Q (f x) K → wp (tget f t) K Q.
Proof. intros [E T F C P] Hx Hn HQ. apply (wp_tget f t _ x); [|done]. by rewrite T, lookup_insert_ne. Qed.

Lemma do_fork_ok K B t x y U g L vs ky KU kg LK kvs :
  tasks K !! t = Some x → (∀ u, is_Some (tasks K !! u) → is_Some (B !! u)) → fds_ok (fdtab x) (files K) →
  objects_ok (env K) B → mm_wf (env K) (task_mm x) y U g L vs → kernel_map sym (env K) ky KU kg LK kvs →
  (∀ v, v ∈ kvs → ¬ reg v) → (length LK ≤ fuel ∧ length L ≤ fuel)%nat →
  (5 * (total_pages kvs + reg_pages vs) ≤ frame_avail (frames (env K)))%nat →
  fork_room LK L < heap_room (kheap (env K)) →
  wp (do_fork t) K (λ new K', ∃ c bottom cx T f Lc B',
    new ≠ 0 ∧ tasks K !! new = None ∧ tasks K' = <[new := fork_child x (next_pid K) c bottom]> (tasks K) ∧
    current K' = current K ∧ files K' = shared (fdtab x) (files K) ∧ next_pid K' = w32 (next_pid K + 1) ∧
    forked (env K) B new bottom (task_mm x) y U g L vs kg kvs (env K') c cx T f Lc B').
Proof.
  intros Ht HB Hfds Ho Hwf Hk Hkvs Hfuel Hav Hroom. unfold fork_room, sizeof_task_struct, KERNEL_STACK_SIZE in Hroom.
  unfold do_fork, alloc_task. apply wp_bind, wp_bind, (env_kcalloc_ok K B); [done|done|unfold sizeof_task_struct; lia|].
  intros new h k Hk0 Hnew0 Hnew Ho1 Hr1. unfold sizeof_task_struct in *.
  assert (tasks K !! new = None) as Htn by (apply eq_None_not_Some; intros Hs; destruct (HB new Hs); congruence).
  assert (new ≠ t) as Hnt by congruence.
  apply wp_bind, wp_gets. rewrite tasks_set_env, decide_False by (intros [?|[? ?]]; congruence).
  apply wp_bind, wp_modify, wp_ret. set (s1 := set_kheap h (env K)) in *.
  assert (making K new zero_task (files K) (next_pid K) s1 (set_tasks (<[new := zero_task]> (tasks K)) (set_env s1 K))) as M0
    by by destruct K.
  apply wp_bind. eapply making_tset; [exact M0|]. clear M0. intros K1 M1.
  apply wp_bind. eapply making_tget; [exact M1|done|done|]. apply wp_bind. eapply making_env; [exact M1|].
  eapply wp_mono; [apply (mm_dupe_ok sym fuel s1 (<[new := k]> B) (task_mm x) y U g L vs ky KU kg LK kvs Ho1
    (km_kheap _ _ _ _ _ _ _ Hk) (wf_kheap _ _ _ _ _ _ _ _ Hwf) Hfuel Hav); simpl; lia|].
  intros c s2 (cx & T & f & Lc & B2 & D & Hd) K2 M2.
  destruct (duped_wf _ _ _ _ _ _ _ _ _ _ _ _ _ _ _ _ _ _ _ _ Hkvs (wf_kheap _ h _ _ _ _ _ _ Hwf) Hd) as (Ho2 & Hc2 & Hp2 & Hsep & Hfr).
  pose proof (hs_room _ _ _ _ _ (st_heap _ _ _ _ _ _ _ _ _ _ _ _ (du_step _ _ _ _ _ _ _ _ _ _ _ _ _ _ _ _ _ Hd))) as Hr2.
  change (kheap s1) with h in Hr2.
  apply wp_bind. eapply making_tset; [exact M2|]. intros K3 M3. apply wp_bind, wp_gets. rewrite (mk_pid _ _ _ _ _ _ _ M3).
  apply wp_bind. eapply making_tset; [exact M3|]. intros K4 M4. apply wp_bind, wp_modify.
  set (z := set_pid _ _) in *. assert (making K new z (files K) (w32 (next_pid K + 1)) s2 (set_next_pid (w32 (next_pid K + 1)) K4)) as M5
    by (destruct M4; by destruct K4).
  apply wp_bind. eapply making_tget; [exact M5|done|done|]. apply wp_bind.
  eapply wp_mono; [apply share_files_ok; by rewrite (mk_files _ _ _ _ _ _ _ M5)|]. intros [] K6 ->.
  set (K6 := set_files _ _). assert (making K new z (shared (fdtab x) (files K)) (w32 (next_pid K + 1)) s2 K6) as M6.
  { unfold K6. rewrite (mk_files _ _ _ _ _ _ _ M5). destruct M5. by destruct (set_next_pid (w32 (next_pid K + 1)) K4). }
  clearbody K6. apply wp_bind. eapply making_tset; [exact M6|]. intros K7 M7. unfold init_task_stack, KERNEL_STACK_SIZE.
  apply wp_bind, wp_bind. eapply making_env; [exact M7|].
  eapply wp_mono; [apply (kcalloc_obj s2 B2 8192); [apply Ho2|done|lia]|].
  intros bottom s3 (B3 & k3 & Hk3 & Hb3 & -> & _ & Hlt & Hi3 & _ & _ & ->) K8 M8.
  destruct (fresh_object s2 B2 bottom Ho2 Hb3 Hlt) as (Hbm & Hbv & Hbl).
  pose proof (mm_step_blocks _ _ _ _ _ _ _ _ _ _ _ _ (du_step _ _ _ _ _ _ _ _ _ _ _ _ _ _ _ _ _ Hd)) as Hsb.
  assert (B2 !! new = Some k) as Hn2 by (eapply lookup_weaken; [apply lookup_insert_eq|apply Hsb]).
  eapply making_tset; [exact M8|]. intros K9 M9. apply wp_bind. eapply making_tget; [exact M9|done|done|].
  apply wp_bind. eapply making_tset; [exact M9|]. intros K10 [E T' F C P]. apply wp_ret.
  exists c, bottom, cx, T, f, Lc, (<[bottom := k3]> B2). split; [done|]. split; [done|]. split; [exact T'|].
  split; [done|]. split; [done|]. split; [done|]. rewrite E.
  split; [apply (objects_heap s2 _ B2); [done|done|intros a; apply object_weaken]|apply Hd|by apply wf_kheap
    |exact (du_copied _ _ _ _ _ _ _ _ _ _ _ _ _ _ _ _ _ Hd)|exact (du_kernel _ _ _ _ _ _ _ _ _ _ _ _ _ _ _ _ _ Hd)
    |by apply wf_kheap|exact Hsep|exact Hfr| | |].
  - split; [done|]. exists k. split; [done|]. rewrite lookup_insert_ne by congruence.
    eapply lookup_weaken; [|apply Hsb]. apply lookup_insert_eq.
  - split; [exists k3; split; [unfold KERNEL_STACK_SIZE; lia|apply lookup_insert_eq]| |congruence|done].
    apply eq_None_not_Some. intros [j Hj]. apply eq_None_not_Some in Hb3. apply Hb3.
    exists j. eapply lookup_weaken; [|apply Hsb]. rewrite lookup_insert_ne; congruence.
  - intros p. rewrite lookup_insert. case_decide as E1; [by right; right; left|].
    intros [Hp|Hp]%Hsb; [|by right; right; right]. rewrite lookup_insert in Hp.
    case_decide as E2; [by right; left|by left].
Qed.

(** ** The new task among the others *)
Lemma same_alter_both f t ts ts' : (∀ y, strip (f (strip y)) = strip (f y)) →
  same_tasks ts ts' → same_tasks (alter f t ts) (alter f t ts').
Proof.
  intros Hf Hs u. specialize (Hs u). rewrite !lookup_alter. case_decide as Hu; [subst u|done].
  destruct (ts !! t), (ts' !! t); simpl in *; try done. injection Hs as Hs. by rewrite <- Hf, Hs, Hf.
Qed.

(** The sibling that [tree_insert_proc] gives to a new child of [x]. *)
Definition newest_sibling (ts : store) (x : task_struct) : Z :=
  if children x =? 0 then 0 else default 0 (sibling <$> ts !! children x).

Lemma tree_insert_ok K t new x z :
  tasks K !! t = Some x → tasks K !! new = Some z → t ≠ new → (children x = 0 ∨ is_Some (tasks K !! children x)) →
  children x ≠ new →
  wp (tree_insert_proc t new) K (λ _ K', only_tasks K K' ∧ tasks K' =
    alter (set_children new) t (alter (set_sibling (newest_sibling (tasks K) x)) new (alter (set_parent t) new (tasks K)))).
Proof.
  intros Ht Hn Hne Hch Hcn. unfold tree_insert_proc. apply wp_bind, wp_tset; [eauto|].
  apply wp_bind, (wp_tget children t _ x); [by rewrite tasks_set, lookup_alter_ne|].
  assert (∀ Q : unit → kst → Prop, (let K1 := set_tasks (alter (set_parent t) new (tasks K)) K in
      Q tt (set_tasks (alter (set_sibling (newest_sibling (tasks K) x)) new (tasks K1)) K1)) →
    wp (if negb (children x =? 0) then let* sib := tget sibling (children x) in tset (set_sibling sib) new
        else tset (set_sibling 0) new) (set_tasks (alter (set_parent t) new (tasks K)) K) Q) as Hsib.
  { intros Q HQ. unfold newest_sibling in HQ. destruct (Z.eqb_spec (children x) 0) as [_|Hc0]; simpl.
    - apply wp_tset; [rewrite tasks_set, is_Some_alter; eauto|exact HQ].
    - destruct Hch as [?|[w Hw]]; [done|]. rewrite Hw in HQ.
      apply wp_bind, (wp_tget sibling _ _ w); [by rewrite tasks_set, lookup_alter_ne|].
      apply wp_tset; [rewrite tasks_set, is_Some_alter; eauto|exact HQ]. }
  apply wp_bind, Hsib. cbv zeta. rewrite tasks_set, set_tasks_twice.
  apply wp_tset; [rewrite tasks_set, !is_Some_alter; eauto|]. rewrite tasks_set, set_tasks_twice, tasks_set.
  split; [|done]. unfold only_tasks. by rewrite tasks_set.
Qed.

(** A state that forks: the caller is well formed and its children list is not
    dangling. *)
Record can_fork K B x y U g L vs ky KU kg LK kvs : Prop := {
  cf_task : tasks K !! current K = Some x;
  cf_blocks u : is_Some (tasks K !! u) → is_Some (B !! u);
  cf_children : children x = 0 ∨ is_Some (tasks K !! children x);
  cf_fds : fds_ok (fdtab x) (files K);
  cf_objects : objects_ok (env K) B;
  cf_mm : mm_wf (env K) (task_mm x) y U g L vs;
  cf_kernel : kernel_map sym (env K) ky KU kg LK kvs;
  cf_kvs v : v ∈ kvs → ¬ reg v;
  cf_fuel : (length LK ≤ fuel ∧ length L ≤ fuel)%nat;
  cf_frames : (5 * (total_pages kvs + reg_pages vs) ≤ frame_avail (frames (env K)))%nat;
  cf_room : fork_room LK L < heap_room (kheap (env K));
}.

(** The tasks after the fork, up to the links of the ring. *)
Definition fork_tasks K x new c bottom : store :=
  <[current K := set_children new x]> (<[new := set_sibling (newest_sibling (tasks K) x)
    (set_parent (current K) (fork_child x (next_pid K) c bottom))]> (tasks K)).

Lemma sched_fork_ok K B x r y U g L vs ky KU kg LK kvs :
  can_fork K B x y U g L vs ky KU kg LK kvs → ring (tasks K) (current K) r →
  wp (sched_fork (current K)) K (λ p K', ∃ new c bottom cx T f Lc B',
    p = next_pid K ∧ tasks K !! new = None ∧ current K' = current K ∧ ring (tasks K') (current K) (new :: r) ∧
    same_tasks (fork_tasks K x new c bottom) (tasks K') ∧ files K' = shared (fdtab x) (files K) ∧
    forked (env K) B new bottom (task_mm x) y U g L vs kg kvs (env K') c cx T f Lc B').
Proof.
  intros [Ht HB Hch Hfds Ho Hwf Hk Hkvs Hfuel Hav Hroom] Hr. set (cur := current K) in *. unfold sched_fork. apply wp_bind.
  eapply wp_mono; [by apply (do_fork_ok K B cur x y U g L vs ky KU kg LK kvs)|].
  intros new K1 (c & bottom & cx & T & f & Lc & B' & Hn0 & Hn & T1 & C1 & F1 & P1 & Hf).
  set (z := fork_child x (next_pid K) c bottom) in *. assert (cur ≠ new) as Hcn by congruence.
  destruct (ring_insert_fresh _ _ _ new z Hr Hn) as [Hr1 Hnin]. rewrite <- T1 in Hr1.
  fold cur in C1. rewrite <- C1 in Hr1, Hnin.
  apply wp_bind. eapply wp_mono; [apply (sched_rr_insert_ok K1 r new Hr1 Hnin); rewrite T1, lookup_insert_eq; eauto|].
  intros [] K2 (O2 & Hr2 & S2). rewrite C1 in Hr2.
  assert (current K2 = cur ∧ files K2 = files K1 ∧ env K2 = env K1) as (C2 & F2 & E2).
  { rewrite O2, current_set. split; [done|]. by destruct K1. }
  destruct (same_tasks_some _ _ cur S2) as [x2 Hx2]; [rewrite T1, lookup_insert_ne; eauto|].
  destruct (same_tasks_some _ _ new S2) as [z2 Hz2]; [rewrite T1, lookup_insert_eq; eauto|].
  assert (children x2 = children x) as Hchx.
  { pose proof (same_tasks_field children _ _ cur S2 ltac:(by intros [])) as He.
    rewrite Hx2, T1, lookup_insert_ne, Ht in He by done. by injection He. }
  assert (children x ≠ new) as Hchn by (intros He; rewrite He in Hch; destruct Hch as [?|[? ?]]; congruence).
  assert (newest_sibling (tasks K2) x2 = newest_sibling (tasks K) x) as Hns.
  { unfold newest_sibling. rewrite Hchx. destruct (_ =? 0); [done|].
    by rewrite (same_tasks_field sibling _ _ _ S2), T1, lookup_insert_ne by (done || by intros []). }
  apply wp_bind. eapply wp_mono; [apply (tree_insert_ok K2 cur new x2 z2 Hx2 Hz2 Hcn); rewrite Hchx; [|done]|].
  { destruct Hch as [?|Hs]; [by left|right]. eapply same_tasks_some; [exact S2|]. by rewrite T1, lookup_insert_ne. }
  intros [] K3 (O3 & T3). rewrite Hns in T3.
  assert (current K3 = current K2 ∧ files K3 = files K2 ∧ env K3 = env K2) as (C3 & F3 & E3) by (rewrite O3; by destruct K2).
  assert (same_tasks (fork_tasks K x new c bottom) (tasks K3)) as S3.
  { assert (fork_tasks K x new c bottom = alter (set_children new) cur (alter (set_sibling (newest_sibling (tasks K) x)) new
      (alter (set_parent cur) new (tasks K1)))) as ->.
    { unfold fork_tasks. fold cur z. rewrite T1, !(alter_known _ _ _ _ (lookup_insert_eq _ _ _)), !insert_insert_eq.
      by rewrite (alter_known _ _ _ x) by by rewrite lookup_insert_ne. }
    rewrite T3. repeat (apply same_alter_both; [by intros []|]). exact S2. }
  assert (∃ w, tasks K3 !! new = Some w ∧ pid w = next_pid K) as (w & Hw & Hpw).
  { destruct (same_tasks_some _ _ new S3) as [w Hw].
    { unfold fork_tasks. rewrite lookup_insert_ne, lookup_insert_eq by done. eauto. }
    exists w. split; [done|]. pose proof (same_tasks_field pid _ _ new S3 ltac:(by intros [])) as He.
    unfold fork_tasks in He. rewrite Hw, lookup_insert_ne, lookup_insert_eq in He by done. by injection He. }
  apply (wp_tget pid new _ w); [done|]. exists new, c, bottom, cx, T, f, Lc, B'.
  split; [done|]. split; [done|]. split; [by rewrite C3, C2|]. split.
  - rewrite T3. repeat (apply ring_alter; [by intros []|]). exact Hr2.
  - split; [exact S3|]. split; [by rewrite F3, F2|]. rewrite E3, E2. exact Hf.
Qed.

(** ** The system call *)
Context {FS : FileSystem H} {TF : TtyFiles (sched (vm St H))}.
Variable ops_at : fops.

Lemma can_fork_regs K B x y U g L vs ky KU kg LK kvs r :
  can_fork K B x y U g L vs ky KU kg LK kvs →
  can_fork (set_tasks (alter (set_regs r) (current K) (tasks K)) K) B (set_regs r x) y U g L vs ky KU kg LK kvs.
Proof.
  intros [Ht HB Hch Hfds Ho Hwf Hk Hkvs Hfuel Hav Hroom].
  assert (∀ ts, env (set_tasks ts K) = env K ∧ files (set_tasks ts K) = files K) as He by by destruct K.
  assert (children (set_regs r x) = children x ∧ fdtab (set_regs r x) = fdtab x ∧ task_mm (set_regs r x) = task_mm x)
    as (E1 & E2 & E3) by by destruct x.
  split; rewrite ?tasks_set, ?current_set, ?(proj1 (He _)), ?(proj2 (He _)), ?E1, ?E2, ?E3; try done.
  - by rewrite lookup_alter_eq, Ht.
  - intros u. rewrite is_Some_alter. apply HB.
  - by rewrite is_Some_alter.
Qed.

(** C3: the system call [fork], of a task on the ring whose address space, open
    files and relatives are live objects, with frames and room in the heap for
    the copy ([can_fork]): the answer in the caller's frame is the new
    process id; the child is a new running task, child of the caller and first
    on its list of children, next to run in the ring, with the registers of the
    call except for 0 in [rax], a kernel stack of its own (a block of the heap of
    at least 8 KiB that was free before and holds neither the task nor an object
    of the memory manager), and the caller's files, each with one more
    reference.  Its address space is a deep copy: each
    page of a regular area has a frame that was free before, with the contents
    of the caller's page; the caller's address space, no frame in use and no
    other task change. *)
Theorem fork_syscall_spec K B x q y U g L vs ky KU kg LK kvs r
    (Hcan : can_fork K B x y U g L vs ky KU kg LK kvs) (Hring : ring (tasks K) (current K) q)
    (Hcall : rax r = SYS_FORK) :
  ∃ K' new c bottom cx T f Lc B', do_syscall sym fuel ops_at r K = Ok (tt, K') ∧
    tasks K !! new = None ∧ current K' = current K ∧ ring (tasks K') (current K) (new :: q) ∧
    same_tasks
      (<[current K := set_regs (set_rax r (w64 (s32 (next_pid K)))) (set_children new x)]>
        (<[new := set_sibling (newest_sibling (tasks K) x)
           (set_parent (current K) (fork_child (set_regs r x) (next_pid K) c bottom))]> (tasks K))) (tasks K') ∧
    files K' = shared (fdtab x) (files K) ∧
    forked (env K) B new bottom (task_mm x) y U g L vs kg kvs (env K') c cx T f Lc B'.
Proof.
  pose proof (cf_task _ _ _ _ _ _ _ _ _ _ _ _ _ Hcan) as Ht. set (cur := current K) in *.
  enough (wp (do_syscall sym fuel ops_at r) K (λ _ K', ∃ new c bottom cx T f Lc B',
    tasks K !! new = None ∧ current K' = cur ∧ ring (tasks K') cur (new :: q) ∧
    same_tasks (<[cur := set_regs (set_rax r (w64 (s32 (next_pid K)))) (set_children new x)]>
        (<[new := set_sibling (newest_sibling (tasks K) x)
           (set_parent cur (fork_child (set_regs r x) (next_pid K) c bottom))]> (tasks K))) (tasks K') ∧
    files K' = shared (fdtab x) (files K) ∧ forked (env K) B new bottom (task_mm x) y U g L vs kg kvs (env K') c cx T f Lc B')) as Hw.
  { apply wp_run in Hw as ([] & K' & Hrun & new & c & bottom & cx & T & f & Lc & B' & Hr).
    exists K', new, c, bottom, cx, T, f, Lc, B'. split; [exact Hrun|exact Hr]. }
  unfold do_syscall. apply wp_bind, wp_gets. fold cur. apply wp_bind, wp_tset; [eauto|].
  set (K0 := set_tasks _ K). pose proof (can_fork_regs _ _ _ _ _ _ _ _ _ _ _ _ _ r Hcan) as Hcan0. fold cur K0 in Hcan0.
  assert (current K0 = cur ∧ tasks K0 = alter (set_regs r) cur (tasks K) ∧ env K0 = env K ∧ files K0 = files K ∧
    next_pid K0 = next_pid K) as (C0 & T0 & E0 & F0 & P0) by (unfold K0, cur; by destruct K).
  assert (ring (tasks K0) (current K0) q) as Hr0 by (rewrite T0, C0; by apply ring_alter; [by intros []|]).
  unfold dispatch. rewrite Hcall. cbn [SYS_FORK SYS_READ SYS_WRITE SYS_OPEN SYS_CLOSE SYS_WAIT SYS_EXEC Z.eqb Pos.eqb].
  unfold sys_fork. apply wp_bind, wp_bind, wp_gets. apply wp_bind.
  eapply wp_mono; [apply (sched_fork_ok K0 B (set_regs r x) q y U g L vs ky KU kg LK kvs Hcan0 Hr0)|].
  intros p K1 (new & c & bottom & cx & T & f & Lc & B' & -> & Hn & C1 & R1 & S1 & F1 & Hf). apply wp_ret.
  assert (tasks K !! new = None) as Hn' by (rewrite T0, lookup_alter_None in Hn; exact Hn).
  assert (cur ≠ new) as Hcn by congruence. rewrite C0 in *. rewrite P0.
  assert (newest_sibling (tasks K0) (set_regs r x) = newest_sibling (tasks K) x) as Hns.
  { unfold newest_sibling. assert (children (set_regs r x) = children x) as -> by by destruct x. destruct (_ =? 0); [done|].
    rewrite T0, lookup_alter. case_decide as Hd; [|done]. rewrite <- Hd, Ht. by destruct x. }
  unfold fork_tasks in S1. rewrite C0, P0, Hns, T0 in S1.
  destruct (same_tasks_some _ _ cur S1) as [x1 Hx1]; [rewrite lookup_insert_eq; eauto|].
  apply wp_bind, (wp_tget task_regs cur _ x1); [done|]. apply wp_tset; [eauto|].
  assert (task_regs x1 = r) as ->.
  { pose proof (same_tasks_field task_regs _ _ cur S1 ltac:(by intros [])) as He.
    rewrite Hx1, lookup_insert_eq in He. injection He as ->. by destruct x. }
  exists new, c, bottom, cx, T, f, Lc, B'. split; [done|]. split; [by rewrite current_set, C1|].
  split; [rewrite tasks_set; by apply ring_alter; [by intros []|]|]. split.
  - rewrite tasks_set. eapply same_tasks_trans; [|apply same_alter_both; [by intros []|exact S1]].
    intros u. rewrite lookup_alter, !lookup_insert. case_decide as Hd1; [subst u|].
    + rewrite decide_True by done. by destruct x.
    + case_decide; [done|]. by rewrite lookup_alter_ne.
  - assert (∀ ts, files (set_tasks ts K1) = files K1 ∧ env (set_tasks ts K1) = env K1) as He by by destruct K1.
    rewrite (proj1 (He _)), (proj2 (He _)), F1, F0. assert (fdtab (set_regs r x) = fdtab x) as -> by by destruct x.
    split; [done|]. rewrite E0 in Hf. by destruct x.
Qed.
End fork.

(** ** A process that forks *)
#[local] Instance ex_nofiles : FileSystem heap := {
  fs_namei _ := mret_ 2; fs_read_file _ := mret_ 0; fs_get_inode _ _ := mret_ tt; fs_getdents _ _ _ := mret_ 0;
  put_int _ _ := mret_ tt;
}.
#[local] Instance ex_notty : TtyFiles (sched (vm pmm heap)) := {
  tty_stdin_read _ _ _ := mret_ None; tty_stdout_write _ _ n := mret_ (Some n);
}.
Definition ex_fork_task (b p : Z) : task_struct := set_mm b (set_next p (set_prev p (set_pid 1 zero_task))).
Definition ex_call : regs := Regs SYS_FORK 0x400078 0x7fffffffe000 [].
Definition ex_fops : fops := Fops 1 2 3 4.

Lemma ex_can_fork : ∃ (K : sched (vm pmm heap)) B x y U g L vs ky KU kg LK kvs,
  can_fork ex_sym 2 K B x y U g L vs ky KU kg LK kvs ∧ ring (tasks K) (current K) [] ∧ next_pid K = 1001.
Proof.
  destruct ex_parent as (s & B & b & y & U & g & L & vs & ky & KU & kg & [Ho Hk Hwf (li & vma & L' & -> & HL) -> Hav Hr]).
  change (heap_room (kheap s)) with (kheap_room (kheap s)) in Hr.
  destruct (proj1 (wp_run _ _ _) (kmalloc_contract (kheap s) B sizeof_task_struct (ob_heap _ _ Ho) ltac:(done)
    ltac:(unfold sizeof_task_struct; lia))) as (p & h & _ & k & Hk2 & Hp & Hi & Hroom & _).
  set (ts := {[p := ex_fork_task b p]} : store).
  exists (Sched (set_kheap h s) ts ∅ p p 1001 0 0 0 0), (<[p := k]> B), (ex_fork_task b p), y, U, g, ((li, vma) :: L').
  eexists. exists ky, KU, kg. do 2 eexists. split; [split|split; [|done]].
  - apply lookup_singleton_eq.
  - intros u [z Hz]. change (ts !! u = Some z) in Hz. apply lookup_singleton_Some in Hz as [<- _]. rewrite lookup_insert_eq. eauto.
  - by left.
  - intros q Hq. left. by apply elem_of_replicate in Hq as [-> _].
  - apply (objects_heap s h B); [done|exact Hi|intros a; apply object_weaken].
  - apply wf_kheap. exact Hwf.
  - apply km_kheap. exact Hk.
  - intros v ->%list_elem_of_singleton. done.
  - simpl. lia.
  - change (10 ≤ frame_avail (frames s))%nat. lia.
  - change (heap_room (kheap (env (Sched (set_kheap h s) ts ∅ p p 1001 0 0 0 0)))) with (kheap_room h).
    unfold fork_room, sizeof_task_struct, KERNEL_STACK_SIZE in *. cbn [length]. rewrite HL. lia.
  - assert (ts !! p = Some (ex_fork_task b p)) as Hp' by apply lookup_singleton_eq.
    split; [apply list.NoDup_singleton|]. simpl. unfold linked, nxt, prv. rewrite Hp'. done.
Qed.

Lemma fork_syscall_spec_witness : ∃ (K K' : sched (vm pmm heap)) new z,
  do_syscall ex_sym 2 ex_fops ex_call K = Ok (tt, K') ∧ tasks K !! new = None ∧ ring (tasks K') (current K) [new] ∧
  tasks K' !! new = Some z ∧ rax (task_regs z) = 0 ∧ pid z = 1001.
Proof.
  destruct ex_can_fork as (K & B & x & y & U & g & L & vs & ky & KU & kg & LK & kvs & Hcan & Hring & Hpid).
  destruct (fork_syscall_spec ex_sym 2 ex_fops K B x [] y U g L vs ky KU kg LK kvs ex_call Hcan Hring eq_refl)
    as (K' & new & c & bottom & cx & T & f & Lc & B' & Hrun & Hn & _ & Hr & Hs & _).
  assert (current K ≠ new) as Hne by (intros <-; pose proof (cf_task _ _ _ _ _ _ _ _ _ _ _ _ _ _ _ Hcan); congruence).
  destruct (same_tasks_some _ _ new Hs) as [z Hz]; [rewrite lookup_insert_ne, lookup_insert_eq by done; eauto|].
  exists K, K', new, z. split; [exact Hrun|]. split; [exact Hn|]. split; [exact Hr|]. split; [exact Hz|].
  pose proof (same_tasks_field (λ t, (task_regs t, pid t)) _ _ new Hs ltac:(by intros [])) as He.
  rewrite Hz, lookup_insert_ne, lookup_insert_eq, Hpid in He by done. injection He as -> ->. by split.
Defined.
