(* ===== verification/Kernel.v ===== *)
(** The kernel as a whole: its state, the terminal and the interrupts on it, and
    [kernel_main] of [kernel/main.c].

    The memory manager of [Mm] runs on the frame allocator of [Pmm] and, as its
    kernel heap, on the console of [Tty], which holds the heap of [Kmalloc], its
    memory, the ports and the screen; the scheduler of [Sched] runs on top.  The
    file system of [Rootfs] and the terminal of [Tty] are brought to this state
    as the interfaces that the system calls of [Syscall] ask for. *)

From S2P Require Import Prelude Layout Memory Interfaces Pmm PageTable Kmalloc Heap Mm Printf Sched Ata Ext2 Gdt Vga Tty Idt Asm.
From S2P Require Import Exec Rootfs Syscall.

Section state.
Context {D : Type} {PO : PortOps D}.

(** The drive and the heap inside the console. *)
Definition c_machine (c : console D) : machine D := Machine (t_ports (c_term c)) (c_heap c).
Definition set_c_machine (m : machine D) (c : console D) : console D :=
  set_c_heap (hp m) (set_c_term (Term (drive m) (t_vga (c_term c))) c).
Definition in_machine {A} : M (machine D) A → M (console D) A := zoom c_machine set_c_machine.

#[export] Instance console_heap_ops : HeapOps (console D) := {
  heap_bytes := c_mem;
  heap_kmalloc n := in_machine (heap_kmalloc n);
  heap_kcalloc a b := in_machine (heap_kcalloc a b);
  heap_release p := in_machine (heap_release p);
}.

Lemma console_range (c : console D) L p n :
  kheap_inv (c_heap c) L → L !! p = Some n → HEAP_START < p ∧ 0 < n ∧ p + n ≤ HEAP_LIMIT.
Proof. apply live_range. Qed.
Lemma console_kmalloc (c : console D) L n : kheap_inv (c_heap c) L → 0 < n → n + 32 < kheap_room (c_heap c) →
  wp (heap_kmalloc n) c (λ p c', ∃ k, n ≤ k ∧ L !! p = None ∧ kheap_inv (c_heap c') (<[p := k]> L) ∧
    kheap_room (c_heap c) ≤ kheap_room (c_heap c') + (n + 32) ∧ same_blocks L (heap_bytes c) (heap_bytes c')).
Proof. intros Hi Hn Hr. apply wp_zoom. by eapply wp_mono; [by apply (machine_kmalloc (c_machine c))|intros ? [? []]]. Qed.
Lemma console_kcalloc (c : console D) L a b : kheap_inv (c_heap c) L → 0 < a * b → a * b + 32 < kheap_room (c_heap c) →
  wp (heap_kcalloc a b) c (λ p c', ∃ k, a * b ≤ k ∧ L !! p = None ∧ kheap_inv (c_heap c') (<[p := k]> L) ∧
    kheap_room (c_heap c) ≤ kheap_room (c_heap c') + (a * b + 32) ∧ same_blocks L (heap_bytes c) (heap_bytes c') ∧
    (∀ x, p ≤ x < p + a * b → ld8 (heap_bytes c') x = 0)).
Proof. intros Hi Hn Hr. apply wp_zoom. by eapply wp_mono; [by apply (machine_kcalloc (c_machine c))|intros ? [? []]]. Qed.
Lemma console_release (c : console D) L p n : kheap_inv (c_heap c) L → L !! p = Some n →
  wp (heap_release p) c (λ _ c', kheap_inv (c_heap c') (delete p L) ∧ kheap_room (c_heap c') = kheap_room (c_heap c) ∧
    same_blocks (delete p L) (heap_bytes c) (heap_bytes c')).
Proof. intros Hi Hp. apply wp_zoom. by eapply wp_mono; [by apply (machine_release (c_machine c) L p n)|intros ? [? []]]. Qed.

#[export] Instance console_heap_laws : HeapLaws (console D) := {
  heap_inv c := kheap_inv (c_heap c);
  heap_room c := kheap_room (c_heap c);
  heap_range := console_range;
  heap_kmalloc_ok := console_kmalloc;
  heap_kcalloc_ok := console_kcalloc;
  heap_release_ok := console_release;
}.

(** The mounted file system on this state. *)
Definition rootfs_files (spin fuel sfuel : nat) (rootfs comp inode : Z) : FileSystem (console D) :=
  let FS := ext2_files spin fuel sfuel rootfs comp inode in {|
  fs_namei path := in_machine (fs_namei path);
  fs_read_file ino := in_machine (fs_read_file ino);
  fs_get_inode buf ino := in_machine (fs_get_inode buf ino);
  fs_getdents ino buf count := in_machine (fs_getdents ino buf count);
  put_int a v := in_machine (put_int a v);
|}.

(** ** The kernel's state *)
Abbreviation kenv := (vm pmm (console D)).
Abbreviation kstate := (sched (vm pmm (console D))).
Definition k_console (s : kstate) : console D := kheap (env s).

(** What the terminal and the interrupts use of the memory manager; the top-level
    tables are those of the address spaces in [e]. *)
Definition tty_task_ops (e : kenv) : TaskOps (console D) := {|
  t_kcalloc n := heap_kcalloc 1 n;
  t_free p := heap_release p;
  t_mm_dupe _ := fault;
  t_mm_free _ := fault;
  t_mm_p4 _ x := default 0 (p4 <$> mms e !! x);
|}.

Definition with_env {E F} (e : F) (s : sched E) : sched F :=
  let 'Sched _ ts fs c pr np k0 k1 k2 k3 := s in Sched e ts fs c pr np k0 k1 k2 k3.
Definition in_tty {A} (m : TaskOps (console D) → M (sched (console D)) A) : M kstate A := λ s,
  match m (tty_task_ops (env s)) (with_env (k_console s) s) with
  | Ok (a, s') => Ok (a, with_env (set_kheap (env s') (env s)) s')
  | Panic msg => Panic msg
  | Fault => Fault
  | NoFuel => NoFuel
  end.

(** The terminal's file operations: a read answers when the task is resumed. *)
Definition kernel_tty (sfuel : nat) : TtyFiles kstate := {|
  tty_stdin_read f buf n := in_tty (λ _, stdin_read f buf n) ;;* mret_ None;
  tty_stdout_write f buf n := let* r := in_tty (λ _, stdout_write sfuel f buf n) in mret_ (Some r);
|}.
(** The task that reads goes on, and its system call answers. *)
Definition read_resumed (f buf n : Z) : M kstate unit :=
  let* r := in_tty (λ _, stdin_read_resumed f buf n) in
  let* c := gets current in
  let* x := tget task_regs c in
  tset (set_regs (set_rax x r)) c.

(** An interrupt whose [struct isr_ctx] is at [ctx]. *)
Definition kernel_isr (sfuel : nat) (ctx : Z) : M kstate unit := in_tty (λ _, isr_main_entry sfuel ctx).

(** ** [kernel/main.c]

    [kernel_main] also sets up the processor: its registers are those of [Asm]
    ([syscall_enable]), and [lgdt] and [lidt] load what [Gdt] and [Idt] say. *)
Record boot := Boot { b_kernel : kstate; b_cpu : cpu; b_gdt : gdt_regs; b_idt : idtr }.
Definition in_kernel_state {A} : M kstate A → M boot A :=
  zoom b_kernel (λ s b, Boot s (b_cpu b) (b_gdt b) (b_idt b)).
Definition in_cpu {A} : M cpu A → M boot A := zoom b_cpu (λ c b, Boot (b_kernel b) c (b_gdt b) (b_idt b)).
Definition in_console {A} (m : M (console D) A) : M kstate A := in_env (in_kheap m).

Section main.
(** Fuel and addresses: the loops over strings, directories and multiboot tags;
    the linker's symbols; the objects and labels of the kernel image. *)
Variables (spin fuel sfuel tags : nat) (sym : statics) (kstart kend : Z).
Variables (gdt tss idt vectors isr_stub_table syscall_entry_addr : Z).
Variables (stdin_ops stdout_ops init_path comp inode sb r_inodes : Z).

Definition setcolor (fg bg : vga_color) : M kstate unit := in_console (in_term (vgaterm_setcolor fg bg)).
Definition kprintf (fmt : list Z) : M kstate unit := in_tty (λ _, printf sfuel fmt []) ;;* mret_ tt.

(** The messages have no arguments. *)
Definition log_info (fmt : list Z) : M kstate unit :=
  setcolor VGA_COLOR_LIGHT_GREY VGA_COLOR_BLACK ;;*
  kprintf (bytes "[ ") ;;*
  setcolor VGA_COLOR_LIGHT_BLUE VGA_COLOR_BLACK ;;*
  kprintf (bytes "INFO") ;;*
  setcolor VGA_COLOR_LIGHT_GREY VGA_COLOR_BLACK ;;*
  kprintf (bytes " ] ") ;;*
  kprintf fmt.
Definition log_ok (fmt : list Z) : M kstate unit :=
  setcolor VGA_COLOR_LIGHT_GREY VGA_COLOR_BLACK ;;*
  kprintf (bytes "[ ") ;;*
  setcolor VGA_COLOR_LIGHT_GREEN VGA_COLOR_BLACK ;;*
  kprintf (bytes " OK ") ;;*
  setcolor VGA_COLOR_LIGHT_GREY VGA_COLOR_BLACK ;;*
  kprintf (bytes " ] ") ;;*
  kprintf fmt.
Definition line (l : string) : list Z := bytes l ++ [10].

Definition banner : M kstate unit :=
  in_console (in_term vgaterm_clear) ;;*
  setcolor VGA_COLOR_LIGHT_BLUE VGA_COLOR_BLACK ;;*
  kprintf (line ">>> Blackcomb 0.0.1") ;;*
  setcolor VGA_COLOR_LIGHT_GREY VGA_COLOR_BLACK.

(** The first part of [kernel_main], up to the kernel heap. *)
Definition init_memory (mboot_info : Z) : M kstate unit :=
  banner ;;*
  in_env (in_frames (pmm_init tags kstart kend mboot_info)) ;;*
  log_ok (line "Page frame allocator initialized") ;;*
  in_env (kernel_mm_init sym (kernel_mm sym)) ;;*
  log_ok (line "Kernel page tables initialized") ;;*
  let* p := p4_of (kernel_mm sym) in
  switch_cr3 p ;;*
  log_ok (line "Kernel page tables switched") ;;*
  in_console (zoom c_heap set_c_heap kmalloc_init) ;;*
  log_ok (line "Kmalloc initialized").

Definition kernel_main (mboot_info : Z) : M boot unit :=
  in_kernel_state (init_memory mboot_info) ;;*
  let* g := in_kernel_state (in_console (zoom c_mem set_c_mem (gdt_init gdt tss))) in
  modify (λ b, Boot (b_kernel b) (b_cpu b) g (b_idt b)) ;;*
  in_kernel_state (log_ok (line "GDT initialized")) ;;*
  let* i := in_kernel_state (in_tty (λ _, idt_init idt vectors isr_stub_table)) in
  modify (λ b, Boot (b_kernel b) (b_cpu b) (b_gdt b) i) ;;*
  in_kernel_state (
    log_ok (line "IDT initialized") ;;*
    in_tty (λ _, ps2_init spin) ;;*
    log_ok (line "keyboard initialized") ;;*
    in_tty (λ _, tty_init stdin_ops stdout_ops) ;;*
    log_ok (line "tty initialized")) ;;*
  in_cpu (run (syscall_enable syscall_entry_addr)) ;;*
  in_kernel_state (
    log_ok (line "Syscalls enabled") ;;*
    let* rootfs := in_console (in_machine (ext2_mount_rootfs spin sb r_inodes)) in
    log_ok (line "Mounted /") ;;*
    log_info (line "attempting to exec /init") ;;*
    start_init (FS := rootfs_files spin fuel sfuel rootfs comp inode) sym fuel
      (λ t, in_tty (λ _, tty_install_stdin_stdout t)) init_path).
End main.

(** ** What can happen to the running kernel

    The user code of the current task enters the kernel with a system call, a
    task that was put to sleep by a read of the terminal goes on, or a device
    interrupts.  The kernel does not check the addresses that a system call
    gets, so a call that stores through them could overwrite the terminal's
    [struct tty]; so could one that frees a block twice.  The steps are those in
    which that does not happen: the calls that store into memory leave the bytes
    of the struct alone ([tty_kept]), and the buffer of a read that goes on does
    not overlap it.  A read that parks the task, a write and an exit need no
    such condition. *)
Definition waiting (s : kstate) : Z := tty_waiting (k_console s).
Definition tty_byte (s : kstate) (x : Z) : Prop :=
  global_tty (k_console s) ≤ x < global_tty (k_console s) + sizeof_tty.
Definition tty_kept (s s' : kstate) : Prop :=
  global_tty (k_console s') = global_tty (k_console s) ∧
  ∀ x, tty_byte s x → ld8 (c_mem (k_console s')) x = ld8 (c_mem (k_console s)) x.
(** The calls that store nothing into memory but through the terminal's code. *)
Definition storeless : list Z := [SYS_READ; SYS_WRITE; SYS_EXIT].

Section steps.
Context {FS : FileSystem (console D)}.
Variables (sym : statics) (fuel sfuel : nat) (ops_at : fops).
#[local] Instance steps_tty : TtyFiles kstate := kernel_tty sfuel.

(** The task that waits for a child looks again. *)
Definition wait_resumed (wstatus : Z) : M kstate unit :=
  let* c := gets current in
  let* v := sys_wait sym fuel wstatus in
  match v with
  | None => mret_ tt
  | Some v => let* x := tget task_regs c in tset (set_regs (set_rax x v)) c
  end.

Inductive kernel_step (s : kstate) : kstate → Prop :=
  | kstep_syscall r s' :
      do_syscall sym fuel ops_at r s = Ok (tt, s') →
      0 ≤ current s < 2 ^ 64 → (rax r ∉ storeless → tty_kept s s') → kernel_step s s'
  | kstep_read f buf n s' :
      read_resumed f buf n s = Ok (tt, s') →
      (∀ x, tty_byte s x → ¬ buf ≤ x < buf + n) → kernel_step s s'
  | kstep_wait wstatus s' : wait_resumed wstatus s = Ok (tt, s') → tty_kept s s' → kernel_step s s'
  | kstep_interrupt ctx s' : kernel_isr sfuel ctx s = Ok (tt, s') → kernel_step s s'.
End steps.
End state.
