(* ===== verification/Boot.v ===== *)
(** Booting: the first part of [kernel_main] of [kernel/main.c] ([init_memory])
    takes the kernel from the state that the boot loader leaves to one in which
    the frame allocator, the kernel's memory map and the heap are ready. *)

From Stdlib Require Import Ascii.
From S2P Require Import Prelude Layout Memory Interfaces Pmm PageTable AddressSpace Kmalloc Heap Mm MmSpec MmInit Printf Sched.
From S2P Require Import Ata Vga Tty Exec ForkSpec Kernel.

(** ** Messages

    A format without conversions goes to the screen byte by byte. *)
Definition plain (fmt : list Z) : Prop := Forall (λ x, x ≠ chr "%") fmt.

Lemma vsnprintf_plain {S} (I : S → Prop) rd out sfuel fmt : ∀ fuel idx maxlen va s,
  (∀ c idx maxlen s, I s → wp (out c idx maxlen) s (λ _ s', I s')) → (length fmt ≤ fuel)%nat → plain fmt → I s →
  wp (vsnprintf_loop rd out sfuel fuel fmt idx maxlen va) s (λ _ s', I s').
Proof.
  induction fmt as [|c fmt IH]; intros fuel idx maxlen va s Hout Hf Hc Hs; destruct fuel as [|fuel]; cbn [length] in Hf; try lia; cbn [vsnprintf_loop];
    try (by apply wp_ret).
  apply list.Forall_cons in Hc as [Hc Hcs]. destruct (Z.eqb_spec c (chr "%")); [done|]. cbn [negb].
  apply wp_bind. eapply wp_mono; [by apply Hout|]. intros ? s1 Hs1. apply IH; [done|lia|done|done].
Qed.

Lemma printf_plain {S} (I : S → Prop) rd putc sfuel fmt s :
  (∀ c s, I s → wp (putc c) s (λ _ s', I s')) → plain fmt → I s →
  wp (printf_ rd putc sfuel fmt []) s (λ _ s', I s').
Proof.
  intros Hp Hc Hs. unfold printf_, vprintf_, _vsnprintf.
  assert (∀ c idx maxlen s, I s → wp (_out_char putc c idx maxlen) s (λ _ s', I s')) as Hout.
  { intros c idx maxlen s' Hs'. unfold _out_char. destruct (negb (c =? 0)); [by apply Hp|by apply wp_ret]. }
  apply wp_bind. eapply wp_mono; [by apply (vsnprintf_plain I)|]. intros i s1 Hs1.
  apply wp_bind. eapply wp_mono; [by apply Hout|]. intros ? s2 Hs2. by apply wp_ret.
Qed.

Section boot.
Context {D : Type} {PO : PortOps D} {CP : CrtPorts D}.
Abbreviation kenv := (vm pmm (console D)).
Abbreviation kst := (sched (vm pmm (console D))).
Implicit Types (K : kst) (c : console D) (t : term D).

(** Only the objects of the kernel image exist. *)
Definition only_image (e : kenv) : Prop :=
  (∀ a, is_Some (mms e !! a) → HEAP_LIMIT ≤ a) ∧ (∀ a, is_Some (vmas e !! a) → HEAP_LIMIT ≤ a) ∧
  (∀ a, is_Some (lis e !! a) → HEAP_LIMIT ≤ a).

Lemma image_objects sym e e' y U DD : statics_ok sym → only_image e → kernel_ready sym e e' y U DD → mms e' !! kernel_mm sym = Some y →
  only_image e'.
Proof.
  intros Hsym (Om & Ov & Ol) [_ _ _ _ _ Hm Hv Hl _] Hk.
  assert (∀ a, a ∈ [kernel_mm sym; kernel_vma_li sym; kernel_vma sym; phys_vma_li sym; phys_vma sym;
    kernel_heap_vma_li sym; kernel_heap_vma sym] → HEAP_LIMIT ≤ a) as Hi by apply Hsym.
  split; [|split].
  - intros a Ha. destruct (decide (a = kernel_mm sym)) as [->|Hne]; [apply Hi; set_solver|]. apply Om. by rewrite <- Hm.
  - intros a. rewrite Hv. unfold linked_vmas. rewrite !lookup_insert.
    repeat (case_decide; [subst; intros _; apply Hi; set_solver|]). apply Ov.
  - intros a. rewrite Hl. unfold linked_lis. rewrite !lookup_insert.
    repeat (case_decide; [subst; intros _; apply Hi; set_solver|]). apply Ol.
Qed.

Lemma image_objects_ok (e : kenv) h : only_image e → heap_inv h ∅ → objects_ok (set_kheap h e) ∅.
Proof. intros (Om & Ov & Ol) Hi. split; simpl; [done|intros a Ha; right; by eauto..]. Qed.

(** What the writes to the CRT controller leave true of the other devices. *)
Variable P : D → Prop.
Hypothesis P_crt : ∀ d p v, p = 0x3D4 ∨ p = 0x3D5 → P d → wp (outb p v) d (λ _ d', P d').
Definition term_ok t : Prop := on_screen (t_vga t) ∧ P (t_ports t).

Lemma putchar_ok_ports ch t : term_ok t → wp (_putchar ch) t (λ _ t', term_ok t').
Proof.
  intros [Hs HP].
  assert (∀ p v, p = 0x3D4 ∨ p = 0x3D5 → keeps (λ t, P (t_ports t)) (in_ports (outb p v)) (λ _, True)) as Ho.
  { intros p v Hp t' Ht'. pose proof (P_crt (t_ports t') p v Hp Ht') as Hw. unfold in_ports. unfold wp in Hw.
    by destruct (outb p v (t_ports t')) as [[]| | |]. }
  assert (keeps (λ t, P (t_ports t)) (vgaterm_putchar ch) (λ _, True)) as Hk.
  { unfold vgaterm_putchar. destruct (ch =? 10); [intros t' Ht'; split; [exact Ht'|done]|].
    eapply (keeps_bind _ _ _ (λ _, True)); [intros t' Ht'; split; [exact Ht'|done]|intros _ _].
    eapply (keeps_bind _ _ _ (λ _, True)); [intros t' Ht'; split; [by destruct (_ =? _)|done]|intros _ _].
    eapply keeps_bind; [apply keeps_gets|intros v _]. unfold vgaterm_set_cursor.
    eapply keeps_bind; [apply keeps_gets|intros pos _].
    repeat (eapply keeps_bind; [apply Ho; auto|intros _ _]). apply Ho. auto. }
  pose proof (putchar_cells ch t Hs) as Hw. specialize (Hk t HP). unfold wp, _putchar in *.
  destruct (vgaterm_putchar ch t) as [[u t']| | |]; [|done..]. split; [apply Hw|apply Hk].
Qed.

(** Only the terminal has changed. *)
Definition with_term t K : kst := set_env (set_kheap (set_c_term t (kheap (env K))) (env K)) K.
Definition shown K : Prop := term_ok (c_term (k_console K)).
Definition on_term K K' : Prop := ∃ t, K' = with_term t K ∧ term_ok t.

Lemma with_term_twice t t' K : with_term t' (with_term t K) = with_term t' K.
Proof. by destruct K as [[? []]]. Qed.
Lemma with_term_same K : with_term (c_term (k_console K)) K = K.
Proof. by destruct K as [[? []]]. Qed.
Lemma on_term_shown K K' : on_term K K' → shown K'.
Proof. intros (t & -> & Ht). unfold shown. by destruct K as [[? []]]. Qed.
Lemma on_term_trans K K1 K2 : on_term K K1 → on_term K1 K2 → on_term K K2.
Proof. intros (t1 & -> & _) (t2 & -> & H). exists t2. by rewrite with_term_twice. Qed.

(** An operation of the terminal, on the state of the kernel. *)
Lemma in_term_ok {A} (m : M (term D) A) K (Q : term D → Prop) :
  wp m (c_term (k_console K)) (λ _ t, Q t) → (∀ t, Q t → term_ok t) →
  wp (in_console (in_term m)) K (λ _ K', on_term K K').
Proof.
  intros Hm HQ. unfold in_console. apply wp_in_env, wp_zoom, wp_in_term. eapply wp_mono; [exact Hm|].
  intros a t Ht. exists t. split; [done|by apply HQ].
Qed.

Lemma setcolor_ok fg bg K : shown K → wp (setcolor fg bg) K (λ _ K', on_term K K').
Proof.
  intros Hs. eapply (in_term_ok _ _ term_ok); [|done]. by apply wp_modify.
Qed.

Lemma kprintf_ok sfuel fmt K : plain fmt → shown K → wp (kprintf sfuel fmt) K (λ _ K', on_term K K').
Proof.
  intros Hf Hs. unfold kprintf. apply wp_bind.
  assert (wp (printf sfuel fmt []) (with_env (k_console K) K) (λ _ s', ∃ t, s' = with_env (set_c_term t (k_console K)) K ∧ term_ok t)) as Hw.
  { unfold printf. apply wp_in_env.
    assert (env (with_env (k_console K) K) = k_console K) as -> by by destruct K.
    eapply wp_mono; [apply (printf_plain (λ c, ∃ t, c = set_c_term t (k_console K) ∧ term_ok t))|].
    - intros ch c (t & -> & Ht). apply wp_in_term. eapply wp_mono; [by apply putchar_ok_ports|].
      intros ? t' Ht'. exists t'. split; [by destruct (k_console K)|exact Ht'].
    - done.
    - exists (c_term (k_console K)). split; [by destruct (k_console K)|done].
    - intros _ c (t & -> & Ht). exists t. by destruct K. }
  unfold wp in Hw |- *. unfold in_tty. destruct (printf _ _ _ _) as [[a s']| | |]; try done.
  destruct Hw as (t & -> & Ht). exists t. split; [|done]. by destruct K.
Qed.

Lemma on_term_bind {A B} (m : M kst A) (f : A → M kst B) K :
  wp m K (λ _ K', on_term K K') → (∀ a K', shown K' → wp (f a) K' (λ _ K'', on_term K' K'')) →
  wp (mbind_ m f) K (λ _ K', on_term K K').
Proof.
  intros Hm Hf. apply wp_bind. eapply wp_mono; [exact Hm|]. intros a K1 H1.
  eapply wp_mono; [by apply Hf, (on_term_shown K)|]. intros b K2. by apply on_term_trans.
Qed.

Ltac say_all := repeat (apply on_term_bind;
  [first [by apply setcolor_ok | apply kprintf_ok; [by repeat constructor|done]]|]; intros ? ? ?); by apply kprintf_ok.
Lemma log_ok_ok sfuel fmt K : plain fmt → shown K → wp (log_ok sfuel fmt) K (λ _ K', on_term K K').
Proof. intros Hf Hs. unfold log_ok. say_all. Qed.
Lemma log_info_ok sfuel fmt K : plain fmt → shown K → wp (log_info sfuel fmt) K (λ _ K', on_term K K').
Proof. intros Hf Hs. unfold log_info. say_all. Qed.

Lemma clear_rows_same w n : ∀ y v, same_term v (clear_rows w n y v).
Proof.
  induction n as [|n IH]; intros y v; cbn [clear_rows]; [done|].
  destruct (fill_cols_ok w (VGATERM_ENTRY 32 (vgaterm_color v)) 0 y v) as [H1 _].
  specialize (IH (y + 1) (fill_cols w 0 y (VGATERM_ENTRY 32 (vgaterm_color v)) v)). unfold same_term in *. intuition congruence.
Qed.

Lemma banner_ok sfuel K : P (t_ports (c_term (k_console K))) → wp (banner sfuel) K (λ _ K', on_term K K').
Proof.
  intros HP. unfold banner. apply on_term_bind.
  - apply (in_term_ok _ _ term_ok); [|done]. apply wp_modify. split; [|exact HP]. cbn [t_vga set_vga].
    match goal with |- on_screen (clear_rows ?w ?n 0 ?v) => destruct (clear_rows_same w n 0 v) as (E1 & E2 & _) end.
    unfold on_screen. rewrite E1, E2. cbn [vgaterm_x vgaterm_y]. unfold VGATERM_WIDTH, VGATERM_HEIGHT. lia.
  - intros _ K1 H1. apply on_term_bind; [by apply setcolor_ok|]. intros _ K2 H2.
    apply on_term_bind; [apply kprintf_ok; [by repeat constructor|done]|]. intros _ K3 H3. by apply setcolor_ok.
Qed.

(** ** Memory *)

(** The multiboot information: a memory map that the allocator can handle, and
    one region with [n] pages behind its bitmap. *)
Record boot_info (fuel : nat) (ks ke mboot es : Z) (tags : list (Z * Z)) (entries : list mmap_entry) (n : nat) (s : pmm) : Prop := {
  bi_tags : tags_at (p_mem s) (mboot + 8) tags;
  bi_found : find_tag_spec MULTIBOOT_TAG_TYPE_MMAP (mboot + 8) tags ≠ 0;
  bi_map : mmap_tag (p_mem s) (find_tag_spec MULTIBOOT_TAG_TYPE_MMAP (mboot + 8) tags) es entries;
  bi_fuel : (length tags < fuel ∧ length entries < fuel)%nat;
  bi_kernel : 0 ≤ ks < ke;
  bi_limit : ke ≤ PHYS_LIMIT;
  bi_entries : entries_ok ks ke entries;
  bi_max : (length (entries_regions ks ke entries) ≤ MAX_REGIONS)%nat;
  bi_room : ∃ r, r ∈ entries_regions ks ke entries ∧ Z.of_nat n ≤ pages r - bmap_pages r;
}.

Lemma boot_frames fuel ks ke mboot es tags entries n (s : pmm) : boot_info fuel ks ke mboot es tags entries n s →
  wp (pmm_init fuel ks ke mboot) s (λ _ s', frame_inv s' ∧ (n ≤ frame_avail s')%nat).
Proof.
  intros [H1 H2 H3 H4 H5 H6 H7 H8 (r & Hr & Hn)].
  destruct (pmm_init_ok fuel ks ke mboot es tags entries s H1 H2 H3 H4 H5 H6 H7 H8) as (s' & Hrun & Hi & Hrs & Hfree & _).
  apply wp_run. exists tt, s'. split; [exact Hrun|]. split; [exact Hi|].
  rewrite <- Hrs in Hr. assert (∀ i, bmap_pages r ≤ i < pages r → page_addr r i ∈ free_frames s') as Hf.
  { intros i Hp. apply Hfree. exists r, i. by split. }
  pose proof (region_avail s' r Hi Hr Hf) as Ha. change (frame_avail s') with (size (free_frames s')). lia.
Qed.

(** The state of the kernel when [kernel_main] is called: zeroed objects and an
    empty heap. *)
Record loaded sym K : Prop := {
  ld_objects : image_zeroed sym (env K);
  ld_only : only_image (env K);
  ld_base : c_base (k_console K) = 0;
  ld_brk : c_brk (k_console K) = KERNEL_BRK_START;
}.

(** What [init_memory] establishes. *)
Record memory_ready sym (n : nat) K K' y U DD : Prop := {
  mr_objects : objects_ok (env K') ∅;
  mr_map : kernel_map sym (env K') y U (kernel_pages DD) (kernel_list sym) kernel_areas;
  mr_len : length DD = Z.to_nat BRK_PAGES;
  mr_cr3 : cr3 K' = p4 y;
  mr_heap : heap_ok (c_heap (k_console K')) [(INIT_HEAP_SIZE - sizeof_block, false)];
  mr_avail : (n ≤ 5 * 1664 + frame_avail (frames (env K')))%nat;
  mr_shown : shown K';
  mr_mem x : ¬ (HEAP_START ≤ x < HEAP_LIMIT) → ld8 (c_mem (k_console K')) x = ld8 (c_mem (k_console K)) x;
  mr_tty : global_tty (k_console K') = global_tty (k_console K);
  mr_sched : tasks K' = tasks K ∧ files K' = files K ∧ current K' = current K;
}.

(** A message between two steps. *)
Lemma say {A} sfuel l (f : unit → M kst A) K (Q : A → kst → Prop) :
  plain (line l) → shown K → (∀ t, term_ok t → wp (f tt) (with_term t K) Q) → wp (let* u := log_ok sfuel (line l) in f u) K Q.
Proof.
  intros Hl Hs HQ. apply wp_bind. eapply wp_mono; [by apply log_ok_ok|]. intros [] K' (t & -> & Ht). by apply HQ.
Qed.
Lemma shown_term t K : term_ok t → shown (with_term t K).
Proof. intros Ht. apply (on_term_shown K). by exists t. Qed.

Lemma init_memory_ok sfuel tfuel sym ks ke mboot es tags entries n K :
  statics_ok sym → loaded sym K → P (t_ports (c_term (k_console K))) → boot_info tfuel ks ke mboot es tags entries n (frames (env K)) → (5 * 1664 ≤ n)%nat →
  wp (init_memory sfuel tfuel sym ks ke mboot) K (λ _ K', ∃ y U DD, memory_ready sym n K K' y U DD).
Proof.
  intros Hsym [Hz Ho Hb Hk] HP Hboot Hn. unfold init_memory.
  apply wp_bind. eapply wp_mono; [by apply banner_ok|]. intros [] K1 (t1 & -> & Ht1).
  apply wp_bind, wp_in_env, wp_zoom. unfold with_term. rewrite env_set.
  eapply wp_mono; [by apply (boot_frames tfuel ks ke mboot es tags entries n)|]. intros [] fr (Hfi & Hfa).
  set (e1 := set_kheap (set_c_term t1 (kheap (env K))) (env K)). rewrite set_env_twice.
  apply (say sfuel); [by repeat constructor| |].
  { unfold shown, k_console. by rewrite env_set. }
  intros t2 Ht2. unfold with_term. rewrite env_set, set_env_twice. set (e2 := set_kheap _ (set_frames fr e1)).
  apply wp_bind, wp_in_env. rewrite env_set. change (frame_inv (frames e2)) in Hfi.
  eapply wp_mono; [apply (kernel_mm_init_ok sym Hsym e2 Hfi); [exact Hz|simpl frames; lia]|].
  intros [] e3 (y & U & DD & Hr). rewrite set_env_twice.
  pose proof Hr as [Hmap _ HlD _ Hkh _ _ _ Hav]. pose proof (ma_mm _ _ _ _ _ (km_at _ _ _ _ _ _ _ Hmap)) as Hy.
  pose proof (image_objects sym e2 e3 y U DD Hsym Ho Hr Hy) as Ho3.
  apply (say sfuel); [by repeat constructor| |].
  { unfold shown, k_console. rewrite env_set, Hkh. exact Ht2. }
  intros t4 Ht4. unfold with_term. rewrite env_set, set_env_twice. set (e4 := set_kheap _ e3).
  apply wp_bind. unfold p4_of. apply wp_bind, wp_in_env. rewrite env_set.
  apply (wp_get_mm _ _ y); [exact Hy|]. rewrite set_env_twice. apply wp_ret.
  unfold switch_cr3. apply wp_bind, wp_modify. set (K5 := set_cpu _ _ _ _ _).
  assert (env K5 = e4) as He5 by (unfold K5; by destruct K).
  apply (say sfuel); [by repeat constructor| |].
  { unfold shown, k_console. rewrite He5. exact Ht4. }
  intros t6 Ht6. unfold with_term. rewrite He5. set (e6 := set_kheap _ e4).
  apply wp_bind. unfold in_console. apply wp_in_env, wp_zoom, wp_zoom. rewrite env_set.
  assert (c_heap (kheap e6) = Heap (c_mem (kheap e6)) 0 KERNEL_BRK_START) as Hc6.
  { unfold c_heap, e6, e4. simpl. rewrite Hkh. simpl. unfold k_console in Hb, Hk. by rewrite Hb, Hk. }
  rewrite Hc6. eapply wp_mono; [apply wp_and; [apply kmalloc_init_ok|apply kmalloc_init_mem]|]. intros [] h [Hh Hhm]. rewrite set_env_twice.
  set (e7 := set_kheap _ e6). eapply wp_mono; [apply log_ok_ok; [by repeat constructor|]|].
  { unfold shown, k_console. rewrite env_set. simpl. exact Ht6. }
  intros [] K8 (t8 & -> & Ht8). exists y, U, DD. unfold with_term. rewrite env_set, set_env_twice.
  set (c8 := set_c_term t8 (kheap e7)). assert (c_heap c8 = h) as Hc8 by (unfold c8, e7; simpl; by destruct h, (kheap e6)).
  split; unfold shown, k_console; rewrite ?env_set; simpl kheap; rewrite ?Hc8.
  - apply (image_objects_ok e3); [exact Ho3|]. exists [(INIT_HEAP_SIZE - sizeof_block, false)]. rewrite Hc8. split; [exact Hh|done].
  - by repeat apply km_kheap.
  - exact HlD.
  - unfold K5. by destruct K.
  - exact Hh.
  - simpl frames in *. change (frames e2) with fr in Hav. lia.
  - exact Ht8.
  - intros x Hx. change (c_mem c8) with (c_mem (set_c_heap h (kheap e6))). cbn [c_mem set_c_heap]. rewrite Hhm.
    + simpl. rewrite Hkh. reflexivity.
    + unfold HEAP_START, HEAP_LIMIT, KERNEL_BRK_START, sizeof_block in *. lia.
  - simpl. rewrite Hkh. reflexivity.
  - unfold K5. by destruct K.
Qed.
End boot.

(** Nothing in particular of the other devices. *)
Lemma crt_any {D : Type} {PO : PortOps D} {CP : CrtPorts D} (d : D) p v : p = 0x3D4 ∨ p = 0x3D5 → True → wp (outb p v) d (λ _ _, True).
Proof. intros [-> | ->] _; eapply wp_mono; [apply outb_index|done|apply outb_data|done]. Qed.

(** C7: the first part of [kernel_main] makes memory ready.  From the state that
    the loader leaves (zeroed objects, an empty heap, whatever is on the
    screen), with a memory map in which one region has at least [n] pages behind
    its bitmap, [n] being at least 8320: [init_memory] returns, with the kernel's
    map loaded into [cr3], the map that [kernel_mm_init] builds, every object in
    the heap or the image, the heap one free block, at least [n - 8320] frames
    free, the cursor on the screen, and tasks and files as before.  These are
    the conditions under which the theorems about address spaces, programs and
    [fork] hold. *)
Theorem init_memory_spec {D : Type} {PO : PortOps D} {CP : CrtPorts D} (K : sched (vm pmm (console D)))
    sfuel tfuel sym ks ke mboot es tags entries n
    (Hsym : statics_ok sym) (Hload : loaded sym K)
    (Hboot : boot_info tfuel ks ke mboot es tags entries n (frames (env K))) (Hn : (5 * 1664 ≤ n)%nat) :
  ∃ K' y U DD, init_memory sfuel tfuel sym ks ke mboot K = Ok (tt, K') ∧
    objects_ok (env K') ∅ ∧ kernel_map sym (env K') y U (kernel_pages DD) (kernel_list sym) kernel_areas ∧
    length DD = 128%nat ∧ cr3 K' = p4 y ∧
    heap_ok (c_heap (k_console K')) [(INIT_HEAP_SIZE - sizeof_block, false)] ∧
    (n ≤ 5 * 1664 + frame_avail (frames (env K')))%nat ∧ on_screen (t_vga (c_term (k_console K'))) ∧
    tasks K' = tasks K ∧ files K' = files K ∧ current K' = current K.
Proof.
  pose proof (init_memory_ok (λ _, True) crt_any sfuel tfuel sym ks ke mboot es tags entries n K Hsym Hload I Hboot Hn) as Hw.
  apply wp_run in Hw as ([] & K' & Hrun & y & U & DD & [M1 M2 M3 M4 M5 M6 [M7 _] _ _ (M8 & M9 & M10)]).
  exists K', y, U, DD. split_and!; assumption.
Qed.

(** 80 MiB behind the first MiB, in the first entry of the memory map. *)
Definition ex_boot_mem : mem :=
  st32 (st32 (st64 (st64 (st32 (st32 (st32 ∅ 0x9008 6) 0x900c 40) 0x9010 24)
    0x9018 0x100000) 0x9020 0x5000000) 0x9028 1) 0x9030 0.
Definition ex_boot_entry : mmap_entry := Entry 0x100000 0x5000000 1.
Definition ex_loaded : sched (vm pmm (console crt)) :=
  Sched (ex_image_objects (Console (Term (Crt 0 (λ _, 0)) (Vgaterm ∅ 3 70 0 0)) ∅ 0 KERNEL_BRK_START false 0) (Pmm ex_boot_mem []))
    ∅ ∅ 0 0 1 0 0 0 0.

Lemma ex_boot_info : boot_info 4 0x100000 0x120000 0x9000 24 [(6, 40)] [ex_boot_entry] (Z.to_nat 20000) (Pmm ex_boot_mem []).
Proof.
  split.
  - vm_compute. repeat split; discriminate.
  - vm_compute. discriminate.
  - split_and!; [by vm_compute|by vm_compute|by vm_compute|].
    intros [|k] e He; [|by destruct k]. injection He as <-. split_and!; by vm_compute.
  - simpl. lia.
  - lia.
  - by vm_compute.
  - split.
    + intros e ->%list_elem_of_singleton _. unfold entry_ok. split_and!; try (by vm_compute). simpl. lia.
    + intros e1 e2 ->%list_elem_of_singleton ->%list_elem_of_singleton _ _. by left.
  - vm_compute. lia.
  - exists (Region 0x120000 20448). split; [|by vm_compute].
    assert (entries_regions 0x100000 0x120000 [ex_boot_entry] = [Region 0x120000 20448]) as -> by by vm_compute.
    by apply list_elem_of_singleton.
Qed.

Lemma ex_image_only {D} (h : console D) fr : only_image (ex_image_objects h fr).
Proof.
  assert (∀ a, a ∈ [kernel_mm ex_image; kernel_vma ex_image; phys_vma ex_image; kernel_heap_vma ex_image] → HEAP_LIMIT ≤ a) as Hi.
  { intros a Ha. apply (so_image _ ex_image_ok). set_solver. }
  split_and!; intros a [x Hx]; simpl in Hx.
  - apply lookup_singleton_Some in Hx as [<- _]. apply Hi. set_solver.
  - rewrite !lookup_insert_Some, lookup_singleton_Some in Hx. apply Hi. set_solver.
  - by rewrite lookup_empty in Hx.
Qed.

Lemma init_memory_spec_witness : ∃ K', init_memory 0 4 ex_image 0x100000 0x120000 0x9000 ex_loaded = Ok (tt, K') ∧
  (600 ≤ frame_avail (frames (env K')))%nat.
Proof.
  destruct (init_memory_spec ex_loaded 0 4 ex_image 0x100000 0x120000 0x9000 24 [(6, 40)] [ex_boot_entry] (Z.to_nat 20000)
    ex_image_ok) as (K' & y & U & DD & Hrun & _ & _ & _ & _ & _ & Ha & _).
  - split; [apply ex_image_zeroed|apply ex_image_only|reflexivity|reflexivity].
  - exact ex_boot_info.
  - lia.
  - exists K'. split; [exact Hrun|]. lia.
Defined.
