(* ===== verification/Ext2Ls.v ===== *)
(** [ext2_ls] of [fs/ext2.c], which lists a directory on the terminal: the file
    system of [Ext2] and the [printf] of [Printf] on one console. *)

From Stdlib Require Import Ascii.
From S2P Require Import Prelude Layout Memory Kmalloc Printf Ata Ext2 Vga Tty Kernel.

(** ** The access rights of [include/ext2.h] *)
Definition EXT2_S_IRUSR : Z := 0x0100.
Definition EXT2_S_IWUSR : Z := 0x0080.
Definition EXT2_S_IXUSR : Z := 0x0040.
Definition EXT2_S_IRGRP : Z := 0x0020.
Definition EXT2_S_IWGRP : Z := 0x0010.
Definition EXT2_S_IXGRP : Z := 0x0008.
Definition EXT2_S_IROTH : Z := 0x0004.
Definition EXT2_S_IWOTH : Z := 0x0002.
Definition EXT2_S_IXOTH : Z := 0x0001.

(** The arguments of the first [printf] of an entry. *)
Definition right (im mask : Z) (c : Ascii.ascii) : Z := if negb (Z.land im mask =? 0) then chr c else chr "-".
Definition rights (im : Z) : list Z :=
  [chr "-"; right im EXT2_S_IRUSR "r"; right im EXT2_S_IWUSR "w"; right im EXT2_S_IXUSR "x";
   right im EXT2_S_IRGRP "r"; right im EXT2_S_IWGRP "w"; right im EXT2_S_IXGRP "x";
   right im EXT2_S_IROTH "r"; right im EXT2_S_IWOTH "w"; right im EXT2_S_IXOTH "x"].

Section code.
Context {D : Type} {PO : PortOps D}.
Variables (spin sfuel : nat).

Definition ls_load {A} (f : mem → A) : M (console D) A := in_machine (load f).
Definition ls_printf (fmt va : list Z) : M (console D) unit :=
  printf_ (λ c a, ld8 (c_mem c) a) (λ ch, in_term (_putchar ch)) sfuel fmt va ;;* mret_ tt.

(** [for (int i = 0; i < de->name_len; i++)]: a name has at most 255 bytes. *)
Fixpoint ls_name (fuel : nat) (de i : Z) : M (console D) unit :=
  match fuel with
  | O => nofuel
  | S fuel' =>
      let* n := ls_load (λ m, de_name_len m de) in
      if negb (i <? n) then mret_ tt else
      let* c := ls_load (λ m, ld8 m (de_name de + i)) in
      ls_printf (bytes "%c") [c] ;;*
      ls_name fuel' de (i + 1)
  end.

(** [i] is the local inode. *)
Fixpoint ls_loop (fuel : nat) (fs data i doff : Z) : M (console D) unit :=
  match fuel with
  | O => nofuel
  | S fuel' =>
      let* bs := ls_load (λ m, fs_block_size m fs) in
      if negb (doff <? bs) then mret_ tt else
      let de := data + doff in
      let* inode := ls_load (λ m, de_inode m de) in
      if inode =? 0 then ls_loop fuel' fs data i doff else
      in_machine (ext2_get_inode spin fs i (s32 inode)) ;;*
      let* im := ls_load (λ m, i_mode m i) in
      ls_printf (bytes "%c%c%c%c%c%c%c%c%c%c ") (rights im) ;;*
      ls_name 256 de 0 ;;*
      ls_printf [10] [] ;;*
      let* rec_len := ls_load (λ m, de_rec_len m de) in
      ls_loop fuel' fs data i (w32 (doff + rec_len))
  end.

(** [path] is not looked at, and [data] is not released. *)
Definition ext2_ls (fuel : nat) (i fs path : Z) : M (console D) unit :=
  let* bs := ls_load (λ m, fs_block_size m fs) in
  let* data := in_machine (in_heap (kmalloc bs)) in
  let* ptr := ls_load (λ m, i_block m (fs_rooti fs) 0) in
  let* bs := ls_load (λ m, fs_block_size m fs) in
  in_machine (read_blk spin fs data ptr bs) ;;*
  ls_loop fuel fs data i 0.
End code.

(** ** Properties *)

(** The ten characters are those of [ls -l]: bit 8 down to bit 0 of the mode. *)
Lemma rights_spec im k :
  0 ≤ k < 9 → rights im !! S (Z.to_nat k) = Some (if Z.testbit im (8 - k) then match k mod 3 with 0 => chr "r" | 1 => chr "w" | _ => chr "x" end else chr "-").
Proof.
  intros Hk. assert (∀ n c, 0 ≤ n → right im (2 ^ n) c = if Z.testbit im n then chr c else chr "-") as Hr.
  { intros n c Hn. unfold right. destruct (Z.testbit im n) eqn:E.
    - destruct (Z.eqb_spec (Z.land im (2 ^ n)) 0) as [H0|]; [exfalso|done].
      assert (Z.testbit (Z.land im (2 ^ n)) n = true) as Ht by by rewrite Z.land_spec, E, Z.pow2_bits_true.
      by rewrite H0, Z.bits_0 in Ht.
    - assert (Z.land im (2 ^ n) = 0) as ->; [|done]. apply Z.bits_inj'. intros j Hj. rewrite Z.land_spec, Z.bits_0.
      destruct (decide (j = n)) as [->|]; [by rewrite E|]. by rewrite Z.pow2_bits_false, andb_false_r. }
  assert (k = 0 ∨ k = 1 ∨ k = 2 ∨ k = 3 ∨ k = 4 ∨ k = 5 ∨ k = 6 ∨ k = 7 ∨ k = 8) as Hc by lia.
  repeat destruct Hc as [-> | Hc]; [..|subst k]; simpl; f_equal;
    [apply (Hr 8)|apply (Hr 7)|apply (Hr 6)|apply (Hr 5)|apply (Hr 4)|apply (Hr 3)|apply (Hr 2)|apply (Hr 1)|apply (Hr 0)]; lia.
Qed.

(** Like [ext2_getdents], the listing stays at an unused entry for ever. *)
Lemma ls_unused_entry_loops {D : Type} {PO : PortOps D} spin sfuel (c : console D) fs data i doff :
  doff < fs_block_size (c_mem c) fs → de_inode (c_mem c) (data + doff) = 0 →
  ∀ fuel, ls_loop spin sfuel fuel fs data i doff c = NoFuel.
Proof.
  intros Hd Hi fuel. assert (∀ A (f : mem → A), ls_load f c = Ok (f (c_mem c), c)) as Hl.
  { intros A f. by destruct c as [[]]. }
  induction fuel as [|fuel IH]; [done|]. cbn [ls_loop].
  unfold mbind_ at 1. rewrite Hl. destruct (Z.ltb_spec doff (fs_block_size (c_mem c) fs)); [|lia]. cbn [negb].
  unfold mbind_ at 1. by rewrite Hl, Hi.
Qed.
