(* ===== verification/ExecDrive.v ===== *)
(** From the drive to a running program: [exec_elf] on the kernel's own state,
    with the ext2 file system of [Ext2Path] and [Ext2Files] underneath, so that
    what the program finds in its memory is stated of the bytes of the drive. *)

From S2P Require Import Prelude Layout Memory CString Interfaces Pmm PageTable AddressSpace Kmalloc Heap Mm MmSpec MmProps Sched.
From S2P Require Import Ata Ext2 Ext2Files Ext2Path Vga Tty Exec ExecSpec Rootfs Syscall Kernel.

(** ** An ELF file at another address *)
Lemma omap_ext_in {A B} (f g : A → option B) (l : list A) : (∀ x, x ∈ l → f x = g x) → omap f l = omap g l.
Proof.
  intros H. induction l as [|x l IH]; [done|]. cbn [omap list_omap]. rewrite H by (by left).
  rewrite IH by (intros; apply H; by right). done.
Qed.

Section shift.
Variables (F m : mem) (buf n : Z).
Hypothesis Hs : shifted F m 0 buf n.

Lemma field_shift k a o : 0 ≤ a → 0 ≤ o → a + o + Z.of_nat k ≤ n → ld k m (buf + a + o) = ld k F (a + o).
Proof.
  intros Ha Ho Hn. rewrite <- Z.add_assoc. rewrite <- (Z.add_0_l (a + o)) at 2.
  apply ld_shift, (shifted_sub _ _ _ _ _ _ _ Hs); lia.
Qed.

Lemma ehdr_shift : sizeof_ehdr ≤ n →
  e_phoff m buf = e_phoff F 0 ∧ e_phnum m buf = e_phnum F 0 ∧ e_entry m buf = e_entry F 0.
Proof.
  unfold sizeof_ehdr. intros Hn. rewrite <- (Z.add_0_r buf). unfold e_phoff, e_phnum, e_entry.
  split_and!; [apply (field_shift 8 0)|apply (field_shift 2 0)|apply (field_shift 8 0)]; lia.
Qed.

Lemma load_segments_shift : elf_ok F 0 n → load_segments m buf = load_segments F 0.
Proof.
  intros [H1 H2 _ _]. destruct (ehdr_shift H1) as (Ho & Hp & _). unfold load_segments, segments_from. rewrite Hp.
  apply omap_ext_in. intros i Hi%elem_of_seqZ. unfold phdr. rewrite Ho, Z.add_0_l.
  pose proof (ld_range 8 F (0 + 32)) as [Hr _]. change (0 ≤ e_phoff F 0) in Hr.
  set (a := e_phoff F 0 + i * sizeof_phdr). rewrite <- (Z.add_assoc buf). fold a.
  assert (0 ≤ a ∧ a + 56 ≤ n) as [Ha1 Ha2] by (unfold a, sizeof_phdr in *; lia).
  unfold segment_at, p_type, p_vaddr, p_offset, p_filesz, p_memsz, ld32, ld64.
  rewrite !field_shift by lia. done.
Qed.

Lemma good_segment_mono k k' g : k ≤ k' → good_segment k g → good_segment k' g.
Proof. intros Hk [? [? ?] ? ? ?]. split; try done. split; [done|lia]. Qed.

Lemma elf_ok_shift n' : n ≤ n' → elf_ok F 0 n → elf_ok m buf n'.
Proof.
  intros Hn He. pose proof (load_segments_shift He) as Hl. destruct He as [H1 H2 H3 H4].
  destruct (ehdr_shift H1) as (Ho & Hp & _). split; [lia|rewrite Ho, Hp; lia|rewrite Hl|by rewrite Hl].
  apply (list.Forall_impl _ _ _ H3). intros g. by apply good_segment_mono.
Qed.

Lemma seg_content_shift g x :
  good_segment n g → seg_base g ≤ x → seg_content buf m g x = seg_content 0 F g x.
Proof.
  intros Hg Hx. unfold seg_content. case_decide as Hd; [|done].
  destruct (seg_facts _ _ Hg) as (Hb & _). destruct Hg as [(G1 & G2 & G3) [G4 G5] G6 _ _].
  rewrite Hb in Hx. unfold PAGE_SIZE in *.
  pose proof (Z.mod_le (sg_offset g) 4096 ltac:(lia) ltac:(lia)). rewrite G6 in *.
  replace (buf + sg_offset g + (x - sg_vaddr g)) with (buf + (sg_offset g + (x - sg_vaddr g))) by lia.
  replace (0 + sg_offset g + (x - sg_vaddr g)) with (0 + (sg_offset g + (x - sg_vaddr g))) by lia. apply Hs. lia.
Qed.
End shift.

Section program.
Context {St : Type} {FO : FrameOps St} {FL : FrameLaws St} {H : Type} {HO : HeapOps H} {HL : HeapLaws H}.

Lemma program_shift (F m : mem) buf n gs kvs kg (s0 s : vm St H) c x T f L :
  shifted F m 0 buf n → Forall (good_segment n) gs →
  program m buf gs kvs kg s0 s c x T f L → program F 0 gs kvs kg s0 s c x T f L.
Proof.
  intros Hs Hgs [P1 P2 P3 P4]. split; [done| |done|done]. intros g Hg i k Hi Hk.
  destruct (P2 g Hg i k Hi Hk) as (q & ? & ? & ? & ? & ? & Hc). exists q. do 5 (split; [done|]). rewrite Hc.
  apply (seg_content_shift F m buf n Hs); [|unfold PAGE_SIZE in *; lia].
  rewrite list.Forall_forall in Hgs. by apply Hgs.
Qed.
End program.

(** ** The kernel *)
Section drive.
Context {D : Type} {PO : PortOps D} {AD : AtaDrive D} (spin : nat).
Hypothesis spin_pos : (ata_polls (D := D) < spin)%nat.
Implicit Types (c : console D) (K : sched (vm pmm (console D))).

Lemma c_machine_set (s : machine D) c : c_machine (set_c_machine s c) = s.
Proof. by destruct s as [d []], c as [[]]. Qed.

Lemma in_machine_run {A} (m : M (machine D) A) c a s :
  m (c_machine c) = Ok (a, s) → in_machine m c = Ok (a, set_c_machine s c).
Proof. intros Hm. unfold in_machine, zoom. by rewrite Hm. Qed.

(** Byte [j] of [F], below [size], is byte [j] of the file with inode [ino]. *)
Record file_on_drive (dk : Z → Z) (v : ext2_view) (ino : Z) (F : mem) (size nblk : Z) : Prop := {
  fd_ino : ino_ok v ino;
  fd_size : disk_size dk (ino_pos v ino) = size;
  fd_pos : 0 < size;
  fd_range : size + v_bsz v - 1 < 2 ^ 32;
  fd_nblk : nblk = (size + v_bsz v - 1) / v_bsz v;
  fd_blocks : file_ok dk (v_bsz v) (ino_pos v ino) nblk;
  fd_bytes j : 0 ≤ j < size → ld8 F j = file_byte dk (v_bsz v) (ino_pos v ino) j;
}.

(** The path is resolved and the file is read, on the machine. *)
Lemma find_and_read s bs fs comp path v p dir dfuel fuel sfuel ino F size nblk :
  namei_pre bs fs comp path v p s → namei_room (v_bsz v) bs → read_room (v_bsz v) (nblk * v_bsz v) bs →
  walkable (disk (drive s)) v dir dfuel (components p) EXT2_ROOT_INO →
  (length (components p) + dfuel < fuel)%nat → (256 ≤ sfuel)%nat →
  resolve dir (components p) EXT2_ROOT_INO = Some ino → file_on_drive (disk (drive s)) v ino F size nblk →
  ∃ s1 buf s2 n, ext2_namei spin fuel sfuel comp fs path s = Ok (ino, s1) ∧ ext2_read_file spin fs ino s1 = Ok (buf, s2) ∧
    kheap_inv (hp s2) (<[buf := n]> (live_map bs)) ∧ live_map bs !! buf = None ∧ size ≤ n ∧
    kernel_brk (hp s2) = kernel_brk (hp s) ∧ shifted F (s_mem s2) 0 buf size ∧
    (∀ x, path_byte bs comp x → ld8 (s_mem s2) x = ld8 (s_mem s) x).
Proof.
  intros Hpre Hr1 Hr2 Hwalk Hf1 Hf2 Hres [F1 F2 F3 F4 F5 F6 F7].
  destruct (namei_ok spin spin_pos bs fs comp path v p s dir dfuel fuel sfuel ino Hpre Hr1 Hwalk Hf1 Hf2 Hres)
    as (s1 & Hrun1 & Hk1 & Hok1 & Hm1).
  assert (fs_in (client_byte bs) (s_mem s1) fs v) as Hfs1.
  { apply (fs_in_weaken (path_byte bs comp)); [by intros x [? _]|].
    apply (fs_in_ext _ (s_mem s)); [done|]. apply (np_fs _ _ _ _ _ _ _ Hpre). }
  assert (wp (ext2_read_file spin fs ino) s1 (file_read bs v ino (nblk * v_bsz v) s1)) as Hw.
  { apply (read_file_ok spin spin_pos bs fs v ino s1 nblk); rewrite ?Hk1, ?F2; try done.
    apply (np_view _ _ _ _ _ _ _ Hpre). }
  apply wp_run in Hw as (buf & s2 & Hrun2 & n & bs2 & Hok2 & Hk2 & Hl & Hsp & Hn & Hc & _ & Hm2).
  rewrite Hk1, F2 in Hc. exists s1, buf, s2, n. split; [done|]. split; [done|].
  pose proof (np_ok _ _ _ _ _ _ _ Hpre) as (_ & _ & Hh0). destruct Hok2 as (_ & _ & Hh2).
  pose proof (live_keys bs2 (heap_pos _ _ Hh2)) as Hnd. pose proof Hnd as Hnd'. rewrite Hl, fmap_cons in Hnd'.
  apply list.NoDup_cons in Hnd' as [Hni _].
  assert (live_map bs2 = <[buf := n]> (live_map bs)) as Hmap.
  { unfold live_map. change (<[buf := n]> (list_to_map (live bs) : gmap Z Z)) with (list_to_map ((buf, n) :: live bs) : gmap Z Z).
    by apply list_to_map_proper. }
  split; [exists bs2; by rewrite Hmap|]. split; [by apply not_elem_of_list_to_map_1|].
  pose proof (np_view _ _ _ _ _ _ _ Hpre) as [[Hz _] _].
  pose proof (Z.div_mod (size + v_bsz v - 1) (v_bsz v) ltac:(lia)) as Hd.
  pose proof (Z.mod_pos_bound (size + v_bsz v - 1) (v_bsz v) ltac:(lia)). rewrite <- F5 in Hd.
  split; [lia|]. split; [rewrite (hk_brk _ _ Hh2), (hk_brk _ _ Hh0); by rewrite Hsp|].
  split; [intros j Hj; by rewrite Hc, Z.add_0_l, F7|].
  intros x Hx. rewrite Hm2 by apply Hx. by apply Hm1.
Qed.

(** The whole of [exec_elf] over the rest of the kernel, for a heap contract
    [HL] in which the objects are [B]; it holds once the file has been read. *)
Definition lends (HL : HeapLaws (console D)) K bs comp (B : gmap Z Z) : Prop :=
  (∀ c, @heap_room _ _ HL c = kheap_room (c_heap c)) ∧
  ∀ s2 buf n, kheap_inv (hp s2) (<[buf := n]> (live_map bs)) → live_map bs !! buf = None →
    (∀ x, path_byte bs comp x → ld8 (s_mem s2) x = ld8 (s_mem (c_machine (k_console K))) x) →
    heap_inv (set_c_machine s2 (k_console K)) (<[buf := n]> B) ∧ B !! buf = None.

Lemma exec_on_drive (HL : HeapLaws (console D)) B sym fuel K bs task t fs comp inode path v p dir dfuel ffuel sfuel ino F size nblk ky KU kg LK kvs
    (FS := rootfs_files spin ffuel sfuel fs comp inode) (s := c_machine (k_console K))
    (Ht : tasks K !! task = Some t) (Hlend : lends HL K bs comp B) (Ho : objects_ok (env K) B)
    (Hpre : namei_pre bs fs comp path v p s)
    (Hroom : namei_room (v_bsz v) bs ∧ read_room (v_bsz v) (nblk * v_bsz v) bs)
    (Hwalk : walkable (disk (drive s)) v dir dfuel (components p) EXT2_ROOT_INO)
    (Hffuel : (length (components p) + dfuel < ffuel)%nat ∧ (256 ≤ sfuel)%nat)
    (Hres : resolve dir (components p) EXT2_ROOT_INO = Some ino)
    (Hfile : file_on_drive (disk (drive s)) v ino F size nblk) (Helf : elf_ok F 0 size)
    (Hk : kernel_map sym (env K) ky KU kg LK kvs) (Hkvs : ∀ u, u ∈ kvs → ¬ reg u) (Hfuel : (length LK ≤ fuel)%nat)
    (Hav : (5 * (total_pages kvs + segs_pages (load_segments F 0) + 32) ≤ frame_avail (frames (env K)))%nat)
    (Hspace : 56 * Z.of_nat (length LK) + 120 * Z.of_nat (length (load_segments F 0)) + 168 <
      KERNEL_BRK_LIMIT - kernel_brk (c_heap (k_console K))) :
  ∃ K' a x T f L B', exec_elf sym fuel task path K = Ok (tt, K') ∧
    tasks K' = <[task := exec_task a F 0 t]> (tasks K) ∧ mms (env K) !! a = None ∧ objects_ok (env K') B' ∧
    program F 0 (load_segments F 0) kvs kg (env K) (env K') a x T f L ∧ untouched (env K) (env K') a T ∧
    space_blocks B B' a L.
Proof.
  destruct (find_and_read s bs fs comp path v p dir dfuel ffuel sfuel ino F size nblk Hpre (proj1 Hroom) (proj2 Hroom)
    Hwalk (proj1 Hffuel) (proj2 Hffuel) Hres Hfile) as (s1 & buf & s2 & n & Hrun1 & Hrun2 & Hinv & Hnew & Hn & Hbrk & Hsh & Hsame).
  destruct Hlend as [Hrm Hlend]. destruct (Hlend s2 buf n Hinv Hnew Hsame) as [Hinv2 Hnew2].
  set (h1 := set_c_machine s1 (k_console K)). set (h2 := set_c_machine s2 h1).
  assert (set_c_machine s2 (k_console K) = h2) as E2 by (unfold h2, h1; by destruct s1 as [? []], s2 as [? []], (k_console K) as [[]]).
  rewrite E2 in Hinv2.
  assert (heap_bytes h2 = s_mem s2) as Hbytes by (unfold h2; by destruct s2 as [? []], h1 as [[]]).
  assert (c_heap h2 = hp s2) as Hh2 by (unfold h2; by destruct s2 as [? []], h1 as [[]]).
  assert (in_machine (ext2_read_file spin fs ino) h1 = Ok (buf, h2)) as Hread
    by (apply in_machine_run; unfold h1; by rewrite c_machine_set).
  rewrite <- Hbytes in Hsh. pose proof (elf_ok_shift F _ buf size Hsh n Hn Helf) as Helf2.
  pose proof (load_segments_shift F _ buf size Hsh Helf) as Hseg.
  assert (e_entry (heap_bytes h2) buf = e_entry F 0) as Hentry by by apply (ehdr_shift F _ buf size Hsh), Helf.
  destruct (proj1 (wp_run _ _ _) (exec_elf_ok (HL := HL) (FS := FS) sym fuel K B task t path ino h1 h2 buf n ky KU kg LK kvs Ht Ho
    (in_machine_run _ _ _ _ Hrun1) Hread Hinv2 Hnew2 Helf2 Hk Hkvs Hfuel ltac:(by rewrite Hseg)
    ltac:(rewrite Hseg, Hrm; unfold kheap_room; rewrite Hh2, Hbrk; exact Hspace)))
    as ([] & K' & Hrun & a & x & T & f & L & B' & HT & Hfresh & Ho' & Hp & Hu & Hbl).
  exists K', a, x, T, f, L, B'. split; [done|].
  split; [rewrite HT; unfold exec_task, entry_regs; by rewrite Hentry|]. split; [done|]. split; [done|].
  split; [|by split]. rewrite Hseg in Hp. apply (program_shift F (heap_bytes h2) buf size); [done|apply Helf|exact Hp].
Qed.

(** The contract of the kernel's own heap. *)
Lemma console_lends K bs comp : lends console_heap_laws K bs comp (live_map bs).
Proof.
  split; [done|]. intros s2 buf n Hi Hn _. split; [|done].
  change (kheap_inv (c_heap (set_c_machine s2 (k_console K))) (<[buf := n]> (live_map bs))).
  by replace (c_heap (set_c_machine s2 (k_console K))) with (hp s2) by (by destruct s2 as [? []], (k_console K) as [[]]).
Qed.

(** C6: [exec_elf] runs a program from the drive.  On the kernel's state, for a
    path that resolves, directory by directory and by whole names, to the inode
    of a well-formed ELF file: the task's new address space holds, at the
    addresses that the program headers name, the bytes that the blocks of the
    inode have on the drive, with zeros behind them, a zeroed stack and the
    kernel, in frames of its own; execution starts at the entry point of the
    file.  The blocks of the heap are then those of before and the objects of
    the new space, so no buffer of the lookup nor the file stays allocated, and
    every other task, address space and frame is as before.  The conditions are
    those under which the file system of the kernel reads right: no directory on
    the way has a name in use that is shorter and that the component starts with, no
    inode on the way is the last of its group ([walkable], [file_on_drive]), the
    file is not empty and has at most 12 + bsz/4 blocks, and the heap has room
    for the buffers of each stage. *)
Theorem exec_from_drive sym fuel K bs task t fs comp inode path v p dir dfuel ffuel sfuel ino F size nblk ky KU kg LK kvs
    (FS := rootfs_files spin ffuel sfuel fs comp inode) (s := c_machine (k_console K))
    (Ht : tasks K !! task = Some t) (Ho : objects_ok (env K) (live_map bs))
    (Hpre : namei_pre bs fs comp path v p s)
    (Hroom : namei_room (v_bsz v) bs ∧ read_room (v_bsz v) (nblk * v_bsz v) bs)
    (Hwalk : walkable (disk (drive s)) v dir dfuel (components p) EXT2_ROOT_INO)
    (Hffuel : (length (components p) + dfuel < ffuel)%nat ∧ (256 ≤ sfuel)%nat)
    (Hres : resolve dir (components p) EXT2_ROOT_INO = Some ino)
    (Hfile : file_on_drive (disk (drive s)) v ino F size nblk) (Helf : elf_ok F 0 size)
    (Hk : kernel_map sym (env K) ky KU kg LK kvs) (Hkvs : ∀ u, u ∈ kvs → ¬ reg u) (Hfuel : (length LK ≤ fuel)%nat)
    (Hav : (5 * (total_pages kvs + segs_pages (load_segments F 0) + 32) ≤ frame_avail (frames (env K)))%nat)
    (Hspace : 56 * Z.of_nat (length LK) + 120 * Z.of_nat (length (load_segments F 0)) + 168 <
      KERNEL_BRK_LIMIT - kernel_brk (c_heap (k_console K))) :
  ∃ K' a x T f L B', exec_elf sym fuel task path K = Ok (tt, K') ∧
    tasks K' = <[task := exec_task a F 0 t]> (tasks K) ∧ mms (env K) !! a = None ∧ objects_ok (env K') B' ∧
    program F 0 (load_segments F 0) kvs kg (env K) (env K') a x T f L ∧ untouched (env K) (env K') a T ∧
    space_blocks (live_map bs) B' a L.
Proof.
  apply (exec_on_drive console_heap_laws (live_map bs) sym fuel K bs task t fs comp inode path v p dir dfuel ffuel sfuel ino F size nblk
    ky KU kg LK kvs); try done. apply console_lends.
Qed.
End drive.

(** ** A drive with the program of [ExecSpec] at "/bin/sh" *)
Definition ex_elf_image : mem := put_bytes (st32 ex_image 4484 124) 7168 ex_elf.
Definition ex_drive_console : console sim :=
  Console (Term (drive (ex_disk_of ex_elf_image)) (Vgaterm ∅ 0 0 7 VGATERM_BUF_START)) (h_mem (init_heap ex_fs_mem))
    KERNEL_BRK_START (KERNEL_BRK_START + INIT_HEAP_SIZE) true 0.

(** The inode 4 of the drive with the bytes [img] is that file. *)
Definition ex_elf_bytes (img : mem) : bool :=
  forallb (λ k, ld8 (put_bytes ∅ 0 ex_elf) (Z.of_nat k) =? file_byte (ex_bytes_of img) 1024 4480 (Z.of_nat k)) (seq 0 124).
Lemma ex_elf_file_on img :
  disk_size (ex_bytes_of img) 4480 = 124 → 0 ≤ disk_blocks (ex_bytes_of img) 4480 →
  disk_file_block_ok (ex_bytes_of img) 1024 4480 0 → ex_elf_bytes img = true →
  file_on_drive (ex_bytes_of img) ex_view 4 (put_bytes ∅ 0 ex_elf) 124 1.
Proof.
  intros Hs Hb Hok Hall. split; [by apply ex_ino_ok|exact Hs|done|done|done| |].
  - split; [by vm_compute|]. split; [change (1 - 1) with 0; exact Hb|]. intros k Hk. assert (k = 0) as -> by lia. exact Hok.
  - intros j Hj. unfold ex_elf_bytes in Hall. rewrite forallb_forall in Hall. specialize (Hall (Z.to_nat j) ltac:(apply in_seq; lia)).
    cbv beta in Hall. rewrite Z2Nat.id in Hall by lia. apply Z.eqb_eq in Hall. exact Hall.
Qed.
Lemma ex_elf_file : file_on_drive (ex_bytes_of ex_elf_image) ex_view 4 (put_bytes ∅ 0 ex_elf) 124 1.
Proof. by apply ex_elf_file_on; vm_compute. Qed.

(** The kernel with only its own map, on that drive. *)
Lemma ex_drive_kernel : ∃ (e : vm pmm (console sim)) ky KU kg,
  kheap e = ex_drive_console ∧ objects_ok e (live_map ex_blocks) ∧
  kernel_map ex_sym e ky KU kg [(kernel_vma_li ex_sym, kernel_vma ex_sym)] [ex_text] ∧ (235 ≤ frame_avail (frames e))%nat.
Proof.
  destruct ex_kernel as (s & y & U & g & _ & Hk & Ho & Hav & _ & _).
  exists (Vm (frames s) ex_drive_console (mms s) (vmas s) (lis s)), y, U, g. split; [done|]. split; [|split; [|done]].
  - destruct Ho as [_ O1 O2 O3]. change (live_map ex_blocks) with (∅ : gmap Z Z). split; [|exact O1|exact O2|exact O3].
    exists ex_blocks. split; [apply init_heap_ok|done].
  - destruct Hk as [[A1 A2] [A3 A4] A5 A6]. split; [by split|by split|done|done].
Qed.

Lemma exec_from_drive_witness : ∃ (K K' : sched (vm pmm (console sim))) t',
  exec_elf (FS := rootfs_files 3 6 256 256 8192 0) ex_sym 1 4096 3500 K = Ok (tt, K') ∧
  tasks K' !! 4096 = Some t' ∧ rip (task_regs t') = 0x400078 ∧ rsp (task_regs t') = 0x7fffffffe000.
Proof.
  destruct ex_drive_kernel as (e & ky & KU & kg & Hc & Ho & Hk & Hav).
  set (K := Sched e {[4096 := zero_task]} ∅ 4096 4096 1000 0 0 0 0).
  assert (c_machine (k_console K) = ex_disk_of ex_elf_image) as Hm by (unfold k_console; simpl env; by rewrite Hc).
  destruct (exec_from_drive 3 ex_polls ex_sym 1 K ex_blocks 4096 zero_task 256 8192 0 3500 ex_view
    [98; 105; 110; 47; 115; 104] ex_dir 3 6 256 4 (put_bytes ∅ 0 ex_elf) 124 1 ky KU kg
    [(kernel_vma_li ex_sym, kernel_vma ex_sym)] [ex_text])
    as (K' & a & x & T & f & L & B' & He & HT & _); rewrite ?Hm, ?ex_elf_segments; try done.
  - apply ex_namei_pre. by vm_compute.
  - split; [apply ex_namei_room|]. split_and!; [left; by vm_compute|right; left; by vm_compute|right; left; by vm_compute|
      right; right; left; by vm_compute].
  - apply (ex_walkable ex_elf_image);
      [change (disk_block _ _ 0 * 1024) with 5120|change (disk_block _ _ 0 * 1024) with 6144]; ex_solve.
  - simpl. lia.
  - exact ex_elf_file.
  - by apply ex_elf_ok.
  - intros v ->%list_elem_of_singleton. done.
  - change (5 * (total_pages [ex_text] + segs_pages [ex_seg] + 32))%nat with 170%nat. change (env K) with e. lia.
  - unfold k_console. simpl env. rewrite Hc. by vm_compute.
  - exists K, K', (exec_task a (put_bytes ∅ 0 ex_elf) 0 zero_task). split; [exact He|]. split; [by rewrite HT, lookup_insert_eq|].
    split; [|reflexivity]. change (e_entry (put_bytes ∅ 0 ex_elf) 0 = 0x400078). apply ex_elf_header.
Defined.
