(* ===== verification/KernelProps.v ===== *)
(** The invariant of the running kernel: whatever sequence of system calls,
    resumed calls and interrupts it handles, the ring of runnable tasks is well
    formed, and a task that sleeps in the terminal is off the ring.

    Most of the code of a system call does not touch what the invariant is
    about; [calm] says so, and a hint database composes it along the code. *)

From S2P Require Import Prelude Layout Memory Interfaces Pmm PageTable Kmalloc Mm Printf Sched Ata Ext2 Vga Tty Idt.
From S2P Require Import Exec Rootfs Syscall Kernel.

(** ** Computations that keep the scheduler's invariant *)
Definition calm {E A} (m : M (sched E) A) : Prop := ∀ w, keeps (sched_inv w) m (λ _, True).

Create HintDb calm.

Lemma sched_inv_view {E F} w (s : sched E) (s' : sched F) :
  current s' = current s → tasks s' = tasks s → sched_inv w s → sched_inv w s'.
Proof.
  intros Hc Ht (r & [H1 H2 H3 H4 H5] & H6). exists r. rewrite Hc, Ht. split; [split; rewrite ?Ht, ?Hc; auto|done].
Qed.

Section calm.
Context {E : Type}.

Lemma calm_ret {A} (a : A) : calm (@mret_ (sched E) A a).
Proof. intros w. by apply keeps_ret. Qed.
Lemma calm_bind {A B} (m : M (sched E) A) (f : A → M (sched E) B) : calm m → (∀ a, calm (f a)) → calm (mbind_ m f).
Proof. intros Hm Hf w. eapply keeps_bind; [apply Hm|]. intros a _. apply Hf. Qed.
Lemma calm_gets {A} (f : sched E → A) : calm (gets f).
Proof. intros w. apply keeps_gets. Qed.
Lemma calm_fault {A} : calm (@fault (sched E) A).
Proof. intros w. apply keeps_fault. Qed.
Lemma calm_panic {A} msg : calm (@panic (sched E) A msg).
Proof. by intros w s _. Qed.
Lemma calm_nofuel {A} : calm (@nofuel (sched E) A).
Proof. intros w. apply keeps_nofuel. Qed.
Lemma calm_from_opt {A} (o : option A) : calm (@from_opt (sched E) A o).
Proof. intros w. apply keeps_from_opt. Qed.
Lemma calm_tget {A} (f : task_struct → A) t : calm (E := E) (tget f t).
Proof. intros w. apply keeps_tget. Qed.
Lemma calm_tset f t : harmless f → calm (E := E) (tset f t).
Proof. intros Hf w. by apply keeps_tset. Qed.
Lemma calm_view {A} (m : M (sched E) A) : (∀ s, wlp m s (λ _ s', same_view s s')) → calm m.
Proof.
  intros Hm w s Hs. specialize (Hm s). unfold wlp in Hm. destruct (m s) as [[a s']| | |]; [|done..].
  destruct Hm as [H1 H2]. split; [|done]. by eapply sched_inv_view.
Qed.
Lemma calm_in_env {A} (m : M E A) : calm (in_env m).
Proof. apply calm_view. intros s. apply in_env_wlp. Qed.
Lemma calm_files fs : calm (E := E) (modify (set_files fs)).
Proof. apply calm_view. intros s. apply wlp_modify. by destruct s. Qed.
Lemma calm_modify_files f : calm (E := E) (modify (λ s, set_files (f (files s)) s)).
Proof. apply calm_view. intros s. apply wlp_modify. by destruct s. Qed.
Lemma calm_cpu f1 f2 f3 f4 : calm (E := E) (modify (λ s, set_cpu (f1 s) (f2 s) (f3 s) (f4 s) s)).
Proof. apply calm_view. intros s. apply wlp_modify. by destruct s. Qed.
End calm.

#[export] Hint Resolve calm_ret calm_bind calm_gets calm_fault calm_panic calm_nofuel calm_from_opt calm_tget calm_tset
  calm_in_env calm_files calm_modify_files calm_cpu : calm.

Lemma calm_wlp {E A} (m : M (sched E) A) w s : calm m → sched_inv w s → wlp m s (λ _ s', sched_inv w s').
Proof. intros Hm Hs. eapply wlp_mono; [exact (keeps_wlp _ _ _ _ (Hm w) Hs)|]. by intros a s' [? _]. Qed.

Lemma harmless_fields f : (∀ y, next (f y) = next y) → (∀ y, prev (f y) = prev y) → (∀ y, state (f y) = state y) →
  (∀ y, sibling (f y) = sibling y) → harmless f.
Proof. intros H1 H2 H3 H4. split; [by split|]. split; [done|]. intros y. by rewrite H4. Qed.
#[export] Hint Extern 1 (harmless _) => apply harmless_fields; by intros [] : calm.

Ltac calm :=
  repeat first
    [ progress intros
    | progress cbv beta
    | lazymatch goal with
      | |- calm (mbind_ _ _) => apply calm_bind
      | |- calm (match ?x with _ => _ end) => destruct x
      | |- calm _ => solve [eauto 2 with calm nocore]
      end ].

(** ** System calls *)
Section syscalls.
Context {St : Type} {FO : FrameOps St} {H : Type} {HO : HeapOps H} {FS : FileSystem H}.
Context {TF : TtyFiles (sched (vm St H))}.
Variables (sym : statics) (fuel : nat) (ops_at : fops).
Abbreviation kst := (sched (vm St H)).

Lemma exec_loop_calm n task buf ph i : calm (exec_loop (St := St) n task buf ph i).
Proof. revert i. induction n as [|n IH]; intros i; cbn [exec_loop]; calm; apply IH. Qed.

Lemma exec_elf_calm task path : calm (exec_elf (St := St) sym fuel task path).
Proof. unfold exec_elf. calm. apply exec_loop_calm. Qed.

Lemma sched_exec_calm path t : calm (sched_exec (St := St) sym fuel path t).
Proof. unfold sched_exec, p4_of, switch_cr3. calm. apply exec_elf_calm. Qed.

Lemma do_open_calm path : calm (do_open (St := St) ops_at path).
Proof. unfold do_open, alloc_file, open_inode, set_mode_ops, get_file, put_file, set_fd. calm. Qed.

Lemma get_fd_calm t fd : calm (get_fd (St := St) (H := H) t fd).
Proof. unfold get_fd. calm. Qed.
Lemma get_file_calm p : calm (get_file (St := St) (H := H) p).
Proof. unfold get_file. calm. Qed.

Lemma do_close_calm fd : calm (do_close (St := St) fd).
Proof. unfold do_close, get_fd, get_file, set_fd. calm. Qed.
End syscalls.

(** ** Computations that leave the environment of the tasks alone *)
Section still.
Context {E : Type} {TO : TaskOps E}.

Definition still {A} (m : M (sched E) A) : Prop := ∀ e, keeps (λ s, env s = e) m (λ _, True).

Lemma still_bind {A B} (m : M (sched E) A) (f : A → M (sched E) B) :
  still m → (∀ a, still (f a)) → still (mbind_ m f).
Proof. intros Hm Hf e. eapply keeps_bind; [apply Hm|]. intros a _. apply Hf. Qed.
Lemma still_tget {A} (f : task_struct → A) t : still (tget f t).
Proof. intros e. apply keeps_tget. Qed.
Lemma still_tset f t : still (tset f t).
Proof. intros e s <-. unfold tset. destruct (tasks s !! t); [|done]. by destruct s. Qed.
Lemma still_gets {A} (f : sched E → A) : still (gets f).
Proof. intros e. apply keeps_gets. Qed.
Lemma still_switch_to t : still (switch_to t).
Proof.
  unfold switch_to. apply still_bind; [apply still_gets|intros c]. apply still_bind; [by intros e [] <-|intros _].
  apply still_bind; [apply still_tget|intros p1]. apply still_bind; [apply still_tget|intros p2].
  destruct (p1 =? p2); [by intros e s _|]. do 3 (apply still_bind; [apply still_tget|intros ?]).
  apply still_bind; [apply still_gets|intros ?]. apply still_bind; [by intros e [] <-|intros _]. apply still_tset.
Qed.
Lemma still_remove t : still (sched_rr_remove_proc t).
Proof. unfold sched_rr_remove_proc. repeat first [apply still_tset | apply still_bind; [apply still_tget || apply still_tset|intros ?]]. Qed.
Lemma still_sleep : still schedule_sleep.
Proof.
  unfold schedule_sleep. apply still_bind; [apply still_gets|intros c]. apply still_bind; [apply still_tset|intros _].
  apply still_bind; [apply still_tget|intros n]. apply still_bind; [apply still_remove|intros _]. apply still_switch_to.
Qed.
Lemma still_preempt : still sched_maybe_preempt.
Proof.
  unfold sched_maybe_preempt. apply still_bind; [apply still_gets|intros c]. apply still_bind; [apply still_tget|intros t].
  apply still_bind; [apply still_tset|intros _]. destruct (_ <? _); [by intros e s <-|].
  unfold schedule. apply still_bind; [apply still_gets|intros c']. apply still_bind; [apply still_tset|intros _].
  apply still_bind; [apply still_tget|intros n]. destruct (_ =? _); [by intros e s <-|]. apply still_switch_to.
Qed.

Lemma still_insert t : still (sched_rr_insert_proc t).
Proof.
  unfold sched_rr_insert_proc. apply still_bind; [apply still_gets|intros c].
  repeat first [apply still_tset | apply still_bind; [apply still_tget || apply still_tset|intros ?]].
Qed.
Lemma still_exit t status : still (do_exit t status).
Proof.
  unfold do_exit. do 2 (apply still_bind; [apply still_tset|intros _]). do 2 (apply still_bind; [apply still_tget|intros ?]).
  apply still_bind; [|intros _; apply still_sleep]. destruct (decide _); [|by intros e s].
  apply still_bind; [apply still_insert|intros _; apply still_tset].
Qed.
End still.

(** ** The terminal *)
Section terminal.
Context {D : Type} {PO : PortOps D}.

(** Code that changes neither the memory nor the tasks. *)
Definition quiet {A} (m : M (sched (console D)) A) : Prop := ∀ ts c cm g,
  keeps (λ s, tasks s = ts ∧ current s = c ∧ c_mem (env s) = cm ∧ global_tty (env s) = g) m (λ _, True).

Lemma quiet_bind {A B} (m : M (sched (console D)) A) (f : A → M (sched (console D)) B) :
  quiet m → (∀ a, quiet (f a)) → quiet (mbind_ m f).
Proof. intros Hm Hf ts c cm g. eapply keeps_bind; [apply Hm|]. intros a _. apply Hf. Qed.
Lemma quiet_ret {A} (a : A) : quiet (mret_ a).
Proof. intros ts c cm g. by apply keeps_ret. Qed.
Lemma quiet_env {A} (m : M (console D) A) :
  (∀ cm g, keeps (λ c, c_mem c = cm ∧ global_tty c = g) m (λ _, True)) → quiet (in_env m).
Proof.
  intros Hm ts c cm g s (H1 & H2 & H3 & H4). specialize (Hm cm g (env s) (conj H3 H4)). unfold in_env.
  destruct (m (env s)) as [[a e]| | |]; [|done..]. destruct Hm as [[H5 H6] _].
  by rewrite tasks_set_env, current_set_env, env_set.
Qed.
Lemma term_keeps {A} (m : M (term D) A) cm g : keeps (λ c, c_mem c = cm ∧ global_tty c = g) (in_term m) (λ _, True).
Proof. intros c Hc. unfold in_term. by destruct (m (c_term c)) as [[]| | |]. Qed.
Lemma quiet_port {A} (m : M D A) : quiet (port m).
Proof. apply quiet_env, term_keeps. Qed.

Lemma quiet_printf sfuel fmt va : quiet (printf sfuel fmt va).
Proof.
  apply quiet_env. intros cm g. unfold printf_, vprintf_, _vsnprintf.
  set (I := λ c : console D, c_mem c = cm ∧ global_tty c = g).
  set (out := _out_char (λ ch, in_term (_putchar ch))).
  assert (∀ c i n, keeps I (out c i n) (λ _, True)) as Ho.
  { intros c i n. unfold out, _out_char. destruct (negb _); [apply term_keeps|by apply keeps_ret]. }
  eapply keeps_bind.
  - apply (loop_keeps _ out sfuel I (2 ^ 64 - 1)); [|lia]. intros c i _. apply Ho.
  - intros i _. eapply keeps_bind; [apply Ho|]. intros _ _. by apply keeps_ret.
Qed.

Context {TO : TaskOps (console D)}.

Lemma wlp_conj {S A} (m : M S A) s (P Q : A → S → Prop) : wlp m s P → wlp m s Q → wlp m s (λ a s', P a s' ∧ Q a s').
Proof. unfold wlp. by destruct (m s) as [[]| | |]. Qed.
Lemma still_wlp {A} (m : M (sched (console D)) A) s : still m → wlp m s (λ _ s', env s' = env s).
Proof. intros Hm. eapply wlp_mono; [by apply (keeps_wlp _ _ _ _ (Hm (env s)))|]. by intros a s' [? _]. Qed.
Lemma quiet_wlp {A} (m : M (sched (console D)) A) s : quiet m → wlp m s (λ _ s', tasks s' = tasks s ∧ current s' = current s ∧
  c_mem (env s') = c_mem (env s) ∧ global_tty (env s') = global_tty (env s)).
Proof.
  intros Hm. eapply wlp_mono; [by apply (keeps_wlp _ _ _ _ (Hm (tasks s) (current s) (c_mem (env s)) (global_tty (env s))))|].
  by intros a s' [? _].
Qed.

(** The invariant on the state of the terminal. *)
Definition tty_inv (s : sched (console D)) : Prop :=
  sched_inv (tty_waiting (env s)) s ∧ 0 ≤ tty_bufi (env s) ≤ TTY_BUF_SIZE + 1.

Lemma tty_inv_view (s s' : sched (console D)) : tasks s' = tasks s ∧ current s' = current s ∧
  c_mem (env s') = c_mem (env s) ∧ global_tty (env s') = global_tty (env s) → tty_inv s → tty_inv s'.
Proof.
  intros (H1 & H2 & H3 & H4) [Hi Hb]. unfold tty_inv, tty_waiting, tty_bufi in *. rewrite H3, H4. split; [|done].
  by eapply sched_inv_view.
Qed.

Lemma tty_fields m g (c : console D) : c_mem c = m → global_tty c = g →
  tty_waiting c = ld64 m (g + 1032) ∧ tty_bufi c = s32 (ld32 m g) ∧ tty_buf c = g + 4.
Proof.
  intros <- <-. unfold tty_waiting, tty_bufi, tty_buf. change (field_of false tty "waiting_task") with 1032.
  change (field_of false tty "bufi") with 0. change (field_of false tty "buf") with 4. by rewrite Z.add_0_r.
Qed.

Lemma stdin_read_inv f buf n s : tty_inv s → 0 ≤ current s < 2 ^ 64 →
  wlp (stdin_read f buf n) s (λ _ s', tty_inv s').
Proof.
  intros [Hi Hb] Hc. unfold stdin_read. apply wlp_bind, wlp_gets. cbv beta.
  destruct (Z.eqb_spec (tty_waiting (env s)) 0) as [H0|]; [|done]. rewrite H0 in Hi. cbn [negb]. apply wlp_bind, wlp_gets.
  apply wlp_bind. unfold setc. apply (wlp_mono _ _ (λ _ s1, s1 = set_env (set_waiting (current s) (env s)) s)); [done|].
  intros _ s1 ->. set (s1 := set_env _ s). assert (current s1 = current s) as E1 by apply current_set_env.
  assert (sched_inv 0 s1) as Hi1 by (eapply sched_inv_view; [apply E1|apply tasks_set_env|exact Hi]).
  eapply wlp_mono; [apply wlp_conj; [by apply park_inv|apply still_wlp, still_sleep]|].
  intros _ s2 [Hi2 He2]. assert (env s2 = set_waiting (current s) (env s)) as Es by (rewrite He2; apply env_set).
  destruct (tty_fields _ _ (env s) eq_refl eq_refl) as (_ & B0 & _). rewrite B0 in Hb.
  destruct (tty_fields (st64 (c_mem (env s)) (global_tty (env s) + 1032) (current s)) (global_tty (env s)) (env s2)) as (W2 & B2 & _);
    [by rewrite Es|by rewrite Es|].
  split.
  - rewrite W2, ld64_st64_eq by done. by rewrite <- E1.
  - rewrite B2. unfold ld32, st64. by rewrite ld_st_ne by (cbn; lia).
Qed.

Lemma tty_send_key_inv sfuel key s : tty_inv s → wlp (tty_send_key sfuel key) s (λ _ s', tty_inv s').
Proof.
  intros [Hi Hb]. unfold tty_send_key. apply wlp_bind, wlp_gets. cbv beta. set (b := tty_bufi (env s)) in *.
  destruct (Z.ltb_spec TTY_BUF_SIZE b); [done|]. change TTY_BUF_SIZE with 1024 in *.
  apply wlp_bind. apply (wlp_mono _ _ (λ _ s1, s1 = set_env (put_char b (key_map key) (env s)) s)); [done|]. intros _ s1 ->.
  apply wlp_bind. apply (wlp_mono _ _ (λ _ s1, s1 = set_env (set_bufi (b + 1) (put_char b (key_map key) (env s))) s)).
  { unfold setc, wlp, in_env, modify. by rewrite env_set, set_env_twice. }
  intros _ s1 ->. set (c1 := set_bufi _ _). set (s1 := set_env c1 s). set (g := global_tty (env s)).
  destruct (tty_fields _ _ (env s) eq_refl eq_refl) as (W0 & B0 & F0). fold g in W0, B0, F0.
  assert (c_mem c1 = st32 (st8 (c_mem (env s)) (g + 4 + b) (key_map key)) g (b + 1)) as M1.
  { unfold c1, set_bufi. cbn [c_mem set_c_mem put_char global_tty]. rewrite F0. fold g.
    change (field_of false tty "bufi") with 0. by rewrite Z.add_0_r. }
  destruct (tty_fields _ g c1 M1 eq_refl) as (W1 & B1 & _).
  assert (tty_waiting c1 = tty_waiting (env s)) as HW.
  { rewrite W1, W0. apply ld_ext. intros x Hx. cbn in Hx. unfold st32. rewrite ld8_st_ne by (cbn; lia).
    apply ld8_st8_ne. lia. }
  assert (tty_bufi c1 = b + 1) as HB.
  { rewrite B1. unfold ld32, st32. rewrite ld_st_eq. cbn. rewrite Z.mod_small, s32_small by lia. done. }
  assert (tty_inv s1) as H1.
  { unfold s1. split; rewrite env_set; [|rewrite HB; change TTY_BUF_SIZE with 1024; lia]. rewrite HW.
    eapply sched_inv_view; [apply current_set_env|apply tasks_set_env|exact Hi]. }
  apply wlp_bind, (wlp_mono _ _ (λ _ s2, tty_inv s2)).
  2:{ intros _ s2 H2. apply wlp_bind. eapply wlp_mono; [apply quiet_wlp, quiet_printf|]. intros r s3 H3. apply wlp_ret.
      exact (tty_inv_view _ _ H3 H2). }
  destruct (key =? key_code KEY_ENTER); [|by apply wlp_ret]. apply wlp_bind, wlp_gets. cbv beta.
  destruct (Z.eqb_spec (tty_waiting (env s1)) 0) as [|Hw]; [by apply wlp_ret|]. cbn [negb].
  destruct H1 as [H1 H1b]. apply wlp_bind. eapply wlp_mono; [by apply wp_wlp, unpark_inv|]. intros _ s2 [H2 Ho].
  assert (env s2 = env s1) as E2 by (rewrite Ho; by destruct s1).
  apply (wlp_mono _ _ (λ _ s3, s3 = set_env (set_waiting 0 (env s2)) s2)); [done|]. intros _ s3 ->.
  rewrite E2. set (c2 := set_waiting 0 (env s1)).
  destruct (tty_fields _ _ (env s1) eq_refl eq_refl) as (_ & B2 & _).
  destruct (tty_fields (st64 (c_mem (env s1)) (global_tty (env s1) + 1032) 0) (global_tty (env s1)) c2 eq_refl eq_refl) as (W3 & B3 & _).
  split; rewrite env_set.
  - rewrite W3, ld64_st64_eq by lia. eapply sched_inv_view; [apply current_set_env|apply tasks_set_env|exact H2].
  - rewrite B2 in H1b. rewrite B3. unfold ld32, st64. by rewrite ld_st_ne by (cbn; lia).
Qed.

Lemma wlp_modify_env f s (Q : unit → sched (console D) → Prop) : Q tt (set_env (f (env s)) s) → wlp (setc f) s Q.
Proof. done. Qed.
Lemma release_inv b s : tty_inv s → wlp (setc (set_release b)) s (λ _ s', tty_inv s').
Proof. intros Hs. apply wlp_modify_env. apply (tty_inv_view s); [by destruct s|done]. Qed.

Lemma ps2_key_in_inv sfuel s : tty_inv s → wlp (ps2_key_in sfuel) s (λ _ s', tty_inv s').
Proof.
  intros Hs. unfold ps2_key_in. apply wlp_bind. eapply wlp_mono; [apply quiet_wlp, quiet_port|]. intros data s1 H1.
  assert (tty_inv s1) as Hs1 by exact (tty_inv_view _ _ H1 Hs). apply wlp_bind, wlp_gets. cbv beta.
  destruct (release (env s1)); [by apply release_inv|]. destruct (data =? 0xf0); [by apply release_inv|].
  apply wlp_bind. destruct (sc_map !! Z.to_nat data); [|done]. apply wlp_ret. by apply tty_send_key_inv.
Qed.

Lemma preempt_tty_inv s : tty_inv s → wlp sched_maybe_preempt s (λ _ s', tty_inv s').
Proof.
  intros [Hi Hb]. eapply wlp_mono; [apply wlp_conj; [by apply preempt_inv|apply still_wlp, still_preempt]|].
  intros _ s' [H1 H2]. unfold tty_inv. by rewrite H2.
Qed.

Lemma isr_inv sfuel ctx s : tty_inv s → wlp (isr_main_entry sfuel ctx) s (λ _ s', tty_inv s').
Proof.
  intros Hs. unfold isr_main_entry. apply wlp_bind, wlp_gets. cbv beta. set (vec := Z.land _ _).
  apply wlp_bind. apply (wlp_mono _ _ (λ _ s1, tty_inv s1)).
  { unfold send_eoi. apply wlp_bind. apply (wlp_mono _ _ (λ _ s1, tty_inv s1)).
    - destruct (_ <=? _); [|by apply wlp_ret]. eapply wlp_mono; [apply quiet_wlp, quiet_port|]. intros a s1 H1.
      exact (tty_inv_view _ _ H1 Hs).
    - intros a s1 Hs1. eapply wlp_mono; [apply quiet_wlp, quiet_port|]. intros a' s2 H2. exact (tty_inv_view _ _ H2 Hs1). }
  intros _ s1 Hs1. do 3 (destruct (_ =? _); [done|]).
  destruct (_ =? _); [by apply preempt_tty_inv|]. destruct (_ =? _); [by apply ps2_key_in_inv|by apply wlp_ret].
Qed.
End terminal.

(** ** The whole kernel *)
Section kernel.
Context {D : Type} {PO : PortOps D} {FS : FileSystem (console D)}.
Variables (sym : statics) (fuel sfuel : nat) (ops_at : fops).
Abbreviation kst := (sched (vm pmm (console D))).
#[local] Instance tf : TtyFiles kst := kernel_tty sfuel.

(** The ring is well formed with the task that sleeps in the terminal off it. *)
Definition kernel_inv (s : kst) : Prop :=
  sched_inv (waiting s) s ∧ 0 ≤ tty_bufi (k_console s) ≤ TTY_BUF_SIZE + 1.

Lemma in_tty_wlp {A} (m : TaskOps (console D) → M (sched (console D)) A) (s : kst) Q :
  wlp (m (tty_task_ops (env s))) (with_env (k_console s) s) (λ a s', Q a (with_env (set_kheap (env s') (env s)) s')) →
  wlp (in_tty m) s Q.
Proof. unfold wlp, in_tty. by destruct (m _ _) as [[]| | |]. Qed.

Lemma with_env_eq {E F} (e : F) (s : sched E) :
  env (with_env e s) = e ∧ tasks (with_env e s) = tasks s ∧ current (with_env e s) = current s.
Proof. by destruct s. Qed.

(** The two views of the invariant. *)
Lemma to_tty (s : kst) : kernel_inv s → tty_inv (with_env (k_console s) s).
Proof.
  intros [H1 H2]. destruct (with_env_eq (k_console s) s) as (E1 & E2 & E3). split; rewrite E1; [|done].
  by eapply sched_inv_view.
Qed.
Lemma of_tty (e : vm pmm (console D)) (s' : sched (console D)) : tty_inv s' → kernel_inv (with_env (set_kheap (env s') e) s').
Proof.
  intros [H1 H2]. destruct (with_env_eq (set_kheap (env s') e) s') as (E1 & E2 & E3).
  unfold kernel_inv, waiting, k_console. rewrite E1. cbn [kheap set_kheap]. split; [|done]. by eapply sched_inv_view.
Qed.
Lemma in_tty_inv {A} (m : TaskOps (console D) → M (sched (console D)) A) (s : kst) :
  (∀ TO s', current s' = current s → tty_inv s' → wlp (m TO) s' (λ _ s'', tty_inv s'')) → kernel_inv s →
  wlp (in_tty m) s (λ _ s', kernel_inv s').
Proof.
  intros Hm Hs. apply in_tty_wlp. eapply wlp_mono; [apply Hm; [apply with_env_eq|by apply to_tty]|].
  intros a s' Hs'. by apply of_tty.
Qed.

(** System calls other than a read. *)
Lemma calm_current {A} (f : Z → M kst A) :
  (∀ w s, sched_inv w s → wlp (f (current s)) s (λ _ s', sched_inv w s')) → calm (let* c := gets current in f c).
Proof.
  intros Hf w s Hs. specialize (Hf w s Hs). unfold mbind_, gets, wlp in *. by destruct (f (current s) s) as [[]| | |].
Qed.

Lemma stdout_write_calm f buf n : calm (tty_stdout_write (TtyFiles := tf) f buf n).
Proof.
  cbn [tty_stdout_write tf kernel_tty]. apply calm_bind; [|intros; apply calm_ret]. apply calm_view. intros s. apply in_tty_wlp.
  unfold stdout_write. apply wlp_bind. eapply wlp_mono; [apply quiet_wlp, quiet_printf|]. intros r s1 (H1 & H2 & _).
  apply wlp_ret. destruct (with_env_eq (set_kheap (env s1) (env s)) s1) as (_ & E2 & E3).
  destruct (with_env_eq (k_console s) s) as (_ & E4 & E5). split; congruence.
Qed.

(** The operations that a table can hold. *)
Definition table (o : file_ops kst) : Prop :=
  o = FileOps None None None ∨ o = FileOps None None (Some ext2_getdents_file) ∨
  o = FileOps (Some tty_stdin_read) None None ∨ o = FileOps None (Some tty_stdout_write) None.
Lemma ops_of_table (P : kst → Prop) a : keeps P (ops_of ops_at a) table.
Proof.
  intros s Hs. unfold ops_of. do 4 (destruct (_ =? _); [split; [done|unfold table; tauto]|]). done.
Qed.

Lemma file_op_calm op fd buf count :
  (∀ o g, table o → op o = Some g → ∀ p, calm (g p buf count)) → calm (sys_file_op ops_at op fd buf count).
Proof.
  intros Hop w. unfold sys_file_op. eapply keeps_bind; [apply calm_gets|]. intros c _.
  eapply keeps_bind; [apply get_fd_calm|]. intros p _. destruct (p =? 0); [apply calm_panic|].
  eapply keeps_bind; [apply get_file_calm|]. intros f _. eapply keeps_bind; [apply ops_of_table|]. intros o Ho.
  destruct (op o) as [g|] eqn:E; [|apply calm_panic]. by apply (Hop o g).
Qed.

Lemma sys_write_calm fd buf count : calm (sys_write ops_at fd buf count).
Proof.
  apply file_op_calm. intros o g [->|[->|[->| ->]]]; [done..|]. intros [= <-] p. apply stdout_write_calm.
Qed.
Lemma sys_getdents_calm fd buf count : calm (sys_getdents ops_at fd buf count).
Proof.
  apply file_op_calm. intros o g [->|[->|[->| ->]]]; [done| |done|done]. intros [= <-] p.
  unfold ext2_getdents_file, get_file, some_result. calm.
Qed.
Lemma sys_wait_calm wstatus : calm (sys_wait sym fuel wstatus).
Proof.
  unfold sys_wait. apply calm_current. intros w s Hs. apply wlp_bind. eapply wlp_mono; [by apply do_wait_inv|].
  intros r s1 H1. apply calm_wlp; [|done]. destruct r as [[st p]|]; calm.
Qed.

Lemma dispatch_calm r : rax r ≠ SYS_READ → calm (dispatch sym fuel ops_at r).
Proof.
  intros Hr. unfold dispatch. destruct (Z.eqb_spec (rax r) SYS_READ); [done|].
  destruct (_ =? _); [apply sys_write_calm|].
  destruct (_ =? _); [unfold sys_open, some_result; apply calm_bind; [apply do_open_calm|intros; apply calm_ret]|].
  destruct (_ =? _); [unfold sys_close, some_result; apply calm_bind; [apply do_close_calm|intros; apply calm_ret]|].
  destruct (_ =? _); [apply sys_wait_calm|].
  destruct (_ =? _); [unfold sys_exec, some_result; apply calm_bind; [apply calm_gets|intros c];
    apply calm_bind; [apply sched_exec_calm|intros; apply calm_ret]|].
  destruct (_ =? _).
  { unfold sys_fork. apply calm_bind; [apply calm_gets|intros c]. apply calm_bind; [|intros; apply calm_ret].
    intros w s Hs. exact (wlp_mono _ _ _ _ (sched_fork_inv (TO := vm_task_ops sym fuel) w c s Hs) (λ _ _ H1, conj H1 I)). }
  destruct (_ =? _).
  { unfold sys_exit. apply calm_current. intros w s Hs. apply wlp_bind. eapply wlp_mono; [by apply do_exit_inv|].
    intros u s1 H1. by apply wlp_ret. }
  destruct (_ =? _); [apply sys_getdents_calm|apply calm_panic].
Qed.

Lemma do_syscall_calm r : rax r ≠ SYS_READ → calm (do_syscall sym fuel ops_at r).
Proof.
  intros Hr. unfold do_syscall. apply calm_bind; [apply calm_gets|intros c].
  apply calm_bind; [apply calm_tset; auto with calm|intros _]. apply calm_bind; [by apply dispatch_calm|].
  intros [v|]; calm.
Qed.

(** A read of the terminal parks the running task there. *)
Lemma set_task_regs_inv t v (s : kst) : kernel_inv s → wlp (tset (set_regs v) t) s (λ _ s', kernel_inv s' ∧ current s' = current s).
Proof.
  intros [Hi Hb]. apply wlp_tset. intros _. split; [|apply current_set].
  assert (k_console (set_tasks (alter (set_regs v) t (tasks s)) s) = k_console s) as E by by destruct s.
  unfold kernel_inv, waiting. rewrite E. split; [|done]. apply sched_inv_alter; [auto with calm|done].
Qed.

Lemma sys_read_inv fd buf count s : kernel_inv s → 0 ≤ current s < 2 ^ 64 →
  wlp (sys_read ops_at fd buf count) s (λ v s', v = None ∧ kernel_inv s').
Proof.
  intros Hs Hc. unfold sys_read, sys_file_op. apply wlp_bind, wlp_gets, wlp_bind, wlp_bind, wlp_tget. intros x Hx.
  case_decide; [|done]. destruct (fdtab x !! _) as [p|]; [|done]. apply wlp_ret. destruct (p =? 0); [done|].
  apply wlp_bind, wlp_bind, wlp_gets. destruct (files s !! p) as [f|]; [|done]. apply wlp_ret, wlp_bind. unfold ops_of.
  destruct (_ =? _); [done|]. destruct (_ =? _); [done|]. destruct (_ =? _); [|by destruct (_ =? _)].
  apply wlp_ret. cbn [f_read tty_stdin_read tf kernel_tty]. apply wlp_bind.
  eapply wlp_mono; [apply in_tty_inv; [|exact Hs]|].
  - intros TO s' Hc' Hs'. apply stdin_read_inv; [done|by rewrite Hc'].
  - intros u s' Hs'. by apply wlp_ret.
Qed.

Lemma do_syscall_read_inv r s : rax r = SYS_READ → kernel_inv s → 0 ≤ current s < 2 ^ 64 →
  wlp (do_syscall sym fuel ops_at r) s (λ _ s', kernel_inv s').
Proof.
  intros Hr Hs Hc. unfold do_syscall. apply wlp_bind, wlp_gets, wlp_bind. eapply wlp_mono; [by apply set_task_regs_inv|].
  intros _ s1 [H1 C1]. apply wlp_bind. unfold dispatch. rewrite Hr. cbn [Z.eqb SYS_READ].
  eapply wlp_mono; [apply sys_read_inv; [done|by rewrite C1]|]. intros v s2 [-> H2]. by apply wlp_ret.
Qed.

(** What stays in place when [calm] code leaves the terminal alone. *)
Lemma kept_inv (s s' : kst) : sched_inv (waiting s) s' → tty_kept s s' → kernel_inv s → kernel_inv s'.
Proof.
  intros Hi [Hg Hm] [_ H2]. unfold kernel_inv, waiting in *.
  destruct (tty_fields _ _ (k_console s) eq_refl eq_refl) as (W & B & _).
  destruct (tty_fields _ _ (k_console s') eq_refl Hg) as (W' & B' & _).
  assert (∀ k o, 0 ≤ o → o + Z.of_nat k ≤ sizeof_tty →
    ld k (c_mem (k_console s')) (global_tty (k_console s) + o) = ld k (c_mem (k_console s)) (global_tty (k_console s) + o)) as Hld.
  { intros k o H0 H1. apply ld_ext. intros x Hx. apply Hm. unfold tty_byte. lia. }
  assert (tty_waiting (k_console s') = tty_waiting (k_console s)) as -> by (rewrite W, W'; by apply (Hld 8%nat)).
  assert (tty_bufi (k_console s') = tty_bufi (k_console s)) as ->; [|done].
  rewrite B, B'. f_equal. rewrite <- (Z.add_0_r (global_tty (k_console s))). by apply (Hld 4%nat).
Qed.

(** A write and an exit store nothing. *)
Lemma keeps_of_wlp {A} (I : kst → Prop) (m : M kst A) : (∀ s, I s → wlp m s (λ _ s', I s')) → keeps I m (λ _, True).
Proof. intros Hm s Hs. specialize (Hm s Hs). unfold wlp in Hm. by destruct (m s) as [[]| | |]. Qed.
Definition clean {A} (m : M kst A) : Prop := ∀ cm g,
  keeps (λ s, c_mem (k_console s) = cm ∧ global_tty (k_console s) = g) m (λ _, True).
Lemma clean_bind {A B} (m : M kst A) (f : A → M kst B) : clean m → (∀ a, clean (f a)) → clean (mbind_ m f).
Proof. intros Hm Hf cm g. eapply keeps_bind; [apply Hm|]. intros a _. apply Hf. Qed.
Lemma clean_still {A} (m : M kst A) : still m → clean m.
Proof.
  intros Hm cm g s Hs. specialize (Hm (env s) s eq_refl). destruct (m s) as [[a s']| | |]; [|done..].
  destruct Hm as [He _]. split; [|done]. unfold k_console in *. by rewrite He.
Qed.
Lemma clean_panic {A} msg : clean (@panic kst A msg).
Proof. by intros cm g s _. Qed.
Lemma clean_write f buf n : clean (tty_stdout_write (TtyFiles := tf) f buf n).
Proof.
  cbn [tty_stdout_write tf kernel_tty]. apply clean_bind; [|by intros r cm g s].
  intros cm g. apply keeps_of_wlp. intros s [<- <-]. apply in_tty_wlp. unfold stdout_write. apply wlp_bind.
  eapply wlp_mono; [apply quiet_wlp, quiet_printf|]. intros r s1 (_ & _ & H1 & H2). apply wlp_ret.
  unfold k_console at 1 3. destruct (with_env_eq (set_kheap (env s1) (env s)) s1) as (E1 & _).
  destruct (with_env_eq (k_console s) s) as (E2 & _). rewrite E1. cbn [kheap set_kheap]. by rewrite H1, H2, E2.
Qed.
Lemma do_syscall_clean r : rax r = SYS_WRITE ∨ rax r = SYS_EXIT → clean (do_syscall sym fuel ops_at r).
Proof.
  intros Hr. unfold do_syscall. apply clean_bind; [apply clean_still, still_gets|intros c].
  apply clean_bind; [apply clean_still, still_tset|intros _]. apply clean_bind.
  2:{ intros [v|]; [|by intros cm g s]. apply clean_still, still_bind; [apply still_tget|intros x; apply still_tset]. }
  unfold dispatch. destruct Hr as [-> | ->]; cbn [Z.eqb Pos.eqb SYS_READ SYS_WRITE SYS_OPEN SYS_CLOSE SYS_WAIT SYS_EXEC SYS_FORK SYS_EXIT].
  - unfold sys_write, sys_file_op. apply clean_bind; [apply clean_still, still_gets|intros t].
    apply clean_bind; [unfold get_fd; apply clean_bind; [apply clean_still, still_tget|intros fds; destruct (decide _); [|by intros cm g s]]|intros p].
    { intros cm g s Hs. unfold from_opt. by destruct (fds !! _). }
    destruct (p =? 0); [apply clean_panic|].
    apply clean_bind; [unfold get_file; apply clean_bind; [apply clean_still, still_gets|intros fs cm g s Hs; unfold from_opt; by destruct (fs !! p)]|intros f].
    intros cm g. eapply keeps_bind; [apply ops_of_table|]. intros o Ho. cbv beta in Ho.
    destruct Ho as [->|[->|[->| ->]]]; cbn [f_write]; try (by intros s _). apply clean_write.
  - unfold sys_exit. apply clean_bind; [apply clean_still, still_gets|intros t].
    apply clean_bind; [apply clean_still, still_exit|by intros u cm g s].
Qed.
Lemma storeless_kept r s s' : rax r ∈ storeless → rax r ≠ SYS_READ →
  do_syscall sym fuel ops_at r s = Ok (tt, s') → tty_kept s s'.
Proof.
  intros Hr Hn Hrun. assert (rax r = SYS_WRITE ∨ rax r = SYS_EXIT) as Hr'.
  { unfold storeless in Hr. rewrite !elem_of_cons in Hr. destruct Hr as [?|[?|[?|Hr]]]; [done|by left|by right|by apply not_elem_of_nil in Hr]. }
  destruct (keeps_run _ _ _ _ _ _ (do_syscall_clean r Hr' (c_mem (k_console s)) (global_tty (k_console s))) (conj eq_refl eq_refl) Hrun) as [[Hm Hg] _].
  split; [done|]. by rewrite Hm.
Qed.

Lemma wait_resumed_calm wstatus : calm (wait_resumed (FS := FS) sym fuel wstatus).
Proof.
  unfold wait_resumed. apply calm_bind; [apply calm_gets|intros c]. apply calm_bind; [apply sys_wait_calm|]. intros [v|]; calm.
Qed.

Lemma read_resumed_inv f buf n s :
  (∀ x, tty_byte s x → ¬ buf ≤ x < buf + n) → kernel_inv s →
  wlp (read_resumed f buf n) s (λ _ s', kernel_inv s').
Proof.
  intros Hbuf Hs. unfold read_resumed. apply wlp_bind. eapply (wlp_mono _ _ (λ _ s1, kernel_inv s1)).
  2:{ intros r s1 H1. apply wlp_bind, wlp_gets, wlp_bind, wlp_tget. intros x _.
      eapply wlp_mono; [by apply set_task_regs_inv|]. by intros _ s2 [H2 _]. }
  apply in_tty_wlp. set (s0 := with_env (k_console s) s). pose proof (to_tty s Hs) as [Hi Hb]. fold s0 in Hi, Hb.
  assert (env s0 = k_console s) as E0 by apply with_env_eq. unfold stdin_read_resumed. apply wlp_bind, wlp_gets. cbv beta.
  set (b := w64 (tty_bufi (env s0))). set (k := if n <? b then n else b).
  apply wlp_bind, wlp_modify_env, wlp_bind, wlp_modify_env, wlp_ret. apply of_tty. rewrite env_set, set_env_twice, E0.
  set (c1 := set_c_mem _ (k_console s)). set (c2 := set_bufi 0 c1). rewrite E0 in Hi, Hb. set (g := global_tty (k_console s)) in *.
  destruct (tty_fields _ _ (k_console s) eq_refl eq_refl) as (W0 & B0 & F0). fold g in W0, B0, F0.
  assert (c_mem c2 = st32 (memcpy (c_mem (k_console s)) buf (g + 4) k) g 0) as M2.
  { unfold c2, c1, set_bufi. cbn [c_mem set_c_mem global_tty]. rewrite F0. fold g.
    change (field_of false tty "bufi") with 0. by rewrite Z.add_0_r. }
  destruct (tty_fields _ g c2 M2 eq_refl) as (W2 & B2 & _).
  assert (k ≤ n ∧ k ≤ b) as [Hk1 Hk2] by (unfold k; destruct (Z.ltb_spec n b); lia).
  assert (b = tty_bufi (k_console s)) as Hbk by (unfold b; rewrite E0; apply w64_small; change TTY_BUF_SIZE with 1024 in *; lia).
  unfold tty_byte in Hbuf. fold g in Hbuf. change sizeof_tty with 1056 in Hbuf.
  split; rewrite env_set.
  - assert (tty_waiting c2 = tty_waiting (k_console s)) as ->.
    { rewrite W2, W0. apply ld_ext. intros x Hx. cbn in Hx. unfold st32. rewrite ld8_st_ne by (cbn; lia).
      pose proof (Hbuf x) as Hbx. destruct (Z.lt_ge_cases 0 k) as [Hk|Hk].
      + rewrite ld8_memcpy by (pose proof (Hbuf g); pose proof (Hbuf buf); change TTY_BUF_SIZE with 1024 in *; lia).
        rewrite decide_False; [done|]. lia.
      + unfold memcpy. by replace (Z.to_nat k) with 0%nat by lia. }
    eapply sched_inv_view; [apply current_set_env|apply tasks_set_env|exact Hi].
  - rewrite B2. unfold ld32, st32. rewrite ld_st_eq. vm_compute. split; discriminate.
Qed.

Lemma kernel_step_inv s s' : kernel_inv s → kernel_step sym fuel sfuel ops_at s s' → kernel_inv s'.
Proof.
  intros Hs [r s1 Hrun Hc Hi|f buf n s1 Hrun Hbuf|ws s1 Hrun Hi|ctx s1 Hrun].
  - destruct (decide (rax r = SYS_READ)) as [Hr|Hr].
    + exact (wlp_run _ _ _ _ _ (do_syscall_read_inv r s Hr Hs Hc) Hrun).
    + assert (tty_kept s s1) as Hk
        by (destruct (decide (rax r ∈ storeless)) as [Hl|Hl]; [by apply (storeless_kept r)|by apply Hi]).
      apply (kept_inv s); [|exact Hk|done]. exact (wlp_run _ _ _ _ _ (calm_wlp _ _ _ (do_syscall_calm r Hr) (proj1 Hs)) Hrun).
  - exact (wlp_run _ _ _ _ _ (read_resumed_inv f buf n s Hbuf Hs) Hrun).
  - apply (kept_inv s); [|done|done]. exact (wlp_run _ _ _ _ _ (calm_wlp _ _ _ (wait_resumed_calm ws) (proj1 Hs)) Hrun).
  - refine (wlp_run _ _ _ _ _ (in_tty_inv _ s _ Hs) Hrun). intros TO s0 _ H0. by apply isr_inv.
Qed.

End kernel.

(** Task 8192 sleeps in the terminal, task 4096 runs, and the enter key is
    pressed: the interrupt's [struct isr_ctx] is at 0x9000. *)
Definition ex_key_console : console kbd_sim :=
  Console (Term (KbdSim (Crt 0 (λ _, 0)) [0x5a]) (Vgaterm ∅ 0 0 7 VGATERM_BUF_START))
    (st64 (st64 ∅ (0x5000 + 1032) 8192) (0x9000 + 72) (0x21 * 2 ^ 32)) 0 0 false 0x5000.
Definition ex_kernel : sched (vm pmm (console kbd_sim)) :=
  Sched (Vm (Pmm ∅ []) ex_key_console ∅ ∅ ∅)
    {[ 4096 := ex_task 1 TASK_RUNNING 4096 4096 0 0; 8192 := ex_task 2 TASK_RUNNING 0 0 0 0 ]} ∅ 4096 4096 1000 0 0 0 0.

Lemma ex_kernel_tasks u t : tasks ex_kernel !! u = Some t →
  (u = 4096 ∧ t = ex_task 1 TASK_RUNNING 4096 4096 0 0) ∨ (u = 8192 ∧ t = ex_task 2 TASK_RUNNING 0 0 0 0).
Proof.
  change (tasks ex_kernel) with (<[4096 := ex_task 1 TASK_RUNNING 4096 4096 0 0]>
    ({[8192 := ex_task 2 TASK_RUNNING 0 0 0 0]} : gmap Z task_struct)).
  intros [[<- <-]|[_ [<- <-]%lookup_singleton_Some]]%lookup_insert_Some; auto.
Qed.

Lemma ex_kernel_inv : kernel_inv ex_kernel.
Proof.
  split; [|by vm_compute]. assert (waiting ex_kernel = 8192) as -> by (vm_compute; reflexivity).
  exists []. split; [split|reflexivity].
  - reflexivity.
  - split; [apply list.NoDup_singleton|]. split; reflexivity.
  - by intros u ?%not_elem_of_nil.
  - by intros u x [[-> ->]|[-> ->]]%ex_kernel_tasks.
  - intros _. split; [reflexivity|]. by intros ?%list_elem_of_singleton.
Qed.

