(* ===== verification/StartInit.v ===== *)
(** The first process: [start_init] and [create_init] on the kernel's own state,
    from the path of the program on the drive to a single task on the ring that
    is about to enter user mode, and to the invariant of the running kernel
    ([KernelProps]). *)

From S2P Require Import Prelude Layout Memory CString Interfaces Pmm PageTable AddressSpace Kmalloc Heap Mm MmSpec MmInit MmProps Sched.
From S2P Require Import Ata Ext2 Ext2Files Ext2Path Vga Tty Exec ExecSpec Rootfs Syscall ForkSpec Kernel Boot ExecDrive KernelProps.

Section start.
Context {D : Type} {PO : PortOps D}.
Implicit Types (c : console D) (K : sched (vm pmm (console D))).

(** ** The heap around the terminal

    The contract of the kernel's heap for everybody but the terminal: [struct
    tty] is a block of its own, at [global_tty], whose bytes stay ([tty_laws]),
    and so do the bytes of the kernel's image, but for the buffer [comp] of
    [ext2_namei]. *)
Definition image_byte (comp x : Z) : Prop := HEAP_LIMIT ≤ x ∧ ¬ (comp ≤ x < comp + 256).

(** An operation of the heap leaves the variable and the image alone. *)
Definition heap_step_only c c' : Prop := global_tty c' = global_tty c ∧ outside_same (c_mem c) (c_mem c').
Lemma console_kmalloc_only c L n : kheap_inv (c_heap c) L → 0 < n → n + 32 < kheap_room (c_heap c) →
  wp (heap_kmalloc n) c (λ _ c', heap_step_only c c').
Proof.
  intros Hi Hn Hr. apply wp_zoom, wp_in_heap. eapply wp_mono; [by apply (kmalloc_outside _ L)|]. intros p h Ho. by split.
Qed.
Lemma console_kcalloc_only c L a b : kheap_inv (c_heap c) L → 0 < a * b → a * b + 32 < kheap_room (c_heap c) →
  wp (heap_kcalloc a b) c (λ _ c', heap_step_only c c').
Proof.
  intros Hi Hn Hr. apply wp_zoom, wp_in_heap. eapply wp_mono; [by apply (kcalloc_outside _ L)|]. intros p h Ho. by split.
Qed.
Lemma console_release_only c L p n : kheap_inv (c_heap c) L → L !! p = Some n →
  wp (heap_release p) c (λ _ c', heap_step_only c c').
Proof.
  intros Hi Hp. apply wp_zoom, wp_in_heap. eapply wp_mono; [by apply (free_outside _ L p n)|]. intros u h Ho. by split.
Qed.

Section tty_laws.
Variables (g comp : Z) (m0 : mem).

Definition tty_heap_inv c (L : gmap Z Z) : Prop :=
  kheap_inv (c_heap c) L ∧ global_tty c = g ∧ ∀ x, image_byte comp x → ld8 (c_mem c) x = ld8 m0 x.

Lemma tty_heap_kept c c' L L' : tty_heap_inv c L → heap_step_only c c' → kheap_inv (c_heap c') L' → tty_heap_inv c' L'.
Proof.
  intros (_ & Hg & Hm) [Hg' Ho] Hi. split; [done|]. split; [congruence|]. intros x Hx. rewrite Ho by apply Hx. by apply Hm.
Qed.

Lemma tty_range c L p n : tty_heap_inv c L → L !! p = Some n → HEAP_START < p ∧ 0 < n ∧ p + n ≤ HEAP_LIMIT.
Proof. intros [Hi _] Hp. exact (console_range c L p n Hi Hp). Qed.
Lemma tty_kmalloc c L n : tty_heap_inv c L → 0 < n → n + 32 < kheap_room (c_heap c) →
  wp (heap_kmalloc n) c (λ p c', ∃ k, n ≤ k ∧ L !! p = None ∧ tty_heap_inv c' (<[p := k]> L) ∧
    kheap_room (c_heap c) ≤ kheap_room (c_heap c') + (n + 32) ∧ same_blocks L (heap_bytes c) (heap_bytes c')).
Proof.
  intros Ht Hn Hr. pose proof Ht as [Hi _].
  eapply wp_mono; [exact (wp_and _ _ _ _ (console_kmalloc c L n Hi Hn Hr) (console_kmalloc_only c L n Hi Hn Hr))|].
  intros p c' [(k & ? & ? & ? & ? & ?) Ho]. exists k. split_and!; try done. by eapply tty_heap_kept.
Qed.
Lemma tty_kcalloc c L a b : tty_heap_inv c L → 0 < a * b → a * b + 32 < kheap_room (c_heap c) →
  wp (heap_kcalloc a b) c (λ p c', ∃ k, a * b ≤ k ∧ L !! p = None ∧ tty_heap_inv c' (<[p := k]> L) ∧
    kheap_room (c_heap c) ≤ kheap_room (c_heap c') + (a * b + 32) ∧ same_blocks L (heap_bytes c) (heap_bytes c') ∧
    (∀ x, p ≤ x < p + a * b → ld8 (heap_bytes c') x = 0)).
Proof.
  intros Ht Hn Hr. pose proof Ht as [Hi _].
  eapply wp_mono; [exact (wp_and _ _ _ _ (console_kcalloc c L a b Hi Hn Hr) (console_kcalloc_only c L a b Hi Hn Hr))|].
  intros p c' [(k & ? & ? & ? & ? & ? & ?) Ho]. exists k. split_and!; try done. by eapply tty_heap_kept.
Qed.
Lemma tty_release c L p n : tty_heap_inv c L → L !! p = Some n →
  wp (heap_release p) c (λ _ c', tty_heap_inv c' (delete p L) ∧ kheap_room (c_heap c') = kheap_room (c_heap c) ∧
    same_blocks (delete p L) (heap_bytes c) (heap_bytes c')).
Proof.
  intros Ht Hp. pose proof Ht as [Hi _].
  eapply wp_mono; [exact (wp_and _ _ _ _ (console_release c L p n Hi Hp) (console_release_only c L p n Hi Hp))|].
  intros u c' [(? & ? & ?) Ho]. split_and!; try done. by eapply tty_heap_kept.
Qed.

Definition tty_console_laws : HeapLaws (console D) := {|
  heap_inv := tty_heap_inv;
  heap_room c := kheap_room (c_heap c);
  heap_range := tty_range;
  heap_kmalloc_ok := tty_kmalloc;
  heap_kcalloc_ok := tty_kcalloc;
  heap_release_ok := tty_release;
|}.
Definition tty_laws (n : Z) : HeapLaws (console D) := frozen_laws (HL := tty_console_laws) g n m0.

(** Another block [b] of [k] bytes is set aside as well. *)
Definition start_laws (n b k : Z) : HeapLaws (console D) := frozen_laws (HL := tty_laws n) b k m0.
End tty_laws.

(** [struct tty] in a block of [n] bytes, apart from the buffer of [ext2_namei]. *)
Record tty_block bs (comp : Z) c (n : Z) : Prop := {
  tb_live : (global_tty c, n) ∈ live bs;
  tb_size : sizeof_tty ≤ n;
  tb_comp x : comp ≤ x < comp + 256 → ¬ (global_tty c ≤ x < global_tty c + n);
}.

(** [b] is another block, of [k] bytes. *)
Record other_block bs (comp : Z) c (b k : Z) : Prop := {
  sb_live : (b, k) ∈ live bs;
  sb_other : b ≠ global_tty c;
  sb_comp x : comp ≤ x < comp + 256 → ¬ (b ≤ x < b + k);
}.

(** The blocks that are neither the terminal's nor [b]. *)
Definition start_blocks bs c (b : Z) : gmap Z Z := delete b (delete (global_tty c) (live_map bs)).

Lemma image_path_byte bs comp h x : heap_ok h bs → image_byte comp x → path_byte bs comp x.
Proof.
  intros Hok [Hx Hn]. split; [|exact Hn]. right. pose proof (heap_lim _ _ Hok) as Hl.
  unfold HEAP_LIMIT, KERNEL_BRK_LIMIT, KERNEL_BRK_START in *. change (KERNEL_BRK_PAGES * PAGE_SIZE) with 524288 in Hl. lia.
Qed.

Lemma start_lends K bs comp n b k (c := k_console K) :
  heap_ok (c_heap c) bs → tty_block bs comp c n → other_block bs comp c b k →
  lends (start_laws (global_tty c) comp (c_mem c) n b k) K bs comp (start_blocks bs c b).
Proof.
  intros Hok [Hl Hn Hc] [Hl' Hne Hc']. pose proof (heap_pos _ _ Hok) as Hpos. split; [done|]. intros s2 buf j Hi Hnew Hm.
  assert (live_map bs !! global_tty c = Some n) as Hg by by apply live_map_lookup.
  assert (live_map bs !! b = Some k) as Hb by by apply live_map_lookup.
  assert (buf ≠ global_tty c ∧ buf ≠ b) as [Hne1 Hne2] by (split; intros ->; congruence).
  unfold start_blocks. split; [|by rewrite !lookup_delete_ne].
  set (c2 := set_c_machine s2 (k_console K)).
  assert (c_heap c2 = hp s2 ∧ global_tty c2 = global_tty c ∧ c_mem c2 = s_mem s2) as (E1 & E2 & E3)
    by (unfold c2, c; by destruct s2 as [? []], (k_console K) as [[]]).
  assert (∀ p q, (p, q) ∈ live bs → (∀ x, comp ≤ x < comp + 256 → ¬ (p ≤ x < p + q)) →
    ∀ x, p ≤ x < p + q → ld8 (heap_bytes c2) x = ld8 (c_mem c) x) as Hkeep.
  { intros p q Hpq Hcp x Hx. change (heap_bytes c2) with (c_mem c2). rewrite E3, Hm; [done|].
    split; [left; exists (p, q); by split|]. intros Hx'. by apply (Hcp x Hx'). }
  split; [split; [|split]|split].
  - split; [|split; [exact E2|]].
    + rewrite E1, (insert_insert_ne _ b buf), insert_delete_id by (done || by rewrite lookup_delete_ne).
      rewrite insert_insert_ne, insert_delete_id by done. exact Hi.
    + intros x Hx. rewrite E3. apply Hm. by apply (image_path_byte _ _ (c_heap c)).
  - by rewrite lookup_insert_ne, lookup_insert_ne, lookup_delete_ne, lookup_delete_eq.
  - intros x Hx. by apply (Hkeep _ _ Hl Hc).
  - by rewrite lookup_insert_ne, lookup_delete_eq.
  - intros x Hx. by apply (Hkeep _ _ Hl' Hc').
Qed.

(** The contract holds where it starts. *)
Lemma start_laws_inv c bs comp n b k :
  heap_ok (c_heap c) bs → tty_block bs comp c n → other_block bs comp c b k →
  @heap_inv _ _ (start_laws (global_tty c) comp (c_mem c) n b k) c (start_blocks bs c b).
Proof.
  intros Hok [Hl _ _] [Hl' Hne _]. pose proof (heap_pos _ _ Hok) as Hpos. unfold start_blocks.
  assert (live_map bs !! global_tty c = Some n) as Hg by by apply live_map_lookup.
  assert (live_map bs !! b = Some k) as Hb by by apply live_map_lookup.
  split; [split; [|split]|split]; [|by rewrite lookup_insert_ne, lookup_delete_ne, lookup_delete_eq|done|by rewrite lookup_delete_eq|done].
  split; [|done]. rewrite insert_delete_id, insert_delete_id by (done || by rewrite lookup_delete_ne). by exists bs.
Qed.

(** ** The two blocks of a task *)
Lemma kernel_kcalloc K bs n (c := k_console K) : heap_ok (c_heap c) bs → 0 < n < 2 ^ 64 → has_room n bs →
  wp (in_env (in_kheap (heap_kcalloc 1 n))) K (λ p K', ∃ h, K' = set_env (set_kheap (set_c_heap h c) (env K)) K ∧
    heap_ok h (after n bs) ∧ (∃ k, n ≤ k ∧ lent bs p k (after n bs)) ∧
    ∀ x, client_byte bs x → ld8 (h_mem h) x = ld8 (c_mem c) x).
Proof.
  intros Hok Hn Hr. apply wp_in_env, wp_zoom, wp_zoom, wp_in_heap.
  eapply wp_mono; [apply (kcalloc_lent _ bs 1 n Hok); [lia|by rewrite Z.mul_1_l]|].
  rewrite Z.mul_1_l. intros p h (Hh & Hl & Hm). exists h. split; [|by split_and!].
  f_equal. f_equal. unfold c, k_console. by destruct (kheap (env K)) as [[]].
Qed.

(** What the file system and the terminal need stays. *)
Lemma namei_pre_lent bs bs' q k fs comp path v p (s s' : machine D) {AD : AtaDrive D} :
  namei_pre bs fs comp path v p s → lent bs q k bs' → drive s' = drive s → heap_ok (hp s') bs' →
  (∀ x, client_byte bs x → ld8 (s_mem s') x = ld8 (s_mem s) x) → namei_pre bs' fs comp path v p s'.
Proof.
  intros [[H1 [H2 H3]] Hv Hfs Hr Hc Hp Hpb] Hl Hd Hh Hm.
  assert (∀ x, path_byte bs comp x → path_byte bs' comp x ∧ ld8 (s_mem s') x = ld8 (s_mem s) x) as Hk
    by (intros x [Hx Hn]; split; [split; [by apply (le_keep _ _ _ _ Hl)|done]|by apply Hm]).
  pose proof (fi_bytes _ _ _ _ Hfs) as Hb. split.
  - unfold machine_ok. rewrite Hd. by split_and!.
  - exact Hv.
  - apply (fs_in_weaken (path_byte bs comp)); [intros x Hx; by apply Hk|].
    apply (fs_in_ext _ (s_mem s)); [|done]. intros x Hx. by apply Hk.
  - intros j Hj. rewrite Hd, <- (Hr j Hj). apply Hk, Hb. revert Hj. unfold fs_rooti, sizeof_ino, sizeof_fs. lia.
  - intros x Hx. by apply (le_keep _ _ _ _ Hl), Hc.
  - apply (cstr_ext (s_mem s)); [|exact Hp]. intros x Hx. apply Hk, Hpb. lia.
  - intros x Hx. by apply Hk, Hpb.
Qed.

Lemma tty_block_lent bs bs' q k comp c h n :
  tty_block bs comp c n → lent bs q k bs' → tty_block bs' comp (set_c_heap h c) n.
Proof. intros [H1 H2 H3] Hl. split; [|done|done]. change (global_tty (set_c_heap h c)) with (global_tty c). rewrite (le_live _ _ _ _ Hl). by right. Qed.

(** Every object is in the image. *)
Lemma image_objects_at (HL : HeapLaws (console D)) K h B : only_image (env K) → heap_inv h B → objects_ok (set_kheap h (env K)) B.
Proof. intros (Om & Ov & Ol) Hi. split; simpl; [done|intros a Ha; right; by eauto..]. Qed.

(** ** One task *)
Definition with_task (i : Z) (t : task_struct) K : sched (vm pmm (console D)) := set_tasks {[i := t]} K.
Lemma wp_tset_one f i t K (Q : unit → sched (vm pmm (console D)) → Prop) :
  Q tt (with_task i (f t) K) → wp (tset f i) (with_task i t K) Q.
Proof.
  intros HQ. unfold wp, tset, with_task. rewrite tasks_set, lookup_singleton_eq, insert_singleton_eq. by destruct K.
Qed.
Lemma wp_tget_one {A} (f : task_struct → A) i t K (Q : A → sched (vm pmm (console D)) → Prop) :
  Q (f t) (with_task i t K) → wp (tget f i) (with_task i t K) Q.
Proof. intros HQ. apply (wp_tget f i _ t); [|done]. unfold with_task. by rewrite tasks_set, lookup_singleton_eq. Qed.
Lemma env_with_task i t K : env (with_task i t K) = env K.
Proof. by destruct K. Qed.

(** [exec_elf] leaves the table of open files alone. *)
Lemma exec_loop_files {FS : FileSystem (console D)} F n task buf ph i :
  keeps (λ K, files K = F) (exec_loop (St := pmm) (H := console D) n task buf ph i) (λ _, True).
Proof.
  assert (∀ A (m : M (vm pmm (console D)) A), keeps (λ K, files K = F) (in_env m) (λ _, True)) as He.
  { intros A m K HK. unfold in_env. destruct (m (env K)) as [[]| | |]; [|done..]. split; [by destruct K|done]. }
  revert i. induction n as [|n IH]; intros i; cbn [exec_loop];
    (eapply keeps_bind; [apply He|intros ph' _]; destruct (_ <=? _); [by apply keeps_ret|]); [apply keeps_nofuel|].
  eapply keeps_bind; [apply He|intros ty _]. apply (keeps_bind _ _ _ (λ _, True)); [|intros; apply IH].
  destruct (_ =? _); [|by apply keeps_ret]. eapply keeps_bind; [apply keeps_tget|intros x _]. apply He.
Qed.
Lemma exec_elf_files {FS : FileSystem (console D)} F sym fuel task path :
  keeps (λ K, files K = F) (exec_elf (St := pmm) (H := console D) sym fuel task path) (λ _, True).
Proof.
  assert (∀ A (m : M (vm pmm (console D)) A), keeps (λ K, files K = F) (in_env m) (λ _, True)) as He.
  { intros A m K HK. unfold in_env. destruct (m (env K)) as [[]| | |]; [|done..]. split; [by destruct K|done]. }
  assert (∀ f t, keeps (λ K : sched (vm pmm (console D)), files K = F) (tset f t) (λ _, True)) as Ht.
  { intros f t K HK. unfold tset. destruct (tasks K !! t); [|done]. split; [by destruct K|done]. }
  unfold exec_elf.
  repeat first [eapply keeps_bind; [first [apply He|apply Ht|apply keeps_tget|apply exec_loop_files]|intros ? _]|apply Ht].
Qed.

(** ** [create_init] and [start_init] *)
Context {AD : AtaDrive D} (spin : nat).
Hypothesis spin_pos : (ata_polls (D := D) < spin)%nat.

(** What [start_init] starts from: nothing but the image and the terminal, which
    is in a block of [n] bytes, and the mounted file system. *)
Record start_pre K bs comp rootfs init_path v p n : Prop := {
  sp_namei : namei_pre bs rootfs comp init_path v p (c_machine (k_console K));
  sp_tty : tty_block bs comp (k_console K) n;
  sp_image : only_image (env K);
  sp_quiet : waiting K = 0 ∧ 0 ≤ tty_bufi (k_console K) ≤ TTY_BUF_SIZE + 1;
  sp_tasks : tasks K = ∅;
}.

(** The blocks in use once [init] has its struct and its stack. *)
Definition init_blocks (bs : blocks) : blocks := after KERNEL_STACK_SIZE (after sizeof_task_struct bs).

(** The task before [exec_elf]: a zeroed struct and a stack of its own. *)
Definition bare_task (bottom : Z) : task_struct :=
  set_stack bottom (bottom + KERNEL_STACK_SIZE) (bottom + KERNEL_STACK_SIZE - sizeof_fork_frame) zero_task.

(** [K'] is [K] with a heap [h] and the task [t] alone. *)
Definition with_heap (h : heap) K : sched (vm pmm (console D)) := set_env (set_kheap (set_c_heap h (k_console K)) (env K)) K.

Lemma with_heap_twice h h' K : with_heap h (with_heap h' K) = with_heap h K.
Proof. unfold with_heap, k_console. rewrite env_set, set_env_twice. by destruct K as [[? []]]. Qed.
Lemma with_heap_task h i t K : with_heap h (with_task i t K) = with_task i t (with_heap h K).
Proof. by destruct K. Qed.
Lemma console_with_heap h K : k_console (with_heap h K) = set_c_heap h (k_console K).
Proof. unfold with_heap, k_console. by rewrite env_set. Qed.
Lemma c_heap_with h K : c_heap (k_console (with_heap h K)) = h.
Proof. rewrite console_with_heap. by destruct h. Qed.

Lemma new_init_ok sym fuel K bs comp rootfs init_path v p n :
  start_pre K bs comp rootfs init_path v p n → has_room sizeof_task_struct bs →
  has_room KERNEL_STACK_SIZE (after sizeof_task_struct bs) →
  wp (let* init := alloc_task (TO := vm_task_ops sym fuel) in init_task_stack (TO := vm_task_ops sym fuel) init ;;* mret_ init) K
    (λ init K', ∃ h bottom k1 k2, K' = with_task init (bare_task bottom) (with_heap h K) ∧
      start_pre (with_heap h K) (init_blocks bs) comp rootfs init_path v p n ∧
      heap_ok h (init_blocks bs) ∧ kernel_brk h = kernel_brk (c_heap (k_console K)) ∧
      (sizeof_task_struct ≤ k1 ∧ lent bs init k1 (after sizeof_task_struct bs)) ∧
      (KERNEL_STACK_SIZE ≤ k2 ∧ lent (after sizeof_task_struct bs) bottom k2 (init_blocks bs)) ∧
      (∀ x, client_byte bs x → ld8 (h_mem h) x = ld8 (c_mem (k_console K)) x)).
Proof.
  intros [Hn Ht Hi [Hw Hb] HT] Hr1 Hr2. pose proof (np_ok _ _ _ _ _ _ _ Hn) as (_ & _ & Hh).
  change (heap_ok (c_heap (k_console K)) bs) in Hh. set (n1 := sizeof_task_struct) in *. unfold alloc_task.
  apply wp_bind, wp_bind. eapply wp_mono; [by apply (kernel_kcalloc K bs n1)|].
  intros i K1 (h1 & -> & Hh1 & (k1 & Hk1 & Hl1) & Hm1). fold (with_heap h1 K).
  apply wp_bind, wp_gets. assert (tasks (with_heap h1 K) = ∅) as HT1 by (unfold with_heap; by rewrite tasks_set_env).
  rewrite HT1. pose proof (le_pos _ _ _ _ Hl1) as Hp1. unfold KERNEL_BRK_START in Hp1.
  rewrite decide_False by (rewrite lookup_empty; intros [?|[? ?]]; [lia|done]).
  apply wp_bind, wp_modify, wp_ret. change (set_tasks _ (with_heap h1 K)) with (with_task i zero_task (with_heap h1 K)).
  unfold init_task_stack. apply wp_bind, wp_bind.
  set (K2 := with_task i zero_task (with_heap h1 K)).
  assert (k_console K2 = set_c_heap h1 (k_console K)) as Ec by (unfold K2, k_console; rewrite env_with_task; apply console_with_heap).
  set (n2 := KERNEL_STACK_SIZE) in *.
  eapply wp_mono; [apply (kernel_kcalloc K2 (after n1 bs) n2); rewrite ?Ec; [by destruct h1|done|done]|].
  intros b K3 (h2 & -> & Hh2 & (k2 & Hk2 & Hl2) & Hm2). fold (with_heap h2 K2). unfold K2. rewrite with_heap_task, with_heap_twice.
  apply wp_tset_one, wp_ret. exists h2, b, k1, k2. split; [done|].
  assert (∀ x, client_byte bs x → ld8 (h_mem h2) x = ld8 (c_mem (k_console K)) x) as Hm.
  { intros x Hx. rewrite Hm2 by by apply (le_keep _ _ _ _ Hl1). rewrite Ec. by apply Hm1. }
  assert (∀ x, global_tty (k_console K) ≤ x < global_tty (k_console K) + n → ld8 (h_mem h2) x = ld8 (c_mem (k_console K)) x) as Hg.
  { intros x Hx. apply Hm. left. exists (global_tty (k_console K), n). split; [apply Ht|done]. }
  assert (kernel_brk h2 = kernel_brk (c_heap (k_console K))) as Hbrk.
  { rewrite (hk_brk _ _ Hh2), (hk_brk _ _ Hh). unfold init_blocks. by rewrite (le_span _ _ _ _ Hl2), (le_span _ _ _ _ Hl1). }
  split; [|by split_and!]. pose proof (console_with_heap h2 K) as Eh. split.
  - eapply (namei_pre_lent (after n1 bs) _ b k2); [eapply (namei_pre_lent bs _ i k1 _ _ _ _ _ _ (Machine (t_ports (c_term (k_console K))) h1));
      [exact Hn|exact Hl1|done|exact Hh1|exact Hm1]|exact Hl2|by rewrite Eh|rewrite Eh; by destruct h2|].
    rewrite Eh. intros x Hx. transitivity (ld8 (h_mem h2) x); [by destruct h2|]. rewrite (Hm2 x Hx). by rewrite Ec.
  - rewrite Eh. replace (set_c_heap h2 (k_console K)) with (set_c_heap h2 (set_c_heap h1 (k_console K))) by (by destruct (k_console K)).
    eapply tty_block_lent; [by eapply tty_block_lent|exact Hl2].
  - unfold with_heap. rewrite env_set. exact Hi.
  - unfold waiting, tty_waiting, tty_bufi in *. rewrite Eh. pose proof (tb_size _ _ _ _ Ht) as Hsz.
    assert (∀ k o, 0 ≤ o → o + Z.of_nat k ≤ sizeof_tty → ld k (c_mem (set_c_heap h2 (k_console K))) (global_tty (k_console K) + o) =
      ld k (c_mem (k_console K)) (global_tty (k_console K) + o)) as Hld.
    { intros k o Ho Hk. apply ld_ext. intros x Hx. apply Hg. lia. }
    change (global_tty (set_c_heap h2 (k_console K))) with (global_tty (k_console K)).
    unfold ld64, ld32 in *. by rewrite !Hld.
  - unfold with_heap. by rewrite tasks_set_env.
Qed.

Lemma wp_bind2 {S A B C} (m : M S A) (f : A → M S B) (r : A → M S C) s Q :
  wp (let* a := m in f a ;;* mret_ a) s (λ a s', wp (r a) s' Q) → wp (let* a := m in f a ;;* r a) s Q.
Proof. unfold wp, mbind_. destruct (m s) as [[a s1]| | |]; [|done..]. by destruct (f a s1) as [[]| | |]. Qed.

(** The two new blocks among the others. *)
Lemma init_blocks_map bs h i k1 b k2 :
  all_pos bs → heap_ok h (init_blocks bs) → lent bs i k1 (after sizeof_task_struct bs) →
  lent (after sizeof_task_struct bs) b k2 (init_blocks bs) →
  live_map (init_blocks bs) = <[b := k2]> (<[i := k1]> (live_map bs)) ∧
  live_map bs !! b = None ∧ live_map bs !! i = None ∧ b ≠ i.
Proof.
  intros Hpos Hh Hl1 Hl2. pose proof (live_keys _ (heap_pos _ _ Hh)) as Hnd.
  assert (live (init_blocks bs) ≡ₚ (b, k2) :: (i, k1) :: live bs) as Hp by (by rewrite (le_live _ _ _ _ Hl2), (le_live _ _ _ _ Hl1)).
  pose proof Hnd as Hnd'. rewrite Hp in Hnd'. cbn [fmap list_fmap fst] in Hnd'.
  apply list.NoDup_cons in Hnd' as [Hb Hnd']. apply list.NoDup_cons in Hnd' as [Hi _].
  apply not_elem_of_cons in Hb as [Hbi Hb].
  split; [|split; [by apply not_elem_of_list_to_map_1|split; [by apply not_elem_of_list_to_map_1|done]]].
  change (<[b := k2]> (<[i := k1]> (live_map bs))) with (list_to_map ((b, k2) :: (i, k1) :: live bs) : gmap Z Z).
  by apply list_to_map_proper.
Qed.

Lemma with_task_eq i t K : tasks K = {[i := t]} → K = with_task i t K.
Proof. unfold with_task. intros <-. by destruct K. Qed.

(** The two files of the terminal. *)
Definition tty_stdin c : Z := ld64 (c_mem c) (global_tty c + field_of false tty "stdin").
Definition tty_stdout c : Z := ld64 (c_mem c) (global_tty c + field_of false tty "stdout").

Lemma install_ok i t K (Q : unit → sched (vm pmm (console D)) → Prop) :
  Q tt (with_task i (set_fdtab (<[1%nat := tty_stdout (k_console K)]> (<[0%nat := tty_stdin (k_console K)]> (fdtab t))) t) K) →
  wp (in_tty (λ _, tty_install_stdin_stdout i)) (with_task i t K) Q.
Proof.
  intros HQ. destruct K as [[fr c ms vs ls] ts fs cu pr np k0 k1 k2 k3].
  unfold wp, in_tty, tty_install_stdin_stdout, with_task, mbind_, getc, gets, tset, with_env, k_console in *. cbn [set_tasks env kheap tasks] in *.
  rewrite lookup_singleton_eq. cbn [set_tasks env kheap tasks]. rewrite insert_singleton_eq, lookup_singleton_eq. cbn [set_tasks env kheap tasks].
  rewrite insert_singleton_eq. by destruct t.
Qed.

(** The state in which the kernel enters [init] for the first time. *)
Record init_running F K K' init t a (x : mm) : Prop := {
  ir_tasks : tasks K' = {[init := t]};
  ir_files : files K' = files K;
  ir_current : current K' = init ∧ proc_root K' = init;
  ir_links : pid t = 1 ∧ state t = TASK_RUNNING ∧ next t = init ∧ prev t = init ∧ sibling t = 0;
  ir_entry : rip (task_regs t) = e_entry F 0 ∧ rsp (task_regs t) = USER_STACK_BASE + PAGE_SIZE * USER_STACK_PAGES;
  ir_fds : fdtab t = tty_stdin (k_console K) :: tty_stdout (k_console K) :: replicate 14 0;
  ir_mm : task_mm t = a ∧ cr3 K' = p4 x;
  ir_stack : stack_top t = stack_bottom t + KERNEL_STACK_SIZE ∧ sp t = stack_top t - sizeof_fork_frame ∧
    current_task_stack K' = stack_top t ∧ tss_rsp0 K' = sp t;
}.

(** The heap in which it does so, from the blocks [B0] of before: the kernel
    stack of [init] is a block of its own, and besides it there are the task and
    the objects of the address space [a]. *)
Record init_heap_of (B0 : gmap Z Z) K' init t a (L : list (Z * Z)) (B : gmap Z Z) : Prop := {
  ih_heap : kheap_inv (c_heap (k_console K')) B;
  ih_keep : B0 ⊆ B;
  ih_task : B0 !! init = None ∧ ∃ k, sizeof_task_struct ≤ k ∧ B !! init = Some k;
  ih_stack : own_stack B0 (env K') B init (stack_bottom t);
  ih_blocks q : is_Some (B !! q) →
    is_Some (B0 !! q) ∨ q = init ∨ q = stack_bottom t ∨ q = a ∨ q ∈ L.*1 ∨ q ∈ L.*2;
}.

(** After [exec_elf]: what is left is to fill in the task and to enter it. *)
Definition final_task i (bottom a stdin stdout : Z) F : task_struct :=
  set_fdtab (stdin :: stdout :: replicate 14 0) (set_state TASK_RUNNING (set_prev i (set_next i (set_alive_ticks 0 (set_pid 1
    (exec_task a F 0 (bare_task bottom))))))).
Lemma finish_ok K i bottom a F x (Q : unit → sched (vm pmm (console D)) → Prop) :
  let t := final_task i bottom a (tty_stdin (k_console K)) (tty_stdout (k_console K)) F in
  mms (env K) !! a = Some x →
  Q tt (set_cpu (stack_top t) (sp t) (p4 x) (sp t + 48) (set_current i (set_proc_root i (with_task i t K)))) →
  wp (tset (set_pid 1) i ;;* tset (set_alive_ticks 0) i ;;* tset (set_next i) i ;;* tset (set_prev i) i ;;*
      tset (set_state TASK_RUNNING) i ;;* in_tty (λ _, tty_install_stdin_stdout i) ;;* mret_ i)
    (with_task i (exec_task a F 0 (bare_task bottom)) K)
    (λ i K', wp (modify (set_proc_root i) ;;* modify (set_current i) ;;* let* top := tget stack_top i in
      let* rsp := tget sp i in let* x := tget task_mm i in let* p := p4_of x in
      modify (set_cpu top rsp p (rsp + 48))) K' Q).
Proof.
  intros t Hx HQ. do 5 apply wp_bind, wp_tset_one. apply wp_bind, install_ok, wp_ret.
  change (set_fdtab _ _) with t.
  apply wp_bind, wp_modify, wp_bind, wp_modify.
  set (K1 := set_current i (set_proc_root i (with_task i t K))) in *.
  assert (tasks K1 !! i = Some t) as Ht by (unfold K1, with_task; destruct K; apply lookup_singleton_eq).
  assert (env K1 = env K) as He by (unfold K1, with_task; by destruct K).
  do 3 (apply wp_bind; eapply wp_tget; [exact Ht|]). apply wp_bind. unfold p4_of. apply wp_bind, wp_in_env.
  apply (wp_get_mm _ _ x); [by rewrite He|]. rewrite set_env_same. apply wp_ret, wp_modify. exact HQ.
Qed.

(** The invariant of the running kernel holds when [init] is alone. *)
Lemma alone_inv F K K' i t a x :
  init_running F K K' i t a x → waiting K' = 0 → 0 ≤ tty_bufi (k_console K') ≤ TTY_BUF_SIZE + 1 → kernel_inv K'.
Proof.
  intros [HT _ [Hc _] (_ & Hs & Hn & Hp & Hsib) _ _ _ _] Hw Hb. split; [|exact Hb]. rewrite Hw. exists []. rewrite Hc. split.
  - split; rewrite ?HT; [done| |by intros u ?%not_elem_of_nil| |by intros ?].
    + split; [apply list.NoDup_singleton|]. unfold path, linked, nxt, prv. rewrite lookup_singleton_eq. simpl. by rewrite Hn, Hp.
    + intros u y [<- <-]%lookup_singleton_Some. exact Hsib.
  - unfold state_of. rewrite HT, lookup_singleton_eq. simpl. by rewrite Hs.
Qed.

(** The blocks after [exec_elf], put together. *)
Lemma start_heap_of (HL : HeapLaws (console D)) K' bs bs1 i k1 b k2 g n t a L B' :
  live_map bs1 = <[b := k2]> (<[i := k1]> (live_map bs)) → live_map bs !! b = None → live_map bs !! i = None → b ≠ i →
  live_map bs !! g = Some n → sizeof_task_struct ≤ k1 → KERNEL_STACK_SIZE ≤ k2 → b < HEAP_LIMIT →
  objects_ok (env K') B' → B' !! b = None → space_blocks (delete b (delete g (live_map bs1))) B' a L →
  kheap_inv (c_heap (k_console K')) (<[g := n]> (<[b := k2]> B')) → stack_bottom t = b →
  init_heap_of (live_map bs) K' i t a L (<[g := n]> (<[b := k2]> B')).
Proof.
  intros Hmap Hb Hi Hbi Hg Hk1 Hk2 Hlim Ho Hb' [Hsub Hbl] Hinv <-. set (b := stack_bottom t) in *.
  assert (g ≠ b ∧ g ≠ i) as [Hgb Hgi] by (split; intros ->; congruence).
  assert (∀ q z, q ≠ b → q ≠ g → live_map bs1 !! q = Some z → B' !! q = Some z) as Hold.
  { intros q z Hq1 Hq2 Hq. eapply lookup_weaken; [|exact Hsub]. by rewrite !lookup_delete_ne. }
  split.
  - exact Hinv.
  - apply map_subseteq_spec. intros q z Hq. destruct (decide (q = g)) as [->|Hqg]; [rewrite lookup_insert_eq; congruence|].
    assert (q ≠ b ∧ q ≠ i) as [Hqb Hqi] by (split; intros ->; congruence). rewrite !lookup_insert_ne by done.
    apply Hold; [done|done|]. by rewrite Hmap, !lookup_insert_ne.
  - split; [done|]. exists k1. split; [done|]. rewrite !lookup_insert_ne by done. apply Hold; [done|done|].
    by rewrite Hmap, lookup_insert_ne, lookup_insert_eq.
  - split; [exists k2; split; [done|by rewrite lookup_insert_ne, lookup_insert_eq]|done|done|by eapply fresh_object].
  - intros q. rewrite lookup_insert. case_decide as E; [subst q; intros _; left; by exists n|].
    rewrite lookup_insert. case_decide as E'; [by right; right; left|]. intros [Hq|Hq]%Hbl; [|by right; right; right].
    rewrite !lookup_delete_ne, Hmap, lookup_insert_ne, lookup_insert in Hq by done.
    case_decide as E''; [by right; left|by left].
Qed.

Lemma start_init_ok sym fuel K bs comp rootfs inode init_path v p n dir dfuel ffuel sfuel ino F size nblk ky KU kg LK kvs
    (FS := rootfs_files spin ffuel sfuel rootfs comp inode) (s := c_machine (k_console K)) :
  start_pre K bs comp rootfs init_path v p n →
  has_room sizeof_task_struct bs → has_room KERNEL_STACK_SIZE (after sizeof_task_struct bs) →
  namei_room (v_bsz v) (init_blocks bs) → read_room (v_bsz v) (nblk * v_bsz v) (init_blocks bs) →
  walkable (disk (drive s)) v dir dfuel (components p) EXT2_ROOT_INO →
  (length (components p) + dfuel < ffuel)%nat → (256 ≤ sfuel)%nat →
  resolve dir (components p) EXT2_ROOT_INO = Some ino →
  file_on_drive (disk (drive s)) v ino F size nblk → elf_ok F 0 size →
  kernel_map sym (env K) ky KU kg LK kvs → (∀ u, u ∈ kvs → ¬ reg u) → (length LK ≤ fuel)%nat →
  (5 * (total_pages kvs + segs_pages (load_segments F 0) + 32) ≤ frame_avail (frames (env K)))%nat →
  56 * Z.of_nat (length LK) + 120 * Z.of_nat (length (load_segments F 0)) + 168 < KERNEL_BRK_LIMIT - kernel_brk (c_heap (k_console K)) →
  wp (start_init sym fuel (λ t, in_tty (λ _, tty_install_stdin_stdout t)) init_path) K
    (λ _ K', ∃ init t a x T f L B, init_running F K K' init t a x ∧ kernel_inv K' ∧
      program F 0 (load_segments F 0) kvs kg (env K) (env K') a x T f L ∧ untouched (env K) (env K') a T ∧
      init_heap_of (live_map bs) K' init t a L B ∧
      ∀ y, image_byte comp y → ld8 (c_mem (k_console K')) y = ld8 (c_mem (k_console K)) y).
Proof.
  intros Hpre Hr1 Hr2 Hr3 Hr4 Hwalk Hf1 Hf2 Hres Hfile Helf Hk Hkvs Hfuel Hav Hspace.
  unfold start_init, create_init. apply wp_bind, wp_bind2.
  eapply wp_mono; [by apply (new_init_ok sym fuel K bs comp rootfs init_path v p n)|].
  intros i K1 (h & bottom & k1 & k2 & -> & Hpre1 & Hh & Hbrk & [Hk1 Hl1] & [Hk2 Hl2] & Hclient).
  pose proof (np_ok _ _ _ _ _ _ _ (sp_namei _ _ _ _ _ _ _ _ Hpre)) as (_ & _ & Hh0).
  change (heap_ok (c_heap (k_console K)) bs) in Hh0.
  destruct (init_blocks_map bs h i k1 bottom k2 (heap_pos _ _ Hh0) Hh Hl1 Hl2) as (Hmap & Hb0 & Hi0 & Hbi).
  assert (∀ x, global_tty (k_console K) ≤ x < global_tty (k_console K) + n → ld8 (h_mem h) x = ld8 (c_mem (k_console K)) x) as Hsame.
  { intros y Hy. apply Hclient. left. exists (global_tty (k_console K), n). split; [apply (sp_tty _ _ _ _ _ _ _ _ Hpre)|done]. }
  assert (live_map bs !! global_tty (k_console K) = Some n) as Hg0
    by (apply live_map_lookup; [apply (heap_pos _ _ Hh0)|apply (sp_tty _ _ _ _ _ _ _ _ Hpre)]).
  assert (∀ y, comp ≤ y < comp + 256 → ¬ (bottom ≤ y < bottom + k2)) as Hcb.
  { intros y Hy. apply (le_keep _ _ _ _ Hl2). apply (le_keep _ _ _ _ Hl1).
    by apply (np_comp _ _ _ _ _ _ _ (sp_namei _ _ _ _ _ _ _ _ Hpre)). }
  set (K1 := with_heap h K) in *. set (K2 := with_task i (bare_task bottom) K1).
  assert (env K2 = env K1) as He2 by apply env_with_task.
  assert (k_console K2 = k_console K1) as Hc2 by (unfold k_console; by rewrite He2).
  assert (c_heap (k_console K1) = h) as Hc1 by apply c_heap_with.
  assert (drive (c_machine (k_console K1)) = drive s) as Hd1 by (unfold K1; by rewrite console_with_heap).
  assert (env K1 = set_kheap (set_c_heap h (k_console K)) (env K)) as He1 by apply env_set.
  destruct Hpre1 as [Hn1 Ht1 Hi1 [Hw1 Hb1] HT1]. set (bs1 := init_blocks bs) in *.
  set (g := global_tty (k_console K1)) in *.
  assert (global_tty (k_console K) = g) as Egg by (unfold g, K1; by rewrite console_with_heap). rewrite Egg in Hsame.
  set (HLT := start_laws g comp (c_mem (k_console K1)) n bottom k2). set (B1 := start_blocks bs1 (k_console K1) bottom).
  assert (bottom ≠ g) as Hbg by (intros ->; rewrite <- Egg in Hb0; congruence).
  assert (live_map bs1 !! g = Some n ∧ live_map bs1 !! bottom = Some k2) as [Hg1 Hb1'].
  { rewrite Hmap, lookup_insert_eq, lookup_insert_ne, lookup_insert_ne, <- Egg by congruence. by split. }
  assert (other_block bs1 comp (k_console K1) bottom k2) as Hother
    by (split; [apply live_map_lookup; [apply (heap_pos _ _ Hh)|done]|done|exact Hcb]).
  assert (objects_ok (HL := HLT) (env K2) B1) as Ho.
  { rewrite He2. replace (env K1) with (set_kheap (k_console K1) (env K1)) by (unfold k_console; by destruct (env K1)).
    apply image_objects_at; [exact Hi1|]. by apply start_laws_inv; [rewrite Hc1|..]. }
  pose proof (start_lends K2 bs1 comp n bottom k2) as Hlend. rewrite Hc2 in Hlend.
  specialize (Hlend ltac:(by rewrite Hc1) Ht1 Hother).
  destruct (exec_on_drive spin spin_pos HLT B1 sym fuel K2 bs1 i (bare_task bottom) rootfs comp inode init_path v p dir dfuel ffuel sfuel ino F size nblk
    ky KU kg LK kvs) as (K4 & a & x & T & f & L & B' & Hrun & HT4 & Hfresh & Ho4 & Hp & Hu & Hbl);
    rewrite ?Hc2, ?He2, ?Hd1; try done.
  { unfold K2, with_task. by rewrite tasks_set, lookup_singleton_eq. }
  { rewrite <- He2. exact Ho. }
  { rewrite He1. destruct Hk as [[A1 A2] [A3 A4] A5 A6]. split; [by split|by split|done|done]. }
  { by rewrite He1. }
  { rewrite Hc1, Hbrk. exact Hspace. }
  assert (files K4 = files K) as Hfiles.
  { apply (keeps_run _ _ _ _ _ _ (exec_elf_files (FS := FS) (files K) sym fuel i init_path)) in Hrun as [Hrun' _]; [exact Hrun'|].
    unfold K2, K1, with_task, with_heap. by destruct K. }
  apply wp_bind, wp_run. exists tt, K4. split; [exact Hrun|].
  assert (tasks K4 = {[i := exec_task a F 0 (bare_task bottom)]}) as HT5.
  { rewrite HT4. unfold K2, with_task. by rewrite tasks_set, insert_singleton_eq. }
  rewrite (with_task_eq _ _ _ HT5). pose proof (ob_heap _ _ Ho4) as (((Hi4 & Hg4 & Himg4) & Hng4 & Hbytes) & Hnb4 & _).
  fold (k_console K4) in Hi4, Hg4, Himg4.
  assert (∀ y, g ≤ y < g + n → ld8 (c_mem (k_console K4)) y = ld8 (c_mem (k_console K1)) y) as Hby by exact Hbytes.
  assert (∀ o, 0 ≤ o → o + 8 ≤ sizeof_tty →
    (∀ k, (k ≤ 8)%nat → ld k (c_mem (k_console K4)) (g + o) = ld k (c_mem (k_console K)) (g + o)) ∧
    (∀ k, (k ≤ 8)%nat → ld k (c_mem (k_console K4)) (g + o) = ld k (c_mem (k_console K1)) (g + o))) as Hld.
  { pose proof (tb_size _ _ _ _ Ht1) as Hsz. intros o Ho1 Ho2. split; intros k Hk8; apply ld_ext; intros y Hy.
    - rewrite Hby by lia. unfold K1. rewrite console_with_heap. apply Hsame. lia.
    - apply Hby. lia. }
  apply (finish_ok K4 i bottom a F x); [apply (pr_wf _ _ _ _ _ _ _ _ _ _ _ _ Hp)|].
  set (t := final_task i bottom a (tty_stdin (k_console K4)) (tty_stdout (k_console K4)) F).
  set (K' := set_cpu _ _ _ _ _).
  assert (env K' = env K4) as He' by (unfold K', with_task; by destruct K4).
  assert (init_running F K K' i t a x) as Hrunning.
  { assert (tty_stdin (k_console K4) = tty_stdin (k_console K) ∧ tty_stdout (k_console K4) = tty_stdout (k_console K)) as [Es Eo].
    { unfold tty_stdin, tty_stdout. rewrite Hg4, Egg.
      split; [exact (proj1 (Hld 1040 ltac:(lia) ltac:(done)) 8%nat ltac:(lia))|exact (proj1 (Hld 1048 ltac:(lia) ltac:(done)) 8%nat ltac:(lia))]. }
    assert (fdtab t = tty_stdin (k_console K) :: tty_stdout (k_console K) :: replicate 14 0) as Hfd by (by rewrite <- Es, <- Eo).
    split; [unfold K', with_task; by destruct K4|unfold K', with_task; rewrite <- Hfiles; by destruct K4|
      unfold K', with_task; by destruct K4|done|done|exact Hfd|split; [done|unfold K', with_task; by destruct K4]|].
    split; [done|]. split; [done|]. unfold K', with_task. by destruct K4. }
  assert (k_console K' = k_console K4) as Hc' by (unfold k_console; by rewrite He').
  exists i, t, a, x, T, f, L, (<[g := n]> (<[bottom := k2]> B')). split; [exact Hrunning|]. split; [|split; [|split; [|split]]].
  - eapply alone_inv; [exact Hrunning|..].
    + unfold waiting, tty_waiting in *. rewrite Hc', Hg4. rewrite <- Hw1.
      exact (proj2 (Hld 1032 ltac:(lia) ltac:(done)) 8%nat ltac:(lia)).
    + unfold tty_bufi in *. rewrite Hc', Hg4. replace (ld32 (c_mem (k_console K4)) _) with (ld32 (c_mem (k_console K1)) (g + field_of false tty "bufi")); [exact Hb1|].
      symmetry. exact (proj2 (Hld 0 ltac:(lia) ltac:(done)) 4%nat ltac:(lia)).
  - rewrite He'. destruct Hp as [P1 P2 P3 P4]. rewrite He2, He1 in P2, P3. split; [exact P1|exact P2|exact P3|exact P4].
  - rewrite He'. destruct Hu as [U1 U2]. rewrite He2, He1 in U1, U2. split; [|exact U2]. intros b y U g' [Hy1 Hy2]. by apply U1.
  - eapply (start_heap_of HLT K' bs bs1 i k1 bottom k2); try done; rewrite ?He', ?Hc'; try done.
    all: destruct (live_range (c_heap (k_console K1)) (live_map bs1) bottom k2) as (_ & ? & ?);
      [rewrite Hc1; by exists bs1|done|first [lia|by rewrite <- Egg]].
  - intros y Hy. rewrite Hc', Himg4 by done. unfold K1. rewrite console_with_heap. apply Hclient.
    by apply (image_path_byte bs comp (c_heap (k_console K))).
Qed.

(** C5: [start_init] starts the first program.  On a kernel with nothing but its
    image, the terminal and the mounted file system, for a path that leads by
    whole names to a well-formed ELF file (not empty, of at most 12 + bsz/4
    blocks, no inode on the way the last of its group, no directory on the way
    with a shorter name that the component starts with: [walkable],
    [file_on_drive]), with room in the heap and enough
    frames: the task that it makes is alone on the ring, with process id 1, the
    terminal's two files, and an address space that holds the program that the
    drive has under the path, with the registers of its entry point.  Its kernel
    stack is a block of the heap of at least 8 KiB that was free before and
    holds no other object; besides it only the task and the objects of the
    address space have been added to the blocks in use.  The processor's stack
    and page tables are that task's, and the state satisfies the invariant of
    the running kernel ([kernel_inv]). *)
Theorem start_init_spec sym fuel K bs comp rootfs inode init_path v p n dir dfuel ffuel sfuel ino F size nblk ky KU kg LK kvs
    (FS := rootfs_files spin ffuel sfuel rootfs comp inode) (s := c_machine (k_console K))
    (Hpre : start_pre K bs comp rootfs init_path v p n)
    (Htask : has_room sizeof_task_struct bs ∧ has_room KERNEL_STACK_SIZE (after sizeof_task_struct bs))
    (Hroom : namei_room (v_bsz v) (init_blocks bs) ∧ read_room (v_bsz v) (nblk * v_bsz v) (init_blocks bs))
    (Hwalk : walkable (disk (drive s)) v dir dfuel (components p) EXT2_ROOT_INO)
    (Hffuel : (length (components p) + dfuel < ffuel)%nat ∧ (256 ≤ sfuel)%nat)
    (Hres : resolve dir (components p) EXT2_ROOT_INO = Some ino)
    (Hfile : file_on_drive (disk (drive s)) v ino F size nblk) (Helf : elf_ok F 0 size)
    (Hk : kernel_map sym (env K) ky KU kg LK kvs) (Hkvs : ∀ u, u ∈ kvs → ¬ reg u) (Hfuel : (length LK ≤ fuel)%nat)
    (Hav : (5 * (total_pages kvs + segs_pages (load_segments F 0) + 32) ≤ frame_avail (frames (env K)))%nat)
    (Hspace : 56 * Z.of_nat (length LK) + 120 * Z.of_nat (length (load_segments F 0)) + 168 <
      KERNEL_BRK_LIMIT - kernel_brk (c_heap (k_console K))) :
  ∃ K' init t a x T f L B,
    start_init sym fuel (λ t, in_tty (λ _, tty_install_stdin_stdout t)) init_path K = Ok (tt, K') ∧
    init_running F K K' init t a x ∧ kernel_inv K' ∧
    program F 0 (load_segments F 0) kvs kg (env K) (env K') a x T f L ∧ untouched (env K) (env K') a T ∧
    init_heap_of (live_map bs) K' init t a L B.
Proof.
  destruct Htask, Hroom, Hffuel.
  assert (wp (start_init sym fuel (λ t, in_tty (λ _, tty_install_stdin_stdout t)) init_path) K
    (λ _ K', ∃ init t a x T f L B, init_running F K K' init t a x ∧ kernel_inv K' ∧
      program F 0 (load_segments F 0) kvs kg (env K) (env K') a x T f L ∧ untouched (env K) (env K') a T ∧
      init_heap_of (live_map bs) K' init t a L B ∧
      ∀ y, image_byte comp y → ld8 (c_mem (k_console K')) y = ld8 (c_mem (k_console K)) y)) as Hw
    by by apply (start_init_ok sym fuel K bs comp rootfs inode init_path v p n dir dfuel ffuel sfuel ino F size nblk ky KU kg LK kvs).
  apply wp_run in Hw as ([] & K' & Hrun & i & t & a & x & T & f & L & B & R1 & R2 & R3 & R4 & R5 & _).
  exists K', i, t, a, x, T, f, L, B. by split_and!.
Qed.
End start.

(** ** "/bin/sh" as the first program

    The drive of [ExecDrive], a machine with 80 MiB of memory, and a heap in which only the
    terminal has a block. *)
Definition ex_start_console (h : heap) : console sim :=
  Console (Term (drive (ex_disk_of ex_elf_image)) (Vgaterm ∅ 0 0 7 VGATERM_BUF_START)) (h_mem h)
    (heap_base h) (kernel_brk h) true (KERNEL_BRK_START + sizeof_block).
Definition ex_start_ram : mmap_region := Region 0x200000 20000.
Definition ex_start_frames : pmm := Pmm (pmm_init_regions ∅ [ex_start_ram]) [ex_start_ram].

Lemma ex_start_avail : frame_inv ex_start_frames ∧ (Z.to_nat 19999 ≤ frame_avail ex_start_frames)%nat.
Proof.
  assert (regions_ok [ex_start_ram]) as Hrs.
  { split.
    - intros r ->%list_elem_of_singleton. split_and!; by vm_compute.
    - intros r1 r2 ->%list_elem_of_singleton ->%list_elem_of_singleton. by left. }
  destruct (pmm_init_regions_inv [ex_start_ram] ∅ Hrs) as (Hi & Hf & _). split; [exact Hi|].
  etrans; [|apply (region_avail ex_start_frames ex_start_ram Hi); [by apply list_elem_of_singleton|]].
  - assert (bmap_pages ex_start_ram = 1) as -> by by vm_compute. by change (pages ex_start_ram - 1) with 19999.
  - intros i Hp. apply Hf. exists ex_start_ram, i. split; [by apply list_elem_of_singleton|done].
Qed.

(** The kernel's map, on that memory. *)
Lemma start_map {D} {PO : PortOps D} (e0 : vm pmm (console D)) (k : nat) :
  frame_inv (frames e0) → image_zeroed MmInit.ex_image e0 → only_image e0 → (k + 5 * 1664 ≤ frame_avail (frames e0))%nat →
  ∃ e y U g L, kheap e = kheap e0 ∧ only_image e ∧ kernel_map MmInit.ex_image e y U g L kernel_areas ∧ length L = 3%nat ∧
    (k ≤ frame_avail (frames e))%nat.
Proof.
  intros Hi Hz Ho Ha. assert (5 * 1664 ≤ frame_avail (frames e0))%nat as Ha0 by lia.
  pose proof (kernel_mm_init_ok MmInit.ex_image ex_image_ok e0 Hi Hz Ha0) as Hw.
  apply wp_run in Hw as ([] & e & _ & y & U & DD & Hr).
  pose proof Hr as [Hmap _ _ _ Hkh _ _ _ Hav]. pose proof (ma_mm _ _ _ _ _ (km_at _ _ _ _ _ _ _ Hmap)) as Hy.
  exists e, y, U, (kernel_pages DD), (kernel_list MmInit.ex_image). split; [exact Hkh|].
  split; [exact (image_objects MmInit.ex_image e0 e y U DD ex_image_ok Ho Hr Hy)|]. split; [exact Hmap|]. split; [done|]. lia.
Qed.

Lemma kcalloc_run h0 bs n : heap_ok h0 bs → 0 < n < 2 ^ 64 → has_room n bs →
  ∃ p h k, kcalloc 1 n h0 = Ok (p, h) ∧ heap_ok h (after n bs) ∧ lent bs p k (after n bs) ∧
    ∀ x, client_byte bs x → ld8 (h_mem h) x = ld8 (h_mem h0) x.
Proof.
  intros Hok Hn Hr. pose proof (kcalloc_lent h0 bs 1 n Hok) as Hw. rewrite Z.mul_1_l in Hw. specialize (Hw Hn Hr).
  apply wp_run in Hw as (p & h & Hrun & Hh & (k & _ & Hl) & Hm). by exists p, h, k.
Qed.

(** [struct tty] is in a block of its own. *)
Definition ex_tty_ready (r : result (Z * heap)) : bool :=
  match r with
  | Ok (p, h) => bool_decide (p = KERNEL_BRK_START + sizeof_block ∧
      waiting (Sched (Vm ex_start_frames (ex_start_console h) ∅ ∅ ∅) ∅ ∅ 0 0 0 0 0 0 0) = 0 ∧ tty_bufi (ex_start_console h) = 0)
  | _ => false
  end.
Lemma ex_start_heap : ∃ h, heap_ok h (after sizeof_tty ex_blocks) ∧ start_pre (Sched (Vm ex_start_frames (ex_start_console h) ∅ ∅ ∅) ∅ ∅ 0 0 0 0 0 0 0)
  (after sizeof_tty ex_blocks) 8192 256 3500 ex_view [98; 105; 110; 47; 115; 104] sizeof_tty.
Proof.
  destruct (kcalloc_run (init_heap ex_fs_mem) ex_blocks sizeof_tty (init_heap_ok _) ltac:(done) ltac:(left; by vm_compute))
    as (p & h & k & Hrun & Hh & Hl & Hm).
  assert (ex_tty_ready (kcalloc 1 sizeof_tty (init_heap ex_fs_mem)) = true) as Hready by (vm_compute; reflexivity).
  rewrite Hrun in Hready. apply bool_decide_eq_true in Hready as (-> & Hwait & Hbuf).
  exists h. split; [exact Hh|]. split.
  - eapply (namei_pre_lent ex_blocks _ _ k _ _ _ _ _ (ex_disk_of ex_elf_image)); [apply ex_namei_pre; by vm_compute|exact Hl|done| |exact Hm].
    by destruct h.
  - split.
    + change (global_tty _) with (KERNEL_BRK_START + sizeof_block).
      assert (live (after sizeof_tty ex_blocks) = [(KERNEL_BRK_START + sizeof_block, sizeof_tty)]) as -> by by vm_compute.
      by apply list_elem_of_singleton.
    + done.
    + intros x Hx. simpl. unfold KERNEL_BRK_START, sizeof_block. lia.
  - split_and!; intros a [y Hy]; simpl in Hy; by rewrite lookup_empty in Hy.
  - split; [exact Hwait|]. change (k_console _) with (ex_start_console h). rewrite Hbuf. clear. by vm_compute.
  - done.
Qed.

Lemma start_init_spec_witness : ∃ (K K' : sched (vm pmm (console sim))) init t,
  start_init (FS := rootfs_files 3 6 256 256 8192 0) MmInit.ex_image 3 (λ t, in_tty (λ _, tty_install_stdin_stdout t)) 3500 K = Ok (tt, K') ∧
  tasks K' = {[init := t]} ∧ rip (task_regs t) = 0x400078 ∧ kernel_inv K'.
Proof.
  destruct ex_start_heap as (h & Hh & [P1 P2 _ P4 _]). set (c := ex_start_console h) in *.
  destruct ex_start_avail as [Hi Ha].
  destruct (start_map (ex_image_objects c ex_start_frames) (Z.to_nat 11679) Hi (ex_image_zeroed _ _) (ex_image_only _ _))
    as (e & ky & KU & kg & LK & Hkh & Ho & Hk & HLK & Hav); [change (frames (ex_image_objects c ex_start_frames)) with ex_start_frames; lia|].
  change (kheap (ex_image_objects c ex_start_frames)) with c in Hkh.
  set (K := Sched e ∅ ∅ 0 0 1000 0 0 0 0).
  assert (k_console K = c) as Hc by exact Hkh.
  assert (start_pre K (after sizeof_tty ex_blocks) 8192 256 3500 ex_view [98; 105; 110; 47; 115; 104] sizeof_tty) as Hpre.
  { split; [rewrite Hc; exact P1|rewrite Hc; exact P2|exact Ho| |reflexivity]. unfold waiting in *. rewrite Hc. exact P4. }
  assert (has_room sizeof_task_struct (after sizeof_tty ex_blocks) ∧
    has_room KERNEL_STACK_SIZE (after sizeof_task_struct (after sizeof_tty ex_blocks))) as Htask
    by (split; repeat first [left; by vm_compute|right]).
  assert (namei_room (v_bsz ex_view) (init_blocks (after sizeof_tty ex_blocks)) ∧
    read_room (v_bsz ex_view) (1 * v_bsz ex_view) (init_blocks (after sizeof_tty ex_blocks))) as Hroom
    by (split; split_and!; repeat first [left; by vm_compute|right]).
  assert (walkable (disk (drive (c_machine (k_console K)))) ex_view ex_dir 3 (components [98; 105; 110; 47; 115; 104]) EXT2_ROOT_INO) as Hwalk.
  { rewrite Hc. apply (ex_walkable ex_elf_image);
      [change (disk_block _ _ 0 * 1024) with 5120|change (disk_block _ _ 0 * 1024) with 6144]; ex_solve. }
  assert (file_on_drive (disk (drive (c_machine (k_console K)))) ex_view 4 (put_bytes ∅ 0 ex_elf) 124 1) as Hfile by (rewrite Hc; exact ex_elf_file).
  assert (∀ u, u ∈ kernel_areas → ¬ reg u) as Hkvs.
  { unfold kernel_areas. intros u Hu. rewrite !elem_of_cons in Hu. destruct Hu as [-> | [-> | [-> | Hu]]]; [done..|by apply not_elem_of_nil in Hu]. }
  assert (5 * (total_pages kernel_areas + segs_pages (load_segments (put_bytes ∅ 0 ex_elf) 0) + 32) ≤ frame_avail (frames (env K)))%nat as Hf.
  { rewrite ex_elf_segments. change (frames (env K)) with (frames e). etrans; [|exact Hav].
    apply Nat2Z.inj_le. rewrite Z2Nat.id by lia. by vm_compute. }
  assert (56 * Z.of_nat (length LK) + 120 * Z.of_nat (length (load_segments (put_bytes ∅ 0 ex_elf) 0)) + 168 <
      KERNEL_BRK_LIMIT - kernel_brk (c_heap (k_console K))) as Hspace.
  { rewrite Hc, HLK, ex_elf_segments. change (kernel_brk (c_heap c)) with (kernel_brk h). rewrite (hk_brk _ _ Hh). by vm_compute. }
  assert (resolve ex_dir (components [98; 105; 110; 47; 115; 104]) EXT2_ROOT_INO = Some 4) as Hres by by vm_compute.
  assert (elf_ok (put_bytes ∅ 0 ex_elf) 0 124) as Helf by by apply ex_elf_ok.
  assert (length LK ≤ 3)%nat as HLK3 by (rewrite HLK; apply Nat.le_refl).
  assert ((length (components [98; 105; 110; 47; 115; 104]%Z) + 3 < 6)%nat ∧ (256 ≤ 256)%nat) as Hff by (simpl; lia).
  pose proof ex_polls as Hspin.
  pose proof (start_init_spec 3 Hspin MmInit.ex_image 3 K (after sizeof_tty ex_blocks) 8192 256 0 3500 ex_view
    [98; 105; 110; 47; 115; 104] sizeof_tty ex_dir 3 6 256 4 (put_bytes ∅ 0 ex_elf) 124 1 ky KU kg LK kernel_areas
    Hpre Htask Hroom Hwalk Hff Hres Hfile Helf Hk Hkvs HLK3 Hf Hspace) as Hw.
  destruct Hw as (K' & i & t & a & x & T & f & L & B & Hrun & [R1 _ _ _ [R5 _] _ _ _] & Hinv & _).
  exists K, K', i, t. split; [exact Hrun|]. split; [exact R1|]. split; [rewrite R5; apply ex_elf_header|exact Hinv].
Defined.
