(* ===== verification/OpenDrive.v ===== *)
(** [do_open] of [fs/open.c] on the kernel's own state, with the ext2 file system
    of [Ext2Path] and [Ext2Files] underneath: what a descriptor leads to, stated
    of the directories and the inodes on the drive. *)

From S2P Require Import Prelude Layout Memory CString Interfaces Pmm PageTable Kmalloc Heap Mm MmSpec MmInit MmProps Sched.
From S2P Require Import Ata Ext2 Ext2Files Ext2Path Vga Tty Exec ExecSpec Rootfs Syscall SyscallProps Kernel ExecDrive StartInit.

Lemma ld16_ld8 m a : ld16 m a = ld8 m a + 256 * ld8 m (a + 1).
Proof. unfold ld16. cbn [ld]. lia. Qed.

(** One more block in use. *)
Lemma live_map_cons h bs bs' p n :
  heap_ok h bs' → live bs' ≡ₚ (p, n) :: live bs → live_map bs' = <[p := n]> (live_map bs) ∧ live_map bs !! p = None.
Proof.
  intros Hh Hl. pose proof (live_keys bs' (heap_pos _ _ Hh)) as Hnd. pose proof Hnd as Hnd'. rewrite Hl, fmap_cons in Hnd'.
  apply list.NoDup_cons in Hnd' as [Hni _]. split; [|by apply not_elem_of_list_to_map_1]. unfold live_map.
  change (<[p := n]> (list_to_map (live bs) : gmap Z Z)) with (list_to_map ((p, n) :: live bs) : gmap Z Z).
  by apply list_to_map_proper.
Qed.

Section opendrive.
Context {D : Type} {PO : PortOps D} {AD : AtaDrive D} (spin : nat).
Hypothesis spin_pos : (ata_polls (D := D) < spin)%nat.
Abbreviation kst := (sched (vm pmm (console D))).
Implicit Types (K : kst) (s : machine D) (F : gmap Z file) (T : Sched.store).
Variable ops_at : fops.

(** [K] with the drive and the heap [s], the open files [F] and the tasks [T]. *)
Definition opening K s F T : kst :=
  set_tasks T (set_files F (set_env (set_kheap (set_c_machine s (k_console K)) (env K)) K)).

Lemma opening_self K : opening K (c_machine (k_console K)) (files K) (tasks K) = K.
Proof. by destruct K as [[? [[] []]]]. Qed.
Lemma opening_machine K s F T : c_machine (k_console (opening K s F T)) = s.
Proof. by destruct s as [? []], K as [[? [[] []]]]. Qed.
Lemma opening_again K s s' F T :
  set_env (set_kheap (set_c_machine s' (k_console (opening K s F T))) (env (opening K s F T))) (opening K s F T) = opening K s' F T.
Proof. by destruct s as [? []], K as [[? [[] []]]]. Qed.
Lemma opening_files K s F F' T : set_files F' (opening K s F T) = opening K s F' T.
Proof. by destruct K. Qed.
Lemma opening_tasks K s F T T' : set_tasks T' (opening K s F T) = opening K s F T'.
Proof. by destruct K. Qed.
Lemma opening_fields K s F T :
  files (opening K s F T) = F ∧ tasks (opening K s F T) = T ∧ current (opening K s F T) = current K ∧
  env (opening K s F T) = set_kheap (set_c_machine s (k_console K)) (env K).
Proof. by destruct K as [[]]. Qed.

(** A step of the machine is a step of the kernel. *)
Lemma wpp_machine {A} (m : M (machine D) A) K s F T Q P :
  wpp m s (λ a s', Q a (opening K s' F T)) P → wpp (in_env (in_kheap (in_machine m))) (opening K s F T) Q P.
Proof.
  unfold wpp, in_env, in_kheap, in_machine, zoom. fold (k_console (opening K s F T)). rewrite opening_machine.
  destruct (m s) as [[a s']| | |]; [|done..]. intros HQ. by rewrite opening_again.
Qed.

(** [p] is the file [f]. *)
Lemma opening_get K s F T p f Q P : F !! p = Some f → Q f (opening K s F T) → wpp (get_file p) (opening K s F T) Q P.
Proof. intros Hf HQ. apply wpp_of_wp, (wp_get_file _ _ f); [|done]. by rewrite (proj1 (opening_fields K s F T)). Qed.
Lemma opening_put K s F T p f (Q : unit → kst → Prop) P :
  Q tt (opening K s (<[p := f]> F) T) → wpp (put_file p f) (opening K s F T) Q P.
Proof.
  intros HQ. apply wpp_of_wp, wp_put_file. rewrite (proj1 (opening_fields K s F T)), opening_files. exact HQ.
Qed.

(** The mode of an inode in memory is that on the drive. *)
Lemma held_mode dk m i pos : held dk m i pos sizeof_ino → i_mode m i = disk_mode dk pos.
Proof.
  intros H. unfold i_mode, disk_mode. rewrite ld16_ld8. change (field_of true ext2_ino "i_mode") with 0. rewrite Z.add_0_r.
  pose proof (H 0 ltac:(done)) as H0. rewrite !Z.add_0_r in H0. rewrite H0, (H 1) by done. done.
Qed.

(** The inode of the new file chooses its table; its buffer is given back. *)
Lemma open_inode_ok spin' fuel sfuel fs comp inode K s F T bs v p ino
    (FS := rootfs_files spin' fuel sfuel fs comp inode) (dk := disk (drive s)) (mode := disk_mode dk (ino_pos v ino)) :
  spin' = spin → machine_ok s bs → view_ok v → fs_in (client_byte bs) (s_mem s) fs v → ino_ok v ino →
  has_room sizeof_ino bs → has_room 512 (after sizeof_ino bs) → F !! p = Some (File 0 ino 0) →
  wpp (open_inode ops_at p) (opening K s F T) (λ _ K', ∃ o s', open_ops ops_at mode = Some o ∧
      K' = opening K s' (<[p := File o ino 0]> F) T ∧ machine_ok s' bs ∧ disk (drive s') = dk ∧ ∀ x, client_byte bs x → ld8 (s_mem s') x = ld8 (s_mem s) x)
    (open_ops ops_at mode = None).
Proof.
  intros -> Hok Hv Hfs Hino Hr1 Hr2 Hf. unfold open_inode.
  apply wpp_bind_wpp, (wpp_machine (in_heap (kcalloc 1 sizeof_ino))), wpp_of_wp.
  eapply wp_mono; [by apply (alloc_inode_ok spin spin_pos bs s)|]. intros i s1 Hi. apply wpp_bind_wpp, (opening_get _ _ _ _ _ _ _ _ Hf).
  apply wpp_bind_wpp, (wpp_machine (ext2_get_inode spin fs i ino)), wpp_of_wp.
  eapply wp_mono; [by apply (fill_inode_ok spin spin_pos bs fs v ino s i s1)|].
  intros [] s2 (Hok2 & Hk2 & Hi0 & (n & Hn & Hl) & _ & Hh2 & Hm2).
  apply wpp_step, wp_in_env, wp_gets. rewrite set_env_same.
  assert (i_mode (heap_bytes (kheap (env (opening K s2 F T)))) i = mode) as ->.
  { change (i_mode (s_mem (c_machine (k_console (opening K s2 F T)))) i = mode). rewrite opening_machine. by apply held_mode. }
  apply wpp_bind_wpp, (set_mode_ops_ok ops_at _ p ino); [by rewrite (proj1 (opening_fields K s2 F T))|].
  intros o Ho. rewrite (proj1 (opening_fields K s2 F T)), opening_files.
  apply (wpp_machine (in_heap (free i))), wpp_of_wp, wp_in_heap. destruct Hok2 as (Hd2 & Ht2 & Hh).
  eapply wp_mono; [apply (free_lent (hp s2) _ i n (live bs) Hh (le_live _ _ _ _ Hl))|].
  intros _ h (bs3 & Hh3 & Hl3 & Hs3 & Hm3). exists o, (Machine (drive s2) h).
  assert (bs3 = bs) as -> by (apply (blocks_unique (hp s) h); [apply Hok|done|done|rewrite Hs3; apply (le_span _ _ _ _ Hl)]).
  split_and!; try done. intros x Hx. unfold s_mem at 1. cbn [hp]. rewrite Hm3 by done. by apply Hm2.
Qed.

(** The inode at the end of a walk is one that [ext2_get_inode] finds. *)
Lemma walkable_ino_ok dk v dir dfuel cs : ∀ i ino,
  walkable dk v dir dfuel cs i → ino_ok v i → resolve dir cs i = Some ino → ino_ok v ino.
Proof.
  induction cs as [|c cs IH]; intros i ino; [by intros _ ? [= <-]|]. cbn [walkable resolve].
  destruct (lookup_name c (dir i)) as [j|]; [|done]. intros (_ & _ & _ & _ & Hj & Hw) _. by apply IH.
Qed.

(** Room for the file, for the buffers of the lookup and for the inode. *)
Definition open_room (bsz : Z) (bs : blocks) : Prop :=
  has_room sizeof_file bs ∧ namei_room bsz (after sizeof_file bs) ∧
  has_room sizeof_ino (after sizeof_file bs) ∧ has_room 512 (after sizeof_ino (after sizeof_file bs)).

(** [p] is a new file with the inode [ino] and the table [o], at the descriptor
    [i] of the current task [t]; the rest of the kernel is [K]'s. *)
Record opened K bs comp t i o ino K' p k : Prop := {
  op_tasks : tasks K' = <[current K := set_fdtab (<[Z.to_nat i := p]> (fdtab t)) t]> (tasks K);
  op_files : files K' = <[p := File o ino 0]> (files K) ∧ p ≠ 0 ∧ files K !! p = None;
  op_block : live_map bs !! p = None ∧ sizeof_file ≤ k;
  op_heap : kheap_inv (c_heap (k_console K')) (<[p := k]> (live_map bs));
  op_current : current K' = current K;
  op_env : env K' = set_kheap (set_c_machine (c_machine (k_console K')) (k_console K)) (env K);
  op_disk : disk (drive (c_machine (k_console K'))) = disk (drive (c_machine (k_console K)));
  op_bytes x : path_byte bs comp x → ld8 (c_mem (k_console K')) x = ld8 (c_mem (k_console K)) x;
}.

Lemma alloc_file_ok K bs (s := c_machine (k_console K)) (Q : Z → kst → Prop) P :
  machine_ok s bs → has_room sizeof_file bs → (∀ q, is_Some (files K !! q) → is_Some (live_map bs !! q)) →
  (∀ p k s1, p ≠ 0 → files K !! p = None → live_map bs !! p = None → sizeof_file ≤ k → lent bs p k (after sizeof_file bs) →
    drive s1 = drive s → heap_ok (hp s1) (after sizeof_file bs) → (∀ x, client_byte bs x → ld8 (s_mem s1) x = ld8 (s_mem s) x) →
    Q p (opening K s1 (<[p := File 0 0 0]> (files K)) (tasks K))) →
  wpp alloc_file K Q P.
Proof.
  intros (_ & _ & Hok) Hr Hfiles HQ. rewrite <- (opening_self K) at 1. fold s. unfold alloc_file.
  apply wpp_bind_wpp, (wpp_machine (in_heap (kcalloc 1 sizeof_file))), wpp_of_wp, wp_in_heap.
  eapply wp_mono; [apply (kcalloc_lent (hp s) bs 1 sizeof_file Hok); [done|exact Hr]|].
  change (1 * sizeof_file) with sizeof_file. intros p h (Hh & (k & Hk & Hl) & Hm). fold (after sizeof_file bs) in Hh, Hl.
  destruct (live_map_cons h bs _ p k Hh (le_live _ _ _ _ Hl)) as [_ Hp].
  assert (files K !! p = None) as Hnf by (apply eq_None_not_Some; intros Hs; destruct (Hfiles p Hs); congruence).
  pose proof (le_pos _ _ _ _ Hl) as Hpos. unfold KERNEL_BRK_START in Hpos.
  apply wpp_step, wp_gets. rewrite (proj1 (opening_fields K _ _ _)), decide_False by (rewrite Hnf; intros [?|[? ?]]; [lia|done]).
  apply wpp_bind_wpp, opening_put, wpp_ret. by apply (HQ p k (Machine (drive s) h)); [lia|..].
Qed.

Lemma do_open_ok fuel sfuel fs comp inode K bs t path v p dir dfuel
    (FS := rootfs_files spin fuel sfuel fs comp inode) (s := c_machine (k_console K)) (dk := disk (drive s)) :
  tasks K !! current K = Some t → (∀ q, is_Some (files K !! q) → is_Some (live_map bs !! q)) →
  namei_pre bs fs comp path v p s → open_room (v_bsz v) bs → ino_ok v EXT2_ROOT_INO →
  walkable dk v dir dfuel (components p) EXT2_ROOT_INO → (length (components p) + dfuel < fuel)%nat → (256 ≤ sfuel)%nat →
  wpp (do_open ops_at path) K (λ i K', ∃ ino o f k, resolve dir (components p) EXT2_ROOT_INO = Some ino ∧
      open_ops ops_at (disk_mode dk (ino_pos v ino)) = Some o ∧ free_fd (fdtab t) 0 = Some i ∧ opened K bs comp t i o ino K' f k)
    (resolve dir (components p) EXT2_ROOT_INO = None ∨ free_fd (fdtab t) 0 = None ∨
      ∃ ino, resolve dir (components p) EXT2_ROOT_INO = Some ino ∧ open_ops ops_at (disk_mode dk (ino_pos v ino)) = None).
Proof.
  intros Ht Hfiles Hpre (Hr1 & Hr2 & Hr3 & Hr4) Hroot Hwalk Hf1 Hf2. unfold do_open.
  apply wpp_bind_wpp, (alloc_file_ok K bs); [apply (np_ok _ _ _ _ _ _ _ Hpre)|done|done|].
  intros q k s1 Hq0 Hqf Hqb Hk Hl Hd1 Hh1 Hm1. set (bs1 := after sizeof_file bs) in *.
  assert (namei_pre bs1 fs comp path v p s1) as Hpre1 by by eapply (namei_pre_lent bs bs1 q k).
  assert (disk (drive s1) = dk) as Hk1 by by rewrite Hd1. rewrite <- Hk1 in Hwalk.
  apply wpp_bind_wpp; change (fs_namei path) with (in_machine (ext2_namei spin fuel sfuel comp fs path)); apply wpp_machine.
  eapply wpp_mono; [by apply (namei_outcome spin spin_pos bs1 fs comp path v p s1 dir dfuel fuel sfuel)| |by left].
  intros ino s2 (Hres & Hk2 & Hok2 & Hm2). rewrite Hk1 in Hk2.
  apply wpp_bind_wpp; eapply opening_get; [apply lookup_insert_eq|]. unfold set_ino. cbn [ops Sched.ino refcnt].
  apply wpp_bind_wpp, opening_put. rewrite insert_insert_eq. set (F := <[q := File 0 ino 0]> (files K)).
  destruct (opening_fields K s2 F (tasks K)) as (E1 & E2 & E3 & _).
  apply wpp_step, wp_gets. rewrite E3. apply wpp_step, (wp_tget fdtab _ _ t); [by rewrite E2|].
  destruct (free_fd (fdtab t) 0) as [i|] eqn:Hi; [|by right; left].
  apply wpp_step. unfold set_fd. apply wp_bind, (wp_tget fdtab _ _ t); [by rewrite E2|].
  apply wp_tset; [rewrite E2; eauto|]. rewrite E2, opening_tasks, <- (insert_alter _ _ _ t) by done.
  set (T := <[current K := _]> (tasks K)). apply wpp_bind_wpp.
  eapply wpp_mono; [apply (open_inode_ok spin fuel sfuel fs comp inode K s2 F T bs1 v q ino)|..]; try done.
  - apply (np_view _ _ _ _ _ _ _ Hpre).
  - apply (fs_in_weaken (path_byte bs1 comp)); [by intros x [? _]|].
    apply (fs_in_ext _ (s_mem s1)); [done|]. apply (np_fs _ _ _ _ _ _ _ Hpre1).
  - by eapply walkable_ino_ok.
  - apply lookup_insert_eq.
  - intros [] K' (o & s3 & Ho & -> & Hok3 & Hk3 & Hm3). apply wpp_ret. rewrite Hk2 in *. exists ino, o, q, k.
    do 3 (split; [done|]). destruct (opening_fields K s3 (<[q := File o ino 0]> F) T) as (G1 & G2 & G3 & G4).
    assert (∀ x, ld8 (c_mem (k_console (opening K s3 (<[q := File o ino 0]> F) T))) x = ld8 (s_mem s3) x) as Hmem
      by (intros x; change (ld8 (s_mem (c_machine (k_console (opening K s3 (<[q := File o ino 0]> F) T)))) x = ld8 (s_mem s3) x);
        by rewrite opening_machine).
    split; rewrite ?opening_machine; try done.
    + split; [|done]. rewrite G1. unfold F. by rewrite insert_insert_eq.
    + change (kheap_inv (hp (c_machine (k_console (opening K s3 (<[q := File o ino 0]> F) T)))) (<[q := k]> (live_map bs))).
      rewrite opening_machine. exists bs1. split; [apply Hok3|]. by destruct (live_map_cons (hp s1) bs bs1 q k Hh1 (le_live _ _ _ _ Hl)).
    + intros x [Hx Hxc]. destruct (le_keep _ _ _ _ Hl x Hx) as [Hx1 _]. rewrite Hmem, Hm3 by done.
      rewrite Hm2 by by split. by apply Hm1.
  - intros Ho. right; right. exists ino. rewrite Hk2 in Ho. by split.
Qed.


(** Closing the descriptor that [do_open] has just answered gives back the
    table of the task, the files and the blocks of before. *)
Theorem open_close_roundtrip fuel sfuel fs comp inode K bs t path v p dir dfuel ino i o
    (FS := rootfs_files spin fuel sfuel fs comp inode) (s := c_machine (k_console K)) (dk := disk (drive s))
    (Ht : tasks K !! current K = Some t) (Hfiles : ∀ q, is_Some (files K !! q) → is_Some (live_map bs !! q))
    (Hpre : namei_pre bs fs comp path v p s) (Hroom : open_room (v_bsz v) bs) (Hroot : ino_ok v EXT2_ROOT_INO)
    (Hwalk : walkable dk v dir dfuel (components p) EXT2_ROOT_INO)
    (Hfuel : (length (components p) + dfuel < fuel)%nat ∧ (256 ≤ sfuel)%nat)
    (Hres : resolve dir (components p) EXT2_ROOT_INO = Some ino) (Hi : free_fd (fdtab t) 0 = Some i)
    (Ho : open_ops ops_at (disk_mode dk (ino_pos v ino)) = Some o) :
  ∃ K1 K2, do_open ops_at path K = Ok (i, K1) ∧ do_close i K1 = Ok (0, K2) ∧
    tasks K2 = tasks K ∧ files K2 = files K ∧ kheap_inv (c_heap (k_console K2)) (live_map bs).
Proof.
  pose proof (do_open_ok fuel sfuel fs comp inode K bs t path v p dir dfuel Ht Hfiles Hpre Hroom Hroot Hwalk (proj1 Hfuel) (proj2 Hfuel)) as Hw.
  fold s dk in Hw. apply wpp_wp in Hw; [|intros [?|[?|(? & ? & ?)]]; congruence].
  apply wp_run in Hw as (i' & K1 & Hrun & ino' & o' & f & k & Hres' & Ho' & Hi' & [H1 [H2 [H2z H2n]] [H3 _] H4 H5 _ _ _]).
  assert (i' = i) as -> by congruence. destruct (free_fd_spec _ _ _ Hi) as (Hb & Hz & _). rewrite Z.sub_0_r in Hz.
  set (t1 := set_fdtab (<[Z.to_nat i := f]> (fdtab t)) t) in *.
  assert (fdtab t1 = <[Z.to_nat i := f]> (fdtab t)) as Hfd1 by (unfold t1; by destruct t).
  assert (tasks K1 !! current K1 = Some t1) as Ht1 by (by rewrite H5, H1, lookup_insert_eq).
  assert (fdtab t1 !! Z.to_nat i = Some f) as Hf1 by (rewrite Hfd1; apply list_lookup_insert_eq; by eapply lookup_lt_Some).
  assert (heap_inv (k_heap K1) (<[f := k]> (live_map bs))) as Hi1 by exact H4.
  destruct (proj1 (wp_run _ _ _) (do_close_ok K1 (<[f := k]> (live_map bs)) t1 i f (File o' ino' 0) k Hi1 Ht1 ltac:(lia) Hf1 H2z
    ltac:(by rewrite H2, lookup_insert_eq) ltac:(by rewrite lookup_insert_eq))) as (u & K2 & Hrun2 & -> & Ht2 & _ & Hf2 & Hi2).
  exists K1, K2. split; [done|]. split; [done|]. split; [|split].
  - rewrite Ht2, H5, H1, insert_insert_eq, Hfd1. unfold t1. apply insert_id. rewrite Ht. f_equal.
    rewrite list_insert_insert_eq, (list_insert_id _ _ _ Hz). by destruct t.
  - by rewrite Hf2, H2, delete_insert_id.
  - rewrite delete_insert_id in Hi2 by done. exact Hi2.
Qed.

(** Such a call is one of the steps of [Kernel]: the bytes of [struct tty], in a
    block of its own, stay. *)
Lemma opened_keeps_tty K bs comp t i o ino K' p k n :
  tty_block bs comp (k_console K) n → opened K bs comp t i o ino K' p k → tty_kept K K'.
Proof.
  intros [Hl Hn Hc] [_ _ _ _ _ He _ Hm].
  assert (global_tty (k_console K') = global_tty (k_console K)) as Hg by (unfold k_console at 1; by rewrite He).
  split; [exact Hg|]. intros x Hx. unfold tty_byte in Hx. apply Hm. split.
  - left. exists (global_tty (k_console K), n). split; [exact Hl|unfold payload; simpl; lia].
  - intros Hxc. apply (Hc x Hxc). lia.
Qed.
End opendrive.

(** ** "/bin/sh" of [ExecDrive]'s drive, with the mode of a regular file *)
Definition ex_open_image : mem := st16 ex_elf_image 4480 0x81a4.
Definition ex_open_console : console sim :=
  Console (Term (drive (ex_disk_of ex_open_image)) (Vgaterm ∅ 0 0 7 VGATERM_BUF_START)) (h_mem (init_heap ex_fs_mem))
    KERNEL_BRK_START (KERNEL_BRK_START + INIT_HEAP_SIZE) true 0.
Definition ex_open_kernel : sched (vm pmm (console sim)) :=
  Sched (Vm ex_start_frames ex_open_console ∅ ∅ ∅) {[4096 := zero_task]} ∅ 4096 4096 1000 0 0 0 0.

Lemma ex_open_room : open_room (v_bsz ex_view) ex_blocks.
Proof. unfold open_room, namei_room. split_and!; repeat first [left; by vm_compute|right]. Qed.
Lemma ex_open_pre : namei_pre ex_blocks 256 8192 3500 ex_view [98; 105; 110; 47; 115; 104] (c_machine (k_console ex_open_kernel)).
Proof. change (c_machine (k_console ex_open_kernel)) with (ex_disk_of ex_open_image). apply ex_namei_pre. by vm_compute. Qed.
Lemma ex_open_walkable :
  walkable (disk (drive (c_machine (k_console ex_open_kernel)))) ex_view ex_dir 3 (components [98; 105; 110; 47; 115; 104]) EXT2_ROOT_INO.
Proof.
  apply (ex_walkable ex_open_image);
    [change (disk_block _ _ 0 * 1024) with 5120|change (disk_block _ _ 0 * 1024) with 6144]; ex_solve.
Qed.
Lemma ex_open_mode : disk_mode (disk (drive (c_machine (k_console ex_open_kernel)))) (ino_pos ex_view 4) = 0x81a4.
Proof. by vm_compute. Qed.

