(* ===== verification/KernelMain.v ===== *)
(** [kernel_main] of [kernel/main.c] as a whole: from the state that the boot
    loader leaves to the first program.

    The steps of [Boot], [Gdt], [Idt], [Tty], [Asm], [Ext2Mount] and [StartInit]
    are put together on one machine; [Board] is what its devices promise one
    another: the ports of one do not disturb the drive. *)

From S2P Require Import Asm.
From S2P Require Import Prelude Layout Memory CString Interfaces Pmm PageTable AddressSpace Kmalloc Heap Mm MmSpec MmInit MmProps Sched ForkSpec.
From S2P Require Import Ata Ext2 Ext2Files Ext2Path Ext2Mount Gdt Vga Tty Idt Exec ExecSpec Rootfs Syscall Kernel Boot ExecDrive KernelProps StartInit.

(** ** The devices *)
Definition ata_port (p : Z) : Prop := ATA_DATA_REG ≤ p ≤ ATA_STATUS_COMMAND_REG.

(** The drive is idle and holds the bytes [dk]. *)
Definition idle {D : Type} {PO : PortOps D} {AD : AtaDrive D} (dk : Z → Z) (d : D) : Prop :=
  drive_ok d ∧ transfer d = None ∧ disk d = dk.

(** A port of another device does not disturb an idle drive; and the keyboard
    controller (8042) answers its self test with 0x55, after at most [kbc_polls]
    reads of its status. *)
Class Board (D : Type) {PO : PortOps D} {AD : AtaDrive D} := {
  board_outb dk d p v : ¬ ata_port p → idle dk d → wp (outb p v) d (λ _ d', idle dk d');
  board_inb dk d p : ¬ ata_port p → idle dk d → wp (inb p) d (λ _ d', idle dk d');
  kbc_answer : D → option nat;
  kbc_polls : nat;
  board_selftest d : wp (outb PS2_COMMAND 0xAA) d (λ _ d', ∃ n, kbc_answer d' = Some n ∧ (n ≤ kbc_polls)%nat);
  board_status d n : kbc_answer d = Some n → wp (inb PS2_STATUS) d (λ v d',
    match n with
    | O => Z.land v 1 ≠ 0 ∧ kbc_answer d' = Some O
    | S n' => Z.land v 1 = 0 ∧ kbc_answer d' = Some n'
    end);
  board_data d : kbc_answer d = Some O → wp (inb PS2_DATA) d (λ v _, v = 0x55);
}.

Lemma wp_also {S A} (m : M S A) s (Q : A → S → Prop) (I : S → Prop) :
  wp m s Q → keeps I m (λ _, True) → I s → wp m s (λ a s', Q a s' ∧ I s').
Proof. intros Hw Hk Hs. specialize (Hk s Hs). unfold wp in *. destruct (m s) as [[]| | |]; tauto. Qed.

Section main.
Context {D : Type} {PO : PortOps D} {AD : AtaDrive D} {CP : CrtPorts D} {PP : PicPorts D} {BD : Board D}.
Abbreviation kst := (sched (vm pmm (console D))).
Implicit Types (K : kst) (c : console D) (s : sched (console D)).
Variable dk : Z → Z.

Lemma crt_idle (d : D) p v : p = 0x3D4 ∨ p = 0x3D5 → idle dk d → wp (outb p v) d (λ _ d', idle dk d').
Proof. intros Hp. apply board_outb. unfold ata_port, ATA_DATA_REG, ATA_STATUS_COMMAND_REG. lia. Qed.

(** ** Stages of the boot

    [K] comes from [K0] by steps that touch only the console: of the bytes that
    [bs0] leaves to others only those in [W] have changed, and the heap is now
    [bs]. *)
Record stage (W : Z → Prop) (bs0 bs : blocks) K0 K : Prop := {
  sg_env : frames (env K) = frames (env K0) ∧ mms (env K) = mms (env K0) ∧ vmas (env K) = vmas (env K0) ∧ lis (env K) = lis (env K0);
  sg_tasks : tasks K = tasks K0;
  sg_files : files K = files K0;
  sg_tty : global_tty (k_console K) = global_tty (k_console K0);
  sg_heap : heap_ok (c_heap (k_console K)) bs;
  sg_term : term_ok (idle dk) (c_term (k_console K));
  sg_keep x : client_byte bs0 x → client_byte bs x;
  sg_mem x : client_byte bs0 x → ¬ W x → ld8 (c_mem (k_console K)) x = ld8 (c_mem (k_console K0)) x;
}.
Definition nothing (x : Z) : Prop := False.

Lemma stage_refl bs K : heap_ok (c_heap (k_console K)) bs → shown (idle dk) K → stage nothing bs bs K K.
Proof. intros Hh Ht. by split. Qed.

Lemma stage_trans W1 W2 bs0 bs1 bs2 K0 K1 K2 :
  stage W1 bs0 bs1 K0 K1 → stage W2 bs1 bs2 K1 K2 → stage (λ x, W1 x ∨ W2 x) bs0 bs2 K0 K2.
Proof.
  intros [(A1 & A2 & A3 & A4) B1 C1 D1 E1 F1 G1 H1] [(A1' & A2' & A3' & A4') B2 C2 D2 E2 F2 G2 H2].
  split; [split_and!|..]; try congruence; try done.
  - intros x Hx. by apply G2, G1.
  - intros x Hx Hn. rewrite H2, H1; [done|done|tauto|by apply G1|tauto].
Qed.
Lemma stage_weaken (W W' : Z → Prop) bs0 bs K0 K : (∀ x, W x → W' x) → stage W bs0 bs K0 K → stage W' bs0 bs K0 K.
Proof. intros HW [A B C E F G H I]. split; try done. intros x Hx Hn. apply I; [done|]. intros Hw. by apply Hn, HW. Qed.

(** A new console. *)
Definition with_console c K : kst := set_env (set_kheap c (env K)) K.
Lemma k_console_with c K : k_console (with_console c K) = c.
Proof. unfold k_console, with_console. by rewrite env_set. Qed.

Lemma stage_console W bs bs' c K :
  heap_ok (c_heap c) bs' → term_ok (idle dk) (c_term c) → global_tty c = global_tty (k_console K) →
  (∀ x, client_byte bs x → client_byte bs' x) →
  (∀ x, client_byte bs x → ¬ W x → ld8 (c_mem c) x = ld8 (c_mem (k_console K)) x) → stage W bs bs' K (with_console c K).
Proof.
  intros H1 H2 H3 H4 H5. split; rewrite ?k_console_with; try done; by destruct K as [[]].
Qed.

Lemma env_eq (e e1 : vm pmm (console D)) : frames e = frames e1 → mms e = mms e1 → vmas e = vmas e1 → lis e = lis e1 →
  e = set_kheap (kheap e) e1.
Proof. destruct e, e1. simpl. by intros -> -> -> ->. Qed.

(** The messages. *)
Lemma stage_on_term bs K K' : heap_ok (c_heap (k_console K)) bs → on_term (idle dk) K K' → stage nothing bs bs K K'.
Proof.
  intros Hh (t & -> & Ht). change (with_term t K) with (with_console (set_c_term t (k_console K)) K).
  by apply stage_console.
Qed.
Lemma log_stage sfuel l bs K : plain (line l) → heap_ok (c_heap (k_console K)) bs → shown (idle dk) K →
  wp (log_ok sfuel (line l)) K (λ _ K', stage nothing bs bs K K').
Proof.
  intros Hl Hh Hs. eapply wp_mono; [apply (log_ok_ok (idle dk) crt_idle sfuel _ K Hl Hs)|].
  intros u K' HK. by apply stage_on_term.
Qed.
Lemma info_stage sfuel l bs K : plain (line l) → heap_ok (c_heap (k_console K)) bs → shown (idle dk) K →
  wp (log_info sfuel (line l)) K (λ _ K', stage nothing bs bs K K').
Proof.
  intros Hl Hh Hs. eapply wp_mono; [apply (log_info_ok (idle dk) crt_idle sfuel _ K Hl Hs)|].
  intros u K' HK. by apply stage_on_term.
Qed.

(** ** The descriptor tables *)
Definition in_range (a n x : Z) : Prop := a ≤ x < a + n.

(** What the processor reads in the memory [m]: at [gdt] the null descriptor,
    code and data of the kernel, data and code of user mode, and the TSS; at
    [idt] the gates of the first 48 vectors, which lead to the addresses that
    the table at [stubs] has in [m0]. *)
Record descriptors_set (m : mem) (gdt tss : Z) : Prop := {
  ds_null : decode m gdt = Descr 0 0 0 0;
  ds_kernel : decode m (gdt + 8 * 1) = Descr 0 0xFFFFF 0x9A 0xA ∧ decode m (gdt + 8 * 2) = Descr 0 0xFFFFF 0x92 0xC;
  ds_user : decode m (gdt + 8 * 3) = Descr 0 0xFFFFF 0xF2 0xC ∧ decode m (gdt + 8 * 4) = Descr 0 0xFFFFF 0xFA 0xA;
  ds_tss : decode_tss m (gdt + 8 * 5) = (Descr tss sizeof_tss 0x89 0, 0);
}.
Definition gates_set (m0 m : mem) (idt stubs : Z) : Prop :=
  ∀ v, 0 ≤ v < 48 → decode_gate m (idt + 16 * v) = Gate (ld64 m0 (stubs + 8 * v)) 0x08 0 0x8E.

Lemma descriptors_ext m m' gdt tss : (∀ x, in_range gdt sizeof_gdt x → ld8 m' x = ld8 m x) →
  descriptors_set m gdt tss → descriptors_set m' gdt tss.
Proof.
  unfold in_range. change sizeof_gdt with 56. intros H [D0 [D1 D2] [D3 D4] D5].
  split; [|split|split|]; rewrite ?(decode_ext m m'), ?(decode_tss_ext m m') by (intros; apply H; lia); done.
Qed.
Lemma gates_ext m0 m0' m m' idt stubs :
  (∀ x, in_range stubs (8 * 48) x → ld8 m0' x = ld8 m0 x) → (∀ x, in_range idt (16 * 256) x → ld8 m' x = ld8 m x) →
  gates_set m0 m idt stubs → gates_set m0' m' idt stubs.
Proof.
  unfold in_range. intros H0 H Hg v Hv. rewrite (decode_gate_ext m m') by (intros; apply H; lia). rewrite Hg by done.
  f_equal. unfold ld64. symmetry. apply ld_ext. intros x Hx. apply H0. simpl in Hx. lia.
Qed.
Definition in_image (a n : Z) : Prop := HEAP_LIMIT ≤ a ∧ a + n < 2 ^ 64.

(** The image is not part of the heap. *)
Lemma image_client (h : heap) bs a n x : heap_ok h bs → in_image a n → in_range a n x → client_byte bs x.
Proof.
  intros Hok [Ha _] Hx. right. pose proof (heap_lim _ _ Hok) as Hl. unfold in_range, HEAP_LIMIT, KERNEL_BRK_LIMIT, KERNEL_BRK_START in *.
  change (KERNEL_BRK_PAGES * PAGE_SIZE) with 524288 in Hl. lia.
Qed.

(** Writing the image leaves the heap alone. *)
Lemma stage_image W bs m K t : heap_ok (c_heap (k_console K)) bs → term_ok (idle dk) t →
  (∀ x, W x → client_byte bs x) → (∀ x, ¬ W x → ld8 m x = ld8 (c_mem (k_console K)) x) →
  stage W bs bs K (with_console (set_c_mem m (set_c_term t (k_console K))) K).
Proof.
  intros Hh Ht HW Hm. apply stage_console; try done; [|by auto].
  apply (heap_write_lent (c_heap (k_console K)) bs m Hh). intros x Hx. apply Hm. intros Hw. by apply Hx, HW.
Qed.

Lemma gdt_stage bs gdt tss K : heap_ok (c_heap (k_console K)) bs → shown (idle dk) K → in_image gdt sizeof_gdt → in_image tss sizeof_tss →
  gdt + sizeof_gdt ≤ tss ∨ tss + sizeof_tss ≤ gdt →
  wp (in_console (zoom c_mem set_c_mem (gdt_init gdt tss))) K (λ r K', r = GdtRegs 56 gdt (8 * 1) (8 * 2) (8 * 5) ∧
    stage (λ x, in_range gdt sizeof_gdt x ∨ in_range tss sizeof_tss x) bs bs K K' ∧
    descriptors_set (c_mem (k_console K')) gdt tss).
Proof.
  intros Hh Ht Hg Hs Hap. apply wp_in_env, wp_zoom, wp_zoom. destruct Hg as [Hg1 Hg2], Hs as [Hs1 Hs2].
  assert (HEAP_LIMIT = 18446683600570548224) as HL by by vm_compute.
  assert (sizeof_gdt = 56 ∧ sizeof_tss = 114) as [Eg Es] by done.
  destruct (gdt_init_spec gdt tss (c_mem (k_console K)) ltac:(lia) ltac:(lia) Hap) as (m & Hrun & D0 & D1 & D2 & D3 & D4 & D5 & _ & Hm).
  apply wp_run. exists (GdtRegs 56 gdt (8 * 1) (8 * 2) (8 * 5)), m. split; [exact Hrun|]. split; [done|].
  change (set_env (set_kheap (set_c_mem m (kheap (env K))) (env K)) K) with (with_console (set_c_mem m (k_console K)) K).
  split; [|rewrite k_console_with; by split].
  replace (set_c_mem m (k_console K)) with (set_c_mem m (set_c_term (c_term (k_console K)) (k_console K))) by (by destruct (k_console K)).
  apply stage_image; [exact Hh|exact Ht| |].
  - intros x [Hx|Hx]; [by apply (image_client _ _ gdt sizeof_gdt x Hh)|by apply (image_client _ _ tss sizeof_tss x Hh)].
  - intros x Hx. apply Hm; unfold in_range in *; tauto.
Qed.

(** ** Devices behind ports *)
Lemma in_tty_wp {A} (m : TaskOps (console D) → M (sched (console D)) A) K Q :
  wp (m (tty_task_ops (env K))) (with_env (k_console K) K) (λ a s', Q a (with_env (set_kheap (env s') (env K)) s')) →
  wp (in_tty m) K Q.
Proof. unfold wp, in_tty. by destruct (m _ _) as [[]| | |]. Qed.
Lemma env_with_env {E F} (e : F) (s : sched E) : env (with_env e s) = e.
Proof. by destruct s. Qed.

Definition idle_ports s : Prop := idle dk (t_ports (c_term (env s))).
Lemma keeps_port {A} (m : M D A) : (∀ d, idle dk d → wp m d (λ _ d', idle dk d')) → keeps idle_ports (port m) (λ _, True).
Proof.
  intros Hm s Hs. specialize (Hm _ Hs). unfold port, in_env, in_term, in_ports. unfold wp in Hm.
  destruct (m (t_ports (c_term (env s)))) as [[a d]| | |]; [|done..]. split; [|done]. unfold idle_ports. by rewrite env_set.
Qed.
Lemma keeps_outb p v : ¬ ata_port p → keeps idle_ports (port (outb p v)) (λ _, True).
Proof. intros Hp. apply keeps_port. intros d. by apply board_outb. Qed.
Lemma keeps_inb p : ¬ ata_port p → keeps idle_ports (port (inb p)) (λ _, True).
Proof. intros Hp. apply keeps_port. intros d. by apply board_inb. Qed.

Ltac not_ata := unfold ata_port, ATA_DATA_REG, ATA_STATUS_COMMAND_REG, PIC1_COMMAND, PIC1_DATA, PIC2_COMMAND, PIC2_DATA,
  PS2_COMMAND, PS2_STATUS, PS2_DATA; lia.
Ltac keeps_ports := repeat first
  [ apply keeps_outb; not_ata | apply keeps_inb; not_ata
  | eapply keeps_bind; [first [apply keeps_outb; not_ata|apply keeps_inb; not_ata]|intros ? _] ].

Lemma remap_idle p1 p2 : keeps idle_ports (remap_pic p1 p2) (λ _, True).
Proof. unfold remap_pic, io_wait. keeps_ports. Qed.

(** What an operation that only touches ports does to the kernel's state. *)
Lemma ports_stage W bs m K s' : heap_ok (c_heap (k_console K)) bs → shown (idle dk) K → (∀ x, W x → client_byte bs x) →
  (∀ x, ¬ W x → ld8 m x = ld8 (c_mem (k_console K)) x) →
  only_ports (with_env (set_c_mem m (k_console K)) K) s' → idle_ports s' →
  stage W bs bs K (with_env (set_kheap (env s') (env K)) s').
Proof.
  intros Hh Ht HW Hm Ho Hi. unfold only_ports in Ho. rewrite env_with_env in Ho.
  set (t := Term (t_ports (c_term (env s'))) (t_vga (c_term (k_console K)))) in *.
  replace (with_env (set_kheap (env s') (env K)) s') with (with_console (set_c_mem m (set_c_term t (k_console K))) K).
  - apply stage_image; [done| |done|done]. split; [apply Ht|exact Hi].
  - change (t_vga (c_term (set_c_mem m (k_console K)))) with (t_vga (c_term (k_console K))) in Ho. fold t in Ho.
    unfold idle_ports in Hi. clearbody t. rewrite Ho. rewrite env_set. by destruct K, (k_console _).
Qed.

Lemma idt_stage bs idt vectors stubs K : heap_ok (c_heap (k_console K)) bs → shown (idle dk) K →
  in_image idt (16 * 256) → in_image vectors (4 * 256) → idt_regions idt vectors stubs →
  wp (in_tty (λ _, idt_init idt vectors stubs)) K (λ r K', r = Idtr 4095 idt ∧
    stage (λ x, in_range idt (16 * 256) x ∨ in_range vectors (4 * 256) x) bs bs K K' ∧
    gates_set (c_mem (k_console K)) (c_mem (k_console K')) idt stubs).
Proof.
  intros Hh Ht Hi Hv Hreg. apply in_tty_wp. unfold idt_init. apply wp_bind, wp_setc. rewrite env_with_env.
  set (m := set_descriptors 48 idt vectors stubs 0 (c_mem (k_console K))).
  destruct (set_descriptors_ok idt vectors stubs 48 0 (c_mem (k_console K)) Hreg ltac:(lia) ltac:(lia)) as [Hgates Hm]. fold m in Hm, Hgates.
  clearbody m.
  replace (set_env (set_c_mem m (k_console K)) (with_env (k_console K) K)) with (with_env (set_c_mem m (k_console K)) K) by (by destruct K).
  set (s := with_env _ K).
  pose proof (remap_ok s PIC1_REMAP_BASE PIC2_REMAP_BASE ltac:(unfold PIC1_REMAP_BASE; lia) ltac:(unfold PIC2_REMAP_BASE; lia)) as Hw.
  apply wp_bind. eapply wp_mono; [apply (wp_also _ _ _ idle_ports Hw); [apply remap_idle|]|].
  { unfold idle_ports, s. rewrite env_with_env. apply Ht. }
  intros [] s' [[Ho _] Hid]. apply wp_ret. split; [done|]. split.
  2:{ intros v Hv1. destruct (Hgates v ltac:(lia)) as [<- _]. f_equal. unfold only_ports in Ho.
      rewrite Ho. unfold k_console, s. by destruct K. }
  apply (ports_stage _ _ m); try done.
  - intros x [Hx|Hx]; [by apply (image_client _ _ idt (16 * 256) x Hh)|by apply (image_client _ _ vectors (4 * 256) x Hh)].
  - intros x Hx. unfold in_range in Hx. apply Hm; lia.
Qed.

(** *** The keyboard controller *)
Definition port_step s s' : Prop := only_ports s s' ∧ idle_ports s'.
Lemma port_step_ok {A} (m : M D A) s0 s (R : A → D → Prop) (Q : A → sched (console D) → Prop) :
  port_step s0 s → (∀ d, idle dk d → wp m d (λ _ d', idle dk d')) → wp m (t_ports (c_term (env s))) R →
  (∀ a s', port_step s0 s' → R a (t_ports (c_term (env s'))) → Q a s') → wp (port m) s Q.
Proof.
  intros [Ho Hi] Hk HR HQ. eapply wp_mono; [apply port_ok, wp_and; [exact HR|apply Hk, Hi]|].
  intros a s' [Ho' [HR' Hi']]. apply HQ; [|done]. split; [by eapply only_ports_trans|exact Hi'].
Qed.
Lemma any_port {A} (m : M D A) s0 s (Q : A → sched (console D) → Prop) :
  port_step s0 s → (∀ d, idle dk d → wp m d (λ _ d', idle dk d')) → (∀ a s', port_step s0 s' → Q a s') → wp (port m) s Q.
Proof.
  intros Hs Hk HQ. apply (port_step_ok m s0 s (λ _ _, True)); [done|done| |by auto].
  eapply wp_mono; [apply Hk, Hs|done].
Qed.

Lemma kbc_ready_ok n : ∀ fuel s0 s, port_step s0 s → kbc_answer (t_ports (c_term (env s))) = Some n → (n < fuel)%nat →
  wp (ps2_wait_ready fuel) s (λ _ s', port_step s0 s' ∧ kbc_answer (t_ports (c_term (env s'))) = Some O).
Proof.
  induction n as [|n IH]; intros [|fuel] s0 s Hs Ha Hf; try lia; cbn [ps2_wait_ready]; apply wp_bind;
    (eapply port_step_ok; [exact Hs|intros d; apply board_inb; not_ata|by apply board_status|]).
  - intros v s' Hs' [Hv Ha']. destruct (Z.eqb_spec (Z.land v 1) 0); [done|]. by apply wp_ret.
  - intros v s' Hs' [-> Ha']. by apply (IH fuel s0 s' Hs' Ha'); lia.
Qed.

Ltac ps2_step := apply wp_bind; eapply any_port; [eassumption|intros ?; first [apply board_outb|apply board_inb]; not_ata|];
  match goal with H : port_step _ _ |- _ => clear H; intros ? ? H end.
Lemma ps2_init_ok spin s : idle_ports s → (kbc_polls < spin)%nat → wp (ps2_init spin) s (λ _ s', port_step s s').
Proof.
  intros Hi Hspin. assert (port_step s s) as Hs by (split; [apply only_ports_refl|exact Hi]).
  unfold ps2_init. revert Hs. generalize s at 2 3. intros s1 Hs. do 3 ps2_step.
  apply wp_bind. eapply port_step_ok; [exact Hs|intros ?; apply board_outb; not_ata|apply board_selftest|].
  intros u2 s2 H2 (n & Ha & Hn). apply wp_bind. eapply wp_mono; [apply (kbc_ready_ok n spin s s2 H2 Ha); lia|].
  intros u3 s3 [H3 Ha3]. apply wp_bind. eapply port_step_ok; [exact H3|intros ?; apply board_inb; not_ata|by apply board_data|].
  clear dependent s1. intros v s4 H4 ->. cbn [Z.eqb Pos.eqb negb]. clear H3 H2.
  do 3 ps2_step. eapply any_port; [eassumption|intros ?; apply board_outb; not_ata|]. by intros ? ? ?.
Qed.

Lemma ps2_stage spin bs K : heap_ok (c_heap (k_console K)) bs → shown (idle dk) K → (kbc_polls < spin)%nat →
  wp (in_tty (λ _, ps2_init spin)) K (λ _ K', stage nothing bs bs K K').
Proof.
  intros Hh Ht Hspin. apply in_tty_wp.
  eapply wp_mono; [apply ps2_init_ok; [|exact Hspin]|].
  { unfold idle_ports. rewrite env_with_env. apply Ht. }
  intros u s' [Ho Hi]. apply (ports_stage nothing bs (c_mem (k_console K))); try done.
  by destruct (k_console K).
Qed.

(** ** The terminal *)
Definition tty_blocks (bs : blocks) : blocks := after sizeof_file (after sizeof_file (after sizeof_tty bs)).
Definition tty_room (bs : blocks) : Prop :=
  has_room sizeof_tty bs ∧ has_room sizeof_file (after sizeof_tty bs) ∧ has_room sizeof_file (after sizeof_file (after sizeof_tty bs)).

Lemma console_kcalloc_lent c bs n : heap_ok (c_heap c) bs → 0 < n < 2 ^ 64 → has_room n bs →
  wp (heap_kcalloc 1 n) c (λ p c', ∃ h k, c' = set_c_heap h c ∧ heap_ok h (after n bs) ∧ n ≤ k ∧ lent bs p k (after n bs) ∧
    (∀ x, client_byte bs x → ld8 (h_mem h) x = ld8 (c_mem c) x) ∧ ∀ x, p ≤ x < p + n → ld8 (h_mem h) x = 0).
Proof.
  intros Hok Hn Hr. apply wp_zoom, wp_in_heap.
  assert (0 < 1 * n < 2 ^ 64) as Hn1 by lia. assert (has_room (1 * n) bs) as Hr1 by by rewrite Z.mul_1_l.
  eapply wp_mono; [exact (wp_and _ _ _ _ (kcalloc_lent _ bs 1 n Hok Hn1 Hr1) (kcalloc_zeros _ bs 1 n Hok Hn1 Hr1))|].
  rewrite !Z.mul_1_l. intros p h [(Hh & (k & Hk & Hl) & Hm) Hz]. exists h, k. split; [|by split_and!].
  by destruct c as [[]].
Qed.

(** What [tty_init] leaves: [struct tty] at [g] and the two files, in blocks of their own. *)
Record tty_up bs (stdin_ops stdout_ops : Z) K K' (g f1 f2 : Z) : Prop := {
  tu_state : ∃ c, K' = set_files (<[f2 := File stdout_ops 0 1]> (<[f1 := File stdin_ops 0 1]> (files K))) (with_console c K) ∧
    c_term c = c_term (k_console K);
  tu_heap : heap_ok (c_heap (k_console K')) (tty_blocks bs);
  tu_tty : global_tty (k_console K') = g;
  tu_block : ∃ n, sizeof_tty ≤ n ∧ (g, n) ∈ live (tty_blocks bs);
  tu_quiet : waiting K' = 0 ∧ tty_bufi (k_console K') = 0;
  tu_files : tty_stdin (k_console K') = f1 ∧ tty_stdout (k_console K') = f2 ∧ f1 ≠ f2;
  tu_keep x : client_byte bs x → client_byte (tty_blocks bs) x ∧ ¬ in_range g sizeof_tty x;
  tu_mem x : client_byte bs x → ld8 (c_mem (k_console K')) x = ld8 (c_mem (k_console K)) x;
}.

(** A store of a pointer into the terminal's block. *)
Lemma heap_st64 (h : heap) bs a v : heap_ok h bs → (∀ x, a ≤ x < a + 8 → client_byte bs x) → heap_ok (set_h_mem h (st64 (h_mem h) a v)) bs.
Proof.
  intros Hh Hc. apply heap_write_lent; [done|]. intros x Hx. unfold st64. apply ld8_st_ne.
  simpl. destruct (decide (a ≤ x < a + 8)); [by destruct Hx; apply Hc|lia].
Qed.

Lemma lent_range h bs p n bs' : heap_ok h bs' → lent bs p n bs' → HEAP_START < p ∧ 0 < n ∧ p + n ≤ HEAP_LIMIT.
Proof.
  intros Hh Hl. apply (live_range h (live_map bs') p n); [by exists bs'|].
  apply live_map_lookup; [apply (heap_pos _ _ Hh)|]. rewrite (le_live _ _ _ _ Hl). left.
Qed.

Lemma tty_init_ok bs stdin_ops stdout_ops K : heap_ok (c_heap (k_console K)) bs → tty_room bs →
  wp (in_tty (λ _, tty_init (TO := tty_task_ops (env K)) stdin_ops stdout_ops)) K (λ _ K', ∃ g f1 f2, tty_up bs stdin_ops stdout_ops K K' g f1 f2).
Proof.
  intros Hh (Hr1 & Hr2 & Hr3). apply in_tty_wp. set (c0 := k_console K) in *.
  assert (∀ c fs (e : console D), set_env e (with_env c (set_files fs K)) = with_env e (set_files fs K)) as Hse by (intros; by destruct K).
  assert (with_env c0 K = with_env c0 (set_files (files K) K)) as -> by (by destruct K).
  unfold tty_init. assert (sizeof_tty = 1056 ∧ sizeof_file = 16) as [Et Ef] by done.
  apply wp_bind, wp_in_env. rewrite env_with_env. eapply wp_mono; [apply (console_kcalloc_lent c0 bs sizeof_tty Hh); [lia|done]|].
  intros g c1 (h1 & k1 & -> & Hh1 & Hk1 & Hl1 & Hm1 & Hz1). rewrite Hse.
  apply wp_bind, wp_setc. rewrite env_with_env, Hse. set (c1 := set_global_tty g (set_c_heap h1 c0)).
  assert (c_heap c1 = h1) as Ec1 by by destruct h1.
  pose proof (le_keep _ _ _ _ Hl1) as L1. pose proof (lent_range _ _ _ _ _ Hh1 Hl1) as R1. unfold HEAP_START, HEAP_LIMIT in R1.
  apply wp_bind, wp_in_env. rewrite env_with_env. rewrite <- Ec1 in Hh1.
  eapply wp_mono; [apply (console_kcalloc_lent c1 _ sizeof_file Hh1); [lia|done]|].
  intros f1 c2 (h2 & k2 & -> & Hh2 & Hk2 & Hl2 & Hm2 & _). rewrite Hse.
  pose proof (le_keep _ _ _ _ Hl2) as L2. pose proof (lent_range _ _ _ _ _ Hh2 Hl2) as R2. unfold HEAP_START, HEAP_LIMIT in R2.
  set (bs1 := after sizeof_tty bs) in *. set (bs2 := after sizeof_file bs1) in *.
  assert (∀ x, in_range g 1056 x → client_byte bs1 x ∧ client_byte bs2 x) as T12.
  { intros x Hx. assert (client_byte bs1 x) as H1 by (apply (lent_byte bs g k1); [done|unfold in_range in Hx; lia]). split; [done|by apply L2]. }
  apply wp_bind, wp_setc. rewrite env_with_env, Hse. change (global_tty (set_c_heap h2 c1)) with g.
  change (c_mem (set_c_heap h2 c1)) with (h_mem h2). change (g + field_of false tty "stdin") with (g + 1040).
  set (c2 := set_c_mem _ _). assert (c_heap c2 = set_h_mem h2 (st64 (h_mem h2) (g + 1040) f1)) as Ec2 by by destruct h2.
  assert (heap_ok (c_heap c2) bs2) as Hh2' by (rewrite Ec2; apply heap_st64; [done|]; intros x Hx; apply T12; unfold in_range; lia).
  apply wp_bind, wp_modify.
  replace (set_files _ (with_env c2 _)) with (with_env c2 (set_files (<[f1 := File stdin_ops 0 1]> (files K)) K)) by (by destruct K).
  apply wp_bind, wp_in_env. rewrite env_with_env.
  eapply wp_mono; [apply (console_kcalloc_lent c2 _ sizeof_file Hh2'); [lia|done]|].
  intros f2 c3 (h3 & k3 & -> & Hh3 & Hk3 & Hl3 & Hm3 & _). rewrite Hse.
  pose proof (le_keep _ _ _ _ Hl3) as L3. pose proof (lent_range _ _ _ _ _ Hh3 Hl3) as R3. unfold HEAP_START, HEAP_LIMIT in R3.
  change (after sizeof_file bs2) with (tty_blocks bs) in *.
  apply wp_bind, wp_setc. rewrite env_with_env, Hse. change (global_tty (set_c_heap h3 c2)) with g.
  change (c_mem (set_c_heap h3 c2)) with (h_mem h3). change (g + field_of false tty "stdout") with (g + 1048).
  set (c3 := set_c_mem _ _). assert (c_heap c3 = set_h_mem h3 (st64 (h_mem h3) (g + 1048) f2)) as Ec3 by by destruct h3.
  assert (∀ x, in_range g 1056 x → client_byte (tty_blocks bs) x) as T3 by (intros x Hx; by apply L3, T12).
  assert (heap_ok (c_heap c3) (tty_blocks bs)) as Hh3' by (rewrite Ec3; apply heap_st64; [done|]; intros x Hx; apply T3; unfold in_range; lia).
  apply wp_modify. set (K' := with_env _ _).
  assert (K' = set_files (<[f2 := File stdout_ops 0 1]> (<[f1 := File stdin_ops 0 1]> (files K))) (with_console c3 K)) as EK by (unfold K'; by destruct K).
  assert (k_console K' = c3) as Ec by (rewrite EK; by destruct K).
  clearbody K'.
  assert (∀ x, client_byte bs2 x → ¬ in_range (g + 1048) 8 x → ld8 (c_mem c3) x = ld8 (c_mem c2) x) as M3.
  { intros x Hx Hn. rewrite <- Hm3 by done. simpl. unfold st64. apply ld8_st_ne. unfold in_range in Hn. simpl. lia. }
  assert (∀ x, client_byte bs1 x → ¬ in_range (g + 1040) 8 x → ld8 (c_mem c2) x = ld8 (h_mem h1) x) as M2.
  { intros x Hx Hn. transitivity (ld8 (h_mem h2) x); [|by rewrite Hm2]. simpl. unfold st64. apply ld8_st_ne. unfold in_range in Hn. simpl. lia. }
  assert (∀ x, in_range g 1040 x → ld8 (c_mem c3) x = 0) as Z3.
  { intros x Hx. unfold in_range in *. assert (in_range g 1056 x) as Hx' by (unfold in_range; lia). rewrite M3 by (by apply T12 || unfold in_range; lia).
    rewrite M2 by (by apply T12 || unfold in_range; lia). apply Hz1. lia. }
  exists g, f1, f2. split; rewrite ?Ec.
  - exists c3. split; [exact EK|]. done.
  - exact Hh3'.
  - done.
  - exists k1. split; [lia|]. rewrite (le_live _ _ _ _ Hl3), (le_live _ _ _ _ Hl2), (le_live _ _ _ _ Hl1). right. right. left.
  - unfold waiting, tty_waiting, tty_bufi. rewrite Ec. change (global_tty c3) with g.
    split; [apply (ld_zero 8)|unfold ld32; rewrite (ld_zero 4); [done|]]; intros x Hx; apply Z3; unfold in_range; simpl in Hx; lia.
  - split; [|split].
    + unfold tty_stdin. change (global_tty c3) with g. change (field_of false tty "stdin") with 1040.
      transitivity (ld64 (c_mem c2) (g + 1040)); [apply ld_ext; intros x Hx; simpl in Hx; apply M3; [apply T12|]; unfold in_range; lia|].
      apply ld64_st64_eq. lia.
    + unfold tty_stdout. change (global_tty c3) with g. change (field_of false tty "stdout") with 1048. apply ld64_st64_eq. lia.
    + intros He. assert (client_byte bs2 f1) as Hc by (apply (lent_byte bs1 f1 k2); [done|lia]). apply (L3 f1 Hc). lia.
  - intros x Hx. destruct (L1 x Hx) as [Hx1 Hn]. split; [by apply L3, L2|]. unfold in_range. lia.
  - intros x Hx. destruct (L1 x Hx) as [Hx1 Hn]. assert (client_byte bs2 x) as Hx2 by by apply L2.
    rewrite M3 by (done || unfold in_range; lia). rewrite M2 by (done || unfold in_range; lia). by apply Hm1.
Qed.

(** ** The file system *)
Lemma stage_machine bs K : heap_ok (c_heap (k_console K)) bs → shown (idle dk) K →
  machine_ok (c_machine (k_console K)) bs ∧ disk (drive (c_machine (k_console K))) = dk.
Proof. intros Hh [_ (H1 & H2 & H3)]. by split. Qed.

Lemma mount_stage spin bs sb r_inodes K : heap_ok (c_heap (k_console K)) bs → shown (idle dk) K → (ata_polls (D := D) < spin)%nat → mountable dk →
  in_image sb sizeof_sb → in_image r_inodes (11 * sizeof_ino) → mount_room (v_groups (disk_view dk)) bs →
  wp (in_console (in_machine (ext2_mount_rootfs spin sb r_inodes))) K (λ fs K',
    stage (λ x, in_range sb sizeof_sb x ∨ in_range r_inodes (11 * sizeof_ino) x) bs (mount_blocks (v_groups (disk_view dk)) bs) K K' ∧
    mounted bs sb r_inodes (c_machine (k_console K)) fs (c_machine (k_console K')) (mount_blocks (v_groups (disk_view dk)) bs)).
Proof.
  intros Hh Ht Hspin Hm Hsb Hri Hroom. destruct (stage_machine bs K Hh Ht) as [Hok Hd].
  apply wp_in_env, wp_zoom, wp_zoom. assert (∀ a n, in_image a n → a ≠ 0) as Hnz by (intros a n [Ha _] ->; by vm_compute in Ha).
  eapply wp_mono; [apply (mount_rootfs_ok spin Hspin bs sb r_inodes (c_machine (k_console K)) Hok)|]; rewrite ?Hd; try done.
  - by apply (Hnz _ _ Hsb).
  - by apply (Hnz _ _ Hri).
  - intros x Hx. by apply (image_client _ _ sb sizeof_sb x Hh Hsb).
  - intros x Hx. by apply (image_client _ _ r_inodes (11 * sizeof_ino) x Hh Hri).
  - intros fs s' Hmt. set (c' := set_c_machine s' (kheap (env K))).
    change (set_env (set_kheap c' (env K)) K) with (with_console c' K).
    assert (c_machine c' = s') as Ec by apply c_machine_set. split; [|by rewrite k_console_with, Ec].
    destruct Hmt as [[M1 [M2 M3]] Mk _ _ _ _ M4 M5].
    assert (c_heap c' = hp s' ∧ t_ports (c_term c') = drive s') as [E1 E2] by (unfold c'; by destruct s' as [? []], (kheap (env K)) as [[]]).
    apply stage_console; [by rewrite E1| | |exact M4|].
    + split; [apply Ht|]. rewrite E2. split; [exact M1|]. split; [exact M2|]. by rewrite Mk.
    + reflexivity.
    + intros x Hx Hn. unfold in_range in Hn. transitivity (ld8 (s_mem s') x); [by destruct s' as [? []]|]. apply M5; [done|lia|lia].
Qed.

Lemma namei_pre_stage bs fs comp path v p K K' : namei_pre bs fs comp path v p (c_machine (k_console K)) → stage nothing bs bs K K' →
  shown (idle dk) K → namei_pre bs fs comp path v p (c_machine (k_console K')).
Proof.
  intros [[H1 [H2 H3]] Hv Hfs Hr Hc Hp Hpb] [_ _ _ _ S1 S2 _ S3] HtK.
  assert (∀ x, path_byte bs comp x → ld8 (c_mem (k_console K')) x = ld8 (c_mem (k_console K)) x) as Hk
    by (intros x [Hx Hn]; apply S3; [done|by intros []]).
  destruct (stage_machine bs K' S1 S2) as [Hok Hd]. destruct (stage_machine bs K H3 HtK) as [_ Hd0].
  pose proof (fi_bytes _ _ _ _ Hfs) as Hb. split; [exact Hok|exact Hv| | |exact Hc| |exact Hpb].
  - by apply (fs_in_ext _ (c_mem (k_console K))).
  - intros j Hj. rewrite Hd, <- Hd0, <- (Hr j Hj). apply Hk, Hb. revert Hj. unfold fs_rooti, sizeof_ino, sizeof_fs. lia.
  - apply (cstr_ext (c_mem (k_console K))); [|exact Hp]. intros x Hx. apply Hk, Hpb. lia.
Qed.

(** The terminal through the stages. *)
Lemma tty_stage W bs0 bs stdin_ops stdout_ops K0 K1 K g f1 f2 :
  tty_up bs0 stdin_ops stdout_ops K0 K1 g f1 f2 → stage W (tty_blocks bs0) bs K1 K → (∀ x, W x → client_byte bs0 x) →
  waiting K = 0 ∧ tty_bufi (k_console K) = 0 ∧ tty_stdin (k_console K) = f1 ∧ tty_stdout (k_console K) = f2.
Proof.
  intros [_ Hh Hg (n & Hn & Hl) [Hw Hb] (Hi & Ho & _) Hk _] S HW. pose proof (sg_tty _ _ _ _ _ S) as Et. rewrite Hg in Et.
  assert (∀ k o, 0 ≤ o → o + Z.of_nat k ≤ sizeof_tty → ld k (c_mem (k_console K)) (g + o) = ld k (c_mem (k_console K1)) (g + o)) as Hld.
  { intros k o H0 H1. apply ld_ext. intros x Hx. apply (sg_mem _ _ _ _ _ S).
    - left. exists (g, n). split; [exact Hl|]. unfold payload. simpl. lia.
    - intros Hw'. destruct (Hk x (HW x Hw')) as [_ Hn']. apply Hn'. unfold in_range. lia. }
  unfold waiting, tty_waiting, tty_bufi, tty_stdin, tty_stdout in *. rewrite Et. rewrite Hg in *. unfold ld64, ld32 in *.
  by rewrite !Hld by done.
Qed.

(** ** [kernel_main] *)

(** Where the linker and the boot stack put the objects that the code writes
    directly, and the path of the first program. *)
Record image_layout (gdt tss idt vectors stubs sb r_inodes comp path len : Z) : Prop := {
  il_gdt : in_image gdt sizeof_gdt;
  il_tss : in_image tss sizeof_tss;
  il_idt : in_image idt (16 * 256);
  il_vectors : in_image vectors (4 * 256);
  il_stubs : in_image stubs (8 * 48);
  il_sb : in_image sb sizeof_sb;
  il_inodes : in_image r_inodes (11 * sizeof_ino);
  il_comp : in_image comp 256;
  il_path : in_image path len;
  il_descr : gdt + sizeof_gdt ≤ tss ∨ tss + sizeof_tss ≤ gdt;
  il_tables : idt_regions idt vectors stubs;
  il_segments x : in_range gdt sizeof_gdt x ∨ in_range tss sizeof_tss x →
    ¬ (in_range idt (16 * 256) x ∨ in_range vectors (4 * 256) x) ∧ ¬ in_range stubs (8 * 48) x;
  il_late x : in_range gdt sizeof_gdt x ∨ in_range idt (16 * 256) x →
    ¬ (in_range sb sizeof_sb x ∨ in_range r_inodes (11 * sizeof_ino) x) ∧ ¬ in_range comp 256 x;
  il_apart x : in_range path len x →
    ¬ (in_range gdt sizeof_gdt x ∨ in_range tss sizeof_tss x) ∧ ¬ (in_range idt (16 * 256) x ∨ in_range vectors (4 * 256) x) ∧
    ¬ (in_range sb sizeof_sb x ∨ in_range r_inodes (11 * sizeof_ino) x) ∧ ¬ in_range comp 256 x;
}.

(** The drive has an ELF file [F] under the path [p]. *)
Record program_on_drive p dir dfuel ino F size nblk : Prop := {
  pd_mount : mountable dk;
  pd_walk : walkable dk (disk_view dk) dir dfuel (components p) EXT2_ROOT_INO;
  pd_found : resolve dir (components p) EXT2_ROOT_INO = Some ino;
  pd_file : file_on_drive dk (disk_view dk) ino F size nblk;
  pd_elf : elf_ok F 0 size;
}.

(** The first heap is large enough for what the kernel allocates. *)
Definition boot_heap : blocks := [(INIT_HEAP_SIZE - sizeof_block, false)].
Definition mounted_blocks : blocks := mount_blocks (v_groups (disk_view dk)) (tty_blocks boot_heap).
Record heap_enough (segs : nat) (nblk : Z) : Prop := {
  he_mount : mount_room (v_groups (disk_view dk)) (tty_blocks boot_heap);
  he_task : has_room sizeof_task_struct mounted_blocks ∧ has_room KERNEL_STACK_SIZE (after sizeof_task_struct mounted_blocks);
  he_namei : namei_room (v_bsz (disk_view dk)) (init_blocks mounted_blocks);
  he_read : read_room (v_bsz (disk_view dk)) (nblk * v_bsz (disk_view dk)) (init_blocks mounted_blocks);
  he_space : 120 * Z.of_nat segs + 336 < KERNEL_BRK_PAGES * PAGE_SIZE - INIT_HEAP_SIZE;
}.

Lemma boot_tty_room : tty_room boot_heap.
Proof. split_and!; repeat first [left; by vm_compute|right]. Qed.
Lemma boot_tty_span : span (tty_blocks boot_heap) = INIT_HEAP_SIZE.
Proof. by vm_compute. Qed.

(** The stages before the terminal. *)
Lemma tables_stage spin sfuel gdt tss idt vectors stubs bs (b : boot) (Q : unit → boot → Prop) (rest1 : M kst unit) (rest : M boot unit) :
  let W x := (in_range gdt sizeof_gdt x ∨ in_range tss sizeof_tss x) ∨ (in_range idt (16 * 256) x ∨ in_range vectors (4 * 256) x) in
  heap_ok (c_heap (k_console (b_kernel b))) bs → shown (idle dk) (b_kernel b) → (kbc_polls < spin)%nat →
  in_image gdt sizeof_gdt → in_image tss sizeof_tss → in_image idt (16 * 256) → in_image vectors (4 * 256) →
  gdt + sizeof_gdt ≤ tss ∨ tss + sizeof_tss ≤ gdt → idt_regions idt vectors stubs →
  (∀ x, in_range gdt sizeof_gdt x ∨ in_range tss sizeof_tss x →
    ¬ (in_range idt (16 * 256) x ∨ in_range vectors (4 * 256) x) ∧ ¬ in_range stubs (8 * 48) x) → in_image stubs (8 * 48) →
  (∀ K, stage W bs bs (b_kernel b) K → descriptors_set (c_mem (k_console K)) gdt tss →
    gates_set (c_mem (k_console (b_kernel b))) (c_mem (k_console K)) idt stubs → wp rest1 K (λ _ K',
    wp rest (Boot K' (b_cpu b) (GdtRegs 56 gdt (8 * 1) (8 * 2) (8 * 5)) (Idtr 4095 idt)) Q)) →
  wp (let* g := in_kernel_state (in_console (zoom c_mem set_c_mem (gdt_init gdt tss))) in
      modify (λ b, Boot (b_kernel b) (b_cpu b) g (b_idt b)) ;;*
      in_kernel_state (log_ok sfuel (line "GDT initialized")) ;;*
      let* i := in_kernel_state (in_tty (λ _, idt_init idt vectors stubs)) in
      modify (λ b, Boot (b_kernel b) (b_cpu b) (b_gdt b) i) ;;*
      in_kernel_state (
        log_ok sfuel (line "IDT initialized") ;;*
        in_tty (λ _, ps2_init spin) ;;*
        log_ok sfuel (line "keyboard initialized") ;;*
        rest1) ;;*
      rest) b Q.
Proof.
  intros W Hh Ht Hspin Hg Hs Hi Hv Hap Hreg Hsep Hst HQ.
  apply wp_bind, wp_zoom. eapply wp_mono; [by apply (gdt_stage bs)|]. intros r K1 (-> & S1 & Hd1).
  apply wp_bind, wp_modify. cbn [b_kernel b_cpu b_gdt b_idt].
  apply wp_bind, wp_zoom. eapply wp_mono; [apply (log_stage _ _ bs); [by repeat constructor|apply S1|apply S1]|]. intros ? K2 S2.
  apply wp_bind, wp_zoom. eapply wp_mono; [apply (idt_stage bs); try done; apply S2|]. intros r K3 (-> & S3 & Hg3).
  apply wp_bind, wp_modify. cbn [b_kernel b_cpu b_gdt b_idt].
  apply wp_bind, wp_zoom.
  apply wp_bind. eapply wp_mono; [apply (log_stage _ _ bs); [by repeat constructor|apply S3|apply S3]|]. intros ? K4 S4.
  apply wp_bind. eapply wp_mono; [apply (ps2_stage _ bs); [apply S4|apply S4|done]|]. intros ? K5 S5.
  apply wp_bind. eapply wp_mono; [apply (log_stage _ _ bs); [by repeat constructor|apply S5|apply S5]|]. intros ? K6 S6.
  pose proof (stage_trans _ _ _ _ _ _ _ _ (stage_trans _ _ _ _ _ _ _ _ S4 S5) S6) as S46.
  assert (∀ x, client_byte bs x → ld8 (c_mem (k_console K6)) x = ld8 (c_mem (k_console K3)) x) as Hm36
    by (intros x Hx; apply (sg_mem _ _ _ _ _ S46); [done|unfold nothing; tauto]).
  apply HQ.
  - eapply stage_weaken; [|exact (stage_trans _ _ _ _ _ _ _ _ (stage_trans _ _ _ _ _ _ _ _ (stage_trans _ _ _ _ _ _ _ _ S1 S2) S3) S46)].
    intros x. unfold W, nothing. tauto.
  - eapply descriptors_ext; [|exact Hd1]. intros x Hx. pose proof (image_client _ _ _ _ x Hh Hg Hx) as Hc.
    rewrite Hm36, (sg_mem _ _ _ _ _ S3), (sg_mem _ _ _ _ _ S2); try done; [by intros []|]. apply Hsep. by left.
  - eapply gates_ext; [| |exact Hg3].
    + intros x Hx. pose proof (image_client _ _ _ _ x Hh Hst Hx) as Hc.
      rewrite (sg_mem _ _ _ _ _ S2), (sg_mem _ _ _ _ _ S1); try done; [|by intros []]. intros Hx'. by apply (Hsep x).
    + intros x Hx. apply Hm36. by apply (image_client _ _ _ _ x Hh Hi).
Qed.

(** From the terminal to the running program. *)
Section starting.
Variables (spin ffuel sfuel pfuel : nat) (sym : statics) (init_path comp inode sb r_inodes : Z).
Hypothesis Hspin : (ata_polls (D := D) < spin)%nat.

Lemma mount_and_start bs0 stdin_ops stdout_ops (f fuel : nat) K0 K1 K p g f1 f2 dir dfuel ino F size nblk ky KU kg LK kvs :
  tty_up bs0 stdin_ops stdout_ops K0 K1 g f1 f2 → stage nothing (tty_blocks bs0) (tty_blocks bs0) K1 K →
  heap_ok (c_heap (k_console K0)) bs0 → only_image (env K) → tasks K = ∅ →
  in_image sb sizeof_sb → in_image r_inodes (11 * sizeof_ino) → in_image comp 256 → in_image (init_path + 1) (Z.of_nat (length p) + 1) →
  (∀ x, in_range (init_path + 1) (Z.of_nat (length p) + 1) x →
    ¬ (in_range sb sizeof_sb x ∨ in_range r_inodes (11 * sizeof_ino) x) ∧ ¬ in_range comp 256 x) →
  cstr (c_mem (k_console K)) (init_path + 1) p →
  mount_room (v_groups (disk_view dk)) (tty_blocks bs0) → let bs := mount_blocks (v_groups (disk_view dk)) (tty_blocks bs0) in
  has_room sizeof_task_struct bs ∧ has_room KERNEL_STACK_SIZE (after sizeof_task_struct bs) →
  namei_room (v_bsz (disk_view dk)) (init_blocks bs) → read_room (v_bsz (disk_view dk)) (nblk * v_bsz (disk_view dk)) (init_blocks bs) →
  program_on_drive p dir dfuel ino F size nblk → (length (components p) + dfuel < ffuel)%nat → (256 ≤ sfuel)%nat →
  kernel_map sym (env K) ky KU kg LK kvs → (∀ u, u ∈ kvs → ¬ reg u) → (length LK ≤ fuel)%nat →
  (5 * (total_pages kvs + segs_pages (load_segments F 0) + 32) ≤ frame_avail (frames (env K)))%nat →
  56 * Z.of_nat (length LK) + 120 * Z.of_nat (length (load_segments F 0)) + 168 < KERNEL_BRK_LIMIT - kernel_brk (c_heap (k_console K)) →
  wp (let* rootfs := in_console (in_machine (ext2_mount_rootfs spin sb r_inodes)) in
      log_ok pfuel (line "Mounted /") ;;*
      log_info pfuel (line "attempting to exec /init") ;;*
      start_init (FS := rootfs_files spin ffuel sfuel rootfs comp inode) sym fuel (λ t, in_tty (λ _, tty_install_stdin_stdout t)) init_path) K
    (λ _ K', ∃ K2 init t a x T fm L, init_running F K2 K' init t a x ∧ files K2 = files K ∧
      tty_stdin (k_console K2) = f1 ∧ tty_stdout (k_console K2) = f2 ∧ kernel_inv K' ∧
      program F 0 (load_segments F 0) kvs kg (env K2) (env K') a x T fm L ∧ frames (env K2) = frames (env K) ∧
      (∃ B, init_heap_of (live_map bs) K' init t a L B) ∧
      ∀ y, image_byte comp y → ¬ (in_range sb sizeof_sb y ∨ in_range r_inodes (11 * sizeof_ino) y) →
        ld8 (c_mem (k_console K')) y = ld8 (c_mem (k_console K)) y).
Proof.
  intros Hup S0 Hh0 Himg Htasks Hsb Hri Hc Hpi Hap Hp Hm bs [Hr1 Hr2] Hr3 Hr4 [D1 D2 D3 D4 D5] Hf1 Hf2 Hk Hkvs Hfuel Hav Hspace.
  pose proof (sg_heap _ _ _ _ _ S0) as Hh. set (bst := tty_blocks bs0) in *.
  apply wp_bind. eapply wp_mono; [by apply (mount_stage spin bst sb r_inodes); [exact Hh|apply S0|..]|].
  intros rootfs K1' [S1 Hmt].
  apply wp_bind. eapply wp_mono; [apply (log_stage _ _ bs); [by repeat constructor|apply S1|apply S1]|]. intros ? K2 S2.
  apply wp_bind. eapply wp_mono; [apply (info_stage _ _ bs); [by repeat constructor|apply S2|apply S2]|]. intros ? K3 S3.
  pose proof (stage_trans _ _ _ _ _ _ _ _ S2 S3) as S23. assert (stage nothing bs bs K1' K3) as S23' by (eapply stage_weaken; [|exact S23]; intros x; unfold nothing; tauto).
  pose proof (stage_trans _ _ _ _ _ _ _ _ S1 S23') as S4. pose proof (stage_trans _ _ _ _ _ _ _ _ S0 S4) as S5.
  destruct (stage_machine bst K Hh (sg_term _ _ _ _ _ S0)) as [Hok0 Hd0].
  destruct (stage_machine bs K3 (sg_heap _ _ _ _ _ S4) (sg_term _ _ _ _ _ S4)) as [_ Hd3].
  assert (∀ x, in_range (init_path + 1) (Z.of_nat (length p) + 1) x → client_byte bst x) as Hpc by (intros x; by apply (image_client _ _ _ _ x Hh)).
  assert (namei_pre bs rootfs comp init_path (disk_view dk) p (c_machine (k_console K3))) as Hn.
  { apply (namei_pre_stage _ _ _ _ _ _ K1' K3); [|exact S23'|apply S1]. rewrite <- Hd0.
    apply (mounted_namei_pre bst sb r_inodes (c_machine (k_console K))); [exact Hmt|by rewrite Hd0| | |].
    - intros x Hx. by apply (image_client _ _ comp 256 x Hh).
    - apply (cstr_ext (c_mem (k_console K))); [|exact Hp]. intros x Hx.
      assert (in_range (init_path + 1) (Z.of_nat (length p) + 1) x) as Hr by (unfold in_range; lia).
      apply (sg_mem _ _ _ _ _ S1); [by apply Hpc|by apply Hap].
    - intros x Hx. assert (in_range (init_path + 1) (Z.of_nat (length p) + 1) x) as Hr by (unfold in_range; lia).
      split; [by apply Hpc|]. by apply (Hap x Hr). }
  pose proof Hup as [_ _ Hg (n & Hn1 & Hn2) _ _ _ _].
  assert (global_tty (k_console K3) = g) as Hg3 by (rewrite (sg_tty _ _ _ _ _ S5); exact Hg).
  destruct (tty_stage _ _ _ _ _ _ _ _ _ _ _ Hup S5) as (T1 & T2 & T3 & T4).
  { intros x [[]|[[Hx|Hx]|[]]]; [by apply (image_client _ _ sb sizeof_sb x Hh0)|by apply (image_client _ _ r_inodes (11 * sizeof_ino) x Hh0)]. }
  destruct (sg_env _ _ _ _ _ S4) as (E1 & E2 & E3 & E4).
  assert (env K3 = set_kheap (kheap (env K3)) (env K)) as He3 by by apply env_eq.
  assert ((g, n) ∈ live bs) as Hlive.
  { pose proof Hmt as [_ _ (bgdt & n1 & n2 & Hl) _ _ _ _ _]. unfold bs. rewrite Hl. right. right. exact Hn2. }
  assert (start_pre K3 bs comp rootfs init_path (disk_view dk) p n) as Hpre.
  { split; [exact Hn| | | |].
    - split; rewrite ?Hg3; [exact Hlive|exact Hn1|]. intros x Hx Hx'.
      destruct (live_range (c_heap (k_console K3)) (live_map bs) g n) as (_ & _ & Hlim);
        [exists bs; split; [apply S4|done]|apply live_map_lookup; [apply (heap_pos _ _ (sg_heap _ _ _ _ _ S4))|done]|].
      destruct Hc as [Hc1 _]. lia.
    - destruct Himg as (O1 & O2 & O3). unfold only_image. rewrite E2, E3, E4. by split_and!.
    - split; [exact T1|]. rewrite T2. by vm_compute.
    - by rewrite (sg_tasks _ _ _ _ _ S4). }
  eapply wp_mono; [apply (start_init_ok spin Hspin sym fuel K3 bs comp rootfs inode init_path (disk_view dk) p n dir dfuel ffuel sfuel ino F size nblk
    ky KU kg LK kvs Hpre); rewrite ?Hd3; try done|].
  - rewrite He3. by apply km_kheap.
  - by rewrite E1.
  - rewrite (hk_brk _ _ (sg_heap _ _ _ _ _ S4)). rewrite (hk_brk _ _ Hh) in Hspace.
    pose proof (mt_span _ _ _ _ _ _ _ Hmt) as Hspan. fold bs bst in Hspan. rewrite Hspan. exact Hspace.
  - intros u0 K' (init & t & aa & x & T & fm & L & B & R1 & R2 & R3 & _ & R5 & R6).
    exists K3, init, t, aa, x, T, fm, L. split_and!; try done; [apply S4|by exists B|].
    intros y Hy Hn'. rewrite R6 by done. apply (sg_mem _ _ _ _ _ S4); [|unfold nothing; tauto].
    by apply (image_path_byte bst comp (c_heap (k_console K))).
Qed.
End starting.

(** The kernel has started its first program. *)
Record kernel_started stdin_ops stdout_ops gdt tss idt stubs entry F (b b' : boot (D := D)) init t a (x : mm) (kvs : list vm_area) kg : Prop := {
  st_tables : b_gdt b' = GdtRegs 56 gdt (8 * 1) (8 * 2) (8 * 5) ∧ b_idt b' = Idtr 4095 idt;
  st_gdt : descriptors_set (c_mem (k_console (b_kernel b'))) gdt tss;
  st_idt : gates_set (c_mem (k_console (b_kernel b))) (c_mem (k_console (b_kernel b'))) idt stubs;
  st_cpu : syscalls_enabled entry (b_cpu b');
  st_task : tasks (b_kernel b') = {[init := t]} ∧ current (b_kernel b') = init ∧ proc_root (b_kernel b') = init;
  st_init : pid t = 1 ∧ state t = TASK_RUNNING ∧ next t = init ∧ prev t = init;
  st_entry : rip (task_regs t) = e_entry F 0 ∧ rsp (task_regs t) = USER_STACK_BASE + PAGE_SIZE * USER_STACK_PAGES;
  st_files : ∃ f1 f2, f1 ≠ f2 ∧ fdtab t = f1 :: f2 :: replicate 14 0 ∧
    files (b_kernel b') = <[f2 := File stdout_ops 0 1]> (<[f1 := File stdin_ops 0 1]> (files (b_kernel b)));
  st_mm : task_mm t = a ∧ cr3 (b_kernel b') = p4 x;
  st_stack : sp t = stack_top t - sizeof_fork_frame ∧ tss_rsp0 (b_kernel b') = sp t ∧ current_task_stack (b_kernel b') = stack_top t;
  st_inv : kernel_inv (b_kernel b');
  st_program : ∃ e0 T f L B, program F 0 (load_segments F 0) kvs kg e0 (env (b_kernel b')) a x T f L ∧
    init_heap_of (live_map mounted_blocks) (b_kernel b') init t a L B;
}.

Section kernel_main.
Variables (spin fuel sfuel tags : nat) (sym : statics) (kstart kend : Z).
Variables (gdt tss idt vectors stubs entry stdin_ops stdout_ops init_path comp inode sb r_inodes : Z).
Abbreviation main := (kernel_main spin fuel sfuel tags sym kstart kend gdt tss idt vectors stubs entry
  stdin_ops stdout_ops init_path comp inode sb r_inodes).

Lemma kernel_main_ok (b : boot) mboot es mtags entries n p dir dfuel ino F size nblk (K := b_kernel b) :
  statics_ok sym → loaded sym K → tasks K = ∅ → idle dk (t_ports (c_term (k_console K))) →
  boot_info tags kstart kend mboot es mtags entries n (frames (env K)) →
  (5 * (1664 + (1664 + segs_pages (load_segments F 0) + 32)) ≤ n)%nat →
  image_layout gdt tss idt vectors stubs sb r_inodes comp (init_path + 1) (Z.of_nat (length p) + 1) →
  cstr (c_mem (k_console K)) (init_path + 1) p → in_kernel (b_cpu b) = true → 0 ≤ entry < 2 ^ 64 →
  program_on_drive p dir dfuel ino F size nblk → heap_enough (length (load_segments F 0)) nblk →
  (ata_polls (D := D) < spin)%nat → (kbc_polls < spin)%nat → (length (components p) + dfuel < fuel)%nat → (3 ≤ fuel)%nat → (256 ≤ sfuel)%nat →
  wp (main mboot) b (λ _ b', ∃ init t a x DD, kernel_started stdin_ops stdout_ops gdt tss idt stubs entry F b b' init t a x kernel_areas (kernel_pages DD)).
Proof.
  intros Hsym Hload Htasks Hidle Hboot Hn Hlay Hp Hcpu Hentry Hpd Hhe Hsp0 Hsp Hf1 Hf3 Hf2.
  pose proof Hlay as [L1 L2 L3 L4 L4' L5 L6 L7 L8 L9 L10 L10' L10'' L11]. pose proof Hhe as [H2 H3 H4 H5 H6].
  pose proof boot_tty_room as H1.
  unfold kernel_main. apply wp_bind, wp_zoom.
  eapply wp_mono; [apply (init_memory_ok (idle dk) crt_idle sfuel tags sym kstart kend mboot es mtags entries n K Hsym Hload Hidle Hboot); lia|].
  intros u0 K1 (y & U & DD & [M1 M2 M3 M4 M5 M6 M7 M8 M9 (M10 & M11 & M12)]).
  apply (tables_stage spin sfuel gdt tss idt vectors stubs boot_heap (Boot K1 (b_cpu b) (b_gdt b) (b_idt b))); try done.
  cbn [b_kernel b_cpu]. intros K2 S2 Hd2 Hg2. pose proof (sg_heap _ _ _ _ _ S2) as Hh2.
  apply wp_bind. eapply wp_mono; [apply (tty_init_ok boot_heap stdin_ops stdout_ops K2 Hh2 H1)|].
  intros u1 K3 (g & f1 & f2 & Hup). pose proof Hup as [(c3 & E3 & Hc3) Hh3 _ _ _ (_ & _ & Hne) Hk3 Hm3].
  assert (k_console K3 = c3 ∧ env K3 = set_kheap c3 (env K2) ∧ tasks K3 = tasks K2 ∧
    files K3 = <[f2 := File stdout_ops 0 1]> (<[f1 := File stdin_ops 0 1]> (files K2))) as (Ec3 & Ee3 & Et3 & Ef3)
    by (rewrite E3; by destruct K2 as [[]]).
  assert (shown (idle dk) K3) as Hs3 by (unfold shown; rewrite Ec3, Hc3; apply S2).
  eapply wp_mono; [apply (log_stage _ _ (tty_blocks boot_heap)); [by repeat constructor|exact Hh3|exact Hs3]|]. intros u2 K4 S4.
  apply wp_bind, wp_zoom. cbn [b_cpu].
  eapply wp_mono; [apply (syscall_enable_spec entry (b_cpu b) Hcpu Hentry)|]. intros u3 cpu' (Hse & _).
  apply wp_zoom. cbn [b_kernel b_cpu b_gdt b_idt].
  apply wp_bind. eapply wp_mono; [apply (log_stage _ _ (tty_blocks boot_heap)); [by repeat constructor|apply S4|apply S4]|]. intros u4 K5 S5.
  pose proof (stage_trans _ _ _ _ _ _ _ _ S4 S5) as S45'.
  assert (stage nothing (tty_blocks boot_heap) (tty_blocks boot_heap) K3 K5) as S45 by (eapply stage_weaken; [|exact S45']; intros z; unfold nothing; tauto).
  destruct (sg_env _ _ _ _ _ S2) as (A1 & A2 & A3 & A4), (sg_env _ _ _ _ _ S45) as (B1 & B2 & B3 & B4).
  assert (frames (env K5) = frames (env K1) ∧ mms (env K5) = mms (env K1) ∧ vmas (env K5) = vmas (env K1) ∧ lis (env K5) = lis (env K1)) as (C1 & C2 & C3 & C4).
  { rewrite B1, B2, B3, B4, Ee3. simpl. rewrite A1, A2, A3, A4. done. }
  assert (env K5 = set_kheap (kheap (env K5)) (env K1)) as He5 by by apply env_eq.
  assert (files K5 = <[f2 := File stdout_ops 0 1]> (<[f1 := File stdin_ops 0 1]> (files K))) as Ef5.
  { rewrite (sg_files _ _ _ _ _ S45), Ef3, (sg_files _ _ _ _ _ S2). by rewrite M11. }
  assert (only_image (env K5)) as Himg5.
  { unfold only_image. rewrite C2, C3, C4. destruct M1 as [_ O1 O2 O3].
    split_and!; intros z Hz; [destruct (O1 z Hz) as [[? Hb]|]|destruct (O2 z Hz) as [[? Hb]|]|destruct (O3 z Hz) as [[? Hb]|]]; done. }
  assert (cstr (c_mem (k_console K5)) (init_path + 1) p) as Hp5.
  { apply (cstr_ext (c_mem (k_console K))); [|exact Hp]. intros z Hz.
    assert (in_range (init_path + 1) (Z.of_nat (length p) + 1) z) as Hr by (unfold in_range; lia).
    destruct (L11 z Hr) as (N1 & N2 & _). pose proof (image_client _ _ _ _ z Hh2 L8 Hr) as Hc.
    rewrite (sg_mem _ _ _ _ _ S45), Hm3, (sg_mem _ _ _ _ _ S2), M8; try done.
    - destruct L8 as [L8 _]. unfold in_range in Hr. lia.
    - cbv beta. tauto.
    - by apply Hk3.
    - by intros []. }
  eapply wp_mono; [apply (mount_and_start spin fuel sfuel sfuel sym init_path comp inode sb r_inodes Hsp0 boot_heap stdin_ops stdout_ops fuel fuel K2 K3 K5 p g f1 f2
    dir dfuel ino F size nblk y U (kernel_pages DD) (kernel_list sym) kernel_areas Hup S45 Hh2 Himg5); try done|].
  - rewrite (sg_tasks _ _ _ _ _ S45), Et3, (sg_tasks _ _ _ _ _ S2). simpl. by rewrite M10.
  - intros z Hz. destruct (L11 z Hz) as (_ & _ & ? & ?). done.
  - rewrite He5. by apply km_kheap.
  - unfold kernel_areas. intros v Hv. rewrite !elem_of_cons in Hv. destruct Hv as [-> | [-> | [-> | Hv]]]; [done..|by apply not_elem_of_nil in Hv].
  - rewrite C1. assert (total_pages kernel_areas = 1664%nat) as -> by by vm_compute. lia.
  - rewrite (hk_brk _ _ (sg_heap _ _ _ _ _ S45)). change (length (kernel_list sym)) with 3%nat.
    rewrite boot_tty_span. unfold KERNEL_BRK_LIMIT. lia.
  - intros u5 K' (K6 & init & t & aa & x & T & fm & L & R & Ef6 & Es1 & Es2 & Hinv & Hprog & _ & (B & Hheap6) & Hm6).
    destruct R as [R1 R2 R3 (P1 & P2 & P3 & P4 & _) R5 R6 R7 (_ & Q1 & Q2 & Q3)].
    assert (∀ z, in_range gdt sizeof_gdt z ∨ in_range idt (16 * 256) z → ld8 (c_mem (k_console K')) z = ld8 (c_mem (k_console K2)) z) as Hlate.
    { intros z Hz. destruct (L10'' z Hz) as [N1 N2].
      assert (HEAP_LIMIT ≤ z ∧ client_byte boot_heap z) as [Hz1 Hz2].
      { destruct Hz as [Hz|Hz]; (split; [|by eapply (image_client _ _ _ _ z Hh2); [|exact Hz]]);
          [destruct L1 as [L1 _]|destruct L3 as [L3 _]]; unfold in_range in Hz; lia. }
      rewrite Hm6 by done. rewrite (sg_mem _ _ _ _ _ S45); [by rewrite Hm3|by apply Hk3|by intros []]. }
    exists init, t, aa, x, DD. split; cbn [b_kernel b_cpu b_gdt b_idt]; try done.
    + eapply descriptors_ext; [|exact Hd2]. intros z Hz. apply Hlate. by left.
    + eapply gates_ext; [| |exact Hg2]; [|intros z Hz; apply Hlate; by right].
      intros z Hz. cbn [b_kernel]. symmetry. apply M8. destruct L4' as [L4' _]. unfold in_range in Hz. lia.
    + exists f1, f2. split; [done|]. split; [by rewrite R6, Es1, Es2|]. by rewrite R2, Ef6, Ef5.
    + by exists (env K6), T, fm, L, B.
Qed.

(** C1: [kernel_main] boots.  From the state that the boot loader leaves
    (zeroed objects, an empty heap, no tasks), with a memory map that has enough
    memory, static objects that lie apart in the kernel's image
    ([image_layout]), a first heap with room for the buffers of each stage
    ([heap_enough]), and an idle drive whose first data block is block 1, as it
    is with 1 KiB blocks, and whose groups are full ([mountable]), on which the path of the first program leads by whole names
    ([walkable]) to a well-formed ELF file that is not empty and has at most
    12 + bsz/4 blocks ([file_on_drive], [elf_ok]): every step of [kernel_main]
    returns.  At the end the table at [gdt] holds the flat segments of kernel
    and user mode and the TSS, the gates of the first 48 vectors at [idt] lead
    to the stubs, the table registers point to them, and the system call
    registers are set.  The kernel ends in the first task, process 1, alone on
    the ring, with the terminal's two files open and a kernel stack in a block
    of its own, whose address space holds the program of the drive and whose
    registers are those of its entry point; and the invariant of the running
    kernel holds ([kernel_inv]). *)
Theorem kernel_main_spec (b : boot) mboot es mtags entries n p dir dfuel ino F size nblk (K := b_kernel b)
    (Hsym : statics_ok sym) (Hload : loaded sym K) (Htasks : tasks K = ∅) (Hidle : idle dk (t_ports (c_term (k_console K))))
    (Hboot : boot_info tags kstart kend mboot es mtags entries n (frames (env K)))
    (Hn : (5 * (1664 + (1664 + segs_pages (load_segments F 0) + 32)) ≤ n)%nat)
    (Hlayout : image_layout gdt tss idt vectors stubs sb r_inodes comp (init_path + 1) (Z.of_nat (length p) + 1))
    (Hpath : cstr (c_mem (k_console K)) (init_path + 1) p) (Hcpu : in_kernel (b_cpu b) = true) (Hentry : 0 ≤ entry < 2 ^ 64)
    (Hdrive : program_on_drive p dir dfuel ino F size nblk) (Hheap : heap_enough (length (load_segments F 0)) nblk)
    (Hspin : (ata_polls (D := D) < spin)%nat ∧ (kbc_polls < spin)%nat)
    (Hfuel : (length (components p) + dfuel < fuel)%nat ∧ (3 ≤ fuel)%nat ∧ (256 ≤ sfuel)%nat) :
  ∃ b' init t a x DD, main mboot b = Ok (tt, b') ∧
    kernel_started stdin_ops stdout_ops gdt tss idt stubs entry F b b' init t a x kernel_areas (kernel_pages DD).
Proof.
  destruct Hspin as [Hs1 Hs2], Hfuel as (Hf1 & Hf2 & Hf3).
  pose proof (kernel_main_ok b mboot es mtags entries n p dir dfuel ino F size nblk Hsym Hload Htasks Hidle Hboot Hn Hlayout Hpath
    Hcpu Hentry Hdrive Hheap Hs1 Hs2 Hf1 Hf2 Hf3) as Hw.
  apply wp_run in Hw as ([] & b' & Hrun & init & t & a & x & DD & Hst). by exists b', init, t, a, x, DD.
Qed.
End kernel_main.
End main.

(** ** A machine that boots

    The devices of [Ata], [Vga] and [Idt] behind one set of ports, and a keyboard
    controller that answers its self test at the third look. *)
Record pc := Pc { pc_ata : sim; pc_crt : crt; pc_pics : pic * pic; pc_kbc : option nat }.
Definition is_ata (p : Z) : bool := (ATA_DATA_REG <=? p) && (p <=? ATA_STATUS_COMMAND_REG).
Definition lift_ata {A} (m : M sim A) : M pc A :=
  zoom pc_ata (λ a d, Pc a (pc_crt d) (pc_pics d) (pc_kbc d)) m.
#[export] Instance pc_ports : PortOps pc := {
  inb p := if is_ata p then lift_ata (inb p) else λ d,
    if p =? PIC1_DATA then Ok (pic_mask (pc_pics d).1, d)
    else if p =? PIC2_DATA then Ok (pic_mask (pc_pics d).2, d)
    else if p =? PS2_STATUS then
      match pc_kbc d with
      | Some (S n) => Ok (0, Pc (pc_ata d) (pc_crt d) (pc_pics d) (Some n))
      | Some O => Ok (1, d)
      | None => Ok (0, d)
      end
    else if p =? PS2_DATA then Ok (0x55, d) else Ok (0, d);
  outb p v := if is_ata p then lift_ata (outb p v) else modify (λ d,
    if p =? 0x3D4 then Pc (pc_ata d) (Crt v (c_reg (pc_crt d))) (pc_pics d) (pc_kbc d)
    else if p =? 0x3D5 then
      Pc (pc_ata d) (Crt (c_index (pc_crt d)) (λ r, if r =? c_index (pc_crt d) then v else c_reg (pc_crt d) r)) (pc_pics d) (pc_kbc d)
    else if p =? PS2_COMMAND then Pc (pc_ata d) (pc_crt d) (pc_pics d) (if v =? 0xAA then Some 2%nat else pc_kbc d)
    else Pc (pc_ata d) (pc_crt d) (pics_out p v (pc_pics d)) (pc_kbc d));
  inw p := lift_ata (inw p);
  outw p v := lift_ata (outw p v);
}.

Lemma lift_ata_ok {A} (m : M sim A) d (R : A → sim → Prop) (Q : A → pc → Prop) :
  wp m (pc_ata d) R → (∀ a s, R a s → Q a (Pc s (pc_crt d) (pc_pics d) (pc_kbc d))) → wp (lift_ata m) d Q.
Proof. intros Hm HQ. apply wp_zoom. eapply wp_mono; [exact Hm|exact HQ]. Qed.

#[export] Instance pc_drive : AtaDrive pc.
Proof.
  refine {| disk d := disk (pc_ata d); task_file d := task_file (pc_ata d); transfer d := transfer (pc_ata d);
            busy d := busy (pc_ata d); ata_polls := ata_polls (D := sim); drive_ok d := drive_ok (pc_ata d) |}.
  - intros d. apply disk_byte.
  - intros d. apply busy_bound.
  - intros d Hd. by apply (lift_ata_ok _ d _ _ (inb_status _ Hd)).
  - intros d r v Hd Ht Hbz Hr Hv. assert (is_ata r = true) as E.
    { unfold is_ata, ATA_DATA_REG, ATA_STATUS_COMMAND_REG, ATA_SECTOR_COUNT_REG, ATA_DRIVE_HEAD_REG in *. lia. }
    unfold outb, pc_ports. rewrite E. by apply (lift_ata_ok _ d _ _ (outb_task_file _ r v Hd Ht Hbz Hr Hv)).
  - intros d Hd Ht Hbz. by apply (lift_ata_ok _ d _ _ (outb_read _ Hd Ht Hbz)).
  - intros d pos left Hd Ht Hl Hbz. by apply (lift_ata_ok _ d _ _ (inw_data _ pos left Hd Ht Hl Hbz)).
Defined.
#[export] Instance pc_crt_ports : CrtPorts pc.
Proof.
  refine {| crt_index d := c_index (pc_crt d); crt_reg d := c_reg (pc_crt d) |}.
  - intros d v. by apply wp_modify.
  - intros d v. apply wp_modify. simpl. rewrite Z.eqb_refl. split_and!; try done.
    intros r Hr. by destruct (Z.eqb_spec r (c_index (pc_crt d))).
Defined.
#[export] Instance pc_pic_ports : PicPorts pc.
Proof.
  refine {| pics := pc_pics |}; [|done..].
  intros d p v Hp. rewrite !elem_of_cons in Hp.
  destruct Hp as [-> |[-> |[-> |[-> |[-> |Hp]]]]]; [by apply wp_modify..|by apply not_elem_of_nil in Hp].
Defined.
#[export] Instance pc_board : Board pc.
Proof.
  assert (∀ p, ¬ ata_port p → is_ata p = false) as Hn.
  { intros p Hp. unfold is_ata, ata_port in *. destruct (Z.leb_spec ATA_DATA_REG p), (Z.leb_spec p ATA_STATUS_COMMAND_REG); try done. by destruct Hp. }
  refine {| kbc_answer := pc_kbc; kbc_polls := 2 |}.
  - intros dk d p v Hp Hd. unfold outb, pc_ports. rewrite (Hn p Hp). apply wp_modify. by repeat case_match.
  - intros dk d p Hp Hd. unfold inb, pc_ports, wp. rewrite (Hn p Hp).
    repeat (case_match; simplify_eq; try exact Hd).
  - intros d. apply wp_modify. exists 2%nat. by split.
  - intros d n Ha. unfold wp, inb, pc_ports. simpl. rewrite Ha. by destruct n.
  - intros d Ha. done.
Defined.

(** "/bin/sh" as the first program of that machine: the drive of [ExecDrive]
    with a superblock and a group descriptor, and the memory of [Boot]. *)
Definition ex_main_image : mem :=
  foldr (λ p m, st32 m p.1 p.2) ex_elf_image [(1024 + 4, 8192); (1024 + 20, 1); (1024 + 32, 8192); (1024 + 40, 8); (2048 + 8, 4)].
Definition ex_sh : list Z := [98; 105; 110; 47; 115; 104].
Definition ex_image_at (n : Z) : Z := 0xffffffff80100000 + n.
Definition ex_main_mem : mem := put_bytes ex_boot_mem (ex_image_at 0x8001) (ex_sh ++ [0]).
Definition ex_main_boot : boot (D := pc) :=
  Boot (Sched (ex_image_objects (Console (Term (Pc (Sim (ld8 ex_main_image) (λ _, 0) None 1) (Crt 0 (λ _, 0)) (Pic PicReady 0 0 0 0 0, Pic PicReady 0 0 0 0 0) None)
      (Vgaterm ∅ 3 70 0 0)) ex_main_mem 0 KERNEL_BRK_START false 0) (Pmm ex_boot_mem [])) ∅ ∅ 0 0 1 0 0 0 0)
    (ex_cpu 8 0 0 0 ∅) (GdtRegs 0 0 0 0 0) (Idtr 0 0).

Lemma ino_views v v' ino : 0 < v_per_group v → v_bsz v = v_bsz v' → v_per_group v = v_per_group v' → v_groups v = v_groups v' →
  (∀ g, 0 ≤ g < v_groups v → v_table v g = v_table v' g) → ino_ok v ino → ino_ok v' ino ∧ ino_pos v ino = ino_pos v' ino.
Proof.
  intros Hp E1 E2 E3 E4 (H1 & H2 & H3 & H4). assert (ino_pos v ino = ino_pos v' ino) as E.
  { unfold ino_pos. rewrite E4 by (split; [apply Z.div_pos; lia|done]). by rewrite E1, E2. }
  split; [|done]. unfold ino_ok. by rewrite <- E, <- E2, <- E3.
Qed.
Lemma walkable_views dk v v' dir dfuel cs : v_bsz v = v_bsz v' →
  (∀ i, ino_ok v i → ino_ok v' i ∧ ino_pos v i = ino_pos v' i) → ∀ ino,
  ino_ok v ino → walkable dk v dir dfuel cs ino → walkable dk v' dir dfuel cs ino.
Proof.
  intros E H. induction cs as [|c cs IH]; intros ino Hi; [done|]. intros (Hd & H0 & H1 & H2 & Hm). cbn [walkable].
  split; [|split; [done|split; [done|split; [done|]]]].
  - unfold dir_on in *. destruct (H ino Hi) as [_ <-]. by rewrite <- E.
  - destruct (lookup_name c (dir ino)) as [i|]; [|done]. destruct Hm as [Hm Hw]. split; [by apply H|by apply IH].
Qed.
Lemma file_views dk v v' ino F size nblk : v_bsz v = v_bsz v' → (∀ i, ino_ok v i → ino_ok v' i ∧ ino_pos v i = ino_pos v' i) →
  file_on_drive dk v ino F size nblk → file_on_drive dk v' ino F size nblk.
Proof.
  intros E H [F1 F2 F3 F4 F5 F6 F7]. destruct (H ino F1) as [Hi Hp]. split; rewrite <- ?E, <- ?Hp; done.
Qed.

Lemma ex_main_view : v_groups (disk_view (ex_bytes_of ex_main_image)) = 1 ∧ v_bsz (disk_view (ex_bytes_of ex_main_image)) = 1024 ∧
  v_per_group (disk_view (ex_bytes_of ex_main_image)) = 8 ∧ v_table (disk_view (ex_bytes_of ex_main_image)) 0 = 4 ∧
  disk_blocks_per_group (ex_bytes_of ex_main_image) = 8192 ∧ disk_first_data_block (ex_bytes_of ex_main_image) = 1 ∧
  code_groups (ex_bytes_of ex_main_image) = 1.
Proof. split_and!; by vm_compute. Qed.

Lemma ex_bin_at : disk_block (ex_bytes_of ex_main_image) (ino_pos ex_view 2) 0 = 5.
Proof. by vm_compute. Qed.
Lemma ex_sh_at : disk_block (ex_bytes_of ex_main_image) (ino_pos ex_view 3) 0 = 6.
Proof. by vm_compute. Qed.
Lemma ex_main_file : file_on_drive (ex_bytes_of ex_main_image) ex_view 4 (put_bytes ∅ 0 ex_elf) 124 1.
Proof.
  apply ex_elf_file_on.
  - vm_compute. reflexivity.
  - vm_compute. discriminate.
  - vm_compute. repeat split; discriminate.
  - vm_compute. reflexivity.
Qed.
Lemma ex_main_drive : program_on_drive (ex_bytes_of ex_main_image) ex_sh ex_dir 3 4 (put_bytes ∅ 0 ex_elf) 124 1.
Proof.
  destruct ex_main_view as (Eg & Ez & Ep & Et & Eb & Ef & Ec).
  assert (walkable (ex_bytes_of ex_main_image) ex_view ex_dir 3 (components ex_sh) EXT2_ROOT_INO) as Hwalk.
  { apply (ex_walkable ex_main_image); [rewrite ex_bin_at|rewrite ex_sh_at]; ex_solve. }
  assert (file_on_drive (ex_bytes_of ex_main_image) ex_view 4 (put_bytes ∅ 0 ex_elf) 124 1) as Hfile by exact ex_main_file.
  pose proof (ex_elf_ok ∅ 0 124 ltac:(lia)) as Helf.
  generalize dependent (ex_bytes_of ex_main_image). intros dk Eg Ez Ep Et Eb Ef Ec Hwalk Hfile.
  assert (∀ i, ino_ok ex_view i → ino_ok (disk_view dk) i ∧ ino_pos ex_view i = ino_pos (disk_view dk) i) as Hi.
  { intros i. apply ino_views; [done|by rewrite Ez|by rewrite Ep|by rewrite Eg|].
    intros g Hg. change (v_groups ex_view) with 1 in Hg. assert (g = 0) as -> by lia. by rewrite Et. }
  assert (ino_ok ex_view EXT2_ROOT_INO) as Hroot by (apply ex_ino_ok; by vm_compute).
  split; [split|..].
  - exact Ef.
  - by rewrite Ec, Eg.
  - rewrite Ez. by split.
  - by rewrite Eb.
  - by rewrite Eg.
  - by rewrite Ep.
  - by apply Hi.
  - by apply (walkable_views dk ex_view _ _ _ _ (eq_sym Ez) Hi).
  - by vm_compute.
  - by apply (file_views dk ex_view _ _ _ _ _ (eq_sym Ez) Hi).
  - exact Helf.
Qed.

Lemma ex_main_heap : heap_enough (ex_bytes_of ex_main_image) 1 1.
Proof.
  destruct ex_main_view as (Eg & Ez & _). generalize dependent (ex_bytes_of ex_main_image). intros dk Eg Ez.
  assert (mounted_blocks dk = mount_blocks 1 (tty_blocks boot_heap)) as Eb by (unfold mounted_blocks; by rewrite Eg).
  split; rewrite ?Eb, ?Eg, ?Ez; [..|by vm_compute]; split_and!; repeat first [left; by vm_compute|right].
Qed.

Lemma ex_main_layout : image_layout (ex_image_at 0) (ex_image_at 0x1000) (ex_image_at 0x2000) (ex_image_at 0x3000) (ex_image_at 0x4000)
  (ex_image_at 0x5000) (ex_image_at 0x6000) (ex_image_at 0x7000) (ex_image_at 0x8001) 7.
Proof.
  assert (∀ o n, 0 ≤ o → o + n ≤ 0x100000 → in_image (ex_image_at o) n) as Hin.
  { intros o n Ho Hn. unfold in_image, ex_image_at, HEAP_LIMIT. lia. }
  split; try (apply Hin; by vm_compute).
  - unfold ex_image_at, sizeof_gdt. lia.
  - unfold idt_regions, ex_image_at. lia.
  - unfold in_range, ex_image_at, sizeof_gdt, sizeof_tss. lia.
  - unfold in_range, ex_image_at, sizeof_gdt, sizeof_sb, sizeof_ino. lia.
  - unfold in_range, ex_image_at, sizeof_gdt, sizeof_tss, sizeof_sb, sizeof_ino. lia.
Qed.

Lemma kernel_main_spec_witness : ∃ b' init t,
  kernel_main 4 6 256 4 MmInit.ex_image 0x100000 0x120000 (ex_image_at 0) (ex_image_at 0x1000) (ex_image_at 0x2000) (ex_image_at 0x3000)
    (ex_image_at 0x4000) 0x100000 1 2 (ex_image_at 0x8000) (ex_image_at 0x7000) 0 (ex_image_at 0x5000) (ex_image_at 0x6000) 0x9000
    ex_main_boot = Ok (tt, b') ∧ tasks (b_kernel b') = {[init := t]} ∧ rip (task_regs t) = 0x400078 ∧ kernel_inv (b_kernel b').
Proof.
  set (at_ := ex_image_at).
  assert (loaded MmInit.ex_image (b_kernel ex_main_boot)) as Hload by (split; [apply ex_image_zeroed|apply ex_image_only|reflexivity|reflexivity]).
  assert (idle (ex_bytes_of ex_main_image) (t_ports (c_term (k_console (b_kernel ex_main_boot))))) as Hidle by (split; [change (1 ≤ 2)%nat; lia|by split]).
  assert (5 * (1664 + (1664 + segs_pages (load_segments (put_bytes ∅ 0 ex_elf) 0) + 32)) ≤ Z.to_nat 20000)%nat as Hn.
  { rewrite ex_elf_segments. change (segs_pages [ex_seg]) with 1%nat. lia. }
  assert (cstr (c_mem (k_console (b_kernel ex_main_boot))) (at_ 0x8000 + 1) ex_sh) as Hpath.
  { cbn [cstr ex_sh]. split_and!; vm_compute; congruence. }
  assert (in_kernel (b_cpu ex_main_boot) = true) as Hcpu by reflexivity.
  assert (0 ≤ 0x100000 < 2 ^ 64) as Hentry by by split.
  assert (heap_enough (ex_bytes_of ex_main_image) (length (load_segments (put_bytes ∅ 0 ex_elf) 0)) 1) as Hheap
    by (rewrite ex_elf_segments; exact ex_main_heap).
  assert ((ata_polls (D := pc) < 4)%nat ∧ (kbc_polls (D := pc) < 4)%nat) as Hspin by (simpl; lia).
  assert ((length (components ex_sh) + 3 < 6)%nat ∧ (3 ≤ 6)%nat ∧ (256 ≤ 256)%nat) as Hfuel by (simpl; lia).
  assert (image_layout (at_ 0) (at_ 0x1000) (at_ 0x2000) (at_ 0x3000) (at_ 0x4000) (at_ 0x5000) (at_ 0x6000) (at_ 0x7000)
    (at_ 0x8000 + 1) (Z.of_nat (length ex_sh) + 1)) as Hlayout by exact ex_main_layout.
  destruct (kernel_main_spec (ex_bytes_of ex_main_image) 4 6 256 4 MmInit.ex_image 0x100000 0x120000 (at_ 0) (at_ 0x1000) (at_ 0x2000) (at_ 0x3000)
    (at_ 0x4000) 0x100000 1 2 (at_ 0x8000) (at_ 0x7000) 0 (at_ 0x5000) (at_ 0x6000) ex_main_boot 0x9000 24 [(6, 40)] [ex_boot_entry]
    (Z.to_nat 20000) ex_sh ex_dir 3 4 (put_bytes ∅ 0 ex_elf) 124 1 ex_image_ok Hload eq_refl Hidle ex_boot_info Hn Hlayout Hpath Hcpu
    Hentry ex_main_drive Hheap Hspin Hfuel) as (b' & init & t & a & x & DD & Hrun & [_ _ _ _ [T1 _] _ [E1 _] _ _ _ Hinv _]).
  exists b', init, t. split; [exact Hrun|]. split; [exact T1|]. split; [rewrite E1; apply ex_elf_header|exact Hinv].
Defined.
